(* ===== verification/_CoqProject ===== *)
-Q . S2P
Prelude.v
BytesCodec.v
AddrMangle.v
Crypto.v
Encoding.v
Version.v
Tcp.v
Handshake.v
LoginThrottle.v
Float32.v
VideoQos.v
PasswordSecurity.v
PermanentPassword.v
Authentication.v
SessionScope.v
LoginFlow.v
Rendezvous.v
Relay.v
FileSystem.v
FileTransfer.v
FileSafety.v
TerminalBuffer.v
Terminal.v
SessionState.v
SessionHandler.v
SessionSubs.v
Service.v
PointerServices.v
Server.v
VideoService.v
HostPort.v
Options.v
Mediator.v
Connect.v
ViewerOptions.v
ViewerLogin.v
Codec.v
Presence.v
ViewerVideo.v
LocalIpc.v
SecondFactor.v
Displays.v
Discovery.v
Tunnel.v
CustomServer.v
