(* ===== verification/Prelude.v ===== *)
(** * CodeDesk verification library

    CodeDesk is a remote desktop: a controlled device registers at a rendezvous
    server (hbbs), a viewer asks that server for the device, both meet directly
    or through a relay server (hbbr), agree on keys end to end, and the device
    lets the viewer in after checking a password, a second factor or a click of
    its user; then frames, pointers, files and terminals flow.  This library
    models that core of the Rust code, from the bytes on the wire up to the
    sessions and services of a device and its viewers, and proves it correct.
    Paths below are relative to the repository.

    ** Conventions

    Definitions keep the names of the source.  A handler is one function with
    the code's guards and early returns; [&mut] arguments, process-wide tables
    and files are threaded as explicit state; failure is [option] or [result];
    what a handler sends is returned as a list.  Machine integers are [Z] with
    the release build's wrap-around written out ([wrap], [u64_of], [i32_of]),
    [f32] is the executable IEEE model of [Float32].  Clocks, random draws,
    socket failures and answers of the operating system are arguments, so every
    theorem holds for all of them.  Third-party code (libsodium, SHA-256,
    base64, protobuf) is a class of operations with a class of laws; the
    modules [Toy], [ToySha], [ToyWire] and [Rfc4648] are instances that show
    the laws hold together and let witnesses compute.  A definition is
    executable, and each theorem with hypotheses is followed, at the end of its
    file, by a witness that applies it to a concrete run.

    ** Files, from the wire upwards

    - [Prelude]: results and their notation, machine integers, lists with [Z]
      lengths, minima and maxima, hint databases [codedesk] and [lens].
    - [BytesCodec] (libs/hbb_common/src/bytes_codec.rs): the frame codec of all
      TCP streams.  [stream_roundtrip], [decode_bounded], [encode_overflow].
      The read loop [drain] runs on fuel, two units for each buffered byte
      and two more: each frame consumes its header or leaves the [Data] state,
      so the fuel never runs out.
    - [AddrMangle] (libs/hbb_common/src/lib.rs): socket addresses inside
      rendezvous messages.  [mangle_roundtrip].
    - [Crypto], [Encoding]: the interfaces of libsodium and base64, and UTF-8
      as the standard library decodes it (fuel: the length of the input).
    - [Version] (libs/hbb_common/src/lib.rs): [get_version_number].
    - [Tcp] (libs/hbb_common/src/tcp.rs): a framed stream with [Encrypt], built
      on [BytesCodec] and the class [Secretbox].  [secure_channel],
      [enc_nonces_NoDup].
    - [Handshake] (src/client.rs, src/server.rs, src/common.rs): both ends of
      the key agreement over [Tcp], the classes [Box], [Sign] and [Wire].
      [secure_connection_authentic], [create_tcp_connection_secured],
      [handshake_agreement].
    - [LoginThrottle] (src/server/login_failure_check.rs, connection.rs):
      failure counters per address, per IPv6 network and for operating-system
      log-ons.  Three bounds on how many guesses get through.
    - [Float32], [VideoQos] (src/server/video_qos.rs): frame rate and bitrate
      control.  [qos_invariant] covers every operation of the component,
      [adjust_fps_contract] and [adjust_ratio_contract] say what is chosen.
    - [PasswordSecurity] (libs/hbb_common/src/password_security.rs),
      [PermanentPassword] (config/permanent_password.rs, config.rs): secrets
      and the permanent password at rest, across crashes and synchronisation.
    - [Authentication] (connection.rs, password_security.rs): temporary and
      permanent passwords against a challenge.  The abstract specification is
      the list [credentials]; [validate_password_refines] is the refinement.
    - [SessionScope] (connection.rs): what each kind of session may send.
    - [LoginFlow] (connection.rs): the login state machine that composes
      [Authentication], [LoginThrottle] and [SessionScope].
    - [Rendezvous] (server/src/rendezvous_server.rs, peer.rs, database.rs): the
      message handlers of hbbs over the shared peer map, its database and the
      waiting TCP sinks; uses [AddrMangle] and [Sign].
    - [Relay] (server/src/relay_server.rs): pairing as interleaved tasks
      ([Pair]) and the copying loop ([Copy]).
    - [FileSystem] (std::path, std::fs as used), [FileTransfer]
      (libs/hbb_common/src/fs.rs, src/ui_cm_interface.rs), [FileSafety]: the
      jobs that read and write files, what arrives ([transfer_delivers], with
      the number of rounds that is enough) and what a hostile peer can touch
      ([peer_confined]).  [resolve] runs on the kernel's limit of 40 links.
    - [TerminalBuffer], [Terminal] (src/server/terminal_service.rs): terminals
      that survive their connection.  [reconnect_replay], [replay_recent],
      [reader_delivers], [sigwinch_settles].
    - [SessionState], [SessionHandler], [SessionSubs] (connection.rs): the
      messages, effects and handlers of an open session in a small step monad
      with its own triples; [session_permitted], [revoked_stays_revoked],
      [subscriptions_follow].
    - [Service] (src/server/service.rs): the class [Subscriber] with its laws;
      each subscriber sees a service as phases ([service_refines_phases]).
    - [PointerServices] (src/server/input_service.rs), [VideoService]
      (video_service.rs), [Server] (src/server.rs): instances and clients of
      [Service].  [server_simulates_session] joins [Server] and [SessionSubs].
    - [Codec] (libs/scrap/src/common/codec.rs): one video codec for all viewers.
      [everyone_can_decode], [votes_decide], [failing_codec_given_up].
    - [HostPort] (socket_client.rs), [Options] (config.rs): addresses as text,
      options in three layers, servers, proxies and display settings.
    - [Mediator] (src/rendezvous_mediator.rs): the device's side of
      registration, run against [Rendezvous].
    - [Connect] (src/client.rs, src/server.rs): how a viewer reaches a device;
      [relay_meeting] composes viewer, [Rendezvous], [Mediator] and [Relay].
    - [Presence] (src/client.rs): the online lists, against [Rendezvous].
    - [ViewerOptions], [ViewerLogin] (src/client.rs): the viewer's options kept
      in step with [SessionHandler]'s, its answers to [LoginFlow]'s challenge
      and the passwords it remembers.
    - [ViewerVideo] (src/client/io_loop.rs): frames on their way to the decoder
      and the frame rate a viewer asks for.
    - [LocalIpc] (src/ipc.rs): settings made in the window reach the service,
      [settings_reach_service].
    - [SecondFactor] (src/auth_2fa.rs): enrolling an authenticator through
      [LocalIpc] makes every login of [LoginFlow] wait for it,
      [second_factor_enforced].
    - [Displays] (src/server/display_service.rs): the display service as a
      client of [Service], and changed resolutions.
      [viewers_know_displays], [resolutions_restored].
    - [Discovery] (src/lan.rs): devices on the local network, [lan_discovery].
    - [Tunnel] (src/port_forward.rs, connection.rs): both ends of a forwarded
      connection over [Tcp], through the switch from sealed frames to raw bytes,
      [tunnel_transparent].
    - [CustomServer] (src/custom_server.rs, src/naming.rs, core_main.rs): servers
      named in the program's file name, [server_names_read].

    ** What the theorems show

    Transport: what is sent is received, whole and in order, however the
    network cuts it; hostile bytes cannot make the decoder allocate without
    bound; sealed messages never reuse a nonce.  Key agreement: keys are only
    accepted along the chain of signatures from the server's key to the device,
    and the honest run ends with equal keys and counters.  Servers: a device
    keeps its identity and stays online despite lost messages, the key that is
    signed is the one that was registered, a viewer's request and the device's
    answer find each other directly or at a relay, floods are cut off, relayed
    bytes only flow between two that asked for the same session, online lists
    tell the truth.  Login: an authorized connection has a proof behind it, a
    session has the permission of its kind, passwords never rest in plaintext,
    what the user sets is what opens the device, a remembered password opens it
    again, shared ones are not kept, an enrolled second factor is asked for,
    guessing is bounded.  Settings: options read back as they were set and reach
    the service, servers named in a file name are found.  Sessions: whatever a
    viewer sends, a session does what its kind, permissions and options allow,
    a revoked permission stays revoked, subscriptions and the viewer's view of
    the options follow.  Services: each viewer gets a snapshot and then every
    change, frames it can decode from the first on, in a codec all viewers
    know; at the viewer frames are decoded in order and at a rate it can keep.
    Files: a transfer delivers the files, a hostile one stays in its directory.
    Terminals: a viewer that comes back sees the end of what it missed, and then
    what the terminal's queue lets through.  Tunnels: only what the two programs
    wrote is copied, and all of it, when nothing else is said on the connection.
    Displays: viewers know them, except one left behind, and get their resolutions
    back.  Quality control never panics and stays in range.  Each theorem's comment
    says under what circumstances it holds.

    These theorems and examples record behaviour that looks unintended:
    [LoginFlow.code_alone_authorizes],
    [LoginFlow.switch_sides_bypasses_tunnel_permission],
    [Relay.Pair.concurrent_arrivals_lost], the seventh guess allowed by
    [LoginThrottle.guesses_per_minute], [SessionSubs.permission_gaps],
    [ViewerOptions.own_cursor_not_announced],
    [ViewerVideo.overflow_breaks_order], [Presence.short_answer_panics],
    [Presence.ipv6_server_not_asked], [SecondFactor.verify_not_stored],
    [SecondFactor.moved_secret_not_required],
    [Displays.late_viewer_keeps_old_list], [PointerServices.arrival_in_the_gap],
    [Tunnel.click_injects_reply],
    [Tunnel.chat_injected], [Tunnel.tunnelled_in_clear], [CustomServer.printed_name_not_read],
    [CustomServer.kelvin_panics], [CustomServer.config_guard_misses] and the
    last case of [HostPort.check_port_tests].

    ** What is not modelled

    Capture, the codecs themselves, input injection, clipboards, user
    interfaces, platform services, plugins and vendored libraries are I/O, FFI
    or third-party code.  Sockets, timers and task scheduling appear only as
    the events and arguments described above; within hbbs a message is handled
    in one step.  In file transfers a path that ends in a slash or a dot is not
    told apart from one that does not, except where files are renamed to a path
    that ends in a dot, and times are whole seconds.  In
    sessions the log of removed files and the confirmation of reading jobs are
    left out, as are mobile devices; displays are those of X11.  At the viewer
    drawing, sound, recording and the dialogs are left out; of port forwarding
    the listener, timeouts and closing.  The rest of local IPC and the HTTP clients remain to be
    modelled. *)
From stdpp Require Export base list gmap strings sets pretty.
From coqutil Require Export Byte Word.LittleEndianList.
From Stdlib Require Export ZArith Lia Sorted.
From Stdlib Require Strings.Byte.
From Stdlib Require Strings.Ascii.
Export (notations) Strings.Ascii.

#[global] Open Scope Z_scope.

(** Bytes are the standard library's [Byte.byte]; [byte.unsigned] and
    [byte.of_Z] (coqutil) are the conversions [as usize] / [as u8]. *)
Abbreviation byte := Init.Byte.byte.
Abbreviation bytes := (list Init.Byte.byte).

#[export] Instance byte_eq_dec : EqDecision byte.
Proof. intros x y. apply Stdlib.Strings.Byte.byte_eq_dec. Defined.
#[export] Instance byte_countable : Countable byte.
Proof. apply (inj_countable' byte.unsigned byte.of_Z). apply byte.of_Z_unsigned. Defined.

(** ** Results of fallible code (Rust's [Result]) *)
Inductive result (A E : Type) : Type :=
| Ok (a : A)
| Err (e : E).
Arguments Ok {A E} a.
Arguments Err {A E} e.

Declare Scope codedesk_scope.
Delimit Scope codedesk_scope with cd.
#[global] Open Scope codedesk_scope.

Definition result_bind {A B E} (r : result A E) (k : A -> result B E) : result B E :=
  match r with
  | Ok a => k a
  | Err e => Err e
  end.

(** Rust's [?] operator. *)
Notation "'let?' x := r 'in' k" := (result_bind r (fun x => k))
  (at level 10, x pattern, r at level 100, k at level 200)
  : codedesk_scope.

Definition is_ok {A E} (r : result A E) : bool :=
  match r with Ok _ => true | Err _ => false end.

#[export] Instance result_eq_dec {A E} `{EqDecision A} `{EqDecision E} :
  EqDecision (result A E).
Proof. solve_decision. Defined.

(** ** Machine integers

    A w-bit unsigned integer is a [Z] in [0, 2^w); the [as uN] casts and the
    release-mode wrapping arithmetic reduce modulo [2^w]. *)
Definition wrap (w : Z) (z : Z) : Z := z mod 2 ^ w.

Definition u8_of (z : Z) : Z := wrap 8 z.
Definition u16_of (z : Z) : Z := wrap 16 z.
Definition u32_of (z : Z) : Z := wrap 32 z.
Definition u64_of (z : Z) : Z := wrap 64 z.
Definition u128_of (z : Z) : Z := wrap 128 z.

(** Two's complement reading of the low [w] bits. *)
Definition swrap (w : Z) (z : Z) : Z := (z + 2 ^ (w - 1)) mod 2 ^ w - 2 ^ (w - 1).
Definition i32_of (z : Z) : Z := swrap 32 z.
Definition i64_of (z : Z) : Z := swrap 64 z.

Definition u32_max : Z := 2 ^ 32 - 1.
Definition u64_max : Z := 2 ^ 64 - 1.
Definition i32_max : Z := 2 ^ 31 - 1.
Definition i64_max : Z := 2 ^ 63 - 1.
Definition i64_min : Z := - 2 ^ 63.

(** [saturating_sub] on unsigned operands, and [i64]/[i32] saturation. *)
Definition usat_sub (a b : Z) : Z := Z.max 0 (a - b).
Definition clampZ (lo hi z : Z) : Z := Z.min hi (Z.max lo z).
Definition i64_sat (z : Z) : Z := clampZ i64_min i64_max z.
Definition i32_sat (z : Z) : Z := clampZ (- 2 ^ 31) i32_max z.

Definition in_width (w z : Z) : Prop := 0 <= z < 2 ^ w.

Lemma wrap_id w z : in_width w z -> wrap w z = z.
Proof. intros [??]. by apply Z.mod_small. Qed.

Lemma wrap_in_width w z : 0 <= w -> in_width w (wrap w z).
Proof. intros ?. apply Z.mod_pos_bound. by apply Z.pow_pos_nonneg. Qed.

Lemma swrap_id w z : 0 < w -> - 2 ^ (w - 1) <= z < 2 ^ (w - 1) -> swrap w z = z.
Proof.
  intros Hw Hz. unfold swrap.
  replace (2 ^ w) with (2 * 2 ^ (w - 1))
    by (rewrite <- Z.pow_succ_r by lia; f_equal; lia).
  rewrite Z.mod_small; lia.
Qed.

Lemma clampZ_bounds lo hi z : lo <= hi -> lo <= clampZ lo hi z <= hi.
Proof. unfold clampZ. lia. Qed.

Lemma clampZ_id lo hi z : lo <= z <= hi -> clampZ lo hi z = z.
Proof. unfold clampZ. lia. Qed.

(** [lor] of numbers that occupy disjoint bit ranges is addition. *)
Lemma land_shiftl_low a b n :
  0 <= n -> 0 <= a < 2 ^ n -> Z.land a (Z.shiftl b n) = 0.
Proof.
  intros Hn Ha. apply Z.bits_inj'. intros i Hi.
  rewrite Z.land_spec, Z.bits_0.
  destruct (Z.lt_ge_cases i n).
  - rewrite Z.shiftl_spec_low by done. by rewrite andb_false_r.
  - destruct (decide (a = 0)) as [->|Ha0]; [by rewrite Z.bits_0|].
    rewrite Z.bits_above_log2; [done|lia|].
    apply Z.lt_le_trans with n; [|done]. apply Z.log2_lt_pow2; lia.
Qed.

Lemma lor_shiftl_add a b n :
  0 <= n -> 0 <= a < 2 ^ n -> Z.lor a (Z.shiftl b n) = a + b * 2 ^ n.
Proof.
  intros Hn Ha. rewrite <- (Z.shiftl_mul_pow2 b n) by done.
  symmetry. apply Z.add_nocarry_lor. by apply land_shiftl_low.
Qed.

(** ** Lists and buffers *)

(** [len] is Rust's [len()], a [usize]. *)
Definition len {A} (l : list A) : Z := Z.of_nat (length l).

Lemma len_nonneg {A} (l : list A) : 0 <= len l.
Proof. unfold len. lia. Qed.

Lemma len_app {A} (l k : list A) : len (l ++ k) = len l + len k.
Proof. unfold len. rewrite length_app. lia. Qed.

Lemma len_cons {A} (x : A) (l : list A) : len (x :: l) = 1 + len l.
Proof. unfold len. simpl. lia. Qed.

Lemma len_nil {A} : len (@nil A) = 0.
Proof. done. Qed.

Lemma len_le_split n z : len (le_split n z) = Z.of_nat n.
Proof. unfold len. by rewrite length_le_split. Qed.

Create HintDb codedesk.
#[export] Hint Resolve len_nonneg : codedesk.
Create Rewrite HintDb lens.
#[export] Hint Rewrite @len_app @len_cons @len_nil len_le_split : lens.

(** Number of bytes as the index type of lists. *)
Definition takeZ {A} (n : Z) (l : list A) : list A := take (Z.to_nat n) l.
Definition dropZ {A} (n : Z) (l : list A) : list A := drop (Z.to_nat n) l.

Lemma takeZ_dropZ {A} n (l : list A) : takeZ n l ++ dropZ n l = l.
Proof. apply take_drop. Qed.

Lemma takeZ_app_len {A} n (l k : list A) : len l = n -> takeZ n (l ++ k) = l.
Proof. intros <-. unfold takeZ, len. rewrite Nat2Z.id. apply take_app_length. Qed.

Lemma dropZ_app_len {A} n (l k : list A) : len l = n -> dropZ n (l ++ k) = k.
Proof. intros <-. unfold dropZ, len. rewrite Nat2Z.id. apply drop_app_length. Qed.

Lemma takeZ_app_le {A} n (l k : list A) : n <= len l -> takeZ n (l ++ k) = takeZ n l.
Proof. intros H. unfold takeZ. apply take_app_le. unfold len in H. lia. Qed.

Lemma dropZ_app_le {A} n (l k : list A) : n <= len l -> dropZ n (l ++ k) = dropZ n l ++ k.
Proof. intros H. unfold dropZ. apply drop_app_le. unfold len in H. lia. Qed.

Lemma len_takeZ {A} n (l : list A) : 0 <= n <= len l -> len (takeZ n l) = n.
Proof. intros H. unfold len, takeZ in *. rewrite length_take. lia. Qed.

Lemma len_dropZ {A} n (l : list A) : 0 <= n <= len l -> len (dropZ n l) = len l - n.
Proof. intros H. unfold len, dropZ in *. rewrite length_drop. lia. Qed.

Lemma len_0_nil {A} (l : list A) : len l = 0 -> l = [].
Proof. destruct l; [done|]. rewrite len_cons. pose proof (len_nonneg l). lia. Qed.

(** ** Extrema of lists *)
Definition list_min (l : list Z) : option Z :=
  match l with [] => None | x :: l => Some (foldl Z.min x l) end.
Definition list_max (l : list Z) : option Z :=
  match l with [] => None | x :: l => Some (foldl Z.max x l) end.

Lemma foldl_min_spec l : forall x,
  foldl Z.min x l ∈ x :: l /\ Forall (fun y => foldl Z.min x l <= y) (x :: l).
Proof.
  induction l as [|y l IH]; intros x; simpl; [split; [set_solver|by repeat constructor]|].
  destruct (IH (Z.min x y)) as [H1 H2]. inversion H2 as [|?? Hm Hf]; subst. split.
  - rewrite !elem_of_cons in *. destruct H1 as [->|?]; [|tauto].
    destruct (Z.min_spec x y) as [[_ E]|[_ E]]; rewrite E at 1; tauto.
  - constructor; [lia|]. constructor; [lia|done].
Qed.

Lemma list_min_spec l m : list_min l = Some m -> m ∈ l /\ Forall (fun y => m <= y) l.
Proof. destruct l; [done|]. intros [= <-]. apply foldl_min_spec. Qed.
