(* ===== verification/BytesCodec.v ===== *)
(** * The length-prefixed frame codec of [libs/hbb_common/src/bytes_codec.rs]

    Every TCP stream of the client, of [hbbs] and of [hbbr] is cut into frames
    by [BytesCodec]: a 1 to 4 byte little-endian header whose two low bits hold
    the header's size minus one and whose other bits hold the payload length.
    [BytesMut] buffers are byte lists; [&mut] arguments are threaded
    explicitly, and [BytesMut::reserve], the only allocation driven by the
    peer, is returned as a number of bytes. *)
From S2P Require Import Prelude.

Definition MAX_PREALLOCATED_PAYLOAD_LEN : Z := 256 * 1024.

Inductive DecodeState :=
| Head
| Data (n : Z).

Record BytesCodec := mkBytesCodec {
  state : DecodeState;
  raw : bool;
  max_packet_length : Z
}.

Inductive IoErrorKind := InvalidData | InvalidInput.

#[export] Instance DecodeState_eq_dec : EqDecision DecodeState.
Proof. solve_decision. Defined.
#[export] Instance BytesCodec_eq_dec : EqDecision BytesCodec.
Proof. solve_decision. Defined.

Definition usize_max : Z := u64_max.

Definition new : BytesCodec :=
  {| state := Head; raw := false; max_packet_length := usize_max |}.

Definition set_raw (c : BytesCodec) : BytesCodec :=
  {| state := state c; raw := true; max_packet_length := max_packet_length c |}.

Definition set_max_packet_length (c : BytesCodec) (n : Z) : BytesCodec :=
  {| state := state c; raw := raw c; max_packet_length := n |}.

Definition set_state (c : BytesCodec) (s : DecodeState) : BytesCodec :=
  {| state := s; raw := raw c; max_packet_length := max_packet_length c |}.

(** [src[i] as usize]; every use below is guarded by a length test. *)
Definition byte_at (src : bytes) (i : nat) : Z := byte.unsigned (nth i src Byte.x00).

(** The header bytes assembled into a number, [head_len] of them. *)
Definition head_value (h : Z) (src : bytes) : Z :=
  let n := byte_at src 0 in
  let n := if 1 <? h then Z.lor n (Z.shiftl (byte_at src 1) 8) else n in
  let n := if 2 <? h then Z.lor n (Z.shiftl (byte_at src 2) 16) else n in
  if 3 <? h then Z.lor n (Z.shiftl (byte_at src 3) 24) else n.

(** What [decode_head] leaves: its result, the advanced buffer and the number
    of bytes it asked [reserve] for. *)
Definition decode_head (c : BytesCodec) (src : bytes)
  : result (option Z) IoErrorKind * bytes * Z :=
  if decide (src = []) then (Ok None, src, 0) else
  let head_len := Z.land (byte_at src 0) 3 + 1 in
  if len src <? head_len then (Ok None, src, 0) else
  let n := Z.shiftr (head_value head_len src) 2 in
  if max_packet_length c <? n then (Err InvalidData, src, 0) else
  let src := dropZ head_len src in
  let reserved := Z.min (usat_sub n (len src)) MAX_PREALLOCATED_PAYLOAD_LEN in
  (Ok (Some n), src, reserved).

Definition decode_data (n : Z) (src : bytes) : option bytes * bytes :=
  if len src <? n then (None, src) else (Some (takeZ n src), dropZ n src).

(** The tail of [decode], once the payload length is known. *)
Definition decode_payload (n : Z) (c : BytesCodec) (src : bytes)
  : result (option bytes) IoErrorKind * BytesCodec * bytes :=
  match decode_data n src with
  | (Some d, src) => (Ok (Some d), set_state c Head, src)
  | (None, src) => (Ok None, c, src)
  end.

(** [Decoder::decode]. *)
Definition decode (c : BytesCodec) (src : bytes)
  : result (option bytes) IoErrorKind * BytesCodec * bytes :=
  if raw c then
    if decide (src = []) then (Ok None, c, src)
    else (Ok (Some (takeZ (len src) src)), c, dropZ (len src) src)
  else
    match state c with
    | Head =>
        match decode_head c src with
        | (Err e, src, _) => (Err e, c, src)
        | (Ok None, src, _) => (Ok None, c, src)
        | (Ok (Some n), src, _) => decode_payload n (set_state c (Data n)) src
        end
    | Data n => decode_payload n c src
    end.

(** [Encoder::encode]: the bytes appended to [buf]. *)
Definition encode (c : BytesCodec) (data : bytes) (buf : bytes)
  : result bytes IoErrorKind :=
  if raw c then Ok (buf ++ data)
  else if len data <=? 0x3F then
    Ok ((buf ++ le_split 1 (u8_of (Z.shiftl (len data) 2))) ++ data)
  else if len data <=? 0x3FFF then
    Ok ((buf ++ le_split 2 (Z.lor (u16_of (Z.shiftl (len data) 2)) 1)) ++ data)
  else if len data <=? 0x3FFFFF then
    let h := Z.lor (u32_of (Z.shiftl (len data) 2)) 2 in
    Ok (((buf ++ le_split 2 (u16_of (Z.land h 0xFFFF)))
           ++ le_split 1 (u8_of (Z.shiftr h 16))) ++ data)
  else if len data <=? 0x3FFFFFFF then
    Ok ((buf ++ le_split 4 (Z.lor (u32_of (Z.shiftl (len data) 2)) 3)) ++ data)
  else Err InvalidInput.

(** The frame a payload is sent as, when it is short enough. *)
Definition header (n : Z) : bytes :=
  if n <=? 0x3F then le_split 1 (n * 4)
  else if n <=? 0x3FFF then le_split 2 (n * 4 + 1)
  else if n <=? 0x3FFFFF then le_split 3 (n * 4 + 2)
  else le_split 4 (n * 4 + 3).

(** ** Header arithmetic *)

Lemma of_Z_mod z z' : z mod 256 = z' mod 256 -> byte.of_Z z = byte.of_Z z'.
Proof.
  intros H. apply byte.unsigned_inj. rewrite !byte.unsigned_of_Z. exact H.
Qed.

Lemma lor_tag n k : 0 <= k < 4 -> Z.lor (Z.shiftl n 2) k = n * 4 + k.
Proof. intros Hk. rewrite Z.lor_comm, lor_shiftl_add; lia. Qed.

Lemma le_split_2_1 h : 0 <= h < 2 ^ 24 ->
  le_split 2 (u16_of (Z.land h 0xFFFF)) ++ le_split 1 (u8_of (Z.shiftr h 16)) = le_split 3 h.
Proof.
  intros Hh. unfold u16_of, u8_of, wrap. cbv [le_split app].
  change 0xFFFF with (Z.ones 16). rewrite Z.land_ones by lia.
  rewrite !Z.shiftr_div_pow2 by lia. change (2 ^ 8) with 256. change (2 ^ 16) with 65536.
  rewrite Z.div_div by lia. change (256 * 256) with 65536.
  apply f_equal2; [|apply f_equal2; [|apply f_equal2; [|done]]];
    apply of_Z_mod; Z.div_mod_to_equations; lia.
Qed.

Lemma tag_wrap w n k : 0 <= n -> n * 4 < 2 ^ w -> 0 <= k < 4 ->
  Z.lor (wrap w (Z.shiftl n 2)) k = n * 4 + k.
Proof.
  intros Hn Hw Hk. rewrite wrap_id, lor_tag; [done|done|].
  rewrite Z.shiftl_mul_pow2 by lia. split; lia.
Qed.

Lemma encode_spec c data buf :
  raw c = false -> len data <= 0x3FFFFFFF ->
  encode c data buf = Ok (buf ++ header (len data) ++ data).
Proof.
  intros Hr Hl. pose proof (len_nonneg data) as Hp.
  unfold encode, header. rewrite Hr. unfold u16_of, u32_of.
  destruct (Z.leb_spec (len data) 0x3F).
  { unfold u8_of. rewrite Z.shiftl_mul_pow2, wrap_id, <- app_assoc by (split || idtac; lia). done. }
  destruct (Z.leb_spec (len data) 0x3FFF).
  { rewrite tag_wrap, <- app_assoc by lia. done. }
  destruct (Z.leb_spec (len data) 0x3FFFFF).
  { rewrite tag_wrap by lia. fold (u16_of (Z.land (len data * 4 + 2) 65535)).
    rewrite <- (app_assoc buf), le_split_2_1, <- app_assoc by lia. done. }
  destruct (Z.leb_spec (len data) 0x3FFFFFFF); [|lia].
  rewrite tag_wrap, <- app_assoc by lia. done.
Qed.

(** The value [decode_head] assembles is the little-endian reading of the
    header bytes. *)
Lemma head_value_combine hdr rest :
  1 <= len hdr <= 4 -> head_value (len hdr) (hdr ++ rest) = le_combine hdr.
Proof.
  intros H. unfold head_value, byte_at.
  destruct hdr as [|b0 [|b1 [|b2 [|b3 [|]]]]]; unfold len in H; simpl in H; try lia;
    cbv [le_combine len length Z.of_nat Pos.of_succ_nat Pos.succ nth app Z.ltb Z.compare
           Pos.compare Pos.compare_cont];
    rewrite ?Z.shiftl_0_l, ?Z.lor_0_r, ?Z.shiftl_lor, ?Z.shiftl_shiftl, ?Z.lor_assoc by lia;
    reflexivity.
Qed.

Lemma header_len n : 0 <= n -> 1 <= len (header n) <= 4.
Proof. intros ?. unfold header. repeat case_match; rewrite len_le_split; lia. Qed.

Lemma header_combine n : 0 <= n <= 0x3FFFFFFF ->
  le_combine (header n) = n * 4 + (len (header n) - 1).
Proof.
  intros ?. unfold header.
  destruct (Z.leb_spec n 0x3F); [|destruct (Z.leb_spec n 0x3FFF);
    [|destruct (Z.leb_spec n 0x3FFFFF)]];
    rewrite le_combine_split, len_le_split, Z.mod_small by (simpl; lia); lia.
Qed.

Lemma land_3 z : Z.land z 3 = z mod 4.
Proof. by apply (Z.land_ones z 2). Qed.

Lemma header_tag n rest : 0 <= n <= 0x3FFFFFFF ->
  Z.land (byte_at (header n ++ rest) 0) 3 + 1 = len (header n).
Proof.
  intros ?. unfold header, byte_at.
  destruct (Z.leb_spec n 0x3F); [|destruct (Z.leb_spec n 0x3FFF);
    [|destruct (Z.leb_spec n 0x3FFFFF)]];
    rewrite len_le_split; cbv [le_split app nth];
    rewrite byte.unsigned_of_Z; unfold byte.wrap;
    rewrite land_3; change (2 ^ 8) with 256; simpl (Z.of_nat _);
    Z.div_mod_to_equations; lia.
Qed.

Lemma decode_head_header c n rest :
  0 <= n <= 0x3FFFFFFF -> n <= max_packet_length c ->
  decode_head c (header n ++ rest) =
    (Ok (Some n), rest, Z.min (usat_sub n (len rest)) MAX_PREALLOCATED_PAYLOAD_LEN).
Proof.
  intros Hn Hm. pose proof (header_len n ltac:(lia)) as Hh.
  unfold decode_head. case_decide as E.
  { apply (f_equal len) in E. autorewrite with lens in E.
    pose proof (len_nonneg rest). lia. }
  rewrite header_tag by done. rewrite len_app.
  pose proof (len_nonneg rest) as Hr.
  destruct (Z.ltb_spec (len (header n) + len rest) (len (header n))); [lia|].
  rewrite head_value_combine, header_combine by done.
  replace (Z.shiftr (n * 4 + (len (header n) - 1)) 2) with n
    by (rewrite Z.shiftr_div_pow2 by lia; Z.div_mod_to_equations; lia).
  destruct (Z.ltb_spec (max_packet_length c) n); [lia|].
  by rewrite dropZ_app_len.
Qed.

(** ** Streams

    [Framed] (tokio-util) appends whatever the socket delivers to the buffer
    and calls [decode] until it answers [Ok(None)]; [drain] is that inner loop
    and [feed] the outer one, over an arbitrary fragmentation of the stream. *)
Inductive outcome :=
| Waiting (c : BytesCodec) (src : bytes)
| Failed (e : IoErrorKind).

Fixpoint drain_fuel (fuel : nat) (c : BytesCodec) (src : bytes)
  : option (list bytes * outcome) :=
  match fuel with
  | O => None
  | S fuel =>
      match decode c src with
      | (Err e, _, _) => Some ([], Failed e)
      | (Ok None, c', src') => Some ([], Waiting c' src')
      | (Ok (Some d), c', src') =>
          match drain_fuel fuel c' src' with
          | Some (ds, o) => Some (d :: ds, o)
          | None => None
          end
      end
  end.

(** Each frame either consumes a header byte or leaves the [Data] state. *)
Definition pending (c : BytesCodec) (src : bytes) : nat :=
  2 * length src + match state c with Head => 0 | Data _ => 1 end.

Definition drain (c : BytesCodec) (src : bytes) : list bytes * outcome :=
  default ([], Waiting c src) (drain_fuel (S (pending c src)) c src).

Fixpoint feed (c : BytesCodec) (buf : bytes) (chunks : list bytes)
  : list bytes * outcome :=
  match chunks with
  | [] => ([], Waiting c buf)
  | ch :: chunks =>
      match drain c (buf ++ ch) with
      | (ds, Failed e) => (ds, Failed e)
      | (ds, Waiting c buf) =>
          let '(ds', o) := feed c buf chunks in (ds ++ ds', o)
      end
  end.

Fixpoint encode_all (c : BytesCodec) (msgs : list bytes) (buf : bytes)
  : result bytes IoErrorKind :=
  match msgs with
  | [] => Ok buf
  | m :: msgs => let? buf := encode c m buf in encode_all c msgs buf
  end.

(** *** One step of the decoder *)

Lemma land_3_bound z : 0 <= Z.land z 3 < 4.
Proof. rewrite land_3. apply Z.mod_pos_bound. lia. Qed.

Lemma byte_at_app src more i : Z.of_nat i < len src -> byte_at (src ++ more) i = byte_at src i.
Proof. intros H. unfold byte_at, len in *. by rewrite app_nth1 by lia. Qed.

Lemma head_value_app h src more :
  h <= len src -> 1 <= len src -> head_value h (src ++ more) = head_value h src.
Proof.
  intros Hh H1. unfold head_value.
  rewrite (byte_at_app _ _ 0) by lia.
  repeat (case_match || rewrite byte_at_app by lia); try done;
    rewrite ?Z.ltb_lt in *; rewrite ?byte_at_app by lia; done.
Qed.

Lemma nonempty_len {A} (src : list A) : src <> [] -> 1 <= len src.
Proof. destruct src as [|x l]; [done|]. rewrite len_cons. pose proof (len_nonneg l). lia. Qed.

(** [decode_head] looks at no more than the header: its answer on a buffer is
    its answer on every extension of it. *)
Lemma decode_head_app c src more r src' k :
  decode_head c src = (r, src', k) -> r <> Ok None ->
  exists k', decode_head c (src ++ more) = (r, src' ++ more, k').
Proof.
  unfold decode_head. intros H Hr.
  destruct (decide (src = [])) as [->|Hne]; [by simplify_eq|].
  apply nonempty_len in Hne.
  rewrite decide_False by (intros E%(f_equal len); rewrite len_app, len_nil in E;
                           pose proof (len_nonneg more); lia).
  rewrite (byte_at_app _ _ 0) by lia.
  pose proof (land_3_bound (byte_at src 0)) as Hb.
  pose proof (len_nonneg more). rewrite len_app.
  destruct (Z.ltb_spec (len src) (Z.land (byte_at src 0) 3 + 1)); [by simplify_eq|].
  destruct (Z.ltb_spec (len src + len more) (Z.land (byte_at src 0) 3 + 1)); [lia|].
  rewrite head_value_app by lia.
  case_match; simplify_eq; rewrite ?dropZ_app_le by lia; eauto.
Qed.

Lemma decode_data_app n src more d src' :
  decode_data n src = (Some d, src') -> decode_data n (src ++ more) = (Some d, src' ++ more).
Proof.
  unfold decode_data. rewrite len_app. pose proof (len_nonneg more).
  destruct (Z.ltb_spec (len src) n); [done|]. intros [= <- <-].
  destruct (Z.ltb_spec (len src + len more) n); [lia|].
  by rewrite takeZ_app_le, dropZ_app_le by lia.
Qed.

Lemma decode_payload_app n c src more d c' src' :
  decode_payload n c src = (Ok (Some d), c', src') ->
  decode_payload n c (src ++ more) = (Ok (Some d), c', src' ++ more).
Proof.
  unfold decode_payload. destruct (decode_data n src) as [[d0|] s0] eqn:E; [|done].
  intros [= <- <- <-]. by rewrite (decode_data_app _ _ _ _ _ E).
Qed.

(** A complete frame is decoded the same way whatever follows it. *)
Lemma decode_frame_app c src more d c' src' :
  raw c = false -> decode c src = (Ok (Some d), c', src') ->
  decode c (src ++ more) = (Ok (Some d), c', src' ++ more).
Proof.
  unfold decode. intros ->. destruct (state c); [|apply decode_payload_app].
  destruct (decode_head c src) as [[[[n|]|e] s0] k0] eqn:E; [|done..].
  destruct (decode_head_app c src more _ _ _ E) as [k' ->]; [done|].
  apply decode_payload_app.
Qed.

Lemma decode_err_app c src more e c' src' :
  raw c = false -> decode c src = (Err e, c', src') ->
  decode c (src ++ more) = (Err e, c', src' ++ more).
Proof.
  unfold decode. intros ->.
  assert (forall n c0 s, decode_payload n c0 s <> (Err e, c', src')) as Hp.
  { intros n c0 s. unfold decode_payload. by destruct (decode_data n s) as [[]?]. }
  destruct (state c); [|by intros ?%Hp].
  destruct (decode_head c src) as [[[[n|]|e0] s0] k0] eqn:E; [by intros ?%Hp|done|].
  intros [= -> <- <-]. by destruct (decode_head_app c src more _ _ _ E) as [k' ->].
Qed.

(** An incomplete frame leaves a state from which decoding resumes. *)
Lemma decode_resume c src more c' src' :
  raw c = false -> decode c src = (Ok None, c', src') ->
  decode c (src ++ more) = decode c' (src' ++ more).
Proof.
  intros Hr. unfold decode at 1 2. rewrite Hr.
  assert (forall n c0 s, decode_payload n c0 s = (Ok None, c', src') -> c' = c0 /\ src' = s) as Hp.
  { intros n c0 s. unfold decode_payload, decode_data.
    destruct (len s <? n); intros; simplify_eq; done. }
  destruct (state c) as [|n] eqn:Es.
  - destruct (decode_head c src) as [[[[n|]|e0] s0] k0] eqn:E; [|intros [= <- <-]|done].
    + intros [-> ->]%Hp.
      destruct (decode_head_app c src more _ _ _ E) as [k' ->]; [done|].
      unfold decode. simpl. by rewrite Hr.
    + unfold decode. rewrite Hr, Es. replace s0 with src; [done|].
      revert E. unfold decode_head. repeat case_match; intros; simplify_eq; done.
  - intros [-> ->]%Hp. unfold decode. by rewrite Hr, Es.
Qed.

Lemma decode_raw_flag c src r c' src' :
  decode c src = (r, c', src') -> raw c' = raw c.
Proof.
  unfold decode, decode_payload. intros H.
  repeat (case_match; simplify_eq; simpl in *; try congruence).
Qed.

(** The invariant of the decoder: a length read from a header is a [usize]. *)
Definition codec_ok (c : BytesCodec) : Prop :=
  match state c with Head => True | Data n => 0 <= n end.

Lemma head_value_nonneg h src : 0 <= head_value h src.
Proof.
  unfold head_value, byte_at.
  repeat case_match; rewrite ?Z.lor_nonneg, ?Z.shiftl_nonneg;
    repeat split; apply byte.unsigned_range.
Qed.

Lemma decode_head_progress c src n s k :
  decode_head c src = (Ok (Some n), s, k) ->
  0 <= n <= max_packet_length c /\ (length s < length src)%nat
  /\ 0 <= k <= MAX_PREALLOCATED_PAYLOAD_LEN.
Proof.
  unfold decode_head. case_decide as Hne; [done|].
  pose proof (land_3_bound (byte_at src 0)). apply nonempty_len in Hne.
  destruct (Z.ltb_spec (len src) (Z.land (byte_at src 0) 3 + 1)); [done|].
  destruct (Z.ltb_spec (max_packet_length c)
    (Z.shiftr (head_value (Z.land (byte_at src 0) 3 + 1) src) 2)); [done|].
  intros [= <- <- <-]. repeat split; [|done| |unfold usat_sub, MAX_PREALLOCATED_PAYLOAD_LEN; lia|lia].
  - apply Z.shiftr_nonneg, head_value_nonneg.
  - unfold dropZ, len in *. rewrite length_drop. lia.
Qed.

Lemma decode_payload_inv n c src r c' s' :
  0 <= n -> decode_payload n c src = (r, c', s') ->
  (r = Ok None /\ c' = c /\ s' = src) \/
  (exists d, r = Ok (Some d) /\ c' = set_state c Head /\ src = d ++ s' /\ len d = n).
Proof.
  unfold decode_payload, decode_data. intros Hn.
  destruct (Z.ltb_spec (len src) n); intros; simplify_eq; [by left|right].
  eexists. split_and!; [done..|by rewrite takeZ_dropZ|by apply len_takeZ].
Qed.

Lemma decode_codec_ok c src r c' s' :
  codec_ok c -> decode c src = (r, c', s') -> codec_ok c'.
Proof.
  unfold decode, codec_ok. intros Hd H.
  destruct (raw c); [case_decide; by simplify_eq|].
  destruct (state c) as [|n] eqn:Es.
  - destruct (decode_head c src) as [[[[n|]|e0] s0] k0] eqn:E; simplify_eq;
      [|by rewrite Es..].
    apply decode_head_progress in E as (?&_&_).
    apply decode_payload_inv in H as [(_&->&_)|(?&_&->&_)]; [|done|]; simpl; lia.
  - apply decode_payload_inv in H as [(_&->&_)|(?&_&->&_)]; [|done|done]. by rewrite Es.
Qed.

Lemma decode_pending c src d c' src' :
  codec_ok c -> decode c src = (Ok (Some d), c', src') ->
  (pending c' src' < pending c src)%nat.
Proof.
  unfold decode, codec_ok, pending. intros Hd H.
  destruct (raw c) eqn:Hr.
  { case_decide as E; [done|]. simplify_eq.
    unfold dropZ, len. rewrite length_drop. destruct src; [done|simpl]. lia. }
  destruct (state c) as [|n] eqn:Es.
  - destruct (decode_head c src) as [[[[n|]|e0] s0] k0] eqn:E; simplify_eq.
    apply decode_head_progress in E as (?&?&_).
    apply decode_payload_inv in H as [(?&_)|(?&_&->&->&_)]; [done| |lia].
    rewrite length_app in *. simpl. lia.
  - apply decode_payload_inv in H as [(?&_)|(?&_&->&->&_)]; [done| |done].
    rewrite length_app. simpl. lia.
Qed.

(** *** The decoding loop *)

Lemma drain_fuel_enough f : forall c src,
  codec_ok c -> (pending c src < f)%nat -> is_Some (drain_fuel f c src).
Proof.
  induction f as [|f IH]; intros c src Hok Hf; [lia|]. simpl.
  destruct (decode c src) as [[[[d|]|e] c'] s'] eqn:E; [|eauto..].
  destruct (IH c' s') as [[ds o] ->]; [|by pose proof (decode_pending _ _ _ _ _ Hok E); lia|eauto].
  by eapply decode_codec_ok.
Qed.

Lemma drain_fuel_mono f f' c src r :
  drain_fuel f c src = Some r -> (f <= f')%nat -> drain_fuel f' c src = Some r.
Proof.
  revert f' c src r. induction f as [|f IH]; intros [|f'] c src r Hr Hf; simpl in *; try done; [lia|].
  destruct (decode c src) as [[[[d|]|e] c'] s']; [|done..].
  destruct (drain_fuel f c' s') as [[ds o]|] eqn:E; [|done].
  by rewrite (IH f' _ _ _ E) by lia.
Qed.

Lemma drain_eq c src :
  codec_ok c ->
  drain c src =
    match decode c src with
    | (Err e, _, _) => ([], Failed e)
    | (Ok None, c', src') => ([], Waiting c' src')
    | (Ok (Some d), c', src') => let '(ds, o) := drain c' src' in (d :: ds, o)
    end.
Proof.
  intros Hok. unfold drain at 1. simpl.
  destruct (decode c src) as [[[[d|]|e] c'] s'] eqn:E; [|done..].
  pose proof (decode_pending _ _ _ _ _ Hok E) as Hp.
  pose proof (decode_codec_ok _ _ _ _ _ Hok E) as Hok'.
  unfold drain. destruct (drain_fuel_enough (S (pending c' s')) c' s' Hok') as [[ds o] Hd]; [lia|].
  rewrite Hd. by rewrite (drain_fuel_mono _ (pending c src) _ _ _ Hd) by lia.
Qed.

(** Draining a buffer and then what arrives later is draining them at once. *)
Lemma drain_app c src more :
  codec_ok c -> raw c = false ->
  drain c (src ++ more) =
    match drain c src with
    | (ds, Failed e) => (ds, Failed e)
    | (ds, Waiting c' src') => let '(ds', o) := drain c' (src' ++ more) in (ds ++ ds', o)
    end.
Proof.
  remember (pending c src) as m eqn:Hm. revert c src Hm.
  induction (lt_wf m) as [m _ IH]; intros c src -> Hok Hr.
  rewrite (drain_eq c src), (drain_eq c (src ++ more)) by done.
  destruct (decode c src) as [[[[d|]|e] c'] s'] eqn:E.
  - rewrite (decode_frame_app _ _ _ _ _ _ Hr E).
    rewrite (IH _ (decode_pending _ _ _ _ _ Hok E) c' s' eq_refl).
    2: by eapply decode_codec_ok.
    2: by rewrite (decode_raw_flag _ _ _ _ _ E).
    destruct (drain c' s') as [ds [c2 s2|e2]]; [|done]. by destruct (drain c2 (s2 ++ more)).
  - rewrite (decode_resume _ _ _ _ _ Hr E), <- drain_eq by (by eapply decode_codec_ok).
    by destruct (drain c' (s' ++ more)).
  - by rewrite (decode_err_app _ _ _ _ _ _ Hr E).
Qed.

(** What is left after draining is a codec that waits for more input. *)
Lemma drain_settled c src ds c' s' :
  codec_ok c -> raw c = false -> drain c src = (ds, Waiting c' s') ->
  codec_ok c' /\ raw c' = false /\ drain c' s' = ([], Waiting c' s').
Proof.
  remember (pending c src) as m eqn:Hm. revert c src ds Hm.
  induction (lt_wf m) as [m _ IH]; intros c src ds -> Hok Hr Hd.
  rewrite drain_eq in Hd by done.
  destruct (decode c src) as [[[[d|]|e] c1] s1] eqn:E; [| |done].
  - destruct (drain c1 s1) as [ds1 o1] eqn:Ed. simplify_eq.
    refine (IH _ (decode_pending _ _ _ _ _ Hok E) c1 s1 ds1 eq_refl _ _ Ed).
    + by eapply decode_codec_ok.
    + by rewrite (decode_raw_flag _ _ _ _ _ E).
  - simplify_eq. pose proof (decode_codec_ok _ _ _ _ _ Hok E) as Hok'.
    split_and!; [done|by rewrite (decode_raw_flag _ _ _ _ _ E)|].
    rewrite drain_eq by done.
    pose proof (decode_resume _ _ [] _ _ Hr E) as Hres. rewrite !app_nil_r in Hres.
    by rewrite <- Hres, E.
Qed.

(** How the bytes are cut into socket reads does not matter. *)
Lemma feed_concat c buf chunks :
  codec_ok c -> raw c = false -> drain c buf = ([], Waiting c buf) ->
  feed c buf chunks = drain c (buf ++ concat chunks).
Proof.
  revert c buf. induction chunks as [|ch chunks IH]; intros c buf Hok Hr Hs; simpl.
  - by rewrite app_nil_r.
  - rewrite (app_assoc buf), (drain_app c (buf ++ ch)) by done.
    destruct (drain c (buf ++ ch)) as [ds [c' b'|e]] eqn:E; [|done].
    destruct (drain_settled _ _ _ _ _ Hok Hr E) as (?&?&?).
    by rewrite (IH c' b').
Qed.

Lemma decode_frame c d rest :
  raw c = false -> state c = Head -> len d <= 0x3FFFFFFF -> len d <= max_packet_length c ->
  decode c (header (len d) ++ d ++ rest) = (Ok (Some d), c, rest).
Proof.
  intros Hr Hs Hl Hm. unfold decode. rewrite Hr, Hs.
  rewrite decode_head_header by (pose proof (len_nonneg d); lia).
  unfold decode_payload, decode_data. rewrite len_app.
  destruct (Z.ltb_spec (len d + len rest) (len d)).
  { pose proof (len_nonneg rest). lia. }
  rewrite takeZ_app_len, dropZ_app_len by done.
  destruct c; simpl in *; by subst.
Qed.

Lemma decode_head_lt c src n s k :
  decode_head c src = (Ok (Some n), s, k) -> n < 2 ^ 30.
Proof.
  unfold decode_head. case_decide as Hne; [done|].
  pose proof (land_3_bound (byte_at src 0)). apply nonempty_len in Hne.
  set (h := Z.land (byte_at src 0) 3 + 1) in *.
  destruct (Z.ltb_spec (len src) h); [done|].
  case_match; [done|]. intros [= <- <- <-].
  pose proof (len_takeZ h src ltac:(lia)) as Hl.
  rewrite <- (takeZ_dropZ h src), <- Hl at 1.
  rewrite head_value_combine by lia.
  pose proof (le_combine_bound (takeZ h src)) as [? Hb].
  fold (len (takeZ h src)) in Hb.
  assert (2 ^ (8 * len (takeZ h src)) <= 2 ^ 32) by (apply Z.pow_le_mono_r; lia).
  rewrite Z.shiftr_div_pow2 by lia. apply Z.div_lt_upper_bound; lia.
Qed.

(** A payload the codec can carry. *)
Definition sendable (c : BytesCodec) (m : bytes) : Prop :=
  len m <= 0x3FFFFFFF /\ len m <= max_packet_length c.

Definition frame (m : bytes) : bytes := header (len m) ++ m.

Lemma encode_all_spec c msgs buf :
  raw c = false -> Forall (sendable c) msgs ->
  encode_all c msgs buf = Ok (buf ++ concat (frame <$> msgs)).
Proof.
  intros Hr Hf. revert buf. induction Hf as [|m msgs [Hm _] _ IH]; intros buf; simpl.
  - by rewrite app_nil_r.
  - rewrite encode_spec by done. simpl. rewrite IH. unfold frame. by rewrite <- !app_assoc.
Qed.

Lemma drain_frames c msgs :
  raw c = false -> state c = Head -> Forall (sendable c) msgs ->
  drain c (concat (frame <$> msgs)) = (msgs, Waiting c []).
Proof.
  intros Hr Hs Hf.
  assert (codec_ok c) as Hok by (unfold codec_ok; by rewrite Hs).
  induction Hf as [|m msgs [Hm Hm'] _ IH]; csimpl; rewrite drain_eq by done.
  - unfold decode, decode_head. by rewrite Hr, Hs.
  - unfold frame at 1. rewrite <- app_assoc, decode_frame by done. by rewrite IH.
Qed.

(** [C16] Wire round trip: whatever sequence of payloads is encoded onto a
    connection, and however the network cuts the resulting byte stream into
    reads, the receiving codec hands back exactly those payloads in order, in
    its initial state and with nothing left over. *)
Theorem stream_roundtrip c msgs :
  raw c = false -> state c = Head -> Forall (sendable c) msgs ->
  exists wire, encode_all c msgs [] = Ok wire /\
    forall chunks, concat chunks = wire -> feed c [] chunks = (msgs, Waiting c []).
Proof.
  intros Hr Hs Hf. exists (concat (frame <$> msgs)).
  split; [by rewrite encode_all_spec|]. intros chunks Hc.
  assert (codec_ok c) as Hok by (unfold codec_ok; by rewrite Hs).
  rewrite feed_concat; [|done..|].
  - rewrite app_nil_l, Hc. by apply drain_frames.
  - apply (drain_frames c []); done.
Qed.

Lemma stream_roundtrip_witness :
  exists wire, encode_all new [[Byte.x61; Byte.x62]; []] [] = Ok wire /\
    forall chunks, concat chunks = wire ->
      feed new [] chunks = ([[Byte.x61; Byte.x62]; []], Waiting new []).
Proof.
  apply (stream_roundtrip new [[Byte.x61; Byte.x62]; []]); [reflexivity..|].
  repeat constructor; vm_compute; discriminate.
Defined.

(** Resistance to hostile peers: whatever bytes a peer sends, reading a
    header makes the decoder accept a length of at most [max_packet_length]
    (below 2^30) and ask the allocator for at most 256 KiB; and no frame it
    delivers is longer than the accepted length. *)
Theorem decode_bounded c src :
  codec_ok c -> raw c = false ->
  (forall n s k, decode_head c src = (Ok (Some n), s, k) ->
     0 <= n <= max_packet_length c /\ n < 2 ^ 30 /\ 0 <= k <= MAX_PREALLOCATED_PAYLOAD_LEN) /\
  (forall d c' s, state c = Head -> decode c src = (Ok (Some d), c', s) ->
     len d <= max_packet_length c /\ len d < 2 ^ 30).
Proof.
  intros Hok Hr.
  assert (forall n s k, decode_head c src = (Ok (Some n), s, k) ->
     0 <= n <= max_packet_length c /\ n < 2 ^ 30 /\ 0 <= k <= MAX_PREALLOCATED_PAYLOAD_LEN) as Hh.
  { intros n s k E. pose proof (decode_head_lt _ _ _ _ _ E).
    apply decode_head_progress in E. tauto. }
  split; [done|]. intros d c' s Hs. unfold decode. rewrite Hr, Hs.
  destruct (decode_head c src) as [[[[n|]|e0] s0] k0] eqn:E; [|done..].
  destruct (Hh _ _ _ eq_refl) as (?&?&_). intros Hp.
  apply decode_payload_inv in Hp as [(?&_)|(?&?&_&_&?)]; [done| |lia]. simplify_eq. lia.
Qed.

Lemma decode_bounded_witness :
  codec_ok new /\ raw new = false /\
  forall n s k, decode_head new [Byte.xff; Byte.xff; Byte.xff; Byte.xff] = (Ok (Some n), s, k) ->
     0 <= n <= max_packet_length new /\ n < 2 ^ 30 /\ 0 <= k <= MAX_PREALLOCATED_PAYLOAD_LEN.
Proof.
  split; [exact I|]. split; [reflexivity|].
  apply (decode_bounded new [Byte.xff; Byte.xff; Byte.xff; Byte.xff]); [exact I|reflexivity].
Defined.

(** Payloads of 2^30 bytes or more are refused by [encode] rather than
    framed with a truncated length, and nothing is written. *)
Theorem encode_overflow c data buf :
  raw c = false -> encode c data buf = Err InvalidInput <-> 2 ^ 30 <= len data.
Proof.
  intros Hr. split.
  - intros H. destruct (Z.le_gt_cases (len data) 0x3FFFFFFF); [|lia].
    by rewrite encode_spec in H.
  - intros H. unfold encode. rewrite Hr.
    by rewrite !(proj2 (Z.leb_gt _ _)) by lia.
Qed.

Lemma encode_overflow_witness :
  raw new = false /\ (encode new [Byte.x61] [] = Err InvalidInput <-> 2 ^ 30 <= len [Byte.x61]).
Proof. split; [reflexivity|]. apply (encode_overflow new [Byte.x61] []). reflexivity. Defined.
