(* ===== verification/AddrMangle.v ===== *)
(** * Socket-address mangling ([AddrMangle] of [libs/hbb_common/src/lib.rs])

    Rendezvous messages carry socket addresses in a scrambled form so that
    NAT routers do not rewrite them.  An IPv4 address and port are added to
    parts of the current microsecond clock and packed into a [u128]; IPv6
    addresses are sent as they are.  [u128] arithmetic is release-mode
    wrapping arithmetic on [Z]. *)
From S2P Require Import Prelude.

(** [std::net::SocketAddr]: octets in network order, and a 16-bit port. *)
Inductive SocketAddr :=
| V4 (ip : bytes) (port : Z)
| V6 (ip : bytes) (port : Z) (flowinfo scope_id : Z).

#[export] Instance SocketAddr_eq_dec : EqDecision SocketAddr.
Proof. solve_decision. Defined.

Definition addr_ok (a : SocketAddr) : Prop :=
  match a with
  | V4 ip port => length ip = 4%nat /\ in_width 16 port
  | V6 ip port _ _ => length ip = 16%nat /\ in_width 16 port
  end.

Definition zeros (n : nat) : bytes := replicate n Byte.x00.

(** [Ipv6Addr::LOCALHOST], [Ipv6Addr::is_loopback], [Ipv6Addr::to_ipv4]
    (the IPv4-compatible [::a.b.c.d] and IPv4-mapped [::ffff:a.b.c.d] forms). *)
Definition v6_localhost : bytes := zeros 15 ++ [Byte.x01].
Definition is_loopback_v6 (ip : bytes) : bool := bool_decide (ip = v6_localhost).
Definition to_ipv4 (ip : bytes) : option bytes :=
  if bool_decide (take 12 ip = zeros 12)
     || bool_decide (take 12 ip = zeros 10 ++ [Byte.xff; Byte.xff])
  then Some (drop 12 ip) else None.

Definition get_any_listen_addr (is_ipv4 : bool) : SocketAddr :=
  if is_ipv4 then V4 (zeros 4) 0 else V6 (zeros 16) 0 0 0.

Definition try_into_v4 (addr : SocketAddr) : SocketAddr :=
  match addr with
  | V6 ip port _ _ =>
      if negb (is_loopback_v6 ip) then
        match to_ipv4 ip with
        | Some v4 => V4 v4 port
        | None => addr
        end
      else addr
  | _ => addr
  end.

(** The [n_padding] loop: trailing (most significant) zero bytes dropped. *)
Fixpoint count_zeros (l : bytes) : nat :=
  match l with
  | b :: l => if decide (b = Byte.x00) then S (count_zeros l) else O
  | [] => O
  end.

Definition n_padding (b : bytes) : nat := count_zeros (rev b).

(** [tm] is the microsecond clock truncated to 32 bits. *)
Definition mangle_v4 (tm : Z) (ip : bytes) (port : Z) : Z :=
  let ip := le_combine ip in
  u128_of (Z.lor (Z.lor (u128_of (Z.shiftl (ip + tm) 49)) (u128_of (Z.shiftl tm 17)))
             (port + Z.land tm 0xFFFF)).

Definition encode (tm : Z) (addr : SocketAddr) : bytes :=
  match try_into_v4 addr with
  | V4 ip port =>
      let b := le_split 16 (mangle_v4 tm ip port) in
      take (16 - n_padding b) b
  | V6 ip port _ _ => ip ++ le_split 2 port
  end.

Definition decode (b : bytes) : SocketAddr :=
  if 16 <? len b then
    if negb (len b =? 18) then get_any_listen_addr false
    else V6 (take 16 b) (le_combine (drop 16 b)) 0 0
  else
    let padded := b ++ zeros (16 - length b) in
    let number := le_combine padded in
    let tm := Z.land (Z.shiftr number 17) u32_max in
    let ip := le_split 4 (u32_of (u128_of (Z.shiftr number 49 - tm))) in
    let port := u128_of (Z.land number 0xFFFFFF - Z.land tm 0xFFFF) in
    V4 ip (u16_of port).

(** ** Packing *)

Lemma le_combine_lt b : 0 <= le_combine b < 2 ^ (8 * len b).
Proof. apply le_combine_bound. Qed.

Lemma mangle_v4_eq tm ip port :
  in_width 32 tm -> length ip = 4%nat -> in_width 16 port ->
  mangle_v4 tm ip port
  = (le_combine ip + tm) * 2 ^ 49 + tm * 2 ^ 17 + (port + tm mod 2 ^ 16).
Proof.
  intros Htm Hip Hport. unfold mangle_v4, u128_of, in_width in *.
  pose proof (le_combine_lt ip) as Hc. unfold len in Hc. rewrite Hip in Hc. simpl in Hc.
  change 0xFFFF with (Z.ones 16). rewrite Z.land_ones by lia.
  pose proof (Z.mod_pos_bound tm (2 ^ 16) ltac:(lia)) as Hm.
  rewrite (wrap_id 128 (Z.shiftl (_ + _) _)), (wrap_id 128 (Z.shiftl tm _))
    by (rewrite Z.shiftl_mul_pow2 by lia; split; lia).
  replace (Z.lor (Z.lor (Z.shiftl (le_combine ip + tm) 49) (Z.shiftl tm 17))
             (port + tm mod 2 ^ 16))
    with (Z.lor (port + tm mod 2 ^ 16)
            (Z.shiftl (Z.lor tm (Z.shiftl (le_combine ip + tm) 32)) 17)).
  2: { rewrite Z.shiftl_lor, Z.shiftl_shiftl by lia. change (32 + 17) with 49.
       rewrite Z.lor_comm. f_equal. apply Z.lor_comm. }
  rewrite lor_shiftl_add by lia. rewrite lor_shiftl_add by lia.
  rewrite wrap_id by (split; lia). lia.
Qed.

(** ** Zero trimming *)

Lemma count_zeros_spec l :
  exists k, l = zeros (count_zeros l) ++ k.
Proof.
  induction l as [|b l [k IH]]; simpl; [by exists []|].
  case_decide as E; [|by exists (b :: l)]. exists k. subst b. change (Byte.x00 :: l = Byte.x00 :: (zeros (count_zeros l) ++ k)).
  by rewrite <- IH.
Qed.

Lemma n_padding_spec b :
  take (length b - n_padding b) b ++ zeros (n_padding b) = b.
Proof.
  unfold n_padding. destruct (count_zeros_spec (rev b)) as [k Hk].
  generalize dependent (count_zeros (rev b)). intros n Hk.
  assert (b = rev k ++ zeros n) as ->.
  { rewrite <- (rev_involutive b), Hk, rev_app_distr. f_equal.
    unfold zeros. rewrite rev_alt. apply reverse_replicate. }
  f_equal. rewrite length_app. unfold zeros. rewrite length_replicate.
  rewrite take_app_le by lia. apply take_ge. lia.
Qed.

Lemma encode_v4_padded b : length b = 16%nat ->
  take (16 - n_padding b) b ++ zeros (16 - length (take (16 - n_padding b) b)) = b.
Proof.
  intros Hb. pose proof (n_padding_spec b) as H. rewrite Hb in H.
  etransitivity; [|exact H]. f_equal. f_equal.
  apply (f_equal length) in H. unfold zeros in H. rewrite length_app, length_replicate, Hb in H. lia.
Qed.

(** What the receiver is expected to learn. *)
Definition canonical (addr : SocketAddr) : SocketAddr :=
  match try_into_v4 addr with
  | V4 ip port => V4 ip port
  | V6 ip port _ _ => V6 ip port 0 0
  end.

Lemma try_into_v4_ok addr : addr_ok addr -> addr_ok (try_into_v4 addr).
Proof.
  destruct addr as [|ip port fl sc]; simpl; [done|]. intros [? ?].
  repeat case_match; simpl; try done. unfold to_ipv4 in *. case_match; simplify_eq.
  rewrite length_drop. split; [lia|done].
Qed.

(** Unpacking a packed IPv4 address, whatever the clock. *)
Lemma decode_packed tm ip port b :
  in_width 32 tm -> length ip = 4%nat -> in_width 16 port ->
  (length b <= 16)%nat -> le_combine (b ++ zeros (16 - length b)) = mangle_v4 tm ip port ->
  decode b = V4 ip port.
Proof.
  intros Htm Hip Hport Hb Hn. unfold decode.
  destruct (Z.ltb_spec 16 (len b)); [unfold len in *; lia|].
  rewrite Hn, mangle_v4_eq by done. unfold in_width in *.
  pose proof (le_combine_lt ip) as Hc. unfold len in Hc. rewrite Hip in Hc. simpl in Hc.
  pose proof (Z.mod_pos_bound tm (2 ^ 16) ltac:(lia)) as Hm.
  set (v := (le_combine ip + tm) * 2 ^ 49 + tm * 2 ^ 17 + (port + tm mod 2 ^ 16)).
  assert (Z.land (Z.shiftr v 17) u32_max = tm) as Et.
  { change u32_max with (Z.ones 32). rewrite Z.land_ones, Z.shiftr_div_pow2 by lia.
    unfold v. replace (_ / 2 ^ 17) with ((le_combine ip + tm) * 2 ^ 32 + tm)
      by (apply Z.div_unique with (port + tm mod 2 ^ 16); lia).
    rewrite Z.add_comm, Z.mod_add, Z.mod_small; lia. }
  assert (Z.shiftr v 49 = le_combine ip + tm) as Ei.
  { rewrite Z.shiftr_div_pow2 by lia. symmetry.
    apply Z.div_unique with (tm * 2 ^ 17 + (port + tm mod 2 ^ 16)); unfold v; lia. }
  rewrite Et, Ei. f_equal.
  - replace (le_combine ip + tm - tm) with (le_combine ip) by lia.
    unfold u32_of, u128_of. rewrite (wrap_id 128), (wrap_id 32) by (split; lia).
    by apply split_le_combine'.
  - change 0xFFFFFF with (Z.ones 24). change 0xFFFF with (Z.ones 16).
    rewrite !Z.land_ones by lia. unfold u16_of, u128_of, wrap.
    assert (v mod 2 ^ 24 = port + tm mod 2 ^ 16 + (tm mod 2 ^ 7) * 2 ^ 17) as ->.
    { unfold v. Z.div_mod_to_equations. lia. }
    rewrite (Z.mod_small _ (2 ^ 128)) by (Z.div_mod_to_equations; lia).
    Z.div_mod_to_equations. lia.
Qed.

Lemma decode_mangled tm addr :
  in_width 32 tm -> addr_ok addr -> decode (encode tm addr) = canonical addr.
Proof.
  intros Htm Hok%try_into_v4_ok. unfold encode, canonical.
  destruct (try_into_v4 addr) as [ip port|ip port fl sc]; destruct Hok as [Hl Hp].
  - apply (decode_packed tm); [done..| |].
    + rewrite length_take. lia.
    + rewrite encode_v4_padded by apply length_le_split.
      rewrite le_combine_split, mangle_v4_eq by done.
      apply Z.mod_small. unfold in_width in *. simpl.
      pose proof (le_combine_lt ip) as Hc. unfold len in Hc. rewrite Hl in Hc. simpl in Hc.
      pose proof (Z.mod_pos_bound tm (2 ^ 16) ltac:(lia)). lia.
  - unfold decode. rewrite len_app, len_le_split.
    replace (len ip) with 16 by (unfold len; lia). simpl.
    rewrite <- Hl at 1. rewrite take_app_length. rewrite <- Hl at 1. rewrite drop_app_length.
    rewrite le_combine_split. f_equal. by apply Z.mod_small.
Qed.

(** Round trip of mangled addresses: at every clock value, for every
    IPv4 or IPv6 address and port, decoding what was encoded gives the address
    back (IPv4-mapped IPv6 addresses as IPv4, flow and scope cleared). *)
Theorem mangle_roundtrip tm addr :
  in_width 32 tm -> addr_ok addr -> decode (encode tm addr) = canonical addr.
Proof. apply decode_mangled. Qed.

Lemma mangle_roundtrip_witness :
  decode (encode 0x75bcd15 (V4 [Byte.xc0; Byte.xa8; Byte.x10; Byte.x20] 21116))
  = V4 [Byte.xc0; Byte.xa8; Byte.x10; Byte.x20] 21116.
Proof.
  apply (mangle_roundtrip 0x75bcd15 (V4 [Byte.xc0; Byte.xa8; Byte.x10; Byte.x20] 21116));
    repeat split; vm_compute; congruence.
Defined.
