(* ===== verification/Crypto.v ===== *)
(** * Interfaces of the cryptographic primitives the program calls

    libsodium (through [sodiumoxide]) is not part of the repository.  Each
    primitive is a class of operations, and what the code relies on is a
    second class of laws, so that theorems are proved against the interface.
    The [Toy] module implements every interface by a simple, insecure but law
    abiding scheme; it only shows that the laws can hold together. *)
From S2P Require Import Prelude.

Definition NONCEBYTES : Z := 24.
Definition MACBYTES : Z := 16.
Definition KEYBYTES : Z := 32.
Definition BOX_PUBLICKEYBYTES : Z := 32.
Definition SIGN_PUBLICKEYBYTES : Z := 32.
Definition SIGN_SECRETKEYBYTES : Z := 64.

(** [crypto::secretbox]: [seal(m, nonce, key)] and [open(c, nonce, key)]. *)
Class Secretbox := {
  seal : bytes -> bytes -> bytes -> bytes;
  open : bytes -> bytes -> bytes -> option bytes
}.

(** Opening what was sealed under the same nonce and key gives the message
    back, and the ciphertext is [MACBYTES] longer than the plaintext. *)
Class SecretboxLaws `{Secretbox} := {
  open_seal m n k : open (seal m n k) n k = Some m;
  seal_len m n k : len (seal m n k) = len m + MACBYTES
}.

(** [crypto::box_]: public-key authenticated encryption. *)
Class Box := {
  box_public : bytes -> bytes;
  box_seal : bytes -> bytes -> bytes -> bytes -> bytes;
  box_open : bytes -> bytes -> bytes -> bytes -> option bytes
}.

Class BoxLaws `{Box} := {
  box_public_len sk : len (box_public sk) = BOX_PUBLICKEYBYTES;
  box_open_seal m n sk_a sk_b :
    box_open (box_seal m n (box_public sk_b) sk_a) n (box_public sk_a) sk_b = Some m
}.

(** [crypto::sign]: signatures that carry their message. *)
Class Sign := {
  sign_public : bytes -> bytes;
  sign : bytes -> bytes -> bytes;
  verify : bytes -> bytes -> option bytes
}.

Class SignLaws `{Sign} := {
  sign_public_len sk : len (sign_public sk) = SIGN_PUBLICKEYBYTES;
  verify_sign m sk : verify (sign m sk) (sign_public sk) = Some m
}.

Module Toy.
Definition pad (n : nat) (b : bytes) : bytes := take n (b ++ replicate n Byte.x00).

Lemma length_pad n b : length (pad n b) = n.
Proof. unfold pad. rewrite length_take, length_app, length_replicate. lia. Qed.

Definition tag (n k : bytes) : bytes := pad 8 n ++ pad 8 k.

Lemma length_tag n k : length (tag n k) = 16%nat.
Proof. unfold tag. by rewrite length_app, !length_pad. Qed.

Definition check (c t : bytes) : option bytes :=
  if decide (take (length t) c = t) then Some (drop (length t) c) else None.

Lemma check_app t m : check (t ++ m) t = Some m.
Proof. unfold check. by rewrite take_app_length, decide_True, drop_app_length. Qed.

#[export] Instance secretbox : Secretbox := {
  seal m n k := tag n k ++ m;
  open c n k := check c (tag n k)
}.

#[export] Instance secretbox_laws : SecretboxLaws.
Proof.
  split; intros; simpl; [apply check_app|].
  rewrite len_app. unfold len. rewrite length_tag. unfold MACBYTES. lia.
Qed.

#[export] Instance box : Box := {
  box_public sk := pad 32 sk;
  box_seal m n pk sk := pk ++ pad 32 sk ++ m;
  box_open c n pk sk := check c (pad 32 sk ++ pk)
}.

#[export] Instance box_laws : BoxLaws.
Proof.
  split; intros; simpl.
  - unfold len. by rewrite length_pad.
  - rewrite app_assoc. apply check_app.
Qed.

#[export] Instance sign_ : Sign := {
  sign_public sk := pad 32 sk;
  sign m sk := pad 32 sk ++ m;
  verify c pk := check c pk
}.

#[export] Instance sign_laws : SignLaws.
Proof.
  split; intros; simpl.
  - unfold len. by rewrite length_pad.
  - apply check_app.
Qed.
End Toy.
