(* ===== verification/Encoding.v ===== *)
(** * UTF-8 and base64

    [Module Utf8] is what the program uses of Rust's [str]: a string is its
    UTF-8 bytes, [chars().count()] and [String::from_utf8_lossy] follow the
    standard library's decoder (maximal invalid prefixes become U+FFFD).
    Base64 comes from libsodium and is an interface; [Rfc4648] implements it,
    with padding, over the standard alphabet and shows its laws can hold. *)
From S2P Require Import Prelude.

(** ASCII text of the source as bytes. *)
Definition str (s : string) : bytes := String.list_byte_of_string s.

Module Utf8.
(** Is [b] a continuation byte between [lo] and [hi]? *)
Definition within (lo hi : Z) (b : byte) : bool :=
  (lo <=? byte.unsigned b) && (byte.unsigned b <=? hi).
Definition cont (b : byte) : bool := within 0x80 0xBF b.

(** The admissible second byte of a three or four byte sequence. *)
Definition second3 (x y : byte) : bool :=
  let a := byte.unsigned x in
  if a =? 0xE0 then within 0xA0 0xBF y
  else if a =? 0xED then within 0x80 0x9F y
  else cont y.
Definition second4 (x y : byte) : bool :=
  let a := byte.unsigned x in
  if a =? 0xF0 then within 0x90 0xBF y
  else if a =? 0xF4 then within 0x80 0x8F y
  else cont y.

(** The first character of [x :: l]: is it well formed, and how many bytes
    after [x] belong to it (or to the maximal invalid prefix). *)
Definition char_tail (x : byte) (l : bytes) : bool * nat :=
  if within 0 0x7F x then (true, 0%nat)
  else if within 0xC2 0xDF x then
    match l with y :: _ => if cont y then (true, 1%nat) else (false, 0%nat) | [] => (false, 0%nat) end
  else if within 0xE0 0xEF x then
    match l with
    | y :: l =>
        if second3 x y then
          match l with z :: _ => if cont z then (true, 2%nat) else (false, 1%nat) | [] => (false, 1%nat) end
        else (false, 0%nat)
    | [] => (false, 0%nat)
    end
  else if within 0xF0 0xF4 x then
    match l with
    | y :: l =>
        if second4 x y then
          match l with
          | z :: l =>
              if cont z then
                match l with w :: _ => if cont w then (true, 3%nat) else (false, 2%nat) | [] => (false, 2%nat) end
              else (false, 1%nat)
          | [] => (false, 1%nat)
          end
        else (false, 0%nat)
    | [] => (false, 0%nat)
    end
  else (false, 0%nat).

Definition REPLACEMENT : bytes := [Byte.xef; Byte.xbf; Byte.xbd].

(** The characters of a string, each as its bytes; invalid prefixes replaced. *)
Fixpoint chunks (fuel : nat) (s : bytes) : list (bool * bytes) :=
  match fuel, s with
  | S fuel, x :: l =>
      let '(ok, n) := char_tail x l in
      (ok, x :: take n l) :: chunks fuel (drop n l)
  | _, _ => []
  end.
Definition chars (s : bytes) : list (bool * bytes) := chunks (length s) s.

Definition chars_count (s : bytes) : Z := len (chars s).
Definition valid (s : bytes) : bool := forallb fst (chars s).
Definition from_utf8_lossy (s : bytes) : bytes :=
  concat (List.map (fun c : bool * bytes => if c.1 then c.2 else REPLACEMENT) (chars s)).

Lemma chunks_concat fuel : forall s, (length s <= fuel)%nat ->
  concat (List.map snd (chunks fuel s)) = s.
Proof.
  induction fuel as [|fuel IH]; intros [|x l] H; simpl in *; try done; [lia|].
  destruct (char_tail x l) as [ok n]. simpl. rewrite IH by (rewrite length_drop; lia).
  by rewrite take_drop.
Qed.

(** A well-formed string is its own lossy decoding. *)
Lemma from_utf8_lossy_valid s : valid s = true -> from_utf8_lossy s = s.
Proof.
  intros H. unfold from_utf8_lossy, valid, chars in *.
  rewrite <- (chunks_concat (length s) s (le_n _)) at 3. f_equal.
  apply map_ext_in. intros c Hc. apply forallb_forall with (x := c) in H; [|done].
  by rewrite H.
Qed.

Lemma chars_count_le s : chars_count s <= len s.
Proof.
  unfold chars_count, chars, len.
  enough (forall f s, (length (chunks f s) <= length s)%nat) as H by (specialize (H (length s) s); lia).
  induction f as [|f IH]; intros [|x l]; simpl; try lia.
  destruct (char_tail x l) as [ok n]. simpl. specialize (IH (drop n l)).
  rewrite length_drop in IH. lia.
Qed.

Definition ascii (s : bytes) : Prop := Forall (fun b => within 0 0x7F b = true) s.

Lemma ascii_valid s : ascii s -> valid s = true.
Proof.
  unfold ascii, valid, chars. intros H. generalize (length s). intros f. revert f.
  induction H as [|x l Hx Hl IH]; intros [|f]; simpl; try done.
  unfold char_tail. rewrite Hx. simpl. by rewrite drop_0.
Qed.
(** A character: well formed, and nothing after it. *)
Definition is_char (c : bytes) : Prop :=
  match c with x :: l => char_tail x l = (true, length l) | [] => False end.
Definition text (s : bytes) : Prop := exists cs, s = concat cs /\ Forall is_char cs.

Lemma second_cont x y : (second3 x y = true \/ second4 x y = true) -> cont y = true.
Proof.
  unfold second3, second4, cont, within. rewrite !andb_true_iff, !Z.leb_le.
  intros [H|H]; repeat case_match; rewrite ?andb_true_iff, ?Z.leb_le in *; lia.
Qed.

(** The length of a character whose first byte is [x]. *)
Definition char_len (x : byte) : nat :=
  if within 0 0x7F x then 1 else if within 0xC2 0xDF x then 2 else if within 0xE0 0xEF x then 3 else 4.

Lemma char_tail_take x l n : char_tail x l = (true, n) ->
  is_char (x :: take n l) /\ (n <= length l)%nat /\ S n = char_len x /\
  Forall (fun b => cont b = true) (take n l) /\ cont x = false.
Proof.
  unfold is_char. assert (forall lo hi, 0 <= lo -> within lo hi x = true -> hi < 128 \/ 191 < lo -> cont x = false) as Hc.
  { intros lo hi H0 H Hr. unfold cont, within in *. rewrite andb_true_iff, !Z.leb_le in H. apply andb_false_iff.
    rewrite !Z.leb_gt. lia. }
  unfold char_tail, char_len.
  destruct (within 0 0x7F x) eqn:E1; [intros [= <-]; rewrite take_0; split_and!; [done|simpl; lia|done|apply Forall_nil_2|apply (Hc 0 0x7F); [lia|done|left; lia]]|].
  destruct (within 0xC2 0xDF x) eqn:E2.
  { destruct l as [|y l]; [done|]. destruct (cont y) eqn:Ey; [|done]. intros [= <-]. simpl. rewrite take_0, Ey.
    split_and!; [done|lia|done|by repeat constructor|apply (Hc 0xC2 0xDF); [lia|done|right; lia]]. }
  destruct (within 0xE0 0xEF x) eqn:E3.
  { destruct l as [|y [|z l]]; try done; destruct (second3 x y) eqn:Ey; try done.
    destruct (cont z) eqn:Ez; [|done]. intros [= <-]. simpl. rewrite take_0, Ey, Ez.
    split_and!; [done|lia|done|repeat constructor; [by apply (second_cont x); left|done]|apply (Hc 0xE0 0xEF); [lia|done|right; lia]]. }
  destruct (within 0xF0 0xF4 x) eqn:E4; [|done].
  destruct l as [|y [|z [|w l]]]; try done; destruct (second4 x y) eqn:Ey; try done; destruct (cont z) eqn:Ez; try done.
  destruct (cont w) eqn:Ew; [|done]. intros [= <-]. simpl. rewrite take_0, Ey, Ez, Ew.
  split_and!; [done|lia|done|repeat constructor; [by apply (second_cont x); right|done..]|apply (Hc 0xF0 0xF4); [lia|done|right; lia]].
Qed.

Lemma char_parts c : is_char c -> exists x l, c = x :: l /\ S (length l) = char_len x /\
  Forall (fun b => cont b = true) l /\ cont x = false.
Proof.
  destruct c as [|x l]; [done|]. intros H. apply char_tail_take in H as (_ & _ & H1 & H2 & H3).
  rewrite take_ge in H2 by done. by exists x, l.
Qed.

(** What follows a character does not matter to it. *)
Lemma char_tail_app x l r : char_tail x l = (true, length l) -> char_tail x (l ++ r) = (true, length l).
Proof.
  unfold char_tail. destruct (within 0 0x7F x); [by destruct l|]. destruct (within 0xC2 0xDF x).
  { destruct l as [|y [|z l]]; simpl; [done|by destruct (cont y)|by destruct (cont y)]. }
  destruct (within 0xE0 0xEF x).
  { destruct l as [|y [|z [|w l]]]; simpl; try done; destruct (second3 x y); try done; by destruct (cont z). }
  destruct (within 0xF0 0xF4 x); [|done].
  destruct l as [|y [|z [|w [|v l]]]]; simpl; try done; destruct (second4 x y); try done; destruct (cont z); try done;
    by destruct (cont w).
Qed.

Lemma chunks_text fuel s : (length s <= fuel)%nat -> forallb fst (chunks fuel s) = true <-> text s.
Proof.
  revert s. induction fuel as [|fuel IH]; intros [|x l] Hl; simpl in *; try lia;
    try (split; [exists []; split; [done|constructor]|done]).
  destruct (char_tail x l) as [ok n] eqn:E. simpl. split.
  - intros [-> H]%andb_true_iff. apply char_tail_take in E as (Hc & Hn & _).
    apply IH in H as (cs & Hs & Hcs); [|rewrite length_drop; lia].
    exists ((x :: take n l) :: cs). split; [|by constructor]. simpl. by rewrite <- Hs, take_drop.
  - intros (cs & Hs & Hcs). destruct Hcs as [|c cs Hc Hcs]; [done|]. destruct c as [|x' l']; [done|].
    simpl in Hs. injection Hs as <- ->. simpl in Hc. rewrite (char_tail_app _ _ _ Hc) in E. injection E as <- <-.
    simpl. rewrite drop_app_length. apply IH; [|by exists cs]. rewrite length_app in Hl. lia.
Qed.

Lemma valid_text s : valid s = true <-> text s.
Proof. by apply chunks_text. Qed.

Lemma text_nil : text [].
Proof. by exists []. Qed.

Lemma text_app a b : text a -> text b -> text (a ++ b).
Proof.
  intros (ca & -> & Ha) (cb & -> & Hb). exists (ca ++ cb). split; [by rewrite concat_app|by apply Forall_app].
Qed.

Lemma text_concat l : Forall text l -> text (concat l).
Proof. induction 1; simpl; [apply text_nil|by apply text_app]. Qed.

(** Text can be cut before any byte that is not a continuation. *)
Lemma text_cut a b : text (a ++ b) -> match b with [] => True | x :: _ => cont x = false end -> text a /\ text b.
Proof.
  intros (cs & E & H) Hb. revert a E. induction H as [|c cs Hc Hcs IH]; intros a E.
  - apply app_eq_nil in E as [-> ->]. split; apply text_nil.
  - destruct (decide (a = [])) as [->|Hne]; [split; [apply text_nil|]; exists (c :: cs); by split; [|constructor]|].
    simpl in E. symmetry in E. destruct (app_eq_inv _ _ _ _ E) as [(k & E1 & E2)|(k & E1 & E2)].
    + destruct (char_parts _ Hc) as (x & l & -> & _ & Hl & _). destruct a as [|x' a]; [done|]. injection E1 as <- ->.
      destruct (decide (k = [])) as [->|Hk].
      * rewrite app_nil_r in *. simpl in E2. subst b. split; [|by exists cs]. exists [x :: a]. split; [by simpl; rewrite app_nil_r|by constructor].
      * destruct k as [|y k]; [done|]. subst b. simpl in Hb. apply Forall_app in Hl as [_ Hl]. inversion Hl. congruence.
    + subst a. destruct (IH k) as [Hk Hb']; [by rewrite E2|]. split; [|done].
      apply text_app; [|done]. exists [c]. split; [by simpl; rewrite app_nil_r|by constructor].
Qed.
Lemma last_lead a : Forall (fun b => cont b = true) a \/
  exists a1 x a2, a = a1 ++ x :: a2 /\ cont x = false /\ Forall (fun b => cont b = true) a2.
Proof.
  induction a as [|x a [IH|(a1 & y & a2 & -> & Hy & Ha)]]; [by left; constructor| |right; by exists (x :: a1), y, a2].
  destruct (cont x) eqn:E; [left; by constructor|right; by exists [], x, a].
Qed.

Lemma head_char x t b : text (x :: t ++ b) -> Forall (fun b => cont b = true) t -> (length t <= 3)%nat /\ cont x = false.
Proof.
  intros (cs & E & Hcs) Ht. destruct Hcs as [|c cs Hc Hcs]; [done|].
  destruct (char_parts _ Hc) as (x' & l & -> & Hl & _ & Hx). simpl in E. injection E as <- E. split; [|done].
  assert (length l <= 3)%nat as Hl3 by (unfold char_len in Hl; repeat case_match; lia).
  destruct (app_eq_inv _ _ _ _ E) as [(k & -> & E2)|(k & -> & E2)]; [|rewrite length_app in Hl3; lia].
  destruct k as [|y k]; [by rewrite app_nil_r|]. exfalso. apply Forall_app in Ht as [_ Hk]. inversion Hk as [|?? Hy _]; subst.
  destruct Hcs as [|c' cs Hc' _]; [done|]. destruct (char_parts _ Hc') as (z & l' & -> & _ & _ & Hz). simpl in E2. congruence.
Qed.

(** At most three continuation bytes follow each other. *)
Lemma run_short a q b : text (a ++ q ++ b) -> Forall (fun b => cont b = true) q -> (length q <= 3)%nat.
Proof.
  intros H Hq. destruct (last_lead a) as [Ha|(a1 & x & a2 & -> & Hx & Ha)].
  - assert (Forall (fun b => cont b = true) (a ++ q)) as Haq by by apply Forall_app.
    rewrite app_assoc in H. destruct (a ++ q) as [|x t] eqn:E; [apply app_eq_nil in E as [_ ->]; simpl; lia|].
    inversion Haq as [|?? Hx Ht]; subst. apply (head_char x t b) in H as [_ H]; [congruence|done].
  - rewrite <- app_assoc in H. apply text_cut in H as [_ H]; [|exact Hx]. simpl in H. rewrite app_assoc in H.
    apply head_char in H as [H _]; [rewrite length_app in H; lia|by apply Forall_app].
Qed.
End Utf8.

(** ** Base64 *)
Class Base64 := {
  b64_encode : bytes -> bytes;
  b64_decode : bytes -> option bytes
}.

(** Padded base64: decoding inverts encoding, every started group of three
    bytes takes four ASCII characters, and only whole groups of characters
    decode. *)
Class Base64Laws `{Base64} := {
  b64_decode_encode v : b64_decode (b64_encode v) = Some v;
  b64_encode_len v : len (b64_encode v) = 4 * ((len v + 2) / 3);
  b64_encode_ascii v : Utf8.ascii (b64_encode v);
  b64_decode_len v d : b64_decode v = Some d -> len v mod 4 = 0
}.

Module Rfc4648.
Definition alphabet : bytes :=
  str "ABCDEFGHIJKLMNOPQRSTUVWXYZabcdefghijklmnopqrstuvwxyz0123456789+/".
Definition PAD : byte := Byte.x3d.
Definition digit (i : Z) : byte := nth (Z.to_nat (i mod 64)) alphabet PAD.
Fixpoint index (l : bytes) (b : byte) : option Z :=
  match l with
  | [] => None
  | x :: l => if decide (x = b) then Some 0 else Z.succ <$> index l b
  end.
Definition value (b : byte) : option Z := index alphabet b.

Fixpoint encode (v : bytes) : bytes :=
  match v with
  | [] => []
  | [a] =>
      let n := byte.unsigned a * 16 in [digit (n / 64); digit n; PAD; PAD]
  | [a; b] =>
      let n := (byte.unsigned a * 256 + byte.unsigned b) * 4 in
      [digit (n / 4096); digit (n / 64); digit n; PAD]
  | a :: b :: c :: v =>
      let n := (byte.unsigned a * 256 + byte.unsigned b) * 256 + byte.unsigned c in
      [digit (n / 262144); digit (n / 4096); digit (n / 64); digit n] ++ encode v
  end.

Fixpoint decode (s : bytes) : option bytes :=
  match s with
  | [] => Some []
  | w :: x :: y :: z :: s =>
      a ← value w; b ← value x;
      if decide (y = PAD) then
        if decide (z = PAD /\ s = []) then
          if b mod 16 =? 0 then Some [byte.of_Z ((a * 64 + b) / 16)] else None
        else None
      else
        c ← value y;
        if decide (z = PAD) then
          if decide (s = []) then
            let n := (a * 64 + b) * 64 + c in
            if c mod 4 =? 0 then Some [byte.of_Z (n / 1024); byte.of_Z (n / 4)] else None
          else None
        else
          d ← value z;
          let n := ((a * 64 + b) * 64 + c) * 64 + d in
          rest ← decode s;
          Some ([byte.of_Z (n / 65536); byte.of_Z (n / 256); byte.of_Z n] ++ rest)
  | _ => None
  end.

Definition digit_ok (i : Z) : bool :=
  bool_decide (value (digit i) = Some i) && Utf8.within 0 0x7F (digit i)
  && negb (bool_decide (digit i = PAD)).

Lemma digits_ok : forallb digit_ok (List.map Z.of_nat (seq 0 64)) = true.
Proof. vm_compute. reflexivity. Qed.

Lemma digit_spec i : value (digit i) = Some (i mod 64) /\
  Utf8.within 0 0x7F (digit i) = true /\ digit i <> PAD.
Proof.
  pose proof (Z.mod_pos_bound i 64 ltac:(lia)) as Hi.
  assert (digit_ok (i mod 64) = true) as H.
  { apply (proj1 (forallb_forall digit_ok _) digits_ok). apply in_map_iff.
    exists (Z.to_nat (i mod 64)). split; [lia|]. apply in_seq. lia. }
  unfold digit_ok in H. rewrite !andb_true_iff, negb_true_iff in H.
  destruct H as [[H1 H2] H3].
  replace (digit (i mod 64)) with (digit i) in * by (unfold digit; by rewrite Z.mod_mod by lia).
  apply bool_decide_eq_true in H1. apply bool_decide_eq_false in H3. done.
Qed.

(** Induction over groups of three. *)
Lemma ind3 (P : bytes -> Prop) :
  P [] -> (forall a, P [a]) -> (forall a b, P [a; b]) ->
  (forall a b c v, P v -> P (a :: b :: c :: v)) -> forall v, P v.
Proof.
  intros H0 H1 H2 H3. assert (forall v, P v /\ (forall a, P (a :: v)) /\ (forall a b, P (a :: b :: v))) as H.
  { induction v as [|x v (I1 & I2 & I3)]; [auto|]. repeat split; auto. }
  intros v. apply H.
Qed.

Lemma byte_eq b z : z mod 256 = byte.unsigned b -> byte.of_Z z = b.
Proof.
  intros H. rewrite <- (byte.of_Z_unsigned b), <- H. apply byte.unsigned_inj.
  rewrite !byte.unsigned_of_Z. unfold byte.wrap. by rewrite Z.mod_mod by lia.
Qed.

Lemma decode_encode v : decode (encode v) = Some v.
Proof.
  induction v as [|a|a b|a b c v IH] using ind3; [done|..];
    cbn [encode decode app]; cbv zeta;
    rewrite ?(proj1 (digit_spec _)); simpl;
    rewrite ?(decide_False _ _ (proj2 (proj2 (digit_spec _)))), ?decide_True by done;
    pose proof (byte.unsigned_range a); try pose proof (byte.unsigned_range b);
    try pose proof (byte.unsigned_range c).
  - rewrite (proj2 (Z.eqb_eq _ _)) by (Z.div_mod_to_equations; lia).
    do 2 f_equal. apply byte_eq. Z.div_mod_to_equations; lia.
  - rewrite (proj2 (Z.eqb_eq _ _)) by (Z.div_mod_to_equations; lia).
    f_equal. repeat f_equal; apply byte_eq; Z.div_mod_to_equations; lia.
  - rewrite IH. simpl. f_equal. repeat f_equal; apply byte_eq; Z.div_mod_to_equations; lia.
Qed.

Lemma encode_ascii v : Utf8.ascii (encode v).
Proof.
  induction v as [|a|a b|a b c v IH] using ind3; [constructor|..]; cbn [encode app]; cbv zeta;
    repeat (apply Forall_cons; split); try apply Forall_nil; try done; try apply digit_spec.
Qed.

Lemma encode_len v : len (encode v) = 4 * ((len v + 2) / 3).
Proof.
  induction v as [|a|a b|a b c v IH] using ind3; [done..|]. cbn [encode app].
  rewrite !len_cons, IH. replace (1 + (1 + (1 + len v)) + 2) with (len v + 2 + 1 * 3) by lia.
  rewrite Z.div_add by lia. lia.
Qed.

Lemma decode_len : forall n v d, (length v <= n)%nat -> decode v = Some d -> len v mod 4 = 0.
Proof.
  induction n as [|n IH]; intros v d Hn H; (destruct v as [|w [|x [|y [|z v]]]]; [done|simpl in Hn; try lia; try discriminate H..]).
  assert (len v mod 4 = 0) as Hv.
  { apply bind_Some in H as (a & _ & H). apply bind_Some in H as (b & _ & H).
    destruct (decide (y = PAD)); [destruct (decide (z = PAD /\ v = [])) as [[_ ->]|]; done|].
    apply bind_Some in H as (c & _ & H).
    destruct (decide (z = PAD)); [destruct (decide (v = [])) as [->|]; done|].
    apply bind_Some in H as (e & _ & H). apply bind_Some in H as (r & H & _). apply (IH v r); [lia|done]. }
  rewrite !len_cons. Z.div_mod_to_equations; lia.
Qed.

#[export] Instance base64 : Base64 := { b64_encode := encode; b64_decode := decode }.
#[export] Instance base64_laws : Base64Laws.
Proof. split; [apply decode_encode|apply encode_len|apply encode_ascii|intros v d; by apply (decode_len (length v))]. Qed.
End Rfc4648.

(** ** Compression ([compress.rs])

    zstd is an interface; [compress] gives nothing when it fails. *)
Class Zstd := { compress : bytes -> bytes; decompress : bytes -> bytes }.
Class ZstdLaws `{Zstd} := { decompress_compress d : d <> [] -> decompress (compress d) = d }.

(** A small compression: two equal halves become one. *)
Definition halves (d : bytes) : bytes :=
  let h := takeZ (len d / 2) d in if bool_decide (d = h ++ h) then Byte.x01 :: h else Byte.x00 :: d.
Definition unhalves (d : bytes) : bytes :=
  match d with Byte.x01 :: h => h ++ h | _ :: d => d | [] => [] end.

#[local] Instance demo_zstd : Zstd := { compress := halves; decompress := unhalves }.
#[local] Instance demo_zstd_laws : ZstdLaws.
Proof.
  constructor. intros d _. simpl. unfold halves. destruct (bool_decide_reflect (d = takeZ (len d / 2) d ++ takeZ (len d / 2) d)) as [E|]; [by rewrite E at 3|done].
Defined.
