(* ===== verification/Version.v ===== *)
(** * Version numbers ([get_version_number] of [libs/hbb_common/src/lib.rs])

    Peers announce their version as text and features are switched on by
    comparing the numbers [get_version_number] gives. *)
From S2P Require Import Prelude Encoding.

(** [str::split] on one ASCII character. *)
Fixpoint split_on (sep : byte) (s : bytes) : list bytes :=
  match s with
  | [] => [[]]
  | b :: s =>
      if decide (b = sep) then [] :: split_on sep s
      else match split_on sep s with
           | x :: l => (b :: x) :: l
           | [] => [[b]]
           end
  end.

Definition digit_of (b : byte) : option Z :=
  let z := byte.unsigned b in
  if (48 <=? z) && (z <=? 57) then Some (z - 48) else None.

Fixpoint parse_digits (acc : Z) (s : bytes) : option Z :=
  match s with
  | [] => Some acc
  | b :: s => d ← digit_of b; parse_digits (acc * 10 + d) s
  end.

(** [str::parse::<i64>]: an optional sign, at least one digit, no overflow. *)
Definition parse_i64 (s : bytes) : option Z :=
  let '(sign, ds) :=
    match s with
    | Byte.x2b :: ds => (1, ds)
    | Byte.x2d :: ds => (-1, ds)
    | _ => (1, s)
    end in
  if decide (ds = []) then None
  else
    n ← parse_digits 0 ds;
    let z := sign * n in
    if (i64_min <=? z) && (z <=? i64_max) then Some z else None.

Definition dot : byte := Byte.x2e.
Definition dash : byte := Byte.x2d.

Definition version_part (st : Z * Z) (x : bytes) : Z * Z :=
  let last := default 0 (parse_i64 x) in
  (i64_of (i64_of (st.1 * 1000) + last), last).

Definition get_version_number (v : bytes) : Z :=
  let versions := split_on dash v in
  let n :=
    match versions with
    | v :: _ =>
        let '(n, last) := foldl version_part (0, 0) (split_on dot v) in
        i64_of (i64_of (n - last) + i64_of (last * 10))
    | [] => 0
    end in
  match versions with
  | _ :: v :: _ => i64_of (n + default 0 (parse_i64 v))
  | _ => n
  end.

(** ** Comparing versions *)

(** Removes in-range wraps, innermost first. *)
Ltac unwrap := repeat match goal with
  | |- context [swrap ?w ?x] =>
      lazymatch x with context [swrap _ _] => fail | _ => rewrite (swrap_id w x) by lia end
  end.

Definition free (sep : byte) (s : bytes) : Prop := sep ∉ s.

Lemma split_on_free sep s : free sep s -> split_on sep s = [s].
Proof.
  induction s as [|b s IH]; intros H; simpl; [done|]. unfold free in H. rewrite not_elem_of_cons in H.
  destruct H as [Hb Hs]. rewrite decide_False by congruence. by rewrite IH.
Qed.

Lemma split_on_app sep s t : free sep s -> split_on sep (s ++ sep :: t) = s :: split_on sep t.
Proof.
  induction s as [|b s IH]; intros H; simpl; [by rewrite decide_True|].
  unfold free in H. rewrite not_elem_of_cons in H. destruct H as [Hb Hs].
  rewrite decide_False by congruence. by rewrite IH.
Qed.

Lemma free_app sep s t : free sep (s ++ t) <-> free sep s /\ free sep t.
Proof. unfold free. rewrite elem_of_app. tauto. Qed.

(** The text of version [a.b.c] and of patch [p] of it. *)
Definition release (a b c : bytes) : bytes := a ++ dot :: b ++ dot :: c.
Definition patch (v p : bytes) : bytes := v ++ dash :: p.

Record component (s : bytes) (z : Z) : Prop := {
  component_parse : parse_i64 s = Some z;
  component_dot : free dot s;
  component_dash : free dash s
}.

(** The number of a version within the ranges the encoding leaves room for. *)
Definition encode_version (a b c p : Z) : Z := a * 1000000 + b * 1000 + c * 10 + p.

Lemma release_dash a b c : free dash a -> free dash b -> free dash c -> free dash (release a b c).
Proof.
  intros Ha Hb Hc. unfold release. rewrite !free_app. split; [done|].
  change (dot :: b ++ dot :: c) with ([dot] ++ b ++ [dot] ++ c). rewrite !free_app.
  repeat split; try done; unfold free; by intros ?%list_elem_of_singleton.
Qed.

Lemma version_number_release sa sb sc a b c :
  component sa a -> component sb b -> component sc c ->
  0 <= a < 1000000 -> 0 <= b < 1000 -> 0 <= c < 1000 ->
  get_version_number (release sa sb sc) = encode_version a b c 0.
Proof.
  intros [Pa Da Ka] [Pb Db Kb] [Pc Dc Kc] Ha Hb Hc. unfold get_version_number.
  rewrite split_on_free by by apply release_dash.
  unfold release. rewrite split_on_app, split_on_app, split_on_free by done.
  simpl. unfold version_part. simpl. rewrite Pa, Pb, Pc. simpl.
  unfold i64_of, encode_version. unwrap. lia.
Qed.

Lemma version_number_patch sa sb sc sp a b c p :
  component sa a -> component sb b -> component sc c -> component sp p ->
  0 <= a < 1000000 -> 0 <= b < 1000 -> 0 <= c < 1000 -> 0 <= p < 1000 ->
  get_version_number (patch (release sa sb sc) sp) = encode_version a b c p.
Proof.
  intros Ca Cb Cc Cp Ha Hb Hc Hp.
  pose proof (version_number_release sa sb sc a b c Ca Cb Cc Ha Hb Hc) as H.
  destruct Ca as [Pa Da Ka], Cb as [Pb Db Kb], Cc as [Pc Dc Kc], Cp as [Pp Dp Kp].
  revert H. unfold get_version_number.
  rewrite split_on_free by by apply release_dash.
  unfold patch. rewrite (split_on_app dash (release sa sb sc) sp) by by apply release_dash.
  rewrite (split_on_free dash sp) by done.
  cbn zeta iota. intros ->. rewrite Pp. simpl. unfold i64_of, encode_version.
  rewrite swrap_id by lia. lia.
Qed.

Definition lex4 (x y : Z * Z * Z * Z) : Prop :=
  let '(a, b, c, p) := x in let '(a', b', c', p') := y in
  a < a' \/ a = a' /\ (b < b' \/ b = b' /\ (c < c' \/ c = c' /\ p < p')).

(** Version numbers compare like versions: for releases [a.b.c] and patches
    [a.b.c-p] with [b < 1000], [c < 100] and [p < 10], the number of one is
    smaller than the number of the other exactly when it is the older version;
    a release is its patch zero. *)
Theorem version_order sa sb sc sp sa' sb' sc' sp' a b c p a' b' c' p' :
  component sa a -> component sb b -> component sc c -> component sp p ->
  component sa' a' -> component sb' b' -> component sc' c' -> component sp' p' ->
  0 <= a < 1000000 -> 0 <= b < 1000 -> 0 <= c < 100 -> 0 <= p < 10 ->
  0 <= a' < 1000000 -> 0 <= b' < 1000 -> 0 <= c' < 100 -> 0 <= p' < 10 ->
  (get_version_number (patch (release sa sb sc) sp)
     < get_version_number (patch (release sa' sb' sc') sp')
   <-> lex4 (a, b, c, p) (a', b', c', p')) /\
  (get_version_number (release sa sb sc)
     < get_version_number (patch (release sa' sb' sc') sp')
   <-> lex4 (a, b, c, 0) (a', b', c', p')).
Proof.
  intros. rewrite (version_number_release sa sb sc a b c) by (done || lia).
  rewrite (version_number_patch sa sb sc sp a b c p) by (done || lia).
  rewrite (version_number_patch sa' sb' sc' sp' a' b' c' p') by (done || lia).
  unfold encode_version, lex4. split; lia.
Qed.

Definition component_check (s : bytes) (z : Z) : bool :=
  bool_decide (parse_i64 s = Some z) && bool_decide (dot ∉ s) && bool_decide (dash ∉ s).

Lemma component_check_spec s z : component_check s z = true -> component s z.
Proof.
  unfold component_check. rewrite !andb_true_iff, !bool_decide_eq_true. intros [[? ?] ?]. by split.
Qed.

Lemma version_order_witness :
  get_version_number (str "1.1.10-1") < get_version_number (str "1.2.3-0").
Proof.
  refine (proj2 (proj1 (version_order (str "1") (str "1") (str "10") (str "1")
    (str "1") (str "2") (str "3") (str "0") 1 1 10 1 1 2 3 0
    _ _ _ _ _ _ _ _ _ _ _ _ _ _ _ _)) _);
    try (apply component_check_spec; vm_compute; reflexivity); try lia.
  unfold lex4. lia.
Defined.
