(* ===== verification/Tcp.v ===== *)
(** * Encrypted TCP streams ([libs/hbb_common/src/tcp.rs])

    A [FramedStream] is a [BytesCodec] on a socket with an optional [Encrypt],
    a secretbox key and two message counters used as nonces.  The socket
    itself is tokio's; the model keeps the codec, the bytes received and not
    yet decoded, and the counters, and returns what is written. *)
From S2P Require Import Prelude BytesCodec Crypto.

Record Encrypt := mkEncrypt {
  enc_key : bytes;
  enc_seq : Z;
  dec_seq : Z
}.

Record FramedStream := mkFramedStream {
  codec : BytesCodec;
  rbuf : bytes;
  encryption : option Encrypt;
  send_timeout : Z
}.

Inductive StreamError :=
| Io (e : IoErrorKind)
| Decryption.

(** [Framed::new(stream, BytesCodec::new())] *)
Definition from : FramedStream :=
  {| codec := new; rbuf := []; encryption := None; send_timeout := 0 |}.

Definition set_send_timeout (s : FramedStream) (ms : Z) : FramedStream :=
  {| codec := codec s; rbuf := rbuf s; encryption := encryption s; send_timeout := ms |}.

Definition set_raw (s : FramedStream) : FramedStream :=
  {| codec := BytesCodec.set_raw (codec s); rbuf := rbuf s; encryption := None;
     send_timeout := send_timeout s |}.

Definition is_secured (s : FramedStream) : bool :=
  match encryption s with Some _ => true | None => false end.

Definition with_encryption (s : FramedStream) (e : option Encrypt) : FramedStream :=
  {| codec := codec s; rbuf := rbuf s; encryption := e; send_timeout := send_timeout s |}.

Definition with_codec (s : FramedStream) (c : BytesCodec) (b : bytes) : FramedStream :=
  {| codec := c; rbuf := b; encryption := encryption s; send_timeout := send_timeout s |}.

Definition Encrypt_new (key : bytes) : Encrypt :=
  {| enc_key := key; enc_seq := 0; dec_seq := 0 |}.

Definition set_key (s : FramedStream) (key : bytes) : FramedStream :=
  with_encryption s (Some (Encrypt_new key)).

Definition get_nonce (seqnum : Z) : bytes :=
  le_split 8 seqnum ++ replicate (Z.to_nat (NONCEBYTES - 8)) Byte.x00.

Section Stream.
Context `{Secretbox}.

Definition enc (e : Encrypt) (data : bytes) : bytes * Encrypt :=
  let seq := u64_of (enc_seq e + 1) in
  (seal data (get_nonce seq) (enc_key e),
   {| enc_key := enc_key e; enc_seq := seq; dec_seq := dec_seq e |}).

(** [dec] counts before it opens, so a forged frame also uses up a nonce;
    frames of at most one byte are handed over as they are. *)
Definition dec (e : Encrypt) (b : bytes) : result bytes StreamError * Encrypt :=
  if len b <=? 1 then (Ok b, e)
  else
    let seq := u64_of (dec_seq e + 1) in
    let e' := {| enc_key := enc_key e; enc_seq := enc_seq e; dec_seq := seq |} in
    match open b (get_nonce seq) (enc_key e) with
    | Some m => (Ok m, e')
    | None => (Err Decryption, e')
    end.

(** [send_bytes] on a connected socket: the frame put on the wire. *)
Definition send_bytes (s : FramedStream) (b : bytes) : result bytes StreamError :=
  match BytesCodec.encode (codec s) b [] with
  | Ok w => Ok w
  | Err e => Err (Io e)
  end.

Definition send_raw (s : FramedStream) (msg : bytes)
  : result bytes StreamError * FramedStream :=
  match encryption s with
  | Some e =>
      let '(msg, e') := enc e msg in
      let s' := with_encryption s (Some e') in
      (send_bytes s' msg, s')
  | None => (send_bytes s msg, s)
  end.

(** The part of [next] that follows a complete frame. *)
Definition open_frame (o : option Encrypt) (frame : bytes)
  : result bytes StreamError * option Encrypt :=
  match o with
  | Some e => let '(r, e') := dec e frame in (r, Some e')
  | None => (Ok frame, None)
  end.

(** One poll of [next]: [None] while the buffered frame is incomplete. *)
Definition next (s : FramedStream)
  : option (result bytes StreamError) * FramedStream :=
  match BytesCodec.decode (codec s) (rbuf s) with
  | (Ok None, c, b) => (None, with_codec s c b)
  | (Err e, c, b) => (Some (Err (Io e)), with_codec s c b)
  | (Ok (Some frame), c, b) =>
      let '(r, e) := open_frame (encryption s) frame in
      (Some r, with_encryption (with_codec s c b) e)
  end.

Definition deliver (s : FramedStream) (chunk : bytes) : FramedStream :=
  with_codec s (codec s) (rbuf s ++ chunk).

(** A sender writing messages one after the other. *)
Fixpoint send_all (s : FramedStream) (msgs : list bytes)
  : result bytes StreamError * FramedStream :=
  match msgs with
  | [] => (Ok [], s)
  | m :: msgs =>
      match send_raw s m with
      | (Err e, s) => (Err e, s)
      | (Ok w, s) =>
          match send_all s msgs with
          | (Ok ws, s) => (Ok (w ++ ws), s)
          | (Err e, s) => (Err e, s)
          end
      end
  end.

(** A receiver calling [next] until the codec has nothing left. *)
Fixpoint recv (fuel : nat) (s : FramedStream)
  : list (result bytes StreamError) * FramedStream :=
  match fuel with
  | O => ([], s)
  | S fuel =>
      match next s with
      | (None, s) => ([], s)
      | (Some (Err e), s) => ([Err e], s)
      | (Some (Ok m), s) => let '(ms, s) := recv fuel s in (Ok m :: ms, s)
      end
  end.

(** The read loop over an arbitrary fragmentation of the stream; the fuel is
    the codec's own bound on the frames a buffer can hold. *)
Fixpoint recv_all (s : FramedStream) (chunks : list bytes)
  : list (result bytes StreamError) * FramedStream :=
  match chunks with
  | [] => ([], s)
  | ch :: chunks =>
      let s := deliver s ch in
      let '(ms, s) := recv (S (pending (codec s) (rbuf s))) s in
      let '(ms', s) := recv_all s chunks in
      (ms ++ ms', s)
  end.

(** ** Receiving *)

(** Opening a run of frames, when none is rejected. *)
Fixpoint open_frames (o : option Encrypt) (frames : list bytes)
  : option (list bytes * option Encrypt) :=
  match frames with
  | [] => Some ([], o)
  | f :: frames =>
      match open_frame o f with
      | (Ok m, o) =>
          match open_frames o frames with
          | Some (ms, o) => Some (m :: ms, o)
          | None => None
          end
      | (Err _, _) => None
      end
  end.

Lemma open_frames_app o fs gs ms o' :
  open_frames o (fs ++ gs) = Some (ms, o') ->
  exists ms1 ms2 o1, open_frames o fs = Some (ms1, o1) /\
    open_frames o1 gs = Some (ms2, o') /\ ms = ms1 ++ ms2.
Proof.
  revert o ms. induction fs as [|f fs IH]; intros o ms; simpl.
  { intros. eexists [], ms, o. done. }
  destruct (open_frame o f) as [[m|e] o1]; [|done].
  destruct (open_frames o1 (fs ++ gs)) as [[ms1 o2]|] eqn:E; [|done].
  intros [= <- <-]. destruct (IH _ _ E) as (a & b & o3 & -> & ? & ->).
  by eexists (m :: a), b, o3.
Qed.

Lemma recv_drain fuel s ds c' b' ms o :
  codec_ok (codec s) -> (pending (codec s) (rbuf s) < fuel)%nat ->
  drain (codec s) (rbuf s) = (ds, Waiting c' b') ->
  open_frames (encryption s) ds = Some (ms, o) ->
  recv fuel s = (Ok <$> ms, with_encryption (with_codec s c' b') o).
Proof.
  revert s ds ms. induction fuel as [|fuel IH]; intros s ds ms Hok Hf Hd Ho; [lia|].
  rewrite drain_eq in Hd by done. simpl. unfold next.
  destruct (BytesCodec.decode (codec s) (rbuf s)) as [[[[f|]|e] c1] b1] eqn:E; [| |done].
  - destruct (drain c1 b1) as [ds1 o1] eqn:Ed. simplify_eq. simpl in Ho.
    destruct (open_frame (encryption s) f) as [[m|e] o1]; [|done].
    destruct (open_frames o1 ds1) as [[ms1 o2]|] eqn:Eo; [|done]. simplify_eq.
    rewrite (IH (with_encryption (with_codec s c1 b1) o1) ds1 ms1); simpl; try done.
    + by eapply decode_codec_ok.
    + pose proof (decode_pending _ _ _ _ _ Hok E). lia.
  - simplify_eq. simpl in Ho. simplify_eq. done.
Qed.

Lemma recv_all_feed s chunks ds c' b' ms o :
  codec_ok (codec s) -> raw (codec s) = false ->
  feed (codec s) (rbuf s) chunks = (ds, Waiting c' b') ->
  open_frames (encryption s) ds = Some (ms, o) ->
  recv_all s chunks = (Ok <$> ms, with_encryption (with_codec s c' b') o).
Proof.
  revert s ds ms. induction chunks as [|ch chunks IH]; intros s ds ms Hok Hr Hd Ho; simpl in Hd.
  { simplify_eq. simpl in Ho. simplify_eq. by destruct s. }
  destruct (drain (codec s) (rbuf s ++ ch)) as [ds1 [c1 b1|]] eqn:Ed; [|by simplify_eq].
  destruct (feed c1 b1 chunks) as [ds2 o2] eqn:Ef. simplify_eq.
  destruct (open_frames_app _ _ _ _ _ Ho) as (ms1 & ms2 & o1 & Ho1 & Ho2 & ->).
  destruct (drain_settled _ _ _ _ _ Hok Hr Ed) as (?&?&_).
  cbn [recv_all]. rewrite (recv_drain _ (deliver s ch) ds1 c1 b1 ms1 o1) by (simpl; auto with lia).
  rewrite (IH (with_encryption (with_codec (deliver s ch) c1 b1) o1) ds2 ms2) by done.
  by rewrite fmap_app.
Qed.

(** ** Sending *)

(** The frame payloads a sender produces, and its state afterwards. *)
Fixpoint seal_all (o : option Encrypt) (msgs : list bytes) : list bytes * option Encrypt :=
  match o, msgs with
  | _, [] => ([], o)
  | None, _ => (msgs, None)
  | Some e, m :: msgs =>
      let '(c, e) := enc e m in
      let '(cs, o) := seal_all (Some e) msgs in (c :: cs, o)
  end.
End Stream.

#[global] Arguments enc : simpl never.
#[global] Arguments dec : simpl never.

Section Channel.
Context `{SB : Secretbox, !SecretboxLaws}.

(** Sender and receiver agree on the key and on the next nonce. *)
Definition in_sync (tx rx : FramedStream) : Prop :=
  match encryption tx, encryption rx with
  | Some et, Some er => enc_key et = enc_key er /\ enc_seq et = dec_seq er
  | None, None => True
  | _, _ => False
  end.

Definition idle (s : FramedStream) : Prop :=
  raw (codec s) = false /\ state (codec s) = Head /\ rbuf s = [].

(** A message that fits a frame once it is sealed. *)
Definition fits (rx : FramedStream) (m : bytes) : Prop :=
  len m + MACBYTES <= 0x3FFFFFFF /\ len m + MACBYTES <= max_packet_length (codec rx).

Lemma dec_enc et er m :
  enc_key et = enc_key er -> enc_seq et = dec_seq er ->
  dec er (enc et m).1 =
    (Ok m, {| enc_key := enc_key er; enc_seq := enc_seq er; dec_seq := enc_seq (enc et m).2 |}).
Proof.
  intros Hk Hs. unfold dec, enc. simpl. rewrite seal_len.
  destruct (Z.leb_spec (len m + MACBYTES) 1) as [Hl|_].
  { pose proof (len_nonneg m). unfold MACBYTES in Hl. lia. }
  by rewrite <- Hs, <- Hk, open_seal.
Qed.

Lemma open_seal_all et er msgs :
  enc_key et = enc_key er -> enc_seq et = dec_seq er ->
  exists et' er', (seal_all (Some et) msgs).2 = Some et' /\
    open_frames (Some er) (seal_all (Some et) msgs).1 = Some (msgs, Some er') /\
    enc_key et' = enc_key er' /\ enc_seq et' = dec_seq er'.
Proof.
  revert et er. induction msgs as [|m msgs IH]; intros et er Hk Hs.
  { exists et, er. done. }
  pose proof (dec_enc et er m Hk Hs) as Hd. cbn [seal_all].
  destruct (enc et m) as [c e1] eqn:Ee. simpl in Hd.
  destruct (IH e1 {| enc_key := enc_key er; enc_seq := enc_seq er; dec_seq := enc_seq e1 |})
    as (et' & er' & H1 & H2 & H3 & H4).
  { unfold enc in Ee. by simplify_eq. }
  { done. }
  destruct (seal_all (Some e1) msgs) as [cs o]. simpl in *. subst o.
  cbn [open_frames open_frame fst snd]. rewrite Hd, H2. by exists et', er'.
Qed.

Lemma send_all_spec s msgs :
  raw (codec s) = false ->
  Forall (fun m => len m + MACBYTES <= 0x3FFFFFFF) msgs ->
  send_all s msgs =
    (Ok (concat (frame <$> (seal_all (encryption s) msgs).1)),
     with_encryption s (seal_all (encryption s) msgs).2).
Proof.
  intros Hr Hf. revert s Hr. induction Hf as [|m msgs Hm _ IH]; intros s Hr; cbn [send_all].
  { by destruct s as [? ? [] ?]. }
  unfold send_raw, send_bytes. unfold MACBYTES in Hm.
  destruct (encryption s) as [e|] eqn:Ee; cbn [seal_all].
  - destruct (enc e m) as [c e1] eqn:Ec. rewrite encode_spec; [|done|].
    2: { unfold enc in Ec. simplify_eq. rewrite seal_len. unfold MACBYTES. lia. }
    rewrite IH by done. simpl. by destruct (seal_all (Some e1) msgs).
  - rewrite encode_spec by (done || lia). rewrite IH by done. rewrite Ee.
    destruct s, msgs; simpl in *; by subst.
Qed.

Lemma seal_all_len o msgs :
  Forall2 (fun m c => len m <= len c <= len m + MACBYTES) msgs (seal_all o msgs).1.
Proof.
  revert o. induction msgs as [|m msgs IH]; intros o; [by destruct o|].
  destruct o as [e|]; simpl.
  - specialize (IH (Some (enc e m).2)). unfold enc in *. simpl in *.
    destruct (seal_all _ msgs) as [cs o]. constructor; [|done].
    rewrite seal_len. unfold MACBYTES. lia.
  - constructor; [unfold MACBYTES; lia|]. specialize (IH None).
    by destruct msgs.
Qed.

(** [C3] Secure channel: when sender and receiver share a key and agree on
    the nonce counter, any sequence of messages sealed, framed and delivered
    in arbitrary fragments is opened by the receiver to exactly that
    sequence, and both ends agree on the counter again afterwards.  The same
    holds on a stream without encryption. *)
Theorem secure_channel tx rx msgs :
  idle tx -> idle rx -> in_sync tx rx -> Forall (fits rx) msgs ->
  exists wire tx', send_all tx msgs = (Ok wire, tx') /\
    forall chunks, concat chunks = wire ->
      exists rx', recv_all rx chunks = (Ok <$> msgs, rx') /\ idle rx' /\ in_sync tx' rx'.
Proof.
  intros (Htr & Hts & Htb) (Hrr & Hrs & Hrb) Hsync Hfit.
  pose proof (seal_all_len (encryption tx) msgs) as Hlen.
  eexists _, _. split.
  { apply send_all_spec; [done|]. eapply Forall_impl; [done|]. by intros m [? _]. }
  intros chunks Hc.
  assert (exists o, open_frames (encryption rx) (seal_all (encryption tx) msgs).1 = Some (msgs, o)
    /\ in_sync (with_encryption tx (seal_all (encryption tx) msgs).2) (with_encryption rx o))
    as (o & Ho & Hsync').
  { unfold in_sync in *. simpl.
    destruct (encryption tx) as [et|], (encryption rx) as [er|]; try done.
    - destruct Hsync as [Hk Hs].
      destruct (open_seal_all et er msgs Hk Hs) as (et' & er' & -> & -> & ?). by exists (Some er').
    - exists None. split; [|by destruct msgs].
      clear. induction msgs as [|m msgs IH]; [done|]. simpl.
      by replace msgs with (seal_all None msgs).1 at 1 by (by destruct msgs); rewrite IH. }
  eexists. split; [|split; [|exact Hsync']].
  - rewrite (recv_all_feed rx chunks (seal_all (encryption tx) msgs).1 (codec rx) [] msgs o).
    + rewrite <- Hrb at 1. by destruct rx.
    + unfold codec_ok. by rewrite Hrs.
    + done.
    + rewrite Hrb. rewrite feed_concat, app_nil_l, Hc; [|unfold codec_ok; by rewrite Hrs|done|].
      * apply drain_frames; [done..|].
        clear -Hlen Hfit. induction Hlen; inversion Hfit as [|?? [??] ?]; subst; constructor; [|by auto].
        split; lia.
      * by apply (drain_frames (codec rx) []).
    + done.
  - done.
Qed.
End Channel.

#[local] Existing Instances Toy.secretbox Toy.secretbox_laws.

Lemma secure_channel_witness :
  let s := set_key from [Byte.x07] in
  exists wire tx', send_all s [[Byte.x61; Byte.x62]; []] = (Ok wire, tx') /\
    forall chunks, concat chunks = wire ->
      exists rx', recv_all s chunks = (Ok <$> [[Byte.x61; Byte.x62]; []], rx')
        /\ idle rx' /\ in_sync tx' rx'.
Proof.
  intros s. apply (secure_channel s s [[Byte.x61; Byte.x62]; []]);
    repeat split; repeat constructor; vm_compute; congruence.
Defined.

(** The nonces [enc] uses for a run of messages. *)
Fixpoint enc_nonces `{Secretbox} (e : Encrypt) (msgs : list bytes) : list bytes :=
  match msgs with
  | [] => []
  | m :: msgs => let e' := (enc e m).2 in get_nonce (enc_seq e') :: enc_nonces e' msgs
  end.

Lemma get_nonce_inj a b :
  in_width 64 a -> in_width 64 b -> get_nonce a = get_nonce b -> a = b.
Proof.
  intros Ha Hb Hn. unfold get_nonce in Hn.
  apply app_inj_1 in Hn as [Hn _]; [|by rewrite !length_le_split].
  apply (f_equal le_combine) in Hn. rewrite !le_combine_split in Hn.
  unfold in_width in *. rewrite !Z.mod_small in Hn by (simpl; lia). done.
Qed.

Lemma enc_seq_next `{Secretbox} e m :
  0 <= enc_seq e -> enc_seq e + 1 < 2 ^ 64 -> enc_seq (enc e m).2 = enc_seq e + 1.
Proof. intros ??. apply wrap_id. split; lia. Qed.

Lemma enc_nonces_elem `{Secretbox} e msgs nonce :
  0 <= enc_seq e -> enc_seq e + len msgs < 2 ^ 64 -> nonce ∈ enc_nonces e msgs ->
  exists i, enc_seq e < i <= enc_seq e + len msgs /\ nonce = get_nonce i.
Proof.
  revert e. induction msgs as [|m msgs IH]; intros e H0 Hl; cbn [enc_nonces]; [by intros ?%not_elem_of_nil|].
  rewrite len_cons in *. pose proof (len_nonneg msgs).
  pose proof (enc_seq_next e m ltac:(lia) ltac:(lia)) as Hu.
  intros [->|Hin]%elem_of_cons.
  - exists (enc_seq e + 1). split; [lia|by rewrite Hu].
  - apply IH in Hin as (i & Hi & ->); [|lia..]. exists i. split; [lia|done].
Qed.

(** Nonce freshness: as long as the 64-bit counter does not wrap, no two
    messages sealed on a stream use the same nonce. *)
Theorem enc_nonces_NoDup `{Secretbox} e msgs :
  0 <= enc_seq e -> enc_seq e + len msgs < 2 ^ 64 -> NoDup (enc_nonces e msgs).
Proof.
  revert e. induction msgs as [|m msgs IH]; intros e H0 Hl; cbn [enc_nonces]; [constructor|].
  rewrite len_cons in *. pose proof (len_nonneg msgs).
  pose proof (enc_seq_next e m ltac:(lia) ltac:(lia)) as Hu.
  constructor; [|apply IH; lia].
  intros Hin. apply enc_nonces_elem in Hin as (i & Hi & Hn); [|lia..].
  apply get_nonce_inj in Hn; [lia|split; lia..].
Qed.

Lemma enc_nonces_NoDup_witness :
  NoDup (enc_nonces (Encrypt_new [Byte.x07]) [[Byte.x61]; [Byte.x62]; [Byte.x61]]).
Proof. apply (enc_nonces_NoDup (Encrypt_new [Byte.x07])); vm_compute; congruence. Defined.
