(* ===== verification/Handshake.v ===== *)
(** * The end-to-end key agreement

    The controlling side runs [Client::secure_connection] ([src/client.rs])
    and the controlled side the first half of [create_tcp_connection]
    ([src/server.rs]); [src/common.rs] holds the helpers they share and the
    variant used towards the rendezvous server ([secure_tcp_impl]).

    Each side sends at most one message before and after the single [next]
    it awaits, so a run is a function of what that [next] delivers; fresh key
    material is an argument, and every [send] may fail.  The protobuf codec
    and base64 are generated or third-party code and are an interface. *)
From S2P Require Import Prelude BytesCodec Crypto Tcp.

(** [message.proto]: the members of [Message.union] the handshake looks at. *)
Inductive Message :=
| MsgNone
| MsgSignedId (id : bytes)
| MsgPublicKey (asymmetric_value symmetric_value : bytes)
| MsgOther (tag : Z).

(** [rendezvous.proto], likewise. *)
Inductive RendezvousMessage :=
| KeyExchange (keys : list bytes)
| RendezvousOther (tag : Z).

Record IdPk := mkIdPk { idpk_id : bytes; idpk_pk : bytes }.

Class Wire := {
  write_message : Message -> bytes;
  parse_message : bytes -> option Message;
  write_idpk : IdPk -> bytes;
  parse_idpk : bytes -> option IdPk;
  write_rendezvous : RendezvousMessage -> bytes;
  parse_rendezvous : bytes -> option RendezvousMessage;
  decode64 : bytes -> option bytes
}.

(** Parsing what was serialised gives the message back. *)
Class WireLaws `{Wire} := {
  parse_write_message m : parse_message (write_message m) = Some m;
  parse_write_idpk m : parse_idpk (write_idpk m) = Some m
}.

(** What [timeout(.., conn.next()).await] can yield. *)
Inductive next_event :=
| Elapsed
| Closed
| Received (r : result bytes StreamError).

Inductive HandshakeError :=
| SendFailed
| NextElapsed
| NextFailed (e : StreamError)
| ResetByPeer
| InvalidRsKey
| InvalidKeyExchange
| SignatureMismatch
| WrongPkLength
| InvalidPkLength
| BoxFailure
| InvalidSecretKeyLength
| InvalidFormat
| NoPublicKey.

(** One side's run: the messages it sent, the stream afterwards, its result. *)
Record run (M A : Type) := mkRun {
  sent : list M;
  stream : FramedStream;
  outcome : result A HandshakeError
}.
Arguments mkRun {M A} _ _ _.
Arguments sent {M A} _.
Arguments stream {M A} _.
Arguments outcome {M A} _.

Definition zero_nonce : bytes := replicate (Z.to_nat NONCEBYTES) Byte.x00.

Section Handshake.
Context `{Box, Sign, Wire}.

Definition get_pk (pk : bytes) : option bytes :=
  if len pk =? 32 then Some pk else None.

Definition get_rs_pk (str_base64 : bytes) : option bytes :=
  match decode64 str_base64 with
  | Some pk => get_pk pk
  | None => None
  end.

Definition decode_id_pk (signed key : bytes) : option (bytes * bytes) :=
  match verify signed key with
  | None => None
  | Some b =>
      match parse_idpk b with
      | None => None
      | Some res =>
          match get_pk (idpk_pk res) with
          | Some pk => Some (idpk_id res, pk)
          | None => None
          end
      end
  end.

(** [our_sk_b] and [key] are the results of [gen_keypair] and [gen_key]. *)
Definition create_symmetric_key_msg (our_sk_b key their_pk_b : bytes)
  : bytes * bytes * bytes :=
  (box_public our_sk_b, box_seal key zero_nonce their_pk_b our_sk_b, key).

(** [Encrypt::decode] of [tcp.rs]. *)
Definition Encrypt_decode (symmetric_data their_pk_b our_sk_b : bytes)
  : result bytes HandshakeError :=
  if negb (len their_pk_b =? BOX_PUBLICKEYBYTES) then Err InvalidPkLength
  else
    match box_open symmetric_data zero_nonce their_pk_b our_sk_b with
    | None => Err BoxFailure
    | Some key =>
        if negb (len key =? KEYBYTES) then Err InvalidSecretKeyLength else Ok key
    end.

(** A [send] on a connection whose socket may be gone. *)
Definition sending {M A} (send_ok : bool) (s : FramedStream) (m : M)
  (k : run M A) : run M A :=
  if send_ok then mkRun (m :: sent k) (stream k) (outcome k)
  else mkRun [] s (Err SendFailed).

(** The public key the rendezvous server certified for [peer_id]. *)
Definition certified_pk (rs_pub_key peer_id signed_id_pk key : bytes) : option bytes :=
  let rs_pk := get_rs_pk (if decide (key = []) then rs_pub_key else key) in
  if decide (signed_id_pk = []) then None
  else
    match rs_pk with
    | None => None
    | Some rs_pk =>
        match decode_id_pk signed_id_pk rs_pk with
        | Some (id, pk) => if decide (id = peer_id) then Some pk else None
        | None => None
        end
    end.

(** [Client::secure_connection]. *)
Definition secure_connection (rs_pub_key : bytes) (our_sk_b sym_key : bytes)
  (peer_id signed_id_pk key : bytes) (conn : FramedStream)
  (send_ok : bool) (ev : next_event) : run Message (option bytes) :=
  let option_pk := certified_pk rs_pub_key peer_id signed_id_pk key in
  match option_pk with
  | None => sending send_ok conn MsgNone (mkRun [] conn (Ok None))
  | Some sign_pk =>
      match ev with
      | Elapsed => mkRun [] conn (Err NextElapsed)
      | Closed => mkRun [] conn (Err ResetByPeer)
      | Received (Err e) => mkRun [] conn (Err (NextFailed e))
      | Received (Ok b) =>
          match parse_message b with
          | Some (MsgSignedId si) =>
              match decode_id_pk si sign_pk with
              | Some (id, their_pk_b) =>
                  if decide (id = peer_id) then
                    let '(asymmetric_value, symmetric_value, k) :=
                      create_symmetric_key_msg our_sk_b sym_key their_pk_b in
                    sending send_ok conn (MsgPublicKey asymmetric_value symmetric_value)
                      (mkRun [] (set_key conn k) (Ok option_pk))
                  else
                    sending send_ok conn MsgNone (mkRun [] conn (Ok option_pk))
              | None =>
                  sending send_ok conn (MsgPublicKey [] []) (mkRun [] conn (Ok option_pk))
              end
          | Some _ => sending send_ok conn MsgNone (mkRun [] conn (Ok option_pk))
          | None => sending send_ok conn MsgNone (mkRun [] conn (Ok option_pk))
          end
      end
  end.

(** [create_tcp_connection] up to [Connection::start]: [Ok true] means the
    peer asked for the device key to be sent again ([set_key_confirmed(false)]). *)
Definition create_tcp_connection (our_sk_b id sk pk : bytes) (secure : bool)
  (conn : FramedStream) (send_ok : bool) (ev : next_event) : run Message bool :=
  if secure && (len pk =? SIGN_PUBLICKEYBYTES) && (len sk =? SIGN_SECRETKEYBYTES) then
    let signed := sign (write_idpk (mkIdPk id (box_public our_sk_b))) sk in
    sending send_ok conn (MsgSignedId signed)
      match ev with
      | Elapsed => mkRun [] conn (Err NextElapsed)
      | Closed => mkRun [] conn (Err NoPublicKey)
      | Received (Err e) => mkRun [] conn (Err (NextFailed e))
      | Received (Ok b) =>
          match parse_message b with
          | None => mkRun [] conn (Err InvalidFormat)
          | Some (MsgPublicKey asymmetric_value symmetric_value) =>
              if len asymmetric_value =? BOX_PUBLICKEYBYTES then
                match Encrypt_decode symmetric_value asymmetric_value our_sk_b with
                | Ok k => mkRun [] (set_key conn k) (Ok false)
                | Err e => mkRun [] conn (Err e)
                end
              else if decide (asymmetric_value = []) then mkRun [] conn (Ok true)
              else mkRun [] conn (Err InvalidPkLength)
          | Some _ => mkRun [] conn (Ok false)
          end
      end
  else mkRun [] conn (Ok false).

(** [secure_tcp_impl]: the client's half of the key exchange with [hbbs]. *)
Definition secure_tcp_impl (use_ws : bool) (our_sk_b sym_key : bytes)
  (key : bytes) (conn : FramedStream) (send_ok : bool) (ev : next_event)
  : run RendezvousMessage unit :=
  if use_ws then mkRun [] conn (Ok tt)
  else
    match get_rs_pk key with
    | None => mkRun [] conn (Err InvalidRsKey)
    | Some rs_pk =>
        match ev with
        | Elapsed => mkRun [] conn (Err NextElapsed)
        | Received (Ok b) =>
            match parse_rendezvous b with
            | Some (KeyExchange keys) =>
                match keys with
                | [k0] =>
                    match verify k0 rs_pk with
                    | None => mkRun [] conn (Err SignatureMismatch)
                    | Some their_pk_b =>
                        match get_pk their_pk_b with
                        | None => mkRun [] conn (Err WrongPkLength)
                        | Some their_pk_b =>
                            let '(asym, symm, k) :=
                              create_symmetric_key_msg our_sk_b sym_key their_pk_b in
                            sending send_ok conn (KeyExchange [asym; symm])
                              (mkRun [] (set_key conn k) (Ok tt))
                        end
                    end
                | _ => mkRun [] conn (Err InvalidKeyExchange)
                end
            | _ => mkRun [] conn (Ok tt)
            end
        | _ => mkRun [] conn (Ok tt)
        end
    end.

(** ** Authentication *)

Lemma decode_id_pk_Some signed key id pk :
  decode_id_pk signed key = Some (id, pk) <->
  exists b, verify signed key = Some b /\
    parse_idpk b = Some (mkIdPk id pk) /\ len pk = 32.
Proof.
  unfold decode_id_pk, get_pk. split.
  - destruct (verify signed key) as [b|]; [|done].
    destruct (parse_idpk b) as [[i p]|] eqn:E; [|done]. simpl.
    destruct (Z.eqb_spec (len p) 32); [|done]. intros [= <- <-]. by exists b.
  - intros (b & -> & -> & Hl). simpl. by rewrite Hl.
Qed.

(** A statement [m] signed by the holder of [pk]: it binds [id] to a key. *)
Definition attests (pk signed id key : bytes) : Prop :=
  exists b, verify signed pk = Some b /\ parse_idpk b = Some (mkIdPk id key) /\ len key = 32.

(** [C2] No key without authentication: the controlling side enables
    encryption on a plaintext connection only when the rendezvous server's
    key attests a signing key for the requested peer id and that signing
    key attests, for the same id, the box key the session key is sealed to;
    and the only message it sent is that sealed key. *)
Theorem secure_connection_authentic rs_pub_key our_sk_b sym_key peer_id signed_id_pk key conn send_ok ev :
  encryption conn = None ->
  let r := secure_connection rs_pub_key our_sk_b sym_key peer_id signed_id_pk key conn send_ok ev in
  is_secured (stream r) = true ->
  exists rs_pk sign_pk b si their_pk,
    get_rs_pk (if decide (key = []) then rs_pub_key else key) = Some rs_pk /\
    attests rs_pk signed_id_pk peer_id sign_pk /\
    ev = Received (Ok b) /\ parse_message b = Some (MsgSignedId si) /\
    attests sign_pk si peer_id their_pk /\
    stream r = set_key conn sym_key /\ outcome r = Ok (Some sign_pk) /\
    sent r = [MsgPublicKey (box_public our_sk_b)
                (box_seal sym_key zero_nonce their_pk our_sk_b)].
Proof.
  intros Hplain. unfold secure_connection, certified_pk, sending.
  assert (forall c, c = conn -> is_secured c = false) as Hns.
  { intros c ->. unfold is_secured. by rewrite Hplain. }
  set (rs := get_rs_pk _).
  destruct (decide (signed_id_pk = [])); [destruct send_ok; simpl; by rewrite Hns|].
  destruct rs as [rs_pk|] eqn:Ers; [|destruct send_ok; simpl; by rewrite Hns].
  destruct (decode_id_pk signed_id_pk rs_pk) as [[id sign_pk]|] eqn:Ec;
    [|destruct send_ok; simpl; by rewrite Hns].
  destruct (decide (id = peer_id)) as [->|]; [|destruct send_ok; simpl; by rewrite Hns].
  destruct ev as [| |[b|e]]; simpl; try by rewrite Hns.
  destruct (parse_message b) as [[|si| |]|] eqn:Em;
    try (destruct send_ok; simpl; by rewrite Hns).
  destruct (decode_id_pk si sign_pk) as [[id their_pk]|] eqn:Ed;
    [|destruct send_ok; simpl; by rewrite Hns].
  destruct (decide (id = peer_id)) as [->|]; [|destruct send_ok; simpl; by rewrite Hns].
  destruct send_ok; simpl; [|by rewrite Hns]. intros _.
  apply decode_id_pk_Some in Ec, Ed. by exists rs_pk, sign_pk, b, si, their_pk.
Qed.

(** The controlled side enables encryption only with a 32-byte key that
    opens under its own fresh box key and the 32-byte key the peer sent. *)
Theorem create_tcp_connection_secured our_sk_b id sk pk secure conn send_ok ev :
  encryption conn = None ->
  let r := create_tcp_connection our_sk_b id sk pk secure conn send_ok ev in
  is_secured (stream r) = true ->
  exists b their_pk sealed k,
    ev = Received (Ok b) /\ parse_message b = Some (MsgPublicKey their_pk sealed) /\
    len their_pk = BOX_PUBLICKEYBYTES /\ len k = KEYBYTES /\
    box_open sealed zero_nonce their_pk our_sk_b = Some k /\
    stream r = set_key conn k /\ outcome r = Ok false /\ secure = true.
Proof.
  intros Hplain. unfold create_tcp_connection, sending, Encrypt_decode.
  assert (is_secured conn = false) as Hns by (unfold is_secured; by rewrite Hplain).
  destruct (secure && _ && _) eqn:Hsec; [|simpl; by rewrite Hns].
  apply andb_prop in Hsec as [[-> _]%andb_prop _].
  destruct send_ok; [|simpl; by rewrite Hns].
  destruct ev as [| |[b|e]]; simpl; try by rewrite Hns.
  destruct (parse_message b) as [[| |their_pk sealed|]|] eqn:Em; simpl; try by rewrite Hns.
  destruct (Z.eqb_spec (len their_pk) BOX_PUBLICKEYBYTES) as [Hl|]; simpl;
    [|case_decide; simpl; by rewrite Hns].
  destruct (box_open sealed zero_nonce their_pk our_sk_b) as [k|] eqn:Eb; simpl; [|by rewrite Hns].
  destruct (Z.eqb_spec (len k) KEYBYTES); simpl; [|by rewrite Hns].
  intros _. by exists b, their_pk, sealed, k.
Qed.
End Handshake.

Section Agreement.
Context `{BX : Box, !BoxLaws, SG : Sign, !SignLaws, WR : Wire, !WireLaws}.

Lemma decode_id_pk_sign id pk sk :
  len pk = 32 -> decode_id_pk (sign (write_idpk (mkIdPk id pk)) sk) (sign_public sk) = Some (id, pk).
Proof.
  intros Hl. apply decode_id_pk_Some. eexists. by rewrite verify_sign, parse_write_idpk.
Qed.

Lemma certified_pk_cert rs_pub_key rs_sk sk id key :
  decode64 key = Some (sign_public rs_sk) -> key <> [] ->
  sign (write_idpk (mkIdPk id (sign_public sk))) rs_sk <> [] ->
  certified_pk rs_pub_key id (sign (write_idpk (mkIdPk id (sign_public sk))) rs_sk) key
  = Some (sign_public sk).
Proof.
  intros Hk64 Hkey Hcert. unfold certified_pk, get_rs_pk.
  rewrite (decide_False (P := key = [])), Hk64 by done.
  rewrite decide_False by done. unfold get_pk. rewrite sign_public_len. simpl.
  rewrite decode_id_pk_sign by apply sign_public_len. by rewrite decide_True.
Qed.

(** [C37] Agreement: when the rendezvous server has certified the controlled
    device's signing key, the honest run of the two sides, each fed what the
    other sent, ends with both streams encrypted under the session key the
    controlling side drew, with matching counters in both directions. *)
Theorem handshake_agreement rs_pub_key rs_sk sk id key c_sk s_sk sym_key cconn sconn :
  decode64 key = Some (sign_public rs_sk) -> key <> [] ->
  len sk = SIGN_SECRETKEYBYTES -> len sym_key = KEYBYTES ->
  let cert := sign (write_idpk (mkIdPk id (sign_public sk))) rs_sk in
  let server := create_tcp_connection s_sk id sk (sign_public sk) true sconn true in
  let client := secure_connection rs_pub_key c_sk sym_key id cert key cconn true in
  cert <> [] ->
  exists m1 m2,
    (forall ev, sent (server ev) = [m1]) /\
    sent (client (Received (Ok (write_message m1)))) = [m2] /\
    outcome (client (Received (Ok (write_message m1)))) = Ok (Some (sign_public sk)) /\
    outcome (server (Received (Ok (write_message m2)))) = Ok false /\
    let c := stream (client (Received (Ok (write_message m1)))) in
    let s := stream (server (Received (Ok (write_message m2)))) in
    c = set_key cconn sym_key /\ s = set_key sconn sym_key /\ in_sync c s /\ in_sync s c.
Proof.
  intros Hk64 Hkey Hsk Hsym cert server client Hcert.
  set (m1 := MsgSignedId (sign (write_idpk (mkIdPk id (box_public s_sk))) sk)).
  set (m2 := MsgPublicKey (box_public c_sk) (box_seal sym_key zero_nonce (box_public s_sk) c_sk)).
  assert (client (Received (Ok (write_message m1)))
          = mkRun [m2] (set_key cconn sym_key) (Ok (Some (sign_public sk)))) as Hc.
  { unfold client, secure_connection. unfold cert in *. rewrite certified_pk_cert by done.
    rewrite parse_write_message. simpl.
    rewrite decode_id_pk_sign by apply box_public_len. by rewrite decide_True. }
  assert (forall ev, server ev = sending true sconn m1 match ev with
    | Received (Ok b) => match parse_message b with
       | Some (MsgPublicKey a s) =>
           if len a =? BOX_PUBLICKEYBYTES then
             match Encrypt_decode s a s_sk with
             | Ok k => mkRun [] (set_key sconn k) (Ok false)
             | Err e => mkRun [] sconn (Err e)
             end
           else if decide (a = []) then mkRun [] sconn (Ok true)
           else mkRun [] sconn (Err InvalidPkLength)
       | Some _ => mkRun [] sconn (Ok false)
       | None => mkRun [] sconn (Err InvalidFormat) end
    | Received (Err e) => mkRun [] sconn (Err (NextFailed e))
    | Closed => mkRun [] sconn (Err NoPublicKey)
    | Elapsed => mkRun [] sconn (Err NextElapsed) end) as Hs.
  { intros ev. unfold server, create_tcp_connection. rewrite sign_public_len, Hsk. simpl.
    by destruct ev as [| |[b|]]; try destruct (parse_message b) as [[]|]. }
  exists m1, m2. rewrite Hc, Hs. rewrite parse_write_message. simpl.
  unfold Encrypt_decode. rewrite box_public_len, box_open_seal. simpl. rewrite Hsym. simpl.
  split_and!; try done.
  intros ev. rewrite Hs. unfold sending, Encrypt_decode. simpl.
  repeat (case_match; try done).
Qed.
End Agreement.

(** ** A concrete wire format, for the witnesses *)
Module ToyWire.
Fixpoint pos_bytes (p : positive) : bytes :=
  match p with
  | xH => []
  | xO p => Byte.x00 :: pos_bytes p
  | xI p => Byte.x01 :: pos_bytes p
  end.

Fixpoint bytes_pos (b : bytes) : positive :=
  match b with
  | [] => xH
  | b :: bs => if decide (b = Byte.x00) then xO (bytes_pos bs) else xI (bytes_pos bs)
  end.

Lemma bytes_pos_bytes p : bytes_pos (pos_bytes p) = p.
Proof. induction p as [p IH|p IH|]; simpl; by rewrite ?IH. Qed.

Definition msg_sum (m : Message) : unit + bytes + bytes * bytes + Z :=
  match m with
  | MsgNone => inl (inl (inl ()))
  | MsgSignedId b => inl (inl (inr b))
  | MsgPublicKey a s => inl (inr (a, s))
  | MsgOther t => inr t
  end.
Definition sum_msg (s : unit + bytes + bytes * bytes + Z) : Message :=
  match s with
  | inl (inl (inl _)) => MsgNone
  | inl (inl (inr b)) => MsgSignedId b
  | inl (inr (a, s)) => MsgPublicKey a s
  | inr t => MsgOther t
  end.
Lemma sum_msg_sum m : sum_msg (msg_sum m) = m.
Proof. by destruct m. Qed.

#[export] Instance wire : Wire := {
  write_message m := pos_bytes (countable.encode (msg_sum m));
  parse_message b := sum_msg <$> countable.decode (bytes_pos b);
  write_idpk m := pos_bytes (countable.encode (idpk_id m, idpk_pk m));
  parse_idpk b := (fun '(i, p) => mkIdPk i p) <$> countable.decode (bytes_pos b);
  write_rendezvous m := [];
  parse_rendezvous b := None;
  decode64 b := Some b
}.

#[export] Instance wire_laws : WireLaws.
Proof.
  split; intros m; simpl; rewrite bytes_pos_bytes, decode_encode; simpl;
    [by rewrite sum_msg_sum|by destruct m].
Qed.
End ToyWire.

#[local] Existing Instances Toy.secretbox Toy.box Toy.box_laws Toy.sign_ Toy.sign_laws
  ToyWire.wire ToyWire.wire_laws.

Definition sample_sk : bytes := replicate 64 Byte.x05.
Definition sample_rs_sk : bytes := replicate 64 Byte.x09.
Definition sample_sym : bytes := replicate 32 Byte.x2a.
Definition sample_key : bytes := sign_public sample_rs_sk.
Definition sample_cert : bytes :=
  sign (write_idpk (mkIdPk [Byte.x31] (sign_public sample_sk))) sample_rs_sk.

Lemma handshake_agreement_witness :
  exists m1 m2,
    sent (create_tcp_connection [Byte.x03] [Byte.x31] sample_sk (sign_public sample_sk)
            true from true (Received (Ok (write_message m2)))) = [m1] /\
    sent (secure_connection [] [Byte.x04] sample_sym [Byte.x31] sample_cert sample_key
            from true (Received (Ok (write_message m1)))) = [m2].
Proof.
  destruct (handshake_agreement [] sample_rs_sk sample_sk [Byte.x31] sample_key
    [Byte.x04] [Byte.x03] sample_sym from from) as (m1 & m2 & H1 & H2 & _).
  - reflexivity.
  - discriminate.
  - reflexivity.
  - reflexivity.
  - discriminate.
  - exists m1, m2. split; [apply H1|exact H2].
Defined.

Definition sample_hello : bytes :=
  write_message (MsgSignedId (sign (write_idpk (mkIdPk [Byte.x31] (box_public [Byte.x03]))) sample_sk)).

Lemma secure_connection_authentic_witness :
  exists rs_pk sign_pk b si their_pk,
    get_rs_pk sample_key = Some rs_pk /\ attests rs_pk sample_cert [Byte.x31] sign_pk /\
    sample_hello = b /\ parse_message b = Some (MsgSignedId si) /\
    attests sign_pk si [Byte.x31] their_pk.
Proof.
  destruct (secure_connection_authentic [] [Byte.x04] sample_sym [Byte.x31] sample_cert sample_key
    from true (Received (Ok sample_hello))) as (rs & spk & b & si & tp & H1 & H2 & H3 & H4 & H5 & _).
  - reflexivity.
  - vm_compute. reflexivity.
  - exists rs, spk, b, si, tp. split; [exact H1|]. split; [exact H2|].
    split; [injection H3; auto|]. split; [exact H4|exact H5].
Defined.

Definition sample_reply : bytes :=
  write_message (MsgPublicKey (box_public [Byte.x04])
    (box_seal sample_sym zero_nonce (box_public [Byte.x03]) [Byte.x04])).

Lemma create_tcp_connection_secured_witness :
  exists their_pk sealed k,
    parse_message sample_reply = Some (MsgPublicKey their_pk sealed) /\ len k = KEYBYTES /\
    box_open sealed zero_nonce their_pk [Byte.x03] = Some k.
Proof.
  destruct (create_tcp_connection_secured [Byte.x03] [Byte.x31] sample_sk (sign_public sample_sk) true
    from true (Received (Ok sample_reply))) as (b & tp & se & k & H1 & H2 & _ & H3 & H4 & _).
  - reflexivity.
  - vm_compute. reflexivity.
  - exists tp, se, k. split; [|split; [exact H3|exact H4]].
    injection H1 as ->. exact H2.
Defined.
