(* ===== verification/LoginThrottle.v ===== *)
(** * Throttling of failed logins

    [src/server/login_failure_check.rs] (operating-system credentials, an
    exponential back-off shared by all connections) and the per-address
    counters of [src/server/connection.rs] ([check_failure],
    [update_failure]).  The two process-wide tables [LOGIN_FAILURES] and
    [OS_CREDENTIAL_LOGIN_FAILURE_STATE] are one explicit state; the wall clock
    is an argument; what is sent to the peer and to the audit server is
    returned as a list of effects. *)
From S2P Require Import Prelude.

Definition OS_CREDENTIAL_LOGIN_TOTAL_IDLE_RESET_MS : Z := 120 * 60 * 1000.
Definition OS_CREDENTIAL_LOGIN_BACKOFF_BASE_SECONDS : Z := 15.
Definition OS_CREDENTIAL_LOGIN_BACKOFF_MAX_SECONDS : Z := 30 * 60.

Inductive FailureScope := DefaultScope | TerminalOsLogin.

Inductive AlarmAuditType :=
| IpWhitelist
| ExceedThirtyAttempts
| SixAttemptsWithinOneMinute
| ExceedIPv6PrefixAttempts
| TerminalOsLoginBackoff
| TerminalOsLoginConcurrency
| SessionScopeViolation.

Record OsCredentialPolicyDecision := mkDecision {
  allowed : bool;
  login_error : option string;
  audit : option AlarmAuditType
}.

Record OsCredentialFailureState := mkOs {
  total_failures : Z;
  backoff_until_ms : option Z;
  last_failure_ms : option Z
}.

Definition os_default : OsCredentialFailureState := mkOs 0 None None.

Definition is_os_credential_scope (scope : FailureScope) : bool :=
  match scope with TerminalOsLogin => true | DefaultScope => false end.

Definition backoff_audit_type_for_scope (scope : FailureScope) : option AlarmAuditType :=
  match scope with
  | TerminalOsLogin => Some TerminalOsLoginBackoff
  | DefaultScope => None
  end.

Definition os_credential_login_backoff_seconds (total_failures : Z) : Z :=
  if total_failures <=? 2 then 0
  else
    let exp := Z.min (total_failures - 3) 7 in
    let seconds := OS_CREDENTIAL_LOGIN_BACKOFF_BASE_SECONDS * Z.shiftl 1 exp in
    Z.min seconds OS_CREDENTIAL_LOGIN_BACKOFF_MAX_SECONDS.

Definition normalize_backoff (s : OsCredentialFailureState) (now_ms : Z)
  : OsCredentialFailureState :=
  match backoff_until_ms s with
  | Some until_ms =>
      if until_ms <=? now_ms then mkOs (total_failures s) None (last_failure_ms s) else s
  | None => s
  end.

Definition reset_totals_on_idle (s : OsCredentialFailureState) (now_ms : Z)
  : OsCredentialFailureState :=
  match last_failure_ms s with
  | Some last_ms =>
      if OS_CREDENTIAL_LOGIN_TOTAL_IDLE_RESET_MS <=? i64_sat (now_ms - last_ms)
      then os_default else s
  | None => s
  end.

Definition allow_decision : OsCredentialPolicyDecision := mkDecision true None None.

Definition block_decision (login_error : string) (alarm_type : option AlarmAuditType)
  : OsCredentialPolicyDecision := mkDecision false (Some login_error) alarm_type.

Definition try_again_message (remaining_seconds : Z) : string :=
  let seconds_label := if remaining_seconds =? 1 then "second"%string else "seconds"%string in
  ("Please try again in " +:+ pretty remaining_seconds +:+ " " +:+ seconds_label +:+ ".")%string.

Definition evaluate_os_credential_policy (scope : FailureScope) (now_ms : Z)
  (s : OsCredentialFailureState) : OsCredentialPolicyDecision * OsCredentialFailureState :=
  if negb (is_os_credential_scope scope) then (allow_decision, s)
  else
    let s := normalize_backoff (reset_totals_on_idle s now_ms) now_ms in
    match backoff_until_ms s with
    | Some until_ms =>
        let remaining_ms := Z.max (until_ms - now_ms) 0 in
        let remaining_seconds := Z.max (Z.quot (remaining_ms + 999) 1000) 1 in
        (block_decision (try_again_message remaining_seconds)
           (backoff_audit_type_for_scope scope), s)
    | None => (allow_decision, s)
    end.

(** [now_ms] is the [get_time()] the function reads. *)
Definition record_os_credential_failure (scope : FailureScope) (now_ms : Z)
  (s : OsCredentialFailureState) : OsCredentialFailureState :=
  if negb (is_os_credential_scope scope) then s
  else
    let s := normalize_backoff (reset_totals_on_idle s now_ms) now_ms in
    let total := i32_sat (total_failures s + 1) in
    let backoff_seconds := os_credential_login_backoff_seconds total in
    mkOs total
      (if 0 <? backoff_seconds then Some (now_ms + backoff_seconds * 1000)
       else backoff_until_ms s)
      (Some now_ms).

(** ** Facts about the back-off *)

Lemma backoff_bounds n :
  0 <= os_credential_login_backoff_seconds n <= OS_CREDENTIAL_LOGIN_BACKOFF_MAX_SECONDS.
Proof.
  unfold os_credential_login_backoff_seconds, OS_CREDENTIAL_LOGIN_BACKOFF_MAX_SECONDS,
    OS_CREDENTIAL_LOGIN_BACKOFF_BASE_SECONDS.
  destruct (Z.leb_spec n 2); [lia|]. rewrite Z.shiftl_1_l.
  pose proof (Z.pow_pos_nonneg 2 (Z.min (n - 3) 7)). lia.
Qed.

Lemma backoff_mono n m :
  n <= m -> os_credential_login_backoff_seconds n <= os_credential_login_backoff_seconds m.
Proof.
  intros Hnm. unfold os_credential_login_backoff_seconds,
    OS_CREDENTIAL_LOGIN_BACKOFF_BASE_SECONDS, OS_CREDENTIAL_LOGIN_BACKOFF_MAX_SECONDS.
  destruct (Z.leb_spec n 2), (Z.leb_spec m 2); try lia; rewrite !Z.shiftl_1_l.
  - pose proof (Z.pow_pos_nonneg 2 (Z.min (m - 3) 7)). lia.
  - pose proof (Z.pow_le_mono_r 2 (Z.min (n - 3) 7) (Z.min (m - 3) 7)). lia.
Qed.

(** A state as [record_os_credential_failure] leaves it: the deadline is the
    back-off of the count, measured from the last failure. *)
Definition os_ok (s : OsCredentialFailureState) : Prop :=
  0 <= total_failures s <= i32_max /\
  match last_failure_ms s with
  | None => total_failures s = 0 /\ backoff_until_ms s = None
  | Some t => 0 <= t < 2 ^ 62 /\ 1 <= total_failures s /\
      match backoff_until_ms s with
      | Some u => 3 <= total_failures s /\
          u = t + os_credential_login_backoff_seconds (total_failures s) * 1000
      | None => True
      end
  end.

Lemma os_ok_default : os_ok os_default.
Proof. unfold os_ok, i32_max. simpl. split; [lia|done]. Qed.

Lemma i64_sat_id z : - 2 ^ 62 <= z <= 2 ^ 62 -> i64_sat z = z.
Proof. intros. apply clampZ_id. unfold i64_min, i64_max. lia. Qed.

Lemma reset_normalize_ok s now :
  os_ok s -> os_ok (normalize_backoff (reset_totals_on_idle s now) now).
Proof.
  intros Hok. assert (os_ok (reset_totals_on_idle s now)) as Hok'.
  { unfold reset_totals_on_idle. repeat case_match; [apply os_ok_default|done..]. }
  unfold normalize_backoff. repeat case_match; try done.
  unfold os_ok in *. destruct (reset_totals_on_idle s now) as [n b l]; simpl in *.
  destruct l; tauto.
Qed.

Lemma evaluate_ok scope now s :
  os_ok s -> os_ok (evaluate_os_credential_policy scope now s).2.
Proof.
  intros Hok. unfold evaluate_os_credential_policy.
  destruct (is_os_credential_scope scope); simpl; [|done].
  pose proof (reset_normalize_ok s now Hok). by case_match.
Qed.

Lemma i32_sat_succ n : 0 <= n <= i32_max -> 1 <= i32_sat (n + 1) <= i32_max.
Proof. unfold i32_sat, clampZ, i32_max. lia. Qed.

Lemma backoff_pos n : 3 <= n -> 15 <= os_credential_login_backoff_seconds n.
Proof. intros H. pose proof (backoff_mono 3 n H) as Hm. exact Hm. Qed.

Lemma record_ok scope now s :
  0 <= now < 2 ^ 62 -> os_ok s -> os_ok (record_os_credential_failure scope now s).
Proof.
  intros Hnow Hok. unfold record_os_credential_failure.
  destruct (is_os_credential_scope scope); simpl; [|done].
  pose proof (reset_normalize_ok s now Hok) as [Hn H].
  set (s' := normalize_backoff _ now) in *.
  pose proof (i32_sat_succ _ Hn) as Hs. unfold os_ok. simpl. split; [lia|].
  split; [lia|]. split; [lia|].
  destruct (Z.ltb_spec 0 (os_credential_login_backoff_seconds (i32_sat (total_failures s' + 1)))) as [Hp|Hp].
  - split; [|done]. unfold os_credential_login_backoff_seconds in Hp.
    destruct (Z.leb_spec (i32_sat (total_failures s' + 1)) 2); lia.
  - destruct (last_failure_ms s'); destruct H as (H1 & H2); [|by rewrite H2].
    destruct H2 as [H2 H3]. destruct (backoff_until_ms s'); [|done].
    exfalso. destruct H3 as [H3 _].
    assert (3 <= i32_sat (total_failures s' + 1)) by (unfold i32_sat, clampZ, i32_max in *; lia).
    pose proof (backoff_pos _ ltac:(eassumption)). lia.
Qed.

Lemma reset_noop s t :
  (forall l, last_failure_ms s = Some l ->
     - 2 ^ 62 <= t - l < OS_CREDENTIAL_LOGIN_TOTAL_IDLE_RESET_MS) ->
  reset_totals_on_idle s t = s.
Proof.
  intros H. unfold reset_totals_on_idle. destruct (last_failure_ms s) as [l|]; [|done].
  specialize (H l eq_refl). unfold OS_CREDENTIAL_LOGIN_TOTAL_IDLE_RESET_MS in *.
  rewrite i64_sat_id by lia. by destruct (Z.leb_spec (120 * 60 * 1000) (t - l)); [lia|].
Qed.

Lemma normalize_last s t : last_failure_ms (normalize_backoff s t) = last_failure_ms s.
Proof. unfold normalize_backoff. by repeat case_match. Qed.

Lemma normalize_total s t : total_failures (normalize_backoff s t) = total_failures s.
Proof. unfold normalize_backoff. by repeat case_match. Qed.

Lemma normalize_until s t :
  backoff_until_ms (normalize_backoff s t) =
  match backoff_until_ms s with Some u => if u <=? t then None else Some u | None => None end.
Proof. unfold normalize_backoff. by repeat case_match. Qed.

(** What [evaluate] answers after a failure recorded at [t], exactly. *)
Lemma evaluate_after_record s t now :
  os_ok s -> 0 <= t <= now -> now < 2 ^ 62 ->
  let s' := record_os_credential_failure TerminalOsLogin t s in
  allowed (evaluate_os_credential_policy TerminalOsLogin now s').1 = true <->
  t + os_credential_login_backoff_seconds (total_failures s') * 1000 <= now.
Proof.
  intros Hok Ht Hnow s'.
  assert (os_ok s') as Hok' by (apply record_ok; [lia|done]).
  assert (last_failure_ms s' = Some t) as Hl by done.
  assert (backoff_until_ms s' = None ->
          os_credential_login_backoff_seconds (total_failures s') = 0) as Hnone.
  { unfold s', record_os_credential_failure. simpl.
    destruct (Z.ltb_spec 0 (os_credential_login_backoff_seconds
      (i32_sat (total_failures (normalize_backoff (reset_totals_on_idle s t) t) + 1)))); [done|].
    intros _. pose proof (backoff_bounds
      (i32_sat (total_failures (normalize_backoff (reset_totals_on_idle s t) t) + 1))). lia. }
  clearbody s'. pose proof (backoff_bounds (total_failures s')) as Hb.
  unfold OS_CREDENTIAL_LOGIN_BACKOFF_MAX_SECONDS in Hb.
  unfold os_ok in Hok'. rewrite Hl in Hok'.
  unfold evaluate_os_credential_policy, reset_totals_on_idle. simpl. rewrite Hl.
  rewrite i64_sat_id by lia.
  destruct (Z.leb_spec OS_CREDENTIAL_LOGIN_TOTAL_IDLE_RESET_MS (now - t)) as [Hi|Hi];
    unfold OS_CREDENTIAL_LOGIN_TOTAL_IDLE_RESET_MS in Hi; simpl; [split; [lia|done]|].
  unfold normalize_backoff. destruct (backoff_until_ms s') as [u|] eqn:Eu.
  - destruct Hok' as (_ & _ & _ & _ & Hu). rewrite <- Hu.
    destruct (Z.leb_spec u now); simpl; [by split|]. rewrite Eu. simpl. split; [done|lia].
  - rewrite Eu. simpl. rewrite Hnone by done. split; [lia|done].
Qed.

(** An attacker who tries at the given times: each attempt is evaluated and,
    when allowed, fails and is recorded.  The result counts the guesses made. *)
Fixpoint os_guesses (s : OsCredentialFailureState) (times : list Z) : Z :=
  match times with
  | [] => 0
  | t :: times =>
      let '(d, s) := evaluate_os_credential_policy TerminalOsLogin t s in
      if allowed d then 1 + os_guesses (record_os_credential_failure TerminalOsLogin t s) times
      else os_guesses s times
  end.

(** Seconds that must pass between the first failure and failure number [n]. *)
Fixpoint elapsed_lb (n : nat) : Z :=
  match n with
  | O => 0
  | S n => elapsed_lb n + os_credential_login_backoff_seconds (Z.of_nat n)
  end.

Definition os_run_inv (t0 c : Z) (n : nat) (s : OsCredentialFailureState) : Prop :=
  total_failures s = Z.of_nat n /\
  match last_failure_ms s with
  | None => n = O /\ backoff_until_ms s = None
  | Some t => t0 + elapsed_lb n * 1000 <= t <= c /\
      match backoff_until_ms s with
      | Some u => u = t + os_credential_login_backoff_seconds (Z.of_nat n) * 1000
      | None => t + os_credential_login_backoff_seconds (Z.of_nat n) * 1000 <= c
      end
  end.

Lemma elapsed_lb_nonneg n : 0 <= elapsed_lb n.
Proof. induction n as [|n IH]; simpl; [lia|]. pose proof (backoff_bounds (Z.of_nat n)). lia. Qed.

Lemma os_run_normalize t0 c n s t :
  os_run_inv t0 c n s -> c <= t -> os_run_inv t0 t n (normalize_backoff s t).
Proof.
  unfold os_run_inv. rewrite normalize_total, normalize_last, normalize_until.
  intros [Hn Hs] Hc. split; [done|].
  destruct (last_failure_ms s) as [l|], (backoff_until_ms s) as [u|]; try done; [|lia|].
  - destruct (Z.leb_spec u t); lia.
  - by destruct Hs.
Qed.

Lemma os_run_not_idle t0 c n s t :
  os_run_inv t0 c n s -> 0 <= t0 <= c -> c <= t -> t < 2 ^ 62 ->
  t < t0 + OS_CREDENTIAL_LOGIN_TOTAL_IDLE_RESET_MS -> reset_totals_on_idle s t = s.
Proof.
  intros [_ Hs] ????. apply reset_noop. intros l El. rewrite El in Hs.
  pose proof (elapsed_lb_nonneg n). unfold OS_CREDENTIAL_LOGIN_TOTAL_IDLE_RESET_MS in *. lia.
Qed.

Lemma os_run_step t0 c n s t :
  os_run_inv t0 c n s -> 0 <= t0 <= c -> c <= t -> t < 2 ^ 62 ->
  t < t0 + OS_CREDENTIAL_LOGIN_TOTAL_IDLE_RESET_MS -> (n <= 12)%nat ->
  let '(d, s1) := evaluate_os_credential_policy TerminalOsLogin t s in
  os_run_inv t0 t n s1 /\
  (allowed d = true ->
     (n < 12)%nat /\ os_run_inv t0 t (S n) (record_os_credential_failure TerminalOsLogin t s1)).
Proof.
  intros Hs H0 Hc H62 Hw Hn12. unfold evaluate_os_credential_policy. simpl.
  rewrite (os_run_not_idle t0 c n) by done.
  pose proof (os_run_normalize _ _ _ _ _ Hs Hc) as Hs1.
  set (s1 := normalize_backoff s t) in *.
  destruct (backoff_until_ms s1) as [u|] eqn:Eu; (split; [done|]); [done|intros _].
  assert (t0 + elapsed_lb (S n) * 1000 <= t) as Hel.
  { destruct Hs1 as [_ Hs1]. rewrite Eu in Hs1.
    destruct (last_failure_ms s1); [simpl; lia|]. destruct Hs1 as [-> _]. change (elapsed_lb 1) with 0. lia. }
  unfold OS_CREDENTIAL_LOGIN_TOTAL_IDLE_RESET_MS in *.
  split.
  { assert (n <> 12)%nat; [|lia]. intros ->. change (elapsed_lb 13) with 7305 in Hel. lia. }
  unfold record_os_credential_failure. simpl.
  rewrite (os_run_not_idle t0 t n s1) by (done || lia).
  replace (normalize_backoff s1 t) with s1 by (unfold normalize_backoff; by rewrite Eu).
  destruct Hs1 as [Hn1 _].
  assert (i32_sat (total_failures s1 + 1) = Z.of_nat (S n)) as Hn'.
  { rewrite Hn1. unfold i32_sat, clampZ, i32_max. lia. }
  unfold os_run_inv. cbn [total_failures last_failure_ms backoff_until_ms].
  rewrite Hn'. split; [done|]. split; [lia|].
  pose proof (backoff_bounds (Z.of_nat (S n))).
  destruct (Z.ltb_spec 0 (os_credential_login_backoff_seconds (Z.of_nat (S n)))); [done|].
  rewrite Eu. lia.
Qed.

Lemma os_guesses_bound t0 times : forall c n s,
  os_run_inv t0 c n s -> 0 <= t0 <= c -> (n <= 12)%nat -> t0 < 2 ^ 61 ->
  Sorted Z.le (c :: times) ->
  Forall (fun t => t < t0 + OS_CREDENTIAL_LOGIN_TOTAL_IDLE_RESET_MS) times ->
  os_guesses s times <= 12 - Z.of_nat n.
Proof.
  induction times as [|t times IH]; intros c n s Hs H0 Hn H61 Hsort Hf; simpl; [lia|].
  inversion Hsort as [|?? Hsort' Hhd]; subst. inversion Hhd; subst. inversion Hf; subst.
  pose proof (os_run_step t0 c n s t Hs H0) as Hstep.
  destruct (evaluate_os_credential_policy TerminalOsLogin t s) as [d s1].
  unfold OS_CREDENTIAL_LOGIN_TOTAL_IDLE_RESET_MS in *.
  destruct Hstep as [Hs1 Hrec]; [lia..|]. destruct (allowed d).
  - destruct Hrec as [? Hs2]; [done|]. specialize (IH t (S n) _ Hs2). lia || (
    assert (os_guesses (record_os_credential_failure TerminalOsLogin t s1) times <= 12 - Z.of_nat (S n));
    [apply IH; auto with lia|lia]).
  - apply (IH t n s1); auto with lia.
Qed.

(** Operating-system password guessing is bounded: starting from a fresh
    state, however attempts are timed, at most 12 guesses are evaluated within
    any two-hour window (the idle-reset interval). *)
Theorem os_guesses_two_hours t0 times :
  0 <= t0 < 2 ^ 61 -> Sorted Z.le (t0 :: times) ->
  Forall (fun t => t < t0 + OS_CREDENTIAL_LOGIN_TOTAL_IDLE_RESET_MS) times ->
  os_guesses os_default times <= 12.
Proof.
  intros H0 Hs Hf.
  pose proof (os_guesses_bound t0 times t0 0 os_default) as H. apply H; auto with lia.
  split; [done|]. by split.
Qed.

Lemma os_guesses_two_hours_witness :
  os_guesses os_default [0; 1000; 2000; 3000; 20000; 60000] = 5 /\
  os_guesses os_default [0; 1000; 2000; 3000; 20000; 60000] <= 12.
Proof.
  split; [vm_compute; reflexivity|].
  apply (os_guesses_two_hours 0); [lia| |].
  - repeat constructor; discriminate.
  - repeat constructor.
Defined.

(** ** Per-address counters ([src/server/connection.rs])

    An entry is (minute of the last failure, failures in that minute, failures
    in total).  Parsing and printing of IPv6 text is the standard library's
    [Ipv6Addr]; it is a parameter here, and nothing below depends on it beyond
    the keys it yields. *)
Definition Failure : Type := Z * Z * Z.
Definition no_failure : Failure := (0, 0, 0).

Record Throttle := mkThrottle {
  login_failures : list (gmap string Failure);
  os_state : OsCredentialFailureState
}.

Inductive LoginEffect :=
| SendLoginError (msg : string)
| PostAlarm (typ : AlarmAuditType).

Definition throttle_default : Throttle := mkThrottle [∅; ∅] os_default.

(** [LOGIN_FAILURES[i]]: there are two tables, 0 for passwords, 1 for 2FA. *)
Definition table (st : Throttle) (i : nat) : gmap string Failure :=
  default ∅ (login_failures st !! i).
Definition set_table (st : Throttle) (i : nat) (m : gmap string Failure) : Throttle :=
  mkThrottle (<[i := m]> (login_failures st)) (os_state st).

Definition get_failure (m : gmap string Failure) (k : string) : Failure :=
  default no_failure (m !! k).

Definition total (f : Failure) : Z := f.2.
Definition minute (f : Failure) : Z := f.1.1.
Definition in_minute (f : Failure) : Z := f.1.2.

Definition bump_failure_entry (cur : Failure) (time : Z) : Failure :=
  let '(c0, c1, c2) := cur in
  if c0 =? time then (c0, c1 + 1, c2 + 1) else (time, 1, c2 + 1).

Definition bump_key (time : Z) (m : gmap string Failure) (key : string) : gmap string Failure :=
  <[key := bump_failure_entry (get_failure m key) time]> m.

Definition mask_u128 (addr prefix : Z) : Z :=
  let mask := if (prefix =? 0) || (128 <? prefix) then 0
              else u128_of (Z.shiftl (2 ^ 128 - 1) (128 - prefix)) in
  Z.land addr mask.

Definition from_be_bytes (b : bytes) : Z := le_combine (rev b).
Definition to_be_bytes16 (z : Z) : bytes := rev (le_split 16 z).

Fixpoint before_percent (s : string) : string :=
  match s with
  | EmptyString => EmptyString
  | String c s' => if decide (c = "%"%char) then EmptyString else String c (before_percent s')
  end.

Section PerAddress.
(** [Ipv6Addr::from_str] after [trim], and [Ipv6Addr::to_string]. *)
Context (parse_v6 : string -> option bytes) (show_v6 : bytes -> string).

Definition get_ipv6_prefixes (ip : string) : option (string * string * string) :=
  match parse_v6 (before_percent ip) with
  | None => None
  | Some octets =>
      let as_u128 := from_be_bytes octets in
      Some ((show_v6 (to_be_bytes16 (mask_u128 as_u128 64)) +:+ "/64")%string,
            (show_v6 (to_be_bytes16 (mask_u128 as_u128 56)) +:+ "/56")%string,
            (show_v6 (to_be_bytes16 (mask_u128 as_u128 48)) +:+ "/48")%string)
  end.

Definition update_failure_with_scope (ip : string) (failure : Failure) (time : Z)
  (remove : bool) (i : nat) (scope : FailureScope) (now : Z) (st : Throttle) : Throttle :=
  if is_os_credential_scope scope then
    if remove then st
    else mkThrottle (login_failures st) (record_os_credential_failure scope now (os_state st))
  else
    let m := table st i in
    if remove then
      if negb (minute failure =? 0) then
        match get_ipv6_prefixes ip with
        | Some (p64, p56, p48) =>
            set_table st i (delete ip (delete p48 (delete p56 (delete p64 m))))
        | None => set_table st i (delete ip m)
        end
      else st
    else
      match get_ipv6_prefixes ip with
      | Some (p64, p56, p48) =>
          set_table st i (bump_key time (foldl (bump_key time) m [p64; p56; p48]) ip)
      | None => set_table st i (bump_key time m ip)
      end.

Definition update_failure (ip : string) (failure : Failure) (time : Z) (remove : bool)
  (i : nat) (now : Z) (st : Throttle) : Throttle :=
  update_failure_with_scope ip failure time remove i DefaultScope now st.

Definition check_failure_ipv6_prefix (m : gmap string Failure) (time : Z) (prefix : string)
  (prefix_num thresh : Z) : option (Failure * Z * bool * list LoginEffect) :=
  let failure_prefix := get_failure m prefix in
  if thresh <? total failure_prefix then
    Some (failure_prefix, time, false,
      [SendLoginError ("Too many wrong attempts for IPv6 prefix /" +:+ pretty prefix_num)%string;
       PostAlarm ExceedIPv6PrefixAttempts])
  else None.

Definition check_address (m : gmap string Failure) (ip : string) (time : Z)
  : Failure * Z * bool * list LoginEffect :=
  let failure := get_failure m ip in
  if 30 <? total failure then
    (failure, time, false,
     [SendLoginError "Too many wrong attempts"; PostAlarm ExceedThirtyAttempts])
  else if (time =? minute failure) && (6 <? in_minute failure) then
    (failure, time, false,
     [SendLoginError "Please try 1 minute later"; PostAlarm SixAttemptsWithinOneMinute])
  else (failure, time, true, []).

(** The current minute, as an [i32]. *)
Definition time_of (now : Z) : Z := i32_of (Z.quot now 60000).

Definition check_failure_with_scope (ip : string) (i : nat) (scope : FailureScope) (now : Z)
  (st : Throttle) : Failure * Z * bool * list LoginEffect * Throttle :=
  let time := time_of now in
  match scope with
  | TerminalOsLogin =>
      let '(decision, os) := evaluate_os_credential_policy scope now (os_state st) in
      let st := mkThrottle (login_failures st) os in
      if allowed decision then (no_failure, time, true, [], st)
      else
        (no_failure, time, false,
         match login_error decision with Some e => [SendLoginError e] | None => [] end ++
         match audit decision with Some a => [PostAlarm a] | None => [] end, st)
  | DefaultScope =>
      let m := table st i in
      let by_prefix :=
        match get_ipv6_prefixes ip with
        | Some (p64, p56, p48) =>
            match check_failure_ipv6_prefix m time p64 64 60 with
            | Some r => Some r
            | None =>
                match check_failure_ipv6_prefix m time p56 56 80 with
                | Some r => Some r
                | None => check_failure_ipv6_prefix m time p48 48 100
                end
            end
        | None => None
        end in
      match by_prefix with
      | Some r => (r, st)
      | None => (check_address m ip time, st)
      end
  end.

Definition check_failure (ip : string) (i : nat) (now : Z) (st : Throttle)
  : Failure * Z * bool * list LoginEffect * Throttle :=
  check_failure_with_scope ip i DefaultScope now st.

(** A wrong password: checked, and recorded when it was let through. *)
Definition wrong_attempt (i : nat) (st : Throttle) (a : string * Z) : bool * Throttle :=
  let '(ip, now) := a in
  let '(failure, time, res, _, st) := check_failure ip i now st in
  if res then (true, update_failure ip failure time false i now st) else (false, st).

(** Number of wrong passwords that are let through. *)
Fixpoint guesses (i : nat) (st : Throttle) (attempts : list (string * Z)) : Z :=
  match attempts with
  | [] => 0
  | a :: attempts =>
      let '(ok, st) := wrong_attempt i st a in
      (if ok then 1 else 0) + guesses i st attempts
  end.

(** *** Counters only grow while passwords are wrong *)

Lemma get_failure_bump time m key k :
  get_failure (bump_key time m key) k =
  if decide (key = k) then bump_failure_entry (get_failure m key) time else get_failure m k.
Proof.
  unfold bump_key. unfold get_failure at 1. rewrite lookup_insert. by case_decide.
Qed.

Lemma bump_key_total time m key k :
  total (get_failure m k) + (if decide (k = key) then 1 else 0)
  = total (get_failure (bump_key time m key) k).
Proof.
  rewrite get_failure_bump. repeat case_decide; subst; try done; [|lia].
  unfold bump_failure_entry. destruct (get_failure m key) as [[a b] c]. by case_match.
Qed.

(** The table after an attempt that was let through. *)
Definition recorded (time : Z) (ip : string) (m : gmap string Failure) : gmap string Failure :=
  match get_ipv6_prefixes ip with
  | Some (p64, p56, p48) => bump_key time (foldl (bump_key time) m [p64; p56; p48]) ip
  | None => bump_key time m ip
  end.

(** The keys whose counters guard an address, each with its threshold. *)
Definition guards (ip : string) : list (string * Z) :=
  (ip, 30) ::
  match get_ipv6_prefixes ip with
  | Some (p64, p56, p48) => [(p64, 60); (p56, 80); (p48, 100)]
  | None => []
  end.

Lemma recorded_total time ip m k :
  total (get_failure m k) <= total (get_failure (recorded time ip m) k) /\
  (k ∈ (guards ip).*1 -> total (get_failure m k) + 1 <= total (get_failure (recorded time ip m) k)).
Proof.
  unfold recorded, guards. destruct (get_ipv6_prefixes ip) as [[[p64 p56] p48]|]; simpl;
    rewrite <- !bump_key_total; (split; [repeat case_decide; lia|]);
    intros Hin; repeat (apply elem_of_cons in Hin as [->|Hin];
      [repeat case_decide; try congruence; lia|]); by apply elem_of_nil in Hin.
Qed.

Lemma wrong_attempt_spec i st ip now :
  (i < length (login_failures st))%nat ->
  let '(ok, st') := wrong_attempt i st (ip, now) in
  length (login_failures st') = length (login_failures st) /\
  if ok then table st' i = recorded (time_of now) ip (table st i) /\
    (forall k thresh, (k, thresh) ∈ guards ip -> total (get_failure (table st i) k) <= thresh) /\
    (minute (get_failure (table st i) ip) = time_of now -> in_minute (get_failure (table st i) ip) <= 6)
  else st' = st.
Proof.
  intros Hi. unfold wrong_attempt, check_failure, check_failure_with_scope, check_failure_ipv6_prefix.
  assert (forall f, table (update_failure ip f (time_of now) false i now st) i
    = recorded (time_of now) ip (table st i) /\
    length (login_failures (update_failure ip f (time_of now) false i now st))
      = length (login_failures st)) as Hu.
  { intros f. unfold update_failure, update_failure_with_scope, recorded, set_table, table. simpl.
    destruct (get_ipv6_prefixes ip) as [[[p64 p56] p48]|]; simpl;
      by rewrite list_lookup_insert_eq, length_insert. }
  unfold check_address, guards.
  destruct (get_ipv6_prefixes ip) as [[[p64 p56] p48]|].
  - destruct (Z.ltb_spec 60 (total (get_failure (table st i) p64))); [done|].
    destruct (Z.ltb_spec 80 (total (get_failure (table st i) p56))); [done|].
    destruct (Z.ltb_spec 100 (total (get_failure (table st i) p48))); [done|].
    destruct (Z.ltb_spec 30 (total (get_failure (table st i) ip))); [done|].
    destruct ((time_of now =? minute _) && _) eqn:E; [done|].
    split; [apply Hu|]. split; [apply Hu|]. split.
    + intros k th. rewrite !elem_of_cons, elem_of_nil.
      intros [?|[?|[?|[?|[]]]]]; simplify_eq; lia.
    + intros ?. apply andb_false_iff in E as [E|E]; lia.
  - destruct (Z.ltb_spec 30 (total (get_failure (table st i) ip))); [done|].
    destruct ((time_of now =? minute _) && _) eqn:E; [done|].
    split; [apply Hu|]. split; [apply Hu|]. split.
    + intros k th. rewrite elem_of_cons, elem_of_nil. intros [?|[]]; simplify_eq; lia.
    + intros ?. apply andb_false_iff in E as [E|E]; lia.
Qed.

(** [C38] Guessing bound per counter: as long as no login succeeds, the
    attempts guarded by a counter (the peer's address: 30; its IPv6 /64, /56
    and /48 networks: 60, 80 and 100) are let through at most one time more
    than its threshold, however they are timed and from however many addresses
    of the network they come. *)
Theorem guesses_bounded i st k thresh attempts :
  (i < length (login_failures st))%nat ->
  Forall (fun a => (k, thresh) ∈ guards a.1) attempts ->
  guesses i st attempts <= Z.max 0 (thresh + 1 - total (get_failure (table st i) k)).
Proof.
  revert st. induction attempts as [|[ip now] attempts IH]; intros st Hi Hf; cbn [guesses]; [lia|].
  inversion Hf as [|?? Hg Hf']; subst. simpl in Hg.
  pose proof (wrong_attempt_spec i st ip now Hi) as Hs.
  destruct (wrong_attempt i st (ip, now)) as [[] st1]; destruct Hs as [Hl Hs].
  - destruct Hs as (Htab & Hth & _). specialize (Hth _ _ Hg).
    pose proof (recorded_total (time_of now) ip (table st i) k) as [_ Hr].
    rewrite <- Htab in Hr.
    assert (k ∈ (guards ip).*1) as Hk by (apply list_elem_of_fmap; by exists (k, thresh)).
    specialize (Hr Hk). rewrite <- Hl in Hi. specialize (IH st1 Hi Hf'). lia.
  - subst st1. specialize (IH st Hi Hf'). lia.
Qed.

Lemma bump_key_minute time m key k :
  minute (get_failure m k) = time -> 0 <= in_minute (get_failure m k) ->
  minute (get_failure (bump_key time m key) k) = time /\
  in_minute (get_failure m k) + (if decide (k = key) then 1 else 0)
  = in_minute (get_failure (bump_key time m key) k).
Proof.
  rewrite get_failure_bump. intros Hm Hi.
  destruct (decide (key = k)) as [->|Hne].
  - rewrite decide_True by done. unfold bump_failure_entry.
    destruct (get_failure m k) as [[a b] c]. unfold minute, in_minute in *. simpl in *.
    subst. by rewrite Z.eqb_refl.
  - rewrite decide_False by done. split; [done|lia].
Qed.

Lemma bump_key_minute_new time m key :
  minute (get_failure (bump_key time m key) key) = time /\
  (0 <= in_minute (get_failure m key) ->
   1 <= in_minute (get_failure (bump_key time m key) key)).
Proof.
  rewrite get_failure_bump, decide_True by done.
  unfold bump_failure_entry. destruct (get_failure m key) as [[a b] c].
  unfold minute, in_minute. simpl. destruct (Z.eqb_spec a time); simpl; split; lia.
Qed.

(** Entries never hold a negative count. *)
Definition table_ok (m : gmap string Failure) : Prop :=
  forall k, 0 <= in_minute (get_failure m k).

Lemma bump_key_ok time m key : table_ok m -> table_ok (bump_key time m key).
Proof.
  intros Hok k. rewrite get_failure_bump. case_decide as E; [|by apply Hok].
  specialize (Hok key). unfold bump_failure_entry.
  destruct (get_failure m key) as [[a b] c]. unfold in_minute in *. simpl in *.
  case_match; simpl; lia.
Qed.

Lemma recorded_minute time ip m :
  table_ok m ->
  table_ok (recorded time ip m) /\
  minute (get_failure (recorded time ip m) ip) = time /\
  1 <= in_minute (get_failure (recorded time ip m) ip) /\
  (minute (get_failure m ip) = time ->
   in_minute (get_failure m ip) + 1 <= in_minute (get_failure (recorded time ip m) ip)).
Proof.
  intros Hok.
  assert (forall ks m, table_ok m -> table_ok (foldl (bump_key time) m ks) /\
    (minute (get_failure m ip) = time ->
     minute (get_failure (foldl (bump_key time) m ks) ip) = time /\
     in_minute (get_failure m ip) <= in_minute (get_failure (foldl (bump_key time) m ks) ip))) as Hfold.
  { clear. induction ks as [|k ks IH]; intros m Hok; simpl; [done|].
    destruct (IH (bump_key time m k)) as [H1 H2]; [by apply bump_key_ok|]. split; [done|].
    intros Hm. destruct (bump_key_minute time m k ip Hm (Hok ip)) as [Ha Hb].
    destruct (H2 Ha). split; [done|]. case_decide; lia. }
  assert (forall m', table_ok m' ->
    (minute (get_failure m ip) = time -> minute (get_failure m' ip) = time /\
       in_minute (get_failure m ip) <= in_minute (get_failure m' ip)) ->
    table_ok (bump_key time m' ip) /\
    minute (get_failure (bump_key time m' ip) ip) = time /\
    1 <= in_minute (get_failure (bump_key time m' ip) ip) /\
    (minute (get_failure m ip) = time ->
     in_minute (get_failure m ip) + 1 <= in_minute (get_failure (bump_key time m' ip) ip))) as Hlast.
  { intros m' Hok' Hle. split; [by apply bump_key_ok|].
    destruct (bump_key_minute_new time m' ip) as [H1 H2]. split; [done|].
    split; [by apply H2|]. intros Hm. destruct (Hle Hm) as [Hm' ?].
    destruct (bump_key_minute time m' ip ip Hm' (Hok' ip)) as [_ Hb].
    rewrite decide_True in Hb by done. lia. }
  unfold recorded. destruct (get_ipv6_prefixes ip) as [[[p64 p56] p48]|].
  - destruct (Hfold [p64; p56; p48] m Hok). by apply Hlast.
  - by apply Hlast.
Qed.

(** Guessing bound per minute: from one address, at most seven wrong
    passwords are let through within the same minute. *)
Theorem guesses_per_minute i st ip time attempts :
  (i < length (login_failures st))%nat -> table_ok (table st i) ->
  Forall (fun a => a.1 = ip /\ time_of a.2 = time) attempts ->
  guesses i st attempts <=
    (if minute (get_failure (table st i) ip) =? time
     then Z.max 0 (7 - in_minute (get_failure (table st i) ip)) else 7).
Proof.
  revert st. induction attempts as [|[ip' now] attempts IH]; intros st Hi Hok Hf; cbn [guesses].
  { case_match; lia. }
  inversion Hf as [|?? Hg Hf']; subst. destruct Hg as [Hip Ht]; simpl in Hip, Ht; subst ip'.
  pose proof (wrong_attempt_spec i st ip now Hi) as Hs.
  destruct (wrong_attempt i st (ip, now)) as [[] st1]; destruct Hs as [Hl Hs].
  - destruct Hs as (Htab & _ & Hm).
    destruct (recorded_minute (time_of now) ip (table st i) Hok) as (Hok1 & Hm1 & H1 & H2).
    rewrite <- Htab in *. rewrite Ht in *. rewrite <- Hl in Hi.
    specialize (IH st1 Hi Hok1 Hf'). rewrite Hm1, Z.eqb_refl in IH.
    destruct (Z.eqb_spec (minute (get_failure (table st i) ip)) time) as [E|E]; [|lia].
    specialize (Hm E). specialize (H2 E). lia.
  - subst st1. specialize (IH st Hi Hok Hf'). lia.
Qed.
End PerAddress.

Lemma guesses_bounded_witness :
  guesses (fun _ => None) (fun _ => ""%string) 0 throttle_default
    (List.map (fun n => ("1.2.3.4"%string, 60000 * Z.of_nat n)) (seq 1 40)) = 31 /\
  guesses (fun _ => None) (fun _ => ""%string) 0 throttle_default
    (List.map (fun n => ("1.2.3.4"%string, 60000 * Z.of_nat n)) (seq 1 40)) <= 31.
Proof.
  split; [vm_compute; reflexivity|].
  apply (guesses_bounded (fun _ => None) (fun _ => ""%string) 0 throttle_default "1.2.3.4" 30).
  - simpl. lia.
  - apply Forall_forall. intros a (n & -> & _)%list_elem_of_fmap. simpl. apply list_elem_of_here.
Defined.

Lemma guesses_per_minute_witness :
  guesses (fun _ => None) (fun _ => ""%string) 0 throttle_default
    (replicate 20 ("1.2.3.4"%string, 60000)) = 7 /\
  guesses (fun _ => None) (fun _ => ""%string) 0 throttle_default
    (replicate 20 ("1.2.3.4"%string, 60000)) <= 7.
Proof.
  split; [vm_compute; reflexivity|].
  apply (guesses_per_minute (fun _ => None) (fun _ => ""%string) 0 throttle_default "1.2.3.4" 1).
  - simpl. lia.
  - intros k. vm_compute. discriminate.
  - repeat constructor.
Defined.
