(* ===== verification/Float32.v ===== *)
(** * Rust's [f32]

    IEEE-754 binary32 on the standard library's executable specification
    floats ([SpecFloat], 24 bits of precision, exponents below 128, rounding
    to nearest even), with the operations the program uses on them: the
    arithmetic operators, comparisons, [min], [max], [clamp] and the [as]
    casts. *)
From S2P Require Import Prelude.
From Stdlib Require Export SpecFloat.
#[global] Open Scope Z_scope.

Abbreviation f32 := spec_float.

#[export] Instance f32_eq_dec : EqDecision f32.
Proof. solve_decision. Defined.

Definition fmul (a b : f32) : f32 := SFmul 24 128 a b.
Definition fdiv (a b : f32) : f32 := SFdiv 24 128 a b.
Definition fadd (a b : f32) : f32 := SFadd 24 128 a b.
Definition fsub (a b : f32) : f32 := SFsub 24 128 a b.
Definition flt (a b : f32) : bool := SFltb a b.
Definition fle (a b : f32) : bool := SFleb a b.
Definition fgt (a b : f32) : bool := SFltb b a.
Definition fge (a b : f32) : bool := SFleb b a.

(** [z as f32]. *)
Definition f32_of_Z (z : Z) : f32 := binary_normalize 24 128 z 0 false.

(** The literal [a / b], correctly rounded when [a] and [b] are exact. *)
Definition lit (a b : Z) : f32 := fdiv (f32_of_Z a) (f32_of_Z b).

Definition is_nan (a : f32) : bool := match a with S754_nan => true | _ => false end.

Definition fmax (a b : f32) : f32 :=
  if is_nan a then b else if is_nan b then a else if flt a b then b else a.
Definition fmin (a b : f32) : f32 :=
  if is_nan a then b else if is_nan b then a else if flt b a then b else a.

(** [f32::clamp] panics unless [lo <= hi]. *)
Definition fclamp (v lo hi : f32) : option f32 :=
  if fle lo hi then Some (if flt v lo then lo else if fgt v hi then hi else v) else None.

(** [a as u32] truncates and saturates; NaN gives 0. *)
Definition trunc (a : f32) : Z :=
  match a with
  | S754_finite s m e =>
      let v := if 0 <=? e then Z.pos m * 2 ^ e else Z.pos m / 2 ^ (- e) in
      if s then - v else v
  | _ => 0
  end.

Definition f32_as_u32 (a : f32) : Z :=
  match a with
  | S754_infinity false => u32_max
  | _ => clampZ 0 u32_max (trunc a)
  end.

(** [f32::ceil]. *)
Definition fceil (a : f32) : f32 :=
  match a with
  | S754_finite s m e =>
      if 0 <=? e then a
      else
        let v := if s then - (Z.pos m / 2 ^ (- e)) else - ((- Z.pos m) / 2 ^ (- e)) in
        binary_normalize 24 128 v 0 s
  | _ => a
  end.

(** ** The order of floats *)

Lemma fcompare_sym a b : SFcompare b a = option_map CompOpp (SFcompare a b).
Proof.
  destruct a as [s|s| |s m e], b as [s'|s'| |s' m' e']; try done; try (by destruct s);
    try (by destruct s'); try (by destruct s, s').
  simpl. change (Pos.compare_cont Eq) with Pos.compare.
  rewrite (Z.compare_antisym e e'), (Pos.compare_antisym m m').
  by destruct s, s', (e ?= e'), (Pos.compare m m').
Qed.

Lemma fcompare_total a b :
  is_nan a = false -> is_nan b = false -> exists c, SFcompare a b = Some c.
Proof. destruct a as [?|?| |???], b as [?|?| |???]; simpl; try done; eauto. Qed.

Lemma fle_total a b :
  is_nan a = false -> is_nan b = false -> flt a b = false -> fle b a = true.
Proof.
  intros Ha Hb. unfold flt, fle, SFltb, SFleb. rewrite (fcompare_sym a b).
  destruct (fcompare_total a b Ha Hb) as [[] ->]; done.
Qed.

Lemma flt_fle a b : flt a b = true -> fle a b = true.
Proof. unfold flt, fle, SFltb, SFleb. by destruct (SFcompare a b) as [[]|]. Qed.

Lemma fle_not_nan a b : fle a b = true -> is_nan a = false /\ is_nan b = false.
Proof. destruct a, b; simpl; done. Qed.

Lemma fle_refl a : is_nan a = false -> fle a a = true.
Proof.
  unfold fle, SFleb. destruct a as [|[]| |[] m e]; try done; intros _; simpl;
    change (Pos.compare_cont Eq) with Pos.compare; by rewrite Z.compare_refl, Pos.compare_refl.
Qed.

Lemma fle_trans a b c : fle a b = true -> fle b c = true -> fle a c = true.
Proof.
  unfold fle, SFleb.
  destruct a as [s|s| |s m e], b as [s'|s'| |s' m' e'], c as [s''|s''| |s'' m'' e'']; simpl; try done;
    try (by destruct s, s', s''); try (by destruct s); try (by destruct s'); try (by destruct s'');
    try (by destruct s, s'); try (by destruct s, s''); try (by destruct s', s'').
  change (Pos.compare_cont Eq) with Pos.compare.
  destruct s, s', s''; try done;
  destruct (Z.compare_spec e e'), (Z.compare_spec e' e''), (Z.compare_spec e e''); try done; try lia;
  destruct (Pos.compare_spec m m'), (Pos.compare_spec m' m''), (Pos.compare_spec m m''); try done; lia.
Qed.

Create HintDb f32.
#[export] Hint Resolve fle_refl flt_fle fle_trans : f32.

(** A successful [clamp] of a number lands between its bounds. *)
Lemma fclamp_bounds v lo hi r :
  is_nan v = false -> fclamp v lo hi = Some r -> fle lo r = true /\ fle r hi = true.
Proof.
  unfold fclamp, fgt. intros Hv. destruct (fle lo hi) eqn:Hlh; [|done].
  destruct (fle_not_nan _ _ Hlh). fold (flt hi v).
  destruct (flt v lo) eqn:E1; [intros [= <-]; auto using fle_refl|].
  destruct (flt hi v) eqn:E2; intros [= <-]; [auto using fle_refl|].
  split; by apply fle_total.
Qed.

Lemma fclamp_Some v lo hi : fle lo hi = true -> is_Some (fclamp v lo hi).
Proof. unfold fclamp. intros ->. eauto. Qed.

(** ** Products are numbers *)

Lemma shr_1_nonneg r : 0 <= shr_m r -> 0 <= shr_m (shr_1 r).
Proof. destruct r as [[|[]|[]] r s]; simpl; lia. Qed.

Lemma iter_shr_1_nonneg p : forall r, 0 <= shr_m r -> 0 <= shr_m (iter_pos shr_1 p r).
Proof. induction p as [p IH|p IH|]; intros r Hr; simpl; auto using shr_1_nonneg. Qed.

Lemma shr_fexp_nonneg m e l : 0 <= m -> 0 <= shr_m (shr_fexp 24 128 m e l).1.
Proof.
  intros Hm. unfold shr_fexp, shr.
  assert (0 <= shr_m (shr_record_of_loc m l)) by (destruct l as [|[]]; simpl; done).
  case_match; simpl; auto using iter_shr_1_nonneg.
Qed.

Lemma round_aux_not_nan s m e l :
  0 <= m -> is_nan (binary_round_aux 24 128 s m e l) = false.
Proof.
  intros Hm. unfold binary_round_aux.
  pose proof (shr_fexp_nonneg m e l Hm) as H1.
  destruct (shr_fexp 24 128 m e l) as [r1 e1]. simpl in H1.
  set (m2 := round_nearest_even _ _).
  assert (0 <= m2).
  { unfold m2, round_nearest_even. destruct (loc_of_shr_record r1) as [|[]]; try lia.
    destruct (Z.even (shr_m r1)); lia. }
  pose proof (shr_fexp_nonneg m2 e1 loc_Exact ltac:(lia)) as H2.
  destruct (shr_fexp 24 128 m2 e1 loc_Exact) as [r2 e2]. simpl in H2.
  destruct (shr_m r2); [done| |lia]. by destruct (e2 <=? 128 - 24).
Qed.

(** Neither factor infinite nor NaN. *)
Definition is_finite (a : f32) : bool :=
  match a with S754_zero _ | S754_finite _ _ _ => true | _ => false end.

Lemma fmul_not_nan a b : is_finite a = true -> is_finite b = true -> is_nan (fmul a b) = false.
Proof.
  destruct a as [| | |s m e], b as [| | |s' m' e']; try done; intros _ _.
  apply round_aux_not_nan. lia.
Qed.

Lemma fle_finite lo a hi :
  is_finite lo = true -> is_finite hi = true -> fle lo a = true -> fle a hi = true ->
  is_finite a = true.
Proof.
  destruct a as [|[]| |]; try done; destruct lo as [|[]| |]; try done; destruct hi as [|[]| |]; done.
Qed.

Lemma flt_not_nan a b : flt a b = true -> is_nan a = false /\ is_nan b = false.
Proof. destruct a, b; simpl; done. Qed.

Lemma fmax_ge_r a b : is_nan b = false -> fle b (fmax a b) = true.
Proof.
  intros Hb. unfold fmax. destruct (is_nan a) eqn:Ha; [by apply fle_refl|]. rewrite Hb.
  destruct (flt a b) eqn:E; [by apply fle_refl|by apply fle_total].
Qed.

Lemma fmax_le a b m : fle a m = true -> fle b m = true -> fle (fmax a b) m = true.
Proof. unfold fmax. intros. by repeat case_match. Qed.

Lemma fmax_not_nan a b : is_nan b = false -> is_nan (fmax a b) = false.
Proof. intros Hb. by apply (fle_not_nan b), fmax_ge_r. Qed.
