(* ===== verification/VideoQos.v ===== *)
(** * Adaptive video quality ([src/server/video_qos.rs])

    The controlled side keeps one [VideoQoS] for all its viewers and adapts the
    frame rate and the bitrate ratio to the network delay each viewer reports.
    Times are [Instant]s in nanoseconds passed as arguments; [f32] is the
    binary32 model of [Float32]; an assertion failure (a [clamp] whose bounds
    are crossed) is [None].  The iteration order of the [users] table is a
    parameter that enumerates its entries in any order. *)
From S2P Require Import Prelude Float32.

Definition FPS : Z := 30.
Definition MIN_FPS : Z := 1.
Definition MAX_FPS : Z := 120.
Definition INIT_FPS : Z := 15.

Definition BR_BEST : f32 := lit 15 10.
Definition BR_BALANCED : f32 := lit 67 100.
Definition BR_SPEED : f32 := lit 5 10.

Definition BR_MAX : f32 := lit 40 1.
Definition BR_MIN : f32 := lit 2 10.
Definition BR_MIN_HIGH_RESOLUTION : f32 := lit 1 10.
Definition MAX_BR_MULTIPLE : f32 := lit 1 1.

Definition HISTORY_DELAY_LEN : Z := 2.
Definition ADJUST_RATIO_INTERVAL : Z := 3.
Definition DYNAMIC_SCREEN_THRESHOLD : Z := 2.
Definition DELAY_THRESHOLD_150MS : Z := 150.

Inductive Quality :=
| Best
| Balanced
| Low
| Custom (v : f32).

(** [Quality::ratio] of [libs/scrap/src/common/codec.rs]. *)
Definition quality_ratio (q : Quality) : f32 :=
  match q with
  | Best => BR_BEST
  | Balanced => BR_BALANCED
  | Low => BR_SPEED
  | Custom v => v
  end.

Record RttCalculator := mkRtt {
  min_rtt : option Z;
  window_min_rtt : option Z;
  smoothed_rtt : option Z;
  samples : list Z
}.

Record UserDelay := mkUserDelay {
  response_delayed : bool;
  delay_history : list Z;
  delay_fps : option Z;
  rtt_calculator : RttCalculator;
  quick_increase_fps_count : Z;
  increase_fps_count : Z
}.

Record UserData := mkUserData {
  auto_adjust_fps : option Z;
  custom_fps : option Z;
  quality : option (Z * Quality);
  delay : UserDelay;
  user_record_flag : bool
}.

Record DisplayData := mkDisplayData {
  send_counter : Z;
  support_changing_quality : bool
}.

Record VideoQoS := mkVideoQoS {
  qos_fps : Z;
  qos_ratio : f32;
  users : gmap Z UserData;
  displays : gmap string DisplayData;
  bitrate_store : Z;
  adjust_ratio_instant : Z;
  abr_config : bool;
  new_user_instant : Z
}.

Definition rtt_default : RttCalculator := mkRtt None None None [].
Definition delay_default : UserDelay := mkUserDelay false [] None rtt_default 0 0.
Definition user_default : UserData := mkUserData None None None delay_default false.
Definition display_default : DisplayData := mkDisplayData 0 false.

Definition qos_default (now : Z) : VideoQoS :=
  mkVideoQoS FPS BR_BALANCED ∅ ∅ 0 now true now.

(** [Duration::as_secs] of an elapsed time in nanoseconds. *)
Definition as_secs (ns : Z) : Z := ns / 1000000000.

(** [u32::clamp] asserts that its bounds are ordered. *)
Definition uclamp (z lo hi : Z) : option Z :=
  if lo <=? hi then Some (if z <? lo then lo else if hi <? z then hi else z) else None.

(** ** Round-trip estimation *)

Definition WINDOW_SAMPLES : Z := 60.
Definition MIN_SAMPLES : Z := 10.
Definition ALPHA : f32 := lit 5 10.

Definition rtt_update (r : RttCalculator) (d : Z) : RttCalculator :=
  let min' := match min_rtt r with
              | Some m => if d <? m then Some d else Some m
              | None => Some d
              end in
  let s := if WINDOW_SAMPLES <=? len (samples r) then tail (samples r) else samples r in
  let s := s ++ [d] in
  let wmin := list_min s in
  let smooth :=
    if WINDOW_SAMPLES <=? len s then
      match min', wmin with
      | Some m, Some w =>
          Some (f32_as_u32 (fadd (fmul (fsub (lit 1 1) ALPHA) (f32_of_Z m))
                                 (fmul ALPHA (f32_of_Z w))))
      | _, _ => smoothed_rtt r
      end
    else smoothed_rtt r in
  mkRtt min' wmin smooth s.

Definition get_rtt (r : RttCalculator) : option Z :=
  match smoothed_rtt r with
  | Some rtt => Some rtt
  | None =>
      if MIN_SAMPLES <=? len (samples r) then
        match min_rtt r with Some rtt => Some rtt | None => None end
      else None
  end.

(** ** Per-user delays *)

Definition add_delay (u : UserDelay) (d : Z) : UserDelay :=
  let h := if HISTORY_DELAY_LEN <? len (delay_history u)
           then tail (delay_history u) else delay_history u in
  mkUserDelay (response_delayed u) (h ++ [d]) (delay_fps u) (rtt_update (rtt_calculator u) d)
    (quick_increase_fps_count u) (increase_fps_count u).

Definition sum_u32 (l : list Z) : Z := u32_of (foldr Z.add 0 l).

Definition avg_delay (u : UserDelay) : Z :=
  if 0 <? len (delay_history u) then
    let avg := sum_u32 (delay_history u) / len (delay_history u) in
    match get_rtt (rtt_calculator u) with
    | Some rtt => if rtt <? avg then avg - rtt else avg
    | None => avg
    end
  else DELAY_THRESHOLD_150MS.

(** ** Field updates *)

Definition with_fps (q : VideoQoS) (v : Z) : VideoQoS :=
  mkVideoQoS v (qos_ratio q) (users q) (displays q) (bitrate_store q)
    (adjust_ratio_instant q) (abr_config q) (new_user_instant q).
Definition with_ratio (q : VideoQoS) (v : f32) : VideoQoS :=
  mkVideoQoS (qos_fps q) v (users q) (displays q) (bitrate_store q)
    (adjust_ratio_instant q) (abr_config q) (new_user_instant q).
Definition with_users (q : VideoQoS) (v : gmap Z UserData) : VideoQoS :=
  mkVideoQoS (qos_fps q) (qos_ratio q) v (displays q) (bitrate_store q)
    (adjust_ratio_instant q) (abr_config q) (new_user_instant q).
Definition with_displays (q : VideoQoS) (v : gmap string DisplayData) : VideoQoS :=
  mkVideoQoS (qos_fps q) (qos_ratio q) (users q) v (bitrate_store q)
    (adjust_ratio_instant q) (abr_config q) (new_user_instant q).

Definition set_user_delay (u : UserData) (d : UserDelay) : UserData :=
  mkUserData (auto_adjust_fps u) (custom_fps u) (quality u) d (user_record_flag u).

(** ** Basic functionality *)

Definition fps (q : VideoQoS) : Z :=
  if (MIN_FPS <=? qos_fps q) && (qos_fps q <=? MAX_FPS) then qos_fps q else FPS.

(** Seconds per frame, before [Duration::from_secs_f32]. *)
Definition spf (q : VideoQoS) : f32 := fdiv (lit 1 1) (f32_of_Z (fps q)).

Definition store_bitrate (q : VideoQoS) (b : Z) : VideoQoS :=
  mkVideoQoS (qos_fps q) (qos_ratio q) (users q) (displays q) b
    (adjust_ratio_instant q) (abr_config q) (new_user_instant q).
Definition bitrate (q : VideoQoS) : Z := bitrate_store q.

Definition ratio (q : VideoQoS) : f32 * VideoQoS :=
  let q := if flt (qos_ratio q) BR_MIN_HIGH_RESOLUTION || fgt (qos_ratio q) BR_MAX
           then with_ratio q BR_BALANCED else q in
  (qos_ratio q, q).

Definition set_support_changing_quality (q : VideoQoS) (name : string) (support : bool)
  : VideoQoS :=
  match displays q !! name with
  | Some d => with_displays q (<[name := mkDisplayData (send_counter d) support]> (displays q))
  | None => q
  end.

Definition in_vbr_state (q : VideoQoS) : bool :=
  abr_config q &&
  forallb (fun e => support_changing_quality e.2) (map_to_list (displays q)).

Definition on_connection_open (q : VideoQoS) (id : Z) (enable_abr : string) (now : Z) : VideoQoS :=
  mkVideoQoS (qos_fps q) (qos_ratio q) (<[id := user_default]> (users q)) (displays q)
    (bitrate_store q) (adjust_ratio_instant q) (negb (bool_decide (enable_abr = "N"%string))) now.

Definition on_connection_close (q : VideoQoS) (id : Z) (now : Z) : VideoQoS :=
  let us := delete id (users q) in
  if bool_decide (us = ∅) then qos_default now else with_users q us.

Definition user_custom_fps (q : VideoQoS) (id fps : Z) : VideoQoS :=
  if (fps <? MIN_FPS) || (MAX_FPS <? fps) then q
  else
    match users q !! id with
    | Some u => with_users q (<[id := mkUserData (auto_adjust_fps u) (Some fps) (quality u)
                                        (delay u) (user_record_flag u)]> (users q))
    | None => q
    end.

Definition user_auto_adjust_fps (q : VideoQoS) (id fps : Z) : VideoQoS :=
  if (fps <? MIN_FPS) || (MAX_FPS <? fps) then q
  else
    match users q !! id with
    | Some u => with_users q (<[id := mkUserData (Some fps) (custom_fps u) (quality u)
                                        (delay u) (user_record_flag u)]> (users q))
    | None => q
    end.

Definition user_record (q : VideoQoS) (id : Z) (v : bool) : VideoQoS :=
  match users q !! id with
  | Some u => with_users q (<[id := mkUserData (auto_adjust_fps u) (custom_fps u) (quality u)
                                      (delay u) v]> (users q))
  | None => q
  end.

Definition new_display (q : VideoQoS) (name : string) : VideoQoS :=
  with_displays q (<[name := display_default]> (displays q)).
Definition remove_display (q : VideoQoS) (name : string) : VideoQoS :=
  with_displays q (delete name (displays q)).

(** [ImageQuality] of [message.proto]: Low = 2, Balanced = 3, Best = 4. *)
Definition convert_quality (q : Z) : option Quality :=
  if q =? 3 then Some Balanced
  else if q =? 2 then Some Low
  else if q =? 4 then Some Best
  else
    let b := fdiv (f32_of_Z (Z.land (Z.shiftr q 8) 0xFFF * 2)) (lit 100 1) in
    b' ← fclamp b BR_MIN BR_MAX; Some (Custom b').

Section Adjust.
(** [HashMap::iter]: the entries of the table, in an unspecified order. *)
Context (iter_users : gmap Z UserData -> list (Z * UserData)).
Context (iter_users_perm : forall m, iter_users m ≡ₚ map_to_list m).

Definition record (q : VideoQoS) : bool :=
  existsb (fun u => user_record_flag u.2) (iter_users (users q)).

Definition user_fps (u : UserData) : Z :=
  let f := default FPS (custom_fps u) in
  match auto_adjust_fps u with
  | Some a => if (f =? 0) || (a <? f) then a else f
  | None => f
  end.

Definition highest_fps (q : VideoQoS) : option Z :=
  let l := List.filter (fun f => MIN_FPS <=? f) (List.map (fun u => user_fps u.2) (iter_users (users q))) in
  uclamp (default FPS (list_min l)) MIN_FPS MAX_FPS.

(** [max_by] keeps the last of several maximal elements. *)
Definition later (a b : Z * Quality) : Z * Quality :=
  if b.1 <? a.1 then a else b.

Definition latest_quality (q : VideoQoS) : Quality :=
  match omap (fun u => quality u.2) (iter_users (users q)) with
  | [] => Balanced
  | x :: l => (foldl later x l).2
  end.

Definition adjust_fps (q : VideoQoS) (now : Z) : option VideoQoS :=
  highest ← highest_fps q;
  let f := default INIT_FPS (list_min (List.map (fun u => default INIT_FPS (delay_fps (delay u.2)))
                                        (iter_users (users q)))) in
  let f := if existsb (fun u => response_delayed (delay u.2)) (iter_users (users q))
           then if MIN_FPS + 1 <? f then MIN_FPS + 1 else f else f in
  let f := if as_secs (now - new_user_instant q) <? 1
           then if INIT_FPS <? f then INIT_FPS else f else f in
  f' ← uclamp f MIN_FPS highest;
  Some (with_fps q f').

Definition min_ratio (target : Quality) (ratio_1mbps : option f32) : f32 :=
  let lower m := match ratio_1mbps with
                 | Some r => if fgt m r then r else m
                 | None => m
                 end in
  match target with
  | Best => fmax (lower (fdiv BR_BEST (lit 25 10))) BR_MIN
  | Balanced => fmax (lower (fmin (fdiv BR_BALANCED (lit 2 1)) (lit 4 10))) BR_MIN_HIGH_RESOLUTION
  | Low => BR_MIN_HIGH_RESOLUTION
  | Custom _ => BR_MIN_HIGH_RESOLUTION
  end.

Definition scaled_ratio (current_ratio : f32) (max_delay : Z) (dynamic_screen : bool) : f32 :=
  if max_delay <? 50 then if dynamic_screen then fmul current_ratio (lit 115 100) else current_ratio
  else if max_delay <? 100 then if dynamic_screen then fmul current_ratio (lit 11 10) else current_ratio
  else if max_delay <? DELAY_THRESHOLD_150MS then
    if dynamic_screen then fmul current_ratio (lit 105 100) else current_ratio
  else if max_delay <? 200 then fmul current_ratio (lit 95 100)
  else if max_delay <? 300 then fmul current_ratio (lit 9 10)
  else if max_delay <? 500 then fmul current_ratio (lit 85 100)
  else fmul current_ratio (lit 8 10).

Definition adjust_ratio (q : VideoQoS) (dynamic_screen : bool) (now : Z) : option VideoQoS :=
  if negb (in_vbr_state q) then Some q
  else
    match list_max (List.map (fun u => avg_delay (delay u.2)) (iter_users (users q))) with
    | None => Some q
    | Some max_delay =>
        let target_quality := latest_quality q in
        let target_ratio := quality_ratio (latest_quality q) in
        let current_ratio := qos_ratio q in
        let current_bitrate := bitrate q in
        let ratio_1mbps :=
          if 0 <? current_bitrate then
            Some (fmax (fdiv (fmul current_ratio (lit 1000 1)) (f32_of_Z current_bitrate))
                    BR_MIN_HIGH_RESOLUTION)
          else None in
        let ratio_add_150kbps :=
          if 0 <? current_bitrate then
            Some (fdiv (fmul (f32_of_Z (u32_of (current_bitrate + 150))) current_ratio)
                    (f32_of_Z current_bitrate))
          else None in
        let min := min_ratio target_quality ratio_1mbps in
        let max := fmul target_ratio MAX_BR_MULTIPLE in
        let v := scaled_ratio current_ratio max_delay dynamic_screen in
        let v := match ratio_add_150kbps with
                 | Some r => if fgt v r && fgt r current_ratio && fge current_ratio BR_SPEED
                             then r else v
                 | None => v
                 end in
        v' ← fclamp v min max;
        Some (mkVideoQoS (qos_fps q) v' (users q) (displays q) (bitrate_store q) now
                (abr_config q) (new_user_instant q))
    end.

(** [time] is the [get_time()] stamp of the request. *)
Definition user_image_quality (q : VideoQoS) (id image_quality time : Z) : option VideoQoS :=
  ql ← convert_quality image_quality;
  match users q !! id with
  | Some u =>
      let q := with_users q (<[id := mkUserData (auto_adjust_fps u) (custom_fps u)
                 (Some (time, ql)) (delay u) (user_record_flag u)]> (users q)) in
      Some (with_ratio q (quality_ratio (latest_quality q)))
  | None => Some q
  end.

(** The frame rate one delay report leads to, before the final clamp, and the
    new [quick_increase_fps_count]. *)
Definition next_fps (cur min_fps normal_fps old_avg avg quick : Z) : Z * Z :=
  let dividend_ms := DELAY_THRESHOLD_150MS * min_fps in
  if avg <? 50 then
    let quick := quick + 1 in
    let step := if cur <? normal_fps then 1 else 0 in
    let '(step, quick) := if 3 <=? quick then (5, 0) else (step, quick) in
    (Z.max min_fps (cur + step), quick)
  else if avg <? 100 then
    let step := if avg <? old_avg then if cur <? normal_fps then 1 else 0 else 0 in
    (Z.max min_fps (cur + step), quick)
  else if avg <? DELAY_THRESHOLD_150MS then (Z.max min_fps cur, quick)
  else
    let devide_fps := f32_as_u32 (fceil (fdiv (f32_of_Z cur)
      (fdiv (f32_of_Z avg) (f32_of_Z DELAY_THRESHOLD_150MS)))) in
    if avg <? 200 then (Z.max min_fps devide_fps, quick)
    else if avg <? 300 then (Z.min min_fps devide_fps, quick)
    else if avg <? 600 then (dividend_ms / avg, quick)
    else (Z.min (dividend_ms / avg) devide_fps, quick).

Definition fps_targets (target_ratio : f32) : Z * Z :=
  if fge target_ratio BR_BEST then (8, 16)
  else if fge target_ratio BR_BALANCED then (10, 20)
  else (12, 24).

Definition user_network_delay (q : VideoQoS) (id d now : Z) (is_linux : bool) : option VideoQoS :=
  highest ← highest_fps q;
  let target_ratio := quality_ratio (latest_quality q) in
  let '(min_fps, normal_fps) := fps_targets target_ratio in
  qa ← match users q !! id with
    | None => Some (q, false)
    | Some u =>
        let d := Z.max d 10 in
        let old_avg := avg_delay (delay u) in
        let ud := add_delay (delay u) d in
        let avg := Z.max (avg_delay ud) 10 in
        let '(f, quick) := next_fps (qos_fps q) min_fps normal_fps old_avg avg
                             (quick_increase_fps_count ud) in
        let inc := if avg <? DELAY_THRESHOLD_150MS then increase_fps_count ud + 1 else 0 in
        let '(f, inc) := if 3 <=? inc then (f + 1, 0) else (f, inc) in
        let quick := if 50 <? avg then 0 else quick in
        f' ← uclamp f MIN_FPS highest;
        let first := match delay_fps ud with None => true | Some _ => false end in
        let ud := mkUserDelay (response_delayed ud) (delay_history ud) (Some f')
                    (rtt_calculator ud) quick inc in
        Some (with_users q (<[id := set_user_delay u ud]> (users q)), first)
    end;
  let '(q, first) := qa : VideoQoS * bool in
  q ← adjust_fps q now;
  if first && negb is_linux then adjust_ratio q false now else Some q.

Definition user_delay_response_elapsed (q : VideoQoS) (id elapsed now : Z) : option VideoQoS :=
  match users q !! id with
  | None => Some q
  | Some u =>
      let delayed := 2000 <? elapsed in
      let ud := delay u in
      let ud := mkUserDelay delayed (delay_history ud) (delay_fps ud) (rtt_calculator ud)
                  (quick_increase_fps_count ud) (increase_fps_count ud) in
      if delayed then
        adjust_fps (with_users q (<[id := set_user_delay u (add_delay ud (u32_of elapsed))]> (users q))) now
      else Some (with_users q (<[id := set_user_delay u ud]> (users q)))
  end.

Definition update_display_data (q : VideoQoS) (name : string) (count now : Z) : option VideoQoS :=
  let q := match displays q !! name with
           | Some d => with_displays q (<[name := mkDisplayData (send_counter d + count)
                                                   (support_changing_quality d)]> (displays q))
           | None => q
           end in
  q ← adjust_fps q now;
  if in_vbr_state q then
    if ADJUST_RATIO_INTERVAL <=? as_secs (now - adjust_ratio_instant q) then
      let dynamic_screen :=
        existsb (fun d => ADJUST_RATIO_INTERVAL * DYNAMIC_SCREEN_THRESHOLD <=? send_counter d.2)
          (map_to_list (displays q)) in
      let q := with_displays q
        ((fun d => mkDisplayData 0 (support_changing_quality d)) <$> displays q) in
      adjust_ratio q dynamic_screen now
    else Some q
  else Some (with_ratio q (quality_ratio (latest_quality q))).

(** ** Operations as steps *)
Inductive op :=
| OpOpen (id : Z) (enable_abr : string)
| OpClose (id : Z)
| OpCustomFps (id fps : Z)
| OpAutoFps (id fps : Z)
| OpQuality (id q time : Z)
| OpRecord (id : Z) (v : bool)
| OpDelay (id d : Z) (is_linux : bool)
| OpElapsed (id elapsed : Z)
| OpNewDisplay (name : string)
| OpRemoveDisplay (name : string)
| OpSupport (name : string) (support : bool)
| OpDisplayData (name : string) (count : Z)
| OpBitrate (b : Z)
| OpRatio.

Definition apply_op (q : VideoQoS) (now : Z) (o : op) : option VideoQoS :=
  match o with
  | OpOpen id abr => Some (on_connection_open q id abr now)
  | OpClose id => Some (on_connection_close q id now)
  | OpCustomFps id f => Some (user_custom_fps q id f)
  | OpAutoFps id f => Some (user_auto_adjust_fps q id f)
  | OpQuality id ql time => user_image_quality q id ql time
  | OpRecord id v => Some (user_record q id v)
  | OpDelay id d is_linux => user_network_delay q id d now is_linux
  | OpElapsed id e => user_delay_response_elapsed q id e now
  | OpNewDisplay n => Some (new_display q n)
  | OpRemoveDisplay n => Some (remove_display q n)
  | OpSupport n s => Some (set_support_changing_quality q n s)
  | OpDisplayData n c => update_display_data q n c now
  | OpBitrate b => Some (store_bitrate q b)
  | OpRatio => Some (ratio q).2
  end.

Fixpoint run (q : VideoQoS) (ops : list (Z * op)) : option VideoQoS :=
  match ops with
  | [] => Some q
  | (now, o) :: ops => q ← apply_op q now o; run q ops
  end.

(** ** The invariant *)

Definition in_fps_range (z : Z) : Prop := MIN_FPS <= z <= MAX_FPS.
Definition opt_fps_ok (o : option Z) : Prop :=
  match o with Some z => in_fps_range z | None => True end.

Definition quality_ok (q : Quality) : Prop :=
  match q with
  | Custom v => fle BR_MIN v = true /\ fle v BR_MAX = true /\ fmul v MAX_BR_MULTIPLE = v
  | _ => True
  end.

Definition user_ok (u : UserData) : Prop :=
  opt_fps_ok (custom_fps u) /\ opt_fps_ok (auto_adjust_fps u) /\ opt_fps_ok (delay_fps (delay u)) /\
  match quality u with Some (_, q) => quality_ok q | None => True end /\
  len (delay_history (delay u)) <= HISTORY_DELAY_LEN + 1 /\
  len (samples (rtt_calculator (delay u))) <= WINDOW_SAMPLES.

Definition ratio_ok (r : f32) : Prop :=
  fle BR_MIN_HIGH_RESOLUTION r = true /\ fle r BR_MAX = true.

Definition qos_ok (q : VideoQoS) : Prop :=
  in_fps_range (qos_fps q) /\ ratio_ok (qos_ratio q) /\ map_Forall (fun _ u => user_ok u) (users q).

Lemma uclamp_spec z lo hi : lo <= hi -> exists r, uclamp z lo hi = Some r /\ lo <= r <= hi.
Proof.
  intros H. unfold uclamp. destruct (Z.leb_spec lo hi); [|lia].
  eexists. split; [done|]. destruct (Z.ltb_spec z lo), (Z.ltb_spec hi z); lia.
Qed.

Lemma elem_of_iter_users m id u : (id, u) ∈ iter_users m <-> m !! id = Some u.
Proof. rewrite iter_users_perm. apply elem_of_map_to_list. Qed.

Lemma user_fps_ok u : user_ok u -> in_fps_range (user_fps u).
Proof.
  unfold user_ok, opt_fps_ok, in_fps_range, user_fps, FPS, MIN_FPS, MAX_FPS.
  intros (H1 & H2 & _). destruct (custom_fps u), (auto_adjust_fps u); simpl;
    repeat case_match; lia.
Qed.

(** The cap every viewer agrees to. *)
Lemma highest_fps_spec q :
  qos_ok q -> exists h, highest_fps q = Some h /\ in_fps_range h /\
    forall id u, users q !! id = Some u -> h <= user_fps u.
Proof.
  intros (_ & _ & Hu). unfold highest_fps.
  set (l := List.map _ _).
  assert (forall id u, users q !! id = Some u -> user_fps u ∈ l) as Hin.
  { intros id u H. unfold l. apply list_elem_of_fmap. exists (id, u). split; [done|].
    by apply elem_of_iter_users. }
  assert (forall z, z ∈ l -> in_fps_range z) as Hl.
  { intros z (x & -> & Hx)%list_elem_of_fmap. destruct x as [id u].
    apply elem_of_iter_users in Hx. apply user_fps_ok. by apply (Hu id). }
  assert (List.filter (fun f => MIN_FPS <=? f) l = l) as ->.
  { clear -Hl. induction l as [|z l IH]; [done|]. simpl.
    destruct (Hl z ltac:(set_solver)) as [Hz _]. apply Z.leb_le in Hz as ->.
    f_equal. apply IH. set_solver. }
  destruct (list_min l) as [m|] eqn:Em; simpl.
  - apply list_min_spec in Em as [Em1 Em2]. rewrite Forall_forall in Em2.
    destruct (Hl m Em1) as [Hm1 Hm2].
    exists m. unfold uclamp. split; [|split; [done|]].
    + unfold MIN_FPS, MAX_FPS in *. simpl.
      destruct (Z.ltb_spec m 1), (Z.ltb_spec 120 m); [lia..|done].
    + intros id u H. apply Em2. by eapply Hin.
  - exists FPS. split; [done|]. split; [done|]. intros id u H%Hin.
    destruct l; [by apply elem_of_nil in H|done].
Qed.

Lemma adjust_fps_spec q now :
  qos_ok q ->
  exists f, adjust_fps q now = Some (with_fps q f) /\ in_fps_range f /\
    (forall id u, users q !! id = Some u -> f <= user_fps u) /\
    ((exists id u, users q !! id = Some u /\ response_delayed (delay u) = true) -> f <= MIN_FPS + 1) /\
    (as_secs (now - new_user_instant q) < 1 -> f <= INIT_FPS).
Proof.
  intros Hok. destruct (highest_fps_spec q Hok) as (h & Hh & [Hh1 Hh2] & Hcap).
  unfold adjust_fps. rewrite Hh. simpl.
  set (f0 := default INIT_FPS _).
  set (f1 := if existsb _ _ then _ else _).
  set (f2 := if as_secs _ <? 1 then _ else _).
  destruct (uclamp_spec f2 MIN_FPS h Hh1) as (f & Hf & Hf1 & Hf2). rewrite Hf. simpl.
  assert (f <= Z.max f2 MIN_FPS) as Hfle.
  { unfold uclamp in Hf. case_match; [|done]. repeat case_match; simplify_eq; lia. }
  exists f. split_and!; [done|split; lia| | |].
  - intros id u Hu. specialize (Hcap id u Hu). lia.
  - intros (id & u & Hu & Hd).
    assert (existsb (fun u => response_delayed (delay u.2)) (iter_users (users q)) = true) as He.
    { apply existsb_exists. exists (id, u). split; [|done].
      apply list_elem_of_In, elem_of_iter_users, Hu. }
    assert (f1 <= MIN_FPS + 1) by (unfold f1; rewrite He; destruct (Z.ltb_spec (MIN_FPS + 1) f0); lia).
    assert (f2 <= f1) by (unfold f2; repeat case_match; rewrite ?Z.ltb_lt in *; lia).
    unfold MIN_FPS in *. lia.
  - intros Hn. apply Z.ltb_lt in Hn.
    assert (f2 <= INIT_FPS) by (unfold f2; rewrite Hn; destruct (Z.ltb_spec INIT_FPS f1); lia).
    unfold INIT_FPS, MIN_FPS in *. lia.
Qed.

(** *** Image quality *)

Lemma custom_values k : 0 <= k < 4096 ->
  exists v, fclamp (fdiv (f32_of_Z (k * 2)) (lit 100 1)) BR_MIN BR_MAX = Some v /\ quality_ok (Custom v).
Proof.
  intros Hk.
  assert (forallb (fun n => match fclamp (fdiv (f32_of_Z (Z.of_nat n * 2)) (lit 100 1)) BR_MIN BR_MAX with
    | Some v => fle BR_MIN v && fle v BR_MAX && bool_decide (fmul v MAX_BR_MULTIPLE = v)
    | None => false end) (seq 0 4096) = true) as Hall by (vm_compute; reflexivity).
  rewrite forallb_forall in Hall. specialize (Hall (Z.to_nat k)).
  rewrite Z2Nat.id in Hall by lia.
  assert (In (Z.to_nat k) (seq 0 4096)) as Hin by (apply in_seq; lia).
  specialize (Hall Hin). destruct (fclamp _ _ _) as [v|]; [|done].
  exists v. split; [done|]. apply andb_prop in Hall as [[? ?]%andb_prop Hb].
  split_and!; [done..|]. by apply bool_decide_eq_true in Hb.
Qed.

Lemma convert_quality_spec n : exists ql, convert_quality n = Some ql /\ quality_ok ql.
Proof.
  unfold convert_quality. repeat case_match; try (by eexists).
  assert (0 <= Z.land (Z.shiftr n 8) 0xFFF < 4096) as Hk.
  { change 0xFFF with (Z.ones 12). rewrite Z.land_ones by lia. by apply Z.mod_pos_bound. }
  destruct (custom_values _ Hk) as (v & -> & Hv). by exists (Custom v).
Qed.

Lemma quality_ratio_ok q :
  quality_ok q -> ratio_ok (quality_ratio q) /\ fmul (quality_ratio q) MAX_BR_MULTIPLE = quality_ratio q.
Proof.
  destruct q as [| | |v]; simpl; [by repeat split..|]. intros (H1 & H2 & H3).
  split; [|done]. split; [|done]. by apply (fle_trans _ BR_MIN).
Qed.

Lemma latest_quality_ok q : qos_ok q -> quality_ok (latest_quality q).
Proof.
  intros (_ & _ & Hu). unfold latest_quality.
  assert (Forall (fun x => quality_ok x.2) (omap (fun u => quality u.2) (iter_users (users q)))) as Hf.
  { apply Forall_forall. intros [t ql] ([id u] & Hx & Hq)%list_elem_of_omap.
    apply elem_of_iter_users in Hx. destruct (Hu id u Hx) as (_ & _ & _ & Hql & _).
    simpl in Hq. by rewrite Hq in Hql. }
  destruct (omap _ _) as [|x l]; [done|]. inversion Hf as [|?? Hx Hl]; subst. clear Hf.
  revert x Hx. induction Hl as [|y l Hy _ IH]; intros x Hx; simpl; [done|].
  apply IH. unfold later. by case_match.
Qed.

(** *** The bitrate ratio *)

Lemma lower_le m (o : option f32) :
  is_nan m = false ->
  fle (match o with Some r => if fgt m r then r else m | None => m end) m = true.
Proof.
  intros Hm. destruct o as [r|]; [|by apply fle_refl].
  unfold fgt. fold (flt r m). destruct (flt r m) eqn:E; [by apply flt_fle|by apply fle_refl].
Qed.

Lemma min_ratio_spec tq o :
  quality_ok tq ->
  fle BR_MIN_HIGH_RESOLUTION (min_ratio tq o) = true /\
  fle (min_ratio tq o) (quality_ratio tq) = true.
Proof.
  intros Hq. destruct tq as [| | |v]; simpl.
  - split.
    + by apply (fle_trans _ BR_MIN), fmax_ge_r.
    + apply (fle_trans _ (fdiv BR_BEST (lit 25 10))); [|done].
      apply fmax_le; [by apply lower_le|done].
  - split; [by apply fmax_ge_r|].
    apply (fle_trans _ (fmin (fdiv BR_BALANCED (lit 2 1)) (lit 4 10))); [|done].
    apply fmax_le; [by apply lower_le|done].
  - done.
  - destruct Hq as (H & _). split; [done|]. by apply (fle_trans _ BR_MIN).
Qed.

Lemma scaled_ratio_not_nan r d b : ratio_ok r -> is_nan (scaled_ratio r d b) = false.
Proof.
  intros [H1 H2].
  assert (is_finite r = true) as Hr by (by apply (fle_finite BR_MIN_HIGH_RESOLUTION _ BR_MAX)).
  assert (is_nan r = false) by (by destruct r).
  unfold scaled_ratio. repeat case_match; try done; by apply fmul_not_nan.
Qed.

Lemma adjust_ratio_spec q dyn now :
  qos_ok q ->
  exists r t, adjust_ratio q dyn now =
      Some (mkVideoQoS (qos_fps q) r (users q) (displays q) (bitrate_store q) t
              (abr_config q) (new_user_instant q)) /\ ratio_ok r /\
    (r = qos_ratio q \/ fle r (quality_ratio (latest_quality q)) = true).
Proof.
  intros Hok. pose proof (latest_quality_ok q Hok) as Hlq. destruct Hok as (_ & Hr & _).
  unfold adjust_ratio.
  destruct (negb (in_vbr_state q)).
  { exists (qos_ratio q), (adjust_ratio_instant q). destruct q. by eauto. }
  destruct (list_max _) as [d|].
  2: { exists (qos_ratio q), (adjust_ratio_instant q). destruct q. by eauto. }
  set (o1 := if 0 <? bitrate q then Some (fmax _ _) else None).
  set (o2 := if 0 <? bitrate q then Some (fdiv _ _) else None).
  set (v := match o2 with Some r => _ | None => _ end).
  destruct (quality_ratio_ok _ Hlq) as [[Hq1 Hq2] Hmul]. rewrite Hmul.
  destruct (min_ratio_spec (latest_quality q) o1 Hlq) as [Hm1 Hm2].
  assert (is_nan v = false) as Hv.
  { unfold v. pose proof (scaled_ratio_not_nan (qos_ratio q) d dyn Hr).
    destruct o2 as [r|]; [|done]. destruct (_ && _ && _) eqn:E; [|done].
    apply andb_prop in E as [[E _]%andb_prop _]. unfold fgt in E. by apply flt_not_nan in E as [? _]. }
  destruct (fclamp_Some v _ _ Hm2) as [r Hc]. cbn zeta. fold o1 o2 v. rewrite Hc. simpl.
  destruct (fclamp_bounds _ _ _ _ Hv Hc) as [Hr1 Hr2].
  exists r, now. split; [done|]. split; [|by right].
  split; [by apply (fle_trans _ _ _ Hm1)|by apply (fle_trans _ _ _ Hr2)].
Qed.

(** *** Preservation *)

Lemma qos_ok_users q us :
  qos_ok q -> map_Forall (fun _ u => user_ok u) us -> qos_ok (with_users q us).
Proof. intros (H1 & H2 & _) H3. by split_and!. Qed.

Lemma qos_ok_user q id u :
  qos_ok q -> user_ok u -> qos_ok (with_users q (<[id := u]> (users q))).
Proof. intros Hq Hu. apply qos_ok_users; [done|]. apply map_Forall_insert_2; [done|]. apply Hq. Qed.

Lemma qos_ok_fps q f : qos_ok q -> in_fps_range f -> qos_ok (with_fps q f).
Proof. intros (_ & ? & ?) ?. by split_and!. Qed.

Lemma qos_ok_default t : qos_ok (qos_default t).
Proof.
  split; [done|]. split; [by split|]. apply map_Forall_empty.
Qed.

Lemma rtt_update_len r d :
  len (samples r) <= WINDOW_SAMPLES -> len (samples (rtt_update r d)) <= WINDOW_SAMPLES.
Proof.
  intros H. unfold rtt_update. cbn [samples]. rewrite len_app.
  change (len [d]) with 1. unfold WINDOW_SAMPLES in *.
  destruct (Z.leb_spec 60 (len (samples r))); [|lia].
  destruct (samples r); rewrite ?len_cons in *; simpl; [unfold len in *; simpl in *|]; lia.
Qed.

Lemma add_delay_ok u d :
  len (delay_history u) <= HISTORY_DELAY_LEN + 1 ->
  len (samples (rtt_calculator u)) <= WINDOW_SAMPLES ->
  len (delay_history (add_delay u d)) <= HISTORY_DELAY_LEN + 1 /\
  len (samples (rtt_calculator (add_delay u d))) <= WINDOW_SAMPLES.
Proof.
  intros H1 H2. split; [|by apply rtt_update_len]. unfold add_delay. cbn [delay_history].
  rewrite len_app. change (len [d]) with 1. unfold HISTORY_DELAY_LEN in *.
  destruct (Z.ltb_spec 2 (len (delay_history u))); [|lia].
  destruct (delay_history u); rewrite ?len_cons in *; simpl; [unfold len in *; simpl in *|]; lia.
Qed.

Lemma user_lookup_ok q id u : qos_ok q -> users q !! id = Some u -> user_ok u.
Proof. intros (_ & _ & Hu) H. exact (Hu id u H). Qed.

Lemma adjust_fps_ok q now : qos_ok q -> exists q', adjust_fps q now = Some q' /\ qos_ok q'.
Proof.
  intros Hok. destruct (adjust_fps_spec q now Hok) as (f & -> & Hf & _).
  eexists. split; [done|]. by apply qos_ok_fps.
Qed.

Lemma adjust_ratio_ok q dyn now : qos_ok q -> exists q', adjust_ratio q dyn now = Some q' /\ qos_ok q'.
Proof.
  intros Hok. destruct (adjust_ratio_spec q dyn now Hok) as (r & t & -> & Hr & _).
  eexists. split; [done|]. destruct Hok as (? & _ & ?). by split_and!.
Qed.

Lemma user_image_quality_ok q id n time :
  qos_ok q -> exists q', user_image_quality q id n time = Some q' /\ qos_ok q'.
Proof.
  intros Hok. unfold user_image_quality.
  destruct (convert_quality_spec n) as (ql & -> & Hql). simpl.
  destruct (users q !! id) as [u|] eqn:Eu; [|by eexists]. eexists. split; [done|].
  set (u' := mkUserData _ _ _ _ _).
  assert (qos_ok (with_users q (<[id := u']> (users q)))) as Hq'.
  { apply qos_ok_user; [done|]. pose proof (user_lookup_ok _ _ _ Hok Eu) as Hu.
    unfold user_ok in *. simpl. tauto. }
  pose proof (quality_ratio_ok _ (latest_quality_ok _ Hq')) as [Hr _].
  destruct Hq' as (? & _ & ?). by split_and!.
Qed.

Lemma user_network_delay_ok q id d now lin :
  qos_ok q -> exists q', user_network_delay q id d now lin = Some q' /\ qos_ok q'.
Proof.
  intros Hok. destruct (highest_fps_spec q Hok) as (h & Hh & [Hh1 Hh2] & _).
  unfold user_network_delay. rewrite Hh. cbn [mbind option_bind].
  destruct (fps_targets _) as [min_fps normal_fps].
  assert (forall q1 first, qos_ok q1 ->
    exists q', (q ← adjust_fps q1 now;
                if first && negb lin then adjust_ratio q false now else Some q) = Some q' /\ qos_ok q')
    as Htail.
  { intros q1 first H1. destruct (adjust_fps_ok q1 now H1) as (q2 & -> & H2). simpl.
    case_match; [by apply adjust_ratio_ok|by eexists]. }
  destruct (users q !! id) as [u|] eqn:Eu; [|by apply Htail].
  destruct (next_fps _ _ _ _ _ _) as [f quick]. cbn zeta.
  set (inc := if _ <? DELAY_THRESHOLD_150MS then _ else _).
  destruct (if 3 <=? inc then (f + 1, 0) else (f, inc)) as [f2 inc2].
  destruct (uclamp_spec f2 MIN_FPS h Hh1) as (f' & -> & Hf1 & Hf2). cbn [mbind option_bind].
  apply Htail, qos_ok_user; [done|].
  pose proof (user_lookup_ok _ _ _ Hok Eu) as (? & ? & _ & ? & H5 & H6).
  destruct (add_delay_ok (delay u) (Z.max d 10) H5 H6).
  unfold user_ok. simpl. unfold in_fps_range. split_and!; try done; lia.
Qed.

Lemma user_delay_response_elapsed_ok q id e now :
  qos_ok q -> exists q', user_delay_response_elapsed q id e now = Some q' /\ qos_ok q'.
Proof.
  intros Hok. unfold user_delay_response_elapsed.
  destruct (users q !! id) as [u|] eqn:Eu; [|by eexists].
  pose proof (user_lookup_ok _ _ _ Hok Eu) as (? & ? & ? & ? & H5 & H6).
  destruct (2000 <? e).
  - apply adjust_fps_ok, qos_ok_user; [done|]. set (ud := mkUserDelay _ _ _ _ _ _).
    destruct (add_delay_ok ud (u32_of e) H5 H6). unfold user_ok. cbn. by split_and!.
  - eexists. split; [done|]. apply qos_ok_user; [done|]. unfold user_ok. simpl. by split_and!.
Qed.

Lemma update_display_data_ok q name c now :
  qos_ok q -> exists q', update_display_data q name c now = Some q' /\ qos_ok q'.
Proof.
  intros Hok. unfold update_display_data. cbn zeta.
  set (q0 := match displays q !! name with Some d => _ | None => q end).
  assert (qos_ok q0) as H0 by (unfold q0; case_match; [by destruct Hok as (?&?&?); split_and!|done]).
  destruct (adjust_fps_ok q0 now H0) as (q1 & -> & H1). cbn [mbind option_bind].
  destruct (in_vbr_state q1).
  - case_match; [|by eexists]. apply adjust_ratio_ok. by destruct H1 as (?&?&?); split_and!.
  - eexists. split; [done|].
    pose proof (quality_ratio_ok _ (latest_quality_ok _ H1)) as [Hr _].
    by destruct H1 as (?&?&?); split_and!.
Qed.

Lemma apply_op_ok q now o : qos_ok q -> exists q', apply_op q now o = Some q' /\ qos_ok q'.
Proof.
  intros Hok. pose proof Hok as (Hf & Hr & Hu).
  destruct o; simpl; try (by auto using user_image_quality_ok, user_network_delay_ok,
    user_delay_response_elapsed_ok, update_display_data_ok);
    eexists; (split; [done|]).
  - split_and!; [done..|]. apply map_Forall_insert_2; [|done].
    unfold user_ok; simpl. unfold HISTORY_DELAY_LEN, WINDOW_SAMPLES. split_and!; done || (vm_compute; congruence).
  - unfold on_connection_close. case_bool_decide; [apply qos_ok_default|].
    apply qos_ok_users; [done|]. by apply map_Forall_delete.
  - unfold user_custom_fps. destruct (_ || _) eqn:E; [done|]. apply orb_false_iff in E as [??].
    case_match eqn:Eu; [|done]. apply qos_ok_user; [done|].
    pose proof (user_lookup_ok _ _ _ Hok Eu) as Ho. unfold user_ok in *. simpl.
    unfold in_fps_range. rewrite !Z.ltb_ge in *. tauto.
  - unfold user_auto_adjust_fps. destruct (_ || _) eqn:E; [done|]. apply orb_false_iff in E as [??].
    case_match eqn:Eu; [|done]. apply qos_ok_user; [done|].
    pose proof (user_lookup_ok _ _ _ Hok Eu) as Ho. unfold user_ok in *. simpl.
    unfold in_fps_range. rewrite !Z.ltb_ge in *. tauto.
  - unfold user_record. case_match eqn:Eu; [|done]. apply qos_ok_user; [done|].
    pose proof (user_lookup_ok _ _ _ Hok Eu) as Ho. unfold user_ok in *. simpl. tauto.
  - by split_and!.
  - by split_and!.
  - unfold set_support_changing_quality. case_match; [by split_and!|done].
  - by split_and!.
  - unfold ratio. simpl. case_match; [by split_and!|done].
Qed.

Lemma run_ok ops : forall q, qos_ok q -> exists q', run q ops = Some q' /\ qos_ok q'.
Proof.
  induction ops as [|[now o] ops IH]; intros q Hok; simpl; [by eexists|].
  destruct (apply_op_ok q now o Hok) as (q' & -> & Hok'). simpl. by apply IH.
Qed.

(** Frame-rate contract: whatever the delays, [adjust_fps] succeeds and
    sets a frame rate between [MIN_FPS] and what every connected viewer asked
    for (custom and automatic caps), at most two frames per second while some
    viewer does not answer, and at most [INIT_FPS] during the first second
    after a viewer joined; nothing else changes. *)
Theorem adjust_fps_contract q now :
  qos_ok q ->
  exists f, adjust_fps q now = Some (with_fps q f) /\ in_fps_range f /\
    (forall id u, users q !! id = Some u -> f <= user_fps u) /\
    ((exists id u, users q !! id = Some u /\ response_delayed (delay u) = true) -> f <= MIN_FPS + 1) /\
    (as_secs (now - new_user_instant q) < 1 -> f <= INIT_FPS).
Proof. apply adjust_fps_spec. Qed.

(** [C39] Quality control never goes out of range: from the initial state, any
    sequence of connections, disconnections, client settings, delay reports,
    encoder feedback and display changes runs without an assertion failure and
    keeps the frame rate in [1, 120], the bitrate ratio in [0.1, 40], every
    user's settings in their ranges and the sample windows bounded. *)
Theorem qos_invariant t0 ops :
  exists q, run (qos_default t0) ops = Some q /\ qos_ok q.
Proof. apply run_ok, qos_ok_default. Qed.

(** Bitrate contract: [adjust_ratio] succeeds and either leaves the
    bitrate ratio alone or sets one that is in range and no higher than what
    the most recent quality choice of the viewers allows. *)
Theorem adjust_ratio_contract q dyn now :
  qos_ok q ->
  exists q', adjust_ratio q dyn now = Some q' /\ ratio_ok (qos_ratio q') /\
    (qos_ratio q' = qos_ratio q \/
     fle (qos_ratio q') (quality_ratio (latest_quality q)) = true) /\
    users q' = users q /\ qos_fps q' = qos_fps q /\ displays q' = displays q.
Proof.
  intros Hok. destruct (adjust_ratio_spec q dyn now Hok) as (r & t & -> & Hr & Hle).
  eexists. split; [done|]. by split_and!.
Qed.
End Adjust.

Definition sample_qos : VideoQoS :=
  on_connection_open (qos_default 0) 7 "" 0.

Lemma sample_qos_ok : qos_ok sample_qos.
Proof.
  split; [done|]. split; [by split|].
  apply map_Forall_insert_2; [|apply map_Forall_empty].
  unfold user_ok; simpl. split_and!; done || (vm_compute; congruence).
Qed.

Lemma adjust_fps_contract_witness :
  exists f, adjust_fps map_to_list sample_qos 0 = Some (with_fps sample_qos f) /\
    in_fps_range f.
Proof.
  destruct (adjust_fps_contract map_to_list (fun m => Permutation_refl _) sample_qos 0 sample_qos_ok)
    as (f & H1 & H2 & _).
  exists f. split; [exact H1|exact H2].
Defined.

Lemma qos_invariant_witness :
  exists q, run map_to_list (qos_default 0)
      [(0, OpOpen 1 ""); (5, OpQuality 1 12800 9); (7, OpDelay 1 400 false)] = Some q /\ qos_ok q.
Proof. apply (qos_invariant map_to_list (fun m => Permutation_refl _)). Defined.

Lemma adjust_ratio_contract_witness :
  exists q', adjust_ratio map_to_list sample_qos true 0 = Some q' /\ ratio_ok (qos_ratio q').
Proof.
  destruct (adjust_ratio_contract map_to_list (fun m => Permutation_refl _) sample_qos true 0 sample_qos_ok)
    as (q' & H1 & H2 & _).
  exists q'. split; [exact H1|exact H2].
Defined.
