(* ===== verification/PasswordSecurity.v ===== *)
(** * Secrets at rest ([libs/hbb_common/src/password_security.rs])

    Passwords, identifiers and pins are stored as ["00"] followed by base64 of
    a secretbox.  The key is the machine's unique id, with the device public
    key as a fallback; values written by older versions used a zero nonce and
    no format byte.  Strings are their UTF-8 bytes; the nonce of a sealing is
    an argument. *)
From S2P Require Import Prelude Crypto Encoding.

Definition VERSION_LEN : Z := 2.
Definition FORMAT_V1 : byte := Byte.x01.

(** What the code asks of the machine: [get_uuid], [get_existing_key_pair] and
    whether this is an Android or iOS build. *)
Record Machine := mkMachine {
  uuid : bytes;
  existing_pk : option bytes;
  mobile : bool
}.

(** [Vec::resize]. *)
Definition resize (n : Z) (v : bytes) : bytes :=
  takeZ n (v ++ replicate (Z.to_nat n) Byte.x00).

Definition starts_with (v p : bytes) : bool := bool_decide (takeZ (len p) v = p).
Definition strip_prefix (v p : bytes) : option bytes :=
  if starts_with v p then Some (dropZ (len p) v) else None.
Definition is_empty {A} (l : list A) : bool := match l with [] => true | _ => false end.

Definition legacy_nonce : bytes := replicate 24 Byte.x00.

Section Crypt.
Context {SB : Secretbox} {B64 : Base64}.

Definition open_secretbox_payload (data key : bytes) : option bytes :=
  let v1 :=
    if bool_decide (head data = Some FORMAT_V1) && (1 + NONCEBYTES + MACBYTES <=? len data)
    then open (dropZ (1 + NONCEBYTES) data) (takeZ NONCEBYTES (dropZ 1 data)) key
    else None in
  match v1 with
  | Some decrypted => Some decrypted
  | None => open data legacy_nonce key
  end.

Definition symmetric_crypt (m : Machine) (nonce data : bytes) (encrypt : bool) : option bytes :=
  let key := resize KEYBYTES (uuid m) in
  if encrypt then Some (FORMAT_V1 :: nonce ++ seal data nonce key)
  else
    let res := open_secretbox_payload data key in
    match res, existing_pk m with
    | None, Some pk =>
        if negb (mobile m) && negb (bool_decide (pk = uuid m))
        then open_secretbox_payload data (resize KEYBYTES pk)
        else res
    | _, _ => res
    end.

Definition is_encrypted (v : bytes) : bool :=
  if (len v <=? VERSION_LEN) || negb (starts_with v (str "00")) then false
  else
    match b64_decode (dropZ VERSION_LEN v) with
    | Some decoded => MACBYTES <=? len decoded
    | None => false
    end.

Definition encrypt (m : Machine) (nonce v : bytes) : option bytes :=
  if negb (is_empty v) then b64_encode <$> symmetric_crypt m nonce v true else None.

(** Decryption needs no nonce of its own. *)
Definition decrypt (m : Machine) (v : bytes) : option bytes :=
  if negb (is_empty v) then d ← b64_decode v; symmetric_crypt m [] d false else None.

Definition encrypt_str_or_original (m : Machine) (nonce s version : bytes) (max_len : Z) : bytes :=
  if is_encrypted s then s
  else if max_len <? Utf8.chars_count s then []
  else if bool_decide (version = str "00") then
    match encrypt m nonce s with Some e => version ++ e | None => s end
  else s.

Definition decrypt_str_or_original (m : Machine) (s current_version : bytes)
  : bytes * bool * bool :=
  let opened :=
    if (VERSION_LEN <? len s) && starts_with s (str "00")
    then decrypt m (dropZ VERSION_LEN s) else None in
  match opened with
  | Some v => (Utf8.from_utf8_lossy v, true, negb (bool_decide (str "00" = current_version)))
  | None => (s, false, negb (is_empty s) && negb (is_encrypted s))
  end.

Definition encrypt_vec_or_original (m : Machine) (nonce v version : bytes) (max_len : Z) : bytes :=
  if is_encrypted v then v
  else if max_len <? len v then []
  else if bool_decide (version = str "00") then
    match encrypt m nonce v with Some s => version ++ s | None => v end
  else v.

Definition decrypt_vec_or_original (m : Machine) (v current_version : bytes)
  : bytes * bool * bool :=
  let version := Utf8.from_utf8_lossy (takeZ VERSION_LEN v) in
  let opened :=
    if (VERSION_LEN <? len v) && bool_decide (version = str "00")
    then decrypt m (dropZ VERSION_LEN v) else None in
  match opened with
  | Some d => (d, true, negb (bool_decide (version = current_version)))
  | None => (v, false, negb (is_empty v) && negb (is_encrypted v))
  end.

(** ** Lemmas *)
Context {SBL : SecretboxLaws} {B64L : Base64Laws}.

Lemma open_payload_seal v nonce key : len nonce = NONCEBYTES ->
  open_secretbox_payload (FORMAT_V1 :: nonce ++ seal v nonce key) key = Some v.
Proof.
  intros Hn. unfold open_secretbox_payload. rewrite bool_decide_true by done.
  rewrite len_cons, len_app, seal_len.
  rewrite (proj2 (Z.leb_le _ _)) by (pose proof (len_nonneg v); lia). simpl andb. cbv iota.
  change (dropZ 1 (FORMAT_V1 :: nonce ++ seal v nonce key)) with (nonce ++ seal v nonce key).
  change (FORMAT_V1 :: nonce ++ seal v nonce key) with ((FORMAT_V1 :: nonce) ++ seal v nonce key).
  rewrite dropZ_app_len by (rewrite len_cons; lia).
  rewrite takeZ_app_len by done. by rewrite open_seal.
Qed.

Lemma symmetric_roundtrip m nonce nonce' v : len nonce = NONCEBYTES ->
  exists e, symmetric_crypt m nonce v true = Some e /\
    len e = 1 + NONCEBYTES + MACBYTES + len v /\
    forall pk mb, symmetric_crypt (mkMachine (uuid m) pk mb) nonce' e false = Some v.
Proof.
  intros Hn. eexists. split; [reflexivity|]. split.
  { rewrite len_cons, len_app, seal_len. lia. }
  intros pk mb. unfold symmetric_crypt. simpl uuid. by rewrite open_payload_seal.
Qed.

Lemma starts_with_app p v : starts_with (p ++ v) p = true.
Proof. unfold starts_with. rewrite takeZ_app_len by done. by apply bool_decide_true. Qed.

Lemma strip_prefix_app p v : strip_prefix (p ++ v) p = Some v.
Proof. unfold strip_prefix. rewrite starts_with_app. by rewrite dropZ_app_len. Qed.

Lemma b64_nonempty v : v <> [] -> 4 <= len (b64_encode v).
Proof.
  intros Hv. rewrite b64_encode_len. assert (1 <= len v).
  { destruct v; [done|]. rewrite len_cons. pose proof (len_nonneg v). lia. }
  Z.div_mod_to_equations; lia.
Qed.

Lemma is_encrypted_b64 e : MACBYTES <= len e -> is_encrypted (str "00" ++ b64_encode e) = true.
Proof.
  intros He. unfold is_encrypted. rewrite starts_with_app, len_app.
  assert (e <> []) as Hne by (intros ->; rewrite len_nil in He; unfold MACBYTES in He; lia).
  pose proof (b64_nonempty e Hne) as Hl.
  rewrite (proj2 (Z.leb_gt _ _)) by (change (len (str "00")) with 2; unfold VERSION_LEN; lia).
  simpl orb. cbv iota. rewrite dropZ_app_len by done. rewrite b64_decode_encode.
  by apply Z.leb_le.
Qed.

(** Decrypting ["00" ++ base64] runs the secretbox on the decoded payload. *)
Lemma decrypt_b64 m e : e <> [] -> decrypt m (b64_encode e) = symmetric_crypt m [] e false.
Proof.
  intros He. unfold decrypt. pose proof (b64_nonempty e He) as Hl.
  destruct (b64_encode e) eqn:E; [rewrite len_nil in Hl; lia|]. simpl negb. cbv iota.
  by rewrite <- E, b64_decode_encode.
Qed.

Lemma len_stored e : e <> [] -> (VERSION_LEN <? len (str "00" ++ b64_encode e)) = true.
Proof.
  intros He. rewrite len_app. pose proof (b64_nonempty e He).
  apply Z.ltb_lt. change (len (str "00")) with 2. unfold VERSION_LEN. lia.
Qed.

Lemma decrypt_str_stored m e cur : e <> [] ->
  decrypt_str_or_original m (str "00" ++ b64_encode e) cur =
  match symmetric_crypt m [] e false with
  | Some v => (Utf8.from_utf8_lossy v, true, negb (bool_decide (str "00" = cur)))
  | None => (str "00" ++ b64_encode e, false, negb (is_encrypted (str "00" ++ b64_encode e)))
  end.
Proof.
  intros He. unfold decrypt_str_or_original. rewrite starts_with_app, len_stored by done.
  simpl andb. cbv iota. rewrite dropZ_app_len by done. by rewrite decrypt_b64 by done.
Qed.

Lemma decrypt_vec_stored m e cur : e <> [] ->
  decrypt_vec_or_original m (str "00" ++ b64_encode e) cur =
  match symmetric_crypt m [] e false with
  | Some v => (v, true, negb (bool_decide (str "00" = cur)))
  | None => (str "00" ++ b64_encode e, false, negb (is_encrypted (str "00" ++ b64_encode e)))
  end.
Proof.
  intros He. unfold decrypt_vec_or_original. rewrite len_stored by done.
  rewrite takeZ_app_len by done. change (Utf8.from_utf8_lossy (str "00")) with (str "00").
  rewrite bool_decide_true by done. simpl andb. cbv iota.
  rewrite dropZ_app_len by done. by rewrite decrypt_b64 by done.
Qed.

(** What [encrypt_*_or_original] stores. *)
Lemma encrypt_stored m nonce v : len nonce = NONCEBYTES -> v <> [] ->
  exists e, encrypt m nonce v = Some (b64_encode e) /\ e <> [] /\ MACBYTES <= len e /\
    forall pk mb, symmetric_crypt (mkMachine (uuid m) pk mb) [] e false = Some v.
Proof.
  intros Hn Hv. destruct (symmetric_roundtrip m nonce [] v Hn) as (e & He & Hl & Hd).
  exists e. unfold encrypt. destruct v; [done|]. simpl negb. cbv iota. rewrite He. simpl.
  pose proof (len_nonneg (b :: v)). unfold NONCEBYTES, MACBYTES in *.
  repeat split; [|lia|done]. intros ->. rewrite len_nil in Hl. lia.
Qed.

Lemma encrypt_vec_stored m nonce v max :
  len nonce = NONCEBYTES -> v <> [] -> is_encrypted v = false -> len v <= max ->
  exists e, encrypt_vec_or_original m nonce v (str "00") max = str "00" ++ b64_encode e /\
    e <> [] /\ MACBYTES <= len e /\
    forall pk mb, symmetric_crypt (mkMachine (uuid m) pk mb) [] e false = Some v.
Proof.
  intros Hn Hv Hp Hm. destruct (encrypt_stored m nonce v Hn Hv) as (e & He & Hne & Hl & Hd).
  exists e. unfold encrypt_vec_or_original. rewrite Hp, He.
  rewrite (proj2 (Z.ltb_ge _ _)), bool_decide_true by done. done.
Qed.

Lemma encrypt_str_stored m nonce v max :
  len nonce = NONCEBYTES -> v <> [] -> is_encrypted v = false -> Utf8.chars_count v <= max ->
  exists e, encrypt_str_or_original m nonce v (str "00") max = str "00" ++ b64_encode e /\
    e <> [] /\ MACBYTES <= len e /\
    forall pk mb, symmetric_crypt (mkMachine (uuid m) pk mb) [] e false = Some v.
Proof.
  intros Hn Hv Hp Hm. destruct (encrypt_stored m nonce v Hn Hv) as (e & He & Hne & Hl & Hd).
  exists e. unfold encrypt_str_or_original. rewrite Hp, He.
  rewrite (proj2 (Z.ltb_ge _ _)), bool_decide_true by done. done.
Qed.

(** Secrets survive storage: a nonempty secret within the length limit
    that does not itself look encrypted is stored as an encrypted value, read
    back unchanged on the same machine (whatever key pair exists by then), not
    scheduled for re-encryption under the same version, and encrypting the
    stored value again is the identity.  This holds for byte secrets and for
    valid UTF-8 strings. *)
Theorem secret_roundtrip m nonce nonce' v max pk mb :
  len nonce = NONCEBYTES -> v <> [] -> is_encrypted v = false -> len v <= max ->
  let m' := mkMachine (uuid m) pk mb in
  let e := encrypt_vec_or_original m nonce v (str "00") max in
  let es := encrypt_str_or_original m nonce v (str "00") max in
  (is_encrypted e = true /\ decrypt_vec_or_original m' e (str "00") = (v, true, false) /\
   encrypt_vec_or_original m' nonce' e (str "00") max = e) /\
  (Utf8.valid v = true ->
   is_encrypted es = true /\ decrypt_str_or_original m' es (str "00") = (v, true, false) /\
   encrypt_str_or_original m' nonce' es (str "00") max = es).
Proof.
  intros Hn Hv Hp Hm m' e es. subst m'. split.
  - destruct (encrypt_vec_stored m nonce v max Hn Hv Hp Hm) as (x & Ex & Hne & Hl & Hd).
    subst e. rewrite Ex. pose proof (is_encrypted_b64 x Hl) as Hi. split; [done|].
    rewrite decrypt_vec_stored, Hd by done. split; [done|].
    unfold encrypt_vec_or_original. by rewrite Hi.
  - intros Hu. assert (Utf8.chars_count v <= max) as Hc by (pose proof (Utf8.chars_count_le v); lia).
    destruct (encrypt_str_stored m nonce v max Hn Hv Hp Hc) as (x & Ex & Hne & Hl & Hd).
    subst es. rewrite Ex. pose proof (is_encrypted_b64 x Hl) as Hi. split; [done|].
    rewrite decrypt_str_stored, Hd, Utf8.from_utf8_lossy_valid by done. split; [done|].
    unfold encrypt_str_or_original. by rewrite Hi.
Qed.

(** Old values stay readable.  On a desktop whose unique id is available
    again, a value sealed under the device public key (the unique id could not
    be read then) is opened by the fallback, in the current format and in the
    legacy zero-nonce format; a legacy value sealed under the unique id is
    opened too.  The hypotheses say that the attempts that come first fail,
    as they do for a ciphertext made under another key. *)
Theorem legacy_values_readable m pk v nonce cur :
  mobile m = false -> existing_pk m = Some pk -> pk <> uuid m -> len nonce = NONCEBYTES ->
  let uk := resize KEYBYTES (uuid m) in
  let pkk := resize KEYBYTES pk in
  let v1 := FORMAT_V1 :: nonce ++ seal v nonce pkk in
  let old k := seal v legacy_nonce k in
  open_secretbox_payload v1 uk = None ->
  open_secretbox_payload (old pkk) uk = None ->
  head (old pkk) <> Some FORMAT_V1 -> head (old uk) <> Some FORMAT_V1 ->
  forall e, e ∈ [v1; old pkk; old uk] ->
  decrypt_vec_or_original m (str "00" ++ b64_encode e) cur = (v, true, negb (bool_decide (str "00" = cur))).
Proof.
  intros Hm Hpk Hne Hn uk pkk v1 old F1 F2 H1 H2 e He.
  assert (forall k, head (old k) <> Some FORMAT_V1 -> open_secretbox_payload (old k) k = Some v) as Hold.
  { intros k Hk. unfold open_secretbox_payload. rewrite bool_decide_false by done. apply open_seal. }
  assert (e <> [] /\ symmetric_crypt m [] e false = Some v) as [Hnil Hd].
  { unfold symmetric_crypt. fold uk. rewrite Hm, Hpk, bool_decide_false by done.
    rewrite !elem_of_cons in He. destruct He as [->|[->|[->|He]]]; [..|by apply elem_of_nil in He].
    - split; [done|]. rewrite F1. by apply open_payload_seal.
    - split; [|by rewrite F2; apply Hold]. intros E. pose proof (seal_len v legacy_nonce pkk) as L.
      fold (old pkk) in L. rewrite E, len_nil in L. pose proof (len_nonneg v). unfold MACBYTES in L. lia.
    - split; [|by rewrite (Hold uk H2)]. intros E. pose proof (seal_len v legacy_nonce uk) as L.
      fold (old uk) in L. rewrite E, len_nil in L. pose proof (len_nonneg v). unfold MACBYTES in L. lia. }
  by rewrite decrypt_vec_stored, Hd.
Qed.
End Crypt.

#[local] Existing Instances Toy.secretbox Toy.secretbox_laws Rfc4648.base64 Rfc4648.base64_laws.

Definition desktop : Machine := mkMachine (str "machine-1") (Some (str "public-key")) false.

Lemma secret_roundtrip_witness :
  let n := replicate 24 Byte.x07 in let v := str "correct horse" in
  decrypt_str_or_original desktop
    (encrypt_str_or_original (mkMachine (str "machine-1") None true) n v (str "00") 128)
    (str "00") = (v, true, false).
Proof.
  intros n v.
  refine (proj1 (proj2 (proj2 (secret_roundtrip (mkMachine (str "machine-1") None true) n n v 128
    (Some (str "public-key")) false _ _ _ _) _))); vm_compute; congruence.
Defined.

Lemma legacy_values_readable_witness :
  let pkk := resize KEYBYTES (str "public-key") in
  decrypt_vec_or_original desktop
    (str "00" ++ b64_encode (seal (str "pw") legacy_nonce pkk)) (str "00") = (str "pw", true, false).
Proof.
  intros pkk.
  apply (legacy_values_readable desktop (str "public-key") (str "pw") (replicate 24 Byte.x07) (str "00"));
    try (vm_compute; congruence).
  right. left.
Defined.
