(* ===== verification/PermanentPassword.v ===== *)
(** * The permanent password in the configuration
    ([libs/hbb_common/src/config/permanent_password.rs], [config.rs])

    The permanent password is kept as a salted SHA-256 digest, wrapped in the
    machine-bound encryption of [PasswordSecurity] under the prefix ["01"].
    [World] holds the in-memory [CONFIG], the file it is persisted to and the
    built-in settings; random characters and nonces are arguments. *)
From S2P Require Import Prelude Crypto Encoding PasswordSecurity.

Definition PASSWORD_ENC_VERSION : bytes := str "00".
Definition PERMANENT_PASSWORD_ENC_VERSION : bytes := str "01".
Definition PERMANENT_PASSWORD_HASH_PREFIX : bytes := str "00".
Definition HBBS_PRESET_PASSWORD_HASH_PREFIX : bytes := str "00".
Definition PERMANENT_PASSWORD_H1_LEN : Z := 32.
Definition DEFAULT_SALT_LEN : Z := 32.
Definition ENCRYPT_MAX_LEN : Z := 128.

Definition NUM_CHARS : bytes := str "0123456789".
Definition CHARS : bytes := str "23456789abcdefghijkmnpqrstuvwxyz".

(** One [usize] draw per character. *)
Definition get_auto_password_with_chars (draws : list Z) (chars : bytes) : bytes :=
  List.map (fun r => nth (Z.to_nat (r mod len chars)) chars Byte.x00) draws.
Definition get_auto_password (draws : list Z) : bytes := get_auto_password_with_chars draws CHARS.
Definition get_auto_numeric_password (draws : list Z) : bytes :=
  get_auto_password_with_chars draws NUM_CHARS.

(** [sha2::Sha256] over the concatenation of the updates. *)
Class Sha256 := { sha256 : bytes -> bytes }.
Class Sha256Laws `{Sha256} := { sha256_len v : len (sha256 v) = 32 }.

Record Config := mkConfig {
  id : bytes;
  enc_id : bytes;
  password : bytes;
  salt : bytes;
  key_pair : bytes * bytes;
  key_confirmed : bool;
  keys_confirmed : gmap bytes bool
}.
Definition config_default : Config := mkConfig [] [] [] [] ([], []) false ∅.

Definition with_id (c : Config) v :=
  mkConfig v (enc_id c) (password c) (salt c) (key_pair c) (key_confirmed c) (keys_confirmed c).
Definition with_enc_id (c : Config) v :=
  mkConfig (id c) v (password c) (salt c) (key_pair c) (key_confirmed c) (keys_confirmed c).
Definition with_password (c : Config) v :=
  mkConfig (id c) (enc_id c) v (salt c) (key_pair c) (key_confirmed c) (keys_confirmed c).
Definition with_salt (c : Config) v :=
  mkConfig (id c) (enc_id c) (password c) v (key_pair c) (key_confirmed c) (keys_confirmed c).

(** A device that may skip the second factor. *)
Record TrustedDevice := mkTrustedDevice {
  hwid : bytes;
  time : Z;
  device_id : bytes;
  device_name : bytes;
  device_platform : bytes
}.

(** Ninety days; [now] is [get_time()] in milliseconds. *)
Definition outdate (now : Z) (d : TrustedDevice) : bool :=
  i64_of (time d + 90 * 24 * 60 * 60 * 1000) <? now.

(** [CONFIG], its file (kept when a write fails), [HARD_SETTINGS],
    [BUILTIN_SETTINGS] and [TRUSTED_DEVICES]. *)
Record World := mkWorld {
  config : Config;
  file : Config;
  writable : bool;
  hard_settings : gmap bytes bytes;
  builtin_settings : gmap bytes bytes;
  trusted_devices : list TrustedDevice
}.
Definition with_config (w : World) c :=
  mkWorld c (file w) (writable w) (hard_settings w) (builtin_settings w) (trusted_devices w).
Definition with_trusted_devices (w : World) ds :=
  mkWorld (config w) (file w) (writable w) (hard_settings w) (builtin_settings w) ds.
Definition clear_trusted_devices (w : World) :=
  mkWorld (config w) (file w) (writable w) (hard_settings w) (builtin_settings w) [].

Definition store_ (w : World) (c : Config) : World :=
  mkWorld (config w) (if writable w then c else file w) (writable w) (hard_settings w)
    (builtin_settings w) (trusted_devices w).

Section Storage.
Context {SB : Secretbox} {B64 : Base64} {SHA : Sha256}.
(** [m] is the machine, see [PasswordSecurity]. *)
Context (m : Machine).

Definition compute_permanent_password_h1 (password salt : bytes) : bytes := sha256 (password ++ salt).

Definition encode_permanent_password_storage_from_h1 (h1 : bytes) : bytes :=
  PERMANENT_PASSWORD_HASH_PREFIX ++ b64_encode h1.

Definition decode_password_h1_after_prefix (storage prefix : bytes) : option bytes :=
  encoded ← strip_prefix storage prefix;
  v ← b64_decode encoded;
  if negb (len v =? PERMANENT_PASSWORD_H1_LEN) then None else Some v.

Definition decode_permanent_password_h1_from_hashed_storage (storage : bytes) : option bytes :=
  decode_password_h1_after_prefix storage PERMANENT_PASSWORD_HASH_PREFIX.

Definition encrypt_permanent_password_storage (nonce storage : bytes) : option bytes :=
  if ENCRYPT_MAX_LEN <? Utf8.chars_count storage then None
  else
    encrypted ← symmetric_crypt m nonce storage true;
    Some (PERMANENT_PASSWORD_ENC_VERSION ++ b64_encode encrypted).

Definition encode_permanent_password_encrypted_storage_from_h1 (nonce h1 : bytes) : option bytes :=
  encrypt_permanent_password_storage nonce (encode_permanent_password_storage_from_h1 h1).

Definition decrypt_permanent_password_str_or_original (storage : bytes) : bytes * bool * bool :=
  let opened :=
    if (VERSION_LEN <? len storage) && starts_with storage PERMANENT_PASSWORD_ENC_VERSION
    then decoded ← b64_decode (dropZ VERSION_LEN storage); symmetric_crypt m [] decoded false
    else None in
  match opened with
  | Some v => (Utf8.from_utf8_lossy v, true, false)
  | None => (storage, false, negb (is_empty storage))
  end.

Definition decode_permanent_password_h1_from_storage (storage : bytes) : option bytes :=
  if starts_with storage PERMANENT_PASSWORD_ENC_VERSION then
    let '(hashed_storage, decrypted, _) := decrypt_permanent_password_str_or_original storage in
    if negb decrypted then None
    else decode_permanent_password_h1_from_hashed_storage hashed_storage
  else None.

Definition decode_preset_password_h1_from_storage (storage : bytes) : option bytes :=
  decode_password_h1_after_prefix storage HBBS_PRESET_PASSWORD_HASH_PREFIX.

Definition is_some {A} (o : option A) : bool := match o with Some _ => true | None => false end.

Definition local_permanent_password_storage_is_usable_for_auth (storage salt : bytes) : bool :=
  if is_empty storage then false
  else if is_some (decode_permanent_password_h1_from_storage storage) then negb (is_empty salt)
  else if starts_with storage PERMANENT_PASSWORD_ENC_VERSION
          && (decrypt_permanent_password_str_or_original storage).1.2 then false
  else
    let '(_, decrypted, looks_like_plaintext) :=
      decrypt_str_or_original m storage PASSWORD_ENC_VERSION in
    negb (starts_with storage PASSWORD_ENC_VERSION && negb decrypted && negb looks_like_plaintext).

Definition preset_permanent_password_storage_is_usable_for_auth (storage salt : bytes) : bool :=
  if is_empty storage then false
  else if is_empty salt then true
  else is_some (decode_preset_password_h1_from_storage storage).

Definition preset_permanent_password_storage_matches_plain (storage salt input : bytes) : bool :=
  if is_empty storage || is_empty input then false
  else if is_empty salt then bool_decide (storage = input)
  else
    match decode_preset_password_h1_from_storage storage with
    | None => false
    | Some stored_h1 => bool_decide (compute_permanent_password_h1 input salt = stored_h1)
    end.

Definition password_is_empty_or_not_hashed (storage : bytes) : bool :=
  if is_empty storage then true
  else if is_some (decode_permanent_password_h1_from_storage storage) then false
  else if starts_with storage PERMANENT_PASSWORD_ENC_VERSION then false
  else
    let '(_, decrypted, looks_like_plaintext) :=
      decrypt_str_or_original m storage PASSWORD_ENC_VERSION in
    decrypted || looks_like_plaintext.

(** ** Persistence *)

Definition keep_encrypted_storage_if_plaintext_unchanged (nonce plain stored : bytes) : bytes :=
  let '(stored_plain, encrypted, _) := decrypt_str_or_original m stored PASSWORD_ENC_VERSION in
  if encrypted && bool_decide (stored_plain = plain) then stored
  else encrypt_str_or_original m nonce plain PASSWORD_ENC_VERSION ENCRYPT_MAX_LEN.

Definition ensure_permanent_password_hash_salt (c : Config) : result unit string :=
  if is_empty (salt c)
  then Err "Permanent password hash storage requires a non-empty salt"%string
  else Ok tt.

Definition ensure_permanent_password_salt (draws : list Z) (c : Config) : Config :=
  if is_empty (salt c) then with_salt c (get_auto_password draws) else c.

Definition validate_or_decrypt_permanent_password_storage (c : Config) : result Config string :=
  if is_empty (password c) then Ok c
  else if starts_with (password c) PASSWORD_ENC_VERSION then
    let '(plain, decrypted, should_store) :=
      decrypt_str_or_original m (password c) PASSWORD_ENC_VERSION in
    if decrypted then Ok (with_password c plain)
    else if negb should_store
    then Err "Invalid permanent password encrypted hash storage"%string
    else Ok c
  else
    let '(decrypted_storage, decrypted, _) :=
      decrypt_permanent_password_str_or_original (password c) in
    if decrypted then
      let? _ := ensure_permanent_password_hash_salt c in
      if is_some (decode_permanent_password_h1_from_hashed_storage decrypted_storage) then Ok c
      else Err "Invalid permanent password encrypted hash storage"%string
    else Ok c.

Definition prepare_config_for_store (c : Config) : Config :=
  match validate_or_decrypt_permanent_password_storage c with
  | Ok c => c
  | Err _ => with_salt (with_password c []) []
  end.

(** [n1] and [n2] are the nonces of the two encryptions a write may need. *)
Definition store (w : World) (c : Config) (n1 n2 : bytes) : World :=
  let c := prepare_config_for_store c in
  let c :=
    if negb (is_empty (password c))
       && negb (is_some (decode_permanent_password_h1_from_storage (password c)))
    then with_password c
           (keep_encrypted_storage_if_plaintext_unchanged n1 (password c) (password (file w)))
    else c in
  let '(stored_id, encrypted, _) := decrypt_str_or_original m (enc_id c) PASSWORD_ENC_VERSION in
  let c :=
    if negb encrypted || negb (bool_decide (stored_id = id c))
    then with_enc_id c (encrypt_str_or_original m n2 (id c) PASSWORD_ENC_VERSION ENCRYPT_MAX_LEN)
    else c in
  store_ w (with_id c []).

(** The first generated id of three attempts, if any. *)
Definition first_id (gen : list (option bytes)) : option bytes :=
  head (omap (fun o => o) (take 3 gen)).

(** The id of a loaded configuration: is it valid, and must it be stored? *)
Definition check_id (c : Config) : Config * bool * bool :=
  let '(id', encrypted, store2) := decrypt_str_or_original m (enc_id c) PASSWORD_ENC_VERSION in
  if encrypted then (with_id c id', true, store2)
  else if negb (is_empty (id c)) && is_empty (enc_id c)
          && negb (decrypt_str_or_original m (id c) PASSWORD_ENC_VERSION).1.2
  then (c, true, true)
  else (c, false, false).

Definition ensure_id (gen : list (option bytes)) (x : Config * bool * bool) : Config * bool :=
  let '(c, id_valid, st) := x in
  if id_valid then (c, st)
  else match first_id gen with Some i => (with_id c i, true) | None => (c, st) end.

(** [Config::load]; [gen] are the outcomes of [gen_id]. *)
Definition load (w : World) (gen : list (option bytes)) (n1 n2 : bytes) : World :=
  let c := match validate_or_decrypt_permanent_password_storage (file w) with
           | Ok c => c | Err _ => file w end in
  let '(c, st) := ensure_id gen (check_id c) in
  let w := if st then store w c n1 n2 else w in
  with_config w c.

(** ** Operations on [CONFIG] *)

Definition is_disable_change_permanent_password (w : World) : bool :=
  match builtin_settings w !! str "disable-change-permanent-password" with
  | Some v => bool_decide (v = str "Y")
  | None => false
  end.

Definition get_preset_password_storage_and_salt (w : World) : bytes * bytes :=
  (default [] (hard_settings w !! str "password"), default [] (hard_settings w !! str "salt")).

Definition get_local_permanent_password_storage_and_salt (w : World) : bytes * bytes :=
  (password (config w), salt (config w)).

Definition compute_permanent_password_storage_for_update (draws : list Z) (nonce : bytes)
  (c : Config) (pw : bytes) : option bytes * Config :=
  let c := ensure_permanent_password_salt draws c in
  (encode_permanent_password_encrypted_storage_from_h1 nonce
     (compute_permanent_password_h1 pw (salt c)), c).

Definition set_permanent_password (w : World) (pw : bytes) (draws : list Z) (nonce n1 n2 : bytes)
  : bool * World :=
  if is_disable_change_permanent_password w then (false, w)
  else
    let '(preset_storage, preset_salt) := get_preset_password_storage_and_salt w in
    if preset_permanent_password_storage_matches_plain preset_storage preset_salt pw
       && is_empty (password (config w)) then (true, w)
    else
      let '(stored, c) :=
        if is_empty pw then (Some [], config w)
        else compute_permanent_password_storage_for_update draws nonce (config w) pw in
      let w := with_config w c in
      match stored with
      | None => (false, w)
      | Some stored =>
          if bool_decide (stored = password c) then (true, w)
          else
            let c := with_password c stored in
            (true, clear_trusted_devices (store (with_config w c) c n1 n2))
      end.

Definition apply_permanent_password_storage_for_sync (c : Config) (storage slt : bytes)
  : result (bool * Config) string :=
  if is_empty storage then
    if is_empty (password c) && (is_empty slt || bool_decide (salt c = slt)) then Ok (false, c)
    else
      let c := with_password c [] in
      Ok (true, if negb (is_empty slt) then with_salt c slt else c)
  else if is_empty slt then
    Err "Refusing to persist permanent password storage without salt"%string
  else if negb (is_some (decode_permanent_password_h1_from_storage storage)) then
    Err "Invalid permanent password storage sync payload"%string
  else if bool_decide (password c = storage) && bool_decide (salt c = slt) then Ok (false, c)
  else Ok (true, with_salt (with_password c storage) slt).

Definition set_permanent_password_storage_for_sync (w : World) (storage slt n1 n2 : bytes)
  : result bool string * World :=
  match apply_permanent_password_storage_for_sync (config w) storage slt with
  | Err e => (Err e, w)
  | Ok (false, c) => (Ok false, with_config w c)
  | Ok (true, c) => (Ok true, clear_trusted_devices (store (with_config w c) c n1 n2))
  end.

Definition has_usable_preset_password (w : World) : bool :=
  let '(storage, slt) := get_preset_password_storage_and_salt w in
  preset_permanent_password_storage_is_usable_for_auth storage slt.

Definition has_permanent_password (w : World) : bool :=
  let '(storage, slt) := get_local_permanent_password_storage_and_salt w in
  if negb (is_empty storage) then local_permanent_password_storage_is_usable_for_auth storage slt
  else has_usable_preset_password w.

Definition is_using_preset_password (w : World) : bool :=
  is_empty (get_local_permanent_password_storage_and_salt w).1 && has_usable_preset_password w.

Definition has_local_permanent_password (w : World) : bool :=
  let '(storage, slt) := get_local_permanent_password_storage_and_salt w in
  local_permanent_password_storage_is_usable_for_auth storage slt.

Definition set_salt (w : World) (slt n1 n2 : bytes) : World :=
  let c := config w in
  if bool_decide (slt = salt c) then w
  else if negb (password_is_empty_or_not_hashed (password c)) && negb (is_empty (salt c)) then w
  else
    let c := with_salt c slt in
    store (with_config w c) c n1 n2.

Definition get_salt (w : World) (draws : list Z) (n1 n2 : bytes) : bytes * World :=
  if is_empty (salt (config w)) then
    let slt := get_auto_password draws in (slt, set_salt w slt n1 n2)
  else (salt (config w), w).

Definition get_effective_permanent_password_salt (w : World) (draws : list Z) (n1 n2 : bytes)
  : bytes * World :=
  let '(local_storage, local_salt) := get_local_permanent_password_storage_and_salt w in
  if negb (is_empty local_storage) then
    if local_permanent_password_storage_is_usable_for_auth local_storage local_salt
    then get_salt w draws n1 n2
    else ([], w)
  else
    let '(preset_storage, preset_salt) := get_preset_password_storage_and_salt w in
    if negb (is_empty preset_salt) then
      if preset_permanent_password_storage_is_usable_for_auth preset_storage preset_salt
      then (preset_salt, w)
      else ([], w)
    else get_salt w draws n1 n2.

(** ** The stored form *)
Context {SBL : SecretboxLaws} {B64L : Base64Laws} {SHAL : Sha256Laws}.

Lemma b64_len_32 h1 : len h1 = 32 -> len (b64_encode h1) = 44.
Proof. intros H. by rewrite b64_encode_len, H. Qed.

Lemma hashed_storage_valid h1 : Utf8.valid (encode_permanent_password_storage_from_h1 h1) = true.
Proof.
  apply Utf8.ascii_valid. unfold encode_permanent_password_storage_from_h1, Utf8.ascii.
  apply Forall_app. split; [by repeat constructor|apply b64_encode_ascii].
Qed.

Lemma decode_hashed h1 : len h1 = 32 ->
  decode_permanent_password_h1_from_hashed_storage
    (encode_permanent_password_storage_from_h1 h1) = Some h1.
Proof.
  intros H. unfold decode_permanent_password_h1_from_hashed_storage, decode_password_h1_after_prefix,
    encode_permanent_password_storage_from_h1.
  rewrite strip_prefix_app. simpl. rewrite b64_decode_encode. simpl. by rewrite H.
Qed.

Lemma decrypt_permanent_stored e : e <> [] ->
  decrypt_permanent_password_str_or_original (PERMANENT_PASSWORD_ENC_VERSION ++ b64_encode e) =
  match symmetric_crypt m [] e false with
  | Some v => (Utf8.from_utf8_lossy v, true, false)
  | None => (PERMANENT_PASSWORD_ENC_VERSION ++ b64_encode e, false, true)
  end.
Proof.
  intros He. unfold decrypt_permanent_password_str_or_original.
  rewrite starts_with_app, len_app. pose proof (b64_nonempty e He).
  rewrite (proj2 (Z.ltb_lt _ _))
    by (change (len PERMANENT_PASSWORD_ENC_VERSION) with 2; unfold VERSION_LEN; lia).
  simpl andb. cbv iota. rewrite dropZ_app_len by done. by rewrite b64_decode_encode.
Qed.

(** The storage written for a digest exists and decodes to that digest. *)
Lemma encode_encrypted_spec nonce h1 : len nonce = NONCEBYTES -> len h1 = 32 ->
  exists e, encode_permanent_password_encrypted_storage_from_h1 nonce h1
              = Some (PERMANENT_PASSWORD_ENC_VERSION ++ b64_encode e) /\
    decrypt_permanent_password_str_or_original (PERMANENT_PASSWORD_ENC_VERSION ++ b64_encode e)
      = (encode_permanent_password_storage_from_h1 h1, true, false) /\
    decode_permanent_password_h1_from_storage (PERMANENT_PASSWORD_ENC_VERSION ++ b64_encode e)
      = Some h1.
Proof.
  intros Hn Hh.
  destruct (symmetric_roundtrip m nonce [] (encode_permanent_password_storage_from_h1 h1) Hn)
    as (e & He & Hl & Hd).
  assert (e <> []) as Hne.
  { intros ->. rewrite len_nil in Hl.
    pose proof (len_nonneg (encode_permanent_password_storage_from_h1 h1)).
    unfold NONCEBYTES, MACBYTES in Hl. lia. }
  specialize (Hd (existing_pk m) (mobile m)).
  replace (mkMachine _ _ _) with m in Hd by (by destruct m).
  assert (decrypt_permanent_password_str_or_original (PERMANENT_PASSWORD_ENC_VERSION ++ b64_encode e)
      = (encode_permanent_password_storage_from_h1 h1, true, false)) as Hdec.
  { rewrite decrypt_permanent_stored, Hd by done.
    by rewrite Utf8.from_utf8_lossy_valid by apply hashed_storage_valid. }
  exists e. split; [|split; [done|]].
  - unfold encode_permanent_password_encrypted_storage_from_h1, encrypt_permanent_password_storage.
    rewrite (proj2 (Z.ltb_ge _ _)); [by rewrite He|].
    pose proof (Utf8.chars_count_le (encode_permanent_password_storage_from_h1 h1)) as Hc.
    unfold encode_permanent_password_storage_from_h1 in *. rewrite len_app, b64_len_32 in Hc by done.
    change (len PERMANENT_PASSWORD_HASH_PREFIX) with 2 in Hc. unfold ENCRYPT_MAX_LEN. lia.
  - unfold decode_permanent_password_h1_from_storage. rewrite starts_with_app, Hdec.
    simpl negb. cbv iota. by apply decode_hashed.
Qed.

(** A configuration is sound when the permanent password is unset or a digest
    together with the salt it was computed with. *)
Definition sound (c : Config) : Prop :=
  password c = [] \/
  (is_some (decode_permanent_password_h1_from_storage (password c)) = true /\ salt c <> []).
Definition sound_world (w : World) : Prop := sound (config w) /\ sound (file w).

Lemma decoded_prefix s : is_some (decode_permanent_password_h1_from_storage s) = true ->
  starts_with s PERMANENT_PASSWORD_ENC_VERSION = true /\
  starts_with s PASSWORD_ENC_VERSION = false /\ s <> [] /\
  exists i b, decrypt_permanent_password_str_or_original s = (i, true, b) /\
    is_some (decode_permanent_password_h1_from_hashed_storage i) = true.
Proof.
  unfold decode_permanent_password_h1_from_storage.
  destruct (starts_with s PERMANENT_PASSWORD_ENC_VERSION) eqn:E; [|done].
  intros H. split; [done|]. unfold starts_with in *. apply bool_decide_eq_true in E.
  split; [apply bool_decide_eq_false; intros E2; change (len PASSWORD_ENC_VERSION)
    with (len PERMANENT_PASSWORD_ENC_VERSION) in E2; rewrite E in E2; discriminate E2|].
  split; [intros ->; discriminate E|].
  destruct (decrypt_permanent_password_str_or_original s) as [[i d] b] eqn:D.
  destruct d; [|done]. by exists i, b.
Qed.

Lemma validate_sound c : sound c -> validate_or_decrypt_permanent_password_storage c = Ok c.
Proof.
  intros [E|[H Hs]]; unfold validate_or_decrypt_permanent_password_storage; [by rewrite E|].
  destruct (decoded_prefix _ H) as (_ & H2 & Hne & i & b & Hd & Hi).
  destruct (password c) eqn:Ep; [done|]. simpl is_empty. cbv iota. rewrite <- Ep in *.
  rewrite H2, Hd. unfold ensure_permanent_password_hash_salt. destruct (salt c); [done|].
  simpl. by rewrite Hi.
Qed.

(** A write keeps password and salt as they are. *)
Lemma store_sound w c n1 n2 : sound c ->
  let w' := store w c n1 n2 in
  config w' = config w /\ hard_settings w' = hard_settings w /\
  trusted_devices w' = trusted_devices w /\ writable w' = writable w /\
  (writable w = true -> password (file w') = password c /\ salt (file w') = salt c) /\
  (writable w = false -> file w' = file w).
Proof.
  intros Hc w'. subst w'. unfold store, prepare_config_for_store.
  rewrite validate_sound by done.
  assert (negb (is_empty (password c))
          && negb (is_some (decode_permanent_password_h1_from_storage (password c))) = false) as ->.
  { destruct Hc as [->|[-> _]]; [done|]. by rewrite andb_false_r. }
  destruct (decrypt_str_or_original m (enc_id c) PASSWORD_ENC_VERSION) as [[sid enc] b].
  unfold store_. destruct (writable w) eqn:Ew; simpl; repeat split; try done;
    by destruct (negb enc || negb (bool_decide (sid = id c))).
Qed.

Lemma sound_cong c c' : password c' = password c -> salt c' = salt c -> sound c -> sound c'.
Proof. unfold sound. intros -> ->. done. Qed.

Lemma store_sound_world w c n1 n2 : sound c -> sound (file w) -> config w = c ->
  sound_world (store w c n1 n2).
Proof.
  intros Hc Hf E. destruct (store_sound w c n1 n2 Hc) as (E1 & _ & _ & _ & Ew & En).
  split; [by rewrite E1, E|]. destruct (writable w) eqn:W.
  - destruct (Ew eq_refl) as [??]. by apply (sound_cong c).
  - by rewrite En.
Qed.

(** ** Every operation keeps the configuration sound *)

Lemma auto_password_len draws : len (get_auto_password draws) = len draws.
Proof. unfold get_auto_password, get_auto_password_with_chars, len. by rewrite length_map. Qed.

Lemma auto_password_nonempty draws : len draws = DEFAULT_SALT_LEN -> get_auto_password draws <> [].
Proof. intros H E. pose proof (auto_password_len draws) as L. rewrite E, H in L. discriminate L. Qed.

Lemma ensure_salt_nonempty draws c : len draws = DEFAULT_SALT_LEN ->
  salt (ensure_permanent_password_salt draws c) <> [] /\
  password (ensure_permanent_password_salt draws c) = password c /\
  (salt c <> [] -> ensure_permanent_password_salt draws c = c).
Proof.
  intros H. unfold ensure_permanent_password_salt. destruct (salt c) eqn:E; simpl.
  - split; [by apply auto_password_nonempty|done].
  - by rewrite E.
Qed.

(** The result of a successful change: the digest of the new password under
    the configuration's salt. *)
Lemma compute_storage_spec draws nonce c pw :
  len draws = DEFAULT_SALT_LEN -> len nonce = NONCEBYTES ->
  exists st c', compute_permanent_password_storage_for_update draws nonce c pw = (Some st, c') /\
    salt c' <> [] /\ password c' = password c /\ (salt c <> [] -> c' = c) /\
    decode_permanent_password_h1_from_storage st = Some (compute_permanent_password_h1 pw (salt c')).
Proof.
  intros Hd Hn. unfold compute_permanent_password_storage_for_update.
  destruct (ensure_salt_nonempty draws c Hd) as (H1 & H2 & H3).
  destruct (encode_encrypted_spec nonce
    (compute_permanent_password_h1 pw (salt (ensure_permanent_password_salt draws c)))
    Hn (sha256_len _)) as (e & -> & _ & He).
  by eexists _, _.
Qed.

Lemma some_is_some {A} (o : option A) x : o = Some x -> is_some o = true.
Proof. by intros ->. Qed.

Lemma set_permanent_password_sound w pw draws nonce n1 n2 :
  len draws = DEFAULT_SALT_LEN -> len nonce = NONCEBYTES ->
  sound_world w -> sound_world (set_permanent_password w pw draws nonce n1 n2).2.
Proof.
  intros Hd Hn [Hc Hf]. unfold set_permanent_password.
  destruct (is_disable_change_permanent_password w); [done|]. cbn [get_preset_password_storage_and_salt].
  match goal with |- context [if ?b then (true, w) else _] => destruct b end; [done|].
  destruct pw as [|x pw]; simpl is_empty; cbv iota.
  - destruct (bool_decide_reflect ([] = password (config w))); [done|]. simpl.
    match goal with |- context [store ?w' ?c' ?a ?b] =>
      destruct (store_sound_world w' c' a b) as [??]; [by left|done|done|] end.
    done.
  - destruct (compute_storage_spec draws nonce (config w) (x :: pw) Hd Hn)
      as (st & c' & -> & Hs & Hp & Hkeep & Hdec).
    destruct (bool_decide_reflect (st = password c')) as [E|E]; simpl.
    + split; [|done]. right. simpl. rewrite <- E. split; [by eapply some_is_some|done].
    + match goal with |- context [store ?w' ?c' ?a ?b] =>
        destruct (store_sound_world w' c' a b) as [??]; [|done|done|] end; [|done].
      right. simpl. split; [by eapply some_is_some|done].
Qed.

Lemma sync_sound w storage slt n1 n2 :
  sound_world w -> sound_world (set_permanent_password_storage_for_sync w storage slt n1 n2).2.
Proof.
  intros [Hc Hf]. unfold set_permanent_password_storage_for_sync,
    apply_permanent_password_storage_for_sync.
  destruct storage as [|x s]; simpl is_empty; cbv iota.
  - match goal with |- context [if ?b then Ok (false, _) else _] => destruct b end; [done|].
    match goal with |- context [store ?w' ?c' ?a ?b] =>
      destruct (store_sound_world w' c' a b) as [??]; [|done|done|] end; [|done].
    left. by destruct slt.
  - destruct slt as [|y slt]; [done|]. simpl is_empty. cbv iota.
    destruct (is_some _) eqn:E; [|done]. simpl negb. cbv iota.
    match goal with |- context [if ?b then Ok (false, _) else _] => destruct b end; [done|].
    match goal with |- context [store ?w' ?c' ?a ?b] =>
      destruct (store_sound_world w' c' a b) as [??]; [|done|done|] end; [|done].
    by right.
Qed.

Lemma set_salt_cases w slt n1 n2 : sound_world w ->
  set_salt w slt n1 n2 = w \/
  (password (config w) = [] /\ set_salt w slt n1 n2 =
     store (with_config w (with_salt (config w) slt)) (with_salt (config w) slt) n1 n2).
Proof.
  intros [Hc Hf]. unfold set_salt. destruct (bool_decide (slt = salt (config w))); [by left|].
  destruct Hc as [E|[H Hs]]; [right; by rewrite E|]. left.
  destruct (decoded_prefix _ H) as (_ & _ & Hne & _).
  unfold password_is_empty_or_not_hashed. destruct (password (config w)) eqn:Ep; [done|].
  simpl is_empty. cbv iota. rewrite H. simpl. by destruct (salt (config w)).
Qed.

Lemma set_salt_sound w slt n1 n2 : sound_world w -> sound_world (set_salt w slt n1 n2).
Proof.
  intros Hw. destruct (set_salt_cases w slt n1 n2 Hw) as [->|[E ->]]; [done|].
  apply store_sound_world; [by left|apply Hw|done].
Qed.

Lemma get_salt_sound w draws n1 n2 : sound_world w -> sound_world (get_salt w draws n1 n2).2.
Proof.
  intros Hw. unfold get_salt. destruct (is_empty _); [|done]. by apply set_salt_sound.
Qed.

Lemma effective_salt_sound w draws n1 n2 :
  sound_world w -> sound_world (get_effective_permanent_password_salt w draws n1 n2).2.
Proof.
  intros Hw. unfold get_effective_permanent_password_salt. simpl.
  repeat match goal with |- context [if ?b then _ else _] => destruct b end;
    simpl; auto using get_salt_sound.
Qed.

Lemma ensure_id_keeps gen c :
  password (ensure_id gen (check_id c)).1 = password c /\ salt (ensure_id gen (check_id c)).1 = salt c.
Proof.
  unfold ensure_id, check_id.
  destruct (decrypt_str_or_original m (enc_id c) PASSWORD_ENC_VERSION) as [[i enc] st2].
  destruct enc; [done|].
  match goal with |- context [if ?b then (c, true, true) else _] => destruct b end; [done|].
  by destruct (first_id gen).
Qed.

(** [Config::load] after a restart: password and salt are those of the file. *)
Lemma load_sound w gen n1 n2 : sound (file w) ->
  password (config (load w gen n1 n2)) = password (file w) /\
  salt (config (load w gen n1 n2)) = salt (file w) /\
  hard_settings (load w gen n1 n2) = hard_settings w /\ sound_world (load w gen n1 n2).
Proof.
  intros Hf. unfold load. rewrite validate_sound by done.
  pose proof (ensure_id_keeps gen (file w)) as [Ep' Es'].
  destruct (ensure_id gen (check_id (file w))) as [c' st']. simpl in *. rewrite Ep', Es'.
  assert (sound c') as Hc by by apply (sound_cong (file w)).
  destruct st'.
  - destruct (store_sound w c' n1 n2 Hc) as (_ & Eh & _ & _ & Ew & En). repeat split; try done.
    simpl. destruct (writable w) eqn:W; [|by rewrite En].
    destruct (Ew eq_refl) as [??]. by apply (sound_cong c').
  - by repeat split.
Qed.

Inductive op :=
| OpSet (pw : bytes) (draws : list Z) (nonce n1 n2 : bytes)
| OpSync (storage slt n1 n2 : bytes)
| OpSetSalt (slt n1 n2 : bytes)
| OpGetSalt (draws : list Z) (n1 n2 : bytes)
| OpEffectiveSalt (draws : list Z) (n1 n2 : bytes)
| OpRestart (gen : list (option bytes)) (n1 n2 : bytes).

Definition apply_op (w : World) (o : op) : World :=
  match o with
  | OpSet pw draws nonce n1 n2 => (set_permanent_password w pw draws nonce n1 n2).2
  | OpSync s slt n1 n2 => (set_permanent_password_storage_for_sync w s slt n1 n2).2
  | OpSetSalt slt n1 n2 => set_salt w slt n1 n2
  | OpGetSalt draws n1 n2 => (get_salt w draws n1 n2).2
  | OpEffectiveSalt draws n1 n2 => (get_effective_permanent_password_salt w draws n1 n2).2
  | OpRestart gen n1 n2 => load w gen n1 n2
  end.

(** Random values have the lengths the generators give them. *)
Definition op_ok (o : op) : Prop :=
  match o with
  | OpSet _ draws nonce _ _ => len draws = DEFAULT_SALT_LEN /\ len nonce = NONCEBYTES
  | _ => True
  end.

Lemma apply_op_sound w o : op_ok o -> sound_world w -> sound_world (apply_op w o).
Proof.
  destruct o; simpl; intros Ho Hw.
  - destruct Ho. by apply set_permanent_password_sound.
  - by apply sync_sound.
  - by apply set_salt_sound.
  - by apply get_salt_sound.
  - by apply effective_salt_sound.
  - apply load_sound, Hw.
Qed.

Lemma run_sound ops : forall w, Forall op_ok ops -> sound_world w ->
  sound_world (foldl apply_op w ops).
Proof.
  induction ops as [|o ops IH]; intros w Hf Hw; simpl; [done|].
  inversion Hf; subst. apply IH; [done|]. by apply apply_op_sound.
Qed.

(** [C27] No plaintext permanent password and no digest without its salt: from
    a fresh installation, any sequence of password changes, service-to-user
    synchronisations, salt requests and restarts, with writes that may fail,
    leaves both the configuration in memory and the one on disk either
    without a password or with an encrypted digest that decodes and a nonempty
    salt, so that the local password counts as usable exactly when it is set. *)
Theorem password_stays_hashed w ops :
  config w = config_default -> file w = config_default -> Forall op_ok ops ->
  let w' := foldl apply_op w ops in
  sound (config w') /\ sound (file w') /\
  has_local_permanent_password w' = negb (is_empty (password (config w'))).
Proof.
  intros E1 E2 Hops w'. assert (sound_world w') as [Hc Hf].
  { apply run_sound; [done|]. split; rewrite ?E1, ?E2; by left. }
  split; [done|]. split; [done|]. unfold has_local_permanent_password. simpl.
  unfold local_permanent_password_storage_is_usable_for_auth.
  destruct Hc as [->|[H Hs]]; [done|]. destruct (password (config w')) eqn:E; [done|].
  simpl is_empty. cbv iota. rewrite H. by destruct (salt (config w')).
Qed.

(** A digest keeps the salt it was computed with: with a digest stored, a
    password change, a request for the salt, an attempt to set another salt or
    a restart leaves the salt unchanged (a restart after writes that
    succeeded). Only synchronisation replaces it, together with the digest. *)
Theorem salt_bound_to_hash w o :
  sound_world w -> password (config w) <> [] -> op_ok o ->
  (forall s slt n1 n2, o <> OpSync s slt n1 n2) ->
  (password (file w) = password (config w) /\ salt (file w) = salt (config w)) ->
  salt (config (apply_op w o)) = salt (config w).
Proof.
  intros Hw Hne Hop Hns [Hfp Hfs]. destruct o as [pw draws nonce n1 n2| |slt n1 n2|draws n1 n2|draws n1 n2|gen n1 n2]; simpl.
  - destruct (proj1 Hw) as [E|[H Hs]]; [done|]. unfold set_permanent_password.
    destruct (is_disable_change_permanent_password w); [done|]. cbn [get_preset_password_storage_and_salt].
    match goal with |- context [if ?b then (true, w) else _] => destruct b end; [done|].
    destruct pw as [|x pw]; simpl is_empty; cbv iota.
    + destruct (bool_decide_reflect ([] = password (config w))); [done|]. simpl.
      match goal with |- context [store ?w' ?c' ?a ?b] =>
        destruct (store_sound w' c' a b) as (-> & _); [by left|] end. done.
    + destruct Hop as [Hd Hn].
      destruct (compute_storage_spec draws nonce (config w) (x :: pw) Hd Hn)
        as (st & c' & -> & _ & _ & Hkeep & Hdec). rewrite (Hkeep Hs) in *.
      destruct (bool_decide_reflect (st = password (config w))); [done|]. simpl.
      match goal with |- context [store ?w' ?c' ?a ?b] =>
        destruct (store_sound w' c' a b) as (-> & _); [|done] end.
      right. simpl. split; [by eapply some_is_some|done].
  - by exfalso; eapply Hns.
  - by destruct (set_salt_cases w slt n1 n2 Hw) as [->|[E _]].
  - unfold get_salt. destruct (is_empty _); [|done]. simpl.
    by destruct (set_salt_cases w (get_auto_password draws) n1 n2 Hw) as [->|[E _]].
  - assert (config (get_salt w draws n1 n2).2 = config w) as Hg.
    { unfold get_salt. destruct (is_empty _); [|done]. simpl.
      by destruct (set_salt_cases w (get_auto_password draws) n1 n2 Hw) as [->|[E _]]. }
    unfold get_effective_permanent_password_salt. simpl.
    repeat match goal with |- context [if ?b then _ else _] => destruct b end; simpl; by rewrite ?Hg.
  - destruct (load_sound w gen n1 n2 (proj2 Hw)) as (_ & -> & _). done.
Qed.
End Storage.

Module ToySha.
#[export] Instance sha : Sha256 := { sha256 v := Toy.pad 32 v }.
#[export] Instance sha_laws : Sha256Laws.
Proof. split. intros v. unfold len. simpl. by rewrite Toy.length_pad. Qed.
End ToySha.

#[local] Existing Instances Toy.secretbox Toy.secretbox_laws Rfc4648.base64 Rfc4648.base64_laws
  ToySha.sha ToySha.sha_laws.

Definition fresh : World := mkWorld config_default config_default true ∅ ∅ [].
Definition draws32 : list Z := List.map Z.of_nat (seq 0 32).
Definition nonce24 : bytes := replicate 24 Byte.x07.
Definition set_secret : op := OpSet (str "secret") draws32 nonce24 [] nonce24.
Definition history : list op :=
  [OpSetSalt (str "s") [] nonce24; set_secret; OpSetSalt (str "t") [] nonce24;
   OpRestart [] [] nonce24].

Lemma password_stays_hashed_witness :
  has_local_permanent_password desktop (foldl (apply_op desktop) fresh history) = true /\
  salt (config (foldl (apply_op desktop) fresh history)) = str "s".
Proof.
  split; [|vm_compute; reflexivity].
  rewrite (proj2 (proj2 (password_stays_hashed desktop fresh history eq_refl eq_refl
    ltac:(repeat constructor)))). vm_compute. reflexivity.
Defined.

Lemma salt_bound_to_hash_witness :
  let w := apply_op desktop fresh set_secret in
  salt (config (apply_op desktop w (OpSetSalt (str "other") [] nonce24))) = salt (config w).
Proof.
  intros w. apply (salt_bound_to_hash desktop w (OpSetSalt (str "other") [] nonce24)).
  - refine (apply_op_sound desktop fresh set_secret _ _); [split; reflexivity|]. split; by left.
  - vm_compute. congruence.
  - done.
  - done.
  - split; vm_compute; reflexivity.
Defined.
