(* ===== verification/Authentication.v ===== *)
(** * Password authentication of the controlled side
    ([src/server/connection.rs], [password_security.rs])

    What a viewer must prove: knowledge of the temporary or the permanent
    password, as [SHA256(SHA256(password ++ salt) ++ challenge)].  [Auth] is
    the process-wide state: configuration, settings, temporary password, its
    failure counter and the recent sessions. *)
From S2P Require Import Prelude Crypto Encoding PasswordSecurity PermanentPassword.

(** ** Settings *)
Record Settings := mkSettings {
  overwrite_settings : gmap bytes bytes;
  options : gmap bytes bytes;
  default_settings : gmap bytes bytes
}.

Definition get_or (a b c : gmap bytes bytes) (k : bytes) : option bytes :=
  match a !! k with
  | Some v => Some v
  | None => match b !! k with Some v => Some v | None => c !! k end
  end.
Definition get_option (s : Settings) (k : bytes) : bytes :=
  default [] (get_or (overwrite_settings s) (options s) (default_settings s) k).

Definition is_option_can_save (overwrite : gmap bytes bytes) (k : bytes)
  (defaults : gmap bytes bytes) (v : bytes) : bool :=
  negb (is_some (overwrite !! k) || bool_decide (defaults !! k = Some v)).

Definition option2bool (option value : bytes) : bool :=
  if starts_with option (str "enable-") then negb (bool_decide (value = str "N"))
  else if starts_with option (str "allow-") || bool_decide (option = str "stop-service")
          || bool_decide (option = str "direct-server")
          || bool_decide (option = str "force-always-relay")
  then bool_decide (value = str "Y")
  else negb (bool_decide (value = str "N")).

Definition get_bool_option (s : Settings) (k : bytes) : bool := option2bool k (get_option s k).

Inductive VerificationMethod :=
| OnlyUseTemporaryPassword
| OnlyUsePermanentPassword
| UseBothPasswords.
#[export] Instance VerificationMethod_eq_dec : EqDecision VerificationMethod.
Proof. solve_decision. Defined.

Inductive ApproveMode := Both | Password | Click.
#[export] Instance ApproveMode_eq_dec : EqDecision ApproveMode.
Proof. solve_decision. Defined.

Definition verification_method (s : Settings) : VerificationMethod :=
  let method := get_option s (str "verification-method") in
  if bool_decide (method = str "use-temporary-password") then OnlyUseTemporaryPassword
  else if bool_decide (method = str "use-permanent-password") then OnlyUsePermanentPassword
  else UseBothPasswords.

Definition temporary_password_length (s : Settings) : Z :=
  let length := get_option s (str "temporary-password-length") in
  if bool_decide (length = str "8") then 8
  else if bool_decide (length = str "10") then 10
  else 6.

Definition temporary_enabled (s : Settings) : bool :=
  negb (bool_decide (verification_method s = OnlyUsePermanentPassword)).
Definition permanent_enabled (s : Settings) : bool :=
  negb (bool_decide (verification_method s = OnlyUseTemporaryPassword)).

Definition approve_mode (s : Settings) : ApproveMode :=
  let mode := get_option s (str "approve-mode") in
  if bool_decide (mode = str "password") then Password
  else if bool_decide (mode = str "click") then Click
  else Both.

Definition hide_cm (s : Settings) : bool :=
  bool_decide (approve_mode s = Password)
  && bool_decide (verification_method s = OnlyUsePermanentPassword)
  && option2bool (str "allow-hide-cm") (get_option s (str "allow-hide-cm")).

(** [get_auto_password] of [password_security.rs]: the first
    [temporary_password_length] of the random draws. *)
Definition get_auto_password (s : Settings) (draws : list Z) : bytes :=
  let draws := takeZ (temporary_password_length s) draws in
  if get_bool_option s (str "allow-numeric-one-time-password")
  then get_auto_numeric_password draws
  else PermanentPassword.get_auto_password draws.

(** ** Process-wide state *)
Definition SessionKey : Type := bytes * bytes * Z.
Record Session := mkSession {
  last_recv_time : Z;
  random_password : bytes;
  tfa : bool
}.

Record Auth := mkAuth {
  world : World;
  settings : Settings;
  temporary_password : bytes;
  tmp_failures : bytes * Z;
  sessions : gmap SessionKey Session
}.
Definition with_temporary (a : Auth) pw st :=
  mkAuth (world a) (settings a) pw st (sessions a).
Definition with_sessions (a : Auth) ss :=
  mkAuth (world a) (settings a) (temporary_password a) (tmp_failures a) ss.

Inductive ConnAuditPrimaryAuth :=
| NoPrimaryAuth
| ClickAuth
| TemporaryPassword
| PermanentPasswordAuth
| SwitchSides.
Inductive ConnAuditTwoFactor := NoTwoFactor | Totp | TrustedDeviceFactor.

(** What a login attempt carries: the [Hash] sent to the viewer, the
    [LoginRequest] password and the key of its session. *)
Record Attempt := mkAttempt {
  hash_salt : bytes;
  hash_challenge : bytes;
  lr_password : bytes;
  session_key : SessionKey
}.

(** Thirty seconds in nanoseconds. *)
Definition SESSION_TIMEOUT : Z := 30 * 1000000000.
Definition MAX_CONSECUTIVE_FAILURES : Z := 10.

(** [raii::AuthedConnID::update_or_insert_session] *)
Definition update_or_insert_session (ss : gmap SessionKey Session) (now : Z) (key : SessionKey)
  (password : option bytes) (tf : option bool) : gmap SessionKey Session :=
  match ss !! key with
  | Some s => <[key := mkSession (last_recv_time s) (default (random_password s) password)
                         (default (tfa s) tf)]> ss
  | None => <[key := mkSession now (default [] password) (default false tf)]> ss
  end.

Definition set_session_2fa (ss : gmap SessionKey Session) (now : Z) (key : SessionKey)
  : gmap SessionKey Session :=
  match ss !! key with
  | Some s => <[key := mkSession (last_recv_time s) (random_password s) true]> ss
  | None => <[key := mkSession now [] true]> ss
  end.

(** [check_update_temporary_password]; [draws] feed a new password. *)
Definition check_update_temporary_password (a : Auth) (success : bool) (draws : list Z) : Auth :=
  if negb (temporary_enabled (settings a)) then a
  else
    let current_password := temporary_password a in
    if is_empty current_password then a
    else
      let st := if negb (bool_decide ((tmp_failures a).1 = current_password))
                then (current_password, 0) else tmp_failures a in
      if success then with_temporary a (temporary_password a) (st.1, 0)
      else
        let failures := i32_of (st.2 + 1) in
        if failures <? MAX_CONSECUTIVE_FAILURES
        then with_temporary a (temporary_password a) (st.1, failures)
        else
          let new_password := get_auto_password (settings a) draws in
          with_temporary a new_password (new_password, 0).

Section Validate.
Context {SB : Secretbox} {B64 : Base64} {SHA : Sha256}.
Context (m : Machine).

Definition verify_h1 (c : Attempt) (h1 : bytes) : bool :=
  bool_decide (sha256 (h1 ++ hash_challenge c) = lr_password c).

Definition validate_password_plain (c : Attempt) (password : bytes) : bool :=
  if is_empty password then false
  else verify_h1 c (sha256 (password ++ hash_salt c)).

Definition validate_password_storage (c : Attempt) (storage : bytes) : bool :=
  if is_empty storage then false
  else
    match decode_permanent_password_h1_from_storage m storage with
    | Some h1 => verify_h1 c h1
    | None => validate_password_plain c storage
    end.

Definition validate_preset_password_storage (c : Attempt) (storage salt : bytes) : bool :=
  if is_empty salt then validate_password_plain c storage
  else
    match decode_preset_password_h1_from_storage storage with
    | None => false
    | Some h1 => verify_h1 c h1
    end.

Definition has_valid_password (a : Auth) : bool :=
  temporary_enabled (settings a) && negb (is_empty (temporary_password a))
  || permanent_enabled (settings a) && has_permanent_password m (world a).

(** The result, the audit entry it sets, and the new state. *)
Definition validate_password (c : Attempt) (allow_permanent_password : bool) (now : Z) (a : Auth)
  : bool * option ConnAuditPrimaryAuth * Auth :=
  if temporary_enabled (settings a) && validate_password_plain c (temporary_password a) then
    let a := with_sessions a (update_or_insert_session (sessions a) now (session_key c)
               (Some (temporary_password a)) (Some false)) in
    (true, Some TemporaryPassword, check_update_temporary_password a true [])
  else if permanent_enabled (settings a) || allow_permanent_password then
    let '(local_storage, local_salt) := get_local_permanent_password_storage_and_salt (world a) in
    if negb (is_empty local_storage) then
      if local_permanent_password_storage_is_usable_for_auth m local_storage local_salt
         && validate_password_storage c local_storage
      then (true, Some PermanentPasswordAuth, a)
      else (false, None, a)
    else
      let '(hard, salt) := get_preset_password_storage_and_salt (world a) in
      if preset_permanent_password_storage_is_usable_for_auth hard salt
         && validate_preset_password_storage c hard salt
      then (true, Some PermanentPasswordAuth, a)
      else (false, None, a)
  else (false, None, a).

Definition is_recent_session (c : Attempt) (tf : bool) (now : Z) (a : Auth)
  : bool * Auth :=
  let ss := filter (fun e : SessionKey * Session => now - last_recv_time e.2 < SESSION_TIMEOUT) (sessions a) in
  let a := with_sessions a ss in
  match ss !! session_key c with
  | Some s =>
      (negb (is_empty (lr_password c))
       && (tf && tfa s || negb tf && validate_password_plain c (random_password s)), a)
  | None => (false, a)
  end.

(** The viewer's side ([handle_login_from_ui] of [src/client.rs]). *)
Definition login_answer (salt challenge password : bytes) : bytes :=
  sha256 (sha256 (password ++ salt) ++ challenge).

(** ** Abstract specification: the digests that open this device now *)
Definition temporary_credentials (c : Attempt) (a : Auth) : list bytes :=
  if temporary_enabled (settings a) && negb (is_empty (temporary_password a))
  then [sha256 (temporary_password a ++ hash_salt c)] else [].

Definition permanent_credentials (c : Attempt) (w : World) : list bytes :=
  let '(storage, salt) := get_local_permanent_password_storage_and_salt w in
  let '(hard, hard_salt) := get_preset_password_storage_and_salt w in
  if negb (is_empty storage) then
    if local_permanent_password_storage_is_usable_for_auth m storage salt
    then [default (sha256 (storage ++ hash_salt c))
            (decode_permanent_password_h1_from_storage m storage)]
    else []
  else if is_empty hard then []
  else if is_empty hard_salt then [sha256 (hard ++ hash_salt c)]
  else option_list (decode_preset_password_h1_from_storage hard).

Definition credentials (c : Attempt) (allow_permanent_password : bool) (a : Auth) : list bytes :=
  temporary_credentials c a ++
  (if permanent_enabled (settings a) || allow_permanent_password
   then permanent_credentials c (world a) else []).

(** The answer of [c] is the response for one of the digests [hs]. *)
Definition answers (c : Attempt) (hs : list bytes) : Prop :=
  exists h1, h1 ∈ hs /\ lr_password c = sha256 (h1 ++ hash_challenge c).

Lemma verify_h1_spec c h1 :
  verify_h1 c h1 = true <-> lr_password c = sha256 (h1 ++ hash_challenge c).
Proof. unfold verify_h1. rewrite bool_decide_eq_true. split; congruence. Qed.

Lemma validate_plain_spec c pw :
  validate_password_plain c pw = true <->
  pw <> [] /\ lr_password c = sha256 (sha256 (pw ++ hash_salt c) ++ hash_challenge c).
Proof.
  unfold validate_password_plain. destruct pw as [|x pw]; simpl is_empty; cbv iota.
  - split; [done|]. by intros [? _].
  - rewrite verify_h1_spec. split; [by split|by intros [_ ?]].
Qed.

Lemma answers_nil c : answers c [] <-> False.
Proof. split; [|done]. by intros (? & ?%elem_of_nil & _). Qed.

Lemma answers_singleton c x : answers c [x] <-> lr_password c = sha256 (x ++ hash_challenge c).
Proof.
  unfold answers. split.
  - intros (h1 & H & ->). apply list_elem_of_singleton in H. by rewrite H.
  - intros ->. exists x. split; [by left|done].
Qed.

Lemma answers_app c l k : answers c (l ++ k) <-> answers c l \/ answers c k.
Proof.
  unfold answers. setoid_rewrite elem_of_app. split.
  - intros (h1 & [H|H] & E); [left|right]; by exists h1.
  - intros [(h1 & H & E)|(h1 & H & E)]; exists h1; tauto.
Qed.

Lemma temporary_part_spec c a :
  temporary_enabled (settings a) && validate_password_plain c (temporary_password a) = true <->
  answers c (temporary_credentials c a).
Proof.
  unfold temporary_credentials. destruct (temporary_enabled (settings a)); simpl;
    [|by rewrite answers_nil].
  rewrite validate_plain_spec. destruct (temporary_password a); simpl.
  - rewrite answers_nil. by split; [intros []|].
  - rewrite answers_singleton. by split; [intros []|].
Qed.

(** The permanent-password branch of [validate_password]. *)
Definition permanent_accepts (c : Attempt) (w : World) : bool :=
  let '(local_storage, local_salt) := get_local_permanent_password_storage_and_salt w in
  if negb (is_empty local_storage) then
    local_permanent_password_storage_is_usable_for_auth m local_storage local_salt
    && validate_password_storage c local_storage
  else
    let '(hard, salt) := get_preset_password_storage_and_salt w in
    preset_permanent_password_storage_is_usable_for_auth hard salt
    && validate_preset_password_storage c hard salt.

Lemma permanent_part_spec c w :
  permanent_accepts c w = true <-> answers c (permanent_credentials c w).
Proof.
  unfold permanent_accepts, permanent_credentials. simpl.
  generalize (password (config w)) (salt (config w))
    (default [] (hard_settings w !! str "password"))
    (default [] (hard_settings w !! str "salt")). intros storage slt hard hs.
  destruct storage as [|x s]; simpl is_empty; simpl negb; cbv iota.
  - unfold preset_permanent_password_storage_is_usable_for_auth, validate_preset_password_storage.
    destruct hard as [|h hard]; simpl is_empty; cbv iota; [by rewrite answers_nil|].
    destruct hs as [|y hs]; simpl is_empty; cbv iota.
    { rewrite answers_singleton, andb_true_l, validate_plain_spec. by split; [intros []|]. }
    destruct (decode_preset_password_h1_from_storage (h :: hard)) as [h1|]; simpl.
    + by rewrite answers_singleton, verify_h1_spec.
    + by rewrite answers_nil.
  - destruct (local_permanent_password_storage_is_usable_for_auth m (x :: s) slt); simpl;
      [|by rewrite answers_nil].
    rewrite answers_singleton. unfold validate_password_storage. simpl is_empty. cbv iota.
    destruct (decode_permanent_password_h1_from_storage m (x :: s)); simpl.
    + by rewrite verify_h1_spec.
    + rewrite validate_plain_spec. by split; [intros []|].
Qed.

Lemma validate_password_accepts c allow now a :
  (validate_password c allow now a).1.1 =
  temporary_enabled (settings a) && validate_password_plain c (temporary_password a)
  || (permanent_enabled (settings a) || allow) && permanent_accepts c (world a).
Proof.
  unfold validate_password, permanent_accepts.
  destruct (temporary_enabled (settings a) && validate_password_plain c (temporary_password a)); [done|].
  destruct (permanent_enabled (settings a) || allow); [|done]. simpl.
  destruct (negb (is_empty (password (config (world a)))));
    match goal with |- context [if ?b then (true, _, _) else _] => by destruct b end.
Qed.

Lemma validate_password_spec c allow now a :
  (validate_password c allow now a).1.1 = true <-> answers c (credentials c allow a).
Proof.
  rewrite validate_password_accepts, orb_true_iff, temporary_part_spec.
  unfold credentials. rewrite answers_app.
  destruct (permanent_enabled (settings a) || allow); simpl.
  - by rewrite permanent_part_spec.
  - rewrite answers_nil. intuition discriminate.
Qed.

(** [C12] Password checking accepts exactly the digests of the passwords that
    are in force: the answer of a viewer is accepted if and only if it is the
    challenge response for one of [credentials]: the temporary password when
    temporary passwords are enabled and one is set, and, when permanent
    passwords are enabled or the logon-screen fallback applies, the usable
    local password or else the preset one.  In particular nothing is accepted
    when no credential is set, and unusable storage is never a password. *)
Theorem validate_password_refines c allow now a :
  (validate_password c allow now a).1.1 = true <-> answers c (credentials c allow a).
Proof. apply validate_password_spec. Qed.

(** ** From setting a password to logging in with it *)
Context {SBL : SecretboxLaws} {B64L : Base64Laws} {SHAL : Sha256Laws}.

(** The file holds the password and salt of the memory. *)
Definition synced (w : World) : Prop :=
  password (file w) = password (config w) /\ salt (file w) = salt (config w).

(** [pw] is the password in force in [w]. *)
Definition in_force (w : World) (pw : bytes) : Prop :=
  (password (config w) = [] /\
   preset_permanent_password_storage_matches_plain
     (get_preset_password_storage_and_salt w).1 (get_preset_password_storage_and_salt w).2 pw = true) \/
  (decode_permanent_password_h1_from_storage m (password (config w))
     = Some (compute_permanent_password_h1 pw (salt (config w))) /\ salt (config w) <> []).

Lemma in_force_cong w w' pw :
  password (config w') = password (config w) ->
  (password (config w) <> [] -> salt (config w') = salt (config w)) ->
  hard_settings w' = hard_settings w -> in_force w pw -> in_force w' pw.
Proof.
  intros E1 E2 E3 [[H1 H2]|[H1 H2]].
  - left. unfold get_preset_password_storage_and_salt in *. by rewrite E1, E3.
  - right. rewrite E1, E2; [done|]. intros E. by rewrite E in H1.
Qed.

Lemma set_in_force w pw draws nonce n1 n2 w' :
  sound_world m w -> writable w = true -> synced w -> pw <> [] ->
  len draws = DEFAULT_SALT_LEN -> len nonce = NONCEBYTES ->
  set_permanent_password m w pw draws nonce n1 n2 = (true, w') ->
  in_force w' pw /\ synced w' /\ sound_world m w'.
Proof.
  intros Hs Hw Hy Hpw Hd Hn E.
  assert (sound_world m w') as Hs'.
  { pose proof (set_permanent_password_sound m w pw draws nonce n1 n2 Hd Hn Hs) as H. by rewrite E in H. }
  revert E. unfold set_permanent_password.
  destruct (is_disable_change_permanent_password w); [done|]. cbn [get_preset_password_storage_and_salt].
  match goal with |- context [if ?b then (true, w) else _] => destruct b eqn:Ep end.
  { intros [= <-]. apply andb_true_iff in Ep as [Ep He]. split; [|done].
    left. split; [by destruct (password (config w))|done]. }
  destruct pw as [|x pw]; [done|]. simpl is_empty. cbv iota.
  destruct (compute_storage_spec m draws nonce (config w) (x :: pw) Hd Hn)
    as (st & c' & -> & Hne & Hp & Hkeep & Hdec).
  destruct (bool_decide_reflect (st = password c')) as [Est|Est]; intros [= <-].
  - assert (salt (config w) <> []) as Hsalt.
    { destruct (proj1 Hs) as [E0|[_ ?]]; [|done]. by rewrite Est, Hp, E0 in Hdec. }
    rewrite (Hkeep Hsalt) in *. split; [|done]. right. simpl. by rewrite <- Est.
  - assert (sound m (with_password c' st)) as Hc.
    { right. simpl. by rewrite Hdec. }
    destruct (store_sound m (with_config (with_config w c') (with_password c' st))
      (with_password c' st) n1 n2 Hc) as (E1 & _ & _ & _ & Ef & _).
    destruct (Ef Hw) as [Ef1 Ef2]. split; [|split; [|done]].
    + right. simpl. rewrite E1. simpl. done.
    + split; simpl; rewrite E1; done.
Qed.

Lemma load_in_force w gen n1 n2 pw : sound_world m w -> synced w -> in_force w pw ->
  in_force (load m w gen n1 n2) pw /\ sound_world m (load m w gen n1 n2).
Proof.
  intros [_ Hf] [Hy1 Hy2] Hi. destruct (load_sound m w gen n1 n2 Hf) as (E1 & E2 & E3 & Hs).
  split; [|done]. apply (in_force_cong w); try done; by rewrite ?E1, ?E2.
Qed.

(** Asking for the salt changes nothing but, possibly, an unset salt. *)
Lemma get_salt_keeps w draws n1 n2 : sound_world m w ->
  let r := get_salt m w draws n1 n2 in
  hard_settings r.2 = hard_settings w /\ password (config r.2) = password (config w) /\
  (password (config w) <> [] -> r = (salt (config w), w)).
Proof.
  intros Hs. unfold get_salt. destruct (salt (config w)) as [|z zs] eqn:Ez; [|done].
  cbv zeta. simpl is_empty. cbv iota. simpl.
  assert (password (config w) = []) as E0 by (destruct (proj1 Hs) as [?|[_ ?]]; done).
  destruct (set_salt_cases m w (PermanentPassword.get_auto_password draws) n1 n2 Hs) as [->|[_ ->]]; [done|].
  match goal with |- context [store m ?w0 ?c0 n1 n2] =>
    destruct (store_sound m w0 c0 n1 n2) as (F1 & F2 & _); [by left|] end.
  by rewrite F1, F2.
Qed.

Lemma local_usable w : sound_world m w -> password (config w) <> [] ->
  local_permanent_password_storage_is_usable_for_auth m (password (config w)) (salt (config w)) = true
  /\ salt (config w) <> [].
Proof.
  intros [[?|[Hd Hne]] _] Hp; [done|]. split; [|done].
  unfold local_permanent_password_storage_is_usable_for_auth.
  destruct (password (config w)); [done|]. simpl is_empty. cbv iota. rewrite Hd.
  by destruct (salt (config w)).
Qed.

Lemma preset_match_usable hard hs pw : hs <> [] ->
  preset_permanent_password_storage_matches_plain hard hs pw = true ->
  preset_permanent_password_storage_is_usable_for_auth hard hs = true.
Proof.
  unfold preset_permanent_password_storage_matches_plain,
    preset_permanent_password_storage_is_usable_for_auth. intros Hne.
  destruct hard; [done|]. destruct pw; [done|]. destruct hs; [done|]. simpl.
  by destruct (decode_preset_password_h1_from_storage _).
Qed.

(** The salt sent to the viewer fits the password in force. *)
Lemma effective_salt_in_force w draws n1 n2 pw slt w' :
  sound_world m w -> in_force w pw ->
  get_effective_permanent_password_salt m w draws n1 n2 = (slt, w') ->
  in_force w' pw /\ sound_world m w' /\
  (password (config w') <> [] -> slt = salt (config w')) /\
  ((get_preset_password_storage_and_salt w').2 <> [] -> password (config w') = [] ->
   slt = (get_preset_password_storage_and_salt w').2).
Proof.
  intros Hs Hi E. pose proof (get_salt_keeps w draws n1 n2 Hs) as (K1 & K2 & K3).
  pose proof (effective_salt_sound m w draws n1 n2 Hs) as Hs'. rewrite E in Hs'. simpl in Hs'.
  revert E. unfold get_effective_permanent_password_salt.
  cbn [get_local_permanent_password_storage_and_salt].
  destruct (decide (password (config w) = [])) as [E0|Hp].
  - rewrite E0. simpl is_empty. simpl negb. cbv iota.
    destruct (get_preset_password_storage_and_salt w) as [hard hs] eqn:Eh.
    destruct hs as [|y hs]; simpl is_empty; simpl negb; cbv iota.
    + destruct (get_salt m w draws n1 n2) as [s wx]. cbn [fst snd] in K1, K2. intros [= <- <-].
      assert (get_preset_password_storage_and_salt wx = (hard, [])) as Ex
        by (rewrite <- Eh; unfold get_preset_password_storage_and_salt; by rewrite K1).
      split; [apply (in_force_cong w); try done; by rewrite E0|].
      split; [done|]. split; [by rewrite K2, E0|]. by rewrite Ex.
    + destruct Hi as [[_ Hm]|[H _]]; [|by rewrite E0 in H].
      rewrite Eh in Hm. rewrite (preset_match_usable hard (y :: hs) pw) by done.
      intros [= <- <-]. split; [left; by rewrite Eh|]. split; [done|]. by rewrite Eh.
  - destruct (local_usable w Hs Hp) as [Hu Hne]. rewrite Hu, (K3 Hp).
    destruct (password (config w)) eqn:Ep; [done|]. simpl. intros [= <- <-].
    by rewrite Ep.
Qed.

Lemma in_force_answer w pw c : sound_world m w -> in_force w pw -> pw <> [] ->
  (password (config w) <> [] -> hash_salt c = salt (config w)) ->
  ((get_preset_password_storage_and_salt w).2 <> [] -> password (config w) = [] ->
   hash_salt c = (get_preset_password_storage_and_salt w).2) ->
  lr_password c = login_answer (hash_salt c) (hash_challenge c) pw ->
  answers c (permanent_credentials c w).
Proof.
  intros Hs Hi Hpw S1 S2 Ha. unfold permanent_credentials, login_answer in *.
  cbn [get_local_permanent_password_storage_and_salt].
  destruct (get_preset_password_storage_and_salt w) as [hard hs] eqn:Eh. simpl in S2.
  destruct Hi as [[E0 Hm]|[Hd Hne]].
  - rewrite E0. simpl is_empty. simpl negb. cbv iota. rewrite Eh in Hm. simpl in Hm.
    unfold preset_permanent_password_storage_matches_plain in Hm.
    destruct hard as [|h hard]; [done|]. destruct pw as [|x pw]; [done|]. simpl in *.
    destruct hs as [|y hs]; simpl in *.
    + apply bool_decide_eq_true in Hm. injection Hm as -> ->. apply answers_singleton. rewrite Ha. done.
    + destruct (decode_preset_password_h1_from_storage (h :: hard)) as [h1|]; [|done].
      apply bool_decide_eq_true in Hm. simpl. apply answers_singleton.
      rewrite <- Hm. unfold compute_permanent_password_h1. rewrite <- (S2 ltac:(done) E0). done.
  - assert (password (config w) <> []) as Hp by (intros E; by rewrite E in Hd).
    destruct (password (config w)) as [|x s] eqn:Ep; [done|]. simpl is_empty. simpl negb. cbv iota.
    rewrite <- Ep in *. rewrite (proj1 (local_usable w Hs Hp)), Hd. simpl. apply answers_singleton. rewrite Ha, (S1 Hp). done.
Qed.

(** The password a user sets is the password that opens the device: after
    [set_permanent_password] reports success, and after a restart that reloads
    the configuration from disk, a viewer that hashes that password with the
    salt and any challenge the device sends is accepted, whether the password
    was stored or recognised as the preset one. *)
Theorem set_password_then_login w pw draws nonce n1 n2 w' gen r1 r2 draws' s1 s2 slt a challenge key
    allow now :
  sound_world m w -> writable w = true -> synced w -> pw <> [] ->
  len draws = DEFAULT_SALT_LEN -> len nonce = NONCEBYTES ->
  set_permanent_password m w pw draws nonce n1 n2 = (true, w') ->
  get_effective_permanent_password_salt m (load m w' gen r1 r2) draws' s1 s2 = (slt, world a) ->
  permanent_enabled (settings a) = true ->
  (validate_password
     (mkAttempt slt challenge (login_answer slt challenge pw) key) allow now a).1.1 = true.
Proof.
  intros Hs Hw Hy Hpw Hd Hn Eset Esalt Hen.
  destruct (set_in_force w pw draws nonce n1 n2 w' Hs Hw Hy Hpw Hd Hn Eset) as (Hi & Hy' & Hs').
  destruct (load_in_force w' gen r1 r2 pw Hs' Hy' Hi) as [Hi2 Hs2].
  destruct (effective_salt_in_force _ _ _ _ pw _ _ Hs2 Hi2 Esalt) as (Hi3 & Hs3 & S1 & S2).
  apply validate_password_spec. unfold credentials. rewrite Hen. simpl.
  apply answers_app. right. by apply (in_force_answer (world a) pw).
Qed.

(** A viewer that logged in with the temporary password can reconnect for
    thirty seconds: while the session is that recent, an answer to a new
    challenge with the same password passes [is_recent_session] even if the
    temporary password has changed, and only there; it does not count as a
    second factor.  After the timeout the session is forgotten. *)
Theorem reconnect_window c allow now a c2 later b pw' st' :
  validate_password c allow now a = (true, Some TemporaryPassword, b) ->
  sessions a !! session_key c = None ->
  session_key c2 = session_key c ->
  lr_password c2 = login_answer (hash_salt c2) (hash_challenge c2) (temporary_password a) ->
  let b' := with_temporary b pw' st' in
  (is_recent_session c2 false later b').1 = bool_decide (later - now < SESSION_TIMEOUT) /\
  (is_recent_session c2 true later b').1 = false.
Proof.
  intros Hv Hnone Hk Hl b'. unfold validate_password in Hv.
  destruct (temporary_enabled (settings a)) eqn:Et; simpl in Hv; [|
    repeat match type of Hv with context [if ?x then _ else _] => destruct x end; discriminate Hv].
  destruct (validate_password_plain c (temporary_password a)) eqn:Ev; [|
    repeat match type of Hv with context [if ?x then _ else _] => destruct x end; discriminate Hv].
  apply validate_plain_spec in Ev as [Hne _].
  assert (sessions b = <[session_key c := mkSession now (temporary_password a) false]> (sessions a)) as Hb.
  { injection Hv as <-. unfold check_update_temporary_password. simpl. rewrite Et. simpl.
    unfold update_or_insert_session. rewrite Hnone. by destruct (temporary_password a). }
  assert (is_empty (lr_password c2) = false) as Hle.
  { pose proof (sha256_len (sha256 (temporary_password a ++ hash_salt c2) ++ hash_challenge c2)) as L.
    rewrite Hl. unfold login_answer. by destruct (sha256 _). }
  subst b'. unfold is_recent_session. simpl. rewrite Hb, Hk.
  destruct (decide (later - now < SESSION_TIMEOUT)) as [Hlt|Hge].
  - rewrite (proj2 (map_lookup_filter_Some _ _ _ (mkSession now (temporary_password a) false)))
      by (rewrite lookup_insert_eq; done). simpl. rewrite Hle. simpl.
    rewrite bool_decide_true by done. split; [|done].
    by apply validate_plain_spec.
  - rewrite bool_decide_false by done.
    rewrite (proj2 (map_lookup_filter_None _ _ _)); [done|].
    right. intros x Hx. rewrite lookup_insert_eq in Hx. by injection Hx as <-.
Qed.
End Validate.

(** ** Rotation of the temporary password *)
Definition tmp_ok (a : Auth) (k : Z) : Prop :=
  temporary_enabled (settings a) = true /\ temporary_password a <> [] /\
  tmp_failures a = (temporary_password a, k) /\ 0 <= k < MAX_CONSECUTIVE_FAILURES.

(** [n] wrong attempts in a row; [draws i] feeds a password drawn at attempt [i]. *)
Fixpoint wrong_attempts (draws : list (list Z)) (a : Auth) : Auth :=
  match draws with
  | [] => a
  | d :: ds => wrong_attempts ds (check_update_temporary_password a false d)
  end.

Lemma temporary_password_length_pos s : 6 <= temporary_password_length s.
Proof. unfold temporary_password_length. repeat case_bool_decide; lia. Qed.

Lemma auto_password_nonempty' s d : 6 <= len d -> get_auto_password s d <> [].
Proof.
  intros Hd. unfold get_auto_password. pose proof (temporary_password_length_pos s) as Hp.
  assert (takeZ (temporary_password_length s) d <> []) as Hne.
  { intros E. apply (f_equal length) in E. unfold takeZ in E. rewrite length_take in E.
    unfold len in Hd. simpl in E. lia. }
  destruct (takeZ _ d); [done|]. by destruct (get_bool_option _ _).
Qed.

Lemma wrong_attempt_step a k d : tmp_ok a k -> 6 <= len d ->
  let a' := check_update_temporary_password a false d in
  settings a' = settings a /\
  if decide (k + 1 < MAX_CONSECUTIVE_FAILURES)
  then tmp_ok a' (k + 1) /\ temporary_password a' = temporary_password a
  else tmp_ok a' 0 /\ temporary_password a' = get_auto_password (settings a) d.
Proof.
  intros (He & Hne & Ht & Hk) Hd. unfold check_update_temporary_password. rewrite He, Ht. simpl negb.
  cbv iota zeta. destruct (temporary_password a) as [|x p] eqn:Et; [done|]. simpl is_empty. cbv iota.
  simpl fst. rewrite bool_decide_true by done. simpl negb. cbv iota. simpl snd.
  unfold MAX_CONSECUTIVE_FAILURES in *. unfold i32_of. rewrite swrap_id by lia.
  destruct (decide (k + 1 < 10)) as [Hlt|Hge].
  - rewrite (proj2 (Z.ltb_lt _ _)) by done. unfold tmp_ok, MAX_CONSECUTIVE_FAILURES. simpl.
    repeat split; try done; lia.
  - rewrite (proj2 (Z.ltb_ge _ _)) by lia. simpl. split; [done|]. split; [|done].
    unfold tmp_ok, MAX_CONSECUTIVE_FAILURES. simpl. repeat split; try done; try lia.
    by apply auto_password_nonempty'.
Qed.

(** A temporary password survives at most ten wrong guesses in a row: with
    [k] failures counted against it, [n] further wrong attempts leave the
    counter at [(k + n) mod 10], and the password was replaced by a freshly
    drawn one at exactly the attempts where the count reached ten. *)
Theorem temporary_password_rotates draws a k : tmp_ok a k ->
  Forall (fun d => 6 <= len d) draws ->
  let n := len draws in
  let a' := wrong_attempts draws a in
  tmp_ok a' ((k + n) mod 10) /\
  temporary_password a' =
    if k + n <? 10 then temporary_password a
    else get_auto_password (settings a) (nth (Z.to_nat (10 * ((k + n) / 10) - k - 1)) draws []).
Proof.
  revert a k. induction draws as [|d ds IH]; intros a k Hok Hd; cbv zeta.
  { rewrite len_nil, Z.add_0_r. destruct Hok as (?&?&?&Hk). unfold MAX_CONSECUTIVE_FAILURES in *.
    rewrite Z.mod_small by lia. rewrite (proj2 (Z.ltb_lt _ _)) by lia. done. }
  inversion Hd as [|?? Hd1 Hd2]; subst. cbn [wrong_attempts].
  pose proof (wrong_attempt_step a k d Hok Hd1) as [Hs Hstep].
  assert (0 <= k < 10) as Hk by apply Hok. pose proof (len_nonneg ds) as Hn.
  unfold MAX_CONSECUTIVE_FAILURES in Hstep. rewrite len_cons.
  destruct (decide (k + 1 < 10)) as [Hlt|Hge]; destruct Hstep as [Hok' Hp];
    destruct (IH _ _ Hok' Hd2) as [I1 I2]; rewrite Hs, Hp in I2.
  - replace (k + (1 + len ds)) with (k + 1 + len ds) by lia. split; [done|]. rewrite I2.
    destruct (k + 1 + len ds <? 10) eqn:E; [done|]. apply Z.ltb_ge in E.
    replace (Z.to_nat (10 * ((k + 1 + len ds) / 10) - k - 1))
      with (S (Z.to_nat (10 * ((k + 1 + len ds) / 10) - (k + 1) - 1))) by (Z.div_mod_to_equations; lia).
    done.
  - assert (k = 9) as -> by lia. replace (9 + (1 + len ds)) with (0 + len ds + 1 * 10) by lia.
    rewrite Z.mod_add by lia. split; [done|]. rewrite I2, Z.div_add by lia.
    rewrite (proj2 (Z.ltb_ge (0 + len ds + 1 * 10) 10)) by lia.
    destruct (0 + len ds <? 10) eqn:E.
    + apply Z.ltb_lt in E. rewrite (Z.div_small (0 + len ds) 10) by lia. done.
    + apply Z.ltb_ge in E.
      replace (Z.to_nat (10 * ((0 + len ds) / 10 + 1) - 9 - 1))
        with (S (Z.to_nat (10 * ((0 + len ds) / 10) - 0 - 1))) by (Z.div_mod_to_equations; lia).
      done.
Qed.

(** ** Witnesses *)
#[local] Existing Instances Toy.secretbox Toy.secretbox_laws Rfc4648.base64 Rfc4648.base64_laws
  ToySha.sha ToySha.sha_laws.

Definition no_settings : Settings := mkSettings ∅ ∅ ∅.
Definition secret_world : bool * World :=
  set_permanent_password desktop fresh (str "secret") draws32 nonce24 [] nonce24.
Definition restarted : bytes * World :=
  get_effective_permanent_password_salt desktop (load desktop secret_world.2 [] [] nonce24) draws32 [] nonce24.
Definition auth0 : Auth := mkAuth restarted.2 no_settings (str "123456") (str "123456", 0) ∅.

Lemma set_password_then_login_witness :
  let c := mkAttempt restarted.1 (str "challenge")
             (login_answer restarted.1 (str "challenge") (str "secret")) ([], [], 0) in
  (validate_password desktop c false 0 auth0).1.1 = true.
Proof.
  intros c.
  refine (set_password_then_login desktop fresh (str "secret") draws32 nonce24 [] nonce24 secret_world.2
    [] [] nonce24 draws32 [] nonce24 restarted.1 auth0 (str "challenge") ([], [], 0) false 0
    _ _ _ _ _ _ _ _ _); try (vm_compute; congruence).
  - split; by left.
  - split; reflexivity.
Defined.

Definition key0 : SessionKey := (str "viewer", str "pc", 7).
Definition tmp_attempt (challenge : bytes) : Attempt :=
  mkAttempt (str "s") challenge (login_answer (str "s") challenge (str "123456")) key0.

Definition auth1 : Auth := mkAuth fresh no_settings (str "123456") (str "123456", 0) ∅.
Definition logged_in : Auth := (validate_password desktop (tmp_attempt (str "c1")) false 100 auth1).2.

Lemma reconnect_window_witness :
  (is_recent_session (tmp_attempt (str "c2")) false 200
     (with_temporary logged_in (str "rotated") (str "rotated", 0))).1 =
  bool_decide (200 - 100 < SESSION_TIMEOUT).
Proof.
  refine (proj1 (reconnect_window desktop (tmp_attempt (str "c1")) false 100 auth1
    (tmp_attempt (str "c2")) 200 logged_in (str "rotated") (str "rotated", 0) _ _ _ _)).
  - vm_compute. reflexivity.
  - reflexivity.
  - reflexivity.
  - reflexivity.
Defined.

Lemma temporary_password_rotates_witness :
  temporary_password (wrong_attempts (replicate 9 draws32) auth1) = str "123456" /\
  temporary_password (wrong_attempts (replicate 12 draws32) auth1)
    = get_auto_password no_settings draws32.
Proof.
  assert (tmp_ok auth1 0) as H0.
  { split; [reflexivity|]. split; [done|]. split; [reflexivity|]. unfold MAX_CONSECUTIVE_FAILURES. lia. }
  split.
  - refine (proj2 (temporary_password_rotates (replicate 9 draws32) auth1 0 H0 _)).
    repeat constructor; vm_compute; congruence.
  - refine (proj2 (temporary_password_rotates (replicate 12 draws32) auth1 0 H0 _)).
    repeat constructor; vm_compute; congruence.
Defined.
