(* ===== verification/SessionScope.v ===== *)
(** * Session scopes ([src/server/connection.rs])

    A viewer logs in for one kind of session (remote control, file transfer,
    port forwarding, camera, terminal).  Once authorized, every message is
    checked against the scope of that kind, and option messages are reduced to
    the fields that kind may set.  The message types are those of
    [message.proto]; payloads that the scope checks do not read are dropped. *)
From S2P Require Import Prelude.

Inductive AuthConnType := Remote | FileTransfer | PortForward | ViewCamera | Terminal.
#[export] Instance AuthConnType_eq_dec : EqDecision AuthConnType.
Proof. solve_decision. Defined.

Definition as_str (t : AuthConnType) : string :=
  match t with
  | Remote => "remote"
  | FileTransfer => "file_transfer"
  | PortForward => "port_forward"
  | ViewCamera => "view_camera"
  | Terminal => "terminal"
  end.

(** Enum fields are [EnumOrUnknown]: any 32-bit number, known or not.
    [BoolOption]: NotSet = 0, No = 1, Yes = 2; [ImageQuality]: NotSet = 0,
    Low = 2, Balanced = 3, Best = 4. *)
Definition bool_option_known (v : Z) : bool := (v =? 0) || (v =? 1) || (v =? 2).
Definition image_quality_known (v : Z) : bool := (v =? 0) || (v =? 2) || (v =? 3) || (v =? 4).

Record OptionMessage := mkOption {
  image_quality : Z;
  lock_after_session_end : Z;
  show_remote_cursor : Z;
  privacy_mode : Z;
  block_input : Z;
  custom_image_quality : Z;
  disable_audio : Z;
  disable_clipboard : Z;
  enable_file_transfer : Z;
  supported_decoding : option Z;
  custom_fps : Z;
  disable_keyboard : Z;
  follow_remote_cursor : Z;
  follow_remote_window : Z;
  disable_camera : Z;
  terminal_persistent : Z;
  show_my_cursor : Z
}.
#[export] Instance OptionMessage_eq_dec : EqDecision OptionMessage.
Proof. solve_decision. Defined.

Definition option_new : OptionMessage := mkOption 0 0 0 0 0 0 0 0 0 None 0 0 0 0 0 0 0.

(** [misc::Union] *)
Inductive Misc :=
| ChatMessage | SwitchDisplay | PermissionInfo | Option (o : OptionMessage) | AudioFormat
| CloseReason | RefreshVideo | VideoReceived | BackNotification | RestartRemoteDevice | Uac
| ForegroundWindowElevated | StopService | ElevationRequest | ElevationResponse
| PortableServiceRunning | SwitchSidesRequest | SwitchBack | ChangeResolution | PluginRequest
| PluginFailure | FullSpeedFps | AutoAdjustFps | ClientRecordStatus | CaptureDisplays
| RefreshVideoDisplay | ToggleVirtualDisplay | TogglePrivacyMode | SupportedEncoding
| SelectedSid | ChangeDisplayResolution | MessageQuery | FollowCurrentDisplay.

(** [message::Union]; [None] is a message without a union. *)
Inductive Union :=
| SignedId | PublicKey | TestDelay | VideoFrame | LoginRequest | LoginResponse | Hash
| MouseEvent | AudioFrame | CursorData | CursorPosition | CursorId | KeyEvent | Clipboard
| FileAction | FileResponse | MiscMessage (misc : option Misc) | Cliprdr | MessageBox
| SwitchSidesResponse | VoiceCallRequest | VoiceCallResponse | PeerInfo | PointerDeviceEvent
| Auth2fa | MultiClipboards | ScreenshotRequest | ScreenshotResponse | TerminalAction
| TerminalResponse.
Definition Message : Type := option Union.

Definition is_bool_option_not_set (v : Z) : bool := v =? 0.

Definition option_has_non_view_camera_login_field (o : OptionMessage) : bool :=
  negb (is_bool_option_not_set (lock_after_session_end o)
    && is_bool_option_not_set (show_remote_cursor o)
    && is_bool_option_not_set (privacy_mode o)
    && is_bool_option_not_set (block_input o)
    && is_bool_option_not_set (disable_clipboard o)
    && is_bool_option_not_set (enable_file_transfer o)
    && is_bool_option_not_set (disable_keyboard o)
    && is_bool_option_not_set (follow_remote_cursor o)
    && is_bool_option_not_set (follow_remote_window o)
    && is_bool_option_not_set (disable_camera o)
    && is_bool_option_not_set (terminal_persistent o)
    && is_bool_option_not_set (show_my_cursor o)).

Definition option_has_non_terminal_login_field (o : OptionMessage) : bool :=
  negb (image_quality o =? 0)
  || negb (custom_image_quality o =? 0)
  || negb (custom_fps o =? 0)
  || match supported_decoding o with Some _ => true | None => false end
  || negb (is_bool_option_not_set (lock_after_session_end o))
  || negb (is_bool_option_not_set (show_remote_cursor o))
  || negb (is_bool_option_not_set (privacy_mode o))
  || negb (is_bool_option_not_set (block_input o))
  || negb (is_bool_option_not_set (disable_audio o))
  || negb (is_bool_option_not_set (disable_clipboard o))
  || negb (is_bool_option_not_set (enable_file_transfer o))
  || negb (is_bool_option_not_set (disable_keyboard o))
  || negb (is_bool_option_not_set (follow_remote_cursor o))
  || negb (is_bool_option_not_set (follow_remote_window o))
  || negb (is_bool_option_not_set (disable_camera o))
  || negb (is_bool_option_not_set (show_my_cursor o)).

Definition option_has_any_field (o : OptionMessage) : bool :=
  option_has_non_terminal_login_field o
  || negb (is_bool_option_not_set (terminal_persistent o)).

Definition then_some {A} (b : bool) (x : A) : option A := if b then Some x else None.

Definition scoped_view_camera_option (o : OptionMessage) : option OptionMessage * option string :=
  let scoped := mkOption
    (if image_quality_known (image_quality o) then image_quality o else 0) 0 0 0 0
    (if 0 <=? custom_image_quality o then custom_image_quality o else 0)
    (if bool_option_known (disable_audio o) then disable_audio o else 0) 0 0
    (supported_decoding o)
    (if 0 <=? custom_fps o then custom_fps o else 0) 0 0 0 0 0 0 in
  let violation := option_has_non_view_camera_login_field o in
  (then_some (option_has_any_field scoped) scoped, then_some violation "login.option"%string).

Definition scoped_terminal_login_option (o : OptionMessage) : option OptionMessage * option string :=
  let known := bool_option_known (terminal_persistent o) in
  let scoped := mkOption 0 0 0 0 0 0 0 0 0 None 0 0 0 0 0
                  (if known then terminal_persistent o else 0) 0 in
  let violation := negb known || option_has_non_terminal_login_field o in
  (then_some (option_has_any_field scoped) scoped, then_some violation "login.option"%string).

Definition scoped_login_option (conn_type : AuthConnType) (o : OptionMessage)
  : option OptionMessage * option string :=
  match conn_type with
  | Remote => (Some o, None)
  | ViewCamera => scoped_view_camera_option o
  | Terminal => scoped_terminal_login_option o
  | FileTransfer | PortForward => (None, then_some (option_has_any_field o) "login.option"%string)
  end.

Definition scoped_update_option_message (conn_type : option AuthConnType) (o : OptionMessage)
  : option OptionMessage :=
  match conn_type with
  | Some ViewCamera => (scoped_view_camera_option o).1
  | Some Terminal => (scoped_terminal_login_option o).1
  | Some Remote | Some FileTransfer | Some PortForward | None => None
  end.

(** What reaches [update_options]: for an option message received later
    (the [misc::Union::Option] handler) and for the options of the login
    request ([update_scoped_login_options]). *)
Definition updated_option (conn_type : option AuthConnType) (o : OptionMessage)
  : option OptionMessage :=
  if bool_decide (conn_type = Some Remote) then Some o
  else scoped_update_option_message conn_type o.
Definition update_scoped_login_options (conn_type : option AuthConnType) (o : option OptionMessage)
  : option OptionMessage :=
  match o, conn_type with
  | Some o, Some t => (scoped_login_option t o).1
  | _, _ => None
  end.

Definition is_supported_decoding_only_option (o : OptionMessage) : bool :=
  match supported_decoding o with Some _ => true | None => false end
  && (image_quality o =? 0)
  && (custom_image_quality o =? 0)
  && (custom_fps o =? 0)
  && is_bool_option_not_set (lock_after_session_end o)
  && is_bool_option_not_set (show_remote_cursor o)
  && is_bool_option_not_set (privacy_mode o)
  && is_bool_option_not_set (block_input o)
  && is_bool_option_not_set (disable_audio o)
  && is_bool_option_not_set (disable_clipboard o)
  && is_bool_option_not_set (enable_file_transfer o)
  && is_bool_option_not_set (disable_keyboard o)
  && is_bool_option_not_set (follow_remote_cursor o)
  && is_bool_option_not_set (follow_remote_window o)
  && is_bool_option_not_set (disable_camera o)
  && is_bool_option_not_set (terminal_persistent o)
  && is_bool_option_not_set (show_my_cursor o).

Definition is_connection_housekeeping_message (msg : Message) : bool :=
  match msg with
  | Some LoginRequest | Some TestDelay | Some (MiscMessage (Some CloseReason)) => true
  | _ => false
  end.

Definition is_render_broadcast_noop_compat_message (msg : Message) : bool :=
  match msg with
  | Some (MiscMessage (Some RefreshVideo)) | Some (MiscMessage (Some RefreshVideoDisplay)) => true
  | Some (MiscMessage (Some (Option o))) => is_supported_decoding_only_option o
  | _ => false
  end.

Definition is_text_clipboard_noop_compat_message (msg : Message) : bool :=
  match msg with Some Clipboard | Some MultiClipboards => true | _ => false end.

Section Platform.
(** [cfg(windows)] *)
Context (windows : bool).

Definition is_file_transfer_scoped_misc (misc : option Misc) : bool :=
  match misc with Some SelectedSid => windows | _ => false end.

Definition is_file_transfer_scoped_message (msg : Message) : bool :=
  match msg with
  | Some FileAction | Some FileResponse => true
  | Some (MiscMessage misc) => is_file_transfer_scoped_misc misc
  | _ => false
  end.

Definition is_none {A} (o : option A) : bool := match o with None => true | Some _ => false end.

Definition is_terminal_scoped_misc (misc : option Misc) : bool :=
  match misc with
  | Some ChatMessage => true
  | Some (Option o) => is_none (scoped_terminal_login_option o).2
  | _ => false
  end.

Definition is_terminal_scoped_message (msg : Message) : bool :=
  match msg with
  | Some TerminalAction => true
  | Some (MiscMessage misc) => is_terminal_scoped_misc misc
  | _ => false
  end.

Definition is_view_camera_scoped_misc (misc : option Misc) : bool :=
  match misc with
  | Some SwitchDisplay | Some CaptureDisplays | Some RefreshVideo | Some RefreshVideoDisplay
  | Some VideoReceived | Some ChatMessage | Some AudioFormat | Some ClientRecordStatus
  | Some MessageQuery | Some TogglePrivacyMode | Some ToggleVirtualDisplay
  | Some ChangeResolution | Some ChangeDisplayResolution => true
  | Some (Option o) => is_none (scoped_view_camera_option o).2
  | Some SelectedSid => windows
  | _ => false
  end.

Definition is_view_camera_scoped_message (msg : Message) : bool :=
  match msg with
  | Some ScreenshotRequest => true
  | Some (MiscMessage misc) => is_view_camera_scoped_misc misc
  | Some MouseEvent | Some PointerDeviceEvent | Some KeyEvent => true
  | Some AudioFrame | Some VoiceCallRequest | Some VoiceCallResponse => true
  | _ => false
  end.

Definition misc_message_family (misc : option Misc) : string :=
  match misc with
  | Some ChatMessage => "misc.chat_message"
  | Some SwitchDisplay => "misc.switch_display"
  | Some (Option _) => "misc.option"
  | Some AudioFormat => "misc.audio_format"
  | Some CaptureDisplays => "misc.capture_displays"
  | Some ClientRecordStatus => "misc.client_record_status"
  | Some TogglePrivacyMode => "misc.toggle_privacy_mode"
  | Some ToggleVirtualDisplay => "misc.toggle_virtual_display"
  | Some SelectedSid => "misc.selected_sid"
  | Some ChangeResolution => "misc.change_resolution"
  | Some ChangeDisplayResolution => "misc.change_display_resolution"
  | Some MessageQuery => "misc.message_query"
  | Some FollowCurrentDisplay => "misc.follow_current_display"
  | Some _ => "misc.other"
  | None => "misc.empty"
  end.

Definition message_family (msg : Message) : string :=
  match msg with
  | Some MouseEvent => "mouse_event"
  | Some AudioFrame => "audio_frame"
  | Some PointerDeviceEvent => "pointer_device_event"
  | Some KeyEvent => "key_event"
  | Some Clipboard => "clipboard"
  | Some FileAction => "file_action"
  | Some FileResponse => "file_response"
  | Some VoiceCallRequest => "voice_call_request"
  | Some VoiceCallResponse => "voice_call_response"
  | Some MultiClipboards => "multi_clipboards"
  | Some ScreenshotRequest => "screenshot_request"
  | Some ScreenshotResponse => "screenshot_response"
  | Some TerminalAction => "terminal_action"
  | Some TerminalResponse => "terminal_response"
  | Some (MiscMessage misc) => misc_message_family misc
  | Some _ => "message.other"
  | None => "empty"
  end.

Definition authorized_message_scope_violation (conn_type : AuthConnType) (msg : Message)
  : option string :=
  if is_connection_housekeeping_message msg then None
  else
    let noop_compat :=
      match conn_type with
      | FileTransfer | Terminal =>
          is_render_broadcast_noop_compat_message msg || is_text_clipboard_noop_compat_message msg
      | PortForward => is_render_broadcast_noop_compat_message msg
      | ViewCamera => is_text_clipboard_noop_compat_message msg
      | Remote => false
      end in
    if noop_compat then None
    else
      let allowed :=
        match conn_type with
        | Remote => true
        | FileTransfer => is_file_transfer_scoped_message msg
        | PortForward => false
        | ViewCamera => is_view_camera_scoped_message msg
        | Terminal => is_terminal_scoped_message msg
        end in
      then_some (negb allowed) (message_family msg).

Definition authorized_scope_violation (conn_type : option AuthConnType) (msg : Message)
  : option string :=
  match conn_type with
  | None => then_some (negb (is_connection_housekeeping_message msg)) "session.auth_type"%string
  | Some t => authorized_message_scope_violation t msg
  end.

(** ** Confinement of option messages *)

(** The fields of [option_new] an option may differ in, per session kind. *)
Definition confined (t : AuthConnType) (o : OptionMessage) : Prop :=
  match t with
  | Remote => True
  | ViewCamera =>
      o = mkOption (image_quality o) 0 0 0 0 (custom_image_quality o) (disable_audio o) 0 0
            (supported_decoding o) (custom_fps o) 0 0 0 0 0 0 /\
      image_quality_known (image_quality o) = true /\
      bool_option_known (disable_audio o) = true /\
      0 <= custom_image_quality o /\ 0 <= custom_fps o
  | Terminal =>
      o = mkOption 0 0 0 0 0 0 0 0 0 None 0 0 0 0 0 (terminal_persistent o) 0 /\
      (terminal_persistent o = 1 \/ terminal_persistent o = 2)
  | FileTransfer | PortForward => False
  end.

Lemma then_some_inv {A} b (x y : A) : then_some b x = Some y -> b = true /\ x = y.
Proof. destruct b; [|done]. by intros [= ->]. Qed.

Lemma then_some_None {A} b (x : A) : then_some b x = None <-> b = false.
Proof. by destruct b. Qed.

Lemma view_camera_confined o o' :
  (scoped_view_camera_option o).1 = Some o' -> confined ViewCamera o'.
Proof.
  intros [_ <-]%then_some_inv. cbn. split; [done|].
  destruct (image_quality_known (image_quality o)) eqn:E1;
    destruct (bool_option_known (disable_audio o)) eqn:E2;
    destruct (0 <=? custom_image_quality o) eqn:E3; destruct (0 <=? custom_fps o) eqn:E4;
    rewrite ?Z.leb_le in *; repeat split; try done; lia.
Qed.

Lemma terminal_confined o o' :
  (scoped_terminal_login_option o).1 = Some o' -> confined Terminal o'.
Proof.
  intros [E <-]%then_some_inv. cbn in *. split; [done|].
  destruct (bool_option_known (terminal_persistent o)) eqn:K; [|done].
  unfold bool_option_known, is_bool_option_not_set in *.
  rewrite !orb_true_iff, !Z.eqb_eq in K. destruct K as [[K|K]|K]; [|by left|by right].
  by rewrite K in E.
Qed.

(** Every limited-scope option that is applied is confined to its kind, and
    keeps the values of the message it was reduced from. *)
Lemma applied_confined t o o' :
  updated_option (Some t) o = Some o' \/ update_scoped_login_options (Some t) (Some o) = Some o' ->
  confined t o'.
Proof.
  intros H. destruct t; [done|..].
  - by destruct H as [H|H].
  - by destruct H as [H|H].
  - destruct H as [H|H]; exact (view_camera_confined o o' H).
  - destruct H as [H|H]; exact (terminal_confined o o' H).
Qed.

(** Values an honest client sends in the fields a camera session may set. *)
Definition well_formed (o : OptionMessage) : bool :=
  image_quality_known (image_quality o) && bool_option_known (disable_audio o)
  && (0 <=? custom_image_quality o) && (0 <=? custom_fps o).

Lemma any_field_false o : option_has_any_field o = false -> o = option_new.
Proof.
  unfold option_has_any_field, option_has_non_terminal_login_field, is_bool_option_not_set.
  rewrite !orb_false_iff, !negb_false_iff, !Z.eqb_eq. destruct o; simpl. intros [F T].
  destruct supported_decoding0; [intuition discriminate|].
  destruct F as [[[[[[[[[[[[[[[F1 F2] F3] _] F5] F6] F7] F8] F9] F10] F11] F12] F13] F14] F15] F16].
  by subst.
Qed.

Lemma view_camera_id o : well_formed o = true -> option_has_non_view_camera_login_field o = false ->
  (scoped_view_camera_option o).1 = then_some (option_has_any_field o) o.
Proof.
  intros W F. unfold scoped_view_camera_option. cbn zeta. cbn [fst].
  match goal with |- then_some (option_has_any_field ?x) _ = _ => assert (x = o) as -> end; [|done].
  unfold well_formed in W. rewrite !andb_true_iff in W. destruct W as [[[-> ->] ->] ->].
  apply negb_false_iff in F. unfold is_bool_option_not_set in F. rewrite !andb_true_iff, !Z.eqb_eq in F.
  destruct o; simpl in *. destruct F as [[[[[[[[[[[F1 F2] F3] F4] F5] F6] F7] F8] F9] F10] F11] F12].
  by subst.
Qed.

Lemma terminal_id o : bool_option_known (terminal_persistent o) = true ->
  option_has_non_terminal_login_field o = false ->
  (scoped_terminal_login_option o).1 = then_some (option_has_any_field o) o.
Proof.
  intros K F. unfold scoped_terminal_login_option. cbn zeta. cbn [fst]. rewrite K.
  match goal with |- then_some (option_has_any_field ?x) _ = _ => assert (x = o) as -> end; [|done].
  unfold option_has_non_terminal_login_field, is_bool_option_not_set in F.
  rewrite !orb_false_iff, !negb_false_iff, !Z.eqb_eq in F. destruct o; simpl in *.
  destruct supported_decoding0; [intuition discriminate|].
  destruct F as [[[[[[[[[[[[[[[F1 F2] F3] _] F5] F6] F7] F8] F9] F10] F11] F12] F13] F14] F15] F16].
  by subst.
Qed.

Lemma then_some_any o : then_some (option_has_any_field o) o = Some o \/
  then_some (option_has_any_field o) o = None /\ o = option_new.
Proof. destruct (option_has_any_field o) eqn:E; [by left|right]. split; [done|]. by apply any_field_false. Qed.

(** Options stay in scope: whatever option message a viewer of a limited
    session sends, at login or later, the options that are applied set only
    the image, decoding and audio fields for a camera session, only the
    terminal persistence for a terminal session, and nothing for file transfer
    and port forwarding; unknown enum values and negative numbers are dropped.
    Conversely a well-formed option message that passes the scope check is
    applied as it is, except that file transfer, port forwarding and the
    decoding announcement to a terminal are ignored. *)
Theorem options_confined t o :
  (forall o', updated_option (Some t) o = Some o' \/
              update_scoped_login_options (Some t) (Some o) = Some o' -> confined t o') /\
  (authorized_message_scope_violation t (Some (MiscMessage (Some (Option o)))) = None ->
   well_formed o = true ->
   updated_option (Some t) o = Some o \/
   updated_option (Some t) o = None /\
     (o = option_new \/ t = FileTransfer \/ t = PortForward \/
      t = Terminal /\ is_supported_decoding_only_option o = true)).
Proof.
  split; [intros o'; apply applied_confined|].
  unfold updated_option, authorized_message_scope_violation.
  cbn [is_connection_housekeeping_message is_render_broadcast_noop_compat_message
    is_text_clipboard_noop_compat_message orb]. intros H W.
  destruct t; [by left|right; tauto|right; tauto|..]; rewrite bool_decide_false by done;
    cbn [scoped_update_option_message].
  - apply then_some_None, negb_false_iff in H. rewrite view_camera_id; [|done|].
    { destruct (then_some_any o) as [?|[? ?]]; [by left|right; tauto]. }
    cbn in H. by destruct (option_has_non_view_camera_login_field o).
  - rewrite orb_false_r in H. destruct (is_supported_decoding_only_option o) eqn:Es.
    + right. split; [|tauto]. unfold is_supported_decoding_only_option, is_bool_option_not_set in Es.
      rewrite !andb_true_iff, !Z.eqb_eq in Es. destruct Es as [[_ E] _].
      unfold scoped_terminal_login_option. cbn. by rewrite E.
    + apply then_some_None, negb_false_iff in H. cbn in H.
      destruct (bool_option_known (terminal_persistent o)) eqn:K; [|done].
      destruct (option_has_non_terminal_login_field o) eqn:F; [done|].
      rewrite terminal_id by done. destruct (then_some_any o) as [?|[? ?]]; [by left|right; tauto].
Qed.
End Platform.

Definition fps_option : OptionMessage := mkOption 3 0 0 0 0 0 2 0 0 None 20 0 0 0 0 0 0.

Lemma options_confined_witness :
  updated_option (Some ViewCamera) fps_option = Some fps_option /\
  confined ViewCamera fps_option.
Proof.
  split.
  - destruct (proj2 (options_confined false ViewCamera fps_option) eq_refl eq_refl)
      as [H|[H _]]; [exact H|discriminate H].
  - apply (proj1 (options_confined false ViewCamera fps_option)). left. reflexivity.
Defined.
