(* ===== verification/LoginFlow.v ===== *)
(** * The login state machine of a connection ([src/server/connection.rs])

    [on_message] of the controlled side for the messages that decide whether a
    viewer is let in: login requests, second-factor codes, switch-sides
    responses and the click of the local user.  Passwords, throttling and
    session scopes are the components of [Authentication], [LoginThrottle] and
    [SessionScope].  The build is a Linux or macOS desktop; what the handler
    asks of the system while it runs is [Env]. *)
From S2P Require Import Prelude Crypto Encoding Version PasswordSecurity PermanentPassword.
From S2P Require Import Authentication LoginThrottle SessionScope.

Definition LOGIN_MSG_DESKTOP_SESSION_NOT_READY : bytes := str "Desktop session not ready".
Definition LOGIN_MSG_DESKTOP_SESSION_NOT_READY_PASSWORD_EMPTY : bytes :=
  str "Desktop session not ready, password empty".
Definition LOGIN_MSG_DESKTOP_SESSION_NOT_READY_PASSWORD_WRONG : bytes :=
  str "Desktop session not ready, password wrong".
Definition LOGIN_MSG_PASSWORD_WRONG : bytes := str "Wrong Password".
Definition LOGIN_MSG_2FA_WRONG : bytes := str "Wrong 2FA Code".
Definition REQUIRE_2FA : bytes := str "2FA Required".
Definition LOGIN_MSG_NO_PASSWORD_ACCESS : bytes := str "No Password Access".
Definition LOGIN_MSG_OFFLINE : bytes := str "Offline".

(** ** Permissions *)

(** [control_permissions::Permission] of [rendezvous.proto]. *)
Inductive Permission :=
| keyboard | remote_printer | clipboard | file_permission | audio | camera | terminal_permission
| tunnel | restart | recording | block_input_permission | remote_modify | privacy_mode_permission.

Definition permission_value (p : Permission) : Z :=
  match p with
  | keyboard => 0 | remote_printer => 1 | clipboard => 2 | file_permission => 3 | audio => 4
  | camera => 5 | terminal_permission => 6 | tunnel => 7 | restart => 8 | recording => 9
  | block_input_permission => 10 | remote_modify => 11 | privacy_mode_permission => 12
  end.

(** Two bits per permission: 1 disables, 2 enables. *)
Definition get_control_permission (permissions : Z) (p : Permission) : option bool :=
  let index := permission_value p in
  if (0 <=? index) && (index <? 32) then
    let value := Z.land (Z.shiftr permissions (index * 2)) 3 in
    if value =? 1 then Some false else if value =? 2 then Some true else None
  else None.

(** [is_permission_enabled_locally] of the desktop client. *)
Definition is_permission_enabled_locally (s : Settings) (opt : bytes) : bool :=
  let access_mode := get_option s (str "access-mode") in
  if bool_decide (access_mode = str "full") then true
  else if bool_decide (access_mode = str "view") then false
  else option2bool opt (get_option s opt).

Definition option_permission (opt : bytes) : option Permission :=
  if bool_decide (opt = str "enable-keyboard") then Some keyboard
  else if bool_decide (opt = str "enable-remote-printer") then Some remote_printer
  else if bool_decide (opt = str "enable-clipboard") then Some clipboard
  else if bool_decide (opt = str "enable-file-transfer") then Some file_permission
  else if bool_decide (opt = str "enable-audio") then Some audio
  else if bool_decide (opt = str "enable-camera") then Some camera
  else if bool_decide (opt = str "enable-terminal") then Some terminal_permission
  else if bool_decide (opt = str "enable-tunnel") then Some tunnel
  else if bool_decide (opt = str "enable-remote-restart") then Some restart
  else if bool_decide (opt = str "enable-record-session") then Some recording
  else if bool_decide (opt = str "enable-block-input") then Some block_input_permission
  else if bool_decide (opt = str "enable-privacy-mode") then Some privacy_mode_permission
  else None.

Definition permission (s : Settings) (opt : bytes) (control_permissions : option Z) : bool :=
  match control_permissions ≫= (fun cp => option_permission opt ≫= get_control_permission cp) with
  | Some enabled => enabled
  | None => is_permission_enabled_locally s opt
  end.

(** ** Messages and state *)

(** [login_request::Union] *)
Inductive LoginUnion :=
| LFileTransfer (dir : bytes) (show_hidden : bool)
| LViewCamera
| LTerminal (service_id : bytes)
| LPortForward (host : bytes) (port : Z)
| LRemote.

Record LoginReq := mkLogin {
  username : bytes;
  my_id : bytes;
  my_name : bytes;
  my_platform : bytes;
  session_id : Z;
  lr_pw : bytes;
  lr_hwid : bytes;
  lr_version : bytes;
  lr_option : option OptionMessage;
  os_username : bytes;
  lr_union : LoginUnion
}.
Definition login_default : LoginReq := mkLogin [] [] [] [] 0 [] [] [] None [] LRemote.

Record Conn := mkConn {
  ip : string;
  salt : bytes;
  challenge : bytes;
  control_permissions : option Z;
  authorized : bool;
  lr : LoginReq;
  options_in_login : option OptionMessage;
  require_2fa : option bytes;
  from_switch : bool;
  file_transfer : option (bytes * bool);
  view_camera : bool;
  terminal : bool;
  terminal_persistent : bool;
  terminal_service_id : bytes;
  terminal_user_token : bool;
  port_forward_address : bytes;
  port_forward_socket : bool;
  primary_auth : ConnAuditPrimaryAuth;
  two_factor : ConnAuditTwoFactor;
  authed_conn_type : option AuthConnType
}.

(** Process-wide state. *)
Record Shared := mkShared {
  auth : Auth;
  throttle : Throttle;
  switch_sides_uuid : gmap bytes (Z * bytes)
}.

(** Answers of the system while one message is handled: the clocks
    ([Instant] in nanoseconds, [get_time] in milliseconds), whether the logon
    screen is shown, [is_in_privacy_mode], the result of starting a headless
    desktop, whether headless credentials are throttled before and recorded
    after that, the outcome of a TCP connect, the owner kind of a terminal
    service, random draws and this device's id. *)
Record Env := mkEnv {
  now : Z;
  now_ms : Z;
  is_logon : bool;
  is_in_privacy_mode : bool;
  err_msg : bytes;
  headless_check : bool;
  headless_record : bool;
  connect : bytes -> bool;
  is_service_specified_user : bytes -> option bool;
  draws : list Z;
  get_id : bytes
}.

Inductive Effect :=
| SendLoginErr (msg : bytes)
| TryStartCm (peer_id name : bytes) (authorized : bool)
| PostAlarmAudit (a : AlarmAuditType)
| ConnAudit (t : AuthConnType) (p : ConnAuditPrimaryAuth) (f : ConnAuditTwoFactor).

(** A handler's result: keep the connection?, the new states, the effects. *)
Definition R : Type := bool * Conn * Shared * list Effect.

Definition set_lr (c : Conn) (l : LoginReq) (o : option OptionMessage) : Conn :=
  mkConn (ip c) (salt c) (challenge c) (control_permissions c) (authorized c) l o (require_2fa c)
    (from_switch c) (file_transfer c) (view_camera c) (terminal c) (terminal_persistent c)
    (terminal_service_id c) (terminal_user_token c) (port_forward_address c) (port_forward_socket c)
    (primary_auth c) (two_factor c) (authed_conn_type c).
Definition set_scope (c : Conn) (ft : option (bytes * bool)) (vc term persistent : bool)
  (service addr : bytes) : Conn :=
  mkConn (ip c) (salt c) (challenge c) (control_permissions c) (authorized c) (lr c)
    (options_in_login c) (require_2fa c) (from_switch c) ft vc term persistent service
    (terminal_user_token c) addr (port_forward_socket c) (primary_auth c) (two_factor c)
    (authed_conn_type c).
Definition set_2fa (c : Conn) (r : option bytes) (f : ConnAuditTwoFactor) : Conn :=
  mkConn (ip c) (salt c) (challenge c) (control_permissions c) (authorized c) (lr c)
    (options_in_login c) r (from_switch c) (file_transfer c) (view_camera c) (terminal c)
    (terminal_persistent c) (terminal_service_id c) (terminal_user_token c)
    (port_forward_address c) (port_forward_socket c) (primary_auth c) f (authed_conn_type c).
Definition set_primary (c : Conn) (p : ConnAuditPrimaryAuth) (switch : bool) : Conn :=
  mkConn (ip c) (salt c) (challenge c) (control_permissions c) (authorized c) (lr c)
    (options_in_login c) (require_2fa c) switch (file_transfer c) (view_camera c) (terminal c)
    (terminal_persistent c) (terminal_service_id c) (terminal_user_token c)
    (port_forward_address c) (port_forward_socket c) p (two_factor c) (authed_conn_type c).
Definition set_token (c : Conn) : Conn :=
  mkConn (ip c) (salt c) (challenge c) (control_permissions c) (authorized c) (lr c)
    (options_in_login c) (require_2fa c) (from_switch c) (file_transfer c) (view_camera c)
    (terminal c) (terminal_persistent c) (terminal_service_id c) true
    (port_forward_address c) (port_forward_socket c) (primary_auth c) (two_factor c)
    (authed_conn_type c).
Definition set_port_forward (c : Conn) (addr : bytes) (sock : bool) : Conn :=
  mkConn (ip c) (salt c) (challenge c) (control_permissions c) (authorized c) (lr c)
    (options_in_login c) (require_2fa c) (from_switch c) (file_transfer c) (view_camera c)
    (terminal c) (terminal_persistent c) (terminal_service_id c) (terminal_user_token c)
    addr sock (primary_auth c) (two_factor c) (authed_conn_type c).
Definition set_authorized (c : Conn) (t : AuthConnType) (f : ConnAuditTwoFactor) : Conn :=
  mkConn (ip c) (salt c) (challenge c) (control_permissions c) true (lr c)
    (options_in_login c) (require_2fa c) (from_switch c) (file_transfer c) (view_camera c)
    (terminal c) (terminal_persistent c) (terminal_service_id c) (terminal_user_token c)
    (port_forward_address c) (port_forward_socket c) (primary_auth c) f (Some t).

Definition with_auth (s : Shared) (a : Auth) : Shared :=
  mkShared a (throttle s) (switch_sides_uuid s).
Definition with_throttle (s : Shared) (t : Throttle) : Shared :=
  mkShared (auth s) t (switch_sides_uuid s).

Definition attempt (c : Conn) : Attempt :=
  mkAttempt (salt c) (challenge c) (lr_pw (lr c)) (my_id (lr c), my_name (lr c), session_id (lr c)).
Definition key_of (c : Conn) : SessionKey := session_key (attempt c).

Definition throttle_effect (e : LoginEffect) : Effect :=
  match e with SendLoginError m => SendLoginErr (str m) | PostAlarm a => PostAlarmAudit a end.

Section Login.
Context {SB : Secretbox} {B64 : Base64} {SHA : Sha256}.
Context (m : Machine) (parse_v6 : string -> option bytes) (show_v6 : bytes -> string).
(** [is_direct_ip_access] (regular expressions) and [TOTP::check_current] for
    a secret, a code and the time; [None] is an error of the clock. *)
Context (is_direct_ip_access : bytes -> bool).
Context (check_current : bytes -> bytes -> Z -> option bool).
(** [serde_json] text of the trusted devices. *)
Context (devices_json : list TrustedDevice -> bytes).

Definition enable_trusted_devices (s : Settings) : bool :=
  option2bool (str "enable-trusted-devices") (get_option s (str "enable-trusted-devices")).

Definition set_trusted_devices (now : Z) (w : World) (ds : list TrustedDevice) : World :=
  let ds := List.filter (fun d => negb (outdate now d)) ds in
  if 1024 * 1024 <? len (devices_json ds) then w else with_trusted_devices w ds.
Definition add_trusted_device (now : Z) (w : World) (d : TrustedDevice) : World :=
  set_trusted_devices now w
    (List.filter (fun x => negb (bool_decide (hwid x = hwid d))) (trusted_devices w) ++ [d]).

Definition handle_login_request_without_validation (e : Env) (l : LoginReq) (c : Conn) (s : Shared)
  : Conn :=
  let c := set_lr c l (match lr_option l with Some o => Some o | None => options_in_login c end) in
  if negb (bool_decide (require_2fa c = None)) && negb (is_empty (lr_hwid l))
     && enable_trusted_devices (settings (auth s)) then
    match List.find (fun d => bool_decide (hwid d = lr_hwid l)) (trusted_devices (world (auth s))) with
    | Some device =>
        if negb (outdate (now_ms e) device)
           && bool_decide (device_id device = my_id l)
           && bool_decide (device_name device = my_name l)
           && bool_decide (device_platform device = my_platform l)
        then set_2fa c None TrustedDeviceFactor
        else c
    | None => c
    end
  else c.

Definition reset_session_scope_for_login (c : Conn) : Conn :=
  set_scope c None false false false (terminal_service_id c) [].

Definition normalize_port_forward_target (host : bytes) (port : Z) : bytes * bool :=
  let '(host, port, is_rdp) :=
    if bool_decide (host = str "RDP") && (port =? 0) then (str "localhost", 3389, true)
    else (host, port, false) in
  let host := if is_empty host then str "localhost" else host in
  (host ++ str ":" ++ str (pretty port), is_rdp).

Definition connect_port_forward_if_needed (e : Env) (c : Conn) : bool * Conn * list Effect :=
  if port_forward_socket c then (true, c, [])
  else
    match lr_union (lr c) with
    | LPortForward host port =>
        let '(addr, is_rdp) := normalize_port_forward_target host port in
        if connect e addr then (true, set_port_forward c addr true, [])
        else
          (false, set_port_forward c addr false,
           [SendLoginErr (str "Failed to access remote " ++ (if is_rdp then str "RDP" else addr)
                          ++ str ". Please make sure it is reachable/open.")])
    | _ => (true, c, [])
    end.

(** On these platforms every terminal runs as the session user. *)
Definition prepare_terminal_login_for_authorization (e : Env) (c : Conn)
  : option bool * Conn * list Effect :=
  if negb (terminal c) || terminal_user_token c then (None, c, [])
  else
    let c := set_token c in
    match is_service_specified_user e (terminal_service_id c) with
    | Some true => (Some false, c, [SendLoginErr (str "Terminal service user mismatch detected.")])
    | _ => (None, c, [])
    end.

Definition normalize_conn_audit_auth_fields (c : Conn) : ConnAuditTwoFactor :=
  match primary_auth c with
  | ClickAuth | SwitchSides => NoTwoFactor
  | _ => two_factor c
  end.

Definition session_kind (c : Conn) : AuthConnType :=
  match file_transfer c with
  | Some _ => FileTransfer
  | None =>
      if port_forward_socket c then PortForward
      else if view_camera c then ViewCamera
      else if terminal c then Terminal
      else Remote
  end.

(** The second factor is still due; [is_recent_session] may settle it. *)
Definition second_factor_due (e : Env) (c : Conn) (s : Shared) : bool * Conn * Shared :=
  match require_2fa c with
  | None => (false, c, s)
  | Some _ =>
      let '(recent, a) := is_recent_session (attempt c) true (now e) (auth s) in
      (negb recent && negb (from_switch c),
       if recent then set_2fa c (require_2fa c) Totp else c, with_auth s a)
  end.

Definition send_logon_response_and_keep_alive (e : Env) (c : Conn) (s : Shared) : R :=
  if authorized c then (true, c, s, [])
  else
    let '(due, c, s) := second_factor_due e c s in
    if due then (true, c, s, [SendLoginErr REQUIRE_2FA])
    else
      let '(prepared, c, eff) := prepare_terminal_login_for_authorization e c in
      match prepared with
      | Some keep_alive => (keep_alive, c, s, eff)
      | None =>
          let '(ok, c, eff2) := connect_port_forward_if_needed e c in
          if negb ok then (false, c, s, eff ++ eff2)
          else
            let f := normalize_conn_audit_auth_fields c in
            let c := set_authorized c (session_kind c) f in
            (true, c, s, eff ++ eff2 ++ [ConnAudit (session_kind c) (primary_auth c) f])
      end.

(** Granting access after a check passed, then telling the connection
    manager. *)
Definition grant (e : Env) (c : Conn) (s : Shared) : R :=
  let '(keep, c, s, eff) := send_logon_response_and_keep_alive e c s in
  if negb keep then (false, c, s, eff)
  else (true, c, s, eff ++ [TryStartCm (my_id (lr c)) (my_name (lr c)) (authorized c)]).

(** The permission check of the requested session kind; [None] refuses. *)
Definition request_scope (e : Env) (c : Conn) (s : Shared) : option Conn * list Effect :=
  let l := lr c in
  let allowed o := permission (settings (auth s)) (str o) (control_permissions c) in
  match lr_union l with
  | LFileTransfer dir hidden =>
      if negb (allowed "enable-file-transfer"%string)
      then (None, [SendLoginErr (str "No permission of file transfer")])
      else (Some (set_scope c (Some (dir, hidden)) false false false (terminal_service_id c) []), [])
  | LViewCamera =>
      if negb (allowed "enable-camera"%string)
      then (None, [SendLoginErr (str "No permission of viewing camera")])
      else (Some (set_scope c None true false false (terminal_service_id c) []), [])
  | LTerminal service =>
      if negb (allowed "enable-terminal"%string)
      then (None, [SendLoginErr (str "No permission of terminal")])
      else
        let persistent := match options_in_login c with
                          | Some o => SessionScope.terminal_persistent o =? 2
                          | None => false end in
        (Some (set_scope c None false true persistent service []), [])
  | LPortForward host port =>
      if negb (allowed "enable-tunnel"%string)
      then (None, [SendLoginErr (str "No permission of IP tunneling")])
      else (Some (set_scope c None false false false (terminal_service_id c)
                    (normalize_port_forward_target host port).1), [])
  | LRemote =>
      if is_in_privacy_mode e
      then (None, [SendLoginErr (str "Someone turns on privacy mode, exit")])
      else (Some c, [])
  end.

Definition allow_logon_screen_password (e : Env) (s : Shared) : bool :=
  bool_decide (default [] (builtin_settings (world (auth s)) !! str "allow-logon-screen-password")
               = str "Y") && is_logon e.

(** Only the local user can let this viewer in. *)
Definition click_only (e : Env) (s : Shared) : bool :=
  bool_decide (approve_mode (settings (auth s)) = Click) && negb (allow_logon_screen_password e s)
  || bool_decide (approve_mode (settings (auth s)) = Both) && negb (has_valid_password m (auth s)).

(** The password stage of a login request, after scope and identity checks. *)
Definition check_password (e : Env) (c : Conn) (s : Shared) : R :=
  let l := lr c in
  let start_cm := TryStartCm (my_id l) (my_name l) false in
  if click_only e s then
    (true, c, s,
     start_cm :: (if get_version_number (str "1.2.0") <=? get_version_number (lr_version l)
                  then [SendLoginErr LOGIN_MSG_NO_PASSWORD_ACCESS] else []))
  else
    let '(recent, a) := is_recent_session (attempt c) false (now e) (auth s) in
    let s := with_auth s a in
    if recent then
      let c := set_primary c TemporaryPassword (from_switch c) in
      if is_empty (err_msg e) then grant e c s
      else (true, c, s, [SendLoginErr (err_msg e)])
    else if is_empty (lr_pw l) then
      if is_empty (err_msg e) then (true, c, s, [start_cm])
      else (true, c, s, [SendLoginErr LOGIN_MSG_DESKTOP_SESSION_NOT_READY_PASSWORD_EMPTY])
    else
      let '(failure, time, res, eff, t) := check_failure parse_v6 show_v6 (ip c) 0 (now_ms e) (throttle s) in
      let s := with_throttle s t in
      let eff := List.map throttle_effect eff in
      if negb res then (true, c, s, eff)
      else
        let '(ok, primary, a) :=
          validate_password m (attempt c) (allow_logon_screen_password e s) (now e) (auth s) in
        let s := with_auth s a in
        if negb ok then
          let s := with_throttle s (update_failure_with_scope parse_v6 show_v6 (ip c) failure time false 0
                     DefaultScope (now_ms e) (throttle s)) in
          let s := with_auth s (check_update_temporary_password (auth s) false (draws e)) in
          (true, c, s,
           eff ++ (if is_empty (err_msg e) then [SendLoginErr LOGIN_MSG_PASSWORD_WRONG; start_cm]
                   else [SendLoginErr LOGIN_MSG_DESKTOP_SESSION_NOT_READY_PASSWORD_WRONG]))
        else
          let c := set_primary c (default (primary_auth c) primary) (from_switch c) in
          let s := with_throttle s (update_failure_with_scope parse_v6 show_v6 (ip c) failure time true 0
                     DefaultScope (now_ms e) (throttle s)) in
          if is_empty (err_msg e) then
            let '(keep, c, s, eff2) := grant e c s in (keep, c, s, eff ++ eff2)
          else (true, c, s, eff ++ [SendLoginErr (err_msg e)]).

(** Starting a headless desktop with operating-system credentials. *)
Definition headless_desktop (e : Env) (c : Conn) (s : Shared) : option (Shared * list Effect) * Shared * list Effect :=
  let '(ok1, s, eff1) :=
    if headless_check e then
      let '(_, _, res, eff, t) := check_failure parse_v6 show_v6 (ip c) 0 (now_ms e) (throttle s) in
      (res, with_throttle s t, List.map throttle_effect eff)
    else (true, s, []) in
  if negb ok1 then (None, s, eff1)
  else if negb (is_empty (err_msg e)) && negb (bool_decide (err_msg e = LOGIN_MSG_DESKTOP_SESSION_NOT_READY)) then
    if headless_record e then
      let '(failure, time, res, eff, t) := check_failure parse_v6 show_v6 (ip c) 0 (now_ms e) (throttle s) in
      let s := with_throttle s t in
      let eff := List.map throttle_effect eff in
      if negb res then (None, s, eff1 ++ eff)
      else
        (None, with_throttle s (update_failure parse_v6 show_v6 (ip c) failure time false 0 (now_ms e) (throttle s)),
         eff1 ++ eff ++ [SendLoginErr (err_msg e)])
    else (None, s, eff1 ++ [SendLoginErr (err_msg e)])
  else (Some (s, eff1), s, eff1).

Definition on_login_request (e : Env) (l : LoginReq) (c : Conn) (s : Shared) : R :=
  let c := handle_login_request_without_validation e l c s in
  if authorized c then (true, c, s, [])
  else
    let c := reset_session_scope_for_login c in
    let '(scoped, eff) := request_scope e c s in
    match scoped with
    | None => (false, c, s, eff)
    | Some c =>
        if negb (is_direct_ip_access (username l)) && negb (bool_decide (username l = get_id e))
        then (false, c, s, [SendLoginErr LOGIN_MSG_OFFLINE])
        else
          let '(go, s', eff) := headless_desktop e c s in
          match go with
          | None => (true, c, s', eff)
          | Some (s, eff) =>
              let '(keep, c, s, eff2) := check_password e c s in (keep, c, s, eff ++ eff2)
          end
    end.

Definition on_auth_2fa (e : Env) (code hw : bytes) (c : Conn) (s : Shared) : R :=
  let '(failure, time, res, eff, t) := check_failure parse_v6 show_v6 (ip c) 1 (now_ms e) (throttle s) in
  let s := with_throttle s t in
  let eff := List.map throttle_effect eff in
  if negb res then (true, c, s, eff)
  else
    match require_2fa c with
    | None => (true, c, s, eff)
    | Some totp =>
        match check_current totp code (now_ms e) with
        | None => (true, c, s, eff)
        | Some true =>
            let s := with_throttle s (update_failure parse_v6 show_v6 (ip c) failure time true 1 (now_ms e) (throttle s)) in
            let c := set_2fa c None Totp in
            let s := with_auth s (with_sessions (auth s)
                       (set_session_2fa (sessions (auth s)) (now e) (key_of c))) in
            let '(keep, c, s, eff2) := grant e c s in
            if negb keep then (false, c, s, eff ++ eff2)
            else
              let s :=
                if negb (is_empty hw) && enable_trusted_devices (settings (auth s)) then
                  let a := auth s in
                  with_auth s (mkAuth (add_trusted_device (now_ms e) (world a)
                      (mkTrustedDevice hw (now_ms e) (my_id (lr c)) (my_name (lr c)) (my_platform (lr c))))
                    (settings a) (temporary_password a) (tmp_failures a) (sessions a))
                else s in
              (true, c, s, eff ++ eff2)
        | Some false =>
            let s := with_throttle s (update_failure parse_v6 show_v6 (ip c) failure time false 1 (now_ms e) (throttle s)) in
            (true, c, s, eff ++ [SendLoginErr LOGIN_MSG_2FA_WRONG])
        end
    end.

(** Ten seconds. *)
Definition SWITCH_SIDES_TIMEOUT : Z := 10 * 1000000000.

(** [uuid] is [None] when the bytes of the message are not a uuid. *)
Definition on_switch_sides (e : Env) (l : LoginReq) (uuid : option bytes) (c : Conn) (s : Shared) : R :=
  let c := handle_login_request_without_validation e l c s in
  let uuids := filter (fun x : bytes * (Z * bytes) => now e - x.2.1 < SWITCH_SIDES_TIMEOUT)
                 (switch_sides_uuid s) in
  let uuid_old := uuids !! my_id l in
  let s := mkShared (auth s) (throttle s) (delete (my_id l) uuids) in
  match uuid, uuid_old with
  | Some u, Some (_, u_old) =>
      if bool_decide (u = u_old) then grant e (set_primary c SwitchSides true) s
      else (true, c, s, [])
  | _, _ => (true, c, s, [])
  end.

(** [ipc::Data::Authorize]: the local user clicked "accept".  A connection with
    a forwarding socket leaves the message loop for the forwarding loop; it is
    kept in both cases. *)
Definition on_click_authorize (e : Env) (c : Conn) (s : Shared) : R :=
  let c := set_primary c ClickAuth (from_switch c) in
  let c := set_2fa c None (two_factor c) in
  send_logon_response_and_keep_alive e c s.

(** What happens to a connection. *)
Inductive Event :=
| EvLogin (l : LoginReq)
| EvAuth2fa (code hw : bytes)
| EvSwitchSides (l : LoginReq) (uuid : option bytes)
| EvClick
| EvOther (msg : Message).

(** [on_message] and the click.  Once authorized, a login request is ignored
    and any other message has to be in scope; a violation ends the connection
    when the device is configured so.  Handlers of
    in-scope messages do not touch the login state and are not modelled. *)
Definition on_event (e : Env) (ev : Event) (c : Conn) (s : Shared) : R :=
  let msg : Message :=
    match ev with
    | EvLogin _ => Some SessionScope.LoginRequest
    | EvAuth2fa _ _ => Some Auth2fa
    | EvSwitchSides _ _ => Some SwitchSidesResponse
    | EvOther msg => msg
    | EvClick => None
    end in
  match ev with
  | EvClick => on_click_authorize e c s
  | _ =>
      match msg with
      | Some (MiscMessage (Some CloseReason)) => (false, c, s, [])
      | _ =>
          if authorized c && match ev with EvLogin _ => true | _ => false end then (true, c, s, [])
          else if authorized c
                  && negb (is_none (authorized_scope_violation false (authed_conn_type c) msg))
          then
            (negb (get_bool_option (settings (auth s)) (str "allow-scope-violation-close")), c, s, [])
          else
            match ev with
            | EvLogin l => on_login_request e l c s
            | EvAuth2fa code hw => on_auth_2fa e code hw c s
            | EvSwitchSides l u => on_switch_sides e l u c s
            | _ => (true, c, s, [])
            end
      end
  end.

(** ** What it takes to be authorized *)

Definition recent_second_factor (e : Env) (key : SessionKey) (s : Shared) : Prop :=
  exists x, sessions (auth s) !! key = Some x /\ tfa x = true /\
    now e - last_recv_time x < SESSION_TIMEOUT.

(** The second factor is not required, or settled without a code. *)
Definition second_factor_ok (e : Env) (c : Conn) (s : Shared) : Prop :=
  require_2fa c = None \/ from_switch c = true \/ recent_second_factor e (key_of c) s.

(** Fields that granting access does not change. *)
Definition same_request (c c' : Conn) : Prop :=
  lr c' = lr c /\ control_permissions c' = control_permissions c /\
  file_transfer c' = file_transfer c /\ view_camera c' = view_camera c /\
  terminal c' = terminal c.

Lemma is_recent_tfa c now0 a b :
  is_recent_session c true now0 a = (true, b) ->
  exists x, sessions a !! session_key c = Some x /\ tfa x = true /\
    now0 - last_recv_time x < SESSION_TIMEOUT.
Proof.
  unfold is_recent_session. simpl.
  destruct (filter _ (sessions a) !! session_key c) as [x|] eqn:E; [|done].
  apply map_lookup_filter_Some in E as [E1 E2]. intros [= H _].
  exists x. split; [done|]. rewrite orb_false_r in H. apply andb_true_iff in H as [_ H]. done.
Qed.

Lemma is_recent_keeps c tf now0 a :
  settings (is_recent_session c tf now0 a).2 = settings a /\
  world (is_recent_session c tf now0 a).2 = world a /\
  temporary_password (is_recent_session c tf now0 a).2 = temporary_password a /\
  (forall k x, sessions (is_recent_session c tf now0 a).2 !! k = Some x -> sessions a !! k = Some x).
Proof.
  unfold is_recent_session. destruct (filter _ (sessions a) !! session_key c); simpl;
    (split; [done|split; [done|split; [done|]]]); intros k x H; by apply map_lookup_filter_Some in H as [? _].
Qed.

Lemma second_factor_due_spec e c s due c1 s1 :
  second_factor_due e c s = (due, c1, s1) ->
  same_request c c1 /\ authorized c1 = authorized c /\ authed_conn_type c1 = authed_conn_type c /\
  port_forward_socket c1 = port_forward_socket c /\
  settings (auth s1) = settings (auth s) /\ (due = false -> second_factor_ok e c s).
Proof.
  unfold second_factor_due, second_factor_ok. destruct (require_2fa c) as [totp|] eqn:E.
  - pose proof (is_recent_keeps (attempt c) true (now e) (auth s)) as (K & _).
    destruct (is_recent_session (attempt c) true (now e) (auth s)) as [recent a] eqn:R.
    intros [= <- <- <-]. simpl in K.
    do 4 (split; [by destruct recent|]). split; [done|].
    destruct recent; simpl; intros H.
    + right. right. by apply (is_recent_tfa _ _ _ _ R).
    + right. left. by destruct (from_switch c).
  - intros [= <- <- <-]. repeat split; try done. by left.
Qed.

Definition is_port_forward (u : LoginUnion) : bool :=
  match u with LPortForward _ _ => true | _ => false end.

(** The outcome [c'], [s'] of trying to let in connection [c]. *)
Definition granted (e : Env) (c : Conn) (s : Shared) (c' : Conn) (s' : Shared) : Prop :=
  same_request c c' /\ settings (auth s') = settings (auth s) /\
  (authorized c' = true -> second_factor_ok e c s) /\
  (authorized c' = true /\ authed_conn_type c' = Some (session_kind c') \/
   authorized c' = false /\ authed_conn_type c' = authed_conn_type c) /\
  (port_forward_socket c' = true ->
   port_forward_socket c = true \/ is_port_forward (lr_union (lr c)) = true).

Lemma not_granted e c s c' s' : same_request c c' -> settings (auth s') = settings (auth s) ->
  authorized c' = false -> authed_conn_type c' = authed_conn_type c ->
  (port_forward_socket c' = true ->
   port_forward_socket c = true \/ is_port_forward (lr_union (lr c)) = true) ->
  granted e c s c' s'.
Proof. intros S K A T P. split; [done|]. split; [done|]. split; [congruence|]. split; [by right|done]. Qed.

Lemma prepare_keeps e c pr c2 eff : prepare_terminal_login_for_authorization e c = (pr, c2, eff) ->
  same_request c c2 /\ authorized c2 = authorized c /\ authed_conn_type c2 = authed_conn_type c /\
  port_forward_socket c2 = port_forward_socket c.
Proof.
  unfold prepare_terminal_login_for_authorization.
  destruct (negb (terminal c) || terminal_user_token c); [by intros [= _ <- _]|].
  simpl. destruct (is_service_specified_user e (terminal_service_id c)) as [[]|]; by intros [= _ <- _].
Qed.

Lemma connect_keeps e c ok c3 eff : connect_port_forward_if_needed e c = (ok, c3, eff) ->
  same_request c c3 /\ authorized c3 = authorized c /\ authed_conn_type c3 = authed_conn_type c /\
  (port_forward_socket c3 = true ->
   port_forward_socket c = true \/ is_port_forward (lr_union (lr c)) = true).
Proof.
  unfold connect_port_forward_if_needed.
  destruct (port_forward_socket c) eqn:Sk; [intros [= _ <- _]; repeat split; by left|].
  destruct (lr_union (lr c)); try (intros [= _ <- _]; repeat split; congruence).
  destruct (normalize_port_forward_target host port) as [addr rdp].
  destruct (connect e addr); intros [= _ <- _]; repeat split; simpl; by right.
Qed.

Lemma same_request_trans a b c : same_request a b -> same_request b c -> same_request a c.
Proof. unfold same_request. intros (-> & -> & -> & -> & ->). done. Qed.

Lemma send_logon_spec e c s k c' s' eff : authorized c = false ->
  send_logon_response_and_keep_alive e c s = (k, c', s', eff) -> granted e c s c' s'.
Proof.
  intros Ha. unfold send_logon_response_and_keep_alive. rewrite Ha.
  destruct (second_factor_due e c s) as [[due c1] s1] eqn:D.
  destruct (second_factor_due_spec _ _ _ _ _ _ D) as (S & A & T & P & K & F).
  rewrite Ha in A.
  destruct due; [intros [= <- <- <- <-]; apply not_granted; try done; left; congruence|].
  destruct (prepare_terminal_login_for_authorization e c1) as [[pr c2] eff1] eqn:Pr.
  destruct (prepare_keeps _ _ _ _ _ Pr) as (S2 & A2 & T2 & P2).
  pose proof (same_request_trans _ _ _ S S2) as S'.
  destruct pr as [ka|];
    [intros [= <- <- <- <-]; apply not_granted; try done; [congruence..|left; congruence]|].
  destruct (connect_port_forward_if_needed e c2) as [[ok c3] eff2] eqn:Co.
  destruct (connect_keeps _ _ _ _ _ Co) as (S3 & A3 & T3 & P3).
  pose proof (same_request_trans _ _ _ S' S3) as S''.
  rewrite P2, P, (proj1 S') in P3.
  destruct ok; intros [= <- <- <- <-]; [|apply not_granted; try done; congruence].
  split; [done|]. split; [done|]. split; [intros _; by apply F|]. split; [by left|done].
Qed.

Lemma grant_spec e c s k c' s' eff : authorized c = false ->
  grant e c s = (k, c', s', eff) -> granted e c s c' s'.
Proof.
  intros Ha. unfold grant.
  destruct (send_logon_response_and_keep_alive e c s) as [[[k0 c0] s0] eff0] eqn:E.
  pose proof (send_logon_spec _ _ _ _ _ _ _ Ha E). destruct k0; simpl; by intros [= <- <- <- <-].
Qed.

(** ** The password stage *)
Definition throttle_allows (c : Conn) (i : nat) (e : Env) (s : Shared) : Prop :=
  let '(_, _, res, _, _) := check_failure parse_v6 show_v6 (ip c) i (now_ms e) (throttle s) in
  res = true.

(** The viewer resumed a recent session, or answered the challenge for one of
    the passwords in force while not being throttled. *)
Definition password_proof (e : Env) (c : Conn) (s : Shared) : Prop :=
  (is_recent_session (attempt c) false (now e) (auth s)).1 = true \/
  (throttle_allows c 0 e s /\
   answers (attempt c) (credentials m (attempt c) (allow_logon_screen_password e s) (auth s))).

Lemma check_failure_keeps ip0 i now0 t :
  (check_failure parse_v6 show_v6 ip0 i now0 t).2 = t.
Proof.
  unfold check_failure, check_failure_with_scope.
  repeat match goal with |- context [match ?x with _ => _ end] => destruct x; try done end.
Qed.

Lemma check_update_keeps a b d :
  settings (check_update_temporary_password a b d) = settings a /\
  world (check_update_temporary_password a b d) = world a /\
  sessions (check_update_temporary_password a b d) = sessions a.
Proof.
  unfold check_update_temporary_password.
  repeat match goal with |- context [if ?x then _ else _] => destruct x; try done end.
Qed.

Lemma validate_keeps c allow now0 a ok p a' :
  validate_password m c allow now0 a = (ok, p, a') ->
  settings a' = settings a /\
  (forall x, sessions a' !! session_key c = Some x -> tfa x = true ->
             sessions a !! session_key c = Some x).
Proof.
  unfold validate_password.
  destruct (temporary_enabled (settings a) && validate_password_plain c (temporary_password a)).
  - intros [= _ _ <-]. match goal with |- context [check_update_temporary_password ?x ?y ?z] =>
      destruct (check_update_keeps x y z) as (-> & _ & ->) end. split; [done|].
    intros x. simpl. unfold update_or_insert_session.
    destruct (sessions a !! session_key c); rewrite lookup_insert_eq; by intros [= <-].
  - destruct (permanent_enabled (settings a) || allow); [|by intros [= _ _ <-]]. simpl.
    destruct (negb (is_empty (PermanentPassword.password (config (world a)))));
      match goal with |- context [if ?b then (true, _, _) else _] => destruct b end;
      by intros [= _ _ <-].
Qed.

Lemma second_factor_ok_mono e c c' s s' :
  require_2fa c' = require_2fa c -> from_switch c' = from_switch c -> key_of c' = key_of c ->
  (forall x, sessions (auth s') !! key_of c = Some x -> tfa x = true ->
             sessions (auth s) !! key_of c = Some x) ->
  second_factor_ok e c' s' -> second_factor_ok e c s.
Proof.
  unfold second_factor_ok, recent_second_factor. intros -> -> -> H [?|[?|(x & Hx & Ht & Hn)]];
    [tauto|tauto|]. right. right. exists x. auto.
Qed.

Definition password_stage (e : Env) (c : Conn) (s : Shared) (c' : Conn) (s' : Shared) : Prop :=
  granted e c s c' s' /\
  (authorized c' = true -> click_only e s = false /\ password_proof e c s).

Lemma granted_mono e c0 c s0 s c' s' :
  same_request c c0 -> authed_conn_type c0 = authed_conn_type c ->
  port_forward_socket c0 = port_forward_socket c -> settings (auth s0) = settings (auth s) ->
  (second_factor_ok e c0 s0 -> second_factor_ok e c s) ->
  granted e c0 s0 c' s' -> granted e c s c' s'.
Proof.
  intros S T P K F (S1 & K1 & F1 & T1 & P1). split; [by apply (same_request_trans _ c0)|].
  split; [congruence|]. split; [auto|]. rewrite T in T1. split; [done|].
  by rewrite P, (proj1 S) in P1.
Qed.

Lemma check_password_spec e c s k c' s' eff : authorized c = false ->
  check_password e c s = (k, c', s', eff) -> password_stage e c s c' s'.
Proof.
  intros Ha. unfold check_password.
  assert (forall s1, settings (auth s1) = settings (auth s) -> password_stage e c s c s1) as Hno.
  { intros s1 K. split; [apply not_granted; try done; by left|]. congruence. }
  destruct (click_only e s) eqn:Hc; [intros [= <- <- <- <-]; by apply Hno|].
  pose proof (is_recent_keeps (attempt c) false (now e) (auth s)) as (K1 & W1 & P1 & N1).
  destruct (is_recent_session (attempt c) false (now e) (auth s)) as [recent a] eqn:R.
  simpl in K1, W1, P1, N1. destruct recent.
  { destruct (is_empty (err_msg e)).
    - intros G. apply grant_spec in G; [|done].
      split; [|intros _; split; [done|left; by rewrite R]].
      eapply granted_mono; [..|exact G]; try done.
      apply second_factor_ok_mono; try done. simpl. auto.
    - intros [= <- <- <- <-]. split; [apply not_granted; try done; by left|]. simpl. congruence. }
  destruct (is_empty (lr_pw (lr c))).
  { destruct (is_empty (err_msg e)); intros [= <- <- <- <-]; by apply Hno. }
  simpl throttle.
  pose proof (check_failure_keeps (ip c) 0 (now_ms e) (throttle s)) as Ht.
  destruct (check_failure parse_v6 show_v6 (ip c) 0 (now_ms e) (throttle s))
    as [[[[failure time] res] eff0] t] eqn:Cf. simpl in Ht. subst t.
  destruct res; simpl negb; cbv iota; [|intros [= <- <- <- <-]; by apply Hno].
  match goal with |- context [validate_password m ?x ?y ?z ?w] =>
    pose proof (validate_password_spec m x y z w) as V;
    destruct (validate_password m x y z w) as [[ok primary] a'] eqn:Ev end.
  destruct (validate_keeps _ _ _ _ _ _ _ Ev) as [K2 N2]. simpl in K2, N2, V.
  destruct ok; simpl negb; cbv iota.
  - assert (password_proof e c s) as Hp.
    { right. split; [unfold throttle_allows; by rewrite Cf|].
      destruct V as [V _]. specialize (V eq_refl). revert V.
      unfold allow_logon_screen_password. simpl. rewrite W1.
      unfold credentials, temporary_credentials. by rewrite K1, W1, P1. }
    destruct (is_empty (err_msg e)).
    + match goal with |- context [grant e ?x ?y] => destruct (grant e x y) as [[[k2 c2] s2] eff2] eqn:G end.
      apply grant_spec in G; [|done]. intros [= <- <- <- <-]. split; [|done].
      eapply granted_mono; [..|exact G]; simpl; try done; [congruence|].
      apply second_factor_ok_mono; try done. simpl. intros x Hx Hf. auto.
    + intros [= <- <- <- <-]. split; [|done]. apply not_granted; try done; [simpl; congruence|by left].
  - intros [= <- <- <- <-]. apply Hno. simpl.
    match goal with |- context [check_update_temporary_password ?x ?y ?z] =>
      destruct (check_update_keeps x y z) as (-> & _) end. simpl. congruence.
Qed.

(** ** Login requests *)
Definition trusted_device (e : Env) (l : LoginReq) (s : Shared) : Prop :=
  enable_trusted_devices (settings (auth s)) = true /\ lr_hwid l <> [] /\
  exists d, In d (trusted_devices (world (auth s))) /\ hwid d = lr_hwid l /\
    outdate (now_ms e) d = false /\ device_id d = my_id l /\ device_name d = my_name l /\
    device_platform d = my_platform l.

Definition requested (c : Conn) (l : LoginReq) : Conn := set_lr c l (lr_option l).

Lemma handle_login_keeps e l c s :
  let c1 := handle_login_request_without_validation e l c s in
  lr c1 = l /\ ip c1 = ip c /\ salt c1 = salt c /\ challenge c1 = challenge c /\
  control_permissions c1 = control_permissions c /\ authorized c1 = authorized c /\
  from_switch c1 = from_switch c /\ file_transfer c1 = file_transfer c /\
  view_camera c1 = view_camera c /\ terminal c1 = terminal c /\
  port_forward_socket c1 = port_forward_socket c /\ authed_conn_type c1 = authed_conn_type c /\
  (require_2fa c1 = require_2fa c \/ require_2fa c1 = None /\ trusted_device e l s).
Proof.
  unfold handle_login_request_without_validation. simpl.
  match goal with |- context [if ?b then _ else _] => destruct b eqn:B end; [|tauto].
  destruct (List.find _ _) as [d|] eqn:F; [|tauto].
  match goal with |- context [if ?b then _ else _] => destruct b eqn:B2 end; [|tauto].
  simpl. repeat (split; [done|]). right. split; [done|].
  apply andb_true_iff in B as [B B3]. apply andb_true_iff in B as [_ B]. 
  apply find_some in F as [F1 F2]. apply bool_decide_eq_true in F2.
  rewrite !andb_true_iff, negb_true_iff, !bool_decide_eq_true in B2. destruct B2 as [[[O I] N] P].
  split; [done|]. split; [by destruct (lr_hwid l)|]. by exists d.
Qed.

(** The permission the requested kind of session needs. *)
Definition scope_permitted (e : Env) (cp : option Z) (st : Settings) (u : LoginUnion) : Prop :=
  match u with
  | LFileTransfer _ _ => permission st (str "enable-file-transfer") cp = true
  | LViewCamera => permission st (str "enable-camera") cp = true
  | LTerminal _ => permission st (str "enable-terminal") cp = true
  | LPortForward _ _ => permission st (str "enable-tunnel") cp = true
  | LRemote => is_in_privacy_mode e = false
  end.

(** A fresh scope: only the requested kind is set. *)
Definition scope_of (c : Conn) (u : LoginUnion) : Prop :=
  (file_transfer c <> None -> exists d h, u = LFileTransfer d h) /\
  (view_camera c = true -> u = LViewCamera) /\
  (terminal c = true -> exists i, u = LTerminal i).

Lemma request_scope_spec e c s c1 eff :
  request_scope e (reset_session_scope_for_login c) s = (Some c1, eff) ->
  scope_permitted e (control_permissions c) (settings (auth s)) (lr_union (lr c)) /\
  scope_of c1 (lr_union (lr c)) /\
  lr c1 = lr c /\ control_permissions c1 = control_permissions c /\
  authorized c1 = authorized c /\ authed_conn_type c1 = authed_conn_type c /\
  port_forward_socket c1 = port_forward_socket c /\ require_2fa c1 = require_2fa c /\
  from_switch c1 = from_switch c /\ ip c1 = ip c /\ attempt c1 = attempt c.
Proof.
  unfold request_scope, scope_permitted, scope_of. simpl.
  destruct (lr_union (lr c)); simpl;
    match goal with |- context [if ?b then _ else _] => destruct b eqn:B end; try done;
    intros [= <- _]; simpl; rewrite ?negb_false_iff in B;
    (split; [done|]; split; [repeat split; try done; eauto|]; by repeat split).
Qed.

Lemma headless_some e c s s1 eff s2 eff2 :
  headless_desktop e c s = (Some (s1, eff), s2, eff2) ->
  auth s1 = auth s /\ throttle s1 = throttle s.
Proof.
  unfold headless_desktop.
  pose proof (check_failure_keeps (ip c) 0 (now_ms e) (throttle s)) as Ht.
  destruct (check_failure parse_v6 show_v6 (ip c) 0 (now_ms e) (throttle s)) as [[[[f t0] r] ef] t].
  simpl in Ht. subst t.
  destruct (headless_check e); [destruct r|]; simpl; try done;
    (match goal with |- context [if ?b then _ else _] => destruct b end;
      [destruct (headless_record e);
       [simpl; match goal with |- context [match ?x with _ => _ end] =>
          destruct x as [[[[f' t0'] r'] ef'] t'] end; by destruct r'|done]
      |by intros [= <- _ _ _]]).
Qed.

(** Everything a successful login request went through. *)
Definition login_accepted (e : Env) (l : LoginReq) (c : Conn) (s : Shared) : Prop :=
  scope_permitted e (control_permissions c) (settings (auth s)) (lr_union l) /\
  (is_direct_ip_access (username l) = true \/ username l = get_id e) /\
  click_only e s = false /\
  password_proof e (requested c l) s /\
  (require_2fa c = None \/ trusted_device e l s \/ from_switch c = true \/
   recent_second_factor e (key_of (requested c l)) s).

(** The state after a login request that keeps the connection: the scope is
    the requested one and was permitted. *)
Definition login_outcome (e : Env) (l : LoginReq) (c : Conn) (s : Shared) (k : bool) (c' : Conn)
    (s' : Shared) : Prop :=
  settings (auth s') = settings (auth s) /\ control_permissions c' = control_permissions c /\
  (authorized c' = true -> login_accepted e l c s) /\
  (k = true ->
   lr c' = l /\ scope_permitted e (control_permissions c) (settings (auth s)) (lr_union l) /\
   scope_of c' (lr_union l) /\
   (port_forward_socket c' = true -> port_forward_socket c = true \/ is_port_forward (lr_union l) = true) /\
   (authorized c' = true /\ authed_conn_type c' = Some (session_kind c') \/
    authorized c' = false /\ authed_conn_type c' = authed_conn_type c)).

Lemma headless_settings e c s r s2 eff2 :
  headless_desktop e c s = (r, s2, eff2) -> auth s2 = auth s.
Proof.
  unfold headless_desktop.
  destruct (headless_check e).
  - destruct (check_failure parse_v6 show_v6 (ip c) 0 (now_ms e) (throttle s)) as [[[[f t0] r0] ef] t].
    destruct r0; simpl; [|by intros [= _ <- _]].
    repeat match goal with
    | |- context [if ?b then _ else _] => destruct b
    | |- context [match check_failure ?a ?b ?c ?d ?e ?f with _ => _ end] =>
        destruct (check_failure a b c d e f) as [[[[f' t0'] r'] ef'] t']
    end; by intros [= _ <- _].
  - simpl. repeat match goal with
    | |- context [if ?b then _ else _] => destruct b
    | |- context [match check_failure ?a ?b ?c ?d ?e ?f with _ => _ end] =>
        destruct (check_failure a b c d e f) as [[[[f' t0'] r'] ef'] t']
    end; by intros [= _ <- _].
Qed.

Lemma scope_of_cong c c' u : file_transfer c' = file_transfer c -> view_camera c' = view_camera c ->
  terminal c' = terminal c -> scope_of c u -> scope_of c' u.
Proof. unfold scope_of. by intros -> -> ->. Qed.

Lemma on_login_request_spec e l c s k c' s' eff : authorized c = false ->
  on_login_request e l c s = (k, c', s', eff) -> login_outcome e l c s k c' s'.
Proof.
  intros Ha. unfold on_login_request.
  pose proof (handle_login_keeps e l c s) as (HL & Hip & Hsa & Hch & Hcp & Hau & Hsw & _ & _ & _ & Hpf & Hty & H2).
  set (c1 := handle_login_request_without_validation e l c s) in *.
  rewrite Hau, Ha. cbv iota.
  destruct (request_scope e (reset_session_scope_for_login c1) s) as [[c2|] ef] eqn:Rs;
    [|intros [= <- <- <- <-]; split; [done|]; split; [simpl; congruence|]; split; [simpl; congruence|done]].
  destruct (request_scope_spec _ _ _ _ _ Rs) as (Sp & So & L2 & C2 & A2 & T2 & P2 & R2 & W2 & I2 & At).
  rewrite HL in *. rewrite Hcp in Sp.
  destruct (negb (is_direct_ip_access (username l)) && negb (bool_decide (username l = get_id e))) eqn:Id;
    [intros [= <- <- <- <-]; split; [done|]; split; [congruence|]; split; [congruence|done]|].
  destruct (headless_desktop e c2 s) as [[go s3] ef3] eqn:Hd.
  pose proof (headless_settings _ _ _ _ _ _ Hd) as E3.
  destruct go as [[s4 ef4]|].
  - destruct (headless_some _ _ _ _ _ _ _ Hd) as [Ea Et].
    destruct (check_password e c2 s4) as [[[k5 c5] s5] ef5] eqn:Cp.
    apply check_password_spec in Cp; [|congruence].
    destruct Cp as [(S5 & K5 & F5 & T5 & P5) Hp]. destruct S5 as (S5a & S5b & S5c & S5d & S5e).
    intros [= <- <- <- <-]. split; [congruence|]. split; [congruence|]. split.
    + intros Hauth. destruct (Hp Hauth) as [Hc Hproof]. split; [done|].
      apply andb_false_iff in Id. rewrite !negb_false_iff, bool_decide_eq_true in Id.
      split; [done|]. unfold click_only, allow_logon_screen_password in *. rewrite Ea in Hc.
      split; [done|].
      assert (attempt c2 = attempt (requested c l)) as Hat.
      { rewrite At. unfold attempt. simpl. by rewrite HL, Hsa, Hch. }
      split.
      * unfold password_proof, throttle_allows, allow_logon_screen_password in *. rewrite Hat, Ea, Et in Hproof.
        replace (ip c2) with (ip (requested c l)) in Hproof by (simpl; congruence). done.
      * specialize (F5 Hauth). unfold second_factor_ok, recent_second_factor, key_of in F5.
        rewrite Hat, Ea, R2, W2, Hsw in F5. destruct F5 as [F5|[F5|F5]]; [|tauto|tauto].
        destruct H2 as [H2|[_ H2]]; [left; congruence|tauto].
    + intros _. split; [congruence|]. split; [done|]. split; [by apply (scope_of_cong c2)|].
      rewrite P2, L2, Hpf in P5. rewrite T2, Hty in T5. done.
  - intros [= <- <- <- <-]. split; [congruence|]. split; [congruence|]. split; [congruence|].
    intros _. split; [done|]. split; [done|]. split; [done|]. split; [rewrite P2, Hpf; tauto|].
    right. split; congruence.
Qed.

Lemma on_auth_2fa_spec e code hw c s k c' s' eff : authorized c = false ->
  on_auth_2fa e code hw c s = (k, c', s', eff) ->
  same_request c c' /\ settings (auth s') = settings (auth s) /\
  (authorized c' = true ->
   throttle_allows c 1 e s /\
   exists totp, require_2fa c = Some totp /\ check_current totp code (now_ms e) = Some true) /\
  (authorized c' = true /\ authed_conn_type c' = Some (session_kind c') \/
   authorized c' = false /\ authed_conn_type c' = authed_conn_type c) /\
  (port_forward_socket c' = true ->
   port_forward_socket c = true \/ is_port_forward (lr_union (lr c)) = true).
Proof.
  intros Ha. unfold on_auth_2fa.
  destruct (check_failure parse_v6 show_v6 (ip c) 1 (now_ms e) (throttle s))
    as [[[[f t0] res] ef] t1] eqn:Cf.
  assert (forall s1, settings (auth s1) = settings (auth s) -> granted e c s c s1) as Hno.
  { intros s1 K. apply not_granted; try done. by left. }
  assert (forall s1 k0 ef0, settings (auth s1) = settings (auth s) ->
    (k0, c, s1, ef0) = (k, c', s', eff) ->
    same_request c c' /\ settings (auth s') = settings (auth s) /\
    (authorized c' = true -> throttle_allows c 1 e s /\
       exists totp, require_2fa c = Some totp /\ check_current totp code (now_ms e) = Some true) /\
    (authorized c' = true /\ authed_conn_type c' = Some (session_kind c') \/
     authorized c' = false /\ authed_conn_type c' = authed_conn_type c) /\
    (port_forward_socket c' = true ->
     port_forward_socket c = true \/ is_port_forward (lr_union (lr c)) = true)) as Hfail.
  { intros s1 k0 ef0 K [= _ <- <- _]. destruct (Hno s1 K) as (? & ? & _ & ? & ?).
    split; [done|]. split; [done|]. split; [congruence|done]. }
  destruct res; simpl negb; cbv iota; [|by apply Hfail].
  destruct (require_2fa c) as [totp|] eqn:R2; [|by apply Hfail].
  destruct (check_current totp code (now_ms e)) as [[]|] eqn:Ck; try by apply Hfail.
  match goal with |- context [grant e ?x ?y] => destruct (grant e x y) as [[[k2 c2] s2] ef2] eqn:G end.
  apply grant_spec in G; [|done]. destruct G as (S & K & _ & T & P).
  assert (throttle_allows c 1 e s /\
    exists t2, Some totp = Some t2 /\ check_current t2 code (now_ms e) = Some true) as Hok.
  { split; [unfold throttle_allows; by rewrite Cf|]. by exists totp. }
  destruct k2; simpl negb; cbv iota; intros [= <- <- <- <-].
  - split; [done|]. split; [|done].
    match goal with |- context [if ?b then _ else _] => by destruct b end.
  - done.
Qed.

Lemma on_switch_sides_spec e l u c s k c' s' eff : authorized c = false ->
  on_switch_sides e l u c s = (k, c', s', eff) -> authorized c' = true ->
  exists t u0, u = Some u0 /\ switch_sides_uuid s !! my_id l = Some (t, u0) /\
    now e - t < SWITCH_SIDES_TIMEOUT.
Proof.
  intros Ha. unfold on_switch_sides.
  pose proof (handle_login_keeps e l c s) as (_ & _ & _ & _ & _ & Hau & _).
  set (c1 := handle_login_request_without_validation e l c s) in *.
  destruct u as [u|]; [|intros [= <- <- <- <-]; congruence].
  destruct (filter _ (switch_sides_uuid s) !! my_id l) as [[t u0]|] eqn:F;
    [|intros [= <- <- <- <-]; congruence].
  apply map_lookup_filter_Some in F as [F1 F2].
  destruct (bool_decide_reflect (u = u0)) as [->|]; [|intros [= <- <- <- <-]; congruence].
  intros _ _. by exists t, u0.
Qed.

Lemma on_event_unauthorized e ev c s : authorized c = false ->
  on_event e ev c s =
  match ev with
  | EvClick => on_click_authorize e c s
  | EvLogin l => on_login_request e l c s
  | EvAuth2fa code hw => on_auth_2fa e code hw c s
  | EvSwitchSides l u => on_switch_sides e l u c s
  | EvOther (Some (MiscMessage (Some CloseReason))) => (false, c, s, [])
  | EvOther _ => (true, c, s, [])
  end.
Proof.
  intros Ha. unfold on_event. rewrite Ha. by destruct ev.
Qed.

(** [C1] Nobody is let in without a proof: an event that turns an unauthorized
    connection into an authorized one is a click of the local user; a login
    request whose session kind is permitted, that names this device, that is
    not reserved for the click, whose password proof holds (an answer for a
    password in force while not throttled, or a recent session) and whose
    second factor is not required, waived by a trusted device or a switched
    session, or recent; a correct second-factor code within its throttle; or
    the answer to a switch-sides request made less than ten seconds ago. *)
Theorem authorization_requires_proof e ev c s k c' s' eff :
  authorized c = false -> on_event e ev c s = (k, c', s', eff) -> authorized c' = true ->
  match ev with
  | EvLogin l => login_accepted e l c s
  | EvAuth2fa code _ =>
      throttle_allows c 1 e s /\
      exists totp, require_2fa c = Some totp /\ check_current totp code (now_ms e) = Some true
  | EvSwitchSides l u =>
      exists t u0, u = Some u0 /\ switch_sides_uuid s !! my_id l = Some (t, u0) /\
        now e - t < SWITCH_SIDES_TIMEOUT
  | EvClick => True
  | EvOther _ => False
  end.
Proof.
  intros Ha E Hauth. rewrite on_event_unauthorized in E by done. destruct ev as [l|code hw|l u| |msg].
  - apply on_login_request_spec in E as (_ & _ & H & _); auto.
  - apply on_auth_2fa_spec in E as (_ & _ & H & _); auto.
  - by apply (on_switch_sides_spec e l u c s k c' s' eff).
  - done.
  - assert (c' = c) as ->; [|congruence].
    destruct msg as [[]|]; try by injection E as _ <- _ _.
    destruct misc as [[]|]; by injection E as _ <- _ _.
Qed.

(** ** Session kinds and permissions over a whole connection *)

(** The permission a session kind needs. *)
Definition kind_permitted (st : Settings) (cp : option Z) (t : AuthConnType) : Prop :=
  match t with
  | FileTransfer => permission st (str "enable-file-transfer") cp = true
  | PortForward => permission st (str "enable-tunnel") cp = true
  | ViewCamera => permission st (str "enable-camera") cp = true
  | Terminal => permission st (str "enable-terminal") cp = true
  | Remote => True
  end.

Definition scope_inv (st : Settings) (c : Conn) : Prop :=
  let cp := control_permissions c in
  (file_transfer c <> None -> kind_permitted st cp FileTransfer) /\
  (view_camera c = true -> kind_permitted st cp ViewCamera) /\
  (terminal c = true -> kind_permitted st cp Terminal) /\
  (port_forward_socket c = true \/ is_port_forward (lr_union (lr c)) = true ->
   kind_permitted st cp PortForward) /\
  (forall t, authed_conn_type c = Some t -> kind_permitted st cp t) /\
  (authorized c = true -> authed_conn_type c <> None).

Lemma session_kind_permitted st c :
  (file_transfer c <> None -> kind_permitted st (control_permissions c) FileTransfer) ->
  (view_camera c = true -> kind_permitted st (control_permissions c) ViewCamera) ->
  (terminal c = true -> kind_permitted st (control_permissions c) Terminal) ->
  (port_forward_socket c = true -> kind_permitted st (control_permissions c) PortForward) ->
  kind_permitted st (control_permissions c) (session_kind c).
Proof.
  intros F V T P. unfold session_kind. destruct (file_transfer c); [by apply F|].
  destruct (port_forward_socket c); [by apply P|]. destruct (view_camera c); [by apply V|].
  destruct (terminal c); [by apply T|done].
Qed.

(** Letting in a connection whose scope is permitted keeps it permitted. *)
Lemma granted_inv st c c' : same_request c c' -> scope_inv st c ->
  (authorized c' = true /\ authed_conn_type c' = Some (session_kind c') \/
   authorized c' = false /\ authed_conn_type c' = authed_conn_type c) ->
  (port_forward_socket c' = true ->
   port_forward_socket c = true \/ is_port_forward (lr_union (lr c)) = true) ->
  scope_inv st c'.
Proof.
  intros (S1 & S2 & S3 & S4 & S5) (F & V & T & P & A & Z) Ty Pf. unfold scope_inv.
  rewrite S1, S2, S3, S4, S5.
  assert (port_forward_socket c' = true -> kind_permitted st (control_permissions c) PortForward) as P'
    by auto.
  do 3 (split; [done|]). split; [intros [?|?]; auto|].
  assert (kind_permitted st (control_permissions c') (session_kind c')) as Hk
    by (apply session_kind_permitted; rewrite ?S2, ?S3, ?S4, ?S5; auto).
  rewrite S2 in Hk.
  destruct Ty as [[_ ->]|[Hf ->]]; [split; [by intros t [= <-]|done]|split; [done|by rewrite Hf]].
Qed.

Lemma scope_inv_cong st c c' : same_request c c' -> authorized c' = authorized c ->
  authed_conn_type c' = authed_conn_type c -> port_forward_socket c' = port_forward_socket c ->
  scope_inv st c -> scope_inv st c'.
Proof. unfold scope_inv. by intros (-> & -> & -> & -> & ->) -> -> ->. Qed.

Lemma login_inv st e l c s k c' s' : scope_inv st c -> settings (auth s) = st -> k = true ->
  login_outcome e l c s k c' s' -> scope_inv st c'.
Proof.
  intros (F & V & T & P & A & Z) Hs -> (_ & Ecp & _ & H).
  destruct (H eq_refl) as (L & Sp & (So1 & So2 & So3) & Pf & Ty). clear H. rewrite Hs in Sp.
  assert (forall t, t <> Remote -> (file_transfer c' <> None /\ t = FileTransfer \/ view_camera c' = true /\ t = ViewCamera
      \/ terminal c' = true /\ t = Terminal) -> kind_permitted st (control_permissions c') t) as Hk.
  { intros t _ Ht. rewrite Ecp. destruct Ht as [[Hx ->]|[[Hx ->]|[Hx ->]]].
    - destruct (So1 Hx) as (d & h & E). by rewrite E in Sp.
    - by rewrite (So2 Hx) in Sp.
    - destruct (So3 Hx) as (i & E). by rewrite E in Sp. }
  assert (port_forward_socket c' = true \/ is_port_forward (lr_union (lr c')) = true ->
    kind_permitted st (control_permissions c') PortForward) as HP.
  { rewrite Ecp, L. intros Hx. assert (port_forward_socket c = true \/ is_port_forward (lr_union l) = true) as [Hy|Hy]
      by (destruct Hx; auto); [auto|]. by destruct (lr_union l). }
  unfold scope_inv. split; [intros Hx; apply Hk; [done|tauto]|].
  split; [intros Hx; apply Hk; [done|tauto]|]. split; [intros Hx; apply Hk; [done|tauto]|].
  split; [done|].
  destruct Ty as [[_ ->]|[Hf ->]]; [|split; [rewrite Ecp; auto|by rewrite Hf]].
  split; [|done]. intros t [= <-].
  apply session_kind_permitted; try (intros Hx; apply Hk; [done|tauto]). auto.
Qed.

Lemma grant_authorized e c s : authorized c = true ->
  grant e c s = (true, c, s, [TryStartCm (my_id (lr c)) (my_name (lr c)) true]).
Proof. intros Ha. unfold grant, send_logon_response_and_keep_alive. rewrite Ha. simpl. by rewrite Ha. Qed.

(** A code sent over an authorized connection leaves the session as it is. *)
Lemma on_auth_2fa_authorized e code hw c s k c' s' eff : authorized c = true ->
  on_auth_2fa e code hw c s = (k, c', s', eff) ->
  same_request c c' /\ authorized c' = true /\ authed_conn_type c' = authed_conn_type c /\
  port_forward_socket c' = port_forward_socket c /\ settings (auth s') = settings (auth s).
Proof.
  intros Ha. unfold on_auth_2fa.
  destruct (check_failure parse_v6 show_v6 (ip c) 1 (now_ms e) (throttle s)) as [[[[f t0] res] ef] t1].
  destruct res; simpl negb; cbv iota; [|by intros [= _ <- <- _]].
  destruct (require_2fa c) as [totp|]; [|by intros [= _ <- <- _]].
  destruct (check_current totp code (now_ms e)) as [[]|]; try (by intros [= _ <- <- _]).
  rewrite grant_authorized by done. simpl negb. cbv iota. intros [= _ <- <- _].
  repeat split; try done. match goal with |- context [if ?b then _ else _] => by destruct b end.
Qed.

Lemma on_event_inv st e ev c s k c' s' eff :
  (forall l u, ev <> EvSwitchSides l u) -> scope_inv st c -> settings (auth s) = st ->
  on_event e ev c s = (k, c', s', eff) ->
  settings (auth s') = st /\ (k = true -> scope_inv st c').
Proof.
  intros Hns Hi Hs E. destruct (authorized c) eqn:Ha.
  - unfold on_event in E. rewrite Ha in E. destruct ev as [l|code hw|l u| |msg].
    + simpl in E. injection E as <- <- <- <-. done.
    + simpl in E. destruct (negb (is_none _)) eqn:Sv; [by injection E as <- <- <- <-|].
      apply on_auth_2fa_authorized in E as (S & A & T & P & K); [|done]. split; [congruence|].
      intros _. apply (scope_inv_cong st c); try done. congruence.
    + by exfalso; eapply Hns.
    + unfold on_click_authorize, send_logon_response_and_keep_alive in E. simpl in E. rewrite Ha in E.
      simpl in E. injection E as <- <- <- <-. done.
    + simpl in E. repeat match type of E with context [match ?x with _ => _ end] => destruct x end;
        by injection E as <- <- <- <-.
  - rewrite on_event_unauthorized in E by done. destruct ev as [l|code hw|l u| |msg].
    + apply on_login_request_spec in E; [|done]. split; [by destruct E as (-> & _)|].
      intros Hk. by eapply login_inv.
    + apply on_auth_2fa_spec in E as (S & K & _ & T & P); [|done].
      split; [congruence|]. intros _. by apply (granted_inv st c).
    + by exfalso; eapply Hns.
    + unfold on_click_authorize in E.
      apply send_logon_spec in E as (S & K & _ & T & P); [|done].
      split; [congruence|]. intros _. by apply (granted_inv st c).
    + destruct msg as [[]|]; try by injection E as <- <- <- <-.
      destruct misc as [[]|]; by injection E as <- <- <- <-.
Qed.

(** A connection over time; [None] once it is closed. *)
Fixpoint run (evs : list (Env * Event)) (c : Conn) (s : Shared) : option (Conn * Shared) :=
  match evs with
  | [] => Some (c, s)
  | (e, ev) :: evs =>
      let '(keep, c, s, _) := on_event e ev c s in
      if keep then run evs c s else None
  end.

(** A connection as [Connection::start] creates it. *)
Definition conn_new (ip0 : string) (salt0 challenge0 : bytes) (cp : option Z) (tf : option bytes) : Conn :=
  mkConn ip0 salt0 challenge0 cp false login_default None tf false None false false false [] false []
    false NoPrimaryAuth NoTwoFactor None.

Lemma run_inv st evs : forall c s c' s',
  Forall (fun x : Env * Event => forall l u, x.2 <> EvSwitchSides l u) evs ->
  scope_inv st c -> settings (auth s) = st -> run evs c s = Some (c', s') -> scope_inv st c'.
Proof.
  induction evs as [|[e ev] evs IH]; intros c s c' s' Hf Hi Hs; simpl; [by intros [= <- <-]|].
  inversion Hf as [|?? H1 H2]; subst.
  destruct (on_event e ev c s) as [[[k c1] s1] ef] eqn:E.
  destruct (on_event_inv (settings (auth s)) _ _ _ _ _ _ _ _ H1 Hi eq_refl E) as [Hs1 Hi1].
  destruct k; [|done]. eapply IH; eauto.
Qed.

(** [C13] A session has the permission of its kind: over any sequence of login
    requests, codes, clicks and other messages of a new connection, except
    switch-sides responses, a file-transfer, port-forwarding, camera or
    terminal session is only ever opened if the device's settings and the
    permissions granted to this viewer allow that kind. *)
Theorem session_kind_has_permission evs ip0 salt0 challenge0 cp tf s c' s' t :
  Forall (fun x : Env * Event => forall l u, x.2 <> EvSwitchSides l u) evs ->
  run evs (conn_new ip0 salt0 challenge0 cp tf) s = Some (c', s') ->
  authed_conn_type c' = Some t -> control_permissions c' = cp ->
  kind_permitted (settings (auth s)) cp t.
Proof.
  intros Hf Hr Ht <-.
  assert (scope_inv (settings (auth s)) c') as (_ & _ & _ & _ & A & _); [|by apply A].
  eapply run_inv; [exact Hf| |reflexivity|exact Hr].
  unfold scope_inv, conn_new. simpl. repeat split; try done. by intros [].
Qed.
(** The second factor stands alone: on a connection that requires a second
    factor and has not checked any password, a correct code within the throttle
    authorizes the session (a remote-control session when no login request was
    sent), because the [Auth2FA] handler does not ask for the first factor. *)
Theorem code_alone_authorizes e code hw c s totp :
  authorized c = false -> require_2fa c = Some totp ->
  check_current totp code (now_ms e) = Some true -> throttle_allows c 1 e s ->
  terminal c = false -> is_port_forward (lr_union (lr c)) = false ->
  authorized (on_event e (EvAuth2fa code hw) c s).1.1.2 = true.
Proof.
  intros Ha R2 Ck Th Ht Hp. rewrite on_event_unauthorized by done. unfold on_auth_2fa, throttle_allows in *.
  destruct (check_failure parse_v6 show_v6 (ip c) 1 (now_ms e) (throttle s)) as [[[[f t0] res] ef] t1].
  subst res. simpl negb. cbv iota. rewrite R2, Ck. unfold grant, send_logon_response_and_keep_alive.
  simpl authorized. rewrite Ha. unfold second_factor_due. simpl require_2fa. cbv iota.
  unfold prepare_terminal_login_for_authorization. simpl terminal. rewrite Ht. simpl orb. cbv iota.
  unfold connect_port_forward_if_needed. simpl port_forward_socket. simpl lr.
  destruct (port_forward_socket c); [done|]. by destruct (lr_union (lr c)).
Qed.
End Login.

(** ** Concrete connections *)
#[local] Existing Instances Toy.secretbox Toy.secretbox_laws Rfc4648.base64 Rfc4648.base64_laws
  ToySha.sha ToySha.sha_laws.

Definition shared0 (s : Settings) : Shared :=
  mkShared (mkAuth fresh s (str "123456") (str "123456", 0) ∅) throttle_default ∅.
Definition env0 : Env :=
  mkEnv 0 600000 false false [] false false (fun _ => true) (fun _ => None) draws32 (str "device").
Definition no_v6 : string -> option bytes := fun _ => None.
Definition show_v6 : bytes -> string := fun _ => "::"%string.
Definition direct : bytes -> bool := fun _ => false.
(** A second factor whose only valid code is its secret. *)
Definition totp : bytes -> bytes -> Z -> option bool := fun secret code _ => Some (bool_decide (code = secret)).
Definition json : list TrustedDevice -> bytes := fun _ => [].

Definition step (ev : Event) (c : Conn) (s : Shared) : R :=
  on_event desktop no_v6 show_v6 direct totp json env0 ev c s.
Definition viewer (tf : option bytes) (cp : option Z) : Conn :=
  conn_new "10.0.0.2"%string (str "s") (str "challenge") cp tf.
Definition login (pw : bytes) (u : LoginUnion) : LoginReq :=
  mkLogin (str "device") (str "viewer") (str "pc") (str "Linux") 7 pw [] (str "1.4.0") None [] u.
Definition answer : bytes := login_answer (str "s") (str "challenge") (str "123456").

Lemma authorization_requires_proof_witness :
  let ev := EvLogin (login answer LRemote) in
  authorized (step ev (viewer None None) (shared0 no_settings)).1.1.2 = true /\
  login_accepted desktop no_v6 show_v6 direct env0 (login answer LRemote) (viewer None None)
    (shared0 no_settings).
Proof.
  intros ev. split; [vm_compute; reflexivity|].
  destruct (step ev (viewer None None) (shared0 no_settings)) as [[[k c'] s'] eff] eqn:E.
  apply (authorization_requires_proof desktop no_v6 show_v6 direct totp json env0 ev
    (viewer None None) (shared0 no_settings) k c' s' eff); [reflexivity|exact E|].
  change c' with ((k, c', s', eff).1.1.2). rewrite <- E. vm_compute. reflexivity.
Defined.

Definition file_login : list (Env * Event) :=
  [(env0, EvLogin (login (str "wrong") LRemote));
   (env0, EvLogin (login answer (LFileTransfer (str "/") false)))].

Lemma session_kind_has_permission_witness :
  kind_permitted no_settings None FileTransfer.
Proof.
  assert ((fun x : Conn * Shared => (authed_conn_type x.1, control_permissions x.1)) <$>
    run desktop no_v6 show_v6 direct totp json file_login (viewer None None) (shared0 no_settings)
    = Some (Some FileTransfer, None)) as H by (vm_compute; reflexivity).
  destruct (run desktop no_v6 show_v6 direct totp json file_login (viewer None None)
    (shared0 no_settings)) as [[c' s']|] eqn:E; [|discriminate H].
  injection H as H1 H2.
  refine (session_kind_has_permission desktop no_v6 show_v6 direct totp json file_login
    "10.0.0.2"%string (str "s") (str "challenge") None None (shared0 no_settings) c' s' FileTransfer
    _ E H1 H2).
  repeat constructor; simpl; congruence.
Defined.

Lemma code_alone_authorizes_witness :
  authorized (step (EvAuth2fa (str "otp") []) (viewer (Some (str "otp")) None) (shared0 no_settings)).1.1.2
  = true.
Proof.
  refine (code_alone_authorizes desktop no_v6 show_v6 direct totp json env0 (str "otp") []
    (viewer (Some (str "otp")) None) (shared0 no_settings) (str "otp") _ _ _ _ _ _);
    vm_compute; reflexivity.
Defined.

Definition no_tunnel : Settings := mkSettings ∅ (<[str "enable-tunnel" := str "N"]> ∅) ∅.
Definition bypass : list (Env * Event) :=
  [(env0, EvLogin (login [] LRemote));
   (env0, EvSwitchSides (login [] (LPortForward (str "intranet") 22)) None);
   (env0, EvClick)].

(** A switch-sides response replaces the stored login request before its uuid
    is checked and without checking permissions: with tunnelling disabled, a
    viewer that asked for remote control and then sent such a response gets a
    port-forwarding session when the local user accepts. *)
Theorem switch_sides_bypasses_tunnel_permission :
  match run desktop no_v6 show_v6 direct totp json bypass (viewer None None) (shared0 no_tunnel) with
  | Some (c', _) => authed_conn_type c' = Some PortForward
  | None => False
  end /\ ~ kind_permitted no_tunnel None PortForward.
Proof. split; [vm_compute; reflexivity|]. vm_compute. congruence. Qed.
