(* ===== verification/Rendezvous.v ===== *)
(** * The rendezvous server ([server/src/rendezvous_server.rs], [peer.rs],
    [database.rs])

    Devices register their id, uuid and public key over UDP; viewers ask over
    TCP to be connected to an id, and the server passes both sides the other's
    address and the registered key, signed.  [Server] is the state the handlers
    share; a message is handled in one step, with the clocks and the database's
    availability in [Env].  Formatting an IP address and resolving a server
    name are parameters. *)
From S2P Require Import Prelude Crypto AddrMangle.

#[export] Instance SocketAddr_countable : Countable SocketAddr.
Proof.
  apply (inj_countable'
    (fun a => match a with V4 ip p => inl (ip, p) | V6 ip p f s => inr (ip, p, f, s) end)
    (fun x => match x with inl (ip, p) => V4 ip p | inr (ip, p, f, s) => V6 ip p f s end)).
  by intros [].
Defined.

Definition REG_TIMEOUT : Z := 30000.
Definition PUNCH_REQ_DEDUPE_SEC : Z := 60.
Definition IP_CHANGE_DUR : Z := 180.
Definition DAY_SECONDS : Z := 3600 * 24.
Definition IP_BLOCK_DUR : Z := 60.

(** [Instant]s are nanoseconds. *)
Definition as_secs (ns : Z) : Z := ns / 1000000000.
Definition as_millis (ns : Z) : Z := i64_of (ns / 1000000).

Definition get_expired_time (now : Z) : Z :=
  if 3600 * 1000000000 <=? now then now - 3600 * 1000000000 else now.

(** [register_pk_response::Result] *)
Inductive PkResult := OK | UUID_MISMATCH | TOO_FREQUENT | NOT_SUPPORT | SERVER_ERROR.
(** [punch_hole_response::Failure] *)
Inductive Failure := ID_NOT_EXIST | OFFLINE | LICENSE_MISMATCH.

Record Peer := mkPeer {
  socket_addr : SocketAddr;
  last_reg_time : Z;
  guid : bytes;
  uuid : bytes;
  pk : bytes;
  info_ip : bytes;
  reg_pk : Z * Z
}.
Definition peer_default (now : Z) : Peer :=
  mkPeer (V4 (zeros 4) 0) (get_expired_time now) [] [] [] [] (0, get_expired_time now).

(** A row of the [peer] table. *)
Record Row := mkRow {
  row_guid : bytes;
  row_id : bytes;
  row_uuid : bytes;
  row_pk : bytes;
  row_ip : bytes
}.

Record PunchReqEntry := mkPunchReq {
  punch_tm : Z;
  from_ip : bytes;
  to_ip : bytes;
  to_id : bytes
}.

(** A TCP or WebSocket sink is the number of its connection. *)
Record Server := mkServer {
  peers : gmap bytes Peer;
  db : list Row;
  tcp_punch : gmap SocketAddr Z;
  ip_blocker : gmap bytes ((Z * Z) * (gset bytes * Z));
  ip_changes : gmap bytes (Z * gmap bytes Z);
  punch_reqs : list PunchReqEntry;
  rotation : Z;
  always_use_relay : bool;
  serial : Z;
  version : bytes;
  software_url : bytes;
  mask : option (bytes -> bool);
  local_ip : bytes;
  sk : option bytes;
  rendezvous_servers : list bytes;
  relay_servers : list bytes;
  relay_servers0 : list bytes
}.

(** The clock in nanoseconds, the 32-bit microsecond clock of address
    mangling, whether the database answers, a fresh guid. *)
Record Env := mkEnv { now : Z; tm : Z; db_ok : bool; new_guid : bytes }.

Record PunchHoleResponse := mkPunchHoleResponse {
  phr_socket_addr : bytes;
  phr_pk : bytes;
  phr_failure : Failure;
  phr_relay_server : bytes;
  phr_nat_type : option Z;
  phr_is_local : bool
}.
(** An unset [failure] is protobuf's zero, [ID_NOT_EXIST]: the address tells
    success. *)
Definition failed (f : Failure) : PunchHoleResponse := mkPunchHoleResponse [] [] f [] None false.

Record RelayReq := mkRelayReq { rf_id : bytes; rf_uuid : bytes; rf_socket_addr : bytes; rf_relay_server : bytes }.
Record RelayResponse := mkRelayResponse {
  rr_socket_addr : bytes;
  rr_uuid : bytes;
  rr_relay_server : bytes;
  rr_id : bytes;
  rr_pk : bytes;
  rr_version : bytes
}.

(** Messages the server sends. *)
Inductive MsgOut :=
| RegisterPeerResponse (request_pk : bool)
| RegisterPkResponse (r : PkResult)
| ConfigureUpdateOut (serial : Z) (servers : list bytes)
| SoftwareUpdateOut (url : bytes)
| PunchHoleResponseOut (p : PunchHoleResponse)
| FetchLocalAddr (addr relay : bytes)
| PunchHole (addr : bytes) (nat_type : Z) (relay : bytes)
| RequestRelayOut (rf : RelayReq)
| RelayResponseOut (rr : RelayResponse)
| TestNatResponse (port : Z) (cu : option (Z * list bytes))
| OnlineResponse (states : list Z).

(** Where a message goes: a datagram, or a TCP sink. *)
Inductive Out :=
| ToUdp (addr : SocketAddr) (m : MsgOut)
| ToSink (sink : Z) (m : MsgOut).

Record RegisterPk := mkRegisterPk { rk_id : bytes; rk_uuid : bytes; rk_pk : bytes }.
Record PunchHoleSent := mkPunchHoleSent {
  phs_socket_addr : bytes; phs_id : bytes; phs_relay_server : bytes;
  phs_nat_type : option Z; phs_version : bytes }.
Record LocalAddr := mkLocalAddr {
  la_socket_addr : bytes; la_local_addr : bytes; la_relay_server : bytes; la_id : bytes;
  la_version : bytes }.
Record PunchHoleRequest := mkPunchHoleRequest {
  ph_id : bytes; ph_nat_type : Z; ph_licence_key : bytes }.

Inductive MsgIn :=
| RegisterPeer (id : bytes) (serial : Z)
| RegisterPkIn (rk : RegisterPk)
| PunchHoleRequestIn (ph : PunchHoleRequest)
| PunchHoleSentIn (phs : PunchHoleSent)
| LocalAddrIn (la : LocalAddr)
| ConfigureUpdate (serial : Z) (servers : list bytes)
| SoftwareUpdate (url : bytes)
| RequestRelay (rf : RelayReq)
| RelayResponseIn (rr : RelayResponse)
| TestNatRequest (serial : Z)
| OnlineRequest (ids : list bytes)
| OtherMsg.

(** NatType SYMMETRIC of [rendezvous.proto]. *)
Definition SYMMETRIC : Z := 2.

Definition ip_of (a : SocketAddr) : bytes := match a with V4 ip _ => ip | V6 ip _ _ _ => ip end.
Definition port_of (a : SocketAddr) : Z := match a with V4 _ p => p | V6 _ p _ _ => p end.
(** [IpAddr] equality distinguishes the families, [is_loopback] is 127/8 or ::1. *)
Definition same_ip (a b : SocketAddr) : bool :=
  match a, b with
  | V4 x _, V4 y _ => bool_decide (x = y)
  | V6 x _ _ _, V6 y _ _ _ => bool_decide (x = y)
  | _, _ => false
  end.
Definition is_loopback (a : SocketAddr) : bool :=
  match a with
  | V4 ip _ => bool_decide (head ip = Some Byte.x7f)
  | V6 ip _ _ _ => is_loopback_v6 ip
  end.

Definition is_empty {A} (l : list A) : bool := match l with [] => true | _ => false end.

Definition with_peers (s : Server) p := mkServer p (db s) (tcp_punch s) (ip_blocker s) (ip_changes s)
  (punch_reqs s) (rotation s) (always_use_relay s) (serial s) (version s) (software_url s) (mask s)
  (local_ip s) (sk s) (rendezvous_servers s) (relay_servers s) (relay_servers0 s).
Definition with_db (s : Server) d := mkServer (peers s) d (tcp_punch s) (ip_blocker s) (ip_changes s)
  (punch_reqs s) (rotation s) (always_use_relay s) (serial s) (version s) (software_url s) (mask s)
  (local_ip s) (sk s) (rendezvous_servers s) (relay_servers s) (relay_servers0 s).
Definition with_tcp_punch (s : Server) t := mkServer (peers s) (db s) t (ip_blocker s) (ip_changes s)
  (punch_reqs s) (rotation s) (always_use_relay s) (serial s) (version s) (software_url s) (mask s)
  (local_ip s) (sk s) (rendezvous_servers s) (relay_servers s) (relay_servers0 s).
Definition with_ip_blocker (s : Server) b := mkServer (peers s) (db s) (tcp_punch s) b (ip_changes s)
  (punch_reqs s) (rotation s) (always_use_relay s) (serial s) (version s) (software_url s) (mask s)
  (local_ip s) (sk s) (rendezvous_servers s) (relay_servers s) (relay_servers0 s).
Definition with_ip_changes (s : Server) c := mkServer (peers s) (db s) (tcp_punch s) (ip_blocker s) c
  (punch_reqs s) (rotation s) (always_use_relay s) (serial s) (version s) (software_url s) (mask s)
  (local_ip s) (sk s) (rendezvous_servers s) (relay_servers s) (relay_servers0 s).
Definition with_punch (s : Server) p r := mkServer (peers s) (db s) (tcp_punch s) (ip_blocker s)
  (ip_changes s) p r (always_use_relay s) (serial s) (version s) (software_url s) (mask s)
  (local_ip s) (sk s) (rendezvous_servers s) (relay_servers s) (relay_servers0 s).
Definition with_config (s : Server) n rs := mkServer (peers s) (db s) (tcp_punch s) (ip_blocker s)
  (ip_changes s) (punch_reqs s) (rotation s) (always_use_relay s) n (version s) (software_url s) (mask s)
  (local_ip s) (sk s) rs (relay_servers s) (relay_servers0 s).

(** ** The database *)
Definition get_peer (e : Env) (d : list Row) (id : bytes) : option (option Row) :=
  if db_ok e then Some (List.find (fun r => bool_decide (row_id r = id)) d) else None.

(** [id] is unique. *)
Definition insert_peer (e : Env) (d : list Row) (id uuid pk info : bytes) : option (bytes * list Row) :=
  if db_ok e && negb (existsb (fun r => bool_decide (row_id r = id) || bool_decide (row_guid r = new_guid e)) d)
  then Some (new_guid e, d ++ [mkRow (new_guid e) id uuid pk info]) else None.

Definition db_update_pk (e : Env) (d : list Row) (guid id pk info : bytes) : option (list Row) :=
  if db_ok e && negb (existsb (fun r => bool_decide (row_id r = id) && negb (bool_decide (row_guid r = guid))) d)
  then Some (List.map (fun r => if bool_decide (row_guid r = guid)
                                then mkRow guid id (row_uuid r) pk info else r) d)
  else None.

(** ** [PeerMap] *)
Definition peer_of_row (e : Env) (r : Row) : Peer :=
  mkPeer (socket_addr (peer_default (now e))) (last_reg_time (peer_default (now e)))
    (row_guid r) (row_uuid r) (row_pk r) (row_ip r) (reg_pk (peer_default (now e))).

Definition pm_get (e : Env) (s : Server) (id : bytes) : option Peer * Server :=
  match peers s !! id with
  | Some p => (Some p, s)
  | None =>
      match get_peer e (db s) id with
      | Some (Some r) =>
          let p := peer_of_row e r in (Some p, with_peers s (<[id := p]> (peers s)))
      | _ => (None, s)
      end
  end.

Definition get_or (e : Env) (s : Server) (id : bytes) : Peer * Server :=
  let '(p, s) := pm_get e s id in
  match p with
  | Some p => (p, s)
  | None =>
      let tmp := peer_default (now e) in (tmp, with_peers s (<[id := tmp]> (peers s)))
  end.

Definition get_in_memory (s : Server) (id : bytes) : option Peer := peers s !! id.

(** The entry of [id] is the shared [peer]. *)
Definition update_pk (e : Env) (s : Server) (id : bytes) (addr : SocketAddr)
  (uuid0 pk0 ip : bytes) : PkResult * Server :=
  match peers s !! id with
  | None => (OK, s)
  | Some p =>
      let p := mkPeer addr (now e) (guid p) uuid0 pk0 ip (reg_pk p) in
      let s := with_peers s (<[id := p]> (peers s)) in
      if is_empty (guid p) then
        match insert_peer e (db s) id uuid0 pk0 ip with
        | None => (SERVER_ERROR, s)
        | Some (g, d) =>
            let p := mkPeer (socket_addr p) (last_reg_time p) g (uuid p) (pk p) (info_ip p) (reg_pk p) in
            (OK, with_db (with_peers s (<[id := p]> (peers s))) d)
        end
      else
        match db_update_pk e (db s) (guid p) id pk0 ip with
        | None => (SERVER_ERROR, s)
        | Some d => (OK, with_db s d)
        end
  end.

(** ** Handlers *)
Section Handlers.
(** [IpAddr::to_string], [test_if_valid_server] and protobuf's [IdPk]. *)
Context (show_ip : SocketAddr -> bytes) (valid_server : bytes -> bool).
Context (write_idpk : bytes -> bytes -> bytes) {SG : Sign}.

Definition is_lan (s : Server) (addr : SocketAddr) : bool :=
  match mask s with
  | Some contains =>
      match addr with
      | V4 ip _ => contains ip
      | V6 ip _ _ _ => match to_ipv4 ip with Some v4 => contains v4 | None => false end
      end
  | None => false
  end.

Definition get_relay_server (s : Server) : bytes * Server :=
  match relay_servers s with
  | [] => ([], s)
  | [x] => (x, s)
  | l => (nth (Z.to_nat (rotation s mod len l)) l [],
          with_punch s (punch_reqs s) (wrap 64 (rotation s + 1)))
  end.

Definition get_pk (e : Env) (s : Server) (ver id : bytes) : bytes * Server :=
  match sk s with
  | Some key =>
      if is_empty ver then ([], s)
      else
        let '(p, s) := pm_get e s id in
        match p with
        | Some p => (sign (write_idpk id (pk p)) key, s)
        | None => ([], s)
        end
  | None => ([], s)
  end.

Definition check_ip_blocker (e : Env) (s : Server) (ip id : bytes) : bool * Server :=
  match ip_blocker s !! ip with
  | Some ((n, t), (ids, t2)) =>
      let expired := IP_BLOCK_DUR <? as_secs (now e - t) in
      if negb expired && (30 <? n) then (false, s)
      else
        let n := u32_of ((if expired then 0 else n) + 1) in
        let is_new := negb (bool_decide (id ∈ ids)) in
        let old_day := DAY_SECONDS <? as_secs (now e - t2) in
        if negb old_day && (300 <? Z.of_nat (size ids)) then
          (negb is_new, with_ip_blocker s (<[ip := ((n, now e), (ids, t2))]> (ip_blocker s)))
        else
          let ids := if old_day then ∅ else ids in
          let ids := if is_new then {[id]} ∪ ids else ids in
          (true, with_ip_blocker s (<[ip := ((n, now e), (ids, now e))]> (ip_blocker s)))
  | None => (true, with_ip_blocker s (<[ip := ((0, now e), (∅, now e))]> (ip_blocker s)))
  end.

Definition note_ip_change (e : Env) (s : Server) (id ip : bytes) : Server :=
  with_ip_changes s
    match ip_changes s !! id with
    | Some (t, ips) =>
        if IP_CHANGE_DUR <? as_secs (now e - t) then <[id := (now e, {[ip := 1]})]> (ip_changes s)
        else <[id := (t, <[ip := match ips !! ip with Some v => i32_of (v + 1) | None => 1 end]> ips)]>
               (ip_changes s)
    | None => <[id := (now e, {[ip := 1]})]> (ip_changes s)
    end.

(** Is the key of a known peer left alone, changed, or contested? *)
Definition pk_status (p : Peer) (rk : RegisterPk) (ip : bytes) : option (bool * bool) :=
  if is_empty (uuid p) then Some (true, false)
  else if negb (bool_decide (uuid p = rk_uuid rk)) then None
  else if negb (bool_decide (info_ip p = ip)) && negb (bool_decide (pk p = rk_pk rk)) then None
  else
    let ip_changed := negb (bool_decide (info_ip p = ip)) in
    Some (negb (bool_decide (uuid p = rk_uuid rk)) || negb (bool_decide (pk p = rk_pk rk)) || ip_changed,
          ip_changed).

Definition reg_pk_next (e : Env) (r : Z * Z) : option (Z * Z) :=
  if 6 <? as_secs (now e - r.2) then Some (1, now e)
  else if 2 <? r.1 then None
  else Some (u32_of (r.1 + 1), now e).

Definition set_reg_pk (s : Server) (id : bytes) (r : Z * Z) : Server :=
  match peers s !! id with
  | Some p => with_peers s (<[id := mkPeer (socket_addr p) (last_reg_time p) (guid p) (uuid p) (pk p)
                                      (info_ip p) r]> (peers s))
  | None => s
  end.

Definition handle_register_pk (e : Env) (s : Server) (rk : RegisterPk) (addr : SocketAddr)
  : Server * list Out :=
  if is_empty (rk_uuid rk) || is_empty (rk_pk rk) then (s, [])
  else
    let id := rk_id rk in
    let ip := show_ip addr in
    let reply r := [ToUdp addr (RegisterPkResponse r)] in
    if len id <? 6 then (s, reply UUID_MISMATCH)
    else
      let '(ok, s) := check_ip_blocker e s ip id in
      if negb ok then (s, reply TOO_FREQUENT)
      else
        let '(p, s) := get_or e s id in
        match pk_status p rk ip with
        | None => (s, reply UUID_MISMATCH)
        | Some (changed, ip_changed) =>
            match reg_pk_next e (reg_pk p) with
            | None => (s, reply TOO_FREQUENT)
            | Some r =>
                let s := set_reg_pk s id r in
                let s := if ip_changed then note_ip_change e s id ip else s in
                let s := if changed then (update_pk e s id addr (rk_uuid rk) (rk_pk rk) ip).2 else s in
                (s, reply OK)
            end
        end.

Definition update_addr (e : Env) (s : Server) (id : bytes) (addr : SocketAddr) : Server * list Out :=
  let '(request_pk, s) :=
    match get_in_memory s id with
    | Some old =>
        let ip_change :=
          (if negb (port_of (socket_addr old) =? 0) then negb (same_ip addr (socket_addr old))
           else negb (bool_decide (show_ip addr = info_ip old))) && negb (is_loopback addr) in
        let request_pk := is_empty (pk old) || ip_change in
        (request_pk,
         if request_pk then s
         else with_peers s (<[id := mkPeer addr (now e) (guid old) (uuid old) (pk old) (info_ip old)
                                      (reg_pk old)]> (peers s)))
    | None => (true, s)
    end in
  (s, [ToUdp addr (RegisterPeerResponse request_pk)]).

(** [send_to_tcp] and [send_to_tcp_sync]: the waiting sink is used up. *)
Definition send_to_tcp (s : Server) (addr : SocketAddr) (msg : MsgOut) : Server * list Out :=
  let key := try_into_v4 addr in
  (with_tcp_punch s (delete key (tcp_punch s)),
   match tcp_punch s !! key with Some sink => [ToSink sink msg] | None => [] end).

(** [udp] is whether the message arrived by UDP. *)
Definition reply_to (s : Server) (udp : bool) (addr : SocketAddr) (msg : MsgOut) : Server * list Out :=
  if udp then (s, [ToUdp addr msg]) else send_to_tcp s addr msg.

Definition handle_hole_sent (e : Env) (s : Server) (phs : PunchHoleSent) (addr : SocketAddr) (udp : bool)
  : Server * list Out :=
  let addr_a := AddrMangle.decode (phs_socket_addr phs) in
  let '(key, s) := get_pk e s (phs_version phs) (phs_id phs) in
  reply_to s udp addr_a (PunchHoleResponseOut
    (mkPunchHoleResponse (AddrMangle.encode (tm e) addr) key ID_NOT_EXIST (phs_relay_server phs)
       (phs_nat_type phs) false)).

Definition handle_local_addr (e : Env) (s : Server) (la : LocalAddr) (udp : bool) : Server * list Out :=
  let addr_a := AddrMangle.decode (la_socket_addr la) in
  let '(key, s) := get_pk e s (la_version la) (la_id la) in
  reply_to s udp addr_a (PunchHoleResponseOut
    (mkPunchHoleResponse (la_local_addr la) key ID_NOT_EXIST (la_relay_server la) None true)).

(** The newest of the last thirty requests between these two decides. *)
Definition is_dup (e : Env) (l : list PunchReqEntry) (from id : bytes) : bool :=
  match List.find (fun x => bool_decide (from_ip x = from) && bool_decide (to_id x = id))
          (take 30 (rev l)) with
  | Some x => as_secs (now e - punch_tm x) <? PUNCH_REQ_DEDUPE_SEC
  | None => false
  end.

Definition handle_punch_hole_request (e : Env) (s : Server) (addr : SocketAddr) (ph : PunchHoleRequest)
  (key : bytes) (ws : bool) : MsgOut * option SocketAddr * Server :=
  if negb (is_empty key) && negb (bool_decide (ph_licence_key ph = key))
  then (PunchHoleResponseOut (failed LICENSE_MISMATCH), None, s)
  else
    let '(p, s) := pm_get e s (ph_id ph) in
    match p with
    | None => (PunchHoleResponseOut (failed ID_NOT_EXIST), None, s)
    | Some p =>
        let peer_addr := socket_addr p in
        if REG_TIMEOUT <=? as_millis (now e - last_reg_time p)
        then (PunchHoleResponseOut (failed OFFLINE), None, s)
        else
          let from := show_ip (try_into_v4 addr) in
          let s :=
            if is_dup e (punch_reqs s) from (ph_id ph) then s
            else with_punch s (punch_reqs s ++
                   [mkPunchReq (now e) from (show_ip (try_into_v4 peer_addr)) (ph_id ph)]) (rotation s) in
          let peer_is_lan := is_lan s peer_addr in
          let lan := is_lan s addr in
          let '(relay, s) := get_relay_server s in
          let force := always_use_relay s || xorb peer_is_lan lan in
          let relay := if force && peer_is_lan then local_ip s else relay in
          let nat_type := if force then SYMMETRIC else ph_nat_type ph in
          let same_intranet := negb ws && (peer_is_lan && lan || same_ip peer_addr addr) in
          let a := AddrMangle.encode (tm e) addr in
          (if same_intranet then FetchLocalAddr a relay else PunchHole a nat_type relay,
           Some peer_addr, s)
    end.

Definition handle_tcp_punch_hole_request (e : Env) (s : Server) (addr : SocketAddr)
  (ph : PunchHoleRequest) (key : bytes) (ws : bool) : Server * list Out :=
  let '(msg, to_addr, s) := handle_punch_hole_request e s addr ph key ws in
  match to_addr with
  | Some b => (s, [ToUdp b msg])
  | None => send_to_tcp s addr msg
  end.

Definition handle_udp (e : Env) (s : Server) (msg : MsgIn) (addr : SocketAddr) : Server * list Out :=
  match msg with
  | RegisterPeer id ser =>
      if negb (is_empty id) then
        let '(s, out) := update_addr e s id addr in
        (s, out ++ if ser <? serial s then [ToUdp addr (ConfigureUpdateOut (serial s) (rendezvous_servers s))]
                   else [])
      else (s, [])
  | RegisterPkIn rk => handle_register_pk e s rk addr
  | PunchHoleRequestIn _ => (s, [])
  | PunchHoleSentIn phs => handle_hole_sent e s phs addr true
  | LocalAddrIn la => handle_local_addr e s la true
  | ConfigureUpdate ser servers =>
      if is_loopback (try_into_v4 addr) && (serial s <? ser)
      then (with_config s ser (List.filter (fun x => negb (is_empty x) && valid_server x) servers), [])
      else (s, [])
  | SoftwareUpdate url =>
      if negb (is_empty (version s)) && negb (bool_decide (url = version s))
      then (s, [ToUdp addr (SoftwareUpdateOut (software_url s))]) else (s, [])
  | _ => (s, [])
  end.

(** [sink] is the sink of this TCP connection while it still owns it; the
    result says whether to keep reading. *)
Definition park_sink (s : Server) (sink : option Z) (addr : SocketAddr) : Server :=
  match sink with
  | Some k => with_tcp_punch s (<[try_into_v4 addr := k]> (tcp_punch s))
  | None => s
  end.
Definition to_sink (sink : option Z) (m : MsgOut) : list Out :=
  match sink with Some k => [ToSink k m] | None => [] end.

Definition handle_tcp (e : Env) (s : Server) (msg : MsgIn) (sink : option Z) (addr : SocketAddr)
  (key : bytes) (ws : bool) : bool * option Z * Server * list Out :=
  match msg with
  | PunchHoleRequestIn ph =>
      let s := park_sink s sink addr in
      let '(s, out) := handle_tcp_punch_hole_request e s addr ph key ws in
      (true, None, s, out)
  | RequestRelay rf =>
      let s := park_sink s sink addr in
      match get_in_memory s (rf_id rf) with
      | Some p =>
          (true, None, s,
           [ToUdp (socket_addr p) (RequestRelayOut
              (mkRelayReq (rf_id rf) (rf_uuid rf) (AddrMangle.encode (tm e) addr) (rf_relay_server rf)))])
      | None => (true, None, s, [])
      end
  | RelayResponseIn rr =>
      let addr_b := AddrMangle.decode (rr_socket_addr rr) in
      let '(key', s) := if negb (is_empty (rr_id rr)) then get_pk e s (rr_version rr) (rr_id rr)
                        else (rr_pk rr, s) in
      let '(relay, s) :=
        if negb (is_empty (rr_relay_server rr)) then
          if is_lan s addr_b then (local_ip s, s)
          else if bool_decide (rr_relay_server rr = local_ip s) then get_relay_server s
          else (rr_relay_server rr, s)
        else (rr_relay_server rr, s) in
      let id' := if negb (is_empty (rr_id rr)) then [] else rr_id rr in
      let '(s, out) := send_to_tcp s addr_b (RelayResponseOut
        (mkRelayResponse [] (rr_uuid rr) relay id' key' (rr_version rr))) in
      (false, sink, s, out)
  | PunchHoleSentIn phs => let '(s, out) := handle_hole_sent e s phs addr false in (false, sink, s, out)
  | LocalAddrIn la => let '(s, out) := handle_local_addr e s la false in (false, sink, s, out)
  | TestNatRequest ser =>
      let cu := if ser <? serial s then Some (serial s, rendezvous_servers s) else None in
      (false, sink, s, to_sink sink (TestNatResponse (port_of addr) cu))
  | RegisterPkIn _ => (false, sink, s, to_sink sink (RegisterPkResponse NOT_SUPPORT))
  | _ => (false, sink, s, [])
  end.

(** The end of [handle_listener_inner]: a connection that gave its sink away
    withdraws it. *)
Definition close_tcp (s : Server) (sink : option Z) (addr : SocketAddr) : Server :=
  match sink with
  | None => with_tcp_punch s (delete (try_into_v4 addr) (tcp_punch s))
  | Some _ => s
  end.

(** One bit per asked id, most significant bit first. *)
Definition online (e : Env) (s : Server) (id : bytes) : bool :=
  match get_in_memory s id with
  | Some p => as_millis (now e - last_reg_time p) <? REG_TIMEOUT
  | None => false
  end.

Fixpoint set_states (e : Env) (s : Server) (i : nat) (ids : list bytes) (states : list Z) : list Z :=
  match ids with
  | [] => states
  | id :: ids =>
      let states :=
        if online e s id then
          alter (fun b => Z.lor b (u8_of (Z.shiftl 1 (7 - Z.of_nat i mod 8)))) (i / 8)%nat states
        else states in
      set_states e s (S i) ids states
  end.

Definition handle_online_request (e : Env) (s : Server) (ids : list bytes) : list Z :=
  set_states e s 0 ids (replicate ((length ids + 7) / 8) 0).

(** ** Registrations *)

(** What the database holds for an id. *)
Definition registered (s : Server) (id : bytes) : option Row :=
  List.find (fun r => bool_decide (row_id r = id)) (db s).

Definition db_wf (d : list Row) : Prop :=
  NoDup (List.map row_id d) /\ NoDup (List.map row_guid d) /\
  Forall (fun r => row_uuid r <> [] /\ row_guid r <> []) d.

(** Memory is a cache of the database. *)
Definition cached (p : Peer) (r : option Row) : Prop :=
  match r with
  | Some r => guid p = row_guid r /\ uuid p = row_uuid r /\ pk p = row_pk r /\ info_ip p = row_ip r
  | None => uuid p = [] /\ guid p = []
  end.
Definition consistent (s : Server) : Prop :=
  db_wf (db s) /\ forall id p, peers s !! id = Some p -> cached p (registered s id).

(** The database answers and guids are fresh. *)
Definition env_ok (e : Env) (s : Server) : Prop :=
  db_ok e = true /\ new_guid e <> [] /\ new_guid e ∉ List.map row_guid (db s).

Lemma find_id d id r : List.find (fun r => bool_decide (row_id r = id)) d = Some r ->
  In r d /\ row_id r = id.
Proof. intros [H1 H2]%find_some. by apply bool_decide_eq_true in H2. Qed.

Lemma find_none d id : List.find (fun r => bool_decide (row_id r = id)) d = None <->
  id ∉ List.map row_id d.
Proof.
  rewrite list_elem_of_In, in_map_iff. split.
  - intros H (r & <- & Hr). pose proof (find_none _ _ H r Hr) as F. simpl in F.
    by rewrite bool_decide_true in F.
  - intros H. destruct (List.find _ d) as [r|] eqn:E; [|done]. apply find_id in E as [? <-].
    exfalso. apply H. by exists r.
Qed.

Lemma find_app_new d r id :
  List.find (fun r => bool_decide (row_id r = id)) (d ++ [r]) =
  match List.find (fun r => bool_decide (row_id r = id)) d with
  | Some x => Some x
  | None => if bool_decide (row_id r = id) then Some r else None
  end.
Proof. induction d as [|x d IH]; simpl; [done|]. by destruct (bool_decide (row_id x = id)). Qed.

(** Loading a peer into memory keeps the cache consistent. *)
Lemma pm_get_spec e s id p s1 : db_ok e = true -> consistent s -> pm_get e s id = (p, s1) ->
  consistent s1 /\ db s1 = db s /\ tcp_punch s1 = tcp_punch s /\ sk s1 = sk s /\
  peers s1 !! id = p /\
  match p with
  | Some p => cached p (registered s id) /\ (registered s id = None -> peers s !! id = Some p)
  | None => registered s id = None
  end.
Proof.
  intros Hdb [Hwf Hc]. unfold pm_get, get_peer. rewrite Hdb.
  destruct (peers s !! id) as [q|] eqn:Eq.
  { intros [= <- <-]. split; [by split|]. do 4 (split; [done|]). split; [by apply Hc|done]. }
  fold (registered s id). destruct (registered s id) as [r|] eqn:Er; intros [= <- <-]; [|split; [by split|done]].
  assert (cached (peer_of_row e r) (Some r)) as Hr by done.
  split; [|simpl; by rewrite lookup_insert_eq].
  split; [done|]. intros id' q. simpl. rewrite lookup_insert. unfold registered in *. simpl.
  case_decide as Hid; [subst; intros [= <-]; by rewrite Er|apply Hc].
Qed.

Lemma get_or_spec e s id p s1 : db_ok e = true -> consistent s -> get_or e s id = (p, s1) ->
  consistent s1 /\ db s1 = db s /\ peers s1 !! id = Some p /\ cached p (registered s id).
Proof.
  intros Hdb Hs. unfold get_or. destruct (pm_get e s id) as [q s0] eqn:G.
  destruct (pm_get_spec _ _ _ _ _ Hdb Hs G) as (Hc & Hd & _ & _ & Hp & H). destruct q as [q|].
  - intros [= <- <-]. split; [done|]. split; [done|]. split; [done|]. apply H.
  - intros [= <- <-]. simpl. rewrite lookup_insert_eq, H. split; [|done].
    destruct Hc as [Hwf Hc]. split; [done|]. intros id' q. simpl. rewrite lookup_insert.
    case_decide as Hid; [|apply Hc]. subst. intros [= <-].
    unfold registered in *. simpl. rewrite Hd, H. done.
Qed.

Lemma NoDup_fmap_In {A B} (f : A -> B) (l : list A) x y :
  NoDup (List.map f l) -> In x l -> In y l -> f x = f y -> x = y.
Proof.
  induction l as [|z l IH]; simpl; [done|]. rewrite NoDup_cons. intros [Hz Hn] Hx Hy E.
  destruct Hx as [->|Hx], Hy as [->|Hy]; [done|..|by apply IH].
  - exfalso. apply Hz. rewrite E. apply list_elem_of_In, in_map_iff. by exists y.
  - exfalso. apply Hz. rewrite <- E. apply list_elem_of_In, in_map_iff. by exists x.
Qed.

Lemma map_id_update d g id0 pk0 info r :
  In r d -> row_id r = id0 -> row_guid r = g -> db_wf d ->
  let d' := List.map (fun r => if bool_decide (row_guid r = g) then mkRow g id0 (row_uuid r) pk0 info else r) d in
  List.map row_id d' = List.map row_id d /\ List.map row_guid d' = List.map row_guid d /\
  db_wf d' /\
  (forall id, List.find (fun r => bool_decide (row_id r = id)) d' =
     if decide (id = id0) then Some (mkRow g id0 (row_uuid r) pk0 info)
     else List.find (fun r => bool_decide (row_id r = id)) d).
Proof.
  intros Hin Hid Hg (N1 & N2 & F) d'.
  assert (forall x, In x d -> row_guid x = g -> x = r) as Huniq.
  { intros x Hx Hgx. apply (NoDup_fmap_In row_guid d); try done; congruence. }
  assert (List.map row_id d' = List.map row_id d) as E1.
  { unfold d'. rewrite map_map. apply map_ext_in. intros x Hx. case_bool_decide as E; [|done].
    simpl. by rewrite (Huniq x Hx E). }
  assert (List.map row_guid d' = List.map row_guid d) as E2.
  { unfold d'. rewrite map_map. apply map_ext_in. intros x Hx. by case_bool_decide. }
  split; [done|]. split; [done|]. split.
  - unfold db_wf. rewrite E1, E2. split; [done|]. split; [done|].
    unfold d'. rewrite Forall_forall in *. intros x Hx. apply list_elem_of_In, in_map_iff in Hx as (y & <- & Hy).
    case_bool_decide as E; [|by apply F, list_elem_of_In]. simpl.
    destruct (F r) as [? ?]; [by apply list_elem_of_In|]. rewrite (Huniq y Hy E). split; congruence.
  - intros id. clear E1 E2. unfold d'. clear d'.
    assert (forall l, (forall x, In x l -> In x d) ->
      List.find (fun r => bool_decide (row_id r = id))
        (List.map (fun r => if bool_decide (row_guid r = g) then mkRow g id0 (row_uuid r) pk0 info else r) l) =
      match List.find (fun r => bool_decide (row_id r = id)) l with
      | Some x => Some (if bool_decide (row_guid x = g) then mkRow g id0 (row_uuid x) pk0 info else x)
      | None => None
      end) as H.
    { induction l as [|x l IH]; intros Hl; simpl; [done|].
      specialize (IH (fun y Hy => Hl y (or_intror Hy))).
      destruct (bool_decide_reflect (row_guid x = g)) as [E|E].
      - pose proof (Huniq x (Hl x (or_introl eq_refl)) E) as ->. simpl. rewrite Hid.
        destruct (bool_decide (id0 = id)); [by rewrite bool_decide_true|done].
      - destruct (bool_decide (row_id x = id)); [by rewrite bool_decide_false|done]. }
    rewrite (H d) by done. destruct (List.find _ d) as [x|] eqn:E; case_decide as Hd.
    + apply find_id in E as [Ex Ex2]. assert (x = r) as ->.
      { apply (NoDup_fmap_In row_id d); try done; congruence. }
      by rewrite bool_decide_true.
    + apply find_id in E as [Ex Ex2]. rewrite bool_decide_false; [done|].
      intros Hgx. rewrite (Huniq x Ex Hgx) in Ex2. congruence.
    + subst id. exfalso. apply find_none in E. apply E. apply list_elem_of_In, in_map_iff. by exists r.
    + done.
Qed.

Lemma consistent_cong s s' : peers s' = peers s -> db s' = db s -> consistent s -> consistent s'.
Proof. unfold consistent, registered. by intros -> ->. Qed.

(** Replacing a cached entry by one with the same registration. *)
Lemma consistent_insert s id p p' : consistent s -> peers s !! id = Some p ->
  guid p' = guid p -> uuid p' = uuid p -> pk p' = pk p -> info_ip p' = info_ip p ->
  consistent (with_peers s (<[id := p']> (peers s))).
Proof.
  intros [Hwf Hc] Hp E1 E2 E3 E4. split; [done|]. intros id' q. simpl. rewrite lookup_insert.
  case_decide as Hid; [|apply Hc]. subst. intros [= <-].
  specialize (Hc _ _ Hp). unfold registered in *. simpl. unfold cached in *.
  destruct (List.find _ (db s)); by rewrite ?E1, ?E2, ?E3, ?E4.
Qed.

(** Storing a key for [id]: the row of [id] is the new registration, the
    others are untouched. *)
Lemma update_pk_spec e s id addr uuid0 pk0 ip p : consistent s -> env_ok e s ->
  peers s !! id = Some p -> uuid0 <> [] ->
  (forall r, registered s id = Some r -> row_uuid r = uuid0) ->
  let s' := (update_pk e s id addr uuid0 pk0 ip).2 in
  consistent s' /\
  exists g, (forall r, registered s id = Some r -> g = row_guid r) /\
    forall id', registered s' id' =
      if decide (id' = id) then Some (mkRow g id uuid0 pk0 ip) else registered s id'.
Proof.
  intros [Hwf Hc] (Hdb & Hg & Hfresh) Hp Hu Hr s'. subst s'. unfold update_pk. rewrite Hp.
  pose proof (Hc _ _ Hp) as Hcp. cbn [guid uuid pk info_ip socket_addr last_reg_time reg_pk].
  destruct (registered s id) as [r|] eqn:Er.
  - destruct Hcp as (Eg & Eu & Ek & Ei). destruct (find_id _ _ _ Er) as [Hin Hid].
    destruct Hwf as (N1 & N2 & F). pose proof (proj1 (Forall_forall _ _) F r) as Fr.
    destruct Fr as [_ Frg]; [by apply list_elem_of_In|].
    destruct (guid p) as [|b g'] eqn:Egp; [congruence|]. simpl is_empty. cbv iota. rewrite <- Egp in *.
    unfold db_update_pk. rewrite Hdb. simpl db.
    assert (existsb (fun x => bool_decide (row_id x = id) && negb (bool_decide (row_guid x = guid p))) (db s)
      = false) as ->.
    { apply not_true_iff_false. intros H. apply existsb_exists in H as (x & Hx & H).
      rewrite andb_true_iff, negb_true_iff, bool_decide_eq_true, bool_decide_eq_false in H.
      destruct H as [H1 H2]. apply H2. rewrite Eg. f_equal.
      apply (NoDup_fmap_In row_id (db s)); try done. congruence. }
    simpl andb. cbv iota. simpl.
    destruct (map_id_update (db s) (guid p) id pk0 ip r Hin Hid (eq_sym Eg) (conj N1 (conj N2 F)))
      as (_ & _ & Hwf' & Hfind).
    assert (row_uuid r = uuid0) as Eru by by apply Hr. rewrite Eru in Hfind.
    split.
    + split; [exact Hwf'|]. intros id' q. simpl. rewrite lookup_insert. unfold registered. simpl.
      rewrite Hfind. destruct (decide (id' = id)) as [->|Hne].
      * rewrite decide_True by done. intros [= <-]. done.
      * rewrite decide_False by done. apply Hc.
    + exists (guid p). split; [by intros ? [= <-]|]. intros id'. unfold registered. simpl. apply Hfind.
  - destruct Hcp as [Eu Eg]. rewrite Eg. simpl is_empty. cbv iota. unfold insert_peer. rewrite Hdb. simpl db.
    assert (existsb (fun r => bool_decide (row_id r = id) || bool_decide (row_guid r = new_guid e)) (db s) = false) as ->.
    { apply not_true_iff_false. intros H. apply existsb_exists in H as (x & Hx & H).
      rewrite orb_true_iff, !bool_decide_eq_true in H. destruct H as [H|H].
      - apply find_none in Er. apply Er. apply list_elem_of_In, in_map_iff. by exists x.
      - apply Hfresh. apply list_elem_of_In, in_map_iff. by exists x. }
    simpl andb. cbv iota. simpl.
    assert (forall id', List.find (fun r => bool_decide (row_id r = id'))
        (db s ++ [mkRow (new_guid e) id uuid0 pk0 ip]) =
      if decide (id' = id) then Some (mkRow (new_guid e) id uuid0 pk0 ip) else registered s id') as Hfind.
    { intros id'. rewrite find_app_new. simpl. fold (registered s id').
      destruct (decide (id' = id)) as [->|Hne].
      - rewrite Er. by rewrite bool_decide_true.
      - rewrite bool_decide_false by congruence. by destruct (registered s id'). }
    split.
    + split.
      * destruct Hwf as (N1 & N2 & F). split; [|split].
        -- simpl. rewrite map_app. apply NoDup_app. split; [done|]. split; [|apply NoDup_singleton].
           intros x Hx ?%list_elem_of_singleton. subst. by apply find_none in Er.
        -- simpl. rewrite map_app. apply NoDup_app. split; [done|]. split; [|apply NoDup_singleton].
           intros x Hx ?%list_elem_of_singleton. subst. done.
        -- simpl. apply Forall_app. split; [done|]. by repeat constructor.
      * intros id' q. simpl. rewrite insert_insert_eq, lookup_insert. unfold registered. simpl. rewrite Hfind.
        destruct (decide (id' = id)) as [->|Hne].
        -- rewrite decide_True by done. by intros [= <-].
        -- rewrite decide_False by done. apply Hc.
    + exists (new_guid e). split; [done|]. intros id'. unfold registered. simpl. apply Hfind.
Qed.

Lemma blocker_keeps e s ip id ok s1 : check_ip_blocker e s ip id = (ok, s1) ->
  peers s1 = peers s /\ db s1 = db s.
Proof.
  unfold check_ip_blocker. destruct (ip_blocker s !! ip) as [[[n t0] [ids t2]]|]; [|by intros [= _ <-]].
  repeat match goal with |- context [if ?b then _ else _] => destruct b end; by intros [= _ <-].
Qed.

(** How a registration may change: by a registration that knows the uuid, and
    either keeps the key or comes from the recorded address. *)
Definition reg_change (addr : SocketAddr) (rk : RegisterPk) (r r' : Row) : Prop :=
  rk_id rk = row_id r /\ rk_uuid rk = row_uuid r /\
  row_pk r' = rk_pk rk /\ row_ip r' = show_ip addr /\
  (row_pk r' = row_pk r \/ row_ip r = show_ip addr).

Definition preserved (s s' : Server) (change : Row -> Row -> Prop) : Prop :=
  forall id r, registered s id = Some r ->
    exists r', registered s' id = Some r' /\ row_uuid r' = row_uuid r /\ row_guid r' = row_guid r /\
      (r' = r \/ change r r').

Lemma preserved_db s s' change : db s' = db s -> preserved s s' change.
Proof.
  intros E id r Hr. exists r. unfold registered in *. rewrite E. repeat split; try done. by left.
Qed.

Lemma set_reg_pk_keeps s id r : consistent s ->
  consistent (set_reg_pk s id r) /\ db (set_reg_pk s id r) = db s /\
  (forall p, peers s !! id = Some p -> exists q, peers (set_reg_pk s id r) !! id = Some q).
Proof.
  intros Hc. unfold set_reg_pk. destruct (peers s !! id) as [p|] eqn:E; [|done].
  split; [by apply (consistent_insert s id p)|]. split; [done|].
  intros q _. simpl. rewrite lookup_insert_eq. eauto.
Qed.

Lemma handle_register_pk_spec e s rk addr : consistent s -> env_ok e s ->
  consistent (handle_register_pk e s rk addr).1 /\
  preserved s (handle_register_pk e s rk addr).1 (reg_change addr rk).
Proof.
  intros Hs He. unfold handle_register_pk.
  assert (forall s1, peers s1 = peers s -> db s1 = db s ->
    consistent s1 /\ preserved s s1 (reg_change addr rk)) as Hsame.
  { intros s1 E1 E2. split; [by apply (consistent_cong s)|by apply preserved_db]. }
  destruct (rk_uuid rk) as [|u0 us] eqn:Eu; [by apply Hsame|].
  destruct (rk_pk rk) as [|k0 ks] eqn:Ek; [by apply Hsame|]. rewrite <- Eu, <- Ek in *.
  replace (is_empty (rk_uuid rk) || is_empty (rk_pk rk)) with false by (by rewrite Eu, Ek).
  cbv iota. destruct (len (rk_id rk) <? 6); [by apply Hsame|].
  destruct (check_ip_blocker e s (show_ip addr) (rk_id rk)) as [ok s1] eqn:B.
  destruct (blocker_keeps _ _ _ _ _ _ B) as [B1 B2].
  destruct ok; simpl negb; cbv iota; [|by apply Hsame].
  destruct (get_or e s1 (rk_id rk)) as [p s2] eqn:G.
  destruct (get_or_spec _ _ _ _ _ (proj1 He) (consistent_cong _ _ B1 B2 Hs) G) as (Hc2 & Hd2 & Hp2 & Hcp).
  assert (db s2 = db s) as Hd by congruence.
  assert (forall id, registered s2 id = registered s id) as Hreg by (intros; unfold registered; by rewrite Hd).
  replace (registered s1 (rk_id rk)) with (registered s (rk_id rk)) in Hcp
    by (unfold registered; by rewrite B2).
  destruct (pk_status p rk (show_ip addr)) as [[changed ip_changed]|] eqn:St;
    [|split; [done|by apply preserved_db]].
  destruct (reg_pk_next e (reg_pk p)) as [rn|]; [|split; [done|by apply preserved_db]].
  destruct (set_reg_pk_keeps s2 (rk_id rk) rn Hc2) as (Hc3 & Hd3 & Hp3).
  destruct (Hp3 _ Hp2) as [q Hq].
  set (s3 := set_reg_pk s2 (rk_id rk) rn) in *.
  set (s4 := if ip_changed then note_ip_change e s3 (rk_id rk) (show_ip addr) else s3).
  assert (peers s4 = peers s3 /\ db s4 = db s3) as [E4 D4] by (unfold s4; by destruct ip_changed).
  assert (consistent s4) as Hc4 by by apply (consistent_cong s3).
  destruct changed; [|split; [done|]; apply preserved_db; simpl; congruence]. simpl fst.
  assert (env_ok e s4) as He4 by (destruct He as (? & ? & ?); repeat split; try done; by rewrite D4, Hd3, Hd).
  assert (forall id, registered s4 id = registered s id) as Hreg4
    by (intros; unfold registered; by rewrite D4, Hd3, Hd).
  assert (forall r, registered s4 (rk_id rk) = Some r -> row_uuid r = rk_uuid rk /\
    (rk_pk rk = row_pk r \/ row_ip r = show_ip addr) /\ row_id r = rk_id rk) as Hown.
  { intros r Hr. rewrite Hreg4 in Hr. rewrite Hr in Hcp. destruct Hcp as (_ & Cu & Ck & Ci).
    destruct (find_id _ _ _ Hr) as [Hin Hid]. unfold pk_status in St.
    destruct Hs as [(_ & _ & F) _]. pose proof (proj1 (Forall_forall _ _) F r) as Fr.
    destruct Fr as [Fu _]; [by apply list_elem_of_In|]. rewrite <- Cu in Fu.
    destruct (uuid p) eqn:Eup; [done|]. simpl is_empty in St. cbv iota in St. rewrite <- Eup in *.
    destruct (bool_decide_reflect (uuid p = rk_uuid rk)) as [E1|]; [|done]. simpl negb in St. cbv iota in St.
    split; [congruence|]. split; [|done].
    destruct (bool_decide_reflect (info_ip p = show_ip addr)) as [E2|]; [right; congruence|].
    destruct (bool_decide_reflect (pk p = rk_pk rk)) as [E3|]; [left; congruence|done]. }
  destruct (update_pk_spec e s4 (rk_id rk) addr (rk_uuid rk) (rk_pk rk) (show_ip addr) q Hc4 He4)
    as [Hc5 (g & Hg & Hr5)].
  { by rewrite E4. } { by rewrite Eu. } { intros r Hr. by apply Hown. }
  split; [done|]. intros id r Hr. rewrite Hr5, Hreg4. destruct (decide (id = rk_id rk)) as [->|Hne].
  - rewrite <- Hreg4 in Hr. destruct (Hown r Hr) as (O1 & O2 & O3). eexists. split; [done|]. simpl.
    split; [congruence|]. split; [by apply Hg|]. right. unfold reg_change. simpl. by rewrite O1, O3.
  - exists r. repeat split; try done. by left.
Qed.

(** ** The server as a machine over incoming messages *)
Inductive Input :=
| UdpIn (addr : SocketAddr) (msg : MsgIn)
| TcpIn (addr : SocketAddr) (msg : MsgIn) (sink : option Z) (key : bytes) (ws : bool)
| TcpClosed (addr : SocketAddr) (sink : option Z).

Definition step (e : Env) (s : Server) (i : Input) : Server * list Out :=
  match i with
  | UdpIn addr msg => handle_udp e s msg addr
  | TcpIn addr msg sink key ws =>
      let '(_, _, s, out) := handle_tcp e s msg sink addr key ws in (s, out)
  | TcpClosed addr sink => (close_tcp s sink addr, [])
  end.

(** Handlers that leave registrations alone. *)
Definition keeps (s s' : Server) : Prop := consistent s' /\ db s' = db s.

Lemma keeps_cong s s1 s2 : peers s2 = peers s1 -> db s2 = db s1 -> keeps s s1 -> keeps s s2.
Proof. intros E1 E2 [Hc Hd]. split; [by apply (consistent_cong s1)|congruence]. Qed.

Lemma get_pk_keeps e s ver id key s1 : db_ok e = true -> consistent s -> get_pk e s ver id = (key, s1) ->
  keeps s s1 /\ tcp_punch s1 = tcp_punch s.
Proof.
  intros Hdb Hs. unfold get_pk. destruct (sk s); [|by intros [= _ <-]].
  destruct (is_empty ver); [by intros [= _ <-]|].
  destruct (pm_get e s id) as [p s0] eqn:G.
  destruct (pm_get_spec _ _ _ _ _ Hdb Hs G) as (Hc & Hd & Ht & _).
  destruct p; by intros [= _ <-].
Qed.

Lemma reply_keeps s0 s udp addr msg : keeps s0 s -> keeps s0 (reply_to s udp addr msg).1.
Proof. intros H. unfold reply_to. destruct udp; [done|]. by apply (keeps_cong _ s). Qed.

Lemma hole_sent_keeps e s phs addr udp : db_ok e = true -> consistent s ->
  keeps s (handle_hole_sent e s phs addr udp).1.
Proof.
  intros Hdb Hs. unfold handle_hole_sent.
  destruct (get_pk e s (phs_version phs) (phs_id phs)) as [key s1] eqn:G.
  apply reply_keeps. by apply (get_pk_keeps _ _ _ _ _ _ Hdb Hs G).
Qed.

Lemma local_addr_keeps e s la udp : db_ok e = true -> consistent s ->
  keeps s (handle_local_addr e s la udp).1.
Proof.
  intros Hdb Hs. unfold handle_local_addr.
  destruct (get_pk e s (la_version la) (la_id la)) as [key s1] eqn:G.
  apply reply_keeps. by apply (get_pk_keeps _ _ _ _ _ _ Hdb Hs G).
Qed.

Lemma get_relay_keeps s r s1 : get_relay_server s = (r, s1) -> peers s1 = peers s /\ db s1 = db s.
Proof.
  unfold get_relay_server. destruct (relay_servers s) as [|x [|y l]]; by intros [= _ <-].
Qed.

Lemma punch_request_keeps e s addr ph key ws m to s1 : db_ok e = true -> consistent s ->
  handle_punch_hole_request e s addr ph key ws = (m, to, s1) -> keeps s s1.
Proof.
  intros Hdb Hs. unfold handle_punch_hole_request.
  match goal with |- context [if ?b then (PunchHoleResponseOut _, _, _) else _] => destruct b end;
    [by intros [= _ _ <-]|].
  destruct (pm_get e s (ph_id ph)) as [p s0] eqn:G.
  destruct (pm_get_spec _ _ _ _ _ Hdb Hs G) as (Hc & Hd & _).
  destruct p as [p|]; [|by intros [= _ _ <-]].
  match goal with |- context [if ?b then (PunchHoleResponseOut _, _, _) else _] => destruct b end;
    [by intros [= _ _ <-]|].
  match goal with |- context [get_relay_server ?x] =>
    assert (peers x = peers s0 /\ db x = db s0) as [X1 X2]
      by (destruct (is_dup e (punch_reqs s0) (show_ip (try_into_v4 addr)) (ph_id ph)); done);
    destruct (get_relay_server x) as [rl s2] eqn:R end.
  destruct (get_relay_keeps _ _ _ R) as [R1 R2]. intros [= _ _ <-].
  apply (keeps_cong _ s0); [congruence|congruence|done].
Qed.

Lemma update_addr_keeps e s id addr : consistent s -> keeps s (update_addr e s id addr).1.
Proof.
  intros Hs. unfold update_addr, get_in_memory. destruct (peers s !! id) as [old|] eqn:E; [|done].
  match goal with |- context [if ?b then s else _] => destruct b end; [done|].
  simpl. split; [|done]. by apply (consistent_insert s id old).
Qed.

Lemma tcp_keeps e s msg sink addr key ws : db_ok e = true -> consistent s ->
  keeps s (handle_tcp e s msg sink addr key ws).1.2.
Proof.
  intros Hdb Hs.
  assert (keeps s (park_sink s sink addr)) as Hpark by (destruct sink; [|done]; by apply (keeps_cong _ s)).
  destruct msg; try done; cbn [handle_tcp].
  - unfold handle_tcp_punch_hole_request.
    destruct (handle_punch_hole_request e (park_sink s sink addr) addr ph key ws) as [[m0 to] s1] eqn:P.
    pose proof (punch_request_keeps _ _ _ _ _ _ _ _ _ Hdb (proj1 Hpark) P) as K.
    assert (keeps s s1) as K' by (split; [apply K|rewrite (proj2 K); apply Hpark]).
    destruct to; [done|]. simpl. by apply (keeps_cong _ s1).
  - pose proof (hole_sent_keeps e s phs addr false Hdb Hs) as K.
    by destruct (handle_hole_sent e s phs addr false).
  - pose proof (local_addr_keeps e s la false Hdb Hs) as K. by destruct (handle_local_addr e s la false).
  - by destruct (get_in_memory (park_sink s sink addr) (rf_id rf)).
  - match goal with |- context [let '(a, b) := ?x in _] => destruct x as [k1 s1] eqn:E1 end.
    assert (keeps s s1) as K1.
    { destruct (negb (is_empty (rr_id rr))); [by apply (get_pk_keeps _ _ _ _ _ _ Hdb Hs E1)|by injection E1 as _ <-]. }
    match goal with |- context [let '(a, b) := ?x in _] => destruct x as [rl s2] eqn:E2 end.
    assert (keeps s s2) as K2.
    { destruct (negb (is_empty (rr_relay_server rr))); [|by injection E2 as _ <-].
      destruct (is_lan s1 _); [by injection E2 as _ <-|].
      destruct (bool_decide _); [|by injection E2 as _ <-].
      destruct (get_relay_keeps _ _ _ E2) as [? ?]. by apply (keeps_cong _ s1). }
    simpl. by apply (keeps_cong _ s2).
Qed.

Lemma step_registration e s i : consistent s -> env_ok e s ->
  consistent (step e s i).1 /\
  preserved s (step e s i).1 (fun r r' =>
    exists addr rk, i = UdpIn addr (RegisterPkIn rk) /\ reg_change addr rk r r').
Proof.
  intros Hs He.
  assert (forall s1 P, keeps s s1 -> consistent s1 /\ preserved s s1 P) as Hk.
  { intros s1 P [Hc Hd]. split; [done|by apply preserved_db]. }
  destruct i as [addr msg|addr msg sink key ws|addr sink]; simpl.
  - destruct msg; try (by apply Hk); simpl.
    + destruct (negb (is_empty id)); [|by apply Hk].
      pose proof (update_addr_keeps e s id addr Hs) as K.
      destruct (update_addr e s id addr) as [s1 out]. by apply Hk.
    + destruct (handle_register_pk_spec e s rk addr Hs He) as [Hc Hp]. split; [done|].
      intros id r Hr. destruct (Hp id r Hr) as (r' & H1 & H2 & H3 & H4). exists r'.
      repeat split; try done. destruct H4 as [?|?]; [by left|right]. by exists addr, rk.
    + apply Hk, hole_sent_keeps; [apply He|done].
    + apply Hk, local_addr_keeps; [apply He|done].
    + match goal with |- context [if ?b then _ else _] => destruct b end; apply Hk; [|done].
      by apply (keeps_cong _ s).
    + match goal with |- context [if ?b then _ else _] => destruct b end; by apply Hk.
  - pose proof (tcp_keeps e s msg sink addr key ws (proj1 He) Hs) as K.
    destruct (handle_tcp e s msg sink addr key ws) as [[[b k] s1] out]. by apply Hk.
  - apply Hk. destruct sink; [done|]. by apply (keeps_cong _ s).
Qed.

(** [C17] A device keeps its identity: while the database answers and new guids
    are fresh ([env_ok]), whatever arrives over UDP or TCP, memory stays a cache
    of the database, and the registration of an id keeps its uuid; its key and
    address change only by a registration that presents that uuid and either
    repeats the key or comes from the address recorded before.  When the database
    fails, [update_pk] has already changed memory, which is then no cache of it. *)
Theorem registration_protected e s i : consistent s -> env_ok e s ->
  consistent (step e s i).1 /\
  preserved s (step e s i).1 (fun r r' =>
    exists addr rk, i = UdpIn addr (RegisterPkIn rk) /\ reg_change addr rk r r').
Proof. apply step_registration. Qed.

(** ** What the server vouches for *)
Fixpoint run (evs : list (Env * Input)) (s : Server) : Server :=
  match evs with
  | [] => s
  | (e, i) :: evs => run evs (step e s i).1
  end.
Fixpoint run_ok (evs : list (Env * Input)) (s : Server) : Prop :=
  match evs with
  | [] => True
  | (e, i) :: evs => env_ok e s /\ run_ok evs (step e s i).1
  end.

(** Someone presents the uuid [u] for [id]. *)
Definition presents (id u : bytes) (i : Input) : Prop :=
  exists addr rk, i = UdpIn addr (RegisterPkIn rk) /\ rk_id rk = id /\ rk_uuid rk = u.

Lemma run_registered evs : forall s id r, consistent s -> run_ok evs s -> registered s id = Some r ->
  Forall (fun x : Env * Input => ~ presents id (row_uuid r) x.2) evs ->
  consistent (run evs s) /\ registered (run evs s) id = Some r.
Proof.
  induction evs as [|[e i] evs IH]; intros s id r Hs Hok Hr Hf; [done|]. simpl in *.
  destruct Hok as [He Hok]. inversion Hf as [|?? Hi Hf']; subst.
  destruct (step_registration e s i Hs He) as [Hc Hp].
  destruct (Hp id r Hr) as (r' & H1 & _ & _ & H4). apply IH; try done.
  destruct H4 as [->|(addr & rk & -> & Hid & Hu & _)]; [done|].
  exfalso. apply Hi. exists addr, rk. simpl. split; [done|]. split; [|done].
  rewrite Hid. by apply (find_id _ _ _ Hr).
Qed.

Lemma get_pk_signed e s id r ver key : consistent s -> registered s id = Some r ->
  db_ok e = true -> ver <> [] -> sk s = Some key ->
  (get_pk e s ver id).1 = sign (write_idpk id (row_pk r)) key.
Proof.
  intros Hc Hr Hdb Hver Hsk. unfold get_pk. rewrite Hsk. destruct ver; [done|]. simpl is_empty. cbv iota.
  destruct (pm_get e s id) as [p s1] eqn:G.
  destruct (pm_get_spec _ _ _ _ _ Hdb Hc G) as (_ & _ & _ & _ & _ & H).
  destruct p as [p|]; [|congruence]. destruct H as [H _]. rewrite Hr in H.
  by destruct H as (_ & _ & -> & _).
Qed.

(** The server signs the registered key: starting from a consistent state,
    as long as nobody presents the uuid of a device for its id, whatever else
    is sent to the server, the signed statement it hands out for that id
    carries the key of the original registration, and verifies under the
    server's key. *)
Theorem signed_key_is_registered {SGL : SignLaws} evs s id r e ver key :
  consistent s -> run_ok evs s -> registered s id = Some r ->
  Forall (fun x : Env * Input => ~ presents id (row_uuid r) x.2) evs ->
  db_ok e = true -> ver <> [] -> sk (run evs s) = Some key ->
  (get_pk e (run evs s) ver id).1 = sign (write_idpk id (row_pk r)) key /\
  verify (get_pk e (run evs s) ver id).1 (sign_public key) = Some (write_idpk id (row_pk r)).
Proof.
  intros Hs Hok Hr Hf Hdb Hver Hsk.
  destruct (run_registered evs s id r Hs Hok Hr Hf) as [Hc Hr'].
  pose proof (get_pk_signed e _ id r ver key Hc Hr' Hdb Hver Hsk) as E.
  split; [done|]. rewrite E. apply verify_sign.
Qed.

(** ** Which devices are online *)
(** Bit [q] of the answer, counted from the most significant bit. *)
Definition bit_at (states : list Z) (q : nat) : bool :=
  Z.testbit (nth (q / 8) states 0) (7 - Z.of_nat q mod 8).

Lemma testbit_mask i j : Z.testbit (u8_of (Z.shiftl 1 (7 - Z.of_nat i mod 8))) (7 - Z.of_nat j mod 8)
  = (Z.of_nat i mod 8 =? Z.of_nat j mod 8).
Proof.
  pose proof (Z.mod_pos_bound (Z.of_nat i) 8 ltac:(lia)) as Hi.
  pose proof (Z.mod_pos_bound (Z.of_nat j) 8 ltac:(lia)) as Hj.
  unfold u8_of. rewrite Z.shiftl_1_l, wrap_id.
  - rewrite Z.pow2_bits_eqb by lia. apply eq_true_iff_eq. rewrite !Z.eqb_eq. lia.
  - unfold in_width. split; [apply Z.pow_nonneg; lia|]. apply Z.pow_lt_mono_r; lia.
Qed.

Lemma bit_at_alter st i q : (i / 8 < length st)%nat ->
  bit_at (alter (fun b => Z.lor b (u8_of (Z.shiftl 1 (7 - Z.of_nat i mod 8)))) (i / 8)%nat st) q
  = bit_at st q || (i =? q)%nat.
Proof.
  intros Hi. unfold bit_at. rewrite !(nth_lookup _ _ 0), list_lookup_alter.
  case_decide as E.
  - rewrite <- E. destruct (lookup_lt_is_Some_2 st _ Hi) as [b ->]. simpl.
    rewrite Z.lor_spec, testbit_mask. f_equal. apply eq_true_iff_eq. rewrite Z.eqb_eq, Nat.eqb_eq.
    split; [|by intros ->]. intros Hm. pose proof (Nat.div_mod_eq i 8). pose proof (Nat.div_mod_eq q 8).
    change (Z.of_nat i mod Z.of_nat 8 = Z.of_nat q mod Z.of_nat 8) in Hm.
    rewrite <- !Nat2Z.inj_mod in Hm. lia.
  - replace (i =? q)%nat with false; [by rewrite orb_false_r|]. symmetry. apply Nat.eqb_neq. congruence.
Qed.

Lemma set_states_spec e s ids : forall i st q, (i + length ids <= 8 * length st)%nat ->
  bit_at (set_states e s i ids st) q =
  bit_at st q || match ids !! (q - i)%nat with Some id => (i <=? q)%nat && online e s id | None => false end.
Proof.
  induction ids as [|id ids IH]; intros i st q Hl; cbn [set_states length] in *.
  { by rewrite lookup_nil, orb_false_r. }
  rewrite IH.
  2: { destruct (online e s id); rewrite ?length_alter; lia. }
  assert (bit_at (if online e s id
      then alter (fun b => Z.lor b (u8_of (Z.shiftl 1 (7 - Z.of_nat i mod 8)))) (i / 8)%nat st else st) q
    = bit_at st q || ((i =? q)%nat && online e s id)) as ->.
  { destruct (online e s id); [|by rewrite andb_false_r, orb_false_r].
    rewrite bit_at_alter, andb_true_r; [done|]. apply Nat.Div0.div_lt_upper_bound. lia. }
  rewrite <- orb_assoc. f_equal. destruct (Nat.lt_trichotomy i q) as [H|[->|H]].
  - replace (q - i)%nat with (S (q - S i)) by lia.
    replace (i =? q)%nat with false by (symmetry; apply Nat.eqb_neq; lia).
    replace (i <=? q)%nat with true by (symmetry; apply Nat.leb_le; lia).
    replace (S i <=? q)%nat with true by (symmetry; apply Nat.leb_le; lia). done.
  - replace (S q <=? q)%nat with false by (symmetry; apply Nat.leb_gt; lia).
    rewrite Nat.eqb_refl, Nat.sub_diag, Nat.leb_refl. simpl lookup.
    destruct (ids !! (q - S q)%nat); by rewrite orb_false_r.
  - replace (S i <=? q)%nat with false by (symmetry; apply Nat.leb_gt; lia).
    replace (i =? q)%nat with false by (symmetry; apply Nat.eqb_neq; lia).
    replace (i <=? q)%nat with false by (symmetry; apply Nat.leb_gt; lia).
    by destruct (ids !! (q - S i)%nat), ((id :: ids) !! (q - i)%nat).
Qed.

(** The online answer tells the truth: bit [q] (most significant bit of the
    first byte first) of the answer to a query is set exactly when the [q]-th
    asked id is registered in memory and was seen in the last thirty seconds;
    padding bits are zero. *)
Theorem online_states_correct e s ids q :
  bit_at (handle_online_request e s ids) q =
  match ids !! q with Some id => online e s id | None => false end.
Proof.
  unfold handle_online_request. rewrite set_states_spec.
  - rewrite Nat.sub_0_r. replace (bit_at (replicate ((length ids + 7) / 8) 0) q) with false.
    { by destruct (ids !! q). }
    unfold bit_at. rewrite nth_lookup. symmetry.
    destruct (replicate ((length ids + 7) / 8) 0 !! (q / 8)%nat) as [b|] eqn:E; [|apply Z.testbit_0_l].
    apply lookup_replicate in E as [-> _]. apply Z.testbit_0_l.
  - rewrite length_replicate. pose proof (Nat.div_mod_eq (length ids + 7) 8).
    pose proof (Nat.mod_upper_bound (length ids + 7) 8 ltac:(lia)). lia.
Qed.

(** ** Bringing two devices together *)
(** Waiting viewers and the server's key are left alone. *)
Definition framed (s s' : Server) : Prop := tcp_punch s' = tcp_punch s /\ sk s' = sk s.

Lemma framed_trans s1 s2 s3 : framed s1 s2 -> framed s2 s3 -> framed s1 s3.
Proof. intros [? ?] [? ?]. split; congruence. Qed.

Lemma pm_get_framed e s id : framed s (pm_get e s id).2.
Proof.
  unfold pm_get. destruct (peers s !! id); [done|]. by destruct (get_peer e (db s) id) as [[]|].
Qed.

Lemma get_or_framed e s id : framed s (get_or e s id).2.
Proof.
  pose proof (pm_get_framed e s id) as H. unfold get_or.
  destruct (pm_get e s id) as [[p|] s1]; [done|]. by apply (framed_trans _ s1).
Qed.

Lemma get_pk_framed e s ver id : framed s (get_pk e s ver id).2.
Proof.
  pose proof (pm_get_framed e s id) as H. unfold get_pk. destruct (sk s); [|done].
  destruct (is_empty ver); [done|]. by destruct (pm_get e s id) as [[p|] s1].
Qed.

Lemma update_pk_framed e s id addr u k ip : framed s (update_pk e s id addr u k ip).2.
Proof.
  unfold update_pk. destruct (peers s !! id); [|done].
  destruct (is_empty _); [by destruct (insert_peer _ _ _ _ _ _) as [[]|]|].
  by destruct (db_update_pk _ _ _ _ _ _).
Qed.

Lemma blocker_framed e s ip id : framed s (check_ip_blocker e s ip id).2.
Proof.
  unfold check_ip_blocker. destruct (ip_blocker s !! ip) as [[[n t0] [ids t2]]|]; [|done].
  by repeat match goal with |- context [if ?b then _ else _] => destruct b end.
Qed.

Lemma register_pk_framed e s rk addr : framed s (handle_register_pk e s rk addr).1.
Proof.
  unfold handle_register_pk. destruct (is_empty _ || is_empty _); [done|]. destruct (len _ <? 6); [done|].
  pose proof (blocker_framed e s (show_ip addr) (rk_id rk)) as F1.
  destruct (check_ip_blocker _ _ _ _) as [[] s1]; [|done]. simpl negb. cbv iota.
  pose proof (get_or_framed e s1 (rk_id rk)) as F2. destruct (get_or _ _ _) as [p s2].
  pose proof (framed_trans _ _ _ F1 F2) as F.
  destruct (pk_status _ _ _) as [[changed ip_changed]|]; [|done].
  destruct (reg_pk_next _ _) as [r|]; [|done].
  assert (framed s2 (set_reg_pk s2 (rk_id rk) r)) as F3
    by (unfold set_reg_pk; by destruct (peers s2 !! rk_id rk)).
  apply (framed_trans _ _ _ F). apply (framed_trans _ _ _ F3). simpl.
  destruct changed; [eapply framed_trans; [|apply update_pk_framed]|]; by destruct ip_changed.
Qed.

(** Datagrams leave the waiting viewers alone. *)
Lemma udp_framed e s msg addr : framed s (handle_udp e s msg addr).1.
Proof.
  destruct msg; try done; cbn [handle_udp].
  - destruct (negb _); [|done]. unfold update_addr. destruct (get_in_memory s id); [|done].
    by destruct (_ || _).
  - apply register_pk_framed.
  - unfold handle_hole_sent. pose proof (get_pk_framed e s (phs_version phs) (phs_id phs)).
    by destruct (get_pk e s (phs_version phs) (phs_id phs)).
  - unfold handle_local_addr. pose proof (get_pk_framed e s (la_version la) (la_id la)).
    by destruct (get_pk e s (la_version la) (la_id la)).
  - by destruct (_ && _).
  - by destruct (_ && _).
Qed.

(** One waiting viewer, at the address [a], and the server's key. *)
Definition framed_at (a : SocketAddr) (s s' : Server) : Prop := tcp_punch s' !! a = tcp_punch s !! a /\ sk s' = sk s.
Lemma framed_at_of a s s' : framed s s' -> framed_at a s s'.
Proof. intros [E ?]. split; [by rewrite E|done]. Qed.
Lemma framed_at_trans a s1 s2 s3 : framed_at a s1 s2 -> framed_at a s2 s3 -> framed_at a s1 s3.
Proof. intros [? ?] [? ?]. split; congruence. Qed.
Lemma park_framed a s k addr : try_into_v4 addr <> a -> framed_at a s (park_sink s k addr).
Proof. intros H. destruct k; [|done]. split; [|done]. by apply lookup_insert_ne. Qed.
Lemma send_framed a s addr m : try_into_v4 addr <> a -> framed_at a s (send_to_tcp s addr m).1.
Proof. intros H. split; [|done]. by apply lookup_delete_ne. Qed.

(** An input that speaks for the viewer at [a], or answers it. *)
Definition concerns (a : SocketAddr) (i : Input) : Prop :=
  match i with
  | UdpIn _ _ => False
  | TcpIn addr msg _ _ _ =>
      match msg with
      | PunchHoleRequestIn _ | RequestRelay _ => try_into_v4 addr = a
      | RelayResponseIn rr => try_into_v4 (AddrMangle.decode (rr_socket_addr rr)) = a
      | PunchHoleSentIn phs => try_into_v4 (AddrMangle.decode (phs_socket_addr phs)) = a
      | LocalAddrIn la => try_into_v4 (AddrMangle.decode (la_socket_addr la)) = a
      | _ => False
      end
  | TcpClosed addr _ => try_into_v4 addr = a
  end.

Lemma relay_choice_framed s : framed s (get_relay_server s).2.
Proof. unfold get_relay_server. by destruct (relay_servers s) as [|? []]. Qed.
Lemma punch_request_framed e s addr ph lic ws : framed s (handle_punch_hole_request e s addr ph lic ws).2.
Proof.
  unfold handle_punch_hole_request. destruct (_ && _); [done|].
  pose proof (pm_get_framed e s (ph_id ph)) as F. destruct (pm_get e s (ph_id ph)) as [[p|] s1]; [|done].
  destruct (_ <=? _); [done|].
  match goal with |- context [get_relay_server ?x] =>
    assert (framed s1 x) as F1 by (by destruct (is_dup _ _ _ _)); set (s0 := x) in * end.
  pose proof (relay_choice_framed s0) as F2. destruct (get_relay_server s0) as [rl s2].
  cbn [snd]. eapply framed_trans; [exact F|]. by eapply framed_trans.
Qed.
Lemma tcp_framed a e s addr msg sink key ws : ~ concerns a (TcpIn addr msg sink key ws) ->
  framed_at a s (step e s (TcpIn addr msg sink key ws)).1.
Proof.
  intros H. destruct msg; try done; cbn [concerns step handle_tcp] in *.
  - pose proof (park_framed a s sink addr H) as F1. unfold handle_tcp_punch_hole_request.
    pose proof (framed_at_of a _ _ (punch_request_framed e (park_sink s sink addr) addr ph key ws)) as F2.
    destruct (handle_punch_hole_request _ _ _ _ _ _) as [[m [b|]] s1].
    + by eapply framed_at_trans.
    + pose proof (send_framed a s1 addr m H) as F3. destruct (send_to_tcp s1 addr m) as [s2 out].
      eapply framed_at_trans; [exact F1|]. by eapply framed_at_trans.
  - unfold handle_hole_sent. pose proof (framed_at_of a _ _ (get_pk_framed e s (phs_version phs) (phs_id phs))) as F1.
    destruct (get_pk e s _ _) as [k s1]. cbn [reply_to]. by eapply framed_at_trans; [|apply send_framed].
  - unfold handle_local_addr. pose proof (framed_at_of a _ _ (get_pk_framed e s (la_version la) (la_id la))) as F1.
    destruct (get_pk e s _ _) as [k s1]. cbn [reply_to]. by eapply framed_at_trans; [|apply send_framed].
  - pose proof (park_framed a s sink addr H) as F1. by destruct (get_in_memory _ _).
  - set (c1 := if negb (is_empty (rr_id rr)) then get_pk e s (rr_version rr) (rr_id rr) else (rr_pk rr, s)).
    assert (framed s c1.2) as F1 by (subst c1; destruct (negb _); [apply get_pk_framed|done]).
    destruct c1 as [k s1]. simpl in F1.
    set (c2 := if negb (is_empty (rr_relay_server rr)) then _ else _).
    assert (framed s1 c2.2) as F2.
    { subst c2. destruct (negb _); [|done]. destruct (is_lan _ _); [done|]. destruct (bool_decide _); [apply relay_choice_framed|done]. }
    destruct c2 as [rl s2]. simpl in F2. eapply framed_at_trans; [|by apply send_framed]. eapply framed_at_of, framed_trans; eassumption.
Qed.
Lemma run_framed a evs : forall s, Forall (fun x : Env * Input => ~ concerns a x.2) evs -> framed_at a s (run evs s).
Proof.
  induction evs as [|[e i] evs IH]; intros s Hf; [done|]. inversion Hf as [|?? Hi Hf']; subst.
  eapply framed_at_trans; [|by apply IH]. destruct i as [addr msg|addr msg sink key ws|addr sink].
  - apply framed_at_of, udp_framed.
  - by apply tcp_framed.
  - simpl. destruct sink; [done|]. split; [|done]. by apply lookup_delete_ne.
Qed.

(** Another key is registered for [id] by someone who knows the uuid. *)
Definition rekeys (id u k : bytes) (i : Input) : Prop :=
  exists addr rk, i = UdpIn addr (RegisterPkIn rk) /\ rk_id rk = id /\ rk_uuid rk = u /\ rk_pk rk <> k.
Lemma run_key evs : forall s id r, consistent s -> run_ok evs s -> registered s id = Some r ->
  Forall (fun x : Env * Input => ~ rekeys id (row_uuid r) (row_pk r) x.2) evs ->
  consistent (run evs s) /\ exists r', registered (run evs s) id = Some r' /\ row_uuid r' = row_uuid r /\ row_pk r' = row_pk r.
Proof.
  induction evs as [|[e i] evs IH]; intros s id r Hs Hok Hr Hf; [by split; [|exists r]|]. simpl in *.
  destruct Hok as [He Hok]. inversion Hf as [|?? Hi Hf']; subst.
  destruct (step_registration e s i Hs He) as [Hc Hp].
  destruct (Hp id r Hr) as (r' & H1 & Hu & _ & H4). assert (row_pk r' = row_pk r) as Hk.
  { destruct H4 as [->|(addr & rk & -> & Hid & Hu' & Hk & _)]; [done|]. rewrite Hk.
    destruct (decide (rk_pk rk = row_pk r)) as [|Hne]; [done|]. exfalso. apply Hi. exists addr, rk.
    split; [done|]. split; [|done]. rewrite Hid. by apply (find_id _ _ _ Hr). }
  destruct (IH _ id r' Hc Hok H1) as (Hc' & r2 & E1 & E2 & E3); [by rewrite Hu, Hk|]. split; [done|]. exists r2. split; [done|]. split; congruence.
Qed.

(** The address in a message that tells a device to expect a viewer. *)
Definition carried_addr (m : MsgOut) : option bytes :=
  match m with FetchLocalAddr a _ | PunchHole a _ _ => Some a | _ => None end.

Lemma punch_request_online e s addr ph lic ws p :
  peers s !! ph_id ph = Some p -> lic = [] \/ ph_licence_key ph = lic ->
  as_millis (now e - last_reg_time p) < REG_TIMEOUT ->
  exists m s1, handle_punch_hole_request e s addr ph lic ws = (m, Some (socket_addr p), s1) /\
    carried_addr m = Some (AddrMangle.encode (tm e) addr) /\ framed s s1.
Proof.
  intros Hp Hl Ht. unfold handle_punch_hole_request.
  assert (negb (is_empty lic) && negb (bool_decide (ph_licence_key ph = lic)) = false) as ->.
  { destruct Hl as [->|<-]; [done|]. by rewrite bool_decide_true, andb_false_r. }
  unfold pm_get. rewrite Hp. cbv iota. destruct (Z.leb_spec REG_TIMEOUT (as_millis (now e - last_reg_time p))) as [Hge|_]; [lia|].
  match goal with |- context [get_relay_server ?x] =>
    assert (framed s x) as F1 by (by destruct (is_dup _ _ _ _)); set (s0 := x) in * end.
  assert (framed s0 (get_relay_server s0).2) as F2
    by (unfold get_relay_server; by destruct (relay_servers s0) as [|? []]).
  destruct (get_relay_server s0) as [rl s2]. do 2 eexists. split; [done|]. split; [by destruct (negb ws && _)|].
  by apply (framed_trans _ s0).
Qed.

Lemma hole_sent_delivered e s phs addrB key k r :
  consistent s -> registered s (phs_id phs) = Some r -> db_ok e = true -> phs_version phs <> [] ->
  sk s = Some key -> tcp_punch s !! try_into_v4 (AddrMangle.decode (phs_socket_addr phs)) = Some k ->
  exists s2, handle_hole_sent e s phs addrB false =
    (s2, [ToSink k (PunchHoleResponseOut (mkPunchHoleResponse (AddrMangle.encode (tm e) addrB)
            (sign (write_idpk (phs_id phs) (row_pk r)) key) ID_NOT_EXIST (phs_relay_server phs)
            (phs_nat_type phs) false))]) /\
    tcp_punch s2 !! try_into_v4 (AddrMangle.decode (phs_socket_addr phs)) = None.
Proof.
  intros Hc Hr Hdb Hv Hk Ht. unfold handle_hole_sent.
  pose proof (get_pk_signed e s (phs_id phs) r (phs_version phs) key Hc Hr Hdb Hv Hk) as G.
  pose proof (get_pk_framed e s (phs_version phs) (phs_id phs)) as [F _].
  destruct (get_pk e s (phs_version phs) (phs_id phs)) as [sg s1]. simpl in G, F. subst sg.
  simpl reply_to. unfold send_to_tcp. rewrite F, Ht. eexists. split; [done|]. apply lookup_delete_eq.
Qed.

Lemma try_into_v4_canonical addr : canonical addr = try_into_v4 addr ->
  try_into_v4 (canonical addr) = try_into_v4 addr.
Proof.
  intros ->. destruct addr as [|ip port fl sc]; [done|]. simpl.
  destruct (is_loopback_v6 ip) eqn:E1; simpl; [by rewrite E1|].
  destruct (to_ipv4 ip) eqn:E2; simpl; [done|]. by rewrite E1, E2.
Qed.

(** [C18] A viewer is brought together with the device it asked for: when A asks
    over its connection [k] for an id that was seen in the last thirty seconds
    (and gives the licence key, if one is set), exactly one message leaves, to
    B's registered address, carrying A's mangled address; when B answers to
    that address, exactly one message leaves, on A's connection, with B's
    address and B's registered key signed by the server; and a second answer
    reaches nobody.  In between anything may arrive, over UDP or TCP, except that
    A itself asks again or leaves, that somebody else answers to A's address, or
    that somebody who knows B's uuid registers another key for B's id.  The
    database answers and new guids are fresh ([env_ok]), and the server has a key
    to sign with. *)
Theorem punch_hole_roundtrip {SGL : SignLaws} e1 s addrA k ph lic ws p r key evs e2 addrB phs sinkB lic' ws' :
  consistent s -> env_ok e1 s -> addr_ok addrA -> canonical addrA = try_into_v4 addrA -> addr_ok addrB ->
  in_width 32 (tm e1) -> in_width 32 (tm e2) ->
  peers s !! ph_id ph = Some p -> registered s (ph_id ph) = Some r ->
  lic = [] \/ ph_licence_key ph = lic -> as_millis (now e1 - last_reg_time p) < REG_TIMEOUT ->
  sk s = Some key ->
  let res1 := step e1 s (TcpIn addrA (PunchHoleRequestIn ph) (Some k) lic ws) in
  run_ok evs res1.1 -> Forall (fun x : Env * Input => ~ concerns (try_into_v4 addrA) x.2 /\ ~ rekeys (ph_id ph) (row_uuid r) (row_pk r) x.2) evs ->
  db_ok e2 = true -> phs_id phs = ph_id ph -> phs_version phs <> [] ->
  phs_socket_addr phs = AddrMangle.encode (tm e1) addrA ->
  let answer := TcpIn addrB (PunchHoleSentIn phs) sinkB lic' ws' in
  let res2 := step e2 (run evs res1.1) answer in
  (exists m, res1.2 = [ToUdp (socket_addr p) m] /\ carried_addr m = Some (AddrMangle.encode (tm e1) addrA)) /\
  (exists resp, res2.2 = [ToSink k (PunchHoleResponseOut resp)] /\
     AddrMangle.decode (phr_socket_addr resp) = canonical addrB /\
     verify (phr_pk resp) (sign_public key) = Some (write_idpk (ph_id ph) (row_pk r))) /\
  (step e2 res2.1 answer).2 = [].
Proof.
  intros Hs He HA Hcan HB Ht1 Ht2 Hp Hr Hl Hon Hk res1 Hok Hf Hdb2 Hid Hver Hsa answer res2.
  destruct (step_registration e1 s (TcpIn addrA (PunchHoleRequestIn ph) (Some k) lic ws) Hs He) as [Hc1 Hp1].
  fold res1 in Hc1, Hp1. destruct (Hp1 _ _ Hr) as (r1 & Hr1 & _ & _ & [->|(? & ? & ? & _)]); [|done].
  destruct (punch_request_online e1 (park_sink s (Some k) addrA) addrA ph lic ws p Hp Hl Hon)
    as (m & s1 & Hreq & Hm & F1).
  assert (res1 = (s1, [ToUdp (socket_addr p) m])) as E1.
  { unfold res1. simpl step. unfold handle_tcp_punch_hole_request. simpl in Hreq. by rewrite Hreq. }
  apply Forall_and in Hf as [Hu Hn].
  destruct (run_key evs res1.1 (ph_id ph) r Hc1 Hok Hr1 Hn) as (Hc2 & r2 & Hr2 & _ & Epk).
  pose proof (run_framed _ evs res1.1 Hu) as F2. rewrite <- Hid in Hr2.
  assert (framed_at (try_into_v4 addrA) (park_sink s (Some k) addrA) (run evs res1.1)) as [F3 F4]
    by (eapply framed_at_trans; [apply framed_at_of, F1|]; by rewrite E1 in F2 |- *).
  assert (try_into_v4 (AddrMangle.decode (phs_socket_addr phs)) = try_into_v4 addrA) as Ea.
  { rewrite Hsa, decode_mangled by done. by apply try_into_v4_canonical. }
  destruct (hole_sent_delivered e2 (run evs res1.1) phs addrB key k r2 Hc2 Hr2 Hdb2 Hver) as (s2 & E2 & Hgone).
  { by rewrite F4. } { rewrite Ea, F3. simpl. apply lookup_insert_eq. }
  rewrite Epk in E2. split; [exists m; by rewrite E1|]. unfold res2, answer. simpl step. rewrite E2. split.
  - eexists. split; [done|]. simpl. split; [by apply decode_mangled|]. rewrite <- Hid. apply verify_sign.
  - simpl fst. unfold handle_hole_sent.
    pose proof (get_pk_framed e2 s2 (phs_version phs) (phs_id phs)) as [F _].
    destruct (get_pk e2 s2 (phs_version phs) (phs_id phs)) as [sg s3]. simpl in F.
    simpl reply_to. unfold send_to_tcp. by rewrite F, Hgone.
Qed.

(** ** The registration limit per address *)
(** How many of a series of checks let the address [ip] pass. *)
Fixpoint passed (ip : bytes) (l : list (Env * (bytes * bytes))) (s : Server) : nat :=
  match l with
  | [] => 0
  | (e, (ip', id)) :: l =>
      let '(ok, s1) := check_ip_blocker e s ip' id in
      ((if ok && bool_decide (ip' = ip) then 1 else 0) + passed ip l s1)%nat
  end.

Definition counters_ok (s : Server) : Prop := map_Forall (fun _ x => 0 <= x.1.1) (ip_blocker s).

(** How many more checks can pass in a window that starts at [t0]. *)
Definition budget (t0 : Z) (s : Server) (ip : bytes) : Z :=
  match ip_blocker s !! ip with
  | None => 32
  | Some ((n, t), _) => if t <? t0 then 31 else Z.max 0 (31 - n)
  end.

Lemma blocker_budget t0 e s ip0 id ip ok s1 : counters_ok s ->
  t0 <= now e -> as_secs (now e - t0) <= IP_BLOCK_DUR -> check_ip_blocker e s ip0 id = (ok, s1) ->
  counters_ok s1 /\
  (if ok && bool_decide (ip0 = ip) then 1 else 0) + budget t0 s1 ip <= budget t0 s ip.
Proof.
  intros Hc Ht Hw. unfold check_ip_blocker.
  assert (forall n t ids t2, 0 <= n -> counters_ok (with_ip_blocker s (<[ip0 := ((n, t), (ids, t2))]> (ip_blocker s)))) as Hins.
  { intros. unfold counters_ok. simpl. by apply map_Forall_insert_2. }
  assert (forall n ids t2, budget t0 (with_ip_blocker s (<[ip0 := ((n, now e), (ids, t2))]> (ip_blocker s))) ip
    = if bool_decide (ip0 = ip) then Z.max 0 (31 - n) else budget t0 s ip) as Hb.
  { intros. unfold budget. simpl. destruct (bool_decide_reflect (ip0 = ip)) as [->|Hne].
    - rewrite lookup_insert_eq. destruct (Z.ltb_spec (now e) t0); [lia|done].
    - by rewrite lookup_insert_ne. }
  destruct (ip_blocker s !! ip0) as [[[n t] [ids t2]]|] eqn:E.
  2: { intros [= <- <-]. split; [by apply Hins|]. rewrite Hb. simpl.
       destruct (bool_decide_reflect (ip0 = ip)) as [->|]; [|lia]. unfold budget. rewrite E. lia. }
  pose proof (Hc _ _ E) as Hn. simpl in Hn.
  destruct (IP_BLOCK_DUR <? as_secs (now e - t)) eqn:X; simpl negb; simpl andb; cbv iota.
  - apply Z.ltb_lt in X. assert (t < t0) as Hlt.
    { destruct (Z.lt_ge_cases t t0); [done|]. exfalso.
      assert (as_secs (now e - t) <= as_secs (now e - t0)) by (apply Z.div_le_mono; lia). lia. }
    assert (bool_decide (ip0 = ip) = true -> budget t0 s ip = 31) as Hb0.
    { intros ->%bool_decide_eq_true. unfold budget. rewrite E. by rewrite (proj2 (Z.ltb_lt t t0)). }
    change (u32_of (0 + 1)) with 1.
    destruct (negb _ && _); intros [= <- <-]; (split; [by apply Hins|]); rewrite Hb;
      destruct (bool_decide (ip0 = ip)); rewrite ?andb_true_r, ?andb_false_r; try lia;
      rewrite Hb0 by done; try destruct (negb _); lia.
  - destruct (Z.ltb_spec 30 n) as [Hlt|Hle]; [by intros [= <- <-]|].
    assert (u32_of (n + 1) = n + 1) as -> by (apply wrap_id; unfold in_width; lia).
    assert (bool_decide (ip0 = ip) = true -> 31 - n <= budget t0 s ip) as Hb0.
    { intros ->%bool_decide_eq_true. unfold budget. rewrite E. destruct (t <? t0); lia. }
    destruct (negb _ && _); intros [= <- <-]; (split; [apply Hins; lia|]); rewrite Hb;
      destruct (bool_decide (ip0 = ip)); rewrite ?andb_true_r, ?andb_false_r; try lia;
      specialize (Hb0 eq_refl); try destruct (negb _); lia.
Qed.

Lemma passed_budget ip t0 l : forall s, counters_ok s ->
  Forall (fun x : Env * (bytes * bytes) => t0 <= now x.1 /\ as_secs (now x.1 - t0) <= IP_BLOCK_DUR) l ->
  Z.of_nat (passed ip l s) <= budget t0 s ip.
Proof.
  induction l as [|[e [ip0 id]] l IH]; intros s Hc Hf; simpl.
  - unfold budget. destruct (ip_blocker s !! ip) as [[[] ]|]; [destruct (_ <? _)|]; lia.
  - inversion Hf as [|?? [H1 H2] Hf']; subst. destruct (check_ip_blocker e s ip0 id) as [ok s1] eqn:B.
    destruct (blocker_budget t0 e s ip0 id ip ok s1 Hc H1 H2 B) as [Hc1 Hb].
    specialize (IH s1 Hc1 Hf'). destruct (ok && bool_decide (ip0 = ip)); lia.
Qed.

(** A flood of registrations from one address is cut off: whatever ids it
    names, however the requests of other addresses are interleaved, and
    whatever was counted before, at most 32 of the registrations of one address
    within sixty seconds pass the blocker. *)
Theorem ip_blocker_limits ip t0 l s : counters_ok s ->
  Forall (fun x : Env * (bytes * bytes) => t0 <= now x.1 /\ as_secs (now x.1 - t0) <= IP_BLOCK_DUR) l ->
  (passed ip l s <= 32)%nat.
Proof.
  intros Hc Hf. pose proof (passed_budget ip t0 l s Hc Hf) as H. unfold budget in H.
  destruct (ip_blocker s !! ip) as [[[n t] ?]|] eqn:E; [|lia].
  pose proof (Hc _ _ E) as Hn. simpl in Hn. destruct (t <? t0); lia.
Qed.
End Handlers.

(** ** Witnesses *)
#[local] Existing Instances Toy.sign_ Toy.sign_laws.
Definition show_ip0 (a : SocketAddr) : bytes := ip_of a.
Definition write_idpk0 (id pk : bytes) : bytes := id ++ [Byte.x00] ++ pk.
Definition id0 : bytes := [Byte.x31; Byte.x32; Byte.x33; Byte.x34; Byte.x35; Byte.x36].
Definition addr0 : SocketAddr := V4 [Byte.x0a; Byte.x00; Byte.x00; Byte.x01] 21116.
Definition addr1 : SocketAddr := V4 [Byte.x0a; Byte.x00; Byte.x00; Byte.x02] 4000.
Definition row0 : Row := mkRow [Byte.x01] id0 [Byte.x55] [Byte.x66] (ip_of addr0).
Definition peer0 : Peer := mkPeer addr0 0 [Byte.x01] [Byte.x55] [Byte.x66] (ip_of addr0) (0, 0).
Definition server0 : Server :=
  mkServer {[id0 := peer0]} [row0] ∅ ∅ ∅ [] 0 false 0 [] [] None [] (Some [Byte.x77]) [] [] [].
Definition env0 : Env := mkEnv 1000000000 7 true [Byte.x02].

Lemma server0_consistent : consistent server0.
Proof.
  split.
  - split; [apply NoDup_singleton|]. split; [apply NoDup_singleton|]. by repeat constructor.
  - intros id p. simpl. rewrite lookup_singleton_Some. intros [<- <-]. by vm_compute.
Qed.

Lemma env0_ok : env_ok env0 server0.
Proof. split; [done|]. split; [done|]. simpl. by rewrite list_elem_of_singleton. Qed.

(** The device changes its key from its recorded address. *)
Definition rekey : Input := UdpIn addr0 (RegisterPkIn (mkRegisterPk id0 [Byte.x55] [Byte.x67])).
(** A stranger tries to. *)
Definition hijack : Input := UdpIn addr1 (RegisterPkIn (mkRegisterPk id0 [Byte.x99] [Byte.x67])).

Lemma registration_protected_witness :
  (row_pk <$> registered (step show_ip0 (fun _ => true) write_idpk0 env0 server0 rekey).1 id0) = Some [Byte.x67] /\
  (row_pk <$> registered (step show_ip0 (fun _ => true) write_idpk0 env0 server0 hijack).1 id0) = Some [Byte.x66] /\
  consistent (step show_ip0 (fun _ => true) write_idpk0 env0 server0 rekey).1.
Proof.
  split; [vm_compute; reflexivity|]. split; [vm_compute; reflexivity|].
  apply (registration_protected show_ip0 (fun _ => true) write_idpk0 env0 server0 rekey server0_consistent env0_ok).
Defined.

Lemma hijack_no_presents : ~ presents id0 (row_uuid row0) hijack.
Proof. intros (a & rk & [= <- <-] & _ & H). done. Qed.

Lemma signed_key_is_registered_witness :
  verify (get_pk write_idpk0 env0 (run show_ip0 (fun _ => true) write_idpk0 [(env0, hijack)] server0)
            [Byte.x31] id0).1 (sign_public [Byte.x77]) = Some (write_idpk0 id0 [Byte.x66]).
Proof.
  apply (signed_key_is_registered show_ip0 (fun _ => true) write_idpk0 [(env0, hijack)] server0 id0 row0
    env0 [Byte.x31] [Byte.x77]).
  - exact server0_consistent.
  - split; [exact env0_ok|exact I].
  - vm_compute. reflexivity.
  - constructor; [exact hijack_no_presents|constructor].
  - reflexivity.
  - discriminate.
  - vm_compute. reflexivity.
Defined.

(** Another viewer asks for the same device meanwhile. *)
Definition other_viewer : Input :=
  TcpIn (V4 [Byte.x0a; Byte.x00; Byte.x00; Byte.x03] 4001) (PunchHoleRequestIn (mkPunchHoleRequest id0 1 [])) (Some 8) [] false.

Lemma punch_hole_roundtrip_witness :
  let res1 := step show_ip0 (fun _ => true) write_idpk0 env0 server0
    (TcpIn addr1 (PunchHoleRequestIn (mkPunchHoleRequest id0 1 [])) (Some 5) [] false) in
  exists resp, (step show_ip0 (fun _ => true) write_idpk0 env0
      (run show_ip0 (fun _ => true) write_idpk0 [(env0, hijack); (env0, other_viewer)] res1.1)
      (TcpIn addr0 (PunchHoleSentIn (mkPunchHoleSent (AddrMangle.encode 7 addr1) id0 [] (Some 1) [Byte.x31]))
         (Some 6) [] false)).2 = [ToSink 5 (PunchHoleResponseOut resp)] /\
    AddrMangle.decode (phr_socket_addr resp) = addr0 /\
    verify (phr_pk resp) (sign_public [Byte.x77]) = Some (write_idpk0 id0 [Byte.x66]).
Proof.
  apply (punch_hole_roundtrip show_ip0 (fun _ => true) write_idpk0 env0 server0 addr1 5
    (mkPunchHoleRequest id0 1 []) [] false peer0 row0 [Byte.x77] [(env0, hijack); (env0, other_viewer)] env0 addr0
    (mkPunchHoleSent (AddrMangle.encode 7 addr1) id0 [] (Some 1) [Byte.x31]) (Some 6) [] false);
  [exact server0_consistent|exact env0_ok|split; vm_compute; first [reflexivity | split; congruence]|reflexivity
  |split; vm_compute; first [reflexivity | split; congruence]|split; vm_compute; congruence|split; vm_compute; congruence
  |reflexivity|vm_compute; reflexivity|by left|vm_compute; reflexivity|reflexivity| | |reflexivity|reflexivity|discriminate|vm_compute; reflexivity].
  - split; [exact env0_ok|]. split; [exact env0_ok|exact I].
  - constructor; [split; [by intros H|by intros (a & rk & [= <- <-] & _ & H & _)]|].
    constructor; [split; [vm_compute; discriminate|by intros (a & rk & H & _)]|constructor].
Defined.

Lemma ip_blocker_limits_witness :
  (passed (ip_of addr0) (replicate 40 (env0, (ip_of addr0, id0))) server0 = 32)%nat /\
  (passed (ip_of addr0) (replicate 40 (env0, (ip_of addr0, id0))) server0 <= 32)%nat.
Proof.
  split; [vm_compute; reflexivity|]. apply (ip_blocker_limits (ip_of addr0) 1000000000).
  - apply map_Forall_empty.
  - apply Forall_replicate. split; vm_compute; congruence.
Defined.
