(* ===== verification/Relay.v ===== *)
(** * The relay server ([server/src/relay_server.rs])

    Two devices that cannot reach each other connect to the relay and name the
    same uuid; the relay pairs them and copies bytes both ways.  [Pairing] is
    the shared state of [make_pair_] with one task per connection, interleaved
    at the points where a task gives up the lock; [relay] is the copying loop
    with its speed accounting.  The rate limiters and the sockets are observed
    through what is charged and sent; [downgrade_threshold], computed in
    floating point at the loop's start, is an argument. *)
From S2P Require Import Prelude.
From S2P Require Import AddrMangle.

(** ** Pairing *)
Module Pair.
(** The part of [RequestRelay] the relay reads. *)
Record RequestRelay := mkRequestRelay { uuid : bytes; licence_key : bytes }.

(** Where the task of a connection stands. *)
Inductive Task :=
| Looked (uuid : bytes) (ws : bool)       (* found no partner, not yet in [PEERS] *)
| Sleeping (uuid : bytes)                 (* put its stream into [PEERS], [sleep(30.)] *)
| Relaying (peer : Z) (uuid : bytes) (raw : bool) (id : bytes)
| Ended.

#[export] Instance Task_eq_dec : EqDecision Task.
Proof. solve_decision. Defined.

(** Connections are numbered; [PEERS] holds the stream of the connection. *)
Record State := mkState {
  PEERS : gmap bytes (Z * bool);
  USAGE : gset bytes;
  BLOCKLIST : gset bytes;
  tasks : gmap Z Task
}.

Definition with_task (s : State) (c : Z) (t : Task) : State :=
  mkState (PEERS s) (USAGE s) (BLOCKLIST s) (<[c := t]> (tasks s)).
Definition with_peers (s : State) p : State := mkState p (USAGE s) (BLOCKLIST s) (tasks s).
Definition with_usage (s : State) u : State := mkState (PEERS s) u (BLOCKLIST s) (tasks s).

Inductive Action :=
| Arrive (c : Z) (addr real : SocketAddr) (ws : bool) (rf : option RequestRelay)
| Insert (c : Z)
| Wake (c : Z)
| Finish (c : Z).

Definition is_loopback (a : SocketAddr) : bool :=
  match try_into_v4 a with
  | V4 ip _ => bool_decide (head ip = Some Byte.x7f)
  | V6 ip _ _ _ => is_loopback_v6 ip
  end.

Section Server.
Context (show_ip show_addr : SocketAddr -> bytes) (key : bytes).

(** [make_pair_] up to the first point where it gives up the lock of [PEERS]. *)
Definition make_pair_ (s : State) (c : Z) (addr : SocketAddr) (ws : bool) (rf : option RequestRelay) : State :=
  match rf with
  | None => with_task s c Ended
  | Some rf =>
      if negb (bool_decide (key = [])) && negb (bool_decide (licence_key rf = key))
      then with_task s c Ended
      else if bool_decide (uuid rf = []) then with_task s c Ended
      else
        let peer := PEERS s !! uuid rf in
        let s := with_peers s (delete (uuid rf) (PEERS s)) in
        match peer with
        | Some (p, p_ws) =>
            let id := show_addr addr in
            with_task (with_usage s ({[id]} ∪ USAGE s)) c (Relaying p (uuid rf) (negb ws && negb p_ws) id)
        | None => with_task s c (Looked (uuid rf) ws)
        end
  end.

(** [rf] is what the first message of the connection parses to, [real] the
    address a WebSocket proxy's header names. A local administrator's connection
    is not paired. *)
Definition make_pair (s : State) (c : Z) (addr real : SocketAddr) (ws : bool)
  (rf : option RequestRelay) : State :=
  make_pair_ s c (if ws then real else addr) ws rf.

Definition handle_connection (s : State) (c : Z) (addr real : SocketAddr) (ws : bool)
  (rf : option RequestRelay) : State :=
  if negb ws && is_loopback addr then with_task s c Ended
  else if bool_decide (show_ip (try_into_v4 addr) ∈ BLOCKLIST s) then with_task s c Ended
  else make_pair s c addr real ws rf.

(** One step of a task, when it can take one. *)
Definition act (s : State) (a : Action) : option State :=
  match a with
  | Arrive c addr real ws rf =>
      match tasks s !! c with
      | None => Some (handle_connection s c addr real ws rf)
      | Some _ => None
      end
  | Insert c =>
      match tasks s !! c with
      | Some (Looked u ws) => Some (with_task (with_peers s (<[u := (c, ws)]> (PEERS s))) c (Sleeping u))
      | _ => None
      end
  | Wake c =>
      match tasks s !! c with
      | Some (Sleeping u) => Some (with_task (with_peers s (delete u (PEERS s))) c Ended)
      | _ => None
      end
  | Finish c =>
      match tasks s !! c with
      | Some (Relaying _ _ _ id) => Some (with_task (with_usage s (USAGE s ∖ {[id]})) c Ended)
      | _ => None
      end
  end.

Fixpoint run (acts : list Action) (s : State) : option State :=
  match acts with
  | [] => Some s
  | a :: acts => match act s a with Some s => run acts s | None => None end
  end.

Definition init (blocked : gset bytes) : State := mkState ∅ ∅ blocked ∅.

(** Connection [c] asked for [u], with the licence key if the server has one. *)
Definition asked (acts : list Action) (c : Z) (u : bytes) : Prop :=
  exists addr real ws rf, Arrive c addr real ws (Some rf) ∈ acts /\ uuid rf = u /\ u <> [] /\
    (key = [] \/ licence_key rf = key).

Lemma run_app acts1 acts2 s :
  run (acts1 ++ acts2) s = match run acts1 s with Some s => run acts2 s | None => None end.
Proof. revert s. induction acts1 as [|a acts1 IH]; intros s; simpl; [done|]. by destruct (act s a). Qed.

Lemma asked_app acts a c u : asked acts c u -> asked (acts ++ [a]) c u.
Proof. intros (addr & real & ws & rf & H & ?). exists addr, real, ws, rf. split; [|done]. apply elem_of_app. by left. Qed.

(** A waiting stream belongs to a sleeping task that asked for the uuid it is
    filed under; the partner of a relay gave its stream away. *)
Definition waiting_ok acts (s : State) : Prop := forall u p ws, PEERS s !! u = Some (p, ws) ->
  tasks s !! p = Some (Sleeping u) /\ asked acts p u.
Definition looked_ok acts (s : State) : Prop := forall c u ws, tasks s !! c = Some (Looked u ws) -> asked acts c u.
Definition relay_ok acts (s : State) : Prop := forall c p u raw id, tasks s !! c = Some (Relaying p u raw id) ->
  asked acts c u /\ asked acts p u /\
  (tasks s !! p = Some (Sleeping u) \/ tasks s !! p = Some Ended) /\
  (forall u' ws, PEERS s !! u' <> Some (p, ws)) /\
  (forall c' u' raw' id', tasks s !! c' = Some (Relaying p u' raw' id') -> c' = c).

Definition inv acts (s : State) : Prop := waiting_ok acts s /\ looked_ok acts s /\ relay_ok acts s.

(** Ending a task that is not a partner's or a waiting one, or whose entry is
    withdrawn, keeps the invariant. *)
Lemma inv_more acts a s : inv acts s -> inv (acts ++ [a]) s.
Proof.
  intros (H1 & H2 & H3). split; [|split].
  - intros u p ws H. destruct (H1 _ _ _ H). split; [done|]. by apply asked_app.
  - intros c u ws H. apply asked_app. by eapply H2.
  - intros c p u raw id H. destruct (H3 _ _ _ _ _ H) as (A1 & A2 & A3). split; [by apply asked_app|].
    split; [by apply asked_app|done].
Qed.

Lemma inv_new acts s c t : inv acts s -> tasks s !! c = None ->
  (t = Ended \/ exists u ws, t = Looked u ws /\ asked acts c u) ->
  inv acts (with_task s c t).
Proof.
  intros (H1 & H2 & H3) Hc Ht. split; [|split].
  - intros u p ws Hp. simpl in *. destruct (H1 _ _ _ Hp) as [Q1 Q2]. split; [|done].
    rewrite lookup_insert_ne; [done|congruence].
  - intros c' u ws. simpl. rewrite lookup_insert. case_decide as E; [|apply H2].
    intros [= ->]. subst c'. destruct Ht as [?|(? & ? & [= -> ->] & ?)]; done.
  - intros c' p u raw id. simpl. rewrite lookup_insert. case_decide as E.
    { intros [= ->]. destruct Ht as [?|(? & ? & ? & ?)]; done. }
    intros Hr. destruct (H3 _ _ _ _ _ Hr) as (A1 & A2 & A3 & A4 & A5).
    split; [done|]. split; [done|]. split; [|split; [done|]].
    + rewrite lookup_insert_ne; [done|]. intros ->. destruct A3 as [?|?]; congruence.
    + intros c1 u1 raw1 id1. rewrite lookup_insert. case_decide; [|apply A5].
      intros [= ->]. destruct Ht as [?|(? & ? & ? & ?)]; done.
Qed.

Lemma inv_delete acts s u : inv acts s -> inv acts (with_peers s (delete u (PEERS s))).
Proof.
  intros (H1 & H2 & H3). split; [|split; [done|]].
  - intros u' p ws. simpl. rewrite lookup_delete_Some. intros [_ H]. by apply (H1 _ _ ws).
  - intros c p u' raw id H. destruct (H3 _ _ _ _ _ H) as (A1 & A2 & A3 & A4 & A5).
    do 3 (split; [done|]). split; [|done]. intros u1 ws. simpl. rewrite lookup_delete_Some.
    intros [_ ?]. by eapply A4.
Qed.

Lemma inv_pair acts s c p ws u raw id : inv acts s -> tasks s !! c = None -> asked acts c u ->
  PEERS s !! u = Some (p, ws) ->
  inv acts (with_task (with_usage (with_peers s (delete u (PEERS s))) ({[id]} ∪ USAGE s)) c (Relaying p u raw id)).
Proof.
  intros (H1 & H2 & H3) Hc Ha Hp. destruct (H1 _ _ _ Hp) as [Tp Ap].
  assert (p <> c) as Hne by congruence. split; [|split].
  - intros u' p' ws' Hp'. simpl in *. rewrite lookup_delete_Some in Hp'. destruct Hp' as [_ Hp'].
    destruct (H1 _ _ _ Hp') as [T' A']. split; [|done]. rewrite lookup_insert_ne; [done|congruence].
  - intros c' u' ws'. simpl. rewrite lookup_insert. case_decide; [done|apply H2].
  - intros c' p' u' raw' id'. simpl. rewrite lookup_insert. case_decide as E.
    + intros [= <- <- <- <-]. subst c'. split; [done|]. split; [done|].
      split; [left; by rewrite lookup_insert_ne by congruence|]. split.
      * intros u1 ws1. rewrite lookup_delete_Some. intros [Hu H]. destruct (H1 _ _ _ H). congruence.
      * intros c1 u1 raw1 id1. rewrite lookup_insert. case_decide as E; [done|].
        intros H. destruct (H3 _ _ _ _ _ H) as (_ & _ & _ & A4 & _). exfalso. by eapply A4.
    + intros H. destruct (H3 _ _ _ _ _ H) as (A1 & A2 & A3 & A4 & A5).
      split; [done|]. split; [done|]. split; [|split].
      * rewrite lookup_insert_ne; [done|]. intros E1. rewrite <- E1 in A3. destruct A3; congruence.
      * intros u1 ws1. rewrite lookup_delete_Some. intros [_ ?]. by eapply A4.
      * intros c1 u1 raw1 id1. rewrite lookup_insert. case_decide; [|apply A5].
        intros [= <- _ _ _]. exfalso. by eapply A4.
Qed.

Lemma inv_arrive acts s c addr real ws rf : inv acts s -> tasks s !! c = None ->
  inv (acts ++ [Arrive c addr real ws rf]) (handle_connection s c addr real ws rf).
Proof.
  intros H%(inv_more _ (Arrive c addr real ws rf)) Hc.
  assert (inv (acts ++ [Arrive c addr real ws rf]) (with_task s c Ended)) as He by (apply inv_new; auto).
  unfold handle_connection, make_pair, make_pair_.
  destruct (negb ws && is_loopback addr); [done|]. case_bool_decide; [done|].
  destruct rf as [rf|]; [|done].
  destruct (negb (bool_decide (key = [])) && negb (bool_decide (licence_key rf = key))) eqn:K; [done|].
  destruct (bool_decide_reflect (uuid rf = [])) as [U|U]; [done|].
  assert (asked (acts ++ [Arrive c addr real ws (Some rf)]) c (uuid rf)) as Ha.
  { exists addr, real, ws, rf. split; [set_solver|]. split; [done|]. split; [done|].
    apply andb_false_iff in K. rewrite !negb_false_iff, !bool_decide_eq_true in K. done. }
  destruct (PEERS s !! uuid rf) as [[p p_ws]|] eqn:E; [by apply (inv_pair _ s c p p_ws)|].
  apply inv_new; [by apply inv_delete|done|]. right. by do 2 eexists.
Qed.

Lemma inv_insert acts s c u ws : inv acts s -> tasks s !! c = Some (Looked u ws) ->
  inv acts (with_task (with_peers s (<[u := (c, ws)]> (PEERS s))) c (Sleeping u)).
Proof.
  intros (H1 & H2 & H3) Hc. split; [|split].
  - intros u' p ws'. simpl. rewrite lookup_insert. case_decide as E.
    + intros [= <- <-]. subst u'. rewrite lookup_insert_eq. split; [done|]. by eapply H2.
    + intros Hp. destruct (H1 _ _ _ Hp). split; [|done]. rewrite lookup_insert_ne; [done|congruence].
  - intros c' u' ws'. simpl. rewrite lookup_insert. case_decide; [done|apply H2].
  - intros c' p u' raw id. simpl. rewrite lookup_insert. case_decide as E; [done|].
    intros H. destruct (H3 _ _ _ _ _ H) as (A1 & A2 & A3 & A4 & A5).
    split; [done|]. split; [done|]. assert (c <> p) by (intros ->; destruct A3 as [?|?]; congruence).
    split; [by rewrite lookup_insert_ne|]. split.
    + intros u1 ws1. rewrite lookup_insert. case_decide; [congruence|apply A4].
    + intros c1 u1 raw1 id1. rewrite lookup_insert. case_decide; [done|apply A5].
Qed.

(** A task that ends, its uuid withdrawn or its usage removed. *)
Lemma inv_end acts s c : inv acts s ->
  (forall u ws, PEERS s !! u <> Some (c, ws)) -> (forall u ws, tasks s !! c <> Some (Looked u ws)) ->
  forall us, inv acts (with_task (with_usage s us) c Ended).
Proof.
  intros (H1 & H2 & H3) Hp Hl us. split; [|split].
  - intros u p ws H. simpl in *. destruct (H1 _ _ _ H). split; [|done].
    rewrite lookup_insert_ne; [done|]. intros ->. by eapply Hp.
  - intros c' u ws. simpl. rewrite lookup_insert. case_decide; [done|apply H2].
  - intros c' p u raw id. simpl. rewrite lookup_insert. case_decide as E; [done|].
    intros H. destruct (H3 _ _ _ _ _ H) as (A1 & A2 & A3 & A4 & A5).
    split; [done|]. split; [done|]. split; [|split; [done|]].
    + rewrite lookup_insert. case_decide; [by right|done].
    + intros c1 u1 raw1 id1. rewrite lookup_insert. case_decide; [done|apply A5].
Qed.

Lemma act_inv acts s a s' : inv acts s -> act s a = Some s' -> inv (acts ++ [a]) s'.
Proof.
  intros H Ha. destruct a as [c addr real ws rf|c|c|c]; simpl in Ha;
    destruct (tasks s !! c) as [t|] eqn:T; try done; [|destruct t; try done..].
  - injection Ha as <-. by apply inv_arrive.
  - injection Ha as <-. apply inv_insert; [by apply inv_more|done].
  - injection Ha as <-. apply (inv_more _ (Wake c)) in H.
    assert (forall u ws, PEERS s !! u = Some (c, ws) -> u = uuid0) as Hu.
    { intros u ws Hp. destruct (proj1 H _ _ _ Hp). congruence. }
    apply (inv_end _ (with_peers s (delete uuid0 (PEERS s)))); simpl; [by apply inv_delete| |congruence].
    intros u ws. rewrite lookup_delete_Some. intros [Hne Hp]. by apply Hne, eq_sym, (Hu u ws).
  - injection Ha as <-. apply (inv_more _ (Finish c)) in H. apply inv_end; [done| |congruence].
    intros u ws Hp. destruct (proj1 H _ _ _ Hp). congruence.
Qed.

Lemma pair_run_inv acts blocked s : run acts (init blocked) = Some s -> inv acts s.
Proof.
  revert s. induction acts as [|a acts IH] using rev_ind; intros s.
  - intros [= <-]. by repeat split.
  - rewrite run_app. destruct (run acts (init blocked)) as [s0|] eqn:E; [|done]. simpl.
    destruct (act s0 a) as [s1|] eqn:A; [|done]. intros [= <-]. by eapply act_inv; [apply IH|].
Qed.

(** [C29] Bytes only flow between two that want it: however connections
    arrive, sleep, wake and finish in between each other, a connection that is
    relayed to another asked for the same uuid as the other, both with the
    server's licence key if one is set; the two are different; neither is
    relayed to a third; and no relayed stream is still up for pairing. *)
Theorem pairing_safe acts blocked s c p u raw id :
  run acts (init blocked) = Some s -> tasks s !! c = Some (Relaying p u raw id) ->
  c <> p /\ asked acts c u /\ asked acts p u /\
  (forall c' p' u' raw' id', tasks s !! c' = Some (Relaying p' u' raw' id') -> p' <> c /\ (p' = p <-> c' = c) /\ c' <> p) /\
  (forall u' ws, PEERS s !! u' <> Some (p, ws) /\ PEERS s !! u' <> Some (c, ws)).
Proof.
  intros (H1 & H2 & H3)%pair_run_inv Hc. destruct (H3 _ _ _ _ _ Hc) as (A1 & A2 & A3 & A4 & A5).
  split; [intros ->; destruct A3 as [?|?]; congruence|]. split; [done|]. split; [done|]. split.
  - intros c' p' u' raw' id' Hc'. destruct (H3 _ _ _ _ _ Hc') as (_ & _ & B3 & _).
    split; [intros ->; destruct B3 as [?|?]; congruence|]. split; [|intros ->; destruct A3 as [?|?]; congruence].
    split; [intros ->; by eapply A5|intros ->; congruence].
  - intros u' ws. split; [apply A4|]. intros Hp. destruct (H1 _ _ _ Hp). congruence.
Qed.

(** A task that gave its stream away never relays. *)
Lemma asleep_forever acts : forall s s' c, run acts s = Some s' ->
  (exists u, tasks s !! c = Some (Sleeping u)) \/ tasks s !! c = Some Ended ->
  (exists u, tasks s' !! c = Some (Sleeping u)) \/ tasks s' !! c = Some Ended.
Proof.
  induction acts as [|a acts IH]; intros s s' c; simpl; [by intros [= <-]|].
  destruct (act s a) as [s1|] eqn:A; [|done]. intros Hr Hc. apply (IH s1); [done|].
  assert (forall c0 t, tasks s !! c0 = t -> c0 = c -> t = tasks s !! c) as Hsame by congruence.
  destruct a as [c0 addr real ws rf|c0|c0|c0]; simpl in A;
    destruct (tasks s !! c0) as [t|] eqn:T; try done; [|destruct t; try done..]; injection A as <-;
    destruct (decide (c0 = c)) as [E|Hne]; try (rewrite <- (Hsame _ _ T E) in Hc; by destruct Hc as [[? ?]|?]).
  - assert (tasks (handle_connection s c0 addr real ws rf) !! c = tasks s !! c) as ->; [|done].
    unfold handle_connection, make_pair, make_pair_. repeat case_match; simpl; by rewrite lookup_insert_ne.
  - simpl. by rewrite lookup_insert_ne.
  - right. simpl. rewrite E. by rewrite lookup_insert_eq.
  - simpl. by rewrite lookup_insert_ne.
  - simpl. by rewrite lookup_insert_ne.
Qed.

(** Two that arrive together miss each other: between looking for a
    partner and filing its stream a task gives up the lock, so when two
    connections with the same uuid and valid keys arrive at the same time, both
    find nobody, the second overwrites the first in the map, and in no
    continuation is one relayed to the other. *)
Theorem concurrent_arrivals_lost blocked u c1 c2 a1 a2 r1 r2 :
  u <> [] -> c1 <> c2 -> is_loopback a1 = false -> is_loopback a2 = false ->
  show_ip (try_into_v4 a1) ∉ blocked -> show_ip (try_into_v4 a2) ∉ blocked ->
  let rf := Some (mkRequestRelay u key) in
  let acts := [Arrive c1 a1 r1 false rf; Arrive c2 a2 r2 false rf; Insert c1; Insert c2] in
  exists s, run acts (init blocked) = Some s /\
    (forall ws, PEERS s !! u <> Some (c1, ws)) /\
    forall more s', run more s = Some s' -> forall c p u' raw id, tasks s' !! c = Some (Relaying p u' raw id) ->
      c <> c1 /\ c <> c2.
Proof.
  intros Hu Hc L1 L2 B1 B2 rf acts.
  assert (forall s c a r, is_loopback a = false -> show_ip (try_into_v4 a) ∉ BLOCKLIST s -> PEERS s !! u = None ->
    handle_connection s c a r false rf = with_task (with_peers s (delete u (PEERS s))) c (Looked u false)) as Hh.
  { intros s c a r L B P. unfold handle_connection. rewrite L. simpl. rewrite bool_decide_false by done.
    unfold make_pair, make_pair_, rf. simpl. rewrite (bool_decide_true (key = key)), andb_false_r by done.
    by rewrite (bool_decide_false (u = [])), P. }
  unfold acts. cbn [run act init tasks]. rewrite lookup_empty, Hh by done.
  cbn [with_task with_peers tasks PEERS USAGE BLOCKLIST init].
  rewrite lookup_insert_ne, lookup_empty by done. rewrite Hh by (done || by rewrite lookup_delete_eq).
  cbn [with_task with_peers tasks PEERS USAGE BLOCKLIST init].
  rewrite lookup_insert_ne, lookup_insert_eq by done.
  cbn [with_task with_peers tasks PEERS USAGE BLOCKLIST init].
  rewrite lookup_insert_ne, lookup_insert_eq by done. eexists. split; [done|]. split.
  { intros ws. simpl. rewrite lookup_insert_eq. congruence. }
  intros more s' Hr c p u' raw id Hc'. split; intros ->.
  - destruct (asleep_forever more _ s' c1 Hr) as [[? ?]|?]; [|congruence..].
    left. exists u. simpl. by rewrite lookup_insert_ne, lookup_insert_eq.
  - destruct (asleep_forever more _ s' c2 Hr) as [[? ?]|?]; [|congruence..].
    left. exists u. simpl. by rewrite lookup_insert_eq.
Qed.
End Server.
End Pair.

(** ** Copying *)
Module Copy.
(** [recv] gives a chunk, or [None] at the end of the stream or on an error;
    [sent] is whether passing the chunk on succeeds. *)
Inductive Event :=
| PeerRecv (res : option bytes) (sent : bool)
| StreamRecv (res : option bytes) (sent : bool)
| Tick.

(** One turn of the loop: the clocks (in nanoseconds) when the event is
    handled and when the speed is checked, and the block lists' answers. *)
Record Turn := mkTurn { ev : Event; t_ev : Z; t_check : Z; blocked : bool; black : bool }.

Record Conf := mkConf { downgrade_threshold : Z; DOWNGRADE_START_CHECK : Z }.

(** [charged] lists what the two limiters of the connection (true is the
    strict [blacklist_limiter]) and [total_charged] what the shared one were
    asked for; [to_stream] and [to_peer] what was passed on. *)
Record Link := mkLink {
  tm : Z;
  elapsed : Z;
  total : Z;
  total_s : Z;
  highest_s : Z;
  downgrade : bool;
  blacked : bool;
  last_recv_time : Z;
  usage : Z * Z * Z * Z;
  charged : list (bool * Z);
  total_charged : list Z;
  to_stream : list bytes;
  to_peer : list bytes
}.

Inductive Status := Running | Closed | Timeout | SendFailed.

Definition as_secs (ns : Z) : Z := ns / 1000000000.
Definition as_millis (ns : Z) : Z := u64_of (ns / 1000000).

Definition start (now : Z) : Link := mkLink now 0 0 0 0 false false now (0, 0, 0, 0) [] [] [] [].

(** What both receiving arms do before they pass a chunk on. *)
Definition account (l : Link) (now : Z) (chunk : bytes) : Link :=
  let nb := u64_of (len chunk * 8) in
  mkLink (tm l) (elapsed l) (u64_of (total l + nb)) (u64_of (total_s l + nb)) (highest_s l)
    (downgrade l) (blacked l) now (usage l)
    (charged l ++ [(blacked l || downgrade l, nb)]) (total_charged l ++ [nb]) (to_stream l) (to_peer l).

Definition send_stream (l : Link) (chunk : bytes) : Link :=
  mkLink (tm l) (elapsed l) (total l) (total_s l) (highest_s l) (downgrade l) (blacked l)
    (last_recv_time l) (usage l) (charged l) (total_charged l) (to_stream l ++ [chunk]) (to_peer l).
Definition send_peer (l : Link) (chunk : bytes) : Link :=
  mkLink (tm l) (elapsed l) (total l) (total_s l) (highest_s l) (downgrade l) (blacked l)
    (last_recv_time l) (usage l) (charged l) (total_charged l) (to_stream l) (to_peer l ++ [chunk]).

Definition select (l : Link) (t : Turn) : Status * Link :=
  match ev t with
  | PeerRecv (Some chunk) sent =>
      let l := account l (t_ev t) chunk in
      if bool_decide (chunk = []) then (Running, l)
      else if sent then (Running, send_stream l chunk) else (SendFailed, l)
  | StreamRecv (Some chunk) sent =>
      let l := account l (t_ev t) chunk in
      if bool_decide (chunk = []) then (Running, l)
      else if sent then (Running, send_peer l chunk) else (SendFailed, l)
  | PeerRecv None _ | StreamRecv None _ => (Closed, l)
  | Tick => if 30 <? as_secs (t_ev t - last_recv_time l) then (Timeout, l) else (Running, l)
  end.

(** Once a second: the block lists, the usage table, the downgrade. *)
Definition check_speed (c : Conf) (l : Link) (t : Turn) : Status * Link :=
  let n := as_millis (t_check t - tm l) in
  if 1000 <=? n then
    if blocked t then (Closed, l)
    else
      let speed := total_s l / n in
      let highest := if highest_s l <? speed then speed else highest_s l in
      let elapsed := u64_of (elapsed l + n) in
      let down := (DOWNGRADE_START_CHECK c <? elapsed) && negb (downgrade l)
                  && (u64_of (elapsed * downgrade_threshold c) <? total l) in
      (Running, mkLink (t_check t) elapsed (total l) 0 highest (down || downgrade l) (black t)
         (last_recv_time l) (elapsed, total l, highest, speed) (charged l) (total_charged l)
         (to_stream l) (to_peer l))
  else (Running, l).

Definition turn (c : Conf) (l : Link) (t : Turn) : Status * Link :=
  match select l t with
  | (Running, l) => check_speed c l t
  | r => r
  end.

Fixpoint relay (c : Conf) (l : Link) (ts : list Turn) : Status * Link :=
  match ts with
  | [] => (Running, l)
  | t :: ts => match turn c l t with (Running, l) => relay c l ts | r => r end
  end.

(** The chunks the two ends send, and the ones that have content. *)
Definition chunk_of (t : Turn) : list bytes :=
  match ev t with PeerRecv (Some b) _ | StreamRecv (Some b) _ => [b] | _ => [] end.
Definition from_peer (t : Turn) : list bytes :=
  match ev t with PeerRecv (Some b) _ => if bool_decide (b = []) then [] else [b] | _ => [] end.
Definition from_stream (t : Turn) : list bytes :=
  match ev t with StreamRecv (Some b) _ => if bool_decide (b = []) then [] else [b] | _ => [] end.

Definition bits (b : bytes) : Z := u64_of (len b * 8).

(** What a link does with the turns [ts] that it completes. *)
Definition copied (l l' : Link) (ts : list Turn) : Prop :=
  to_stream l' = to_stream l ++ concat (map from_peer ts) /\
  to_peer l' = to_peer l ++ concat (map from_stream ts) /\
  total_charged l' = total_charged l ++ map bits (concat (map chunk_of ts)) /\
  (exists k, charged l' = charged l ++ k /\ map snd k = map bits (concat (map chunk_of ts)) /\
     (downgrade l = true -> Forall (fun x => x.1 = true) k)) /\
  (downgrade l = true -> downgrade l' = true).

Lemma copied_refl l : copied l l [].
Proof.
  unfold copied. simpl. rewrite !app_nil_r. repeat (split; [done|]). split; [|done].
  exists []. rewrite app_nil_r. done.
Qed.

Lemma copied_trans l1 l2 l3 ts1 ts2 : copied l1 l2 ts1 -> copied l2 l3 ts2 -> copied l1 l3 (ts1 ++ ts2).
Proof.
  intros (A1 & A2 & A3 & (k1 & A4 & A5 & A6) & A7) (B1 & B2 & B3 & (k2 & B4 & B5 & B6) & B7).
  unfold copied. rewrite !map_app, !concat_app, !map_app, !app_assoc.
  split; [congruence|]. split; [congruence|]. split; [congruence|]. split; [|tauto].
  exists (k1 ++ k2). rewrite B4, A4, <- app_assoc, map_app. split; [done|]. split; [congruence|].
  intros D. apply Forall_app. tauto.
Qed.

Lemma select_copied l t st l' : select l t = (st, l') ->
  match st with
  | Running => copied l l' [t]
  | SendFailed => to_stream l' = to_stream l /\ to_peer l' = to_peer l
  | _ => l' = l
  end.
Proof.
  unfold select, copied, chunk_of, from_peer, from_stream.
  assert (forall b, exists k, charged l ++ [(blacked l || downgrade l, bits b)] = charged l ++ k /\
    map snd k = [bits b] /\ (downgrade l = true -> Forall (fun x => x.1 = true) k)) as Hk.
  { intros b. eexists. split; [done|]. split; [done|]. intros ->. rewrite orb_true_r. by repeat constructor. }
  destruct (ev t) as [[b|] sent|[b|] sent|] eqn:Et; simpl; rewrite ?Et.
  - case_bool_decide as B; [|destruct sent]; intros [= <- <-]; simpl; rewrite ?Et; simpl;
      rewrite ?(bool_decide_true _ B), ?(bool_decide_false _ B), ?app_nil_r; change (u64_of (len b * 8)) with (bits b); auto 10.
  - by intros [= <- <-].
  - case_bool_decide as B; [|destruct sent]; intros [= <- <-]; simpl; rewrite ?Et; simpl;
      rewrite ?(bool_decide_true _ B), ?(bool_decide_false _ B), ?app_nil_r; change (u64_of (len b * 8)) with (bits b); auto 10.
  - by intros [= <- <-].
  - destruct (30 <? _); intros [= <- <-]; [done|]. simpl. rewrite ?Et. simpl. rewrite !app_nil_r. do 3 (split; [done|]). split; [|done].
    exists []. by rewrite app_nil_r.
Qed.

Lemma check_speed_copied c l t st l' : check_speed c l t = (st, l') ->
  copied l l' [] /\ (st = Running \/ st = Closed).
Proof.
  unfold check_speed. destruct (1000 <=? _); [|intros [= <- <-]; split; [apply copied_refl|by left]].
  destruct (blocked t); intros [= <- <-]; (split; [|auto]); [apply copied_refl|].
  destruct (copied_refl l) as (A1 & A2 & A3 & A4 & A5). unfold copied. simpl.
  do 4 (split; [done|]). intros ->. by rewrite orb_true_r.
Qed.

Lemma relay_copied c ts : forall l st l', relay c l ts = (st, l') ->
  exists done_ rest, ts = done_ ++ rest /\ (st = Running -> rest = []) /\
    (st <> SendFailed -> copied l l' done_) /\
    to_stream l' = to_stream l ++ concat (map from_peer done_) /\
    to_peer l' = to_peer l ++ concat (map from_stream done_).
Proof.
  induction ts as [|t ts IH]; intros l st l'; simpl.
  - intros [= <- <-]. exists [], []. destruct (copied_refl l) as (A1 & A2 & _). auto using copied_refl.
  - assert (forall l1, l' = l1 -> to_stream l1 = to_stream l /\ to_peer l1 = to_peer l ->
      to_stream l' = to_stream l ++ concat (map from_peer []) /\
      to_peer l' = to_peer l ++ concat (map from_stream [])) as Hnil.
    { intros l1 -> [-> ->]. simpl. by rewrite !app_nil_r. }
    unfold turn. destruct (select l t) as [st1 l1] eqn:S1. pose proof (select_copied _ _ _ _ S1) as C1.
    destruct st1.
    + destruct (check_speed c l1 t) as [st2 l2] eqn:S2. destruct (check_speed_copied _ _ _ _ _ S2) as [C2 [-> | ->]].
      * intros Hr. destruct (IH _ _ _ Hr) as (d & rest & -> & H1 & H2 & H3 & H4).
        pose proof (copied_trans _ _ _ _ _ C1 C2) as C. rewrite app_nil_r in C.
        exists (t :: d), rest. split; [done|]. split; [done|].
        split; [intros Hs; by apply (copied_trans _ l2 _ [t] d), H2|].
        destruct C as (E1 & E2 & _). rewrite H3, H4, E1, E2. simpl. rewrite !app_nil_r, <- !app_assoc. done.
      * intros [= <- <-]. pose proof (copied_trans _ _ _ _ _ C1 C2) as C. rewrite app_nil_r in C.
        exists [t], ts. split; [done|]. split; [done|]. split; [done|]. by destruct C as (E1 & E2 & _).
    + intros [= <- <-]. subst l1. exists [], (t :: ts). do 2 (split; [done|]).
      split; [intros _; apply copied_refl|by apply (Hnil l)].
    + intros [= <- <-]. subst l1. exists [], (t :: ts). do 2 (split; [done|]).
      split; [intros _; apply copied_refl|by apply (Hnil l)].
    + intros [= <- <-]. exists [], (t :: ts). split; [done|]. split; [done|]. split; [done|]. by apply (Hnil l1).
Qed.

(** The relay copies faithfully and keeps count: at every moment what was
    passed to one end is what the other end sent in the turns completed so far,
    in order, without its empty chunks; while the link runs no turn is left
    out; every received bit was charged once to the shared limiter and once to
    a limiter of the connection, and after a downgrade, which is final, always
    to the strict one. *)
Theorem relay_faithful c now ts1 ts2 st l st' l' :
  relay c (start now) ts1 = (st, l) -> relay c l ts2 = (st', l') ->
  (exists k, k `prefix_of` ts1 /\ (st = Running -> k = ts1) /\
     to_stream l = concat (map from_peer k) /\ to_peer l = concat (map from_stream k) /\
     (st <> SendFailed -> total_charged l = map bits (concat (map chunk_of k)) /\
        map snd (charged l) = total_charged l)) /\
  (downgrade l = true -> st' <> SendFailed ->
     exists k, charged l' = charged l ++ k /\ Forall (fun x => x.1 = true) k /\ downgrade l' = true).
Proof.
  intros H1 H2. destruct (relay_copied _ _ _ _ _ H1) as (d1 & r1 & -> & R1 & C1 & S1 & P1).
  destruct (relay_copied _ _ _ _ _ H2) as (d2 & r2 & -> & R2 & C2 & S2 & P2). split.
  - exists d1. split; [by apply prefix_app_r|]. split; [intros Hs; by rewrite R1, app_nil_r|].
    split; [done|]. split; [done|]. intros (_ & _ & T & (k & E & M & _) & _)%C1.
    simpl in T, E. rewrite E, T. done.
  - intros D Hs. destruct (C2 Hs) as (_ & _ & _ & (k & E & _ & F) & D'). exists k. by auto.
Qed.
End Copy.

(** ** Witnesses *)
Definition ip1 : SocketAddr := V4 [Byte.x0a; Byte.x00; Byte.x00; Byte.x01] 4000.
Definition ip2 : SocketAddr := V4 [Byte.x0a; Byte.x00; Byte.x00; Byte.x02] 4001.
Definition show0 (a : SocketAddr) : bytes := match a with V4 ip _ => ip | V6 ip _ _ _ => ip end.
Definition request0 : option Pair.RequestRelay := Some (Pair.mkRequestRelay [Byte.x75] [Byte.x6b]).
Definition pair_run : list Pair.Action :=
  [Pair.Arrive 1 ip1 ip1 false request0; Pair.Insert 1; Pair.Arrive 2 ip2 ip2 false request0; Pair.Wake 1].
Definition paired : Pair.State :=
  default (Pair.init ∅) (Pair.run show0 show0 [Byte.x6b] pair_run (Pair.init ∅)).

Lemma pairing_safe_witness :
  Pair.tasks paired !! 2 = Some (Pair.Relaying 1 [Byte.x75] true (show0 ip2)) /\
  Pair.asked [Byte.x6b] pair_run 1 [Byte.x75].
Proof.
  assert (Pair.tasks paired !! 2 = Some (Pair.Relaying 1 [Byte.x75] true (show0 ip2))) as H by (vm_compute; reflexivity).
  split; [exact H|].
  apply (Pair.pairing_safe show0 show0 [Byte.x6b] pair_run ∅ paired 2 1 [Byte.x75] true (show0 ip2)).
  - vm_compute. reflexivity.
  - exact H.
Defined.

Lemma concurrent_arrivals_lost_witness : exists s,
  Pair.run show0 show0 [Byte.x6b]
    [Pair.Arrive 1 ip1 ip1 false request0; Pair.Arrive 2 ip2 ip2 false request0; Pair.Insert 1; Pair.Insert 2]
    (Pair.init ∅) = Some s /\ (forall ws, Pair.PEERS s !! [Byte.x75] <> Some (1, ws)).
Proof.
  destruct (Pair.concurrent_arrivals_lost show0 show0 [Byte.x6b] ∅ [Byte.x75] 1 2 ip1 ip2 ip1 ip2) as (s & H1 & H2 & _);
    [discriminate|lia|reflexivity|reflexivity|apply not_elem_of_empty|apply not_elem_of_empty|].
  exists s. split; [exact H1|exact H2].
Defined.

Definition turns0 : list Copy.Turn :=
  [Copy.mkTurn (Copy.PeerRecv (Some [Byte.x61; Byte.x62]) true) 5 2000000000 false false;
   Copy.mkTurn (Copy.StreamRecv (Some [Byte.x63]) true) 6 2000000001 false false].
Definition conf0 : Copy.Conf := Copy.mkConf 0 1000.

Lemma relay_faithful_witness :
  Copy.to_stream (Copy.relay conf0 (Copy.start 0) turns0).2 = [[Byte.x61; Byte.x62]] /\
  Copy.downgrade (Copy.relay conf0 (Copy.start 0) turns0).2 = true /\
  exists k, Copy.charged (Copy.relay conf0 (Copy.relay conf0 (Copy.start 0) turns0).2 turns0).2
    = Copy.charged (Copy.relay conf0 (Copy.start 0) turns0).2 ++ k /\ Forall (fun x => x.1 = true) k.
Proof.
  split; [vm_compute; reflexivity|]. split; [vm_compute; reflexivity|].
  destruct (proj2 (Copy.relay_faithful conf0 0 turns0 turns0 Copy.Running
    (Copy.relay conf0 (Copy.start 0) turns0).2 Copy.Running
    (Copy.relay conf0 (Copy.relay conf0 (Copy.start 0) turns0).2 turns0).2
    ltac:(vm_compute; reflexivity) ltac:(vm_compute; reflexivity)) ltac:(vm_compute; reflexivity) ltac:(discriminate))
    as (k & H1 & H2 & _).
  exists k. split; [exact H1|exact H2].
Defined.
