(* ===== verification/FileSystem.v ===== *)
(** * Paths and files

    What the program uses of [std::path] and [std::fs], on Unix.  A path is a
    byte string; [components] is [Path::components].  The file system maps
    physical locations (lists of names from the root) to files, directories and
    symbolic links; a file is an inode, so that an open handle survives a
    rename.  [resolve] is the kernel's path walk: it follows links, at most as
    many as its fuel (Linux allows 40).  Permissions and a full disk are not
    modelled, nor that a trailing slash asks for a directory. *)
From S2P Require Import Prelude.

(** ** Paths *)
Definition slash : byte := Byte.x2f.
Definition dot : byte := Byte.x2e.

(** [str::split('/')] *)
Fixpoint split (s : bytes) : list bytes :=
  match s with
  | [] => [[]]
  | b :: s =>
      if bool_decide (b = slash) then [] :: split s
      else match split s with seg :: segs => (b :: seg) :: segs | [] => [[b]] end
  end.

Inductive Comp := RootDir | CurDir | ParentDir | Normal (seg : bytes).

#[export] Instance Comp_eq_dec : EqDecision Comp.
Proof. solve_decision. Defined.

Definition seg_comp (seg : bytes) : list Comp :=
  if bool_decide (seg = []) || bool_decide (seg = [dot]) then []
  else if bool_decide (seg = [dot; dot]) then [ParentDir]
  else [Normal seg].

Definition is_absolute (p : bytes) : bool := bool_decide (head p = Some slash).

(** Empty and [.] segments disappear, but for a leading [.]. *)
Definition components (p : bytes) : list Comp :=
  if is_absolute p then RootDir :: concat (map seg_comp (split p))
  else match split p with
       | seg :: segs =>
           (if bool_decide (seg = [dot]) then [CurDir] else seg_comp seg) ++ concat (map seg_comp segs)
       | [] => []
       end.

(** [PathBuf::join] *)
Definition join (p name : bytes) : bytes :=
  if is_absolute name then name
  else if bool_decide (p = []) || bool_decide (last p = Some slash) then p ++ name
  else p ++ [slash] ++ name.

(** [Path::parent] *)
Definition parent (cs : list Comp) : option (list Comp) :=
  match last cs with
  | None | Some RootDir => None
  | Some _ => Some (removelast cs)
  end.

(** The last component is [.], slashes at the end aside: the kernel renames
    nothing to such a path. *)
Definition ends_in_dot (p : bytes) : bool :=
  match last (filter (fun s => s <> []) (split p)) with Some s => bool_decide (s = [dot]) | None => false end.

(** ** The file system

    Two names of one file are hard links: renaming one to the other does
    nothing. *)
Inductive IoError :=
| NotFound | AlreadyExists | NotADirectory | IsADirectory | DirectoryNotEmpty | InvalidInput | FilesystemLoop.

Inductive Node := NFile (ino : nat) | NDir | NSymlink (target : bytes).
Record Inode := mkInode { content : bytes; mtime : Z }.

#[export] Instance Node_eq_dec : EqDecision Node.
Proof. solve_decision. Defined.
#[export] Instance Inode_eq_dec : EqDecision Inode.
Proof. solve_decision. Defined.

Record Fs := mkFs {
  nodes : gmap (list bytes) Node;
  inodes : gmap nat Inode;
  cwd : list bytes;
  clock : Z
}.

Definition with_nodes (fs : Fs) n : Fs := mkFs n (inodes fs) (cwd fs) (clock fs).
Definition with_inodes (fs : Fs) i : Fs := mkFs (nodes fs) i (cwd fs) (clock fs).

Definition node_at (fs : Fs) (p : list bytes) : option Node :=
  match p with [] => Some NDir | _ => nodes fs !! p end.

Fixpoint resolve (fuel : nat) (fs : Fs) (follow : bool) (cur : list bytes) (cs : list Comp)
  : result (list bytes) IoError :=
  (fix walk (cur : list bytes) (cs : list Comp) : result (list bytes) IoError :=
    match cs with
    | [] => Ok cur
    | RootDir :: cs => walk [] cs
    | CurDir :: cs => walk cur cs
    | ParentDir :: cs => walk (removelast cur) cs
    | Normal s :: cs =>
        let p := cur ++ [s] in
        match node_at fs p with
        | Some NDir => walk p cs
        | Some (NFile _) => match cs with [] => Ok p | _ => Err NotADirectory end
        | None => match cs with [] => Ok p | _ => Err NotFound end
        | Some (NSymlink t) =>
            if match cs with [] => negb follow | _ => false end then Ok p
            else match fuel with
                 | O => Err FilesystemLoop
                 | S fuel => resolve fuel fs follow cur (components t ++ cs)
                 end
        end
    end) cur cs.

Definition MAXSYMLINKS : nat := 40.

(** Where a path leads, following links or all but the last. *)
Definition locate (fs : Fs) (cs : list Comp) : result (list bytes) IoError :=
  resolve MAXSYMLINKS fs true (cwd fs) cs.
Definition llocate (fs : Fs) (cs : list Comp) : result (list bytes) IoError :=
  resolve MAXSYMLINKS fs false (cwd fs) cs.

(** [symlink_metadata]: is it a link? *)
Definition symlink_metadata (fs : Fs) (cs : list Comp) : result bool IoError :=
  let? p := llocate fs cs in
  match node_at fs p with
  | Some (NSymlink _) => Ok true
  | Some _ => Ok false
  | None => Err NotFound
  end.

Definition stat (fs : Fs) (cs : list Comp) : option Node :=
  match locate fs cs with Ok p => node_at fs p | Err _ => None end.
Definition exists_ (fs : Fs) (cs : list Comp) : bool :=
  match stat fs cs with Some _ => true | None => false end.
Definition is_dir (fs : Fs) (cs : list Comp) : bool := bool_decide (stat fs cs = Some NDir).
Definition file_of (fs : Fs) (cs : list Comp) : option Inode :=
  match stat fs cs with Some (NFile i) => inodes fs !! i | _ => None end.

Definition mkdir (fs : Fs) (cs : list Comp) : Fs * result unit IoError :=
  match llocate fs cs with
  | Err e => (fs, Err e)
  | Ok p =>
      match node_at fs p with
      | Some _ => (fs, Err AlreadyExists)
      | None => (with_nodes fs (<[p := NDir]> (nodes fs)), Ok tt)
      end
  end.

(** [create_dir_all]: the fuel is the number of components. *)
Fixpoint create_dirs (fuel : nat) (fs : Fs) (cs : list Comp) : Fs * result unit IoError :=
  match cs with
  | [] => (fs, Ok tt)
  | _ =>
      match mkdir fs cs with
      | (fs1, Ok tt) => (fs1, Ok tt)
      | (_, Err NotFound) =>
          match fuel, parent cs with
          | S fuel, Some up =>
              match create_dirs fuel fs up with
              | (fs1, Ok tt) =>
                  match mkdir fs1 cs with
                  | (fs2, Ok tt) => (fs2, Ok tt)
                  | (_, Err e) => (fs1, if is_dir fs1 cs then Ok tt else Err e)
                  end
              | r => r
              end
          | _, _ => (fs, Err NotFound)
          end
      | (_, Err e) => (fs, if is_dir fs cs then Ok tt else Err e)
      end
  end.
Definition create_dir_all (fs : Fs) (cs : list Comp) : Fs * result unit IoError :=
  create_dirs (length cs) fs cs.

(** An open file: the inode (none for a directory) and the position. *)
Record Handle := mkHandle { h_ino : option nat; h_pos : Z }.

(** [File::create] *)
Definition create (fs : Fs) (cs : list Comp) : Fs * result Handle IoError :=
  match locate fs cs with
  | Err e => (fs, Err e)
  | Ok p =>
      match node_at fs p with
      | Some (NFile i) => (with_inodes fs (<[i := mkInode [] (clock fs)]> (inodes fs)), Ok (mkHandle (Some i) 0))
      | Some _ => (fs, Err IsADirectory)
      | None =>
          let i := fresh (dom (inodes fs)) in
          (mkFs (<[p := NFile i]> (nodes fs)) (<[i := mkInode [] (clock fs)]> (inodes fs)) (cwd fs) (clock fs),
           Ok (mkHandle (Some i) 0))
      end
  end.

(** [File::open], and opening for writing without truncating. *)
Definition open_read (fs : Fs) (cs : list Comp) : result Handle IoError :=
  let? p := locate fs cs in
  match node_at fs p with
  | Some (NFile i) => Ok (mkHandle (Some i) 0)
  | Some _ => Ok (mkHandle None 0)
  | None => Err NotFound
  end.

Definition splice (old : bytes) (pos : Z) (data : bytes) : bytes :=
  takeZ pos (old ++ replicate (Z.to_nat (pos - len old)) Byte.x00) ++ data ++ dropZ (pos + len data) old.

Definition write_all (fs : Fs) (h : Handle) (data : bytes) : Fs * Handle * result unit IoError :=
  match h_ino h with
  | None => (fs, h, Err IsADirectory)
  | Some i =>
      match inodes fs !! i with
      | None => (fs, h, Err NotFound)
      | Some f =>
          (with_inodes fs (<[i := mkInode (splice (content f) (h_pos h) data) (clock fs)]> (inodes fs)),
           mkHandle (h_ino h) (h_pos h + len data), Ok tt)
      end
  end.

Definition read_at (fs : Fs) (h : Handle) (n : Z) : Handle * result bytes IoError :=
  match h_ino h with
  | None => (h, Err IsADirectory)
  | Some i =>
      let data := takeZ n (dropZ (h_pos h) match inodes fs !! i with Some f => content f | None => [] end) in
      (mkHandle (h_ino h) (h_pos h + len data), Ok data)
  end.

(** [fs::write] *)
Definition write_file (fs : Fs) (cs : list Comp) (data : bytes) : Fs :=
  match create fs cs with
  | (fs, Ok h) => (write_all fs h data).1.1
  | (fs, Err _) => fs
  end.

Definition remove_file (fs : Fs) (cs : list Comp) : Fs * result unit IoError :=
  match llocate fs cs with
  | Err e => (fs, Err e)
  | Ok p =>
      match node_at fs p with
      | Some NDir => (fs, Err IsADirectory)
      | Some _ => (with_nodes fs (delete p (nodes fs)), Ok tt)
      | None => (fs, Err NotFound)
      end
  end.

(** What lies strictly below a location. *)
Definition below (p q : list bytes) : bool :=
  bool_decide (take (length p) q = p) && bool_decide (length p < length q)%nat.
Definition is_empty_dir (fs : Fs) (p : list bytes) : bool :=
  forallb (fun kv => negb (below p kv.1)) (map_to_list (nodes fs)).

(** Moving a directory moves what lies below it. *)
Definition move_dir (m : gmap (list bytes) Node) (a b : list bytes) : gmap (list bytes) Node :=
  list_to_map (map (fun kv => (if bool_decide (kv.1 = a) || below a kv.1
                               then b ++ drop (length a) kv.1 else kv.1, kv.2))
                   (map_to_list (delete b m))).

Definition rename (fs : Fs) (ca cb : list Comp) : Fs * result unit IoError :=
  match llocate fs ca, llocate fs cb with
  | Ok a, Ok b =>
      match node_at fs a with
      | None => (fs, Err NotFound)
      | Some NDir =>
          if bool_decide (a = []) || bool_decide (b = []) || below a b then (fs, Err InvalidInput)
          else if bool_decide (a = b) then (fs, Ok tt)
          else match node_at fs b with
               | None => (with_nodes fs (move_dir (nodes fs) a b), Ok tt)
               | Some NDir =>
                   if is_empty_dir fs b then (with_nodes fs (move_dir (nodes fs) a b), Ok tt)
                   else (fs, Err DirectoryNotEmpty)
               | Some _ => (fs, Err NotADirectory)
               end
      | Some n =>
          match node_at fs b with
          | Some NDir => (fs, Err IsADirectory)
          | _ =>
              if bool_decide (node_at fs b = Some n) && match n with NFile _ => true | _ => false end
              then (fs, Ok tt)
              else (with_nodes fs (<[b := n]> (delete a (nodes fs))), Ok tt)
          end
      end
  | Err e, _ | _, Err e => (fs, Err e)
  end.

(** [filetime::set_file_mtime] *)
Definition set_file_mtime (fs : Fs) (cs : list Comp) (t : Z) : Fs :=
  match stat fs cs with
  | Some (NFile i) =>
      match inodes fs !! i with
      | Some f => with_inodes fs (<[i := mkInode (content f) t]> (inodes fs))
      | None => fs
      end
  | _ => fs
  end.

(** ** Resolution *)
Lemma resolve_nil n fs fl cur : resolve n fs fl cur [] = Ok cur.
Proof. by destruct n. Qed.

Lemma resolve_cons n fs fl cur c cs :
  resolve n fs fl cur (c :: cs) =
  match c with
  | RootDir => resolve n fs fl [] cs
  | CurDir => resolve n fs fl cur cs
  | ParentDir => resolve n fs fl (removelast cur) cs
  | Normal s =>
      match node_at fs (cur ++ [s]) with
      | Some NDir => resolve n fs fl (cur ++ [s]) cs
      | Some (NFile _) => match cs with [] => Ok (cur ++ [s]) | _ => Err NotADirectory end
      | None => match cs with [] => Ok (cur ++ [s]) | _ => Err NotFound end
      | Some (NSymlink t) =>
          if match cs with [] => negb fl | _ => false end then Ok (cur ++ [s])
          else match n with
               | O => Err FilesystemLoop
               | S n => resolve n fs fl cur (components t ++ cs)
               end
      end
  end.
Proof. destruct n; destruct c; reflexivity. Qed.

(** Walking on from a directory. *)
Lemma resolve_app fs n : forall cs1 cur p, resolve n fs true cur cs1 = Ok p -> node_at fs p = Some NDir ->
  exists m, forall fl c cs2, resolve n fs fl cur (cs1 ++ c :: cs2) = resolve m fs fl p (c :: cs2).
Proof.
  induction n as [|n IHn]; intros cs1; induction cs1 as [|c cs1 IH]; intros cur p;
    try (rewrite resolve_nil; intros [= <-] _; by eexists);
    rewrite resolve_cons; intros Hr Hp;
    (destruct c as [| | |seg]; [..|destruct (node_at fs (cur ++ [seg])) as [[i| |t]|] eqn:E]);
    try (destruct (IH _ _ Hr Hp) as [m Hm]; exists m; intros fl c0 cs2; rewrite <- app_comm_cons, resolve_cons;
         rewrite ?E; apply Hm);
    try (destruct cs1; [injection Hr as <-; congruence|done]);
    try (destruct cs1; simpl in Hr; done).
  assert (resolve n fs true cur (components t ++ cs1) = Ok p) as Hr' by (by destruct cs1).
  destruct (IHn _ _ _ Hr' Hp) as [m Hm]. exists m. intros fl c0 cs2.
  rewrite <- app_comm_cons, resolve_cons, E, <- Hm, <- app_assoc. by destruct cs1.
Qed.

(** Names without links on the way. *)
Definition dirs_to (fs : Fs) (p segs : list bytes) : Prop :=
  forall k, (k < length segs)%nat -> node_at fs (p ++ take k segs) = Some NDir.
Definition not_link (n : option Node) : Prop := match n with Some (NSymlink _) => False | _ => True end.

Lemma dirs_to_cons fs p seg segs : dirs_to fs p (seg :: segs) -> segs <> [] ->
  node_at fs (p ++ [seg]) = Some NDir /\ dirs_to fs (p ++ [seg]) segs.
Proof.
  intros H Hs. assert (0 < length segs)%nat by (destruct segs; simpl; [done|lia]). split.
  - apply (H 1%nat). simpl. lia.
  - intros k Hk. rewrite <- app_assoc. apply (H (S k)). simpl. lia.
Qed.

Lemma resolve_plain fs n fl segs : forall p, segs <> [] -> dirs_to fs p segs ->
  not_link (node_at fs (p ++ segs)) \/ fl = false ->
  resolve n fs fl p (map Normal segs) = Ok (p ++ segs).
Proof.
  induction segs as [|seg segs IH]; intros p Hne Hd Hl; [done|]. simpl map. rewrite resolve_cons.
  destruct segs as [|seg' segs].
  - rewrite resolve_nil. destruct (node_at fs (p ++ [seg])) as [[]|]; try done.
    destruct Hl as [[]| ->]. done.
  - destruct (dirs_to_cons _ _ _ _ Hd) as [-> Hd']; [done|]. rewrite IH; [by rewrite <- app_assoc|done..|].
    by rewrite <- app_assoc.
Qed.

(** The directory [base] is at [pb]. *)
Definition base_at (fs : Fs) (base : list Comp) (pb : list bytes) : Prop :=
  locate fs base = Ok pb /\ node_at fs pb = Some NDir.

Lemma locate_under fs base pb segs : base_at fs base pb -> segs <> [] -> dirs_to fs pb segs ->
  not_link (node_at fs (pb ++ segs)) -> locate fs (base ++ map Normal segs) = Ok (pb ++ segs).
Proof.
  intros [Hb Hd] Hs Ht Hl. destruct (resolve_app _ _ _ _ _ Hb Hd) as [m Hm].
  destruct segs as [|seg segs]; [done|]. unfold locate. simpl map. rewrite Hm.
  apply (resolve_plain fs m true (seg :: segs)); auto.
Qed.

Lemma llocate_under fs base pb segs : base_at fs base pb -> segs <> [] -> dirs_to fs pb segs ->
  llocate fs (base ++ map Normal segs) = Ok (pb ++ segs).
Proof.
  intros [Hb Hd] Hs Ht. destruct (resolve_app _ _ _ _ _ Hb Hd) as [m Hm].
  destruct segs as [|seg segs]; [done|]. unfold llocate. simpl map. rewrite Hm.
  apply (resolve_plain fs m false (seg :: segs)); auto.
Qed.

(** Directories and links stay; that is all resolution to a directory needs. *)
Definition keeps_dirs (fs fs' : Fs) : Prop :=
  cwd fs' = cwd fs /\
  forall p n, node_at fs p = Some n -> (forall i, n <> NFile i) -> node_at fs' p = Some n.

Lemma keeps_dirs_refl fs : keeps_dirs fs fs.
Proof. by split. Qed.

Lemma keeps_dirs_trans fs1 fs2 fs3 : keeps_dirs fs1 fs2 -> keeps_dirs fs2 fs3 -> keeps_dirs fs1 fs3.
Proof. intros [C1 H1] [C2 H2]. split; [congruence|]. intros p n Hn Hf. by apply H2; [apply H1|]. Qed.

Lemma resolve_keeps fs fs' n : keeps_dirs fs fs' -> forall cs cur p,
  resolve n fs true cur cs = Ok p -> node_at fs p = Some NDir -> resolve n fs' true cur cs = Ok p.
Proof.
  intros [_ K]. induction n as [|n IHn]; intros cs; induction cs as [|c cs IH]; intros cur p;
    try (rewrite !resolve_nil; done);
    rewrite !resolve_cons; intros Hr Hp;
    (destruct c as [| | |seg]; [..|destruct (node_at fs (cur ++ [seg])) as [[i| |t]|] eqn:E]);
    try (by apply IH);
    try (destruct cs; [injection Hr as <-; congruence|done]);
    try (rewrite (K _ _ E) by done);
    try (by apply IH); try (by destruct cs).
  destruct cs; by apply IHn.
Qed.

Lemma base_keeps fs fs' base pb : keeps_dirs fs fs' -> base_at fs base pb -> base_at fs' base pb.
Proof.
  intros K [Hb Hd]. split; [|by apply K]. unfold locate in *. rewrite (proj1 K).
  by eapply resolve_keeps.
Qed.

(** ** What each operation changes *)
Inductive View := VFile (f : Inode) | VDir | VLink (target : bytes).

Definition view (fs : Fs) (p : list bytes) : option View :=
  match node_at fs p with
  | Some (NFile i) => VFile <$> inodes fs !! i
  | Some NDir => Some VDir
  | Some (NSymlink t) => Some (VLink t)
  | None => None
  end.

Section Updates.
(** The part of the tree in which files have one name. *)
Context (D : list bytes -> Prop).

Definition wf (fs : Fs) : Prop :=
  (forall p i, node_at fs p = Some (NFile i) -> is_Some (inodes fs !! i)) /\
  (forall p q i, D p -> node_at fs p = Some (NFile i) -> node_at fs q = Some (NFile i) -> q = p) /\
  (forall p x, node_at fs (p ++ [x]) <> None -> node_at fs p = Some NDir).

(** Changing the node at one location keeps every parent a directory. *)
Lemma closed_set (N N' : list bytes -> option Node) p v : p <> [] ->
  (forall q, N' q = if decide (q = p) then v else N q) ->
  (forall p x, N (p ++ [x]) <> None -> N p = Some NDir) -> N p <> Some NDir ->
  (v <> None -> N (removelast p) = Some NDir) ->
  forall p x, N' (p ++ [x]) <> None -> N' p = Some NDir.
Proof.
  intros Hp HN Hc Hnd Hv q x. rewrite !HN. destruct (decide (q ++ [x] = p)) as [<-|Hne].
  - intros H%Hv. rewrite removelast_last in H. rewrite decide_False; [done|].
    intros E%(f_equal length). rewrite length_app in E. simpl in E. lia.
  - intros H%Hc. rewrite decide_False; [done|]. by intros ->.
Qed.

(** From [fs] to [fs'] only [p] changes, to [v]. *)
Record upd (fs fs' : Fs) (p : list bytes) (v : option View) : Prop := mkUpd {
  upd_wf : wf fs';
  upd_cwd : cwd fs' = cwd fs;
  upd_clock : clock fs' = clock fs;
  upd_node q : q <> p -> node_at fs' q = node_at fs q;
  upd_view q : q <> p -> view fs' q = view fs q;
  upd_at : view fs' p = v
}.

Lemma view_none fs p : wf fs -> view fs p = None <-> node_at fs p = None.
Proof.
  intros [W _]. unfold view. destruct (node_at fs p) as [[i| |]|] eqn:E; try done.
  destruct (W _ _ E) as [f ->]. done.
Qed.

Lemma view_dir fs p : view fs p = Some VDir <-> node_at fs p = Some NDir.
Proof.
  unfold view. destruct (node_at fs p) as [[i| |]|]; try done. by destruct (inodes fs !! i).
Qed.

Lemma view_file fs p f : view fs p = Some (VFile f) <->
  exists i, node_at fs p = Some (NFile i) /\ inodes fs !! i = Some f.
Proof.
  unfold view. split.
  - destruct (node_at fs p) as [[i| |]|]; try done. destruct (inodes fs !! i) eqn:E; [|done].
    intros [= ->]. by exists i.
  - by intros (i & -> & ->).
Qed.

Lemma node_insert fs p n q i c k : p <> [] ->
  node_at (mkFs (<[p := n]> (nodes fs)) i c k) q = if decide (q = p) then Some n else node_at fs q.
Proof.
  intros Hp. unfold node_at. simpl. destruct q as [|x q]; [by rewrite decide_False|].
  rewrite lookup_insert. do 2 case_decide; congruence || done.
Qed.

Lemma node_delete fs p q i c k : p <> [] ->
  node_at (mkFs (delete p (nodes fs)) i c k) q = if decide (q = p) then None else node_at fs q.
Proof.
  intros Hp. unfold node_at. simpl. destruct q as [|x q]; [by rewrite decide_False|].
  rewrite lookup_delete. do 2 case_decide; congruence || done.
Qed.

Lemma node_same fs i c k q : node_at (mkFs (nodes fs) i c k) q = node_at fs q.
Proof. done. Qed.

Lemma file_not_root fs p i : node_at fs p = Some (NFile i) -> p <> [].
Proof. by destruct p. Qed.

Lemma upd_keeps fs fs' p v : upd fs fs' p v ->
  (node_at fs p = None \/ exists i, node_at fs p = Some (NFile i)) -> keeps_dirs fs fs'.
Proof.
  intros U H. split; [apply U|]. intros q n Hn Hf. rewrite (upd_node _ _ _ _ U); [done|].
  intros ->. destruct H as [H|[i H]]; [congruence|]. rewrite Hn in H. injection H as ->. by eapply Hf.
Qed.

Lemma mkdir_spec fs cs p : wf fs -> llocate fs cs = Ok p -> node_at fs p = None ->
  node_at fs (removelast p) = Some NDir ->
  exists fs', mkdir fs cs = (fs', Ok tt) /\ upd fs fs' p (Some VDir).
Proof.
  intros (W1 & W2 & W3) Hl Hn Hup. unfold mkdir. rewrite Hl, Hn. eexists. split; [done|].
  assert (p <> []) as Hp by (by intros ->). unfold with_nodes. split; [split; [|split]|..]; try done.
  - intros q i. rewrite node_insert by done. case_decide; [done|apply W1].
  - intros q r i Hq. rewrite !node_insert by done. do 2 (case_decide; [done|]). by apply W2.
  - apply (closed_set (node_at fs) _ p (Some NDir)); try done; [intros; by apply node_insert|congruence].
  - intros q Hq. rewrite node_insert by done. by rewrite decide_False.
  - intros q Hq. unfold view. rewrite node_insert by done. by rewrite decide_False.
  - unfold view. rewrite node_insert by done. by rewrite decide_True.
Qed.

Lemma create_spec fs cs p : wf fs -> locate fs cs = Ok p -> node_at fs p = None ->
  node_at fs (removelast p) = Some NDir ->
  exists fs' i, create fs cs = (fs', Ok (mkHandle (Some i) 0)) /\ node_at fs' p = Some (NFile i) /\
    upd fs fs' p (Some (VFile (mkInode [] (clock fs)))).
Proof.
  intros (W1 & W2 & W3) Hl Hn Hup. unfold create. rewrite Hl, Hn. set (i := fresh _).
  assert (inodes fs !! i = None) as Hi.
  { apply not_elem_of_dom. unfold i. apply is_fresh. }
  assert (forall q, node_at fs q <> Some (NFile i)) as Hfr.
  { intros q Hq. destruct (W1 _ _ Hq). congruence. }
  assert (p <> []) as Hp by (by intros ->). do 2 eexists. split; [done|].
  split; [by rewrite node_insert, decide_True by done|]. split; [split; [|split]|..]; try done.
  - intros q j. rewrite node_insert by done. simpl. case_decide.
    + intros [= <-]. by rewrite lookup_insert_eq.
    + intros Hq. rewrite lookup_insert_ne by (intros <-; by eapply Hfr). by eapply W1.
  - intros q r j Hq. rewrite !node_insert by done. do 2 case_decide; subst; try done.
    + intros [= <-] ?. by exfalso; eapply Hfr.
    + intros ? [= <-]. by exfalso; eapply Hfr.
    + by apply W2.
  - apply (closed_set (node_at fs) _ p (Some (NFile i))); try done; [intros; by apply node_insert|congruence].
  - intros q Hq. rewrite node_insert by done. by rewrite decide_False.
  - intros q Hq. unfold view. rewrite node_insert by done. rewrite decide_False by done.
    destruct (node_at fs q) as [[j| |]|] eqn:E; try done. simpl.
    rewrite lookup_insert_ne; [done|]. intros <-. by eapply Hfr.
  - unfold view. rewrite node_insert by done. rewrite decide_True by done. simpl. by rewrite lookup_insert_eq.
Qed.

(** Writing to an inode with one name. *)
Lemma inode_upd fs p i f : wf fs -> D p -> node_at fs p = Some (NFile i) ->
  upd fs (with_inodes fs (<[i := f]> (inodes fs))) p (Some (VFile f)).
Proof.
  intros (W1 & W2 & W3) HD Hn. unfold with_inodes. split; [split; [|split]|..]; try done.
  - intros q j Hq. rewrite node_same in Hq. simpl. destruct (decide (i = j)) as [->|].
    + by rewrite lookup_insert_eq.
    + rewrite lookup_insert_ne by done. by eapply W1.
  - intros q Hq. unfold view. rewrite node_same. destruct (node_at fs q) as [[j| |]|] eqn:E; try done.
    simpl. rewrite lookup_insert_ne; [done|]. intros <-. by eapply Hq, W2.
  - unfold view. rewrite node_same, Hn. simpl. by rewrite lookup_insert_eq.
Qed.

Lemma write_spec fs p i f pos data : wf fs -> D p -> node_at fs p = Some (NFile i) ->
  inodes fs !! i = Some f ->
  exists fs', write_all fs (mkHandle (Some i) pos) data = (fs', mkHandle (Some i) (pos + len data), Ok tt) /\
    nodes fs' = nodes fs /\
    upd fs fs' p (Some (VFile (mkInode (splice (content f) pos data) (clock fs)))).
Proof.
  intros W HD Hn Hf. unfold write_all. simpl. rewrite Hf. eexists. split; [done|]. split; [done|].
  by apply inode_upd.
Qed.

Lemma mtime_spec fs cs p f t : wf fs -> D p -> locate fs cs = Ok p -> view fs p = Some (VFile f) ->
  upd fs (set_file_mtime fs cs t) p (Some (VFile (mkInode (content f) t))).
Proof.
  intros W HD Hl (i & Hn & Hf)%view_file. unfold set_file_mtime, stat. rewrite Hl, Hn, Hf. by apply inode_upd.
Qed.

Lemma remove_spec fs cs p i : wf fs -> llocate fs cs = Ok p -> node_at fs p = Some (NFile i) ->
  exists fs', remove_file fs cs = (fs', Ok tt) /\ upd fs fs' p None.
Proof.
  intros (W1 & W2 & W3) Hl Hn. pose proof (file_not_root _ _ _ Hn) as Hp.
  unfold remove_file. rewrite Hl, Hn. eexists. split; [done|]. unfold with_nodes. split; [split; [|split]|..]; try done.
  - intros q j. rewrite node_delete by done. case_decide; [done|apply W1].
  - intros q r j Hq. rewrite !node_delete by done. do 2 (case_decide; [done|]). by apply W2.
  - apply (closed_set (node_at fs) _ p None); try done; [intros; by apply node_delete|congruence].
  - intros q Hq. rewrite node_delete by done. by rewrite decide_False.
  - intros q Hq. unfold view. rewrite node_delete by done. by rewrite decide_False.
  - unfold view. rewrite node_delete by done. by rewrite decide_True.
Qed.

(** Moving a file to a free name. *)
Lemma rename_spec fs ca cb a b f : wf fs -> D a -> D b -> llocate fs ca = Ok a -> llocate fs cb = Ok b ->
  view fs a = Some (VFile f) -> node_at fs b = None -> node_at fs (removelast b) = Some NDir ->
  exists fs1 fs', rename fs ca cb = (fs', Ok tt) /\ upd fs fs1 a None /\ upd fs1 fs' b (Some (VFile f)).
Proof.
  intros (W1 & W2 & W3) Da Db La Lb (i & Ha & Hf)%view_file Hb Hup. unfold rename. rewrite La, Lb, Ha, Hb.
  rewrite bool_decide_false by done. simpl.
  pose proof (file_not_root _ _ _ Ha) as Hpa. assert (b <> []) as Hpb by (by intros ->).
  assert (a <> b) as Hab by congruence.
  exists (with_nodes fs (delete a (nodes fs))). eexists. split; [done|]. unfold with_nodes. split.
  - split; [split; [|split]|..]; try done.
    + intros q j. rewrite node_delete by done. case_decide; [done|apply W1].
    + intros q r j Hq. rewrite !node_delete by done. do 2 (case_decide; [done|]). by apply W2.
    + apply (closed_set (node_at fs) _ a None); try done; [intros; by apply node_delete|congruence].
    + intros q Hq. rewrite node_delete by done. by rewrite decide_False.
    + intros q Hq. unfold view. rewrite node_delete by done. by rewrite decide_False.
    + unfold view. rewrite node_delete by done. by rewrite decide_True.
  - set (fs1 := mkFs (delete a (nodes fs)) (inodes fs) (cwd fs) (clock fs)).
    assert (forall q, node_at fs1 q = if decide (q = a) then None else node_at fs q) as N1
      by (intros; by apply node_delete).
    assert (forall q i c k, node_at (mkFs (<[b:=NFile i]> (delete a (nodes fs))) (inodes fs) c k) q =
      if decide (q = b) then Some (NFile i) else node_at fs1 q) as N2
      by (intros; by apply (node_insert fs1)).
    split; [split; [|split]|..]; try done.
    + intros q j. rewrite N2. case_decide; [intros [= <-]; by exists f|]. rewrite N1. case_decide; [done|apply W1].
    + intros q r j Hq. rewrite !N2, !N1.
      destruct (decide (q = b)) as [->|], (decide (r = b)) as [->|]; [done|..];
        repeat (case_decide as E; [done|]).
      * intros [= <-] Hr. exfalso. by apply E, (W2 a r i).
      * intros Hj [= ->]. exfalso. by apply E, eq_sym, (W2 q a j).
      * case_decide; [done|]. by apply W2.
    + assert (node_at fs (removelast b) <> Some (NFile i)) by congruence.
      apply (closed_set (node_at fs1) _ b (Some (NFile i))); try done; [| |].
      * apply (closed_set (node_at fs) _ a None); try done; congruence.
      * rewrite N1. case_decide; congruence.
      * intros _. rewrite N1. case_decide; [congruence|done].
    + intros q Hq. by rewrite N2, decide_False.
    + intros q Hq. unfold view. by rewrite N2, decide_False.
    + unfold view. rewrite N2, decide_True by done. simpl. by rewrite Hf.
Qed.

(** ** Creating the directories of a path *)
Lemma lresolve_dir fs n : forall cs cur p, resolve n fs true cur cs = Ok p ->
  resolve n fs false cur cs = Ok p \/
  exists q t, resolve n fs false cur cs = Ok q /\ node_at fs q = Some (NSymlink t).
Proof.
  induction n as [|n IHn]; intros cs; induction cs as [|c cs IH]; intros cur p;
    try (rewrite !resolve_nil; by left); rewrite !resolve_cons; intros Hr;
    (destruct c as [| | |seg]; [..|destruct (node_at fs (cur ++ [seg])) as [[i| |t]|] eqn:E]);
    try (by apply IH); try (by destruct cs; [left|]).
  - destruct cs; [right; by do 2 eexists|by apply IHn].
Qed.

Lemma llocate_base fs base pb : base_at fs base pb ->
  exists q, llocate fs base = Ok q /\ node_at fs q <> None.
Proof.
  intros [Hb Hd]. destruct (lresolve_dir _ _ _ _ _ Hb) as [H|(q & t & H & Hq)];
    eexists; (split; [exact H|]); congruence.
Qed.

(** Every name on the way is a directory or free. *)
Definition free_or_dirs (fs : Fs) (p segs : list bytes) : Prop :=
  forall k, (0 < k <= length segs)%nat ->
    node_at fs (p ++ take k segs) = None \/ node_at fs (p ++ take k segs) = Some NDir.

Lemma free_or_dirs_init fs p segs s : free_or_dirs fs p (segs ++ [s]) -> free_or_dirs fs p segs.
Proof.
  intros H k Hk. specialize (H k). rewrite take_app_le in H by lia. apply H. rewrite length_app. simpl. lia.
Qed.

Lemma resolve_missing fs n fl s segs : forall p, segs <> [] -> free_or_dirs fs p segs ->
  node_at fs (p ++ segs) = None -> resolve n fs fl p (map Normal (segs ++ [s])) = Err NotFound.
Proof.
  induction segs as [|seg segs IH]; intros p Hne Hf Hn; [done|]. simpl map. rewrite resolve_cons.
  destruct (Hf 1%nat) as [E|E]; [simpl; lia|..]; simpl in E; rewrite take_0 in E; rewrite E.
  - by destruct segs.
  - apply IH.
    + intros ->. congruence.
    + intros k Hk. rewrite <- app_assoc. apply (Hf (S k)). simpl. lia.
    + by rewrite <- app_assoc.
Qed.

Lemma closed_prefix fs p segs k : wf fs -> node_at fs (p ++ segs) = Some NDir -> (k <= length segs)%nat ->
  node_at fs (p ++ take k segs) = Some NDir.
Proof.
  intros (_ & _ & W3). revert k. induction segs as [|s segs IH] using rev_ind; intros k H Hk.
  - simpl in Hk. replace k with 0%nat by lia. by rewrite take_0.
  - rewrite length_app in Hk. simpl in Hk. destruct (decide (k = S (length segs))) as [->|].
    + rewrite take_ge; [done|]. rewrite length_app. simpl. lia.
    + rewrite take_app_le by lia. apply IH; [|lia]. apply (W3 _ s). rewrite <- app_assoc. congruence.
Qed.

Lemma dirs_to_closed fs p segs s : wf fs -> node_at fs (p ++ segs) = Some NDir -> dirs_to fs p (segs ++ [s]).
Proof.
  intros W H k Hk. rewrite length_app in Hk. simpl in Hk. rewrite take_app_le by lia.
  apply closed_prefix; [done..|lia].
Qed.

(** From [fs] to [fs'] the directories down to [p ++ segs] appear. *)
Definition dirs_made (fs fs' : Fs) (p segs : list bytes) : Prop :=
  wf fs' /\ cwd fs' = cwd fs /\ clock fs' = clock fs /\
  (forall k, (k <= length segs)%nat -> node_at fs' (p ++ take k segs) = Some NDir) /\
  (forall q, (forall k, (0 < k <= length segs)%nat -> q <> p ++ take k segs) ->
     node_at fs' q = node_at fs q /\ view fs' q = view fs q) /\
  keeps_dirs fs fs'.

Lemma dirs_made_refl fs p segs : wf fs -> node_at fs (p ++ segs) = Some NDir -> dirs_made fs fs p segs.
Proof.
  intros W H. split; [done|]. do 2 (split; [done|]). split; [|split; [done|apply keeps_dirs_refl]].
  intros k Hk. by apply closed_prefix.
Qed.

Lemma dirs_made_snoc fs fs1 fs2 p segs s : dirs_made fs fs1 p segs -> node_at fs1 (p ++ segs ++ [s]) = None ->
  upd fs1 fs2 (p ++ segs ++ [s]) (Some VDir) -> dirs_made fs fs2 p (segs ++ [s]).
Proof.
  intros (W & C1 & C2 & M & F & K) Hn U.
  assert (forall k, (k <= length segs)%nat -> p ++ take k segs <> p ++ segs ++ [s]) as Hk.
  { intros k Hk E%app_inv_head. apply (f_equal length) in E. rewrite length_take, length_app in E. simpl in E. lia. }
  split; [apply U|]. split; [rewrite (upd_cwd _ _ _ _ U); done|]. split; [rewrite (upd_clock _ _ _ _ U); done|].
  split; [|split].
  - intros k Hl. rewrite length_app in Hl. simpl in Hl. destruct (decide (k = S (length segs))) as [->|].
    + rewrite take_ge by (rewrite length_app; simpl; lia). by apply view_dir, (upd_at _ _ _ _ U).
    + rewrite take_app_le by lia. rewrite (upd_node _ _ _ _ U) by (apply Hk; lia). apply M. lia.
  - intros q Hq.
    assert (q <> p ++ segs ++ [s]) as Hne.
    { specialize (Hq (S (length segs))). rewrite take_ge in Hq by (rewrite length_app; simpl; lia).
      apply Hq. rewrite length_app. simpl. lia. }
    rewrite (upd_node _ _ _ _ U), (upd_view _ _ _ _ U) by done. apply F. intros k Hl.
    specialize (Hq k). rewrite take_app_le in Hq by lia. apply Hq. rewrite length_app. simpl. lia.
  - eapply keeps_dirs_trans; [exact K|]. eapply upd_keeps; [exact U|]. by left.
Qed.

Lemma parent_snoc base segs s : parent (base ++ map Normal (segs ++ [s])) = Some (base ++ map Normal segs).
Proof. unfold parent. rewrite map_app, app_assoc. simpl map. by rewrite last_snoc, removelast_last. Qed.

Lemma create_dirs_spec base pb segs : forall n fs, base_at fs base pb -> wf fs ->
  free_or_dirs fs pb segs -> (length segs <= n)%nat ->
  exists fs', create_dirs n fs (base ++ map Normal segs) = (fs', Ok tt) /\ dirs_made fs fs' pb segs.
Proof.
  induction segs as [|s segs IH] using rev_ind; intros n fs Hb W Hf Hn.
  - simpl. rewrite app_nil_r. exists fs. split; [|apply dirs_made_refl; [done|]; rewrite app_nil_r; apply Hb].
    destruct (llocate_base _ _ _ Hb) as (q & Hq & Hnq).
    assert (is_dir fs base = true) as Hd.
    { unfold is_dir, stat. rewrite (proj1 Hb), (proj2 Hb). by apply bool_decide_eq_true. }
    assert (mkdir fs base = (fs, Err AlreadyExists)) as Hm.
    { unfold mkdir. rewrite Hq. by destruct (node_at fs q). }
    destruct base as [|c base]; [by destruct n|]. destruct n; cbn [create_dirs]; by rewrite Hm, Hd.
  - pose proof (free_or_dirs_init _ _ _ _ Hf) as Hf'.
    assert (exists c cs, base ++ map Normal (segs ++ [s]) = c :: cs) as (c & cs & Ec).
    { rewrite map_app, app_assoc. destruct (base ++ map Normal segs); by do 2 eexists. }
    rewrite length_app in Hn. simpl in Hn. destruct n as [|n]; [lia|].
    assert (forall m fs0 r, create_dirs m fs0 (base ++ map Normal (segs ++ [s])) = r <->
      match mkdir fs0 (base ++ map Normal (segs ++ [s])) with
      | (fs1, Ok tt) => (fs1, Ok tt)
      | (_, Err NotFound) =>
          match m with
          | S m => match create_dirs m fs0 (base ++ map Normal segs) with
                   | (fs1, Ok tt) =>
                       match mkdir fs1 (base ++ map Normal (segs ++ [s])) with
                       | (fs2, Ok tt) => (fs2, Ok tt)
                       | (_, Err e) => (fs1, if is_dir fs1 (base ++ map Normal (segs ++ [s])) then Ok tt else Err e)
                       end
                   | r => r
                   end
          | O => (fs0, Err NotFound)
          end
      | (_, Err e) => (fs0, if is_dir fs0 (base ++ map Normal (segs ++ [s])) then Ok tt else Err e)
      end = r) as Hstep.
    { intros m fs0 r. pose proof (parent_snoc base segs s) as Hp.
      rewrite Ec in *. destruct m; cbn [create_dirs]; rewrite ?Hp; done. }
    assert (segs ++ [s] <> []) as Hne by (by destruct segs).
    destruct (Hf (length (segs ++ [s]))) as [E|E]; [rewrite length_app; simpl; lia|..]; rewrite take_ge in E by lia.
    + destruct (decide (node_at fs (pb ++ segs) = Some NDir)) as [Hd|Hd].
      * destruct (mkdir_spec fs (base ++ map Normal (segs ++ [s])) (pb ++ segs ++ [s])) as (fs1 & Hm & U); try done.
        { apply llocate_under; [done..|]. by apply dirs_to_closed. }
        { by rewrite app_assoc, removelast_last. }
        exists fs1. split; [apply Hstep; by rewrite Hm|].
        by apply (dirs_made_snoc fs fs); [apply dirs_made_refl|..].
      * assert (node_at fs (pb ++ segs) = None /\ segs <> []) as [Hnone Hsn].
        { destruct (decide (segs = [])) as [->|Hs]; [by rewrite app_nil_r, (proj2 Hb) in Hd|]. split; [|done].
          destruct (Hf' (length segs)) as [?|?]; [destruct segs; simpl; [done|lia]|..]; rewrite take_ge in * by lia; done. }
        assert (mkdir fs (base ++ map Normal (segs ++ [s])) = (fs, Err NotFound)) as Hm.
        { unfold mkdir, llocate. destruct (resolve_app _ _ _ _ _ (proj1 Hb) (proj2 Hb)) as [m Hr].
          destruct segs as [|s0 segs]; [done|]. simpl map. rewrite Hr.
          change (Normal s0 :: map Normal (segs ++ [s])) with (map Normal ((s0 :: segs) ++ [s])).
          by rewrite resolve_missing. }
        destruct (IH n fs Hb W Hf') as (fs1 & Hc & Hmade); [lia|].
        pose proof Hmade as (W1 & _ & _ & M & F & K). pose proof (base_keeps _ _ _ _ K Hb) as Hb1.
        assert (node_at fs1 (pb ++ segs) = Some NDir) as Hd1.
        { specialize (M (length segs)). rewrite take_ge in M by lia. by apply M. }
        assert (node_at fs1 (pb ++ segs ++ [s]) = None) as E1.
        { destruct (F (pb ++ segs ++ [s])) as [-> _]; [|done]. intros k Hk Eq%app_inv_head.
          apply (f_equal length) in Eq. rewrite length_take, length_app in Eq. simpl in Eq. lia. }
        destruct (mkdir_spec fs1 (base ++ map Normal (segs ++ [s])) (pb ++ segs ++ [s])) as (fs2 & Hm2 & U); try done.
        { apply llocate_under; [done..|]. by apply dirs_to_closed. }
        { by rewrite app_assoc, removelast_last. }
        exists fs2. split; [apply Hstep; rewrite Hm, Hc, Hm2; done|]. by apply (dirs_made_snoc fs fs1).
    + exists fs. split; [|by apply dirs_made_refl].
      assert (dirs_to fs pb (segs ++ [s])) as Hdt.
      { apply dirs_to_closed; [done|].
        rewrite <- (take_app_length segs [s]). apply closed_prefix; [done..|]. rewrite length_app. lia. }
      assert (llocate fs (base ++ map Normal (segs ++ [s])) = Ok (pb ++ segs ++ [s])) as Hl
        by by apply llocate_under.
      assert (is_dir fs (base ++ map Normal (segs ++ [s])) = true) as Hd.
      { unfold is_dir, stat. rewrite (locate_under _ _ pb) by (try done; by rewrite E).
        rewrite E. by apply bool_decide_eq_true. }
      apply Hstep. unfold mkdir. by rewrite Hl, E, Hd.
Qed.
End Updates.

(** ** Joined paths *)
Definition valid_seg (s : bytes) : Prop := s <> [] /\ s <> [dot] /\ s <> [dot; dot] /\ slash ∉ s.

(** The relative path with the given names. *)
Definition name_of (segs : list bytes) : bytes :=
  match segs with [] => [] | s :: segs => s ++ concat (map (cons slash) segs) end.

Lemma split_nonempty s : exists seg segs, split s = seg :: segs.
Proof.
  destruct s as [|b s]; simpl; [by do 2 eexists|]. case_bool_decide; [by do 2 eexists|].
  destruct (split s); by do 2 eexists.
Qed.

Lemma split_no_slash s : slash ∉ s -> split s = [s].
Proof.
  induction s as [|b s IH]; [done|]. rewrite not_elem_of_cons. intros [Hb Hs]. simpl.
  rewrite bool_decide_false by done. by rewrite IH.
Qed.

Lemma split_slash x y : split (x ++ slash :: y) = split x ++ split y.
Proof.
  induction x as [|b x IH]; [done|]. simpl. case_bool_decide; [by rewrite IH|]. rewrite IH.
  by destruct (split_nonempty x) as (seg & segs & ->).
Qed.

Lemma seg_comp_valid s : valid_seg s -> seg_comp s = [Normal s].
Proof. intros (H1 & H2 & H3 & _). unfold seg_comp. by rewrite !bool_decide_false by done. Qed.

Lemma split_name segs : segs <> [] -> Forall valid_seg segs -> split (name_of segs) = segs.
Proof.
  destruct segs as [|s segs]; [done|]. intros _ Hv. inversion Hv as [|?? (_ & _ & _ & Hs) Hv']; subst. clear Hv.
  simpl. revert s Hs. induction Hv' as [|s' segs (_ & _ & _ & Hs') Hv' IH]; intros s Hs; simpl.
  - rewrite app_nil_r. by apply split_no_slash.
  - by rewrite split_slash, split_no_slash, IH.
Qed.

Lemma name_comps segs : segs <> [] -> Forall valid_seg segs ->
  concat (map seg_comp (split (name_of segs))) = map Normal segs.
Proof.
  intros Hne Hv. rewrite split_name by done. clear Hne. induction Hv; simpl; [done|].
  rewrite seg_comp_valid by done. simpl. by f_equal.
Qed.

Lemma name_relative segs : Forall valid_seg segs -> is_absolute (name_of segs) = false.
Proof.
  intros Hv. apply bool_decide_eq_false. destruct Hv as [|s segs (H1 & _ & _ & H2) _]; [done|].
  destruct s as [|b s]; [done|]. simpl. intros [= ->]. apply H2. by left.
Qed.

Lemma split_join p name : p <> [] -> is_absolute name = false -> exists ss, split (join p name) = ss ++ split name.
Proof.
  intros Hp Hn. unfold join. rewrite Hn, (bool_decide_false (p = [])) by done. simpl.
  destruct (bool_decide_reflect (last p = Some slash)) as [Hl|_].
  - apply last_Some in Hl as [p' ->]. rewrite <- app_assoc. simpl. rewrite split_slash. eauto.
  - exists (split p). by rewrite <- split_slash.
Qed.
Lemma ends_in_dot_join p name : p <> [] -> is_absolute name = false -> name <> [] -> ends_in_dot (join p name) = ends_in_dot name.
Proof.
  intros Hp Ha Hn. destruct (split_join p name Hp Ha) as [ss E]. unfold ends_in_dot. rewrite E, filter_app, last_app.
  destruct (last (filter _ (split name))) eqn:El; [done|]. exfalso. apply last_None in El.
  destruct name as [|b name]; [done|]. unfold is_absolute in Ha. simpl in Ha. apply bool_decide_eq_false in Ha. simpl in El.
  rewrite bool_decide_false in El by congruence. destruct (split_nonempty name) as (s1 & segs & E1). rewrite E1, filter_cons, decide_True in El; done.
Qed.
Lemma ends_in_dot_valid segs : segs <> [] -> Forall valid_seg segs -> ends_in_dot (name_of segs) = false.
Proof.
  intros Hne Hv. unfold ends_in_dot. rewrite split_name by done. destruct (last _) as [s|] eqn:E; [|done].
  apply last_Some in E as [l E]. assert (s ∈ filter (fun s => s <> []) segs) as Hs by (rewrite E; set_solver).
  apply list_elem_of_filter in Hs as [_ Hs]. rewrite Forall_forall in Hv. apply bool_decide_eq_false, (Hv s Hs).
Qed.

Lemma components_first p : p <> [] -> exists c seg segs, split p = seg :: segs /\
  components p = c ++ concat (map seg_comp segs) /\
  forall q segs', is_absolute (p ++ q) = is_absolute p -> split (p ++ q) = seg :: segs' ->
    components (p ++ q) = c ++ concat (map seg_comp segs').
Proof.
  intros Hp. destruct (split_nonempty p) as (seg & segs & E).
  exists (if is_absolute p then RootDir :: seg_comp seg
          else if bool_decide (seg = [dot]) then [CurDir] else seg_comp seg), seg, segs.
  unfold components. rewrite E. split; [done|]. split; [by destruct (is_absolute p)|].
  intros q segs' -> ->. by destruct (is_absolute p).
Qed.

Lemma components_join p name : p <> [] -> is_absolute name = false ->
  components (join p name) = components p ++ concat (map seg_comp (split name)).
Proof.
  intros Hp Hn. destruct (components_first p Hp) as (c & seg & segs & E & Ec & Ej).
  assert (forall q, is_absolute (p ++ q) = is_absolute p) as Ha by (by destruct p).
  unfold join. rewrite Hn, (bool_decide_false (p = [])) by done. simpl.
  destruct (bool_decide_reflect (last p = Some slash)) as [Hl|_].
  - assert (exists p', p = p' ++ [slash]) as [p' ->].
    { apply last_Some in Hl. done. }
    pose proof (split_slash p' []) as E'. rewrite E in E'. pose proof (split_slash p' name) as E2.
    destruct (split_nonempty p') as (s1 & ss & E3). rewrite E3 in E', E2. simpl in E'.
    injection E' as <- ->.
    rewrite (Ej name (ss ++ split name)), Ec, map_app, map_app, !concat_app.
    + simpl. unfold seg_comp at 2. simpl. by rewrite app_nil_r, app_assoc.
    + apply Ha.
    + by rewrite <- app_assoc.
  - rewrite (Ej (slash :: name) (segs ++ split name)), Ec, map_app, concat_app, app_assoc; [done|apply Ha|].
    by rewrite split_slash, E.
Qed.

Lemma components_under base segs : base <> [] -> segs <> [] -> Forall valid_seg segs ->
  components (join base (name_of segs)) = components base ++ map Normal segs.
Proof.
  intros Hb Hs Hv. rewrite components_join by (done || by apply name_relative). by rewrite name_comps.
Qed.

Lemma join_suffix base segs s ext : Forall valid_seg (segs ++ [s]) ->
  join base (name_of (segs ++ [s])) ++ ext = join base (name_of (segs ++ [s ++ ext])).
Proof.
  intros Hv. pose proof (name_relative _ Hv) as Hr.
  assert (name_of (segs ++ [s]) ++ ext = name_of (segs ++ [s ++ ext])) as E.
  { destruct segs as [|s0 segs]; simpl; [by rewrite !app_nil_r|].
    rewrite !map_app, !concat_app. simpl. by rewrite !app_nil_r, <- !app_assoc. }
  assert (is_absolute (name_of (segs ++ [s ++ ext])) = false) as Hr'.
  { rewrite <- E. apply bool_decide_eq_false. apply bool_decide_eq_false in Hr.
    assert (name_of (segs ++ [s]) <> []) as Hne.
    { destruct segs as [|s0 segs]; inversion Hv as [|?? (H & _) _]; subst; simpl; [by destruct s|by destruct s0]. }
    by destruct (name_of (segs ++ [s])). }
  unfold join. rewrite Hr, Hr', <- E. by destruct (_ || _); rewrite <- !app_assoc.
Qed.
