(* ===== verification/FileTransfer.v ===== *)
(** * File transfer jobs ([libs/hbb_common/src/fs.rs])

    A transfer is a pair of [TransferJob]s: a reading one that cuts files into
    blocks ([handle_read_jobs]) and a writing one that stores them, first as
    [name.download], renamed when the next file starts or the job is done.
    [handle_fs] is the part of the connection manager
    ([src/ui_cm_interface.rs]) that drives writing jobs.  Paths are UTF-8
    strings.  zstd is an interface; serialising a digest is a parameter; a
    block is read in one step (a regular file is only short at its end). *)
From S2P Require Import Prelude.
From S2P Require Import Encoding.
From S2P Require Import FileSystem.

Record FileEntry := mkFileEntry { name : bytes; size : Z; modified_time : Z }.

Inductive JobType := Generic | Printer.
Inductive DataSource := FilePath (p : bytes) | MemoryCursor (data : bytes).
Inductive DataStream := FileStream (h : Handle) | BufStream (data : bytes) (pos : Z).
Record FileDigest := mkFileDigest { d_size : Z; d_modified : Z }.

#[export] Instance JobType_eq_dec : EqDecision JobType.
Proof. solve_decision. Defined.

Record TransferJob := mkJob {
  id : Z;
  type : JobType;
  data_source : DataSource;
  is_last_job : bool;
  is_resume : bool;
  enable_overwrite_detection : bool;
  default_overwrite_strategy : option bool;
  files : list FileEntry;
  total_size : Z;
  digest : FileDigest;
  file_num : Z;
  data_stream : option DataStream;
  finished_size : Z;
  transferred : Z;
  file_confirmed : bool;
  file_skipped : bool;
  file_is_waiting : bool
}.

Definition with_files (j : TransferJob) fs total : TransferJob :=
  mkJob (id j) (type j) (data_source j) (is_last_job j) (is_resume j) (enable_overwrite_detection j)
    (default_overwrite_strategy j) fs total (digest j) (file_num j) (data_stream j) (finished_size j)
    (transferred j) (file_confirmed j) (file_skipped j) (file_is_waiting j).
Definition with_digest (j : TransferJob) d : TransferJob :=
  mkJob (id j) (type j) (data_source j) (is_last_job j) (is_resume j) (enable_overwrite_detection j)
    (default_overwrite_strategy j) (files j) (total_size j) d (file_num j) (data_stream j) (finished_size j)
    (transferred j) (file_confirmed j) (file_skipped j) (file_is_waiting j).
Definition with_source (j : TransferJob) src : TransferJob :=
  mkJob (id j) (type j) src (is_last_job j) (is_resume j) (enable_overwrite_detection j)
    (default_overwrite_strategy j) (files j) (total_size j) (digest j) (file_num j) (data_stream j)
    (finished_size j) (transferred j) (file_confirmed j) (file_skipped j) (file_is_waiting j).
Definition with_pos (j : TransferJob) n st : TransferJob :=
  mkJob (id j) (type j) (data_source j) (is_last_job j) (is_resume j) (enable_overwrite_detection j)
    (default_overwrite_strategy j) (files j) (total_size j) (digest j) n st (finished_size j)
    (transferred j) (file_confirmed j) (file_skipped j) (file_is_waiting j).
Definition with_sizes (j : TransferJob) f t : TransferJob :=
  mkJob (id j) (type j) (data_source j) (is_last_job j) (is_resume j) (enable_overwrite_detection j)
    (default_overwrite_strategy j) (files j) (total_size j) (digest j) (file_num j) (data_stream j) f t
    (file_confirmed j) (file_skipped j) (file_is_waiting j).
Definition with_flags (j : TransferJob) confirmed skipped waiting : TransferJob :=
  mkJob (id j) (type j) (data_source j) (is_last_job j) (is_resume j) (enable_overwrite_detection j)
    (default_overwrite_strategy j) (files j) (total_size j) (digest j) (file_num j) (data_stream j)
    (finished_size j) (transferred j) confirmed skipped waiting.
Definition with_stream (j : TransferJob) st : TransferJob := with_pos j (file_num j) st.

(** [file_num as usize] as an index: a negative number is far out of range. *)
Definition file_at (l : list FileEntry) (n : Z) : option FileEntry :=
  if 0 <=? n then l !! Z.to_nat n else None.

Inductive Error :=
| NullBytes | Traversal | AbsolutePath | EmptyName | SymlinkComponent | ValidateFailed | InvalidComponent
| WrongId | WrongFileNumber | StreamNone | NoDigest | Skipped | BeforeEpoch | Io (e : IoError).

(** ** Names *)
Definition get_ext (name : bytes) : bytes :=
  match list_find (fun b => b = dot) (rev name) with
  | Some (i, _) => dropZ (len name - Z.of_nat i) name
  | None => []
  end.
Definition compressed_exts : list bytes :=
  map str ["xz"; "gz"; "zip"; "7z"; "rar"; "bz2"; "tgz"; "png"; "jpg"]%string.
Definition is_compressed_file (name : bytes) : bool := bool_decide (get_ext name ∈ compressed_exts).

Definition validate_file_name_no_traversal (name : bytes) : result unit Error :=
  if bool_decide (Byte.x00 ∈ name) then Err NullBytes
  else if existsb (fun s => bool_decide (s = [dot; dot])) (split name) then Err Traversal
  else if is_absolute name then Err AbsolutePath
  else Ok tt.

Fixpoint validate_each (fs : list FileEntry) : result unit Error :=
  match fs with
  | [] => Ok tt
  | file :: fs =>
      if bool_decide (name file = []) then Err EmptyName
      else let? _ := validate_file_name_no_traversal (name file) in validate_each fs
  end.
Definition validate_transfer_file_names (fs : list FileEntry) : result unit Error :=
  match fs with
  | [f] => if bool_decide (name f = []) then Ok tt else validate_each fs
  | _ => validate_each fs
  end.

Definition validate_fs_path_argument (path : bytes) : result unit Error :=
  if bool_decide (path = []) then Err EmptyName
  else if bool_decide (Byte.x00 ∈ path) then Err NullBytes
  else Ok tt.

Fixpoint no_symlinks (fs : Fs) (current cs : list Comp) : result unit Error :=
  match cs with
  | [] => Ok tt
  | Normal seg :: cs =>
      let current := current ++ [Normal seg] in
      match symlink_metadata fs current with
      | Ok true => Err SymlinkComponent
      | Ok false | Err NotFound => no_symlinks fs current cs
      | Err _ => Err ValidateFailed
      end
  | CurDir :: cs => no_symlinks fs current cs
  | _ => Err InvalidComponent
  end.
Definition validate_no_symlink_components (fs : Fs) (base name : bytes) : result unit Error :=
  if bool_decide (name = []) then Ok tt else no_symlinks fs (components base) (components name).

(** [TransferJob::join] *)
Definition join_name (p name : bytes) : bytes := if bool_decide (name = []) then p else join p name.

Definition join_validated_path (fs : Fs) (base name : bytes) : result bytes Error :=
  let? _ := validate_file_name_no_traversal name in
  let? _ := validate_no_symlink_components fs base name in
  Ok (join_name base name).

Fixpoint validate_all (fs : Fs) (base : bytes) (l : list FileEntry) : result unit Error :=
  match l with
  | [] => Ok tt
  | f :: l => let? _ := validate_no_symlink_components fs base (name f) in validate_all fs base l
  end.

Definition set_files (fs : Fs) (j : TransferJob) (l : list FileEntry) : result TransferJob Error :=
  let? _ := validate_transfer_file_names l in
  let? _ := match data_source j with FilePath base => validate_all fs base l | _ => Ok tt end in
  Ok (with_files j l (u64_of (foldr Z.add 0 (map size l)))).

Definition new_write (jid : Z) (t : JobType) (src : DataSource) (num : Z) (detection : bool) : TransferJob :=
  mkJob jid t src false false detection None [] 0 (mkFileDigest 0 0) num None 0 0 false false false.

(** [new_read] with the files that the directory walk found. *)
Definition new_read (jid : Z) (t : JobType) (src : DataSource) (l : list FileEntry) (num : Z) (detection : bool)
  : TransferJob :=
  match src with
  | FilePath _ => mkJob jid t src false false detection None l (u64_of (foldr Z.add 0 (map size l)))
                    (mkFileDigest 0 0) num None 0 0 false false false
  | MemoryCursor c => mkJob jid t src false false detection None [] (len c)
                    (mkFileDigest 0 0) num None 0 0 false false false
  end.

Definition set_finished_size_on_resume (j : TransferJob) : TransferJob :=
  if is_resume j && (0 <? file_num j) then
    with_sizes j (u64_of (foldr Z.add 0 (map size (takeZ (file_num j) (files j))))) (transferred j)
  else j.

Definition download_of (path : bytes) : bytes := path ++ str ".download".
Definition digest_of (path : bytes) : bytes := path ++ str ".digest".

(** ** Messages *)
Record Block := mkBlock { b_id : Z; b_file_num : Z; data : bytes; compressed : bool }.
Record Digest := mkDigest {
  g_id : Z; g_file_num : Z; last_modified : Z; file_size : Z;
  g_is_upload : bool; g_is_identical : bool; transferred_size : Z; g_is_resume : bool }.
Inductive Answer := Skip (s : bool) | OffsetBlk (offset : Z).
Record Confirm := mkConfirm { c_id : Z; c_file_num : Z; c_union : option Answer }.

Inductive Msg :=
| MDigest (d : Digest)
| MBlock (b : Block)
| MError (jid num : Z) (e : Error)
| MDone (jid num : Z)
| MConfirm (c : Confirm).

Section Jobs.
Context {Z_ : Zstd} (show_digest : FileDigest -> bytes) (parse_digest : bytes -> option FileDigest).

(** ** Writing *)
Definition resolve_entry_path (fs : Fs) (j : TransferJob) (base name : bytes) : option bytes :=
  match type j with
  | Generic => match join_validated_path fs base name with Ok path => Some path | Err _ => None end
  | Printer => Some (join_name base name)
  end.

(** The path of the current entry, for a job that stores files. *)
Definition entry_path (fs : Fs) (j : TransferJob) : option (FileEntry * bytes) :=
  match type j, data_source j with
  | Generic, FilePath p =>
      match file_at (files j) (file_num j) with
      | Some entry => match resolve_entry_path fs j p (name entry) with
                      | Some path => Some (entry, path)
                      | None => None
                      end
      | None => None
      end
  | _, _ => None
  end.

Definition modify_time (fs : Fs) (j : TransferJob) : Fs :=
  match entry_path fs j with
  | Some (entry, path) =>
      let fs := (remove_file fs (components (digest_of path))).1 in
      let fs := if ends_in_dot path then fs else (rename fs (components (download_of path)) (components path)).1 in
      set_file_mtime fs (components path) (i64_of (modified_time entry))
  | None => fs
  end.

Definition remove_download_file (fs : Fs) (j : TransferJob) : Fs :=
  match entry_path fs j with
  | Some (_, path) =>
      let fs := (remove_file fs (components (download_of path))).1 in
      (remove_file fs (components (digest_of path))).1
  | None => fs
  end.

(** The files of a block's entry: what is written to, and its digest. *)
Definition target_paths (fs : Fs) (j : TransferJob) (p : bytes) (entry : FileEntry)
  : Fs * result (bytes * option bytes) Error :=
  match type j with
  | Printer => (fs, Ok (p, None))
  | Generic =>
      match join_validated_path fs p (name entry) with
      | Err e => (fs, Err e)
      | Ok path =>
          let fs := match parent (components path) with
                    | Some pp => (create_dir_all fs pp).1
                    | None => fs
                    end in
          (fs, Ok (download_of path, Some (digest_of path)))
      end
  end.

Definition drop_digest (fs : Fs) (dp : option bytes) : Fs * result unit Error :=
  match dp with
  | Some dp =>
      if exists_ fs (components dp) then
        match remove_file fs (components dp) with
        | (fs, Ok tt) => (fs, Ok tt)
        | (fs, Err e) => (fs, Err (Io e))
        end
      else (fs, Ok tt)
  | None => (fs, Ok tt)
  end.

(** Starting the file of a block. *)
Definition open_target (fs : Fs) (j : TransferJob) (p : bytes) (entry : FileEntry)
  : Fs * TransferJob * result unit Error :=
  match target_paths fs j p entry with
  | (fs, Err e) => (fs, j, Err e)
  | (fs, Ok (path, dp)) =>
      match drop_digest fs dp with
      | (fs, Err e) => (fs, j, Err e)
      | (fs, Ok tt) =>
          match create fs (components path) with
          | (fs, Err e) => (fs, j, Err (Io e))
          | (fs, Ok h) =>
              (match dp with Some dp => write_file fs (components dp) (show_digest (digest j)) | None => fs end,
               with_stream j (Some (FileStream h)), Ok tt)
          end
      end
  end.

Definition select_file (fs : Fs) (j : TransferJob) (b : Block) : Fs * TransferJob * result unit Error :=
  match data_source j with
  | FilePath p =>
      match file_at (files j) (b_file_num b) with
      | None => (fs, j, Err WrongFileNumber)
      | Some entry =>
          if negb (b_file_num b =? file_num j) || match data_stream j with None => true | _ => false end then
            let fs := modify_time fs j in
            open_target fs (with_pos j (b_file_num b) (data_stream j)) p entry
          else (fs, j, Ok tt)
      end
  | MemoryCursor c =>
      (fs, match data_stream j with None => with_stream j (Some (BufStream c 0)) | _ => j end, Ok tt)
  end.

Definition put (fs : Fs) (j : TransferJob) (d : bytes) : Fs * TransferJob * result unit Error :=
  match data_stream j with
  | None => (fs, j, Err StreamNone)
  | Some (FileStream h) =>
      match write_all fs h d with
      | (fs, h, Ok tt) => (fs, with_stream j (Some (FileStream h)), Ok tt)
      | (fs, h, Err e) => (fs, with_stream j (Some (FileStream h)), Err (Io e))
      end
  | Some (BufStream old pos) =>
      (fs, with_stream j (Some (BufStream (splice old pos d) (pos + len d))), Ok tt)
  end.

Definition write (fs : Fs) (j : TransferJob) (b : Block) : Fs * TransferJob * result unit Error :=
  if negb (b_id b =? id j) then (fs, j, Err WrongId)
  else
    match select_file fs j b with
    | (fs, j, Err e) => (fs, j, Err e)
    | (fs, j, Ok tt) =>
        let d := if compressed b then decompress (data b) else data b in
        match put fs j d with
        | (fs, j, Err e) => (fs, j, Err e)
        | (fs, j, Ok tt) =>
            (fs, with_sizes j (u64_of (finished_size j + len d)) (u64_of (transferred j + len (data b))), Ok tt)
        end
    end.

(** ** Reading *)
Definition next_file (j : TransferJob) (st : option DataStream) : TransferJob :=
  with_flags (with_pos j (i32_of (file_num j + 1)) st) false (file_skipped j) false.

(** True when the job is done. *)
Definition open_data_stream (fs : Fs) (j : TransferJob) : TransferJob * result bool Error :=
  match data_source j with
  | FilePath p =>
      match file_at (files j) (file_num j) with
      | None => (with_stream j None, Ok true)
      | Some f =>
          match data_stream j with
          | Some _ => (j, Ok false)
          | None =>
              match open_read fs (components (join_name p (name f))) with
              | Ok h => (with_flags (with_stream j (Some (FileStream h))) false (file_skipped j) false, Ok false)
              | Err e => (next_file j None, Err (Io e))
              end
          end
      end
  | MemoryCursor c =>
      match data_stream j with
      | None => (with_source (with_stream j (Some (BufStream c 0))) (MemoryCursor []), Ok false)
      | Some _ => (j, Ok false)
      end
  end.

(** Modification time (in seconds; a directory's is not modelled) and length. *)
Definition get_current_digest (fs : Fs) (j : TransferJob) : result (Z * Z) Error :=
  match data_stream j with
  | None => Err StreamNone
  | Some (BufStream _ _) => Err NoDigest
  | Some (FileStream h) =>
      match h_ino h with
      | Some i => match inodes fs !! i with
                  | Some f => if mtime f <? 0 then Err BeforeEpoch else Ok (mtime f, len (content f))
                  | None => Err (Io NotFound)
                  end
      | None => Ok (0, 0)
      end
  end.

Definition detecting (j : TransferJob) : bool :=
  match type j with Generic => true | Printer => false end
  && enable_overwrite_detection j && negb (file_confirmed j) && negb (file_is_waiting j).

Definition init_data_stream (fs : Fs) (j : TransferJob) : TransferJob * result (list Msg) Error :=
  match open_data_stream fs j with
  | (j, Err e) => (j, Err e)
  | (j, Ok true) => (j, Ok [])
  | (j, Ok false) =>
      if detecting j then
        match get_current_digest fs j with
        | Err e => (j, Err e)
        | Ok (lm, sz) =>
            (with_flags j (file_confirmed j) (file_skipped j) true,
             Ok [MDigest (mkDigest (id j) (file_num j) lm sz false false 0 (is_resume j))])
        end
      else (j, Ok [])
  end.

Definition BUF_SIZE : Z := 128 * 1024.

Definition read_stream (fs : Fs) (st : DataStream) : DataStream * result bytes Error :=
  match st with
  | FileStream h => match read_at fs h BUF_SIZE with
                    | (h, Ok d) => (FileStream h, Ok d)
                    | (h, Err e) => (FileStream h, Err (Io e))
                    end
  | BufStream d pos => let r := takeZ BUF_SIZE (dropZ pos d) in (BufStream d (pos + len r), Ok r)
  end.

(** The name that decides about compression: for a single file without a name
    its path's last component. *)
Definition file_name (p : bytes) : bytes :=
  match last (components p) with Some (Normal s) => s | _ => [] end.

Definition read (fs : Fs) (j : TransferJob) : TransferJob * result (option Block) Error :=
  if match type j with Generic => true | _ => false end
     && enable_overwrite_detection j && negb (file_confirmed j) then (j, Ok None)
  else
    let from_file := match data_source j with FilePath _ => true | _ => false end in
    let name' :=
      match data_source j with
      | FilePath p =>
          match file_at (files j) (file_num j) with
          | None => None
          | Some f => Some (if bool_decide (len (files j) = 1) && bool_decide (name f = [])
                            then file_name p else name f)
          end
      | MemoryCursor _ => Some []
      end in
    match name' with
    | None => (with_stream j None, Ok None)
    | Some nm =>
        match data_stream j with
        | None => (j, Err StreamNone)
        | Some st =>
            match read_stream fs st with
            | (_, Err e) => (next_file j None, Err e)
            | (st, Ok buf) =>
                if bool_decide (buf = []) then
                  if from_file then
                    (next_file j None, Ok (Some (mkBlock (id j) (file_num j) [] false)))
                  else (with_stream j None, Ok None)
                else
                  let tmp := compress buf in
                  let small := from_file && negb (is_compressed_file nm) && (len tmp <? len buf) in
                  let out := if small then tmp else buf in
                  (with_sizes (with_stream j (Some st)) (u64_of (finished_size j + len buf))
                     (u64_of (transferred j + len out)),
                   Ok (Some (mkBlock (id j) (file_num j) out small)))
            end
        end
    end.

Definition job_skipped (j : TransferJob) : bool := file_skipped j && bool_decide (len (files j) = 1).
Definition job_completed (j : TransferJob) : bool :=
  negb (enable_overwrite_detection j) || (negb (file_confirmed j) && negb (file_is_waiting j)).
Definition job_error (j : TransferJob) : option Error := if job_skipped j then Some Skipped else None.

(** ** Confirmation *)
Definition set_file_confirmed (j : TransferJob) (c : bool) : TransferJob :=
  with_flags j c false (file_is_waiting j).
Definition set_file_skipped (j : TransferJob) : TransferJob :=
  with_flags (with_pos j (i32_of (file_num j + 1)) None) false true false.

Definition open_write (fs : Fs) (cs : list Comp) : option Handle :=
  match stat fs cs with Some (NFile i) => Some (mkHandle (Some i) 0) | _ => None end.

(** [None] is the panic of indexing the files out of range. *)
Definition set_stream_offset (fs : Fs) (j : TransferJob) (num offset : Z) : option TransferJob :=
  match data_source j with
  | FilePath p =>
      match file_at (files j) num with
      | None => None
      | Some entry => Some
          match resolve_entry_path fs j p (name entry) with
          | None => j
          | Some path =>
              let h :=
                if exists_ fs (components (download_of path)) && exists_ fs (components (digest_of path))
                then open_write fs (components (download_of path))
                else if exists_ fs (components path) then
                  match open_read fs (components path) with Ok h => Some h | Err _ => None end
                else None in
              match h with
              | Some h =>
                  with_sizes (with_stream j (Some (FileStream (mkHandle (h_ino h) offset))))
                    (u64_of (finished_size j + offset)) (u64_of (transferred j + offset))
              | None => j
              end
          end
      end
  | MemoryCursor _ => Some j
  end.

Definition confirm (fs : Fs) (j : TransferJob) (r : Confirm) : option TransferJob :=
  if negb (file_num j =? c_file_num r) then Some j
  else
    match c_union r with
    | Some (Skip s) => Some (if s then set_file_skipped j else set_file_confirmed j true)
    | Some (OffsetBlk offset) =>
        let j := set_file_confirmed j true in
        if 0 <? offset then set_stream_offset fs j (c_file_num r) offset else Some j
    | None => Some j
    end.

(** ** Job lists *)
Definition get_job (jid : Z) (jobs : list TransferJob) : option TransferJob :=
  List.find (fun j => id j =? jid) jobs.
Fixpoint update_job (jid : Z) (j' : TransferJob) (jobs : list TransferJob) : list TransferJob :=
  match jobs with
  | [] => []
  | j :: jobs => if id j =? jid then j' :: jobs else j :: update_job jid j' jobs
  end.
Fixpoint remove_job (jid : Z) (jobs : list TransferJob) : option TransferJob * list TransferJob :=
  match jobs with
  | [] => (None, [])
  | j :: jobs =>
      if id j =? jid then (Some j, jobs)
      else let '(r, jobs) := remove_job jid jobs in (r, j :: jobs)
  end.

Fixpoint init_jobs (fs : Fs) (jobs : list TransferJob) : list TransferJob * list Msg :=
  match jobs with
  | [] => ([], [])
  | j :: jobs =>
      let '(j, out) :=
        if is_last_job j then (j, [])
        else match init_data_stream fs j with
             | (j, Ok out) => (j, out)
             | (j, Err e) => (j, [MError (id j) (file_num j) e])
             end in
      let '(jobs, out') := init_jobs fs jobs in (j :: jobs, out ++ out')
  end.

(** One turn of the first job that is not a record of an earlier session; the
    id of a finished job. *)
Fixpoint read_first (fs : Fs) (jobs : list TransferJob) : list TransferJob * list Msg * option Z :=
  match jobs with
  | [] => ([], [], None)
  | j :: jobs =>
      if is_last_job j then
        let '(jobs, out, fin) := read_first fs jobs in (j :: jobs, out, fin)
      else
        match read fs j with
        | (j, Err e) => (j :: jobs, [MError (id j) (file_num j) e], None)
        | (j, Ok (Some b)) => (j :: jobs, [MBlock b], None)
        | (j, Ok None) =>
            if job_completed j then
              (j :: jobs, [match job_error j with
                           | Some e => MError (id j) (file_num j) e
                           | None => MDone (id j) (file_num j)
                           end], Some (id j))
            else (j :: jobs, [], None)
        end
  end.

Definition handle_read_jobs (fs : Fs) (jobs : list TransferJob) : list TransferJob * list Msg :=
  let '(jobs, out) := init_jobs fs jobs in
  let '(jobs, out', fin) := read_first fs jobs in
  (match fin with Some jid => (remove_job jid jobs).2 | None => jobs end, out ++ out').

(** ** Does a file need confirmation? *)
Inductive DigestCheckResult := IsSame | NeedConfirm (d : Digest) | NoSuchFile.

Definition resumable (fs : Fs) (path : bytes) (d : Digest) : option Z :=
  if exists_ fs (components (digest_of path)) && exists_ fs (components (download_of path)) then
    match file_of fs (components (digest_of path)) with
    | Some f =>
        match parse_digest (content f) with
        | Some l =>
            if (d_modified l =? last_modified d) && (d_size l =? file_size d) then
              match file_of fs (components (download_of path)) with
              | Some g => if 0 <? len (content g) then Some (len (content g)) else None
              | None => None
              end
            else None
        | None => None
        end
    | None => None
    end
  else None.

Definition is_write_need_confirmation (fs : Fs) (resume : bool) (path : bytes) (d : Digest)
  : result DigestCheckResult Error :=
  match if resume then resumable fs path d else None with
  | Some n => Ok (NeedConfirm (mkDigest (g_id d) (g_file_num d) (last_modified d) (file_size d) false true n false))
  | None =>
      match file_of fs (components path) with
      | Some f =>
          if mtime f <? 0 then Err BeforeEpoch
          else Ok (NeedConfirm (mkDigest (g_id d) (g_file_num d) (mtime f) (len (content f)) false
                 ((last_modified d =? mtime f) && (file_size d =? len (content f))) 0 false))
      | None => Ok NoSuchFile
      end
  end.

(** ** The connection manager's writing jobs ([handle_fs])

    [None] is a panic, which aborts the process. *)
Inductive FsCmd :=
| NewWrite (path : bytes) (jid num : Z) (entries : list (bytes * Z)) (detection : bool) (total : Z)
| CancelWrite (jid : Z)
| WriteDone (jid num : Z)
| WriteError (jid num : Z) (e : Error)
| WriteBlock (b : Block)
| CheckDigest (jid num fsize lm : Z) (is_upload resume : bool)
| SendConfirm (c : Confirm).

Definition handle_fs (fs : Fs) (jobs : list TransferJob) (cmd : FsCmd) : option (Fs * list TransferJob * list Msg) :=
  match cmd with
  | NewWrite path jid num entries detection total =>
      let job := new_write jid Generic (FilePath path) num detection in
      match set_files fs job (map (fun e => mkFileEntry e.1 0 e.2) entries) with
      | Err e => Some (fs, jobs, [MError jid num e])
      | Ok job => Some (fs, jobs ++ [with_files job (files job) total], [])
      end
  | CancelWrite jid =>
      match remove_job jid jobs with
      | (Some j, jobs) => Some (remove_download_file fs j, jobs, [])
      | (None, jobs) => Some (fs, jobs, [])
      end
  | WriteDone jid num =>
      match remove_job jid jobs with
      | (Some j, jobs) => Some (modify_time fs j, jobs, [MDone jid num])
      | (None, jobs) => Some (fs, jobs, [])
      end
  | WriteError jid num e =>
      match remove_job jid jobs with
      | (Some j, jobs) => Some (fs, jobs, [MError (id j) num e])
      | (None, jobs) => Some (fs, jobs, [])
      end
  | WriteBlock b =>
      match get_job (b_id b) jobs with
      | Some j =>
          let '(fs, j, r) := write fs j b in
          Some (fs, update_job (b_id b) j jobs, match r with Ok _ => [] | Err e => [MError (b_id b) (b_file_num b) e] end)
      | None => Some (fs, jobs, [])
      end
  | CheckDigest jid num fsize lm is_upload resume =>
      match get_job jid jobs with
      | Some j =>
          match file_at (files j) num, data_source j with
          | Some f, FilePath p =>
              match is_write_need_confirmation fs resume (join_name p (name f))
                      (mkDigest jid num lm fsize false false 0 false) with
              | Err e => Some (fs, jobs, [MError jid num e])
              | Ok r =>
                  Some (fs, update_job jid (with_digest j (mkFileDigest fsize lm)) jobs,
                   match r with
                   | IsSame => [MConfirm (mkConfirm jid num (Some (Skip true)))]
                   | NeedConfirm d =>
                       [MDigest (mkDigest (g_id d) (g_file_num d) (last_modified d) (file_size d) is_upload
                                   (g_is_identical d) (transferred_size d) (g_is_resume d))]
                   | NoSuchFile => [MConfirm (mkConfirm jid num (Some (OffsetBlk 0)))]
                   end)
              end
          | _, _ => Some (fs, jobs, [])
          end
      | None => Some (fs, jobs, [])
      end
  | SendConfirm c =>
      match get_job (c_id c) jobs with
      | Some j =>
          match confirm fs j c with
          | Some j => Some (fs, update_job (c_id c) j jobs, [])
          | None => None
          end
      | None => Some (fs, jobs, [])
      end
  end.

(** What the connection ([src/server/connection.rs]) passes on. *)
Definition command_of (m : Msg) : option FsCmd :=
  match m with
  | MBlock b => Some (WriteBlock b)
  | MDone jid num => Some (WriteDone jid num)
  | MDigest d => Some (CheckDigest (g_id d) (g_file_num d) (file_size d) (last_modified d) true (g_is_resume d))
  | MError jid num e => Some (WriteError jid num e)
  | MConfirm _ => None
  end.

(** ** A transfer

    The viewer reads ([jobs]), the device's connection manager writes; messages
    arrive in order, and answers reach the reading jobs before their next
    turn. *)
Definition answer (fs : Fs) (jobs : list TransferJob) (m : Msg) : option (list TransferJob) :=
  match m with
  | MConfirm c =>
      match get_job (c_id c) jobs with
      | Some j =>
          match confirm fs j c with
          | Some j => Some (update_job (c_id c) j jobs)
          | None => None
          end
      | None => Some jobs
      end
  | _ => Some jobs
  end.
Fixpoint answers (fs : Fs) (jobs : list TransferJob) (ms : list Msg) : option (list TransferJob) :=
  match ms with
  | [] => Some jobs
  | m :: ms => match answer fs jobs m with Some jobs => answers fs jobs ms | None => None end
  end.

(** The reading jobs, the device's files, the writing jobs. *)
Record World := mkWorld { reading : list TransferJob; remote : Fs; writing : list TransferJob }.

Fixpoint deliver (fs : Fs) (w : World) (ms : list Msg) : option World :=
  match ms with
  | [] => Some w
  | m :: ms =>
      match command_of m with
      | None => deliver fs w ms
      | Some cmd =>
          match handle_fs (remote w) (writing w) cmd with
          | None => None
          | Some (rfs, jobs, replies) =>
              match answers fs (reading w) replies with
              | None => None
              | Some rjobs => deliver fs (mkWorld rjobs rfs jobs) ms
              end
          end
      end
  end.

Definition turn (fs : Fs) (w : World) : option World :=
  let '(jobs, out) := handle_read_jobs fs (reading w) in
  deliver fs (mkWorld jobs (remote w) (writing w)) out.

Fixpoint turns (n : nat) (fs : Fs) (w : World) : option World :=
  match n with
  | O => Some w
  | S n => match turn fs w with Some w => turns n fs w | None => None end
  end.

(** ** Valid names pass the checks *)
Definition no_nul (s : bytes) : Prop := Byte.x00 ∉ s.
Definition good_path (segs : list bytes) : Prop := segs <> [] /\ Forall valid_seg segs /\ Forall no_nul segs.

Lemma name_of_no_nul segs : Forall no_nul segs -> no_nul (name_of segs).
Proof.
  destruct 1 as [|s segs Hs Hf]; unfold no_nul in *; simpl; [apply not_elem_of_nil|].
  rewrite not_elem_of_app. split; [done|]. induction Hf as [|s' segs Hs' Hf IH]; simpl; [apply not_elem_of_nil|].
  rewrite not_elem_of_cons, not_elem_of_app. done.
Qed.

Lemma name_not_empty segs : good_path segs -> name_of segs <> [].
Proof.
  intros (Hne & Hv & _). destruct Hv as [|s segs (H & _) _]; [done|]. simpl. by destruct s.
Qed.

Lemma good_name_valid segs : good_path segs -> validate_file_name_no_traversal (name_of segs) = Ok tt.
Proof.
  intros (Hne & Hv & Hn). unfold validate_file_name_no_traversal.
  rewrite bool_decide_false by by apply name_of_no_nul. rewrite split_name, name_relative by done.
  assert (existsb (fun s => bool_decide (s = [dot; dot])) segs = false) as ->; [|done].
  apply not_true_iff_false. intros (s & Hs & E)%existsb_exists. apply bool_decide_eq_true in E as ->.
  rewrite Forall_forall in Hv. destruct (Hv [dot; dot]) as (_ & _ & ? & _); [by apply list_elem_of_In|done].
Qed.

Lemma good_components base segs : base <> [] -> good_path segs ->
  components (join_name base (name_of segs)) = components base ++ map Normal segs.
Proof.
  intros Hb Hg. pose proof (name_not_empty _ Hg). destruct Hg as (? & ? & _). unfold join_name.
  rewrite bool_decide_false by done. by apply components_under.
Qed.

Lemma name_components segs : good_path segs -> components (name_of segs) = map Normal segs.
Proof.
  intros (Hne & Hv & _). unfold components. rewrite name_relative by done. rewrite split_name by done.
  destruct Hv as [|s segs Hs Hv]; [done|]. pose proof Hs as (_ & H & _).
  rewrite bool_decide_false by done. rewrite seg_comp_valid by done. simpl. f_equal.
  clear -Hv. induction Hv as [|s' segs Hs' Hv IH]; simpl; [done|]. by rewrite seg_comp_valid, IH.
Qed.

(** Every name on the way is a directory or free, the last may be a file. *)
Definition clear_path (fs : Fs) (p segs : list bytes) : Prop :=
  forall k, (0 < k <= length segs)%nat ->
    node_at fs (p ++ take k segs) = None \/ node_at fs (p ++ take k segs) = Some NDir \/
    (k = length segs /\ exists i, node_at fs (p ++ take k segs) = Some (NFile i)).

Lemma clear_tail fs p s segs : clear_path fs p (s :: segs) -> segs <> [] -> clear_path fs (p ++ [s]) segs.
Proof.
  intros H Hne k Hk. specialize (H (S k)). simpl in H. rewrite <- app_assoc. simpl.
  destruct H as [?|[?|[[= ?] ?]]]; [lia|..]; auto.
Qed.

(** A walk over clear names ends there or finds nothing. *)
Lemma resolve_clear fs n fl segs : forall p, clear_path fs p segs -> segs <> [] ->
  resolve n fs fl p (map Normal segs) = Ok (p ++ segs) \/ resolve n fs fl p (map Normal segs) = Err NotFound.
Proof.
  induction segs as [|s segs IH]; intros p Hc Hne; [done|]. simpl map. rewrite resolve_cons.
  assert (node_at fs (p ++ [s]) = None \/ node_at fs (p ++ [s]) = Some NDir \/
    (segs = [] /\ exists i, node_at fs (p ++ [s]) = Some (NFile i))) as Hs.
  { destruct (Hc 1%nat) as [H|[H|[H1 H]]]; [simpl; lia|..]; simpl in H; rewrite take_0 in H; auto.
    right. right. simpl in H1. split; [|done]. destruct segs; [done|simpl in H1; lia]. }
  destruct Hs as [E|[E|[-> [i E]]]]; rewrite E; [|clear E|by left].
  - destruct segs; [by left|by right].
  - destruct (decide (segs = [])) as [->|Hn]; [rewrite resolve_nil; by left|].
    replace (p ++ s :: segs) with ((p ++ [s]) ++ segs) by (by rewrite <- app_assoc).
    apply IH; [by apply clear_tail|done].
Qed.

Lemma locate_clear fs base pb segs : base_at fs base pb -> clear_path fs pb segs -> segs <> [] ->
  (locate fs (base ++ map Normal segs) = Ok (pb ++ segs) \/ locate fs (base ++ map Normal segs) = Err NotFound) /\
  (llocate fs (base ++ map Normal segs) = Ok (pb ++ segs) \/ llocate fs (base ++ map Normal segs) = Err NotFound).
Proof.
  intros [Hb Hd] Hc Hne. destruct (resolve_app _ _ _ _ _ Hb Hd) as [m Hm].
  destruct segs as [|s segs]; [done|]. unfold locate, llocate. simpl map. rewrite !Hm.
  split; by apply (resolve_clear _ _ _ (s :: segs)).
Qed.

Lemma clear_init fs p segs s rest : clear_path fs p (segs ++ s :: rest) -> clear_path fs p (segs ++ [s]).
Proof.
  intros H k Hk. rewrite length_app in Hk. simpl in Hk.
  assert (take k (segs ++ [s]) = take k (segs ++ s :: rest)) as ->.
  { rewrite !take_app. f_equal. destruct (k - length segs)%nat as [|[|?]] eqn:E; [done|done|lia]. }
  destruct (H k) as [?|[?|[Hl ?]]]; [rewrite length_app; simpl; lia|by left|by right; left|].
  right. right. split; [|done]. rewrite length_app in *. simpl in *. lia.
Qed.

Lemma no_symlinks_ok fs base pb todo : base_at fs base pb -> forall done_, clear_path fs pb (done_ ++ todo) ->
  no_symlinks fs (base ++ map Normal done_) (map Normal todo) = Ok tt.
Proof.
  intros Hb. induction todo as [|s todo IH]; intros done_ Hc; [done|]. simpl.
  rewrite <- app_assoc. replace (map Normal done_ ++ [Normal s]) with (map Normal (done_ ++ [s])) by by rewrite map_app.
  assert (no_symlinks fs (base ++ map Normal (done_ ++ [s])) (map Normal todo) = Ok tt) as Hr.
  { apply IH. by rewrite <- app_assoc. }
  pose proof (clear_init _ _ _ _ _ Hc) as Hc'. unfold symlink_metadata.
  destruct (proj2 (locate_clear fs base pb (done_ ++ [s]) Hb Hc' ltac:(by destruct done_))) as [-> | ->]; simpl; [|done].
  specialize (Hc' (length (done_ ++ [s]))). rewrite take_ge in Hc' by lia.
  destruct Hc' as [-> |[-> |[_ [i ->]]]]; [rewrite length_app; simpl; lia|done..].
Qed.

Lemma good_validated fs base pb segs : base <> [] -> base_at fs (components base) pb -> good_path segs ->
  clear_path fs pb segs -> join_validated_path fs base (name_of segs) = Ok (join_name base (name_of segs)).
Proof.
  intros Hb Hat Hg Hc. unfold join_validated_path. rewrite good_name_valid by done. simpl.
  unfold validate_no_symlink_components. pose proof (name_not_empty _ Hg).
  rewrite bool_decide_false by done. rewrite name_components by done.
  pose proof (no_symlinks_ok fs (components base) pb segs Hat [] Hc) as E.
  simpl map in E. rewrite app_nil_r in E. by rewrite E.
Qed.

(** The three files of an entry. *)
Definition suffixed (segs : list bytes) (ext : bytes) : list bytes :=
  match last segs with Some s => removelast segs ++ [s ++ ext] | None => [] end.

Lemma good_suffixed base segs ext : base <> [] -> good_path segs ->
  slash ∉ ext -> no_nul ext -> (2 < length ext)%nat ->
  good_path (suffixed segs ext) /\
  join_name base (name_of segs) ++ ext = join_name base (name_of (suffixed segs ext)) /\
  length (suffixed segs ext) = length segs /\ removelast (suffixed segs ext) = removelast segs.
Proof.
  intros Hb Hg He1 He2 He3. pose proof Hg as (Hne & Hv & Hn).
  destruct (exists_last Hne) as (ss & s & E). subst segs. unfold suffixed. rewrite last_snoc, !removelast_last.
  apply Forall_app in Hv as Hv'. apply Forall_app in Hn as Hn'. destruct Hv' as [Hv1 Hv2], Hn' as [Hn1 Hn2].
  inversion Hv2 as [|?? (S1 & S2 & S3 & S4) _]; inversion Hn2 as [|?? N1 _]; subst.
  assert (good_path (ss ++ [s ++ ext])) as Hg'.
  { split; [by destruct ss|]. split; apply Forall_app; (split; [done|]); constructor; try constructor.
    - intros E%(f_equal length). rewrite length_app in E. simpl in E. lia.
    - split; [intros E%(f_equal length); rewrite length_app in E; simpl in E; lia|].
      split; [intros E%(f_equal length); rewrite length_app in E; simpl in E; lia|].
      rewrite not_elem_of_app. done.
    - unfold no_nul in *. by rewrite not_elem_of_app. }
  split; [done|]. split; [|rewrite !length_app; done].
  unfold join_name. rewrite !bool_decide_false by by apply name_not_empty. by apply join_suffix.
Qed.

(** Operations on a name that is not there do nothing. *)
Lemma absent fs base pb segs : base_at fs base pb -> clear_path fs pb segs -> segs <> [] ->
  node_at fs (pb ++ segs) = None ->
  let cs := base ++ map Normal segs in
  stat fs cs = None /\ (remove_file fs cs).1 = fs /\ forall cb, (rename fs cs cb).1 = fs.
Proof.
  intros Hb Hc Hne Hn. cbv zeta. destruct (locate_clear fs base pb segs Hb Hc Hne) as [HL HF].
  split; [|split].
  - unfold stat. by destruct HL as [-> | ->].
  - unfold remove_file. by destruct HF as [-> | ->]; rewrite ?Hn.
  - intros cb. unfold rename. destruct HF as [-> | ->]; [|done]. destruct (llocate fs cb); [|done]. by rewrite Hn.
Qed.

Lemma suffixed_ne segs ext : segs <> [] -> ext <> [] -> suffixed segs ext <> segs.
Proof.
  intros Hne He. destruct (exists_last Hne) as (ss & s & ->). unfold suffixed. rewrite last_snoc, removelast_last.
  intros [_ E]%app_inj_tail. apply He. apply (f_equal length) in E. rewrite length_app in E.
  destruct ext; [done|]. simpl in E. lia.
Qed.

Lemma suffixed_inj segs e1 e2 : segs <> [] -> e1 <> e2 -> suffixed segs e1 <> suffixed segs e2.
Proof.
  intros Hne He. destruct (exists_last Hne) as (ss & s & ->). unfold suffixed. rewrite last_snoc, removelast_last.
  intros [_ E]%app_inj_tail. by apply app_inv_head in E.
Qed.

(** ** What a transfer stores *)
Record Item := mkItem { i_segs : list bytes; i_data : bytes; i_mtime : Z }.

Definition dl (it : Item) : list bytes := suffixed (i_segs it) (str ".download").
Definition dg (it : Item) : list bytes := suffixed (i_segs it) (str ".digest").
Definition paths (it : Item) : list (list bytes) := [i_segs it; dl it; dg it].

(** No path that one entry uses is, or lies under, a path of another. *)
Definition separate (items : list Item) : Prop :=
  forall i j x y a b, i <> j -> items !! i = Some x -> items !! j = Some y -> a ∈ paths x -> b ∈ paths y ->
    ~ (a `prefix_of` b).

Section Store.
Context (fs0 : Fs) (base : bytes) (pb : list bytes) (items : list Item).
Context (Hbase : base <> []) (Hgood : Forall (fun it => good_path (i_segs it)) items) (Hsep : separate items).
Context (Hat : base_at fs0 (components base) pb).

Definition D (q : list bytes) : Prop := below pb q = true.

Lemma D_app a : a <> [] -> D (pb ++ a).
Proof.
  intros Ha. unfold D, below. rewrite take_app_length, bool_decide_true by done.
  apply bool_decide_eq_true. rewrite length_app. destruct a; [done|]. simpl. lia.
Qed.

Lemma D_inv q : D q -> exists a, a <> [] /\ q = pb ++ a.
Proof.
  unfold D, below. rewrite andb_true_iff, !bool_decide_eq_true. intros [H1 H2].
  exists (drop (length pb) q). split; [|by rewrite <- H1 at 1; rewrite take_drop].
  intros E%(f_equal length). rewrite length_drop in E. simpl in E. lia.
Qed.

Lemma item_good k it : items !! k = Some it -> good_path (i_segs it).
Proof. intros H. rewrite Forall_forall in Hgood. apply Hgood. by apply list_elem_of_lookup_2 in H. Qed.

Lemma ext_facts : (slash ∉ str ".download") /\ no_nul (str ".download") /\ (2 < length (str ".download"))%nat /\
  (slash ∉ str ".digest") /\ no_nul (str ".digest") /\ (2 < length (str ".digest"))%nat.
Proof.
  unfold no_nul. rewrite !list_elem_of_In. repeat split; try (vm_compute; lia); vm_compute; intuition congruence.
Qed.

Lemma paths_facts k it : items !! k = Some it ->
  good_path (dl it) /\ good_path (dg it) /\
  join_name base (name_of (i_segs it)) ++ str ".download" = join_name base (name_of (dl it)) /\
  join_name base (name_of (i_segs it)) ++ str ".digest" = join_name base (name_of (dg it)) /\
  length (dl it) = length (i_segs it) /\ length (dg it) = length (i_segs it) /\
  removelast (dl it) = removelast (i_segs it) /\ removelast (dg it) = removelast (i_segs it) /\
  dl it <> i_segs it /\ dg it <> i_segs it /\ dl it <> dg it.
Proof.
  intros Hk. pose proof (item_good _ _ Hk) as Hg. destruct ext_facts as (E1 & E2 & E3 & E4 & E5 & E6).
  destruct (good_suffixed base _ _ Hbase Hg E1 E2 E3) as (G1 & J1 & L1 & R1).
  destruct (good_suffixed base _ _ Hbase Hg E4 E5 E6) as (G2 & J2 & L2 & R2).
  do 8 (split; [done|]). pose proof Hg as [Hne _].
  split; [by apply suffixed_ne|]. split; [by apply suffixed_ne|by apply suffixed_inj].
Qed.

(** [n] files are complete; [cur] is the one being received and its data. *)
Definition progress (n : nat) (cur : option (Item * bytes)) : nat :=
  match cur with Some _ => S n | None => n end.

Record store (n : nat) (cur : option (Item * bytes)) (fs : Fs) : Prop := mkStore {
  st_wf : wf D fs;
  st_keeps : keeps_dirs fs0 fs;
  st_done i it : (i < n)%nat -> items !! i = Some it ->
    view fs (pb ++ i_segs it) = Some (VFile (mkInode (i_data it) (i64_of (i_mtime it))));
  st_cur it d : cur = Some (it, d) ->
    items !! n = Some it /\
    (exists f, view fs (pb ++ dl it) = Some (VFile f) /\ content f = d) /\
    (exists f, view fs (pb ++ dg it) = Some (VFile f));
  st_only q : D q -> node_at fs q <> None ->
    (exists i it, (i < n)%nat /\ items !! i = Some it /\ q = pb ++ i_segs it) \/
    (exists it d, cur = Some (it, d) /\ (q = pb ++ dl it \/ q = pb ++ dg it)) \/
    (node_at fs q = Some NDir /\
     exists i it m, (i < progress n cur)%nat /\ items !! i = Some it /\ q = pb ++ take m (i_segs it) /\
       (0 < m < length (i_segs it))%nat);
  st_out q : ~ D q -> node_at fs q = node_at fs0 q /\ view fs q = view fs0 q
}.

Lemma store_base n cur fs : store n cur fs -> base_at fs (components base) pb.
Proof. intros S. eapply base_keeps; [apply S|exact Hat]. Qed.

(** The paths of an entry that is not complete are free, or are the files
    being received. *)
Lemma store_clear n cur fs k it a : store n cur fs -> (n <= k)%nat -> items !! k = Some it -> a ∈ paths it ->
  clear_path fs pb a /\
  (node_at fs (pb ++ a) = None \/ exists d, cur = Some (it, d) /\ k = n /\ (a = dl it \/ a = dg it)).
Proof.
  intros S Hnk Hk Ha.
  destruct (paths_facts _ _ Hk) as (_ & _ & _ & _ & L1 & L2 & _).
  assert (length a = length (i_segs it)) as La.
  { unfold paths in Ha. rewrite !elem_of_cons, elem_of_nil in Ha. destruct Ha as [->|[->|[->|[]]]]; done. }
  assert (forall m, (0 < m <= length a)%nat -> node_at fs (pb ++ take m a) <> None ->
    (m < length a)%nat /\ node_at fs (pb ++ take m a) = Some NDir \/
    m = length a /\ exists d, cur = Some (it, d) /\ k = n /\ (a = dl it \/ a = dg it)) as Hm.
  { intros m Hm Hn.
    assert (forall i x b, items !! i = Some x -> b ∈ paths x -> take m a = b -> i = k) as Hik.
    { intros i x b Hi Hb E. destruct (decide (i = k)) as [|Hne]; [done|]. exfalso.
      apply (Hsep i k x it b a); try done. rewrite <- E. apply prefix_take. }
    destruct (st_only _ _ _ S (pb ++ take m a)) as [(i & x & Hi & Hx & E)|[(x & d & Hc & E)|(Hd & i & x & m' & Hi & Hx & E & Hm')]].
    - apply D_app. intros E%(f_equal length). rewrite length_take in E. simpl in E. lia.
    - done.
    - apply app_inv_head in E. assert (i = k) by (eapply Hik; [exact Hx| |exact E]; by left). lia.
    - destruct (st_cur _ _ _ S _ _ Hc) as [Hx _].
      assert (n = k) as <-.
      { destruct E as [E|E]; apply app_inv_head in E; (eapply Hik; [exact Hx| |exact E]);
          unfold paths; rewrite !elem_of_cons; auto. }
      assert (x = it) as -> by congruence. right.
      assert (m = length a) as ->.
      { destruct E as [E|E]; apply app_inv_head in E; apply (f_equal length) in E; rewrite length_take in E; lia. }
      split; [done|]. exists d. split; [done|]. split; [done|]. rewrite take_ge in E by lia.
      destruct E as [E|E]; apply app_inv_head in E; auto.
    - left. split; [|done]. apply app_inv_head in E.
      destruct (decide (m < length a)%nat) as [|Hge]; [done|]. exfalso. assert (m = length a) as -> by lia.
      rewrite take_ge in E by lia.
      destruct (decide (i = k)) as [->|Hne].
      + assert (x = it) as -> by congruence. apply (f_equal length) in E. rewrite length_take in E. lia.
      + apply (Hsep k i it x a (i_segs x)); try done; [by left|]. rewrite E. apply prefix_take. }
  split.
  - intros m Hl. destruct (node_at fs (pb ++ take m a)) as [nd|] eqn:E; [right|by left].
    destruct (Hm m Hl) as [[_ ?]|[-> (d & Hc & -> & Hor)]]; [congruence|left; congruence|right].
    split; [done|]. destruct (st_cur _ _ _ S _ _ Hc) as (_ & (f & Hf & _) & (g & Hg)).
    rewrite take_ge in E by lia. rewrite <- E.
    destruct Hor as [->| ->]; [apply view_file in Hf as (i & Hi & _)|apply view_file in Hg as (i & Hi & _)]; eauto.
  - destruct (node_at fs (pb ++ a)) as [nd|] eqn:E; [right|by left].
    destruct (Hm (length a)) as [[? _]|[_ H]]; [|rewrite take_ge by lia; congruence|lia|done].
    destruct a; simpl; [|lia]. rewrite app_nil_r in E. pose proof (item_good _ _ Hk) as [Hne _].
    simpl in La. destruct (i_segs it); [done|simpl in La; lia].
Qed.

(** The job of the received files. *)
Definition entries (total : bool) : list FileEntry :=
  map (fun it => mkFileEntry (name_of (i_segs it)) (if total then len (i_data it) else 0) (i_mtime it)) items.

Definition storing (j : TransferJob) (num : Z) (st : option DataStream) : Prop :=
  type j = Generic /\ data_source j = FilePath base /\ files j = entries false /\ file_num j = num /\ data_stream j = st.

Lemma file_at_entries total k : file_at (entries total) (Z.of_nat k) =
  (fun it => mkFileEntry (name_of (i_segs it)) (if total then len (i_data it) else 0) (i_mtime it)) <$> items !! k.
Proof.
  unfold file_at. rewrite (proj2 (Z.leb_le 0 _)) by lia. rewrite Nat2Z.id. unfold entries.
  by rewrite <- list_lookup_fmap.
Qed.

(** The paths of an entry, as the job writes them. *)
Lemma entry_comps k it : items !! k = Some it ->
  let path := join_name base (name_of (i_segs it)) in
  components path = components base ++ map Normal (i_segs it) /\
  components (download_of path) = components base ++ map Normal (dl it) /\
  components (digest_of path) = components base ++ map Normal (dg it).
Proof.
  intros Hk. destruct (paths_facts _ _ Hk) as (G1 & G2 & J1 & J2 & _). cbv zeta.
  unfold download_of, digest_of. rewrite J1, J2.
  split; [|split]; (apply good_components; [done|]); [by eapply item_good|done..].
Qed.

Lemma entry_not_dot k it : items !! k = Some it -> ends_in_dot (join_name base (name_of (i_segs it))) = false.
Proof.
  intros Hk. pose proof (item_good _ _ Hk) as G. pose proof (name_not_empty _ G) as Hn. destruct G as (Hne & Hv & _).
  unfold join_name. rewrite bool_decide_false, ends_in_dot_join by (done || by apply name_relative). by apply ends_in_dot_valid.
Qed.

Lemma current_entry n cur fs j st k it : store n cur fs -> (n <= k)%nat -> items !! k = Some it ->
  storing j (Z.of_nat k) st ->
  entry_path fs j = Some (mkFileEntry (name_of (i_segs it)) 0 (i_mtime it), join_name base (name_of (i_segs it))).
Proof.
  intros S Hnk Hk (T & Ds & F & N & _). unfold entry_path, resolve_entry_path.
  rewrite T, Ds, F, N, file_at_entries, Hk. simpl.
  rewrite (good_validated _ _ pb); [done|done|by eapply store_base|by eapply item_good|].
  apply (store_clear n cur _ k it); [done..|]. by left.
Qed.

(** Changing only the paths of entry [n] keeps the finished ones. *)
Lemma done_elsewhere fs fs' n it i x : items !! n = Some it -> (i < n)%nat -> items !! i = Some x ->
  (forall q, q <> pb ++ i_segs it -> q <> pb ++ dl it -> q <> pb ++ dg it -> view fs' q = view fs q) ->
  view fs' (pb ++ i_segs x) = view fs (pb ++ i_segs x).
Proof.
  intros Hn Hi Hx H. apply H; intros E%app_inv_head; apply (Hsep i n x it (i_segs x) (i_segs x)); auto; try lia;
    try (by left); rewrite E; unfold paths; rewrite !elem_of_cons; auto.
Qed.

Lemma removelast_ne {A} (l : list A) : l <> [] -> removelast l <> l.
Proof.
  intros Hl E. destruct (exists_last Hl) as (l' & x & ->). rewrite removelast_last in E.
  apply (f_equal length) in E. rewrite length_app in E. simpl in E. lia.
Qed.

Lemma loc_ne a b : a <> b -> pb ++ a <> pb ++ b.
Proof. intros H E%app_inv_head. done. Qed.

(** Only the paths of one entry change. *)
Definition elsewhere (it : Item) (fs fs' : Fs) : Prop :=
  forall q, q <> pb ++ i_segs it -> q <> pb ++ dl it -> q <> pb ++ dg it ->
    node_at fs' q = node_at fs q /\ view fs' q = view fs q.

(** The last step of a file: its name and its time. *)
Lemma finalize_effect n it d fs j st : store n (Some (it, d)) fs -> storing j (Z.of_nat n) st ->
  let fs' := modify_time fs j in
  wf D fs' /\ cwd fs' = cwd fs /\ elsewhere it fs fs' /\
  node_at fs' (pb ++ dl it) = None /\ node_at fs' (pb ++ dg it) = None /\
  view fs' (pb ++ i_segs it) = Some (VFile (mkInode d (i64_of (i_mtime it)))).
Proof.
  intros S J. cbv zeta. destruct (st_cur _ _ _ S _ _ eq_refl) as (Hn & (f & Hf & Ef) & (g & Hg)).
  unfold modify_time. rewrite (current_entry _ _ _ _ _ n it S (le_n _) Hn J), (entry_not_dot _ _ Hn).
  destruct (entry_comps _ _ Hn) as (C1 & C2 & C3). rewrite C1, C2, C3. clear C1 C2 C3. cbv zeta.
  destruct (paths_facts _ _ Hn) as (G1 & G2 & _ & _ & _ & _ & R1 & R2 & N1 & N2 & N3).
  pose proof (item_good _ _ Hn) as (Hne & _). pose proof (proj1 G1) as Hne1. pose proof (proj1 G2) as Hne2.
  pose proof (store_base _ _ _ S) as Hb. pose proof (st_wf _ _ _ S) as W.
  destruct (store_clear _ _ _ n it (i_segs it) S (le_n _) Hn) as [Hc1 [Hfree|(? & _ & _ & [E|E])]]; [by left| |done..].
  apply view_file in Hg as (ig & Hg & _). pose proof Hf as (i0 & Hf0 & _)%view_file.
  assert (forall fs1 a, wf D fs1 -> (a = dl it \/ a = dg it \/ a = i_segs it) ->
    node_at fs1 (removelast (pb ++ dl it)) = Some NDir -> dirs_to fs1 pb a) as Hdirs.
  { intros fs1 a W1 Ha Hd. assert (a <> [] /\ removelast a = removelast (dl it)) as [Hna Ra].
    { destruct Ha as [->|[->| ->]]; (split; [done|congruence]). }
    rewrite removelast_app, <- Ra in Hd by done. rewrite (app_removelast_last [] Hna). by eapply dirs_to_closed. }
  assert (forall fs1, wf D fs1 -> node_at fs1 (pb ++ dl it) <> None -> node_at fs1 (removelast (pb ++ dl it)) = Some NDir) as Hup.
  { intros fs1 (_ & _ & W3) H. rewrite removelast_app by done.
    rewrite (app_removelast_last [] Hne1), app_assoc in H. by apply W3 in H. }
  assert (node_at fs (removelast (pb ++ dl it)) = Some NDir) as Hd0 by (apply Hup; congruence).
  destruct (remove_spec D fs (components base ++ map Normal (dg it)) (pb ++ dg it) ig) as (fs1 & -> & U1); try done.
  { apply llocate_under; auto. }
  cbn [fst]. pose proof (upd_wf _ _ _ _ _ U1) as W1.
  assert (removelast (pb ++ dl it) <> pb ++ dg it) as Hup_ne.
  { rewrite removelast_app, R1, <- R2 by done. intros E%app_inv_head. by apply (removelast_ne (dg it)). }
  assert (node_at fs1 (removelast (pb ++ dl it)) = Some NDir) as Hd1 by by rewrite (upd_node _ _ _ _ _ U1).
  assert (base_at fs1 (components base) pb) as Hb1.
  { eapply base_keeps; [|exact Hb]. eapply upd_keeps; [exact U1|]. right. by exists ig. }
  assert (view fs1 (pb ++ dl it) = Some (VFile f)) as Hf1 by by rewrite (upd_view _ _ _ _ _ U1) by by apply loc_ne.
  assert (node_at fs1 (pb ++ i_segs it) = None) as Hfree1 by by rewrite (upd_node _ _ _ _ _ U1) by by apply loc_ne, not_eq_sym.
  destruct (rename_spec D fs1 (components base ++ map Normal (dl it)) (components base ++ map Normal (i_segs it))
    (pb ++ dl it) (pb ++ i_segs it) f) as (fs2 & fs3 & -> & U2 & U3); try done; try (by apply D_app).
  { apply llocate_under; auto. } { apply llocate_under; auto. }
  { rewrite removelast_app, <- R1, <- removelast_app by done. done. }
  simpl fst. pose proof (upd_wf _ _ _ _ _ U3) as W3.
  assert (base_at fs3 (components base) pb) as Hb3.
  { eapply base_keeps; [|exact Hb1]. eapply keeps_dirs_trans.
    - eapply upd_keeps; [exact U2|]. right. apply view_file in Hf1 as (i1 & ? & _). by exists i1.
    - eapply upd_keeps; [exact U3|]. left. rewrite (upd_node _ _ _ _ _ U2) by by apply loc_ne, not_eq_sym. done. }
  pose proof (upd_at _ _ _ _ _ U3) as Hf3. apply view_file in Hf3 as Hf3'. destruct Hf3' as (i3 & Hi3 & _).
  assert (dirs_to fs3 pb (i_segs it)) as Hd3.
  { rewrite (app_removelast_last [] Hne). apply (dirs_to_closed D); [done|].
    rewrite (app_removelast_last [] Hne), app_assoc in Hi3. eapply (proj2 (proj2 W3)). by rewrite Hi3. }
  pose proof (mtime_spec D fs3 (components base ++ map Normal (i_segs it)) (pb ++ i_segs it) f (i64_of (i_mtime it))
    W3 (D_app _ Hne)) as U4. rewrite (locate_under _ _ pb) in U4; [|done..|by rewrite Hi3].
  specialize (U4 eq_refl Hf3). set (fs4 := set_file_mtime fs3 _ _) in *.
  assert (elsewhere it fs fs4) as Hsame.
  { intros q Q1 Q2 Q3.
    rewrite (upd_node _ _ _ _ _ U4), (upd_node _ _ _ _ _ U3), (upd_node _ _ _ _ _ U2), (upd_node _ _ _ _ _ U1) by done.
    by rewrite (upd_view _ _ _ _ _ U4), (upd_view _ _ _ _ _ U3), (upd_view _ _ _ _ _ U2), (upd_view _ _ _ _ _ U1). }
  assert (node_at fs4 (pb ++ dl it) = None) as Gone1.
  { apply (view_none D); [apply U4|].
    rewrite (upd_view _ _ _ _ _ U4), (upd_view _ _ _ _ _ U3) by by apply loc_ne. apply U2. }
  assert (node_at fs4 (pb ++ dg it) = None) as Gone2.
  { apply (view_none D); [apply U4|].
    rewrite (upd_view _ _ _ _ _ U4), (upd_view _ _ _ _ _ U3), (upd_view _ _ _ _ _ U2) by by apply loc_ne, not_eq_sym || apply loc_ne. apply U1. }
  split; [apply U4|]. split.
  { rewrite (upd_cwd _ _ _ _ _ U4), (upd_cwd _ _ _ _ _ U3), (upd_cwd _ _ _ _ _ U2). apply U1. }
  do 3 (split; [done|]). rewrite (upd_at _ _ _ _ _ U4). by rewrite Ef.
Qed.

Lemma finalize n it d fs j st : store n (Some (it, d)) fs -> storing j (Z.of_nat n) st -> d = i_data it ->
  store (S n) None (modify_time fs j).
Proof.
  intros S J ->. destruct (finalize_effect _ _ _ _ _ _ S J) as (W & C & Hsame & Gone1 & Gone2 & Hv).
  destruct (st_cur _ _ _ S _ _ eq_refl) as (Hn & (f & Hf & _) & (g & Hg)).
  apply view_file in Hf as (i1 & Hf & _). apply view_file in Hg as (i2 & Hg & _).
  destruct (store_clear _ _ _ n it (i_segs it) S (le_n _) Hn) as [_ [Hfree|(? & _ & _ & [E|E])]];
    [by left| |by destruct (paths_facts _ _ Hn) as (_ & _ & _ & _ & _ & _ & _ & _ & ? & ? & _)..].
  set (fs4 := modify_time fs j) in *.
  split.
  - done.
  - eapply keeps_dirs_trans; [apply S|]. split; [done|].
    intros q nd Hq Hnf. rewrite (proj1 (Hsame q ltac:(congruence) ltac:(intros ->; congruence) ltac:(intros ->; congruence))). done.
  - intros i x Hi Hx. destruct (decide (i = n)) as [->|]; [by replace x with it by congruence|].
    rewrite (done_elsewhere fs fs4 n it i x); [by apply (st_done _ _ _ S i); [lia|]|done|lia|done|].
    intros q Q1 Q2 Q3. by apply Hsame.
  - done.
  - intros q Hq Hnq.
    destruct (decide (q = pb ++ i_segs it)) as [->|Q1]; [left; exists n, it; auto with lia|].
    destruct (decide (q = pb ++ dl it)) as [->|Q2]; [congruence|].
    destruct (decide (q = pb ++ dg it)) as [->|Q3]; [congruence|].
    destruct (Hsame q Q1 Q2 Q3) as [E _]. rewrite E in Hnq |- *.
    destruct (st_only _ _ _ S q Hq Hnq) as [(i & x & ? & ? & ?)|[(x & d' & [= <- <-] & [?|?])|(? & i & x & m & ? & ? & ? & ?)]];
      [left; exists i, x; auto with lia|done..|].
    right. right. split; [done|]. exists i, x, m. simpl in *. auto.
  - intros q Hq. destruct (st_out _ _ _ S q Hq) as [<- <-].
    destruct (paths_facts _ _ Hn) as ((? & _) & (? & _) & _). destruct (item_good _ _ Hn) as (? & _).
    apply Hsame; intros ->; by apply Hq, D_app.
Qed.

(** The first step of a file: its directories, its [.download] and its digest. *)
Lemma open_effect n it fs (dig : bytes) : store n None fs -> items !! n = Some it ->
  let path := join_name base (name_of (i_segs it)) in
  exists pp fs1 fs2 i fs',
    parent (components path) = Some pp /\ create_dir_all fs pp = (fs1, Ok tt) /\
    exists_ fs1 (components (digest_of path)) = false /\
    create fs1 (components (download_of path)) = (fs2, Ok (mkHandle (Some i) 0)) /\
    write_file fs2 (components (digest_of path)) dig = fs' /\
    dirs_made D fs fs1 pb (removelast (i_segs it)) /\ wf D fs' /\ cwd fs' = cwd fs1 /\
    (forall q, q <> pb ++ dl it -> q <> pb ++ dg it -> node_at fs' q = node_at fs1 q /\ view fs' q = view fs1 q) /\
    node_at fs' (pb ++ dl it) = Some (NFile i) /\
    (exists f, view fs' (pb ++ dl it) = Some (VFile f) /\ content f = []) /\
    (exists f, view fs' (pb ++ dg it) = Some (VFile f)).
Proof.
  intros S Hn. cbv zeta. destruct (entry_comps _ _ Hn) as (C1 & C2 & C3). rewrite C1, C2, C3. clear C1 C2 C3.
  destruct (paths_facts _ _ Hn) as (G1 & G2 & _ & _ & L1 & L2 & R1 & R2 & N1 & N2 & N3).
  pose proof (item_good _ _ Hn) as (Hne & _). pose proof (proj1 G1) as Hne1. pose proof (proj1 G2) as Hne2.
  pose proof (store_base _ _ _ S) as Hb. pose proof (st_wf _ _ _ S) as W.
  destruct (store_clear _ _ _ n it (i_segs it) S (le_n _) Hn) as [Hc _]; [by left|].
  destruct (store_clear _ _ _ n it (dl it) S (le_n _) Hn) as [_ [Hdl|(? & ? & _)]]; [by right; left| |done].
  destruct (store_clear _ _ _ n it (dg it) S (le_n _) Hn) as [_ [Hdg|(? & ? & _)]]; [by right; right; left| |done].
  set (up := removelast (i_segs it)) in *.
  assert (length up < length (i_segs it))%nat as Lu.
  { unfold up. rewrite (app_removelast_last [] Hne) at 2. rewrite length_app. simpl. lia. }
  destruct (create_dirs_spec D (components base) pb up (length (components base ++ map Normal up)) fs) as (fs1 & Hmk & Hmade);
    [done|done| |rewrite length_app, length_map; lia|].
  { intros k Hk. assert (take k up = take k (i_segs it)) as E.
    { rewrite (app_removelast_last [] Hne). fold up. by rewrite take_app_le by lia. }
    destruct (Hc k) as [?|[?|[? _]]]; [lia|rewrite E; auto..|lia]. }
  pose proof Hmade as (W1 & _ & _ & M & F & K). pose proof (base_keeps _ _ _ _ K Hb) as Hb1.
  assert (node_at fs1 (pb ++ up) = Some NDir) as Hup.
  { specialize (M (length up)). rewrite take_ge in M by lia. by apply M. }
  assert (forall fs' a, wf D fs' -> node_at fs' (pb ++ up) = Some NDir -> a = dl it \/ a = dg it ->
    dirs_to fs' pb a /\ node_at fs' (removelast (pb ++ a)) = Some NDir) as Hdirs.
  { intros fs' a W' Hd Ha. assert (a <> [] /\ removelast a = up) as [Hna Ra]
      by (destruct Ha as [->| ->]; done).
    rewrite removelast_app, Ra by done. split; [|done].
    rewrite (app_removelast_last [] Hna), Ra. by apply (dirs_to_closed D). }
  assert (forall a, a = dl it \/ a = dg it -> node_at fs1 (pb ++ a) = None) as Hnone.
  { intros a Ha. rewrite (proj1 (F (pb ++ a) ltac:(intros k Hk E%app_inv_head; apply (f_equal length) in E;
      rewrite length_take in E; destruct Ha as [->| ->]; lia))). by destruct Ha as [->| ->]. }
  destruct (Hdirs fs1 (dl it) W1 Hup) as [Hd1 Hp1]; [by left|].
  destruct (create_spec D fs1 (components base ++ map Normal (dl it)) (pb ++ dl it) W1) as (fs2 & i & Hcr & Hi & U2);
    [apply locate_under; try done; by rewrite Hnone by auto|by apply Hnone; left|done|].
  pose proof (upd_wf _ _ _ _ _ U2) as W2.
  assert (forall a, a = dl it \/ a = dg it -> pb ++ up <> pb ++ a) as Hupne.
  { intros a Ha E%app_inv_head. apply (f_equal length) in E. destruct Ha as [->| ->]; lia. }
  assert (node_at fs2 (pb ++ up) = Some NDir) as Hup2 by by rewrite (upd_node _ _ _ _ _ U2) by (apply Hupne; auto).
  destruct (Hdirs fs2 (dg it) W2 Hup2) as [Hd2 Hp2]; [by right|].
  assert (keeps_dirs fs1 fs2) as K2 by (eapply upd_keeps; [exact U2|]; left; apply Hnone; auto).
  pose proof (base_keeps _ _ _ _ K2 Hb1) as Hb2.
  assert (node_at fs2 (pb ++ dg it) = None) as Hdg2 by (rewrite (upd_node _ _ _ _ _ U2); [apply Hnone; auto|by apply loc_ne, not_eq_sym]).
  destruct (create_spec D fs2 (components base ++ map Normal (dg it)) (pb ++ dg it) W2) as (fs3 & i3 & Hcr3 & Hi3 & U3);
    [apply locate_under; try done; by rewrite Hdg2|done|done|].
  pose proof (upd_at _ _ _ _ _ U3) as Hv3. apply view_file in Hv3 as (i3' & Hi3' & Hf3).
  assert (i3' = i3) as -> by congruence.
  destruct (write_spec D fs3 (pb ++ dg it) i3 _ 0 dig (upd_wf _ _ _ _ _ U3) (D_app _ Hne2) Hi3 Hf3) as (fs4 & Hw & _ & U4).
  exists (components base ++ map Normal up), fs1, fs2, i, fs4.
  split; [rewrite (app_removelast_last [] Hne); apply parent_snoc|]. split; [done|].
  split. { unfold exists_, stat. destruct (Hdirs fs1 (dg it) W1 Hup) as [Hd3 _]; [by right|].
    rewrite (locate_under _ _ pb); rewrite ?Hnone by auto; done. }
  split; [done|]. split; [unfold write_file; by rewrite Hcr3, Hw|]. split; [done|]. split; [apply U4|].
  split; [rewrite (upd_cwd _ _ _ _ _ U4), (upd_cwd _ _ _ _ _ U3); apply U2|]. split.
  { intros q Q1 Q2. rewrite (upd_node _ _ _ _ _ U4), (upd_node _ _ _ _ _ U3), (upd_node _ _ _ _ _ U2) by done.
    by rewrite (upd_view _ _ _ _ _ U4), (upd_view _ _ _ _ _ U3), (upd_view _ _ _ _ _ U2). }
  assert (pb ++ dl it <> pb ++ dg it) by by apply loc_ne.
  rewrite (upd_node _ _ _ _ _ U4), (upd_node _ _ _ _ _ U3) by done. split; [done|].
  rewrite (upd_view _ _ _ _ _ U4), (upd_view _ _ _ _ _ U3), (upd_at _ _ _ _ _ U2), (upd_at _ _ _ _ _ U4) by done.
  split; eexists; [|done]. by split.
Qed.

Lemma opened_store n it fs fs1 fs' : store n None fs -> items !! n = Some it ->
  dirs_made D fs fs1 pb (removelast (i_segs it)) -> wf D fs' -> cwd fs' = cwd fs1 ->
  (forall q, q <> pb ++ dl it -> q <> pb ++ dg it -> node_at fs' q = node_at fs1 q /\ view fs' q = view fs1 q) ->
  (exists f, view fs' (pb ++ dl it) = Some (VFile f) /\ content f = []) ->
  (exists f, view fs' (pb ++ dg it) = Some (VFile f)) ->
  store n (Some (it, [])) fs'.
Proof.
  intros S Hn (W1 & _ & _ & M & F & K) W' C' He Hd Hg.
  destruct (paths_facts _ _ Hn) as ((Hne1 & _) & (Hne2 & _) & _ & _ & L1 & L2 & _).
  pose proof (item_good _ _ Hn) as (Hne & _).
  destruct (store_clear _ _ _ n it (dl it) S (le_n _) Hn) as [_ [Hdl|(? & ? & _)]]; [by right; left| |done].
  destruct (store_clear _ _ _ n it (dg it) S (le_n _) Hn) as [_ [Hdg|(? & ? & _)]]; [by right; right; left| |done].
  set (up := removelast (i_segs it)) in *.
  assert (i_segs it = up ++ [List.last (i_segs it) []]) as Eup by by apply app_removelast_last.
  assert (length (i_segs it) = 1 + length up)%nat as Lu by (rewrite Eup, length_app; simpl; lia).
  assert (forall k, (k <= length up)%nat -> take k up = take k (i_segs it)) as Et.
  { intros k Hk. rewrite Eup. by rewrite take_app_le. }
  assert (forall a k, (0 < k <= length up)%nat -> length a = length (i_segs it) -> pb ++ a <> pb ++ take k up) as Hlen.
  { intros a k Hk La E%app_inv_head. apply (f_equal length) in E. rewrite length_take in E. lia. }
  assert (forall q, (forall k, (0 < k <= length up)%nat -> q <> pb ++ take k up) \/
    exists k, (0 < k <= length up)%nat /\ q = pb ++ take k up) as Hcase.
  { intros q. destruct (decide (Exists (fun k => q = pb ++ take k up) (seq 1 (length up)))) as [H|H].
    - right. apply Exists_exists in H as (k & Hk & E). apply elem_of_seq in Hk. exists k. split; [lia|done].
    - left. intros k Hk E. apply H, Exists_exists. exists k. split; [apply elem_of_seq; lia|done]. }
  split.
  - done.
  - eapply keeps_dirs_trans; [apply S|]. eapply keeps_dirs_trans; [exact K|]. split; [done|].
    intros q nd Hq Hf. destruct (He q) as [-> _]; [| |done]; intros ->.
    + rewrite (proj1 (F _ (fun k Hk => Hlen (dl it) k Hk L1))) in Hq. congruence.
    + rewrite (proj1 (F _ (fun k Hk => Hlen (dg it) k Hk L2))) in Hq. congruence.
  - intros i x Hi Hx. rewrite (done_elsewhere fs1 fs' n it i x); [|done..|intros; by apply He].
    destruct (Hcase (pb ++ i_segs x)) as [Hq|(k & Hk & E%app_inv_head)].
    + rewrite (proj2 (F _ Hq)). by apply (st_done _ _ _ S i).
    + exfalso. apply (Hsep i n x it (i_segs x) (i_segs it)); try done; [lia|by left|by left|].
      rewrite E, Et by lia. apply prefix_take.
  - intros x d [= <- <-]. done.
  - intros q Hq Hnq. destruct (decide (q = pb ++ dl it)) as [->|Q1]; [right; left; eauto|].
    destruct (decide (q = pb ++ dg it)) as [->|Q2]; [right; left; eauto 10|].
    rewrite (proj1 (He q Q1 Q2)) in Hnq |- *.
    destruct (Hcase q) as [Hk|(k & Hk & ->)].
    + rewrite (proj1 (F q Hk)) in Hnq |- *.
      destruct (st_only _ _ _ S q Hq Hnq) as [?|[(? & ? & ? & _)|(? & i & x & m & ? & H)]]; [by left|done|].
      right. right. split; [done|]. exists i, x, m. simpl in *. split; [lia|done].
    + right. right. split; [apply M; lia|]. exists n, it, k. simpl. split; [lia|]. split; [done|].
      split; [by rewrite Et by lia|lia].
  - intros q Hq. destruct (He q) as [-> ->]; [intros ->; by apply Hq, D_app..|].
    destruct (Hcase q) as [Hk|(k & Hk & ->)].
    + destruct (F q Hk) as [-> ->]. by apply (st_out _ _ _ S).
    + exfalso. apply Hq, D_app. intros E%(f_equal length). rewrite length_take in E. simpl in E. lia.
Qed.

Lemma open_ok n it fs j : store n None fs -> items !! n = Some it -> type j = Generic ->
  exists fs' i,
    open_target fs j base (mkFileEntry (name_of (i_segs it)) 0 (i_mtime it)) =
      (fs', with_stream j (Some (FileStream (mkHandle (Some i) 0))), Ok tt) /\
    store n (Some (it, [])) fs' /\ node_at fs' (pb ++ dl it) = Some (NFile i).
Proof.
  intros S Hn T.
  destruct (open_effect n it fs (show_digest (digest j)) S Hn)
    as (pp & fs1 & fs2 & i & fs' & Hpp & Hmk & Hex & Hcr & Hw & Hmade & W' & C' & He & Hi & Hd & Hg).
  exists fs', i. split; [|split; [by apply (opened_store n it fs fs1)|done]].
  unfold open_target, target_paths. rewrite T. cbn [name].
  rewrite (good_validated _ _ pb); [|done|by eapply store_base|by eapply item_good|];
    [|eapply (store_clear n None fs n); [done..|by left]].
  rewrite Hpp, Hmk. cbn [fst]. unfold drop_digest. rewrite Hex, Hcr, Hw. done.
Qed.

Lemma splice_end old d : splice old (len old) d = old ++ d.
Proof.
  unfold splice. rewrite Z.sub_diag. simpl. rewrite app_nil_r. f_equal.
  - unfold takeZ, len. rewrite Nat2Z.id. by apply take_ge.
  - unfold dropZ. rewrite drop_ge; [by rewrite app_nil_r|]. unfold len. lia.
Qed.

(** A chunk is appended. *)
Lemma put_ok n it d fs j i x : store n (Some (it, d)) fs -> node_at fs (pb ++ dl it) = Some (NFile i) ->
  data_stream j = Some (FileStream (mkHandle (Some i) (len d))) ->
  exists fs', put fs j x = (fs', with_stream j (Some (FileStream (mkHandle (Some i) (len (d ++ x))))), Ok tt) /\
    store n (Some (it, d ++ x)) fs' /\ node_at fs' (pb ++ dl it) = Some (NFile i).
Proof.
  intros S Hi Hst. destruct (st_cur _ _ _ S _ _ eq_refl) as (Hn & (f & Hf & Ef) & Hg).
  destruct (paths_facts _ _ Hn) as ((Hne1 & _) & (Hne2 & _) & _ & _ & _ & _ & _ & _ & N1 & N2 & N3).
  pose proof Hf as (i' & Hi' & Hin)%view_file. assert (i' = i) as -> by congruence.
  destruct (write_spec D fs (pb ++ dl it) i f (len d) x (st_wf _ _ _ S) (D_app _ Hne1) Hi Hin) as (fs' & Hw & Nd & U).
  rewrite <- Ef, splice_end in U. exists fs'. unfold put. rewrite Hst, Hw, len_app. split; [done|].
  assert (forall q, node_at fs' q = node_at fs q) as Hnd by (intros q; unfold node_at; by rewrite Nd).
  split; [|by rewrite Hnd]. split.
  - apply U.
  - eapply keeps_dirs_trans; [apply S|]. eapply upd_keeps; [exact U|]. right. by exists i.
  - intros k y Hk Hy. rewrite (done_elsewhere fs fs' n it k y); [by apply (st_done _ _ _ S k)|done..|].
    intros q _ Q _. by apply (upd_view _ _ _ _ _ U).
  - intros y d' [= <- <-]. split; [done|]. split; [rewrite (upd_at _ _ _ _ _ U); by eexists; rewrite Ef|].
    by rewrite (upd_view _ _ _ _ _ U) by by apply loc_ne, not_eq_sym.
  - intros q Hq Hnq. rewrite Hnd in Hnq |- *.
    destruct (st_only _ _ _ S q Hq Hnq) as [?|[(y & d' & [= <- <-] & Ho)|?]]; [by left|right; left; eauto|by right; right].
  - intros q Hq. rewrite Hnd. destruct (st_out _ _ _ S q Hq) as [<- <-]. split; [done|].
    apply (upd_view _ _ _ _ _ U). intros ->. by apply Hq, D_app.
Qed.

(** ** The writing job, block by block *)
(** [d] of entry [k] was received. *)
Definition busy (k : nat) (d : bytes) (fs : Fs) (j : TransferJob) : Prop :=
  exists it i, items !! k = Some it /\ store k (Some (it, d)) fs /\
    storing j (Z.of_nat k) (Some (FileStream (mkHandle (Some i) (len d)))) /\
    node_at fs (pb ++ dl it) = Some (NFile i).

(** The first [k] entries were received, the last of them is still open. *)
Definition ready (k : nat) (fs : Fs) (j : TransferJob) : Prop :=
  (k = 0%nat /\ store 0 None fs /\ storing j 0 None) \/
  exists k' it, k = S k' /\ items !! k' = Some it /\ busy k' (i_data it) fs j.

Lemma store_absent n cur fs k it : store n cur fs -> items !! k = Some it -> (n <= k)%nat ->
  (cur <> None -> n <> k) ->
  (forall a, a ∈ paths it -> stat fs (components base ++ map Normal a) = None /\
     (remove_file fs (components base ++ map Normal a)).1 = fs /\
     forall cb, (rename fs (components base ++ map Normal a) cb).1 = fs).
Proof.
  intros S Hk Hn Hc a Ha. destruct (store_clear n cur fs k it a S Hn Hk Ha) as [Hcl [Hnone|(d & Ec & E & _)]].
  - apply (absent fs _ pb); [by eapply store_base|done| |done].
    destruct (paths_facts _ _ Hk) as ((? & _) & (? & _) & _). destruct (item_good _ _ Hk) as (? & _).
    unfold paths in Ha. rewrite !elem_of_cons, elem_of_nil in Ha. by destruct Ha as [->|[->|[->|[]]]].
  - exfalso. apply Hc; [by rewrite Ec|done].
Qed.

Lemma ready_final k fs j : ready k fs j -> store k None (modify_time fs j).
Proof.
  intros [(-> & S & J)|(k' & it & -> & Hk & (it' & i & Hk' & S & J & _))].
  - destruct (items !! 0%nat) as [it|] eqn:E.
    + unfold modify_time. rewrite (current_entry 0 None fs j None 0 it S (le_n _) E J), (entry_not_dot _ _ E).
      destruct (entry_comps _ _ E) as (C1 & C2 & C3). rewrite C1, C2, C3. cbv zeta.
      destruct (store_absent _ _ _ _ _ S E (le_n _) ltac:(done) (dg it)) as (_ & -> & _); [by right; right; left|].
      destruct (store_absent _ _ _ _ _ S E (le_n _) ltac:(done) (dl it)) as (_ & _ & ->); [by right; left|].
      destruct (store_absent _ _ _ _ _ S E (le_n _) ltac:(done) (i_segs it)) as (Hs & _); [by left|].
      unfold set_file_mtime. by rewrite Hs.
    + destruct J as (T & Ds & F & N & _). unfold modify_time, entry_path.
      rewrite T, Ds, F, N. change 0 with (Z.of_nat 0). by rewrite file_at_entries, E.
  - assert (it' = it) as -> by congruence. by eapply finalize.
Qed.

Lemma write_first k it fs j b : ready k fs j -> items !! k = Some it ->
  b_id b = id j -> b_file_num b = Z.of_nat k ->
  exists fs' j', write fs j b = (fs', j', Ok tt) /\ id j' = id j /\
    busy k (if compressed b then decompress (data b) else data b) fs' j'.
Proof.
  intros R Hk Hid Hnum. pose proof (ready_final _ _ _ R) as S.
  assert (type j = Generic /\ data_source j = FilePath base /\ files j = entries false) as (T & Ds & F).
  { destruct R as [(_ & _ & J)|(? & ? & _ & _ & (? & ? & _ & _ & J & _))]; by destruct J as (? & ? & ? & _). }
  assert (negb (Z.of_nat k =? file_num j) || match data_stream j with None => true | _ => false end = true) as Hsel.
  { destruct R as [(_ & _ & (_ & _ & _ & _ & ->))|(k' & ? & -> & _ & (? & ? & _ & _ & (_ & _ & _ & -> & _) & _))];
      [apply orb_true_r|]. apply orb_true_iff. left. apply negb_true_iff, Z.eqb_neq. lia. }
  set (d := if compressed b then decompress (data b) else data b).
  destruct (open_ok k it (modify_time fs j) (with_pos j (Z.of_nat k) (data_stream j)) S Hk T) as (fs1 & i & Ho & S1 & Hi).
  destruct (put_ok k it [] fs1 (with_stream (with_pos j (Z.of_nat k) (data_stream j)) (Some (FileStream (mkHandle (Some i) 0)))) i d S1 Hi eq_refl)
    as (fs2 & Hp & S2 & Hi2).
  do 2 eexists. split; [|split; [|exists it, i; split; [done|split; [exact S2|split; [|exact Hi2]]]]].
  - unfold write. rewrite Hid, Z.eqb_refl. simpl negb. cbv iota. unfold select_file.
    rewrite Ds, F, Hnum, file_at_entries, Hk. cbn [fmap option_fmap option_map]. rewrite Hsel. cbv zeta. rewrite Ho. fold d. by rewrite Hp.
  - done.
  - by repeat split.
Qed.

Lemma write_more k d fs j b : busy k d fs j -> b_id b = id j -> b_file_num b = Z.of_nat k ->
  exists fs' j', write fs j b = (fs', j', Ok tt) /\ id j' = id j /\
    busy k (d ++ if compressed b then decompress (data b) else data b) fs' j'.
Proof.
  intros (it & i & Hk & S & (T & Ds & F & N & St) & Hi) Hid Hnum.
  set (x := if compressed b then decompress (data b) else data b).
  destruct (put_ok k it d fs j i x S Hi St) as (fs' & Hp & S' & Hi').
  do 2 eexists. split; [|split; [|exists it, i; split; [done|split; [exact S'|split; [|exact Hi']]]]].
  - unfold write. rewrite Hid, Z.eqb_refl. simpl negb. cbv iota. unfold select_file.
    rewrite Ds, F, Hnum, file_at_entries, Hk. cbn [fmap option_fmap option_map].
    rewrite N, Z.eqb_refl, St. simpl orb. cbv iota. fold x. by rewrite Hp.
  - done.
  - by repeat split.
Qed.

Lemma check_digest_ok k it fs j fsize lm up : ready k fs j -> items !! k = Some it ->
  exists j', handle_fs fs [j] (CheckDigest (id j) (Z.of_nat k) fsize lm up false) =
    Some (fs, [j'], [MConfirm (mkConfirm (id j) (Z.of_nat k) (Some (OffsetBlk 0)))]) /\
    id j' = id j /\ ready k fs j'.
Proof.
  intros R Hk.
  assert (data_source j = FilePath base /\ files j = entries false) as (Ds & F).
  { destruct R as [(_ & _ & J)|(? & ? & _ & _ & (? & ? & _ & _ & J & _))]; by destruct J as (? & ? & ? & _). }
  exists (with_digest j (mkFileDigest fsize lm)). split; [|split; [done|]].
  - unfold handle_fs, get_job. simpl. rewrite Z.eqb_refl, Ds, F, file_at_entries, Hk.
    cbn [fmap option_fmap option_map name]. unfold is_write_need_confirmation. cbv iota.
    assert (file_of fs (components (join_name base (name_of (i_segs it)))) = None) as ->; [|done].
    rewrite (proj1 (entry_comps _ _ Hk)). unfold file_of.
    destruct R as [(-> & S & _)|(k' & it' & -> & _ & (? & ? & _ & S & _))].
    + by rewrite (proj1 (store_absent _ _ _ _ _ S Hk (le_n _) ltac:(done) (i_segs it) ltac:(by left))).
    + by rewrite (proj1 (store_absent _ _ _ _ _ S Hk ltac:(lia) ltac:(intros _; lia) (i_segs it) ltac:(by left))).
  - destruct R as [(-> & S & J)|(k' & it' & -> & Hk' & (x & i & Hx & S & J & Hi))].
    + left. split; [done|]. split; [exact S|exact J].
    + right. exists k', it'. do 2 (split; [done|]). exists x, i.
      split; [done|]. split; [exact S|]. split; [exact J|done].
Qed.

(** ** The reading job, turn by turn *)
Lemma BUF_SIZE_pos : 0 < BUF_SIZE.
Proof. done. Qed.
#[local] Opaque BUF_SIZE.
Context {ZL : ZstdLaws} (sfs : Fs) (sbase : bytes) (det : bool).

Definition source_of (it : Item) : list Comp := components (join_name sbase (name_of (i_segs it))).
Definition readable (it : Item) : Prop := exists i f,
  stat sfs (source_of it) = Some (NFile i) /\ inodes sfs !! i = Some f /\ content f = i_data it /\ 0 <= mtime f.

Context (Hread : Forall readable items) (Hcount : (Z.of_nat (length items) < 2 ^ 31)).

Definition sending (k : nat) (st : option DataStream) (confirmed waiting : bool) (j : TransferJob) : Prop :=
  type j = Generic /\ data_source j = FilePath sbase /\ is_last_job j = false /\ is_resume j = false /\
  enable_overwrite_detection j = det /\ files j = entries true /\ file_num j = Z.of_nat k /\
  data_stream j = st /\ file_confirmed j = confirmed /\ file_is_waiting j = waiting /\ file_skipped j = false.

Definition idle (k : nat) (j : TransferJob) : Prop := sending k None false false j.

(** Entry [k] is open at [pos]. *)
Definition opened (k : nat) (it : Item) (pos : Z) (j : TransferJob) : Prop := exists i f c w,
  inodes sfs !! i = Some f /\ content f = i_data it /\ (det = true -> c = true) /\
  sending k (Some (FileStream (mkHandle (Some i) pos))) c w j.

Lemma item_readable k it : items !! k = Some it -> readable it.
Proof. intros H. rewrite Forall_forall in Hread. apply Hread. by apply list_elem_of_lookup_2 in H. Qed.

Lemma next_num k : (k < length items)%nat -> i32_of (Z.of_nat k + 1) = Z.of_nat (S k).
Proof. intros H. unfold i32_of. rewrite swrap_id by lia. lia. Qed.

(** One block: the next chunk, or an empty one that ends the file. *)
Lemma read_step k it pos j : items !! k = Some it -> opened k it pos j ->
  let chunk := takeZ BUF_SIZE (dropZ pos (i_data it)) in
  exists j' b, read sfs j = (j', Ok (Some b)) /\ b_id b = id j /\ b_file_num b = Z.of_nat k /\ id j' = id j /\
    (if compressed b then decompress (data b) else data b) = chunk /\
    if bool_decide (chunk = []) then idle (S k) j' else opened k it (pos + len chunk) j'.
Proof.
  intros Hk (i & f & c & w & Hi & Hf & Hc & (T & Ds & La & Re & De & Fi & Nu & St & Co & Wa & Sk)). cbv zeta.
  set (chunk := takeZ BUF_SIZE (dropZ pos (i_data it))).
  assert (read_stream sfs (FileStream (mkHandle (Some i) pos)) =
    (FileStream (mkHandle (Some i) (pos + len chunk)), Ok chunk)) as Hr.
  { unfold read_stream, read_at. simpl h_ino. cbv iota. simpl h_pos. by rewrite Hi, Hf. }
  unfold read. rewrite T, De, Co, Ds, Fi, Nu, file_at_entries, Hk. cbn [fmap option_fmap option_map].
  assert (true && det && negb c = false) as ->.
  { destruct det; [by rewrite Hc|done]. }
  rewrite St, Hr. assert (k < length items)%nat as Hlt by (by eapply lookup_lt_Some).
  destruct (bool_decide_reflect (chunk = [])) as [E|E].
  - do 2 eexists. split; [done|]. do 3 (split; [done|]). split; [by simpl|].
    assert (file_num (next_file j None) = Z.of_nat (S k)) as Nu'.
    { change (i32_of (file_num j + 1) = Z.of_nat (S k)). rewrite Nu. by apply next_num. }
    exact (conj T (conj Ds (conj La (conj Re (conj De (conj Fi (conj Nu' (conj eq_refl (conj eq_refl (conj eq_refl Sk)))))))))).
  - do 2 eexists. split; [done|]. do 3 (split; [done|]). split.
    + cbn [compressed data]. destruct (_ && _ && _); [by apply decompress_compress|done].
    + exists i, f, c, w. do 3 (split; [done|]).
      exact (conj T (conj Ds (conj La (conj Re (conj De (conj Fi (conj Nu (conj eq_refl (conj Co (conj Wa Sk)))))))))).
Qed.

(** Preparing an entry that is open changes nothing. *)
Lemma init_opened k it pos j : items !! k = Some it -> opened k it pos j -> init_jobs sfs [j] = ([j], []).
Proof.
  intros Hk (i & f & c & w & Hi & Hf & Hc & (T & Ds & La & Re & De & Fi & Nu & St & Co & Wa & Sk)).
  unfold init_jobs. rewrite La. unfold init_data_stream, open_data_stream.
  rewrite Ds, Fi, Nu, file_at_entries, Hk, St. cbn [fmap option_fmap option_map].
  unfold detecting. rewrite T, De, Co. destruct det; [rewrite Hc by done|]; done.
Qed.

Lemma open_idle k it j : items !! k = Some it -> idle k j ->
  exists i f, inodes sfs !! i = Some f /\ content f = i_data it /\ (mtime f <? 0) = false /\
    open_data_stream sfs j = (with_flags (with_stream j (Some (FileStream (mkHandle (Some i) 0)))) false false false, Ok false).
Proof.
  intros Hk (T & Ds & La & Re & De & Fi & Nu & St & Co & Wa & Sk).
  destruct (item_readable _ _ Hk) as (i & f & Hs & Hi & Hf & Hm). exists i, f. do 2 (split; [done|]).
  split; [by apply Z.ltb_ge|].
  unfold open_data_stream. rewrite Ds, Fi, Nu, file_at_entries, Hk, St. cbn [fmap option_fmap option_map name].
  unfold open_read. unfold stat, source_of in Hs. destruct (locate _ _) as [p|]; [|done].
  simpl. by rewrite Hs, Sk.
Qed.

Definition world (sj : TransferJob) (rfs : Fs) (wj : TransferJob) : World := mkWorld [sj] rfs [wj].
Definition reach (w w' : World) : Prop := exists n, turns n sfs w = Some w'.

Lemma turns_app n m w : turns (n + m) sfs w = match turns n sfs w with Some w' => turns m sfs w' | None => None end.
Proof. revert w. induction n as [|n IH]; intros w; simpl; [done|]. destruct (turn sfs w); [apply IH|done]. Qed.

Lemma reach_trans w1 w2 w3 : reach w1 w2 -> reach w2 w3 -> reach w1 w3.
Proof. intros [n H1] [m H2]. exists (n + m)%nat. by rewrite turns_app, H1. Qed.

Lemma reach_step w1 w2 w3 : turn sfs w1 = Some w2 -> reach w2 w3 -> reach w1 w3.
Proof. intros H1 [n H2]. exists (S n). simpl. by rewrite H1. Qed.

(** A turn that moves one block. *)
Lemma turn_block k it pos sj rfs wj b sj' rfs' wj' : items !! k = Some it -> opened k it pos sj ->
  id sj = id wj -> read sfs sj = (sj', Ok (Some b)) -> b_id b = id sj -> id wj' = id wj ->
  write rfs wj b = (rfs', wj', Ok tt) -> turn sfs (world sj rfs wj) = Some (world sj' rfs' wj').
Proof.
  intros Hk Ho Hid Hr Hb Hid' Hw. unfold turn, handle_read_jobs, world. cbn [reading].
  rewrite (init_opened _ _ _ _ Hk Ho). cbn [read_first].
  destruct Ho as (i & f & c & w & _ & _ & _ & (_ & _ & La & _)). rewrite La, Hr. simpl app.
  cbn [deliver command_of handle_fs writing remote]. unfold get_job. simpl List.find.
  rewrite Hb, Hid, Z.eqb_refl, Hw. simpl. by rewrite Z.eqb_refl.
Qed.

Lemma takeZ_dropZ_app (l : bytes) pos n : 0 <= pos -> 0 <= n -> takeZ pos l ++ takeZ n (dropZ pos l) = takeZ (pos + n) l.
Proof.
  intros Hp Hn. unfold takeZ, dropZ. rewrite Z2Nat.inj_add by done. by rewrite take_take_drop.
Qed.

(** The rest of an entry, once one block of it or none has been stored. *)
Lemma blocks_reach k it : items !! k = Some it -> forall m pos sj rfs wj,
  (length (dropZ pos (i_data it)) < m)%nat -> 0 <= pos <= len (i_data it) -> opened k it pos sj -> id sj = id wj ->
  (pos = 0 /\ ready k rfs wj \/ busy k (takeZ pos (i_data it)) rfs wj) ->
  exists sj' rfs' wj', reach (world sj rfs wj) (world sj' rfs' wj') /\ idle (S k) sj' /\ id sj' = id wj' /\
    busy k (i_data it) rfs' wj'.
Proof.
  intros Hk. pose proof BUF_SIZE_pos as Hbuf. induction m as [|m IH]; intros pos sj rfs wj Hm Hpos Ho Hid Hw; [lia|].
  destruct (read_step k it pos sj Hk Ho) as (sj1 & b & Hr & Hb1 & Hb2 & Hs1 & Hdata & Hnext).
  set (chunk := takeZ BUF_SIZE (dropZ pos (i_data it))) in *.
  assert (exists rfs1 wj1, write rfs wj b = (rfs1, wj1, Ok tt) /\ id wj1 = id wj /\
    busy k (takeZ pos (i_data it) ++ chunk) rfs1 wj1) as (rfs1 & wj1 & Hwr & Hid1 & Hb).
  { destruct Hw as [[-> Hw]|Hw].
    - destruct (write_first k it rfs wj b Hw Hk) as (f1 & j1 & ? & ? & B); [congruence|done|].
      rewrite Hdata in B. by exists f1, j1.
    - destruct (write_more k _ rfs wj b Hw) as (f1 & j1 & ? & ? & B); [congruence|done|].
      rewrite Hdata in B. by exists f1, j1. }
  pose proof (turn_block k it pos sj rfs wj b sj1 rfs1 wj1 Hk Ho Hid Hr Hb1 Hid1 Hwr) as Ht.
  unfold chunk in Hb. rewrite takeZ_dropZ_app in Hb; [|by apply Hpos|by apply Z.lt_le_incl].
  destruct (bool_decide_reflect (chunk = [])) as [E|E].
  - exists sj1, rfs1, wj1. split; [eapply reach_step; [exact Ht|by exists 0%nat]|]. split; [done|]. split; [congruence|].
    assert (dropZ pos (i_data it) = []) as Hd.
    { unfold chunk, takeZ in E. destruct (dropZ pos (i_data it)); [done|].
      destruct (Z.to_nat BUF_SIZE) eqn:Eb; [lia|done]. }
    assert (len (i_data it) <= pos) as Hge.
    { unfold dropZ in Hd. apply (f_equal length) in Hd. rewrite length_drop in Hd. unfold len. simpl in Hd. lia. }
    assert (takeZ (pos + BUF_SIZE) (i_data it) = i_data it) as Hall; [|by rewrite Hall in Hb].
    unfold takeZ. apply take_ge. unfold len in *. lia.
  - assert (len chunk = Z.min BUF_SIZE (len (i_data it) - pos)) as Hlen.
    { unfold chunk, takeZ, dropZ, len. rewrite length_take, length_drop. unfold len in *. lia. }
    assert (0 < len chunk) by (destruct chunk; [done|rewrite len_cons; pose proof (len_nonneg chunk); lia]).
    edestruct (IH (pos + len chunk) sj1 rfs1 wj1) as (sj2 & rfs2 & wj2 & R & ?);
      [| |exact Hnext|congruence| |exists sj2, rfs2, wj2; split; [eapply reach_step; [exact Ht|exact R]|done]].
    + unfold dropZ, len in *. rewrite length_drop in *. lia.
    + lia.
    + right. replace (takeZ (pos + len chunk) (i_data it)) with (takeZ (pos + BUF_SIZE) (i_data it)); [done|].
      destruct (Z.le_gt_cases BUF_SIZE (len (i_data it) - pos)); [f_equal; lia|].
      unfold takeZ. rewrite !take_ge by (unfold len in *; lia). done.
Qed.
(** Opening an entry: with overwrite detection a turn asks the other side. *)
Lemma open_reach k it sj rfs wj : items !! k = Some it -> idle k sj -> ready k rfs wj -> id sj = id wj ->
  exists oj wj', opened k it 0 oj /\ id oj = id wj' /\ ready k rfs wj' /\
    forall w, reading w <> [oj] -> reach (world oj rfs wj') w -> reach (world sj rfs wj) w.
Proof.
  intros Hk Hi Hr Hid. destruct (open_idle _ _ _ Hk Hi) as (i & f & Hi1 & Hf & Hm & Ho).
  pose proof Hi as (T & Ds & La & Re & De & Fi & Nu & St & Co & Wa & Sk).
  set (oj := with_flags (with_stream sj (Some (FileStream (mkHandle (Some i) 0)))) false false false) in *.
  destruct det eqn:Hdet.
  - destruct (check_digest_ok k it rfs wj (len (content f)) (mtime f) true Hr Hk) as (wj' & Hc & Hid' & Hr').
    exists (set_file_confirmed (with_flags oj false false true) true), wj'.
    split; [exists i, f, true, true; do 3 (split; [done|]);
      exact (conj T (conj Ds (conj La (conj Re (conj (eq_trans De (eq_sym Hdet)) (conj Fi (conj Nu (conj eq_refl (conj eq_refl (conj eq_refl eq_refl))))))))))|].
    split; [by rewrite Hid'|]. split; [done|]. intros w _. apply reach_step.
    unfold turn, handle_read_jobs, world. cbn [reading init_jobs]. rewrite La. unfold init_data_stream. rewrite Ho.
    assert (detecting oj = true) as -> by (unfold detecting; change (type oj) with (type sj); rewrite T;
      change (enable_overwrite_detection oj) with (enable_overwrite_detection sj); by rewrite De).
    unfold get_current_digest. simpl data_stream. cbv iota. simpl h_ino. cbv iota. rewrite Hi1, Hm.
    simpl app. cbn [read_first]. simpl is_last_job. rewrite La. unfold read at 1.
    simpl type. rewrite T. simpl enable_overwrite_detection. rewrite De. simpl andb. cbv iota.
    unfold job_completed. cbn -[handle_fs]. rewrite Hid, De, Re, Nu. cbn -[handle_fs]. rewrite Hc. simpl.
    unfold get_job. simpl. rewrite Hid, Z.eqb_refl. unfold confirm. simpl. rewrite Nu, Z.eqb_refl. simpl.
    done.
  - exists oj, wj. assert (opened k it 0 oj) as Hop.
    { exists i, f, false, false. do 2 (split; [done|]). split; [congruence|].
      exact (conj T (conj Ds (conj La (conj Re (conj (eq_trans De (eq_sym Hdet)) (conj Fi (conj Nu (conj eq_refl (conj eq_refl (conj eq_refl eq_refl)))))))))). }
    do 3 (split; [done|]). intros w Hne [[|n] Hn]; [by injection Hn as <-|].
    exists (S n). rewrite <- Hn. cbn [turns]. replace (turn sfs (world sj rfs wj)) with (turn sfs (world oj rfs wj)); [done|].
    unfold turn, handle_read_jobs, world. cbn [reading]. rewrite (init_opened _ _ _ _ Hk Hop).
    cbn [init_jobs]. rewrite La. unfold init_data_stream. rewrite Ho.
    assert (detecting oj = false) as -> by (unfold detecting; change (type oj) with (type sj); rewrite T;
      change (enable_overwrite_detection oj) with (enable_overwrite_detection sj); by rewrite De).
    done.
Qed.

(** An entry is sent and stored. *)
Lemma entry_reach k it sj rfs wj : items !! k = Some it -> idle k sj -> ready k rfs wj -> id sj = id wj ->
  exists sj' rfs' wj', reach (world sj rfs wj) (world sj' rfs' wj') /\ idle (S k) sj' /\ id sj' = id wj' /\
    ready (S k) rfs' wj'.
Proof.
  intros Hk Hi Hr Hid. destruct (open_reach k it sj rfs wj Hk Hi Hr Hid) as (oj & wj1 & Ho & Hid1 & Hr1 & Hgo).
  pose proof (len_nonneg (i_data it)).
  destruct (blocks_reach k it Hk (S (length (dropZ 0 (i_data it)))) 0 oj rfs wj1) as (sj' & rfs' & wj' & R & Hi' & Hid' & Hb);
    [lia|lia|done|done|by left|].
  exists sj', rfs', wj'. split; [|split; [done|split; [done|right; by exists k, it]]].
  apply Hgo, R. unfold world. cbn [reading]. intros [= ->].
  destruct Ho as (? & ? & ? & ? & _ & _ & _ & (_ & _ & _ & _ & _ & _ & _ & E & _)).
  destruct Hi' as (_ & _ & _ & _ & _ & _ & _ & E' & _). congruence.
Qed.

Lemma entries_reach m : forall k sj rfs wj, (k + m = length items)%nat -> idle k sj -> ready k rfs wj -> id sj = id wj ->
  exists sj' rfs' wj', reach (world sj rfs wj) (world sj' rfs' wj') /\ idle (length items) sj' /\ id sj' = id wj' /\
    ready (length items) rfs' wj'.
Proof.
  induction m as [|m IH]; intros k sj rfs wj Hm Hi Hr Hid.
  - assert (k = length items) as -> by lia. exists sj, rfs, wj. split; [by exists 0%nat|done].
  - destruct (lookup_lt_is_Some_2 items k ltac:(lia)) as [it Hk].
    destruct (entry_reach k it sj rfs wj Hk Hi Hr Hid) as (sj1 & rfs1 & wj1 & R & Hi1 & Hid1 & Hr1).
    destruct (IH (S k) sj1 rfs1 wj1) as (sj2 & rfs2 & wj2 & R2 & ?); [lia|done..|].
    exists sj2, rfs2, wj2. split; [by eapply reach_trans|done].
Qed.

(** The last turn: the reading job is done, the writing one is told. *)
Lemma last_turn sj rfs wj : idle (length items) sj -> ready (length items) rfs wj -> id sj = id wj ->
  turn sfs (world sj rfs wj) = Some (mkWorld [] (modify_time rfs wj) []).
Proof.
  intros (T & Ds & La & Re & De & Fi & Nu & St & Co & Wa & Sk) Hr Hid.
  assert (file_at (files sj) (file_num sj) = None) as Hf.
  { rewrite Fi, Nu, file_at_entries. by rewrite lookup_ge_None_2 by lia. }
  unfold turn, handle_read_jobs, world. cbn [reading init_jobs]. rewrite La. unfold init_data_stream, open_data_stream.
  rewrite Ds, Hf. simpl app. cbn [read_first]. change (is_last_job (with_stream sj None)) with (is_last_job sj).
  rewrite La. assert (read sfs (with_stream sj None) = (with_stream sj None, Ok None)) as ->.
  { unfold read. simpl. rewrite T, De, Co, Ds, Hf. by destruct (true && det && negb false). }
  unfold job_completed, job_error, job_skipped. simpl. rewrite De, Co, Wa, Sk, orb_true_r. simpl.
  rewrite Z.eqb_refl. rewrite Hid, Z.eqb_refl. done.
Qed.

Lemma transfer_reach sj wj : idle 0 sj -> ready 0 fs0 wj -> id sj = id wj ->
  exists n rfs, turns n sfs (world sj fs0 wj) = Some (mkWorld [] rfs []) /\ store (length items) None rfs.
Proof.
  intros Hi Hr Hid. destruct (entries_reach (length items) 0 sj fs0 wj) as (sj' & rfs & wj' & [n R] & Hi' & Hid' & Hr'); [done..|].
  exists (n + 1)%nat, (modify_time rfs wj'). rewrite turns_app, R. cbn [turns].
  rewrite (last_turn _ _ _ Hi' Hr' Hid'). split; [done|]. by apply ready_final.
Qed.
(** ** The receiving job is accepted *)
Lemma names_valid l : Forall (fun it => good_path (i_segs it)) l ->
  validate_each (map (fun it => mkFileEntry (name_of (i_segs it)) 0 (i_mtime it)) l) = Ok tt.
Proof.
  induction 1 as [|it l Hg Hl IH]; [done|]. simpl.
  by rewrite bool_decide_false, good_name_valid, IH by (try apply name_not_empty; done).
Qed.

Lemma names_clear l : (forall it, it ∈ l -> it ∈ items) -> store 0 None fs0 ->
  validate_all fs0 base (map (fun it => mkFileEntry (name_of (i_segs it)) 0 (i_mtime it)) l) = Ok tt.
Proof.
  intros Hl S. induction l as [|it l IH]; [done|]. simpl.
  destruct (proj1 (list_elem_of_lookup _ _) (Hl it ltac:(by left))) as [k Hk].
  assert (clear_path fs0 pb (i_segs it)) as Hc by (eapply (store_clear 0 None fs0 k it); [done|lia|done|by left]).
  pose proof (good_validated fs0 base pb (i_segs it) Hbase Hat (item_good _ _ Hk) Hc) as Hv.
  unfold join_validated_path in Hv. rewrite (good_name_valid _ (item_good _ _ Hk)) in Hv. simpl in Hv.
  destruct (validate_no_symlink_components _ _ _) as [[]|]; [|done]. simpl. apply IH. intros x Hx. apply Hl. by right.
Qed.

Lemma fresh_store : (forall p i, node_at fs0 p = Some (NFile i) -> is_Some (inodes fs0 !! i)) ->
  (forall p x, node_at fs0 (p ++ [x]) <> None -> node_at fs0 p = Some NDir) ->
  (forall q, D q -> node_at fs0 q = None) -> store 0 None fs0.
Proof.
  intros W1 W2 Hfree. split; [|apply keeps_dirs_refl|lia|done| |done].
  - split; [done|]. split; [|done]. intros p q i Hp H. by rewrite Hfree in H.
  - intros q Hq H. by rewrite Hfree in H.
Qed.

Lemma accepted jid total : store 0 None fs0 ->
  exists wj, handle_fs fs0 [] (NewWrite base jid 0 (map (fun it => (name_of (i_segs it), i_mtime it)) items) det total) =
    Some (fs0, [wj], []) /\ id wj = jid /\ ready 0 fs0 wj.
Proof.
  intros S. unfold handle_fs. rewrite map_map. cbn [fst snd].
  assert (set_files fs0 (new_write jid Generic (FilePath base) 0 det) (entries false) =
    Ok (with_files (new_write jid Generic (FilePath base) 0 det) (entries false)
      (u64_of (foldr Z.add 0 (map size (entries false)))))) as Hs.
  { unfold set_files. cbn [data_source new_write].
    assert (validate_transfer_file_names (entries false) = Ok tt) as ->.
    { pose proof (names_valid items Hgood) as H. change (validate_each (entries false) = Ok tt) in H.
      unfold validate_transfer_file_names. destruct (entries false) as [|f [|]]; [done| |done]. by destruct (bool_decide _). }
    pose proof (names_clear items (fun _ H => H) S) as H. change (validate_all fs0 base (entries false) = Ok tt) in H.
    cbn [result_bind]. by rewrite H. }
  change (map _ items) with (entries false). rewrite Hs. eexists. split; [done|]. split; [done|]. by left.
Qed.
End Store.
End Jobs.

(** ** A transfer is complete and exact *)

(** Every file of a node has its contents, every node a directory above it. *)
Definition tree (fs : Fs) : Prop :=
  (forall p i, node_at fs p = Some (NFile i) -> is_Some (inodes fs !! i)) /\
  (forall p x, node_at fs (p ++ [x]) <> None -> node_at fs p = Some NDir).

(** The files of [items] are below [pb], with their contents and times, and
    only their directories besides; nothing else changed. *)
Definition received (fs : Fs) (pb : list bytes) (items : list Item) (fs' : Fs) : Prop :=
  (forall it, it ∈ items -> view fs' (pb ++ i_segs it) = Some (VFile (mkInode (i_data it) (i64_of (i_mtime it))))) /\
  (forall q, below pb q = true -> node_at fs' q <> None ->
     (exists it, it ∈ items /\ q = pb ++ i_segs it) \/
     (node_at fs' q = Some NDir /\ exists it m, it ∈ items /\ q = pb ++ take m (i_segs it))) /\
  (forall q, below pb q = false -> node_at fs' q = node_at fs q /\ view fs' q = view fs q).

Lemma store_received fs pb items fs' : store fs pb items (length items) None fs' -> received fs pb items fs'.
Proof.
  intros S. split; [|split].
  - intros it [i Hi]%list_elem_of_lookup. eapply (st_done _ _ _ _ _ _ S); [|exact Hi]. by eapply lookup_lt_Some.
  - intros q Hq Hn. destruct (st_only _ _ _ _ _ _ S q Hq Hn) as [(i & it & _ & Hi & E)|[(? & ? & ? & _)|(Hd & i & it & m & _ & Hi & E & _)]].
    + left. exists it. split; [by eapply list_elem_of_lookup_2|done].
    + done.
    + right. split; [done|]. exists it, m. split; [by eapply list_elem_of_lookup_2|done].
  - intros q Hq. apply (st_out _ _ _ _ _ _ S). unfold D. by rewrite Hq.
Qed.

(** [C8] A transfer is complete and exact: for files with plain names that do
    not collide, sent to an existing and empty directory, with or without
    overwrite detection, the writing job is accepted, both jobs end after
    finitely many turns, and then the directory holds exactly the files, each
    with the bytes that were read and the announced time. *)
Theorem transfer_delivers `{ZstdLaws} show_digest parse_digest fs sfs base sbase pb items jid det total :
  base <> [] -> base_at fs (components base) pb -> tree fs -> (forall q, below pb q = true -> node_at fs q = None) ->
  Forall (fun it => good_path (i_segs it)) items -> separate items ->
  Forall (readable sfs sbase) items -> Z.of_nat (length items) < 2 ^ 31 ->
  exists wj, handle_fs show_digest parse_digest fs []
      (NewWrite base jid 0 (map (fun it => (name_of (i_segs it), i_mtime it)) items) det total) = Some (fs, [wj], []) /\
    exists n fs', turns show_digest parse_digest n sfs
      (mkWorld [new_read jid Generic (FilePath sbase) (entries items true) 0 det] fs [wj]) = Some (mkWorld [] fs' []) /\
      received fs pb items fs'.
Proof.
  intros Hb Hat [W1 W2] Hfree Hgood Hsep Hread Hcount.
  pose proof (fresh_store fs pb items W1 W2 Hfree) as S.
  destruct (accepted show_digest parse_digest fs base pb items Hb Hgood Hsep Hat det jid total S) as (wj & Hw & Hid & Hr).
  exists wj. split; [done|].
  destruct (transfer_reach show_digest parse_digest fs base pb items Hb Hgood Hsep Hat sfs sbase det Hread Hcount
    (new_read jid Generic (FilePath sbase) (entries items true) 0 det) wj) as (n & fs' & Ht & Hst); [done..|].
  exists n, fs'. split; [exact Ht|]. by apply store_received.
Qed.

(** ** A concrete transfer *)
Definition node_ok (fs : Fs) (kv : list bytes * Node) : bool :=
  match kv.2 with NFile i => match inodes fs !! i with Some _ => true | None => false end | _ => true end &&
  bool_decide (node_at fs (removelast kv.1) = Some NDir).
Definition tree_ok (fs : Fs) : bool := forallb (node_ok fs) (map_to_list (nodes fs)).

Lemma forallb_nodes (f : list bytes * Node -> bool) fs p n : forallb f (map_to_list (nodes fs)) = true ->
  nodes fs !! p = Some n -> f (p, n) = true.
Proof. intros H Hp. rewrite forallb_forall in H. apply H, list_elem_of_In, elem_of_map_to_list, Hp. Qed.

Lemma tree_ok_spec fs : tree_ok fs = true -> tree fs.
Proof.
  intros H. split.
  - intros [|s p] i Hp; [done|]. apply (forallb_nodes _ fs _ _ H), andb_true_iff in Hp as [Hp _].
    simpl in Hp. destruct (inodes fs !! i); [eauto|done].
  - intros p x Hp. destruct (node_at fs (p ++ [x])) as [n|] eqn:E; [|done].
    assert (nodes fs !! (p ++ [x]) = Some n) as E' by (unfold node_at in E; by destruct p).
    apply (forallb_nodes _ fs _ _ H), andb_true_iff in E' as [_ E']. apply bool_decide_eq_true in E'.
    cbn [fst] in E'. by rewrite removelast_last in E'.
Qed.

Lemma empty_dir_spec fs pb : forallb (fun kv => negb (below pb kv.1)) (map_to_list (nodes fs)) = true ->
  forall q, below pb q = true -> node_at fs q = None.
Proof.
  intros H q Hq. destruct q as [|s q]; [unfold below in Hq; rewrite andb_true_iff, !bool_decide_eq_true in Hq; simpl in Hq; lia|].
  simpl. destruct (nodes fs !! (s :: q)) as [n|] eqn:E; [|done].
  apply (forallb_nodes _ fs _ _ H) in E. simpl in E. by rewrite Hq in E.
Qed.

#[local] Existing Instance demo_zstd.
#[local] Existing Instance demo_zstd_laws.

Definition demo_items : list Item :=
  [ mkItem [str "a"; str "x.txt"] (str "hello hello hello hello ") 1700000000;
    mkItem [str "b.gz"] (str "packed") 1600000000; mkItem [str "a"; str "y"] [] 5 ].
Definition demo_source : Fs :=
  mkFs (list_to_map [([str "out"], NDir); ([str "out"; str "a"], NDir); ([str "out"; str "a"; str "x.txt"], NFile 1);
                     ([str "out"; str "b.gz"], NFile 2); ([str "out"; str "a"; str "y"], NFile 3)])
    (list_to_map [(1%nat, mkInode (str "hello hello hello hello ") 1700000000);
                  (2%nat, mkInode (str "packed") 1600000000); (3%nat, mkInode [] 5)]) [] 9.
Definition demo_target : Fs :=
  mkFs (list_to_map [([str "in"], NDir); ([str "note"], NFile 1)]) (list_to_map [(1%nat, mkInode (str "mine") 3)]) [] 100.

Lemma demo_separate : separate demo_items.
Proof.
  intros [|[|[|i]]] [|[|[|j]]] x y a b Hij Hx Hy Ha Hb Hp; try done; injection Hx as <-; injection Hy as <-;
    unfold paths in Ha, Hb; rewrite !elem_of_cons, elem_of_nil in Ha, Hb;
    destruct Hp as [t Hp]; revert Hp;
    (destruct Ha as [->|[->|[->|[]]]]; destruct Hb as [->|[->|[->|[]]]]; vm_compute; destruct t; congruence).
Qed.

Lemma transfer_delivers_witness : exists wj n fs',
  handle_fs (fun _ => []) (fun _ => None) demo_target []
    (NewWrite (str "/in") 7 0 (map (fun it => (name_of (i_segs it), i_mtime it)) demo_items) true 30) = Some (demo_target, [wj], []) /\
  turns (fun _ => []) (fun _ => None) n demo_source
    (mkWorld [new_read 7 Generic (FilePath (str "/out")) (entries demo_items true) 0 true] demo_target [wj]) =
    Some (mkWorld [] fs' []) /\
  received demo_target [str "in"] demo_items fs'.
Proof.
  destruct (transfer_delivers (fun _ => []) (fun _ => None) demo_target demo_source (str "/in") (str "/out") [str "in"]
    demo_items 7 true 30) as (wj & H1 & n & fs' & H2 & H3).
  - done.
  - by vm_compute.
  - apply tree_ok_spec. by vm_compute.
  - apply empty_dir_spec. by vm_compute.
  - unfold good_path, valid_seg, no_nul. repeat (constructor || apply conj); try done; rewrite ?list_elem_of_In; vm_compute; intuition congruence.
  - exact demo_separate.
  - repeat constructor; do 2 eexists; (split; [vm_compute; reflexivity|]); (split; [vm_compute; reflexivity|]); by vm_compute.
  - by vm_compute.
  - by exists wj, n, fs'.
Defined.
