(* ===== verification/FileSafety.v ===== *)
(** * What a peer can make a writing job touch

    The commands that reach [FileTransfer.handle_fs] come from the remote side.
    Whatever their order and contents, and whatever names of files they carry,
    they change nothing outside the directory that they are for, apart from the
    contents of files that are linked into it, as long as no symbolic link there
    has a name that the code opens without checking: one ending in [.download] or
    [.digest], or the name of a single file that is the path itself. *)
From S2P Require Import Prelude.
From S2P Require Import Encoding.
From S2P Require Import FileSystem.
From S2P Require Import FileTransfer.

(** A name of a file being received. *)
Definition temp (s : bytes) : Prop := exists t, s = t ++ str ".download" \/ s = t ++ str ".digest".

(** ** Moving a directory *)
Lemma below_prefix a k : bool_decide (k = a) || below a k = true <-> a `prefix_of` k.
Proof.
  rewrite orb_true_iff, bool_decide_eq_true. split.
  - intros [->|(x & _ & ->)%(D_inv a)]; [done|by exists x].
  - intros [[|y x] ->]; [left; by rewrite app_nil_r|right; by apply (D_app a)].
Qed.

Lemma move_dir_some m a b q n : move_dir m a b !! q = Some n ->
  exists k, k <> b /\ m !! k = Some n /\
    (a `prefix_of` k /\ q = b ++ drop (length a) k \/ ~ a `prefix_of` k /\ q = k).
Proof.
  unfold move_dir. intros H%elem_of_list_to_map_2. apply list_elem_of_fmap in H as ([k n'] & E & H). simpl in E.
  apply elem_of_map_to_list, lookup_delete_Some in H as [Hb H]. exists k. rewrite <- below_prefix.
  destruct (_ || _) eqn:Eb; injection E as -> ->; (split; [done|]; split; [done|]); [by left|by right].
Qed.

Lemma move_dir_key m a b k : is_Some (m !! k) -> k <> b ->
  is_Some (move_dir m a b !! (if decide (a `prefix_of` k) then b ++ drop (length a) k else k)).
Proof.
  intros [n H] Hb. destruct (move_dir m a b !! _) eqn:E; [by eexists|exfalso].
  apply not_elem_of_list_to_map_2 in E. apply E. rewrite list_elem_of_fmap.
  exists (if decide (a `prefix_of` k) then b ++ drop (length a) k else k, n). split; [done|].
  apply list_elem_of_fmap. exists (k, n). split.
  - simpl. f_equal. pose proof (below_prefix a k) as Hp. destruct (_ || _), (decide _); try done; exfalso; intuition congruence.
  - by apply elem_of_map_to_list, lookup_delete_Some.
Qed.

Lemma move_dir_spec m a b q : ~ a `prefix_of` b -> ~ b `prefix_of` a ->
  (forall x, x <> [] -> m !! (b ++ x) = None) ->
  (forall x, q = b ++ x -> move_dir m a b !! q = m !! (a ++ x)) /\
  (a `prefix_of` q -> move_dir m a b !! q = None) /\
  (~ a `prefix_of` q -> ~ b `prefix_of` q -> move_dir m a b !! q = m !! q).
Proof.
  intros Hab Hba Hb.
  assert (forall x y z, a ++ x = b ++ y ++ z -> False) as Hdis.
  { intros x y z E. destruct (prefix_weak_total a b (a ++ x)); [by exists x|by exists (y ++ z)|done..]. }
  split_and!.
  - intros x ->. destruct (move_dir m a b !! (b ++ x)) as [n|] eqn:E.
    + apply move_dir_some in E as (k & Hk & Hm & [[[y ->] E]|[Hn E]]).
      * rewrite drop_app_length in E. apply app_inv_head in E as ->. done.
      * subst k. destruct x; [by rewrite app_nil_r in Hk|]. by rewrite Hb in Hm.
    + destruct (m !! (a ++ x)) eqn:Em; [exfalso|done].
      destruct (move_dir_key m a b (a ++ x)) as [n9 Hs]; [by eexists|intros Ex; by apply (Hdis x [] []); rewrite app_nil_r|].
      rewrite decide_True in Hs by by exists x. rewrite drop_app_length in Hs. congruence.
  - intros [x ->]. destruct (move_dir m a b !! (a ++ x)) eqn:E; [exfalso|done].
    apply move_dir_some in E as (k & _ & _ & [[_ E]|[Hn E]]).
    + apply (Hdis x (drop (length a) k) []). by rewrite app_nil_r.
    + subst k. apply Hn. by exists x.
  - intros Hqa Hqb. destruct (move_dir m a b !! q) as [n|] eqn:E.
    + apply move_dir_some in E as (k & _ & Hm & [[_ E]|[_ ->]]); [|done]. exfalso. apply Hqb. rewrite E. by eexists.
    + destruct (m !! q) eqn:Em; [exfalso|done].
      destruct (move_dir_key m a b q) as [n9 Hs]; [by eexists|intros ->; by apply Hqb|].
      rewrite decide_False in Hs by done. congruence.
Qed.

Section Confined.
Context (fs0 : Fs) (cb : list Comp) (pb : list bytes) (tops : list bytes).

(** Files linked below [pb], and those that do not exist yet. *)
Definition own (fs : Fs) (i : nat) : Prop :=
  inodes fs !! i = None \/ exists q, below pb q = true /\ node_at fs q = Some (NFile i).
Definition closed (fs : Fs) : Prop := forall p x, node_at fs (p ++ [x]) <> None -> node_at fs p = Some NDir.
Definition temps_plain (fs : Fs) : Prop :=
  forall q s, below pb (q ++ [s]) = true -> temp s -> not_link (node_at fs (q ++ [s])).
(** The names for transfers of one file. *)
Definition tops_plain (fs : Fs) : Prop := forall s, s ∈ tops -> not_link (node_at fs (pb ++ [s])).

(** The way to the directory does not lead through what is below it. *)
Definition anchored : Prop := forall fs, cwd fs = cwd fs0 ->
  (forall q, below pb q = false -> node_at fs q = node_at fs0 q) -> base_at fs cb pb.
Context (Hanch : anchored).

Record inv (fs : Fs) : Prop := mkInv {
  iv_cwd : cwd fs = cwd fs0;
  iv_out q : below pb q = false -> node_at fs q = node_at fs0 q;
  iv_own i : own fs i -> own fs0 i;
  iv_ino i : ~ own fs0 i -> inodes fs !! i = inodes fs0 !! i;
  iv_closed : closed fs;
  iv_temps : temps_plain fs;
  iv_tops : tops_plain fs
}.

Lemma inv_base fs : inv fs -> base_at fs cb pb.
Proof. intros I. apply Hanch; apply I. Qed.

Lemma below_ne q : below pb q = true -> q <> [].
Proof. intros Hq ->. unfold below in Hq. rewrite andb_true_iff, !bool_decide_eq_true in Hq. simpl in Hq. lia. Qed.

Lemma below_app a : a <> [] -> below pb (pb ++ a) = true.
Proof. apply (D_app pb). Qed.

Lemma inv_step fs fs' : inv fs -> cwd fs' = cwd fs ->
  (forall q, below pb q = false -> node_at fs' q = node_at fs q) ->
  (forall q i, below pb q = true -> node_at fs' q = Some (NFile i) -> own fs0 i) ->
  (forall i, inodes fs' !! i <> inodes fs !! i -> own fs0 i) ->
  (forall i, inodes fs' !! i = None -> inodes fs !! i = None) ->
  closed fs' -> temps_plain fs' -> tops_plain fs' -> inv fs'.
Proof.
  intros I Hc Ho Hn Hi Hd Hcl Ht Htp. split; [rewrite Hc; apply I| | | |done|done|done].
  - intros q Hq. rewrite Ho by done. by apply I.
  - intros i [H|(q & Hq & H)]; [|by eapply Hn]. apply (iv_own _ I). left. by apply Hd.
  - intros i Hni. destruct (decide (inodes fs' !! i = inodes fs !! i)) as [->|Hne]; [by apply I|].
    exfalso. by apply Hni, Hi.
Qed.

(** No link on the way from [pb], the end included. *)
Definition plain (fs : Fs) (segs : list bytes) : Prop :=
  forall k, (0 < k <= length segs)%nat -> not_link (node_at fs (pb ++ take k segs)).

Lemma resolve_plain_to fs n fl segs : forall p q,
  (forall k, (0 < k <= length segs)%nat -> not_link (node_at fs (p ++ take k segs))) ->
  resolve n fs fl p (map Normal segs) = Ok q ->
  q = p ++ segs /\ (segs <> [] -> node_at fs p = Some NDir -> node_at fs (removelast (p ++ segs)) = Some NDir).
Proof.
  induction segs as [|s segs IH]; intros p q Hp; [rewrite resolve_nil, app_nil_r; by intros [= ->]|].
  simpl map. rewrite resolve_cons. pose proof (Hp 1%nat ltac:(simpl; lia)) as H1. simpl in H1. rewrite take_0 in H1.
  assert (segs = [] -> removelast (p ++ s :: segs) = p) as Hl by (intros ->; by rewrite removelast_last).
  destruct (node_at fs (p ++ [s])) as [[i| |t]|] eqn:E; try done.
  - destruct segs; [|done]. intros [= <-]. split; [done|]. by rewrite Hl.
  - intros Hr. apply IH in Hr as [-> Hd].
    + rewrite <- app_assoc in *. split; [done|]. intros _ Hpd. destruct (decide (segs = [])) as [->|Hne]; [by rewrite Hl|].
      by apply Hd.
    + intros k Hk. rewrite <- app_assoc. apply (Hp (S k)). simpl. lia.
  - destruct segs; [|done]. intros [= <-]. split; [done|]. by rewrite Hl.
Qed.

Lemma plain_resolve fs fl segs q : inv fs -> plain fs segs -> segs <> [] ->
  resolve MAXSYMLINKS fs fl (cwd fs) (cb ++ map Normal segs) = Ok q ->
  q = pb ++ segs /\ node_at fs (removelast (pb ++ segs)) = Some NDir.
Proof.
  intros I Hp Hne. destruct (inv_base _ I) as [Hb Hd]. destruct (resolve_app _ _ _ _ _ Hb Hd) as [m Hm].
  destruct segs as [|s segs]; [done|]. simpl map. rewrite Hm. intros Hr.
  apply (resolve_plain_to fs m fl (s :: segs)) in Hr as [-> H]; [|exact Hp]. auto.
Qed.

(** ** Each operation on a plain path below the directory *)
Definition keeps_plain (fs fs' : Fs) : Prop := forall q, not_link (node_at fs q) -> not_link (node_at fs' q).

Lemma keeps_plain_path fs fs' segs : keeps_plain fs fs' -> plain fs segs -> plain fs' segs.
Proof. intros K H k Hk. by apply K, H. Qed.

(** Setting one node to something that is not a link. *)
Lemma set_inv fs N I p v : inv fs -> below pb p = true -> node_at fs (removelast p) = Some NDir ->
  node_at fs p <> Some NDir -> not_link v ->
  (forall q, node_at (mkFs N I (cwd fs) (clock fs)) q = if decide (q = p) then v else node_at fs q) ->
  (forall i, v = Some (NFile i) -> own fs0 i) ->
  (forall i, I !! i <> inodes fs !! i -> own fs0 i) -> (forall i, I !! i = None -> inodes fs !! i = None) ->
  inv (mkFs N I (cwd fs) (clock fs)) /\ keeps_plain fs (mkFs N I (cwd fs) (clock fs)).
Proof.
  intros Iv Hb Hup Hnd Hl HN Hv Hi Hd. pose proof (below_ne _ Hb) as Hne. split.
  - apply (inv_step fs); try done.
    + intros q Hq. rewrite HN, decide_False; [done|]. intros ->. congruence.
    + intros q i Hq. rewrite HN. case_decide as E; [apply Hv|]. intros Hf. apply (iv_own _ Iv). right. by exists q.
    + unfold closed. eapply (closed_set (node_at fs) _ p v); try done. apply (iv_closed _ Iv).
    + intros q s Hq Hs. rewrite HN. case_decide; [done|]. by apply Iv.
    + intros s Hs. rewrite HN. case_decide; [done|]. by apply (iv_tops _ Iv).
  - intros q Hq. rewrite HN. by case_decide.
Qed.

Lemma inode_inv fs i f : inv fs -> own fs0 i -> inv (with_inodes fs (<[i := f]> (inodes fs))).
Proof.
  intros I Ho. apply (inv_step fs); try done; [| | |apply I|apply I|apply I].
  - intros q j Hq H. apply (iv_own _ I). right. by exists q.
  - intros j. simpl. destruct (decide (i = j)) as [->|]; [done|]. by rewrite lookup_insert_ne.
  - intros j. simpl. destruct (decide (i = j)) as [->|]; [by rewrite lookup_insert_eq|]. by rewrite lookup_insert_ne.
Qed.

Lemma own_at fs q i : inv fs -> below pb q = true -> node_at fs q = Some (NFile i) -> own fs0 i.
Proof. intros I Hq H. apply (iv_own _ I). right. by exists q. Qed.

Lemma unchanged fs : inv fs -> inv fs /\ keeps_plain fs fs.
Proof. intros I. split; [done|by intros q]. Qed.
#[local] Hint Resolve unchanged : core.

Lemma remove_inv fs segs : inv fs -> plain fs segs -> segs <> [] ->
  let fs' := (remove_file fs (cb ++ map Normal segs)).1 in inv fs' /\ keeps_plain fs fs'.
Proof.
  intros I Hp Hne. cbv zeta. unfold remove_file, llocate.
  destruct (resolve _ _ _ _ _) as [q|] eqn:E; [|by auto].
  destruct (plain_resolve _ _ _ _ I Hp Hne E) as [-> Hup]. pose proof (below_app segs Hne) as Hb.
  assert (node_at fs (pb ++ segs) <> Some NDir -> inv (with_nodes fs (delete (pb ++ segs) (nodes fs))) /\
    keeps_plain fs (with_nodes fs (delete (pb ++ segs) (nodes fs)))) as H.
  { intros Hnd. apply (set_inv fs _ (inodes fs) (pb ++ segs) None); try done.
    intros q. apply node_delete, below_ne, Hb. }
  destruct (node_at fs (pb ++ segs)) as [[i| |t]|]; try (by auto); by apply H.
Qed.

Lemma create_inv fs segs : inv fs -> plain fs segs -> segs <> [] ->
  let r := create fs (cb ++ map Normal segs) in inv r.1 /\ keeps_plain fs r.1 /\
  forall h i, r.2 = Ok h -> h_ino h = Some i -> own fs0 i.
Proof.
  intros I Hp Hne. cbv zeta. unfold create, locate.
  destruct (resolve _ _ _ _ _) as [q|] eqn:E; [|split_and!; [done|by intros q|done]].
  destruct (plain_resolve _ _ _ _ I Hp Hne E) as [-> Hup]. pose proof (below_app segs Hne) as Hb.
  destruct (node_at fs (pb ++ segs)) as [[i| |t]|] eqn:En; try (split_and!; [done|by intros q|done]).
  - pose proof (own_at _ _ _ I Hb En) as Ho. split; [by apply inode_inv|]. split; [by intros q|].
    by intros h j [= <-] [= <-].
  - set (i := fresh (dom (inodes fs))).
    assert (inodes fs !! i = None) as Hi by (apply not_elem_of_dom, is_fresh).
    assert (own fs0 i) as Ho by (apply (iv_own _ I); by left).
    destruct (set_inv fs (<[pb ++ segs := NFile i]> (nodes fs)) (<[i := mkInode [] (clock fs)]> (inodes fs))
      (pb ++ segs) (Some (NFile i))) as [I' K]; try done.
    + congruence.
    + intros q. apply node_insert, below_ne, Hb.
    + by intros j [= <-].
    + intros j. destruct (decide (i = j)) as [->|]; [done|]. by rewrite lookup_insert_ne.
    + intros j. destruct (decide (i = j)) as [->|]; [by rewrite lookup_insert_eq|]. by rewrite lookup_insert_ne.
    + split_and!; [done..|]. by intros h j [= <-] [= <-].
Qed.

Lemma write_all_inv fs h d : inv fs -> (forall i, h_ino h = Some i -> own fs0 i) ->
  let fs' := (write_all fs h d).1.1 in inv fs' /\ keeps_plain fs fs'.
Proof.
  intros I Hh. cbv zeta. unfold write_all. destruct (h_ino h) as [i|]; [|by auto].
  destruct (inodes fs !! i); [|by auto]. split; [apply inode_inv; auto|by intros q].
Qed.

Lemma write_file_inv fs segs d : inv fs -> plain fs segs -> segs <> [] ->
  let fs' := write_file fs (cb ++ map Normal segs) d in inv fs' /\ keeps_plain fs fs'.
Proof.
  intros I Hp Hne. cbv zeta. unfold write_file.
  destruct (create_inv fs segs I Hp Hne) as (I1 & K1 & Hh). destruct (create _ _) as [fs1 [h|e]]; [|by split].
  destruct (write_all_inv fs1 h d I1) as [I2 K2]; [intros i; by apply Hh|]. split; [done|]. intros q Hq. by apply K2, K1.
Qed.

Lemma set_mtime_inv fs segs t : inv fs -> plain fs segs -> segs <> [] ->
  inv (set_file_mtime fs (cb ++ map Normal segs) t).
Proof.
  intros I Hp Hne. unfold set_file_mtime, stat, locate. destruct (resolve _ _ _ _ _) as [q|] eqn:E; [|done].
  destruct (plain_resolve _ _ _ _ I Hp Hne E) as [-> _]. destruct (node_at _ _) as [[i| |]|] eqn:En; try done.
  destruct (inodes fs !! i); [|done]. apply inode_inv; [done|]. eapply own_at; [done|by apply below_app|done].
Qed.

Lemma mkdir_inv fs segs : inv fs -> plain fs segs ->
  let fs' := (mkdir fs (cb ++ map Normal segs)).1 in inv fs' /\ keeps_plain fs fs'.
Proof.
  intros I Hp. cbv zeta. unfold mkdir. destruct (decide (segs = [])) as [->|Hne].
  - simpl. rewrite app_nil_r. destruct (llocate_base _ _ _ (inv_base _ I)) as (q & -> & Hq). destruct (node_at fs q); [auto|done].
  - unfold llocate. destruct (resolve _ _ _ _ _) as [q|] eqn:E; [|by auto].
    destruct (plain_resolve _ _ _ _ I Hp Hne E) as [-> Hup]. destruct (node_at fs (pb ++ segs)) eqn:En; [by auto|].
    pose proof (below_app segs Hne) as Hb. apply (set_inv fs _ (inodes fs) (pb ++ segs) (Some NDir)); try done.
    + congruence.
    + intros q. apply node_insert, below_ne, Hb.
Qed.

Lemma plain_init fs segs s : plain fs (segs ++ [s]) -> plain fs segs.
Proof.
  intros H k Hk. specialize (H k). rewrite length_app, take_app_le in H by lia. apply H. simpl. lia.
Qed.

Lemma create_dirs_inv n : forall fs segs, inv fs -> plain fs segs ->
  let fs' := (create_dirs n fs (cb ++ map Normal segs)).1 in inv fs' /\ keeps_plain fs fs'.
Proof.
  induction n as [|n IH]; intros fs segs I Hp; cbv zeta; pose proof (mkdir_inv fs segs I Hp) as HM; cbv zeta in HM.
  - cbn [create_dirs]. destruct (cb ++ map Normal segs) as [|c cs] eqn:E; [by auto|].
    destruct (mkdir fs (c :: cs)) as [fs1 [[]|e]] eqn:Em; [done|]. destruct e; auto.
  - cbn [create_dirs]. destruct (cb ++ map Normal segs) as [|c cs] eqn:E; [by auto|].
    destruct (mkdir fs (c :: cs)) as [fs1 [[]|e]] eqn:Em; [done|]. destruct e; try (by auto).
    destruct (decide (segs = [])) as [->|Hne].
    { exfalso. simpl in E. rewrite app_nil_r in E. rewrite <- E in Em. unfold mkdir in Em.
      destruct (llocate_base _ _ _ (inv_base _ I)) as (q & El & Hq). rewrite El in Em. by destruct (node_at fs q). }
    destruct (exists_last Hne) as (segs' & s & ->). rewrite <- E, parent_snoc. apply plain_init in Hp as Hp'.
    destruct (IH fs segs' I Hp') as [I1 K1]. destruct (create_dirs n fs _) as [fs1' [[]|e]]; [|by split].
    destruct (mkdir_inv fs1' (segs' ++ [s])) as [I2 K2]; [done|by eapply keeps_plain_path|].
    destruct (mkdir fs1' _) as [fs2 [[]|e]]; [|by split]. split; [done|]. intros q Hq. by apply K2, K1.
Qed.

Lemma closed_up fs p x : closed fs -> x <> [] -> node_at fs (p ++ x) <> None -> node_at fs p = Some NDir.
Proof.
  intros C. revert p. induction x as [|s x IH]; intros p Hne H; [done|]. destruct (decide (x = [])) as [->|Hx]; [by eapply C|].
  replace (p ++ s :: x) with ((p ++ [s]) ++ x) in H by (by rewrite <- app_assoc).
  apply IH in H; [|done]. eapply C. by rewrite H.
Qed.

Lemma nodes_at fs q : q <> [] -> nodes fs !! q = node_at fs q.
Proof. by destruct q. Qed.

Lemma file_rename_inv fs a b n : inv fs -> plain fs b -> a <> [] -> b <> [] -> not_link (Some n) ->
  node_at fs (pb ++ a) = Some n -> n <> NDir -> node_at fs (pb ++ b) <> Some NDir -> node_at fs (pb ++ b) <> Some n ->
  node_at fs (removelast (pb ++ a)) = Some NDir -> node_at fs (removelast (pb ++ b)) = Some NDir ->
  let fs' := with_nodes fs (<[pb ++ b := n]> (delete (pb ++ a) (nodes fs))) in inv fs' /\ plain fs' b.
Proof.
  intros I Hp Ha Hb Hl En Hnd Hbd Hbn Ua Ub. cbv zeta.
  destruct (set_inv fs (delete (pb ++ a) (nodes fs)) (inodes fs) (pb ++ a) None) as [I1 K1]; try done.
  { by apply below_app. }
  { congruence. }
  { intros q. apply node_delete, below_ne, below_app, Ha. }
  set (fs1 := mkFs (delete (pb ++ a) (nodes fs)) (inodes fs) (cwd fs) (clock fs)) in *.
  assert (forall q, node_at fs1 q = if decide (q = pb ++ a) then None else node_at fs q) as N1.
  { intros q. apply node_delete, below_ne, below_app, Ha. }
  destruct (set_inv fs1 (<[pb ++ b := n]> (nodes fs1)) (inodes fs1) (pb ++ b) (Some n)) as [I2 K2]; try done.
  - by apply below_app.
  - rewrite N1. case_decide; [congruence|done].
  - rewrite N1. case_decide; [congruence|done].
  - intros q. apply (node_insert fs1), below_ne, below_app, Hb.
  - intros i [= ->]. eapply own_at; [exact I| |exact En]. by apply below_app.
  - split; [exact I2|]. intros k Hk. apply K2, K1, Hp, Hk.
Qed.

(** What was at [pa] and below is now at [p]. *)
Definition moved (fs fs' : Fs) (pa p : list bytes) : Prop :=
  (forall x, node_at fs' (p ++ x) = node_at fs (pa ++ x)) /\
  (forall x, node_at fs' (pa ++ x) = None) /\
  (forall q, ~ pa `prefix_of` q -> ~ p `prefix_of` q -> node_at fs' q = node_at fs q).

Lemma move_dir_moved fs pa p : pa <> [] -> p <> [] -> node_at fs pa = Some NDir ->
  ~ pa `prefix_of` p -> (forall x, x <> [] -> node_at fs (p ++ x) = None) ->
  moved fs (with_nodes fs (move_dir (nodes fs) pa p)) pa p.
Proof.
  intros Hpa Hp En Hab Hbe. set (fs' := with_nodes _ _).
  assert (forall x, pa ++ x <> [] /\ p ++ x <> []) as Hne by (intros x; by destruct pa, p).
  assert (~ p `prefix_of` pa) as Hba.
  { intros [x E]. destruct (decide (x = [])) as [->|Hx]; [by apply Hab; rewrite E, app_nil_r|]. rewrite E, Hbe in En; done. }
  assert (forall q, (forall x, q = p ++ x -> nodes fs' !! q = nodes fs !! (pa ++ x)) /\
    (pa `prefix_of` q -> nodes fs' !! q = None) /\
    (~ pa `prefix_of` q -> ~ p `prefix_of` q -> nodes fs' !! q = nodes fs !! q)) as HN.
  { intros q. apply move_dir_spec; [done..|]. intros x Hx. rewrite nodes_at by apply Hne. auto. }
  split_and!.
  - intros x. rewrite <- (nodes_at fs' (p ++ x)), <- (nodes_at fs (pa ++ x)) by apply Hne. by apply HN.
  - intros x. rewrite <- (nodes_at fs' (pa ++ x)) by apply Hne. apply HN. by exists x.
  - intros [|s q] Q1 Q2; [done|]. by apply HN.
Qed.

Lemma prefix_case (p pa q : list bytes) :
  (exists x, q = p ++ x) \/ (exists x, q = pa ++ x) \/ (~ pa `prefix_of` q /\ ~ p `prefix_of` q).
Proof.
  destruct (decide (p `prefix_of` q)) as [[x ->]|]; [left; by exists x|].
  destruct (decide (pa `prefix_of` q)) as [[x ->]|]; [right; left; by exists x|auto].
Qed.

Lemma prefix_snoc (p r : list bytes) s : p `prefix_of` r -> p `prefix_of` (r ++ [s]).
Proof. intros [x ->]. exists (x ++ [s]). by rewrite app_assoc. Qed.

Lemma moved_closed fs fs' pa p : moved fs fs' pa p -> closed fs -> ~ pa `prefix_of` p -> p <> [] ->
  node_at fs (removelast p) = Some NDir -> closed fs'.
Proof.
  intros (M1 & M2 & M3) C Hab Hne Up r s Hn. destruct (prefix_case p pa (r ++ [s])) as [[x E]|[[x E]|[Q1 Q2]]].
  - destruct x as [|s' x _] using rev_ind.
    + rewrite app_nil_r in E. assert (r = removelast p) as -> by (by rewrite <- E, removelast_last).
      rewrite M3; [done|..].
      * intros Q%(prefix_snoc _ _ s). by rewrite E in Q.
      * intros [y Ey]. rewrite Ey in E. apply (f_equal length) in E. rewrite !length_app in E. simpl in E. lia.
    + rewrite app_assoc in E. apply app_inj_tail in E as [-> ->]. rewrite M1.
      rewrite <- app_assoc, M1, app_assoc in Hn. by apply C in Hn.
  - by rewrite E, M2 in Hn.
  - rewrite M3 in Hn by done. apply C in Hn. rewrite M3; [done|intros Q; by apply Q1, prefix_snoc|intros Q; by apply Q2, prefix_snoc].
Qed.

Lemma moved_temps fs fs' a p : moved fs fs' (pb ++ a) p -> temps_plain fs -> a <> [] ->
  node_at fs (pb ++ a) = Some NDir -> temps_plain fs'.
Proof.
  intros (M1 & M2 & M3) T Ha En q s Hq Hs. destruct (prefix_case p (pb ++ a) (q ++ [s])) as [[x E]|[[x E]|[Q1 Q2]]].
  - rewrite E, M1. destruct x as [|s' x _] using rev_ind; [by rewrite app_nil_r, En|].
    rewrite app_assoc in E. apply app_inj_tail in E as [_ ->]. rewrite app_assoc. apply T; [|done].
    rewrite <- !app_assoc. apply below_app. by destruct a.
  - by rewrite E, M2.
  - rewrite M3 by done. by apply T.
Qed.

Lemma moved_tops fs fs' a b : moved fs fs' (pb ++ a) (pb ++ b) -> tops_plain fs -> b <> [] ->
  node_at fs (pb ++ a) = Some NDir -> tops_plain fs'.
Proof.
  intros (M1 & M2 & M3) T Hb En s Hs. destruct (prefix_case (pb ++ b) (pb ++ a) (pb ++ [s])) as [[x E]|[[x E]|[Q1 Q2]]].
  - rewrite E, M1. rewrite <- app_assoc in E. apply app_inv_head in E. destruct b as [|y b]; [done|]. injection E as _ E.
    symmetry in E. apply app_eq_nil in E as [_ ->]. by rewrite app_nil_r, En.
  - by rewrite E, M2.
  - rewrite M3 by done. by apply T.
Qed.

Lemma moved_plain fs fs' a b : moved fs fs' (pb ++ a) (pb ++ b) -> plain fs b ->
  node_at fs (pb ++ a) = Some NDir -> ~ (pb ++ a) `prefix_of` (pb ++ b) -> plain fs' b.
Proof.
  intros (M1 & M2 & M3) Hp En Hab k Hk. destruct (decide (k = length b)) as [->|Hne].
  - rewrite take_ge by done. specialize (M1 []). rewrite !app_nil_r in M1. by rewrite M1, En.
  - rewrite M3; [by apply Hp|..].
    + intros [y Ey]. apply Hab. exists (y ++ drop k b). rewrite app_assoc, <- Ey, <- app_assoc. by rewrite take_drop.
    + intros [y Ey]. apply (f_equal length) in Ey. rewrite !length_app, length_take in Ey. lia.
Qed.

Lemma dir_rename_inv fs a b : inv fs -> plain fs b -> a <> [] -> b <> [] -> node_at fs (pb ++ a) = Some NDir ->
  ~ (pb ++ a) `prefix_of` (pb ++ b) -> (forall x, x <> [] -> node_at fs ((pb ++ b) ++ x) = None) ->
  node_at fs (removelast (pb ++ b)) = Some NDir ->
  let fs' := with_nodes fs (move_dir (nodes fs) (pb ++ a) (pb ++ b)) in inv fs' /\ plain fs' b.
Proof.
  intros I Hp Ha Hb En Hab Hbe Ub. cbv zeta. set (fs' := with_nodes _ _).
  assert (pb ++ a <> [] /\ pb ++ b <> []) as [Hpa Hpb] by (by destruct pb, a, b).
  pose proof (move_dir_moved fs (pb ++ a) (pb ++ b) Hpa Hpb En Hab Hbe) as M. fold fs' in M.
  split; [|by eapply moved_plain]. pose proof M as (M1 & M2 & M3). apply (inv_step fs); try done.
  - intros q Hq. apply M3; intros [x ->]; rewrite <- app_assoc, below_app in Hq; try done; by destruct a, b.
  - intros q i Hq Hn. destruct (prefix_case (pb ++ b) (pb ++ a) q) as [[x ->]|[[x ->]|[Q1 Q2]]].
    + rewrite M1 in Hn. eapply own_at; [exact I| |exact Hn]. rewrite <- app_assoc. apply below_app. by destruct a.
    + by rewrite M2 in Hn.
    + rewrite M3 in Hn by done. by eapply own_at.
  - eapply moved_closed; [done|apply I|done..].
  - eapply moved_temps; [done|apply I|done..].
  - eapply moved_tops; [done|apply I|done..].
Qed.

Lemma empty_below fs p : closed fs -> (node_at fs p = None \/ node_at fs p = Some NDir /\ is_empty_dir fs p = true) ->
  forall x, x <> [] -> node_at fs (p ++ x) = None.
Proof.
  intros C H x Hx. destruct (node_at fs (p ++ x)) as [n|] eqn:E; [exfalso|done].
  destruct H as [H|[_ H]]; [by rewrite (closed_up fs p x C Hx) in H; [|rewrite E]|].
  assert (nodes fs !! (p ++ x) = Some n) as E' by (rewrite nodes_at; [done|]; by destruct p, x).
  apply (forallb_nodes _ fs _ _ H) in E'. simpl in E'. by rewrite (D_app p) in E'.
Qed.

Lemma rename_inv fs a b : inv fs -> plain fs a -> plain fs b -> a <> [] -> b <> [] ->
  let fs' := (rename fs (cb ++ map Normal a) (cb ++ map Normal b)).1 in inv fs' /\ plain fs' b.
Proof.
  intros I Pa Pb Ha Hb. cbv zeta. unfold rename, llocate.
  destruct (resolve _ _ _ _ (cb ++ map Normal a)) as [qa|] eqn:Ea; [|by split].
  destruct (resolve _ _ _ _ (cb ++ map Normal b)) as [qb|] eqn:Eb; [|by split].
  destruct (plain_resolve _ _ _ _ I Pa Ha Ea) as [-> Ua], (plain_resolve _ _ _ _ I Pb Hb Eb) as [-> Ub].
  assert (pb ++ a <> [] /\ pb ++ b <> []) as [Hpa Hpb] by (by destruct pb, a, b).
  assert (not_link (node_at fs (pb ++ a))) as La.
  { specialize (Pa (length a)). rewrite take_ge in Pa by done. apply Pa. destruct a; simpl; [done|lia]. }
  destruct (node_at fs (pb ++ a)) as [[i| |t]|] eqn:En; [| |done|by split].
  - destruct (node_at fs (pb ++ b)) as [[j| |t]|] eqn:En'; [|by split| |];
      (case_bool_decide as Eij; [by split|]); apply (file_rename_inv fs a b); try done; congruence.
  - rewrite !bool_decide_false by done. simpl. destruct (below (pb ++ a) (pb ++ b)) eqn:Eab; [by split|].
    case_bool_decide as Ne; [by split|].
    assert (~ (pb ++ a) `prefix_of` (pb ++ b)) as Hab.
    { rewrite <- below_prefix, Eab, orb_false_r. intros E%bool_decide_eq_true. by apply Ne. }
    destruct (node_at fs (pb ++ b)) as [[j| |t]|] eqn:En'; [by split| |by split|].
    + destruct (is_empty_dir fs (pb ++ b)) eqn:Ee; [|by split]. apply dir_rename_inv; try done.
      apply empty_below; [apply I|by right].
    + apply dir_rename_inv; try done. apply empty_below; [apply I|by left].
Qed.

(** ** Names that pass the checks *)
Lemma no_symlinks_plain fs todo : inv fs -> forall done_, plain fs done_ ->
  no_symlinks fs (cb ++ map Normal done_) (map Normal todo) = Ok tt -> plain fs (done_ ++ todo).
Proof.
  intros I. induction todo as [|s todo IH]; intros done_ Hp; [by rewrite app_nil_r|]. simpl.
  rewrite <- app_assoc. replace (map Normal done_ ++ [Normal s]) with (map Normal (done_ ++ [s])) by by rewrite map_app.
  assert (forall t, node_at fs (pb ++ done_ ++ [s]) = Some (NSymlink t) ->
    symlink_metadata fs (cb ++ map Normal (done_ ++ [s])) = Ok true) as Hlink.
  { intros t E. unfold symlink_metadata. rewrite (llocate_under fs cb pb (done_ ++ [s])); [simpl; by rewrite E|by apply inv_base|by destruct done_|].
    intros k Hk. rewrite length_app in Hk. simpl in Hk. rewrite take_app_le by lia.
    apply (closed_up fs _ (drop k (done_ ++ [s]))); [apply I| |].
    - intros E'%(f_equal length). rewrite length_drop, length_app in E'. simpl in E'. lia.
    - replace (take k done_) with (take k (done_ ++ [s])) by (rewrite take_app_le by lia; done).
      rewrite <- app_assoc, take_drop. congruence. }
  intros H. replace (done_ ++ s :: todo) with ((done_ ++ [s]) ++ todo) by by rewrite <- app_assoc. apply IH.
  - intros k Hk. rewrite length_app in Hk. simpl in Hk. destruct (decide (k = S (length done_))) as [->|].
    + rewrite take_ge by (rewrite length_app; simpl; lia). destruct (node_at _ _) as [[i| |t]|] eqn:E; try done.
      by rewrite (Hlink _ eq_refl) in H.
    + rewrite take_app_le by lia. apply Hp. lia.
  - by destruct (symlink_metadata _ _) as [[]|[]].
Qed.

(** ** The directories above
    Nothing has to be created on the way to the directory. *)
Definition rooted : Prop := head cb = Some RootDir \/ (node_at fs0 (cwd fs0) = Some NDir /\ below pb (cwd fs0) = false).
Lemma up_dir fs cur : closed fs -> node_at fs cur = Some NDir -> node_at fs (removelast cur) = Some NDir.
Proof.
  intros C H. destruct cur as [|s cur _] using rev_ind; [done|]. rewrite removelast_last. eapply C. by rewrite H.
Qed.
Lemma prefix_there fs n : closed fs -> forall a cur c b p q, node_at fs cur = Some NDir ->
  resolve n fs true cur (a ++ c :: b) = Ok p -> resolve n fs false cur a = Ok q -> node_at fs q <> None.
Proof.
  intros C. induction n as [|n IHn]; intros a; induction a as [|c a IH]; intros cur c' b p q Hd;
    try (rewrite resolve_nil; intros _ [= <-]; congruence); rewrite <- app_comm_cons, !resolve_cons;
    (destruct c as [| | |seg]; [..|destruct (node_at fs (cur ++ [seg])) as [[i| |t]|] eqn:E]);
    try (by apply IH); try (apply IH; by apply up_dir); try (by destruct a).
  destruct a as [|c2 a]; [intros _ [= <-]; congruence|]. cbn [app]. rewrite app_comm_cons, (app_assoc (components t)). by apply IHn.
Qed.
Lemma parent_made fs n cs c : inv fs -> rooted -> (exists b, cb = cs ++ c :: b) -> (create_dirs n fs cs).1 = fs.
Proof.
  intros I R. revert cs c.
  assert (forall cs c b, cb = cs ++ c :: b -> cs <> [] -> (mkdir fs cs).1 = fs) as Hm.
  { intros cs c b E Hne. unfold mkdir, llocate. destruct (resolve _ _ _ _ cs) as [q|] eqn:Eq; [|done].
    destruct (node_at fs q) eqn:En; [done|exfalso]. revert En. destruct (inv_base _ I) as [Hb _]. unfold locate in Hb. rewrite E in Hb.
    destruct R as [R|[R1 R2]].
    - destruct cs as [|c0 cs]; [done|]. rewrite E in R. injection R as ->. rewrite resolve_cons in Eq.
      rewrite <- app_comm_cons, resolve_cons in Hb. by eapply (prefix_there fs _ (iv_closed _ I) cs []).
    - eapply (prefix_there fs _ (iv_closed _ I) cs (cwd fs)); [|exact Hb|exact Eq]. rewrite (iv_cwd _ I), (iv_out _ I); done. }
  induction n as [|n IH]; intros cs c [b E]; cbn [create_dirs]; (destruct cs as [|c0 cs]; [done|]); pose proof (Hm _ _ _ E ltac:(done)) as H1;
    (destruct (mkdir fs (c0 :: cs)) as [fs1 [[]|e]]; [done|]); destruct e; try done.
  destruct (parent (c0 :: cs)) as [up|] eqn:Ep; [|done].
  assert (exists c1, c0 :: cs = up ++ [c1]) as [c1 Eu].
  { unfold parent in Ep. destruct (exists_last (l := c0 :: cs)) as (l & x & El); [done|]. rewrite El, last_snoc, removelast_last in Ep.
    exists x. rewrite El. destruct x; congruence. }
  assert (exists b', cb = up ++ c1 :: b') as Hup by (exists (c :: b); rewrite E, Eu, <- app_assoc; done).
  pose proof (IH up c1 Hup) as H2. destruct (create_dirs n fs up) as [fs1' [[]|e]]; simpl in H2; subst fs1'; [|done].
  pose proof (Hm _ _ _ E ltac:(done)) as H3. by destruct (mkdir fs (c0 :: cs)) as [fs2 [[]|e]].
Qed.
End Confined.

(** The segments that lead somewhere. *)
Definition proper (segs : list bytes) : list bytes := filter (fun s => s <> [] /\ s <> [dot]) segs.
Lemma seg_comps segs : existsb (fun s => bool_decide (s = [dot; dot])) segs = false ->
  concat (map seg_comp segs) = map Normal (proper segs).
Proof.
  induction segs as [|s segs IH]; [done|]. simpl. intros [H1 H2]%orb_false_iff. rewrite IH by done.
  unfold proper. rewrite filter_cons. unfold seg_comp. rewrite H1.
  destruct (bool_decide_reflect (s = [])) as [->|N1]; [rewrite decide_False; [done|intros [? ?]; done]|].
  destruct (bool_decide_reflect (s = [dot])) as [->|N2]; [rewrite decide_False; [done|intros [? ?]; done]|].
  by rewrite decide_True.
Qed.

Lemma split_ext ext : slash ∉ ext -> forall name ss s, split name = ss ++ [s] -> split (name ++ ext) = ss ++ [s ++ ext].
Proof.
  intros He. induction name as [|b name IH]; intros ss s.
  - simpl. intros E. destruct ss as [|? [|]]; simpl in E; [|done..]. injection E as <-. by apply split_no_slash.
  - simpl. destruct (bool_decide (b = slash)).
    + intros E. destruct ss as [|s0 ss]; simpl in E.
      * injection E as <- E. by destruct (split_nonempty name) as (? & ? & Hs); rewrite Hs in E.
      * injection E as <- E. simpl. f_equal. by apply IH.
    + destruct (split_nonempty name) as (s1 & segs & E1). rewrite E1. intros E. destruct ss as [|s0 ss].
      * injection E as <- ->. by rewrite (IH [] s1).
      * injection E as <- ->. by rewrite (IH (s1 :: ss) s).
Qed.

Lemma join_ext base name ext : name <> [] -> join base name ++ ext = join base (name ++ ext).
Proof.
  intros Hne. unfold join. assert (is_absolute (name ++ ext) = is_absolute name) as -> by (by destruct name).
  destruct (is_absolute name); [done|]. by destruct (_ || _); rewrite <- ?app_assoc.
Qed.

Lemma components_relative name : is_absolute name = false -> existsb (fun s => bool_decide (s = [dot; dot])) (split name) = false ->
  forall fs cur, no_symlinks fs cur (components name) = no_symlinks fs cur (map Normal (proper (split name))).
Proof.
  intros Ha Hd fs cur. rewrite <- seg_comps by done. unfold components. rewrite Ha.
  destruct (split name) as [|s segs] eqn:E; [done|]. simpl.
  destruct (bool_decide_reflect (s = [dot])) as [->|]; [|done]. by unfold seg_comp.
Qed.

Lemma proper_snoc ss s : s <> [] -> s <> [dot] -> proper (ss ++ [s]) = proper ss ++ [s].
Proof. intros. unfold proper. rewrite filter_app. f_equal. rewrite filter_cons, decide_True by done. done. Qed.

Lemma plain_app fs pb a b : plain pb fs (a ++ b) -> plain pb fs a.
Proof. intros H k Hk. specialize (H k). rewrite length_app, take_app_le in H by lia. apply H. lia. Qed.
Lemma no_names_dot name : name <> [] -> is_absolute name = false -> proper (split name) = [] -> ends_in_dot name = true.
Proof.
  intros Hn Ha Hp. unfold ends_in_dot. destruct (last _) as [s|] eqn:E.
  - apply last_Some in E as [l E]. assert (s ∈ filter (fun s => s <> []) (split name)) as Hs by (rewrite E; set_solver).
    apply list_elem_of_filter in Hs as [H1 H2]. apply bool_decide_eq_true. destruct (decide (s = [dot])) as [|Hd]; [done|exfalso].
    assert (s ∈ proper (split name)) as Hin by (by apply list_elem_of_filter). rewrite Hp in Hin. by apply not_elem_of_nil in Hin.
  - exfalso. apply last_None in E. destruct name as [|b name]; [done|]. unfold is_absolute in Ha. simpl in Ha.
    apply bool_decide_eq_false in Ha. simpl in E. rewrite bool_decide_false in E by congruence.
    destruct (split_nonempty name) as (s1 & segs & E1). rewrite E1, filter_cons, decide_True in E; done.
Qed.

(** Where a checked name and its companions lead. *)
Lemma companion base name ss s ext : base <> [] -> name <> [] -> is_absolute name = false -> split name = ss ++ [s] ->
  existsb (fun s => bool_decide (s = [dot; dot])) ss = false -> slash ∉ ext -> (2 < length ext)%nat ->
  components (join base name ++ ext) = components base ++ map Normal (proper ss ++ [s ++ ext]).
Proof.
  intros Hb Hne Ha E Dss He Hlen. rewrite join_ext by done.
  assert (is_absolute (name ++ ext) = false) as Ha' by (destruct name; [done|exact Ha]).
  rewrite components_join by done. rewrite (split_ext _ He _ _ _ E). f_equal.
  assert (s ++ ext <> [] /\ s ++ ext <> [dot] /\ s ++ ext <> [dot; dot]) as (N1 & N2 & N3).
  { split_and!; intros Ex%(f_equal length); rewrite length_app in Ex; simpl in Ex; lia. }
  rewrite seg_comps; [by rewrite proper_snoc|]. rewrite existsb_app, Dss. simpl. by rewrite bool_decide_false.
Qed.
Lemma checked_name fs0 fs base pb tops name path : base <> [] -> anchored fs0 (components base) pb -> inv fs0 pb tops fs ->
  name <> [] -> join_validated_path fs base name = Ok path ->
  exists ss s, let t := proper (ss ++ [s]) in plain pb fs t /\ components path = components base ++ map Normal t /\
    (t = [] -> ends_in_dot path = true) /\
    forall ext, slash ∉ ext -> (2 < length ext)%nat -> components (path ++ ext) = components base ++ map Normal (proper ss ++ [s ++ ext]).
Proof.
  intros Hb Hanch I Hne Hv. destruct (split_nonempty name) as (s1 & segs & E1).
  destruct (exists_last (l := split name)) as (ss & s & E); [by rewrite E1|]. clear E1 s1 segs.
  unfold join_validated_path in Hv. destruct (validate_file_name_no_traversal name) as [[]|] eqn:V; [|done]. simpl in Hv.
  unfold validate_file_name_no_traversal in V. case_bool_decide; [done|].
  destruct (existsb _ _) eqn:Dd; [done|]. destruct (is_absolute name) eqn:Ha; [done|].
  unfold validate_no_symlink_components, join_name in Hv. rewrite !bool_decide_false in Hv by done.
  destruct (no_symlinks _ _ _) as [[]|] eqn:Hl; [|done]. injection Hv as <-.
  rewrite components_relative in Hl by done.
  assert (existsb (fun s => bool_decide (s = [dot; dot])) ss = false) as Dss.
  { rewrite E, existsb_app in Dd. by apply orb_false_iff in Dd as [? _]. }
  exists ss, s. cbv zeta. rewrite <- E. split_and!.
  - apply (no_symlinks_plain fs0 (components base) pb tops Hanch fs (proper (split name)) I []); [intros k Hk; simpl in Hk; lia|].
    simpl. by rewrite app_nil_r.
  - by rewrite components_join, seg_comps by done.
  - intros Hp. rewrite ends_in_dot_join by done. by apply no_names_dot.
  - intros ext He Hlen. by apply companion.
Qed.

(** ** Jobs *)
Section Peer.
Context {Z_ : Zstd} (show_digest : FileDigest -> bytes) (parse_digest : bytes -> option FileDigest).
Context (fs0 : Fs) (base : bytes) (pb : list bytes) (tops : list bytes).
Context (Hbase : base <> []) (Hanch : anchored fs0 (components base) pb) (Hroot : rooted fs0 (components base) pb).
Let Inv := inv fs0 pb tops.

(** A transfer into the directory: of any files with names, or of a single file
    without one, whose path is the directory's with one of the names [tops]. *)
Definition command_ok (cmd : FsCmd) : Prop :=
  match cmd with
  | NewWrite path _ _ l _ _ =>
      path = base /\ (forall t, l <> [([], t)]) \/
      exists s t, s ∈ tops /\ valid_seg s /\ path = join base s /\ l = [([], t)]
  | _ => True
  end.
Definition entry_ok (p n : bytes) : Prop := p = base /\ n <> [] \/ exists s, s ∈ tops /\ valid_seg s /\ p = join base s /\ n = [].

(** A job below [base] holds no file of others. *)
Record job_inv (j : TransferJob) : Prop := mkJobInv {
  ji_type : type j = Generic;
  ji_source : exists p, data_source j = FilePath p /\ Forall (fun f => entry_ok p (name f)) (files j);
  ji_stream h i : data_stream j = Some (FileStream h) -> h_ino h = Some i -> own pb fs0 i
}.

Lemma job_entry j p n f : job_inv j -> data_source j = FilePath p -> file_at (files j) n = Some f -> entry_ok p (name f).
Proof.
  intros J Hp. unfold file_at. destruct (0 <=? n); [|done]. intros H%list_elem_of_lookup_2.
  destruct (ji_source _ J) as (p' & Hp' & F). assert (p' = p) as -> by congruence. rewrite Forall_forall in F. by apply F.
Qed.

(** The path of an entry, as [checked_name] describes it. *)
Definition at_entry (fs : Fs) (path : bytes) (t a : list bytes) (d g : bytes) : Prop :=
  (plain pb fs t /\ components path = components base ++ map Normal t /\ (t = [] -> ends_in_dot path = true)) /\
  (plain pb fs a /\ temp d /\ temp g) /\
  components (download_of path) = components base ++ map Normal (a ++ [d]) /\
  components (digest_of path) = components base ++ map Normal (a ++ [g]).

Lemma temp_download s : temp (s ++ str ".download").
Proof. exists s. by left. Qed.
Lemma temp_digest s : temp (s ++ str ".digest").
Proof. exists s. by right. Qed.
#[local] Hint Resolve temp_download temp_digest : core.

Lemma checked_entry fs p n path : Inv fs -> entry_ok p n -> join_validated_path fs p n = Ok path ->
  exists t a d g, at_entry fs path t a d g.
Proof.
  intros I R H. destruct (ext_facts (fun _ => None) []) as (E1 & _ & E3 & E4 & _ & E6). destruct R as [[-> Hn]|(s & Hs & V & -> & ->)].
  - destruct (checked_name fs0 fs base pb tops n path Hbase Hanch I Hn H) as (ss & s & Hp & Hc & Hd & He). cbv zeta in *.
    exists (proper (ss ++ [s])), (proper ss), (s ++ str ".download"), (s ++ str ".digest").
    split; [done|]. split; [|split; by apply He]. split; [|by split]. unfold proper in Hp. rewrite filter_app in Hp. by eapply plain_app.
  - unfold join_validated_path in H. simpl in H. unfold join_name in H. simpl in H. injection H as <-.
    pose proof V as (V1 & V2 & V3 & V4). assert (is_absolute s = false) as Ha.
    { unfold is_absolute. apply bool_decide_eq_false. destruct s as [|b s]; [done|]. simpl. intros [= ->]. apply V4. by left. }
    assert (split s = [] ++ [s]) as E by (by apply split_no_slash).
    exists [s], [], (s ++ str ".download"), (s ++ str ".digest"). split; [split; [|split; [|done]]|split; [|split; by apply (companion base s [] s)]].
    + intros k Hk. simpl in Hk. replace k with 1%nat by lia. by apply (iv_tops _ _ _ _ I).
    + rewrite components_join, E by done. cbn [app map concat]. by rewrite (seg_comp_valid s V).
    + split; [intros k Hk; simpl in Hk; lia|by split].
Qed.

Lemma temp_plain fs a t : Inv fs -> plain pb fs a -> temp t -> plain pb fs (a ++ [t]).
Proof.
  intros I Hp Ht k Hk. rewrite length_app in Hk. simpl in Hk. destruct (decide (k = S (length a))) as [->|].
  - rewrite take_ge by (rewrite length_app; simpl; lia). rewrite app_assoc. apply (iv_temps _ _ _ _ I); [|done].
    rewrite <- app_assoc. apply below_app. by destruct a.
  - rewrite take_app_le by lia. apply Hp. lia.
Qed.

Lemma snoc_ne (a : list bytes) s : a ++ [s] <> [].
Proof. by destruct a. Qed.
#[local] Hint Resolve snoc_ne : core.

Lemma entry_path_checked fs j e path : job_inv j -> Inv fs -> entry_path fs j = Some (e, path) ->
  exists t a d g, at_entry fs path t a d g.
Proof.
  intros J I. unfold entry_path, resolve_entry_path. destruct (ji_source _ J) as (p & Hp & _). rewrite (ji_type _ J), Hp.
  destruct (file_at (files j) (file_num j)) as [f|] eqn:Ef; [|done].
  destruct (join_validated_path fs p (name f)) as [q|] eqn:Ep; [|done]. intros [= <- <-].
  eapply checked_entry; [done|by eapply job_entry|done].
Qed.

(** The times of the directory itself are not part of the state. *)
Lemma mtime_inv fs t x : Inv fs -> plain pb fs t -> Inv (set_file_mtime fs (components base ++ map Normal t) x).
Proof.
  intros I Hp. destruct (decide (t = [])) as [->|Hne]; [|by eapply set_mtime_inv]. simpl. rewrite app_nil_r.
  unfold set_file_mtime, stat. destruct (inv_base _ _ _ _ Hanch _ I) as [-> ->]. done.
Qed.
Lemma modify_time_inv fs j : job_inv j -> Inv fs -> Inv (modify_time fs j).
Proof.
  intros J I. unfold modify_time. destruct (entry_path fs j) as [[e path]|] eqn:E; [|done].
  destruct (entry_path_checked _ _ _ _ J I E) as (t & a & d & g & (Hp & -> & Hdot) & (Ha & Hd & Hg) & -> & ->). cbv zeta.
  destruct (remove_inv fs0 _ pb tops Hanch fs (a ++ [g])) as [I1 K1]; eauto using temp_plain.
  destruct (ends_in_dot path) eqn:Ed; [apply mtime_inv; eauto using keeps_plain_path|].
  assert (t <> []) as Ht by (intros Et; specialize (Hdot Et); congruence).
  destruct (rename_inv fs0 _ pb tops Hanch (remove_file fs (components base ++ map Normal (a ++ [g]))).1
    (a ++ [d]) t) as [I2 P2]; eauto using temp_plain, keeps_plain_path. by apply mtime_inv.
Qed.

Lemma remove_download_inv fs j : job_inv j -> Inv fs -> Inv (remove_download_file fs j).
Proof.
  intros J I. unfold remove_download_file. destruct (entry_path fs j) as [[e path]|] eqn:E; [|done].
  destruct (entry_path_checked _ _ _ _ J I E) as (t & a & d & g & _ & (Ha & Hd & Hg) & -> & ->). cbv zeta.
  destruct (remove_inv fs0 _ pb tops Hanch fs (a ++ [d])) as [I1 K1]; eauto using temp_plain.
  eapply remove_inv; eauto using temp_plain, keeps_plain_path.
Qed.

(** Making the directories of an entry. *)
Lemma parents_inv fs path t a d g : Inv fs -> at_entry fs path t a d g ->
  let fs1 := match parent (components path) with Some pp => (create_dir_all fs pp).1 | None => fs end in
  Inv fs1 /\ keeps_plain fs fs1.
Proof.
  intros I ((Hp & -> & _) & _). cbv zeta. assert (Inv fs /\ keeps_plain fs fs) as Hsame by (split; [done|by intros q]).
  destruct t as [|x t _] using rev_ind.
  - simpl. rewrite app_nil_r. destruct (parent (components base)) as [pp|] eqn:Ep; [|done]. unfold parent in Ep.
    destruct (last (components base)) as [c|] eqn:El; [|done]. apply last_Some in El as [l El].
    assert (pp = l) as -> by (rewrite El, removelast_last in Ep; destruct c; congruence).
    unfold create_dir_all. rewrite (parent_made fs0 (components base) pb tops Hanch fs _ l c I Hroot); [done|by exists []].
  - rewrite parent_snoc. apply (create_dirs_inv fs0 _ pb tops Hanch (length (components base ++ map Normal t)) fs t); [done|by eapply plain_init].
Qed.
Lemma target_paths_inv fs j p f r : job_inv j -> data_source j = FilePath p -> Inv fs -> entry_ok p (name f) ->
  target_paths fs j p f = r -> Inv r.1 /\
  (forall path dp, r.2 = Ok (path, dp) -> exists a d g, (plain pb r.1 a /\ temp d /\ temp g) /\
     components path = components base ++ map Normal (a ++ [d]) /\
     exists x, dp = Some x /\ components x = components base ++ map Normal (a ++ [g])).
Proof.
  intros J Hs I R <-. unfold target_paths. rewrite (ji_type _ J).
  destruct (join_validated_path fs p (name f)) as [path|e] eqn:E; [|by split].
  destruct (checked_entry fs _ _ path I R E) as (t & a & d & g & H). destruct (parents_inv fs path t a d g I H) as [I1 K1].
  split; [exact I1|]. destruct H as (_ & (Ha & Hd & Hg) & H1 & H2). cbn [fst snd].
  intros ? ? [= <- <-]. exists a, d, g. split_and!; [by eapply keeps_plain_path|done..|by eexists].
Qed.

Lemma drop_digest_inv fs a g x : Inv fs -> plain pb fs a -> temp g -> components x = components base ++ map Normal (a ++ [g]) ->
  Inv (drop_digest fs (Some x)).1 /\ keeps_plain fs (drop_digest fs (Some x)).1.
Proof.
  intros I Hp Hg Hd. unfold drop_digest. rewrite Hd. destruct (exists_ _ _); [|split; [done|by intros q]].
  destruct (remove_inv fs0 _ pb tops Hanch fs (a ++ [g])) as [I1 K1]; eauto using temp_plain.
  by destruct (remove_file _ _) as [fs1 [[]|e]].
Qed.

Lemma stream_inv j st : job_inv j -> (forall h i, st = Some (FileStream h) -> h_ino h = Some i -> own pb fs0 i) ->
  job_inv (with_stream j st).
Proof. intros J H. split; [apply J|apply J|exact H]. Qed.

Lemma open_target_inv fs j p f r : job_inv j -> data_source j = FilePath p -> Inv fs -> entry_ok p (name f) ->
  open_target show_digest fs j p f = r -> Inv r.1.1 /\ job_inv r.1.2.
Proof.
  intros J Hs I R <-. unfold open_target. destruct (target_paths_inv fs j p f _ J Hs I R eq_refl) as [I1 H1].
  destruct (target_paths fs j p f) as [fs1 [[path dp]|e]]; [|done].
  destruct (H1 path dp eq_refl) as (a & d & g & (Hp & Hd & Hg) & Hc & x & -> & Hx). simpl in I1, Hp.
  destruct (drop_digest_inv fs1 a g x I1 Hp Hg Hx) as [I2 K2].
  destruct (drop_digest fs1 (Some x)) as [fs2 [[]|e]]; [|done]. simpl in I2, K2.
  assert (plain pb fs2 a) as Hp2 by by eapply keeps_plain_path.
  destruct (create_inv fs0 _ pb tops Hanch fs2 (a ++ [d])) as (I3 & K3 & Hh); eauto using temp_plain.
  rewrite Hc. destruct (create fs2 _) as [fs3 [h|e]]; [|done]. simpl in I3, K3, Hh. split.
  - rewrite Hx. eapply write_file_inv; eauto using temp_plain, keeps_plain_path.
  - apply stream_inv; [done|]. intros h' i [= <-]. by apply Hh.
Qed.

Lemma select_file_inv fs j b r : job_inv j -> Inv fs -> select_file show_digest fs j b = r ->
  Inv r.1.1 /\ job_inv r.1.2.
Proof.
  intros J I <-. unfold select_file. destruct (ji_source _ J) as (p & Hp & _). rewrite Hp.
  destruct (file_at (files j) (b_file_num b)) as [f|] eqn:Ef; [|done]. destruct (_ || _); [|done]. cbv zeta.
  refine (open_target_inv _ _ p f _ _ _ _ _ eq_refl); [split; apply J|exact Hp|by apply modify_time_inv|by eapply job_entry].
Qed.

Lemma put_inv fs j d r : job_inv j -> Inv fs -> put fs j d = r -> Inv r.1.1 /\ job_inv r.1.2.
Proof.
  intros J I <-. unfold put. destruct (data_stream j) as [[h|old pos]|] eqn:Es; [| |done].
  - destruct (write_all_inv fs0 pb tops fs h d) as [I1 _]; [done|intros i; by apply (ji_stream _ J)|].
    assert (h_ino (write_all fs h d).1.2 = h_ino h) as Eh.
    { unfold write_all. destruct (h_ino h) eqn:E; [|done]. by destruct (inodes fs !! n). }
    destruct (write_all fs h d) as [[fs1 h1] [[]|e]]; simpl in I1, Eh; (split; [done|]); apply stream_inv; try done;
      intros h' i [= <-]; rewrite Eh; by apply (ji_stream _ J).
  - split; [done|]. by apply stream_inv.
Qed.

Lemma write_inv fs j b r : job_inv j -> Inv fs -> write show_digest fs j b = r -> Inv r.1.1 /\ job_inv r.1.2.
Proof.
  intros J I <-. unfold write. destruct (negb _); [done|].
  destruct (select_file_inv fs j b _ J I eq_refl) as [I1 J1].
  destruct (select_file show_digest fs j b) as [[fs1 j1] [[]|e]]; [|done]. cbv zeta. simpl in I1, J1.
  set (d := if compressed b then _ else _). destruct (put_inv fs1 j1 d _ J1 I1 eq_refl) as [I2 J2].
  destruct (put fs1 j1 d) as [[fs2 j2] [[]|e]]; [|done]. split; [done|]. split; apply J2.
Qed.

Lemma opened_own fs t q i : Inv fs -> plain pb fs t -> locate fs (components base ++ map Normal t) = Ok q ->
  node_at fs q = Some (NFile i) -> own pb fs0 i.
Proof.
  intros I Ht Hl Hn. destruct (decide (t = [])) as [->|Hne].
  - simpl in Hl. rewrite app_nil_r in Hl. destruct (inv_base _ _ _ _ Hanch _ I) as [Hb Hd]. congruence.
  - destruct (plain_resolve fs0 _ pb tops Hanch fs true t q I Ht Hne Hl) as [-> _].
    eapply own_at; [done|by apply below_app|done].
Qed.
Lemma set_stream_offset_inv fs j n o j' : job_inv j -> Inv fs -> set_stream_offset fs j n o = Some j' -> job_inv j'.
Proof.
  intros J I. unfold set_stream_offset. destruct (ji_source _ J) as (p & Hp & _). rewrite Hp.
  destruct (file_at (files j) n) as [f|] eqn:Ef; [|done].
  unfold resolve_entry_path. rewrite (ji_type _ J).
  destruct (join_validated_path fs p (name f)) as [path|] eqn:E; [|by intros [= <-]].
  destruct (checked_entry fs _ _ path I (job_entry _ _ _ _ J Hp Ef) E) as (t & a & d & g & (Ht & Hc & _) & (Ha & Hd & Hg) & H1 & H2).
  rewrite Hc, H1, H2.
  set (h := if _ && _ then _ else _). assert (forall h' i, h = Some h' -> h_ino h' = Some i -> own pb fs0 i) as Hh.
  { intros h' i. unfold h. destruct (_ && _).
    - unfold open_write, stat. destruct (locate fs _) as [q|] eqn:El; [|done].
      destruct (node_at fs q) as [[j1| |]|] eqn:En; try done. intros [= <-] [= <-].
      eapply (opened_own fs (a ++ [d])); eauto using temp_plain.
    - destruct (exists_ _ _); [|done]. unfold open_read. destruct (locate fs _) as [q|] eqn:El; [|done]. simpl.
      destruct (node_at fs q) as [[j1| |]|] eqn:En; try done; intros [= <-] [= <-]. by eapply (opened_own fs t). }
  intros [= <-]. destruct h as [h|]; [|done]. split; [apply J..|]. simpl. intros h' i [= <-]. simpl. by apply Hh.
Qed.

Lemma confirm_inv fs j r j' : job_inv j -> Inv fs -> confirm fs j r = Some j' -> job_inv j'.
Proof.
  intros J I. unfold confirm. destruct (negb _); [by intros [= <-]|]. destruct (c_union r) as [[s|o]|].
  - intros [= <-]. destruct s; [|by split; apply J]. split; [apply J..|done].
  - destruct (0 <? o); [|intros [= <-]; split; apply J]. apply set_stream_offset_inv; [split; apply J|done].
  - by intros [= <-].
Qed.

(** ** The commands *)
Lemma find_job jid jobs j : Forall job_inv jobs -> get_job jid jobs = Some j -> job_inv j.
Proof. intros F [H _]%List.find_some. rewrite Forall_forall in F. by apply F, list_elem_of_In. Qed.

Lemma update_inv jid j jobs : Forall job_inv jobs -> job_inv j -> Forall job_inv (update_job jid j jobs).
Proof. intros F J. induction F; simpl; [done|]. destruct (_ =? _); by constructor. Qed.

Lemma remove_job_inv jid jobs : Forall job_inv jobs ->
  Forall job_inv (remove_job jid jobs).2 /\ forall j, (remove_job jid jobs).1 = Some j -> job_inv j.
Proof.
  induction 1 as [|j jobs J F [IH1 IH2]]; simpl; [done|]. destruct (_ =? _); [split; [done|by intros ? [= <-]]|].
  destruct (remove_job jid jobs) as [r l]. simpl in *. split; [by constructor|done].
Qed.

Lemma each_named l : validate_each l = Ok tt -> Forall (fun f => name f <> []) l.
Proof.
  induction l as [|f l IH]; intros H; [constructor|]. simpl in H. case_bool_decide; [done|].
  destruct (validate_file_name_no_traversal (name f)) as [[]|]; [|done]. constructor; [done|]. by apply IH.
Qed.
Lemma names_ok p (l : list (bytes * Z)) : p = base /\ (forall t, l <> [([], t)]) \/ (exists s t, s ∈ tops /\ valid_seg s /\ p = join base s /\ l = [([], t)]) ->
  validate_transfer_file_names (map (fun e : bytes * Z => mkFileEntry e.1 0 e.2) l) = Ok tt -> Forall (fun e => entry_ok p e.1) l.
Proof.
  intros [[-> H]|(s & t & Hs & V & -> & ->)] Hv; [|by constructor; [right; exists s|]].
  assert (validate_each (map (fun e : bytes * Z => mkFileEntry e.1 0 e.2) l) = Ok tt) as He.
  { destruct l as [|[n t] [|]]; [done| |done]. simpl in *. case_bool_decide as En; [|done]. exfalso. apply (H t). by rewrite En. }
  apply each_named in He. rewrite Forall_map in He. eapply Forall_impl; [exact He|]. intros e Hn. left. split; [done|exact Hn].
Qed.
Lemma new_job_inv p jid num det l fs j : Forall (fun e => entry_ok p e.1) l ->
  set_files fs (new_write jid Generic (FilePath p) num det) (map (fun e : bytes * Z => mkFileEntry e.1 0 e.2) l) = Ok j ->
  forall t, job_inv (with_files j (files j) t).
Proof.
  intros F. unfold set_files. destruct (validate_transfer_file_names _) as [[]|]; [|done]. simpl.
  destruct (validate_all _ _ _) as [[]|]; [|done]. intros [= <-] t. split; try done. simpl. exists p. split; [done|].
  rewrite Forall_map. done.
Qed.

Lemma handle_fs_inv fs jobs cmd fs' jobs' out : Inv fs -> Forall job_inv jobs -> command_ok cmd ->
  handle_fs show_digest parse_digest fs jobs cmd = Some (fs', jobs', out) -> Inv fs' /\ Forall job_inv jobs'.
Proof.
  intros I F C. destruct cmd as [path jid num l det total|jid|jid num|jid num e|b|jid num sz lm up res|c]; simpl.
  - destruct (set_files _ _ _) as [j|e] eqn:E; intros [= <- <- <-]; [|done].
    split; [done|]. apply Forall_app. split; [done|]. constructor; [|done]. eapply new_job_inv; [|exact E]. apply names_ok; [exact C|].
    unfold set_files in E. by destruct (validate_transfer_file_names _) as [[]|].
  - destruct (remove_job_inv jid jobs F) as [F' J]. destruct (remove_job jid jobs) as [[j|] l]; intros [= <- <- <-]; [|done].
    split; [|done]. apply remove_download_inv; [by apply J|done].
  - destruct (remove_job_inv jid jobs F) as [F' J]. destruct (remove_job jid jobs) as [[j|] l]; intros [= <- <- <-]; [|done].
    split; [|done]. apply modify_time_inv; [by apply J|done].
  - destruct (remove_job_inv jid jobs F) as [F' J]. by destruct (remove_job jid jobs) as [[j|] l]; intros [= <- <- <-].
  - destruct (get_job (b_id b) jobs) as [j|] eqn:E; [|by intros [= <- <- <-]].
    destruct (write_inv fs j b _ (find_job _ _ _ F E) I eq_refl) as [I1 J1].
    destruct (write show_digest fs j b) as [[fs1 j1] r]. intros [= <- <- <-]. split; [done|by apply update_inv].
  - destruct (get_job jid jobs) as [j|] eqn:E; [|by intros [= <- <- <-]].
    destruct (file_at _ _), (data_source j) eqn:Eds; try (by intros [= <- <- <-]).
    destruct (is_write_need_confirmation _ _ _ _ _); intros [= <- <- <-]; [|done]. split; [done|].
    apply update_inv; [done|]. pose proof (find_job _ _ _ F E) as J. split; apply J.
  - destruct (get_job (c_id c) jobs) as [j|] eqn:E; [|by intros [= <- <- <-]].
    destruct (confirm fs j c) as [j'|] eqn:Ec; [|done]. intros [= <- <- <-]. split; [done|].
    apply update_inv; [done|]. eapply confirm_inv; [by eapply find_job|done|done].
Qed.

(** The connection manager's loop; [None] is a panic. *)
Fixpoint handle_all (fs : Fs) (jobs : list TransferJob) (cmds : list FsCmd) : option (Fs * list TransferJob) :=
  match cmds with
  | [] => Some (fs, jobs)
  | cmd :: cmds =>
      match handle_fs show_digest parse_digest fs jobs cmd with
      | Some (fs, jobs, _) => handle_all fs jobs cmds
      | None => None
      end
  end.

Lemma handle_all_inv cmds : forall fs jobs fs' jobs', Inv fs -> Forall job_inv jobs -> Forall command_ok cmds ->
  handle_all fs jobs cmds = Some (fs', jobs') -> Inv fs'.
Proof.
  induction cmds as [|cmd cmds IH]; intros fs jobs fs' jobs' I F C; simpl; [by intros [= <- <-]|].
  inversion C as [|?? C1 C2]; subst. destruct (handle_fs _ _ fs jobs cmd) as [[[fs1 jobs1] out]|] eqn:E; [|done].
  destruct (handle_fs_inv _ _ _ _ _ _ I F C1 E). by apply IH.
Qed.
End Peer.

(** A directory named by its own absolute path is reached past nothing below
    it. *)
Lemma absolute_anchored fs pb : node_at fs pb = Some NDir -> closed fs -> anchored fs (RootDir :: map Normal pb) pb.
Proof.
  intros Hd C fs' _ Ho.
  assert (forall k, node_at fs (take k pb) = Some NDir) as Hk.
  { intros k. destruct (decide (drop k pb = [])) as [E|Hne].
    - rewrite <- (take_drop k pb), E, app_nil_r in Hd. done.
    - eapply closed_up; [exact C|exact Hne|]. by rewrite take_drop, Hd. }
  assert (forall k, node_at fs' (take k pb) = Some NDir) as Hk'.
  { intros k. rewrite Ho; [done|]. unfold below. apply andb_false_iff. right.
    apply bool_decide_eq_false. rewrite length_take. lia. }
  split; [|specialize (Hk' (length pb)); by rewrite take_ge in Hk'].
  unfold locate. rewrite resolve_cons. destruct (decide (pb = [])) as [->|Hne]; [by rewrite resolve_nil|].
  assert (node_at fs' pb = Some NDir) as Hpb by (specialize (Hk' (length pb)); by rewrite take_ge in Hk').
  rewrite (resolve_plain fs' _ true pb []); [done|done|intros k _; apply Hk'|left; simpl; by rewrite Hpb].
Qed.

(** [C7] Whatever commands the remote side sends for transfers into one
    directory, in whatever order, under whatever names and with whatever contents,
    nothing outside the directory is created, removed, renamed or overwritten.  A
    transfer into the directory names it and lists files with names of any kind, or
    is of a single file without a name (the source takes the path itself), whose
    path is the directory's and one of the names [tops].  What the code does not
    check is assumed: no symbolic link below the directory is called [*.download]
    or [*.digest], none of [tops] is a link at first, and the working directory is
    not inside the directory, unless the directory's path is absolute. *)
Theorem peer_confined `{Zstd} show_digest parse_digest fs base pb tops cmds fs' jobs' :
  base <> [] -> anchored fs (components base) pb -> rooted fs (components base) pb -> closed fs ->
  temps_plain pb fs -> tops_plain pb tops fs ->
  Forall (command_ok base tops) cmds -> handle_all show_digest parse_digest fs [] cmds = Some (fs', jobs') ->
  (forall q, below pb q = false -> node_at fs' q = node_at fs q) /\
  (forall i, is_Some (inodes fs !! i) -> (forall q, below pb q = true -> node_at fs q <> Some (NFile i)) ->
     inodes fs' !! i = inodes fs !! i).
Proof.
  intros Hb Ha Hr C T Tp F Hrun.
  assert (inv fs pb tops fs) as I0 by by split.
  pose proof (handle_all_inv show_digest parse_digest fs base pb tops Hb Ha Hr cmds fs [] fs' jobs' I0 (Forall_nil_2 _) F Hrun) as I.
  split; [apply I|]. intros i [f Hf] Hi. apply (iv_ino _ _ _ _ I). intros [E|(q & Hq & E)]; [congruence|by eapply Hi].
Qed.

(** ** A hostile peer *)
Definition is_temp (s : bytes) : bool :=
  existsb (fun e => bool_decide (drop (length s - length e) s = e)) [str ".download"; str ".digest"].
Definition temp_ok (kv : list bytes * Node) : bool :=
  match last kv.1, kv.2 with Some s, NSymlink _ => negb (is_temp s) | _, _ => true end.
Definition not_at (pb : list bytes) (i : nat) (kv : list bytes * Node) : bool :=
  negb (below pb kv.1 && bool_decide (kv.2 = NFile i)).

Lemma is_temp_spec s : temp s -> is_temp s = true.
Proof.
  intros [t Ht]. unfold is_temp. cbn [existsb]. rewrite !orb_true_iff, !bool_decide_eq_true.
  destruct Ht as [-> | ->]; [left|right; left]; rewrite length_app;
    (replace (_ + _ - _)%nat with (length t) by lia); apply drop_app_length.
Qed.

Lemma temps_ok_spec fs pb : forallb temp_ok (map_to_list (nodes fs)) = true -> temps_plain pb fs.
Proof.
  intros H q s Hq Hs. destruct (node_at fs (q ++ [s])) as [n|] eqn:En; [|done].
  rewrite <- nodes_at in En by by destruct q. apply (forallb_nodes temp_ok fs _ _ H) in En.
  unfold temp_ok in En. cbn [fst snd] in En. rewrite last_snoc in En. destruct n; try done. by rewrite is_temp_spec in En.
Qed.

Lemma not_at_spec fs pb i : forallb (not_at pb i) (map_to_list (nodes fs)) = true ->
  forall q, below pb q = true -> node_at fs q <> Some (NFile i).
Proof.
  intros H q Hq En. rewrite <- nodes_at in En by (by eapply below_ne).
  apply (forallb_nodes (not_at pb i) fs _ _ H) in En. unfold not_at in En. cbn [fst snd] in En.
  by rewrite Hq, bool_decide_true in En.
Qed.

(** [/in] holds a link [evil] to [/etc]. *)
Definition hostile_target : Fs :=
  mkFs (list_to_map [([str "in"], NDir); ([str "in"; str "evil"], NSymlink (str "/etc")); ([str "etc"], NDir);
                     ([str "etc"; str "passwd"], NFile 1)]) (list_to_map [(1%nat, mkInode (str "root") 3)]) [] 100.
Definition hostile_commands : list FsCmd :=
  [ NewWrite (str "/in") 1 0 [(str "../etc/passwd", 0)] false 0; NewWrite (str "/in") 2 0 [(str "evil/passwd", 0)] false 0;
    NewWrite (str "/in") 3 0 [(str "ok", 7); (str "sub/./evil", 7)] false 0;
    WriteBlock (mkBlock 3 0 (str "data") false); WriteBlock (mkBlock 3 1 (str "more") false); WriteDone 3 1;
    NewWrite (str "/in") 4 0 [(str ".", 7); (str "sub/", 7)] false 0; WriteBlock (mkBlock 4 0 (str "dot") false);
    WriteBlock (mkBlock 4 1 (str "dir") false); WriteDone 4 1;
    NewWrite (str "/in/one") 5 0 [([], 7)] false 0; WriteBlock (mkBlock 5 0 (str "single") false); WriteDone 5 0;
    SendConfirm (mkConfirm 2 0 (Some (OffsetBlk 5))); CancelWrite 2 ].

Lemma hostile_closed : closed hostile_target.
Proof. assert (tree_ok hostile_target = true) as H%tree_ok_spec by by vm_compute. exact (proj2 H). Qed.

#[local] Existing Instance demo_zstd.

Lemma peer_confined_witness : exists fs' jobs',
  handle_all (fun _ => []) (fun _ => None) hostile_target [] hostile_commands = Some (fs', jobs') /\
  file_of fs' (components (str "/in/sub/evil")) = Some (mkInode (str "more") 7) /\
  file_of fs' (components (str "/in/one")) = Some (mkInode (str "single") 7) /\
  (forall q, below [str "in"] q = false -> node_at fs' q = node_at hostile_target q) /\
  inodes fs' !! 1%nat = Some (mkInode (str "root") 3).
Proof.
  assert (match handle_all (fun _ => []) (fun _ => None) hostile_target [] hostile_commands with
    | Some (fs', _) => bool_decide (file_of fs' (components (str "/in/sub/evil")) = Some (mkInode (str "more") 7)) &&
                       bool_decide (file_of fs' (components (str "/in/one")) = Some (mkInode (str "single") 7))
    | None => false end = true) as Hf by (vm_compute; reflexivity).
  destruct (handle_all (fun _ => []) (fun _ => None) hostile_target [] hostile_commands) as [[fs' jobs']|] eqn:E; [|done].
  exists fs', jobs'. split; [done|]. apply andb_true_iff in Hf as [Hf1%bool_decide_eq_true Hf2%bool_decide_eq_true].
  split; [exact Hf1|]. split; [exact Hf2|].
  destruct (peer_confined (fun _ => []) (fun _ => None) hostile_target (str "/in") [str "in"] [str "one"] hostile_commands fs' jobs') as [H1 H2].
  - done.
  - apply (absolute_anchored hostile_target [str "in"]); [done|]. exact hostile_closed.
  - left. reflexivity.
  - exact hostile_closed.
  - apply temps_ok_spec. by vm_compute.
  - intros s Hs. apply list_elem_of_singleton in Hs as ->. exact I.
  - assert (forall (n : bytes) (x : Z) (l : list (bytes * Z)), n <> [] -> forall t, (n, x) :: l <> [([], t)]) as Hne by congruence.
    assert (command_ok (str "/in") [str "one"] (NewWrite (str "/in/one") 5 0 [([], 7)] false 0)) as Hone.
    { right. exists (str "one"), 7. split; [by left|]. split; [|by split].
      split; [done|]. split; [done|]. split; [done|]. apply (bool_decide_unpack _). vm_compute. exact I. }
    unfold hostile_commands. do 3 (apply Forall_cons_2; [left; split; [reflexivity|by apply Hne]|]).
    do 3 (apply Forall_cons_2; [exact I|]). apply Forall_cons_2; [left; split; [reflexivity|by apply Hne]|].
    do 3 (apply Forall_cons_2; [exact I|]). apply Forall_cons_2; [exact Hone|]. do 4 (apply Forall_cons_2; [exact I|]). apply Forall_nil_2.
  - done.
  - split; [exact H1|]. rewrite H2; [done|by eexists|].
    apply not_at_spec. by vm_compute.
Defined.
