(* ===== verification/TerminalBuffer.v ===== *)
(** * Terminal output ([src/server/terminal_service.rs])

    [Module OutputBuffer] keeps the recent output of a terminal by lines, for
    replay when a viewer reconnects; [Module Utf8Chunks] cuts what is read from
    the terminal at character boundaries. *)
From S2P Require Import Prelude.
From S2P Require Import Encoding.

Definition newline : byte := Byte.x0a.

Module OutputBuffer.
Definition MAX_OUTPUT_BUFFER_SIZE : Z := 1024 * 1024.
Definition MAX_BUFFER_LINES : Z := 10000.

Record OutputBuffer := mkBuffer { lines : list bytes; total_size : Z; last_line_incomplete : bool }.

Definition new : OutputBuffer := mkBuffer [] 0 false.

(** [slice::split] at newlines. *)
Fixpoint split (s : bytes) : list bytes :=
  match s with
  | [] => [[]]
  | b :: s =>
      if bool_decide (b = newline) then [] :: split s
      else match split s with seg :: segs => (b :: seg) :: segs | [] => [[b]] end
  end.

(** The data up to and with its first newline, and the rest. *)
Fixpoint first_line (s : bytes) : option (bytes * bytes) :=
  match s with
  | [] => None
  | b :: s =>
      if bool_decide (b = newline) then Some ([b], s)
      else match first_line s with Some (l, r) => Some (b :: l, r) | None => None end
  end.

Definition extend_last (ls : list bytes) (d : bytes) : list bytes :=
  match last ls with Some l => removelast ls ++ [l ++ d] | None => ls end.

(** The loop over the split lines. *)
Fixpoint push_lines (b : OutputBuffer) (ls : list bytes) (ends_with_newline : bool) : OutputBuffer :=
  match ls with
  | [] => b
  | line :: rest =>
      let is_last := match rest with [] => true | _ => false end in
      let incomplete := last_line_incomplete b || (is_last && negb ends_with_newline && negb (bool_decide (line = []))) in
      let b := mkBuffer (lines b) (total_size b) incomplete in
      let b :=
        if negb (bool_decide (line = [])) || negb is_last then
          let line_data := line ++ (if negb is_last || ends_with_newline then [newline] else []) in
          mkBuffer (lines b ++ [line_data]) (total_size b + len line_data) incomplete
        else b in
      push_lines b rest ends_with_newline
  end.

Definition sum_len (ls : list bytes) : Z := foldr Z.add 0 (map len ls).

(** Dropping the oldest lines. *)
Fixpoint trim (ls : list bytes) (total : Z) (incomplete : bool) : OutputBuffer :=
  if (MAX_OUTPUT_BUFFER_SIZE <? total) || (MAX_BUFFER_LINES <? len ls) then
    match ls with
    | [] => mkBuffer [] 0 false
    | removed :: ls =>
        let total := if total <? len removed then sum_len ls else total - len removed in
        trim ls total (match ls with [] => false | _ => incomplete end)
    end
  else mkBuffer ls total incomplete.

Definition append (b : OutputBuffer) (data : bytes) : OutputBuffer :=
  if bool_decide (data = []) then b
  else
    let rest b remaining :=
      let b := push_lines b (split remaining) (bool_decide (last remaining = Some newline)) in
      trim (lines b) (total_size b) (last_line_incomplete b) in
    if last_line_incomplete b && negb (bool_decide (lines b = [])) then
      match first_line data with
      | Some (l, remaining) =>
          rest (mkBuffer (extend_last (lines b) l) (total_size b + len l) false) remaining
      | None => mkBuffer (extend_last (lines b) data) (total_size b + len data) true
      end
    else rest b data.

(** Skipping continuation bytes at the start, three at most. *)
Fixpoint skip_continuation (fuel : nat) (s : bytes) : bytes :=
  match fuel, s with
  | S fuel, b :: s' => if Z.land (byte.unsigned b) 0xC0 =? 0x80 then skip_continuation fuel s' else s
  | _, _ => s
  end.

(** The chunks from the newest line on. *)
Fixpoint collect (newest_first : list bytes) (size max_bytes : Z) : list bytes :=
  match newest_first with
  | [] => []
  | line :: older =>
      if max_bytes <? size + len line then
        if (size =? 0) && (max_bytes <? len line) then
          let tail := skip_continuation 3 (dropZ (len line - max_bytes) line) in
          if bool_decide (tail = []) then [] else [tail]
        else []
      else line :: collect older (size + len line) max_bytes
  end.

Definition get_recent (b : OutputBuffer) (max_bytes : Z) : bytes :=
  if max_bytes =? 0 then [] else concat (rev (collect (rev (lines b)) 0 max_bytes)).

(** ** What the buffer holds *)
Definition text (b : OutputBuffer) : bytes := concat (lines b).
Definition unterminated (l : bytes) : bool := negb (bool_decide (last l = Some newline)).

Lemma sum_len_concat ls : sum_len ls = len (concat ls).
Proof. induction ls as [|l ls IH]; [done|]. simpl. rewrite len_app. unfold sum_len in *. simpl. lia. Qed.

Lemma split_not_nil s : split s <> [].
Proof. destruct s as [|b s]; simpl; [done|]. case_bool_decide; [done|]. by destruct (split s). Qed.

Lemma first_line_some s l r : first_line s = Some (l, r) -> s = l ++ r /\ last l = Some newline /\ l <> [].
Proof.
  revert l. induction s as [|b s IH]; intros l; simpl; [done|].
  case_bool_decide as E; [intros [= <- <-]; by rewrite E|].
  destruct (first_line s) as [[l' r']|]; [|done]. intros [= <- <-]. destruct (IH l' eq_refl) as (-> & H & Hne).
  split_and!; [done| |done]. rewrite <- H. by destruct l'.
Qed.

Lemma first_line_none s : first_line s = None -> newline ∉ s.
Proof.
  induction s as [|b s IH]; simpl; [intros _ H; by apply elem_of_nil in H|]. case_bool_decide as E; [done|].
  destruct (first_line s) as [[l r]|]; [done|]. intros _. rewrite not_elem_of_cons. split; [congruence|by apply IH].
Qed.

Lemma extend_last_spec ls l d : last ls = Some l ->
  concat (extend_last ls d) = concat ls ++ d /\ extend_last ls d = removelast ls ++ [l ++ d].
Proof.
  intros H. unfold extend_last. rewrite H. split; [|done]. apply last_Some in H as [ls' ->].
  rewrite removelast_last, !concat_app. simpl. by rewrite !app_nil_r, app_assoc.
Qed.

(** Terminated lines, or the last one without its newline. *)
Definition terminated (ls : list bytes) : Prop := Forall (fun l => last l = Some newline) ls.
Definition incomplete_last (ls : list bytes) : bool := match last ls with Some l => unterminated l | None => false end.
Definition proper_lines (ls : list bytes) : Prop := terminated (removelast ls) /\ last ls <> Some [].

Record ok (b : OutputBuffer) : Prop := mkOk {
  ok_total : total_size b = len (text b);
  ok_lines : proper_lines (lines b);
  ok_incomplete : last_line_incomplete b = incomplete_last (lines b)
}.

(** The lines that a split adds. *)
Fixpoint produced (segs : list bytes) : list bytes :=
  match segs with
  | [] => []
  | [l] => if bool_decide (l = []) then [] else [l]
  | l :: segs => (l ++ [newline]) :: produced segs
  end.

Lemma produced_split s : concat (produced (split s)) = s.
Proof.
  induction s as [|b s IH]; [done|]. simpl. case_bool_decide as E.
  - destruct (split s) as [|seg segs] eqn:Es; [by apply split_not_nil in Es|]. simpl in *. by rewrite IH, E.
  - destruct (split s) as [|seg [|seg' segs]] eqn:Es; [by apply split_not_nil in Es|..]; simpl in *.
    + rewrite app_nil_r. case_bool_decide as El; [subst seg|]; simpl in IH; rewrite ?app_nil_r in IH; by rewrite IH.
    + by rewrite IH.
Qed.

Lemma split_no_newline s : Forall (fun l => newline ∉ l) (split s).
Proof.
  induction s as [|b s IH]; simpl; [constructor; [apply not_elem_of_nil|constructor]|].
  case_bool_decide as E; [constructor; [apply not_elem_of_nil|done]|].
  destruct IH as [|l ls Hl Hls]; constructor; try done; rewrite not_elem_of_cons; split; try done;
    try apply not_elem_of_nil; congruence.
Qed.

Lemma split_newline x y : split (x ++ newline :: y) = split x ++ split y.
Proof.
  induction x as [|b x IH]; simpl; [by rewrite ?bool_decide_true|].
  rewrite IH. case_bool_decide; [done|]. destruct (split x) eqn:E; [by apply split_not_nil in E|done].
Qed.

Lemma split_ends s : last s = Some newline -> last (split s) = Some [].
Proof. intros [s' ->]%last_Some. rewrite split_newline. apply last_snoc. Qed.

Lemma push_lines_more b l l' segs ends : push_lines b (l :: l' :: segs) ends =
  push_lines (mkBuffer (lines b ++ [l ++ [newline]]) (total_size b + len (l ++ [newline])) (last_line_incomplete b))
    (l' :: segs) ends.
Proof.
  remember (l' :: segs) as rest eqn:E. assert (rest <> []) by by rewrite E. clear E.
  cbn [push_lines]. destruct rest as [|]; [done|]. cbn [negb andb orb lines total_size]. by rewrite orb_true_r, orb_false_r.
Qed.

(** The loop adds those lines. *)
Lemma push_lines_spec segs ends : (ends = true -> last segs = Some []) -> forall b,
  push_lines b segs ends = mkBuffer (lines b ++ produced segs) (total_size b + sum_len (produced segs))
    (last_line_incomplete b || match last segs with Some l => negb (bool_decide (l = [])) | None => false end).
Proof.
  induction segs as [|l segs IH]; intros He b.
  - simpl. rewrite app_nil_r, Z.add_0_r, orb_false_r. by destruct b.
  - destruct segs as [|l' segs].
    + cbn [push_lines produced last]. case_bool_decide as E; cbn [negb orb andb].
      * rewrite andb_false_r, !orb_false_r, app_nil_r, Z.add_0_r. by destruct b.
      * destruct ends; [by specialize (He eq_refl); injection He as ->|]. cbn. by rewrite app_nil_r, Z.add_0_r.
    + rewrite push_lines_more, IH by done. cbn [lines total_size last_line_incomplete].
      change (produced (l :: l' :: segs)) with ((l ++ [newline]) :: produced (l' :: segs)). rewrite <- app_assoc.
      f_equal. unfold sum_len. cbn [map foldr]. lia.
Qed.

Lemma produced_proper segs : Forall (fun l => newline ∉ l) segs ->
  proper_lines (produced segs) /\
  incomplete_last (produced segs) = match last segs with Some l => negb (bool_decide (l = [])) | None => false end.
Proof.
  induction 1 as [|l segs Hl Hs [[IH1 IH2] IH3]]; [by split; [split; [constructor|]|]|].
  destruct segs as [|l' segs].
  - simpl. case_bool_decide as E; [by split; [split; [constructor|]|]|].
    split; [split; [constructor|by intros [= ->]]|]. unfold incomplete_last, unterminated. simpl. rewrite bool_decide_false; [done|].
    intros [l' ->]%last_Some. apply Hl, elem_of_app. right. by left.
  - change (produced (l :: l' :: segs)) with ((l ++ [newline]) :: produced (l' :: segs)).
    change (last (l :: l' :: segs)) with (last (l' :: segs)). rewrite <- IH3.
    destruct (produced (l' :: segs)) as [|p ps] eqn:E.
    + split; [split; [constructor|by destruct l]|]. clear. unfold incomplete_last, unterminated. simpl. by rewrite last_snoc, bool_decide_true.
    + split; [split|].
      * change (terminated ((l ++ [newline]) :: removelast (p :: ps))). constructor; [by rewrite last_snoc|done].
      * done.
      * done.
Qed.

Lemma terminated_app xs ys : terminated xs -> proper_lines ys -> proper_lines (xs ++ ys) /\
  incomplete_last (xs ++ ys) = incomplete_last ys.
Proof.
  intros Hx [H1 H2]. destruct (decide (ys = [])) as [->|Hne].
  - rewrite app_nil_r. destruct (decide (xs = [])) as [->|Hxs]; [by split; [split|]|]. destruct (exists_last Hxs) as (xs' & l & ->).
    apply Forall_app in Hx as [Hx' Hl]. inversion Hl as [|?? Hl' _]; subst. unfold proper_lines, incomplete_last, unterminated.
    rewrite removelast_last, last_snoc. split; [split; [done|by intros [= ->]]|]. by rewrite bool_decide_true.
  - unfold proper_lines, incomplete_last. rewrite removelast_app, last_app by done.
    destruct (last ys) eqn:E; [|by apply last_None in E]. split; [split; [by apply Forall_app|done]|done].
Qed.

Definition bounded (b : OutputBuffer) : Prop :=
  total_size b <= MAX_OUTPUT_BUFFER_SIZE /\ len (lines b) <= MAX_BUFFER_LINES.
Definition of_lines (ls : list bytes) : OutputBuffer := mkBuffer ls (len (concat ls)) (incomplete_last ls).

Lemma proper_drop k ls : proper_lines ls -> proper_lines (drop k ls).
Proof.
  revert k. induction ls as [|l ls IH]; intros [|k] H; simpl; try done. apply IH.
  destruct H as [H1 H2]. destruct ls as [|l' ls]; [done|]. split; [|exact H2]. by inversion H1.
Qed.

Lemma proper_terminated ls : proper_lines ls -> incomplete_last ls = false -> terminated ls.
Proof.
  intros [H _] Hi. destruct (decide (ls = [])) as [->|Hne]; [done|]. destruct (exists_last Hne) as (ls' & l & ->).
  rewrite removelast_last in H. apply Forall_app. split; [done|]. constructor; [|done].
  unfold incomplete_last, unterminated in Hi. rewrite last_snoc in Hi. by apply negb_false_iff, bool_decide_eq_true in Hi.
Qed.

Lemma trim_spec ls : exists k, trim ls (len (concat ls)) (incomplete_last ls) = of_lines (drop k ls) /\
  bounded (of_lines (drop k ls)) /\ (bounded (of_lines ls) -> k = 0%nat).
Proof.
  induction ls as [|l ls IH].
  - exists 0%nat. split; [done|]. split; [by split; vm_compute|done].
  - cbn [trim]. destruct ((MAX_OUTPUT_BUFFER_SIZE <? _) || (MAX_BUFFER_LINES <? _)) eqn:E.
    + destruct IH as (k & IH & Hb & _). exists (S k). simpl concat. rewrite len_app.
      rewrite (proj2 (Z.ltb_ge _ _)) by (pose proof (len_nonneg (concat ls)); lia).
      replace (len l + len (concat ls) - len l) with (len (concat ls)) by lia.
      split; [|split; [exact Hb|]].
      * change (drop (S k) (l :: ls)) with (drop k ls). rewrite <- IH. by destruct ls.
      * intros [H1 H2]. unfold of_lines in H1, H2. cbn [total_size lines] in H1, H2. apply orb_true_iff in E.
        rewrite !Z.ltb_lt in E. simpl concat in *. rewrite len_app in *. lia.
    + exists 0%nat. split; [done|]. split; [|done]. apply orb_false_iff in E. rewrite !Z.ltb_ge in E. exact E.
Qed.

Lemma of_lines_ok ls : proper_lines ls -> ok (of_lines ls).
Proof. by split. Qed.

Lemma ok_of_lines b : ok b -> b = of_lines (lines b).
Proof. intros [H1 H2 H3]. destruct b as [ls t i]. unfold of_lines, text in *. simpl in *. congruence. Qed.

Lemma extend_terminated ls l : proper_lines ls -> ls <> [] -> l <> [] ->
  proper_lines (extend_last ls l) /\ incomplete_last (extend_last ls l) = unterminated l.
Proof.
  intros [H _] Hne Hl. destruct (exists_last Hne) as (ls' & x & ->). rewrite removelast_last in H.
  destruct (extend_last_spec (ls' ++ [x]) x l) as [_ ->]; [apply last_snoc|].
  unfold proper_lines, incomplete_last. rewrite !removelast_last, !last_snoc. split.
  - split; [done|]. intros [= E]. apply Hl. by apply app_eq_nil in E as [_ ->].
  - unfold unterminated. rewrite last_app. by destruct (last l) eqn:E; [|by apply last_None in E].
Qed.

(** Appending terminated data and what follows it. *)
Lemma finish_append ls rest : terminated ls -> exists k,
  (let b := push_lines (of_lines ls) (split rest) (bool_decide (last rest = Some newline)) in
   trim (lines b) (total_size b) (last_line_incomplete b)) = of_lines (drop k (ls ++ produced (split rest))) /\
  proper_lines (ls ++ produced (split rest)) /\ bounded (of_lines (drop k (ls ++ produced (split rest)))) /\
  (bounded (of_lines (ls ++ produced (split rest))) -> k = 0%nat).
Proof.
  intros Ht. destruct (produced_proper _ (split_no_newline rest)) as [Hp Hi].
  destruct (terminated_app _ _ Ht Hp) as [Hp' Hi'].
  destruct (trim_spec (ls ++ produced (split rest))) as (k & Hk & Hb & H0). exists k.
  split; [|done]. rewrite <- Hk. rewrite push_lines_spec.
  - cbv zeta. cbn [lines total_size last_line_incomplete of_lines]. f_equal.
    + by rewrite concat_app, len_app, sum_len_concat.
    + rewrite Hi', Hi. destruct (terminated_app ls [] Ht) as [_ E]; [split; [constructor|done]|]. rewrite app_nil_r in E. by rewrite E.
  - intros H%bool_decide_eq_true. by apply split_ends.
Qed.

(** What trimming gives up ends with a line. *)
Definition at_line (lost kept : bytes) : Prop := lost = [] \/ last lost = Some newline \/ kept = [].

Lemma drop_at_line k ls : proper_lines ls -> at_line (concat (take k ls)) (concat (drop k ls)).
Proof.
  intros [P _]. destruct (decide (drop k ls = [])) as [->|Hd]; [by right; right|].
  destruct (decide (take k ls = [])) as [->|Ht]; [by left|]. right. left.
  rewrite <- (take_drop k ls), removelast_app in P by done. apply Forall_app in P as [P _].
  destruct (exists_last Ht) as (xs & x & E). rewrite E in P |- *. apply Forall_app in P as [_ P]. inversion P as [|?? Hx _]; subst.
  rewrite concat_app. simpl. by rewrite app_nil_r, last_app, Hx.
Qed.

Lemma lines_le_text ls : proper_lines ls -> len ls <= len (concat ls).
Proof.
  intros [P H]. assert (Forall (fun l => l <> []) ls) as F.
  { destruct (decide (ls = [])) as [->|Hne]; [constructor|]. destruct (exists_last Hne) as (xs & x & ->).
    rewrite removelast_last in P. rewrite last_snoc in H. apply Forall_app. split; [|constructor; [congruence|done]].
    eapply Forall_impl; [exact P|]. by intros l Hl ->. }
  clear P H. induction F as [|l ls Hl F IH]; [done|]. simpl. rewrite len_app, len_cons.
  assert (0 < len l) by (destruct l; [done|rewrite len_cons; pose proof (len_nonneg l); lia]). lia.
Qed.

(** One append. *)
Record appended (b : OutputBuffer) (d : bytes) (b' : OutputBuffer) : Prop := mkAppended {
  ap_ok : ok b';
  ap_lost : exists lost, text b ++ d = lost ++ text b' /\ at_line lost (text b');
  ap_bound : bounded b' \/ (d <> [] /\ newline ∉ d) /\ text b' = text b ++ d /\ last_line_incomplete b = true \/ d = [];
  ap_all : len (text b ++ d) <= MAX_BUFFER_LINES -> text b' = text b ++ d
}.

Lemma finish_appended b d ls rest : terminated ls -> concat ls ++ rest = text b ++ d ->
  appended b d (let b := push_lines (of_lines ls) (split rest) (bool_decide (last rest = Some newline)) in
    trim (lines b) (total_size b) (last_line_incomplete b)).
Proof.
  intros Ht Hd. destruct (finish_append ls rest Ht) as (k & -> & Hp & Hb & H0).
  assert (concat (ls ++ produced (split rest)) = text b ++ d) as E by (by rewrite concat_app, produced_split).
  split; [by apply of_lines_ok, proper_drop| |by left|].
  - exists (concat (take k (ls ++ produced (split rest)))). unfold text at 2 3. cbn [lines of_lines].
    rewrite <- concat_app, take_drop. split; [done|by apply drop_at_line].
  - intros Hl. rewrite H0; [unfold text at 1; cbn [lines of_lines]; by rewrite drop_0|].
    pose proof (lines_le_text _ Hp) as Hll. rewrite E in Hll. unfold bounded, of_lines. cbn [lines total_size].
    rewrite E. unfold MAX_OUTPUT_BUFFER_SIZE, MAX_BUFFER_LINES in *. lia.
Qed.

Lemma append_unterminated b d : ok b -> last_line_incomplete b = true -> d <> [] -> first_line d = None ->
  appended b d (mkBuffer (extend_last (lines b) d) (total_size b + len d) true).
Proof.
  intros O Ei Ed Ef. pose proof (ok_incomplete _ O) as I. rewrite Ei in I.
  assert (lines b <> []) as Hne by (intros E; by rewrite E in I).
  destruct (last (lines b)) as [x|] eqn:El; [|by apply last_None in El].
  apply first_line_none in Ef. destruct (extend_terminated _ d (ok_lines _ O) Hne Ed) as [P' I'].
  destruct (extend_last_spec _ _ d El) as [Ec _].
  assert (unterminated d = true) as Hu.
  { unfold unterminated. rewrite bool_decide_false; [done|]. intros [d' ->]%last_Some. apply Ef, elem_of_app. right. by left. }
  split.
  - split; [|done|cbn [lines last_line_incomplete]; by rewrite I', Hu].
    cbn [total_size]. rewrite (ok_total _ O), <- len_app. unfold text. cbn [lines]. by rewrite Ec.
  - exists []. unfold text at 2. cbn [lines]. split; [by rewrite Ec|by left].
  - right. left. split; [done|]. split; [|done]. unfold text at 1. cbn [lines]. by rewrite Ec.
  - intros _. unfold text at 1. cbn [lines]. by rewrite Ec.
Qed.

Lemma append_spec b d : ok b -> appended b d (append b d).
Proof.
  intros O. unfold append. case_bool_decide as Ed.
  { subst d. split; rewrite ?app_nil_r; [done|exists []; by split; [|left]|by right; right|done]. }
  pose proof (ok_of_lines _ O) as Eb. pose proof (ok_incomplete _ O) as I. pose proof (ok_lines _ O) as P.
  destruct (last_line_incomplete b) eqn:Ei; cbn [andb].
  - assert (lines b <> []) as Hne by (intros E; by rewrite E in I).
    rewrite bool_decide_false by done. cbn [negb].
    destruct (first_line d) as [[l rest]|] eqn:Ef; [|by apply append_unterminated].
    destruct (last (lines b)) as [x|] eqn:El; [|by apply last_None in El].
    apply first_line_some in Ef as (-> & Hl & Hln). destruct (extend_terminated _ l P Hne Hln) as [P' I'].
    destruct (extend_last_spec _ _ l El) as [Ec _].
    assert (mkBuffer (extend_last (lines b) l) (total_size b + len l) false = of_lines (extend_last (lines b) l)) as ->.
    { unfold of_lines. rewrite I', Ec, len_app, (ok_total _ O). unfold unterminated. by rewrite bool_decide_true. }
    apply finish_appended; [|by rewrite Ec, <- app_assoc].
    apply proper_terminated; [done|]. rewrite I'. unfold unterminated. by rewrite bool_decide_true.
  - pose proof (finish_appended b d (lines b) d) as H. rewrite <- Eb in H. apply H; [|done].
    by apply proper_terminated; [|rewrite <- I].
Qed.

(** ** Replay *)
Lemma skip_continuation_suffix n s : exists p, s = p ++ skip_continuation n s.
Proof.
  revert s. induction n as [|n IH]; intros [|b s]; simpl; try (by exists []).
  destruct (_ =? _); [|by exists []]. destruct (IH s) as [p E]. exists (b :: p). by rewrite E at 1.
Qed.

(** What is collected is the end of the text, and fits. *)
Lemma collect_spec ls : forall size max, 0 <= size <= max ->
  exists p, concat (rev ls) = p ++ concat (rev (collect ls size max)) /\
    size + len (concat (rev (collect ls size max))) <= max.
Proof.
  induction ls as [|l ls IH]; intros size max Hs; [exists []; split; [done|unfold len; simpl; lia]|].
  simpl. destruct (Z.ltb_spec max (size + len l)) as [Hlt|Hge].
  - destruct ((size =? 0) && (max <? len l)) eqn:E.
    + apply andb_true_iff in E as [E1%Z.eqb_eq E2%Z.ltb_lt]. subst size.
      destruct (skip_continuation_suffix 3 (dropZ (len l - max) l)) as [p Ep].
      set (t := skip_continuation 3 (dropZ (len l - max) l)) in *.
      assert (concat (rev ls ++ [l]) = (concat (rev ls) ++ takeZ (len l - max) l ++ p) ++ t) as Hl.
      { rewrite concat_app. simpl. rewrite app_nil_r, <- !app_assoc. f_equal. rewrite <- Ep. by rewrite takeZ_dropZ. }
      assert (len t <= max) as Hlen.
      { apply (f_equal len) in Ep. rewrite len_app, len_dropZ in Ep by lia. pose proof (len_nonneg p). lia. }
      case_bool_decide as Et.
      * exists (concat (rev ls ++ [l])). simpl. rewrite app_nil_r. split; [done|unfold len; simpl; lia].
      * eexists. cbn [rev app concat]. rewrite app_nil_r. split; [exact Hl|change (0 + len t <= max); lia].
    + exists (concat (rev ls ++ [l])). simpl. rewrite app_nil_r. split; [done|unfold len; simpl; lia].
  - destruct (IH (size + len l) max) as (p & E1 & E2); [pose proof (len_nonneg l); lia|].
    exists p. simpl. rewrite !concat_app, E1, len_app. simpl. rewrite app_nil_r, app_assoc. split; [done|lia].
Qed.

Lemma get_recent_spec b n : 0 <= n ->
  (exists p, text b = p ++ get_recent b n) /\ len (get_recent b n) <= n.
Proof.
  intros Hn. unfold get_recent. destruct (Z.eqb_spec n 0) as [->|Hne].
  - split; [exists (text b); by rewrite app_nil_r|done].
  - destruct (collect_spec (rev (lines b)) 0 n) as (p & E1 & E2); [lia|]. rewrite rev_involutive in E1.
    split; [by exists p|lia].
Qed.

(** Nothing is left out when everything fits. *)
Lemma collect_all ls : forall size max, size + len (concat ls) <= max -> collect ls size max = ls.
Proof.
  induction ls as [|l ls IH]; intros size max H; [done|]. simpl in *. rewrite len_app in H.
  pose proof (len_nonneg (concat ls)). rewrite (proj2 (Z.ltb_ge _ _)) by lia. f_equal. apply IH. lia.
Qed.

Lemma len_concat_rev {A} (ls : list (list A)) : len (concat (rev ls)) = len (concat ls).
Proof. induction ls as [|l ls IH]; [done|]. simpl. rewrite concat_app, !len_app, IH. simpl. rewrite app_nil_r. lia. Qed.

Lemma get_recent_all b n : len (text b) <= n -> get_recent b n = text b.
Proof.
  intros H. unfold get_recent. destruct (Z.eqb_spec n 0) as [->|Hne].
  - assert (text b = []) as ->; [|done]. apply len_0_nil. pose proof (len_nonneg (text b)). lia.
  - rewrite collect_all by (rewrite len_concat_rev; exact H). by rewrite rev_involutive.
Qed.

(** ** Replay of text is text *)
Lemma continuation_cont b : (Z.land (byte.unsigned b) 0xC0 =? 0x80) = Utf8.cont b.
Proof. by destruct b. Qed.

Lemma skip_text a s : Utf8.text (a ++ s) -> Utf8.text (skip_continuation 3 s).
Proof.
  assert (forall n s, (exists q, s = q ++ skip_continuation n s /\ Forall (fun b => Utf8.cont b = true) q /\
    (length q = n \/ match skip_continuation n s with x :: _ => Utf8.cont x = false | [] => True end))) as Hsk.
  { induction n as [|n IH]; intros [|b l]; simpl; try (exists []; split_and!; [done|constructor|auto]).
    rewrite continuation_cont. destruct (Utf8.cont b) eqn:Eb; [|exists []; split_and!; [done|constructor|auto]].
    destruct (IH l) as (q & E & Hq & Hor). exists (b :: q). simpl. rewrite <- E. split_and!; [done|by constructor|].
    destruct Hor; [left; lia|by right]. }
  intros H. destruct (Hsk 3%nat s) as (q & E & Hq & Hor). set (r := skip_continuation 3 s) in *. clearbody r. subst s.
  assert (match r with x :: _ => Utf8.cont x = false | [] => True end) as Hr.
  { destruct Hor as [Hl|]; [|done]. destruct r as [|y r]; [done|]. apply not_true_iff_false. intros Hy.
    change (y :: r) with ([y] ++ r) in H. rewrite (app_assoc q) in H. apply Utf8.run_short in H; [|apply Forall_app; by repeat constructor].
    rewrite length_app in H. simpl in H. lia. }
  rewrite app_assoc in H. by apply Utf8.text_cut in H as [_ H].
Qed.

Lemma newline_lead : Utf8.cont newline = false.
Proof. done. Qed.

(** A line that follows a terminated one starts a character. *)
Lemma text_lines a b : Utf8.text (a ++ b) -> a = [] \/ last a = Some newline -> Utf8.text b.
Proof.
  intros H [->|[a' ->]%last_Some]; [done|]. rewrite <- app_assoc in H. apply Utf8.text_cut in H as [_ H]; [|done].
  destruct H as (cs & E & Hcs). destruct Hcs as [|c cs Hc Hcs]; [done|].
  destruct (Utf8.char_parts _ Hc) as (x & l & -> & Hl & _). injection E as <- E.
  change (Utf8.char_len newline) with 1%nat in Hl. destruct l; [|done]. simpl in E. subst b. by exists cs.
Qed.

Lemma collect_text ls : forall size max, 0 <= size <= max -> Utf8.text (concat (rev ls)) ->
  Forall (fun l => last l = Some newline) (tail ls) -> Utf8.text (concat (rev (collect ls size max))).
Proof.
  induction ls as [|l ls IH]; intros size max Hs Ht Hls; [apply Utf8.text_nil|].
  assert (concat (rev ls) = [] \/ last (concat (rev ls)) = Some newline) as Hb.
  { simpl in Hls. destruct ls as [|l' ls]; [by left|]. right. inversion Hls as [|?? Hl' _]; subst.
    simpl. rewrite concat_app. simpl. rewrite app_nil_r, last_app, Hl'. done. }
  simpl in Ht. rewrite concat_app in Ht. simpl in Ht. rewrite app_nil_r in Ht.
  pose proof (text_lines _ _ Ht Hb) as Hl. simpl.
  destruct (Z.ltb_spec max (size + len l)) as [Hlt|Hge].
  - destruct (_ && _); [|apply Utf8.text_nil].
    assert (Utf8.text (skip_continuation 3 (dropZ (len l - max) l))) as Hsk.
    { apply (skip_text (takeZ (len l - max) l)). by rewrite takeZ_dropZ. }
    case_bool_decide; [apply Utf8.text_nil|]. simpl. by rewrite app_nil_r.
  - simpl. rewrite concat_app. simpl. rewrite app_nil_r. apply Utf8.text_app; [|done].
    assert (Utf8.text (concat (rev ls))) as Hp.
    { destruct Hb as [->|[a E]%last_Some]; [apply Utf8.text_nil|]. rewrite E. rewrite E, <- app_assoc in Ht.
      apply Utf8.text_cut in Ht as [Ha _]; [|done]. apply Utf8.text_app; [done|]. exists [[newline]]. by repeat constructor. }
    apply IH; [pose proof (len_nonneg l); lia|done|]. simpl in Hls. destruct Hls; [constructor|done].
Qed.

Lemma get_recent_text b n : proper_lines (lines b) -> 0 <= n -> Utf8.text (text b) -> Utf8.text (get_recent b n).
Proof.
  intros [P _] Hn Ht. unfold get_recent. destruct (n =? 0); [apply Utf8.text_nil|].
  apply collect_text; [lia|by rewrite rev_involutive|].
  destruct (decide (lines b = [])) as [->|Hne]; [constructor|]. destruct (exists_last Hne) as (ls & l & E).
  rewrite E in P |- *. rewrite removelast_last in P. rewrite rev_unit. simpl. by apply Forall_rev.
Qed.
(** ** Any sequence of appends *)
Definition append_all (ds : list bytes) : OutputBuffer := foldl append new ds.

Lemma new_ok : ok new.
Proof. split; [done|split; [constructor|done]|done]. Qed.

Lemma append_text b d : ok b -> Utf8.text (text b) -> Utf8.text d -> Utf8.text (text (append b d)).
Proof.
  intros O Hb Hd. destruct (append_spec b d O) as [_ (lost & E & L) _ _].
  pose proof (Utf8.text_app _ _ Hb Hd) as H. rewrite E in H.
  destruct L as [->|[L| ->]]; [done|by eapply text_lines; [|right]|apply Utf8.text_nil].
Qed.

Lemma append_all_spec ds : ok (append_all ds) /\ (exists lost, concat ds = lost ++ text (append_all ds)) /\
  (Forall Utf8.text ds -> Utf8.text (text (append_all ds))) /\
  (len (concat ds) <= MAX_BUFFER_LINES -> text (append_all ds) = concat ds).
Proof.
  unfold append_all. induction ds as [|d ds (O & (lost & E) & U & A)] using rev_ind.
  - simpl. split_and!; [apply new_ok|by exists []|intros _; apply Utf8.text_nil|done].
  - rewrite foldl_app, concat_app. simpl. rewrite app_nil_r. destruct (append_spec _ d O) as [O' (lost' & E' & _) _ A'].
    split_and!; [done| | |].
    + exists (lost ++ lost'). by rewrite E, <- !app_assoc, E'.
    + rewrite Forall_app, Forall_singleton. intros [H1 H2]. apply append_text; auto.
    + intros Hl. rewrite len_app in Hl. pose proof (len_nonneg d).
      rewrite A'; rewrite A by lia; [done|]. by rewrite len_app.
Qed.

Lemma recent_suffix ds n : 0 <= n -> exists lost, concat ds = lost ++ get_recent (append_all ds) n /\
  len (get_recent (append_all ds) n) <= n /\ (len (concat ds) <= Z.min n MAX_BUFFER_LINES -> lost = []).
Proof.
  intros Hn. destruct (append_all_spec ds) as (O & (lost & E) & U & A).
  destruct (get_recent_spec (append_all ds) n Hn) as [[p Ep] Hl]. exists (lost ++ p).
  assert (concat ds = (lost ++ p) ++ get_recent (append_all ds) n) as E' by (rewrite E, Ep at 1; by rewrite app_assoc).
  split_and!; [done|done|]. intros Hs. rewrite get_recent_all, A in E' by (rewrite ?A; lia).
  apply (f_equal len) in E'. rewrite len_app in E'. apply len_0_nil. lia.
Qed.

(** What a viewer that reconnects is shown: whatever the terminal wrote,
    [get_recent] returns the end of it, at most as many bytes as asked for;
    the recorded size is exact; UTF-8 output is never cut inside a character;
    and up to 10000 bytes of output nothing is missing that fits. *)
Theorem replay_recent ds n : 0 <= n ->
  (exists lost, concat ds = lost ++ get_recent (append_all ds) n) /\ len (get_recent (append_all ds) n) <= n /\
  total_size (append_all ds) = len (text (append_all ds)) /\
  (Forall (fun d => Utf8.valid d = true) ds -> Utf8.valid (get_recent (append_all ds) n) = true) /\
  (len (concat ds) <= Z.min n MAX_BUFFER_LINES -> get_recent (append_all ds) n = concat ds).
Proof.
  intros Hn. destruct (append_all_spec ds) as (O & _ & U & _).
  destruct (recent_suffix ds n Hn) as (lost & E & Hl & A). split_and!; [by exists lost|done|apply O| |].
  - intros Hv. apply Utf8.valid_text, get_recent_text; [apply O|done|]. apply U.
    eapply Forall_impl; [exact Hv|]. intros d. apply Utf8.valid_text.
  - intros Hs. by rewrite E, (A Hs).
Qed.

Definition demo_output : list bytes := [str "one" ++ [newline; Byte.xc3; Byte.xa9]; str "two" ++ [newline]; str "three"].

Lemma replay_recent_witness :
  (0 <= 6) /\ (Forall (fun d => Utf8.valid d = true) demo_output) /\ (len (concat demo_output) <= Z.min 100 MAX_BUFFER_LINES) /\
  Utf8.valid (get_recent (append_all demo_output) 6) = true /\ get_recent (append_all demo_output) 6 = str "three" /\
  get_recent (append_all demo_output) 100 = concat demo_output.
Proof.
  assert (Forall (fun d => Utf8.valid d = true) demo_output) as Hv by by repeat constructor.
  split; [lia|]. split; [exact Hv|]. split; [by vm_compute|]. split; [by apply (replay_recent demo_output 6)|].
  split; [by vm_compute|]. apply (replay_recent demo_output 100); [lia|by vm_compute].
Defined.

Lemma no_newline_split d : (newline ∉ d) -> split d = [d] /\ first_line d = None.
Proof.
  induction d as [|b d IH]; [done|]. rewrite not_elem_of_cons. intros [Hb Hd]. simpl.
  rewrite bool_decide_false by done. by destruct (IH Hd) as [-> ->].
Qed.

Lemma one_line_grows d n : d <> [] -> (newline ∉ d) -> len d <= MAX_OUTPUT_BUFFER_SIZE ->
  append_all (replicate (S n) d) = mkBuffer [concat (replicate (S n) d)] (Z.of_nat (S n) * len d) true.
Proof.
  intros Hne Hd Hl. destruct (no_newline_split d Hd) as [Es Ef].
  assert (last d <> Some newline) as Hlast.
  { intros [d' ->]%last_Some. apply Hd, elem_of_app. right. by left. }
  induction n as [|n IH].
  - unfold append_all, append. simpl. rewrite !bool_decide_false by done. rewrite Es. simpl.
    rewrite bool_decide_false by done. simpl. rewrite !app_nil_r.
    rewrite (proj2 (Z.ltb_ge _ _)) by (unfold MAX_OUTPUT_BUFFER_SIZE in *; lia). simpl. f_equal. lia.
  - rewrite replicate_S_end. unfold append_all in *. rewrite foldl_app, IH. simpl foldl. unfold append.
    rewrite bool_decide_false by done. cbn [last_line_incomplete lines]. rewrite bool_decide_false by done. cbn [andb negb].
    rewrite Ef. f_equal; [|cbn [total_size]; lia]. unfold extend_last. cbn [last removelast app].
    f_equal. rewrite concat_app. simpl. by rewrite app_nil_r.
Qed.

(** The size limit: an append leaves at most 1 MiB in at most 10000
    lines, unless it continues a line without ending it; such output is kept
    whatever its size, so a program that never writes a newline makes the
    buffer grow without bound. *)
Theorem buffer_limits :
  (forall ds d, bounded (append_all (ds ++ [d])) \/ d = [] \/
     (newline ∉ d) /\ last_line_incomplete (append_all ds) = true /\
     text (append_all (ds ++ [d])) = text (append_all ds) ++ d) /\
  (forall d n, ~ (d = [] \/ newline ∈ d \/ MAX_OUTPUT_BUFFER_SIZE < len d) ->
     total_size (append_all (replicate (S n) d)) = Z.of_nat (S n) * len d).
Proof.
  split.
  - intros ds d. unfold append_all. rewrite foldl_app. simpl. destruct (append_all_spec ds) as (O & _).
    destruct (append_spec _ d O) as [_ _ [B|[((_ & ?) & ? & ?)|E]] _]; [by left|by right; right|by right; left].
  - intros d n H. rewrite one_line_grows; [done|intros ->; apply H; by left|intros Hd; apply H; by right; left|].
    destruct (Z.le_gt_cases (len d) MAX_OUTPUT_BUFFER_SIZE); [done|]. exfalso. apply H. by right; right.
Qed.
Lemma buffer_limits_witness :
  let d := replicate 4096 Byte.x61 in
  ~ (d = [] \/ newline ∈ d \/ MAX_OUTPUT_BUFFER_SIZE < len d) /\
  MAX_OUTPUT_BUFFER_SIZE < total_size (append_all (replicate 1000 d)).
Proof.
  cbv zeta. assert (~ (replicate 4096 Byte.x61 = [] \/ newline ∈ replicate 4096 Byte.x61 \/
    MAX_OUTPUT_BUFFER_SIZE < len (replicate 4096 Byte.x61))) as H.
  { intros [H|[[H _]%elem_of_replicate|H]]; [done|done|]. unfold len in H. rewrite length_replicate in H.
    unfold MAX_OUTPUT_BUFFER_SIZE in H. lia. }
  split; [exact H|]. rewrite (proj2 buffer_limits _ 999%nat H). unfold len. by rewrite length_replicate.
Defined.
End OutputBuffer.

Module Utf8Chunks.
(** Looking back over at most three bytes; [seen] of them were continuation
    bytes. *)
Fixpoint scan (fuel : nat) (newest_first : bytes) (seen total : Z) : Z :=
  match fuel, newest_first with
  | S fuel, b :: older =>
      let b := byte.unsigned b in
      if Z.land b 0x80 =? 0 then total
      else if Z.land b 0xC0 =? 0x80 then scan fuel older (seen + 1) total
      else
        let lead seq_len := if seq_len <=? seen + 1 then total else total - (seen + 1) in
        if Z.land b 0xE0 =? 0xC0 then lead 2
        else if Z.land b 0xF0 =? 0xE0 then lead 3
        else if Z.land b 0xF8 =? 0xF0 then lead 4
        else total
  | _, _ => total
  end.
Definition find_utf8_split_point (buf : bytes) : Z := scan 3 (rev buf) 0 (len buf).

(** [Utf8ChunkAccumulator]: its state is the remainder. *)
Definition push_chunk (remainder data : bytes) : bytes * option bytes :=
  if bool_decide (data = []) then (remainder, None)
  else
    let had_remainder := negb (bool_decide (remainder = [])) in
    let data := remainder ++ data in
    let split := find_utf8_split_point data in
    if split =? len data then ([], Some data)
    else if negb had_remainder && (0 <? split) && negb (Utf8.valid (takeZ split data)) then ([], Some data)
    else (dropZ split data, if bool_decide (takeZ split data = []) then None else Some (takeZ split data)).

Definition finish (remainder : bytes) : option bytes :=
  if bool_decide (remainder = []) then None else Some remainder.

(** The chunks of a whole reading. *)
Fixpoint push_all (remainder : bytes) (reads : list bytes) : bytes * list bytes :=
  match reads with
  | [] => (remainder, [])
  | data :: reads =>
      let '(remainder, out) := push_chunk remainder data in
      let '(remainder, outs) := push_all remainder reads in
      (remainder, option_list out ++ outs)
  end.

(** ** Nothing is lost, nothing is held back for long *)
Lemma scan_short l : forall fuel seen total, 0 <= seen -> total = seen + len l -> (fuel <= 3)%nat -> seen + Z.of_nat fuel <= 3 ->
  total - 3 <= scan fuel l seen total <= total /\ 0 <= scan fuel l seen total.
Proof.
  induction l as [|b l IH]; intros [|fuel] seen total Hs Ht Hf H3; simpl; rewrite ?len_cons in Ht;
    try (unfold len in Ht; simpl in Ht; lia).
  pose proof (len_nonneg l). destruct (_ =? 0); [lia|]. destruct (_ =? 0x80); [apply IH; lia|].
  repeat (destruct (_ =? _); [destruct (_ <=? _); lia|]). lia.
Qed.

Lemma split_range buf : len buf - 3 <= find_utf8_split_point buf <= len buf /\ 0 <= find_utf8_split_point buf.
Proof. apply scan_short; try lia. unfold len. by rewrite length_rev. Qed.

Lemma push_chunk_spec r data r' out : push_chunk r data = (r', out) ->
  r ++ data = concat (option_list out) ++ r' /\ (len r <= 3 -> len r' <= 3) /\ out <> Some [].
Proof.
  unfold push_chunk. case_bool_decide as Ed; [intros [= <- <-]; subst; by rewrite app_nil_r|]. cbv zeta.
  assert (forall x y : bytes, y <> [] -> x ++ y <> []) as Hne by (by intros [|? ?] ? ?).
  pose proof (split_range (r ++ data)) as Hr. set (n := find_utf8_split_point (r ++ data)) in *.
  destruct (_ =? _); [|destruct (_ && _)]; intros [= <- <-]; simpl.
  - rewrite !app_nil_r. split_and!; [done|unfold len; simpl; lia|]. intros [= E]. by apply (Hne r data).
  - rewrite !app_nil_r. split_and!; [done|unfold len; simpl; lia|]. intros [= E]. by apply (Hne r data).
  - split_and!.
    + case_bool_decide as Et; simpl; rewrite ?app_nil_r; [|by rewrite takeZ_dropZ].
      rewrite <- (takeZ_dropZ n (r ++ data)) at 1. by rewrite Et.
    + intros _. rewrite len_dropZ by lia. lia.
    + case_bool_decide as Et; [done|]. by intros [= E].
Qed.

Lemma push_all_spec reads : forall r r' outs, push_all r reads = (r', outs) ->
  r ++ concat reads = concat outs ++ r' /\ (len r <= 3 -> len r' <= 3) /\ [] ∉ outs.
Proof.
  induction reads as [|data reads IH]; intros r r' outs; simpl.
  - intros [= <- <-]. rewrite app_nil_r. split_and!; [done|done|apply not_elem_of_nil].
  - destruct (push_chunk r data) as [r1 out] eqn:E1. destruct (push_all r1 reads) as [r2 outs'] eqn:E2.
    intros [= <- <-]. destruct (push_chunk_spec _ _ _ _ E1) as (H1 & H2 & H3). destruct (IH _ _ _ E2) as (H4 & H5 & H6).
    split_and!; [|by auto|].
    + rewrite app_assoc, H1, <- app_assoc, H4, concat_app, <- app_assoc. done.
    + rewrite not_elem_of_app. split; [|done]. destruct out as [o|]; [|apply not_elem_of_nil].
      simpl. rewrite list_elem_of_singleton. intros E. apply H3. by rewrite E.
Qed.

(** ** Characters stay whole *)
Lemma cont_bits b : Utf8.cont b = true -> (Z.land (byte.unsigned b) 0x80 =? 0) = false /\ (Z.land (byte.unsigned b) 0xC0 =? 0x80) = true.
Proof. by destruct b. Qed.

Lemma scan_cont l : Forall (fun b => Utf8.cont b = true) l -> forall rest fuel seen total, (length l <= fuel)%nat ->
  scan fuel (l ++ rest) seen total = scan (fuel - length l) rest (seen + len l) total.
Proof.
  induction 1 as [|b l Hb Hl IH]; intros rest [|fuel] seen total Hf; simpl in Hf; try lia.
  - done.
  - rewrite len_nil, Z.add_0_r, Nat.sub_0_r. done.
  - simpl. destruct (cont_bits _ Hb) as [-> ->]. rewrite IH by lia. rewrite len_cons. f_equal. lia.
Qed.

(** The first byte of a character of [n] bytes, as the scan reads it. *)
Lemma scan_lead x l fuel older seen total : Utf8.is_char (x :: l) -> 0 <= seen ->
  scan (S fuel) (x :: older) seen total =
    if Z.of_nat (Utf8.char_len x) <=? seen + 1 then total else total - (seen + 1).
Proof.
  intros Hc Hs. simpl. unfold Utf8.is_char, Utf8.char_tail in Hc. unfold Utf8.char_len.
  assert ((if Z.land (byte.unsigned x) 128 =? 0 then 1 else if Z.land (byte.unsigned x) 192 =? 128 then 0
    else if Z.land (byte.unsigned x) 224 =? 192 then 2 else if Z.land (byte.unsigned x) 240 =? 224 then 3
    else if Z.land (byte.unsigned x) 248 =? 240 then 4 else 5) =
    (if Utf8.within 0 0x7F x then 1 else if Utf8.within 0xC2 0xDF x then 2 else if Utf8.within 0xE0 0xEF x then 3
     else if Utf8.within 0xF0 0xF4 x then 4 else (if Z.land (byte.unsigned x) 192 =? 128 then 0
      else if Z.land (byte.unsigned x) 224 =? 192 then 2 else if Z.land (byte.unsigned x) 248 =? 240 then 4 else 5))) as Hx
    by by destruct x.
  revert Hc Hx. destruct (Utf8.within 0 0x7F x); [|destruct (Utf8.within 0xC2 0xDF x);
    [|destruct (Utf8.within 0xE0 0xEF x); [|destruct (Utf8.within 0xF0 0xF4 x); [|done]]]]; intros _;
    repeat (destruct (_ =? _); [try (intros; lia); intros _|]); try (intros; lia).
  1: by rewrite (proj2 (Z.leb_le _ _)) by (simpl; lia).
  all: done.
Qed.

(** Text cut anywhere: whole characters and the start of one. *)
Definition partial (p : bytes) : Prop := p = [] \/ exists q, q <> [] /\ Utf8.is_char (p ++ q).

Lemma text_prefix d rest : Utf8.text (d ++ rest) ->
  exists v p, d = v ++ p /\ Utf8.text v /\ Utf8.text (p ++ rest) /\ partial p.
Proof.
  intros (cs & E & Hcs). symmetry in E. revert d E. induction Hcs as [|c cs Hc Hcs IH]; intros d E.
  - simpl in E. symmetry in E. apply app_eq_nil in E as [-> ->]. exists [], []. split_and!; try apply Utf8.text_nil; [done|by left].
  - simpl in E. destruct (app_eq_inv _ _ _ _ E) as [(k & -> & E2)|(k & -> & E2)].
    + destruct (decide (k = [])) as [->|Hk].
      * simpl in E2. subst rest. exists d, []. rewrite app_nil_r in *. split_and!; [done| |by exists cs|by left].
        exists [d]. split; [by simpl; rewrite app_nil_r|by constructor].
      * exists [], d. split_and!; [done|apply Utf8.text_nil| |right; by exists k].
        exists ((d ++ k) :: cs). split; [simpl; by rewrite E2, app_assoc|by constructor].
    + destruct (IH k E2) as (v & p & -> & Hv & Hp & Hpp). exists (c ++ v), p. rewrite app_assoc.
      split_and!; try done. apply Utf8.text_app; [|done]. exists [c]. split; [by simpl; rewrite app_nil_r|by constructor].
Qed.

#[local] Arguments scan : simpl never.

Lemma split_partial v p : Utf8.text v -> partial p -> find_utf8_split_point (v ++ p) = len v.
Proof.
  intros Hv Hp. unfold find_utf8_split_point. rewrite rev_app_distr, len_app.
  destruct (decide (p = [])) as [->|Hne]; [|destruct Hp as [->|(q & Hq & Hc)]; [done|]].
  - change (rev [] ++ rev v) with (rev v). replace (len v + len []) with (len v) by (unfold len; simpl; lia). destruct Hv as (cs & -> & Hcs).
    destruct cs as [|c cs _] using rev_ind; [done|]. apply Forall_app in Hcs as [_ Hcs]. inversion Hcs as [|?? Hc _]; subst.
    destruct (Utf8.char_parts _ Hc) as (x & l & -> & Hlen & Hl & _).
    rewrite concat_app. simpl. rewrite app_nil_r, rev_app_distr. simpl. rewrite <- app_assoc.
    assert (length l <= 3)%nat as Hl3 by (unfold Utf8.char_len in Hlen; repeat case_match; lia).
    rewrite scan_cont; [|by apply Forall_rev|by rewrite length_rev]. rewrite length_rev. simpl app.
    destruct (3 - length l)%nat eqn:E3; [done|]. rewrite (scan_lead x l) by (done || unfold len; lia).
    rewrite (proj2 (Z.leb_le _ _)); [done|]. unfold len. rewrite length_rev. lia.
  - destruct (Utf8.char_parts _ Hc) as (x & l & E & Hlen & Hl & _). destruct p as [|x' p]; [done|].
    injection E as -> <-. apply Forall_app in Hl as [Hl _]. simpl. rewrite <- app_assoc.
    assert (0 < length q)%nat by (destruct q; simpl; [done|lia]). rewrite length_app in Hlen.
    assert (length p <= 2)%nat as Hp2 by (unfold Utf8.char_len in Hlen; repeat case_match; lia).
    rewrite scan_cont; [|by apply Forall_rev|rewrite length_rev; lia]. rewrite length_rev. simpl app.
    destruct (3 - length p)%nat eqn:E3; [lia|]. rewrite (scan_lead x (p ++ q)) by (done || unfold len; lia).
    rewrite (proj2 (Z.leb_gt _ _)); rewrite ?len_cons; unfold len; rewrite length_rev; lia.
Qed.

Lemma push_chunk_text r data rest r' out : partial r -> Utf8.text (r ++ data ++ rest) ->
  push_chunk r data = (r', out) -> Forall Utf8.text (option_list out) /\ Utf8.text (r' ++ rest) /\ partial r'.
Proof.
  intros Hr Ht. unfold push_chunk. case_bool_decide as Ed; [intros [= <- <-]; subst data; split_and!; [by apply Forall_nil|done|done]|]. cbv zeta.
  rewrite app_assoc in Ht. destruct (text_prefix _ _ Ht) as (v & p & E & Hv & Hp & Hpp). rewrite E.
  rewrite split_partial by done. rewrite len_app. destruct (Z.eqb_spec (len v) (len v + len p)) as [E0|E0].
  - assert (p = []) as -> by (apply len_0_nil; lia). rewrite app_nil_r. intros [= <- <-].
    split_and!; [by apply Forall_singleton|done|by left].
  - rewrite takeZ_app_len, dropZ_app_len by done. rewrite (proj2 (Utf8.valid_text v) Hv), andb_false_r.
    intros [= <- <-]. split_and!; [|done|done]. case_bool_decide; [by apply Forall_nil|by apply Forall_singleton].
Qed.

Lemma push_all_text reads : forall r rest r' outs, partial r -> Utf8.text (r ++ concat reads ++ rest) ->
  push_all r reads = (r', outs) -> Forall Utf8.text outs /\ Utf8.text (r' ++ rest) /\ partial r'.
Proof.
  induction reads as [|data reads IH]; intros r rest r' outs Hr Ht; simpl; [by intros [= <- <-]|].
  destruct (push_chunk r data) as [r1 out] eqn:E1. destruct (push_all r1 reads) as [r2 outs'] eqn:E2.
  intros [= <- <-]. simpl in Ht. rewrite <- app_assoc in Ht.
  destruct (push_chunk_text _ _ _ _ _ Hr Ht E1) as (H1 & H2 & H3). destruct (IH _ _ _ _ H3 H2 E2) as (H4 & H5 & H6).
  split_and!; [by apply Forall_app|done|done].
Qed.

(** Cutting terminal output at characters: whatever is read, the chunks
    and the final flush are exactly the input, none is empty, and at most
    three bytes are held back; if the input is UTF-8 text, so is every chunk,
    and nothing is left at the end. *)
Theorem chunks_roundtrip reads r outs : push_all [] reads = (r, outs) ->
  concat outs ++ default [] (finish r) = concat reads /\ ([] ∉ outs) /\ len r <= 3 /\
  (Utf8.valid (concat reads) = true -> Forall (fun c => Utf8.valid c = true) outs /\ finish r = None).
Proof.
  intros H. destruct (push_all_spec _ _ _ _ H) as (H1 & H2 & H3). simpl in H1. split_and!; [|done|by apply H2|].
  - rewrite H1. unfold finish. case_bool_decide as E; [by rewrite E|done].
  - intros Hv%Utf8.valid_text. destruct (push_all_text reads [] [] r outs) as (H4 & H5 & H6); [by left|by rewrite app_nil_r|done|].
    split; [by eapply Forall_impl; [exact H4|]; intros c; apply Utf8.valid_text|].
    rewrite app_nil_r in H5. assert (r = []) as ->; [|done]. destruct H6 as [|(q & Hq & Hc)]; [done|].
    destruct (decide (r = [])) as [|Hne]; [done|exfalso].
    pose proof (split_partial r [] H5 (or_introl eq_refl)) as S1.
    pose proof (split_partial [] r Utf8.text_nil (or_intror (ex_intro _ q (conj Hq Hc)))) as S2.
    rewrite app_nil_r in S1. simpl in S2. rewrite S1 in S2. apply Hne, len_0_nil. by rewrite S2.
Qed.

Lemma chunks_roundtrip_witness : exists r outs,
  push_all [] [str "a"; [Byte.xe4; Byte.xbd]; [Byte.xa0]; [Byte.xf0]; [Byte.x9f; Byte.x98; Byte.x80]] = (r, outs) /\
  concat outs ++ default [] (finish r) = str "a" ++ [Byte.xe4; Byte.xbd; Byte.xa0; Byte.xf0; Byte.x9f; Byte.x98; Byte.x80] /\
  ([] ∉ outs) /\ len r <= 3 /\ Forall (fun c => Utf8.valid c = true) outs /\ finish r = None.
Proof.
  do 2 eexists. split; [by vm_compute|].
  destruct (chunks_roundtrip [str "a"; [Byte.xe4; Byte.xbd]; [Byte.xa0]; [Byte.xf0]; [Byte.x9f; Byte.x98; Byte.x80]] _ _
    ltac:(vm_compute; reflexivity)) as (H1 & H2 & H3 & H4).
  split; [exact H1|]. split; [exact H2|]. split; [exact H3|]. apply H4. by vm_compute.
Defined.
End Utf8Chunks.
