(* ===== verification/Terminal.v ===== *)
(** * Terminal sessions ([src/server/terminal_service.rs])

    A [PersistentTerminalService] keeps the terminals of a viewer across
    connections.  The reader thread of a terminal puts what it reads into a
    bounded queue ([produce]); [read_outputs] runs every 30 ms, empties the
    queues into the replay buffers and sends to the viewer what belongs to an
    active session; [handle_open] opens a terminal or takes up an existing one.
    The pseudo terminal, the child process and the threads are the operating
    system's: their answers are the environment [Env].  The Windows helper
    process is not modelled.  Sessions are visited in stdpp's order of the map,
    which stands for the unspecified one of [HashMap]. *)
From S2P Require Import Prelude.
From S2P Require Import Encoding.
From S2P Require Import TerminalBuffer.
Import OutputBuffer.

Definition MAX_SERVICES : Z := 100.
Definition SERVICE_IDLE_TIMEOUT : Z := 3600 * 1000000000.
Definition CHANNEL_BUFFER_SIZE : nat := 500.
Definition COMPRESS_THRESHOLD : Z := 512.
Definition DEFAULT_RECONNECT_BUFFER_BYTES : Z := 8 * 1024.
Definition MAX_SIGWINCH_PHASE_ATTEMPTS : Z := 3.

Inductive SigwinchPhase := Idle | TempResize (retries : Z) | Restore (retries : Z).
Inductive SigwinchAction := ActTempResize | ActRestore.
Inductive SessionState :=
| Closed
| Active (pending_buffer : option bytes) (sigwinch : SigwinchPhase).

(** [pty] is the size of the pseudo terminal, [input_tx] what was sent to it;
    [child] and [reader] say whether the handles are there. *)
Record TerminalSession := mkSession {
  last_activity : Z;
  pty : option (Z * Z);
  child : bool;
  input_tx : option (list bytes);
  output_rx : option (list bytes);
  reader : bool;
  output_buffer : OutputBuffer;
  pid : Z;
  rows : Z;
  cols : Z;
  closed_message_sent : bool;
  state : SessionState
}.

Definition session_new (now r c : Z) : TerminalSession :=
  mkSession now None false None None false OutputBuffer.new 0 r c false Closed.

Definition with_activity (s : TerminalSession) now : TerminalSession :=
  mkSession now (pty s) (child s) (input_tx s) (output_rx s) (reader s) (output_buffer s) (pid s) (rows s) (cols s)
    (closed_message_sent s) (state s).
Definition with_pty (s : TerminalSession) p : TerminalSession :=
  mkSession (last_activity s) p (child s) (input_tx s) (output_rx s) (reader s) (output_buffer s) (pid s) (rows s)
    (cols s) (closed_message_sent s) (state s).
Definition with_input (s : TerminalSession) i : TerminalSession :=
  mkSession (last_activity s) (pty s) (child s) i (output_rx s) (reader s) (output_buffer s) (pid s) (rows s)
    (cols s) (closed_message_sent s) (state s).
Definition with_output (s : TerminalSession) q b : TerminalSession :=
  mkSession (last_activity s) (pty s) (child s) (input_tx s) q (reader s) b (pid s) (rows s) (cols s)
    (closed_message_sent s) (state s).
Definition with_size (s : TerminalSession) r c : TerminalSession :=
  mkSession (last_activity s) (pty s) (child s) (input_tx s) (output_rx s) (reader s) (output_buffer s) (pid s) r c
    (closed_message_sent s) (state s).
Definition with_closed (s : TerminalSession) b : TerminalSession :=
  mkSession (last_activity s) (pty s) (child s) (input_tx s) (output_rx s) (reader s) (output_buffer s) (pid s)
    (rows s) (cols s) b (state s).
Definition with_state (s : TerminalSession) st : TerminalSession :=
  mkSession (last_activity s) (pty s) (child s) (input_tx s) (output_rx s) (reader s) (output_buffer s) (pid s)
    (rows s) (cols s) (closed_message_sent s) st.

Record PersistentTerminalService := mkService {
  sessions : gmap Z TerminalSession;
  s_last_activity : Z;
  is_persistent : bool;
  needs_session_sync : bool;
  is_specified_user : bool
}.

Definition with_sessions (v : PersistentTerminalService) m : PersistentTerminalService :=
  mkService m (s_last_activity v) (is_persistent v) (needs_session_sync v) (is_specified_user v).
Definition with_sync (v : PersistentTerminalService) b : PersistentTerminalService :=
  mkService (sessions v) (s_last_activity v) (is_persistent v) b (is_specified_user v).

Definition service_new (now : Z) (persistent specified : bool) : PersistentTerminalService :=
  mkService ∅ now persistent false specified.
Definition reset_status (v : PersistentTerminalService) (persistent : bool) : PersistentTerminalService :=
  mkService ((fun s => with_state s Closed) <$> sessions v) (s_last_activity v) persistent true (is_specified_user v).
Definition update_activity (v : PersistentTerminalService) (now : Z) : PersistentTerminalService :=
  mkService (sessions v) now (is_persistent v) (needs_session_sync v) (is_specified_user v).

(** ** Messages *)
Record TerminalOpened := mkOpened {
  o_terminal_id : Z; o_message : bytes; o_pid : Z; o_service_id : bytes; replay_terminal_output : bool;
  persistent_sessions : list Z }.
Inductive TerminalResponse :=
| Opened (o : TerminalOpened)
| Data (terminal_id : Z) (data : bytes) (compressed : bool)
| ClosedMsg (terminal_id exit_code : Z)
| ErrorMsg (message : bytes).
Inductive TerminalAction :=
| OpenTerminal (terminal_id r c : Z)
| ResizeTerminal (terminal_id r c : Z)
| TerminalData (terminal_id : Z) (data : bytes)
| CloseTerminal (terminal_id : Z)
| NoAction.

Inductive Wait := Running | Exited (code : Z) | WaitError.

(** What the operating system answers about a terminal in one step: is its
    lock taken, has its reader thread ended, its child, does resizing work. *)
Record Env := mkEnv {
  busy : Z -> bool;
  finished : Z -> bool;
  try_wait : Z -> Wait;
  resize_ok : Z -> bool;
  kill_ok : Z -> bool;
  spawned : option Z;
  now : Z
}.

Inductive Failure := OpenFailed | ResizeFailed | KillFailed | TooManyServices | ServiceNotFound.
Definition Reply : Type := result (option TerminalResponse) Failure.

(** ** The reader thread's [try_send] *)
Definition produce (s : TerminalSession) (chunk : bytes) : TerminalSession :=
  match output_rx s with
  | Some q => if (length q <? CHANNEL_BUFFER_SIZE)%nat then with_output s (Some (q ++ [chunk])) (output_buffer s) else s
  | None => s
  end.

(** The reader thread: what a read of the terminal gives, and what one turn of
    the loop does with the remainder of the last character and the queue; the
    flag tells whether the loop goes on.  [try_send_output] asks for the end
    when the receiver is gone. *)
Inductive Read := ReadBytes (data : bytes) | Eof | WouldBlock | ReadError.

Definition try_send_output (s : TerminalSession) (data : bytes) : TerminalSession * bool :=
  (produce s data, match output_rx s with Some _ => false | None => true end).

Definition reader_turn (exiting : bool) (remainder : bytes) (s : TerminalSession) (r : Read)
  : bytes * TerminalSession * bool :=
  match r with
  | Eof =>
      match Utf8Chunks.finish remainder with
      | Some data => ([], (try_send_output s data).1, false)
      | None => (remainder, s, false)
      end
  | ReadBytes data =>
      if exiting then (remainder, s, false)
      else
        match Utf8Chunks.push_chunk remainder data with
        | (remainder, Some data) => let '(s, stop) := try_send_output s data in (remainder, s, negb stop)
        | (remainder, None) => (remainder, s, true)
        end
  | WouldBlock => (remainder, s, negb exiting)
  | ReadError => (remainder, s, false)
  end.

Fixpoint reader_loop (remainder : bytes) (s : TerminalSession) (reads : list Read) : bytes * TerminalSession :=
  match reads with
  | [] => (remainder, s)
  | r :: reads =>
      let '(remainder, s, go) := reader_turn false remainder s r in
      if go then reader_loop remainder s reads else (remainder, s)
  end.

Section Service.
Context {Z_ : Zstd} (service_id : bytes).

(** ** [handle_open] *)
Definition remap (v : PersistentTerminalService) (id : Z) : PersistentTerminalService :=
  match sessions v !! id with
  | Some _ => v
  | None =>
      if needs_session_sync v && negb (bool_decide (sessions v = ∅)) then
        match list_min (map_to_list (sessions v)).*1 with
        | Some low =>
            match sessions v !! low with
            | Some s => with_sessions v (<[id := s]> (delete low (sessions v)))
            | None => v
            end
        | None => v
        end
      else v
  end.

Definition other_ids (v : PersistentTerminalService) (id : Z) : list Z :=
  filter (fun i => i <> id) (map_to_list (sessions v)).*1.

(** Taking up an existing session. *)
Definition reconnect (v : PersistentTerminalService) (id : Z) (s : TerminalSession)
  : PersistentTerminalService * TerminalResponse :=
  let buffer := get_recent (output_buffer s) DEFAULT_RECONNECT_BUFFER_BYTES in
  let '(backlog, q) :=
    match output_rx s with
    | Some q => (take CHANNEL_BUFFER_SIZE q, Some (drop CHANNEL_BUFFER_SIZE q))
    | None => ([], None)
    end in
  let b := foldl append (output_buffer s) backlog in
  let buffer := match backlog with [] => buffer | _ => get_recent b DEFAULT_RECONNECT_BUFFER_BYTES end in
  let has_pending := negb (bool_decide (buffer = [])) in
  let s := with_state (with_output s q b)
             (Active (if has_pending then Some buffer else None) (TempResize MAX_SIGWINCH_PHASE_ATTEMPTS)) in
  let v := with_sessions v (<[id := s]> (sessions v)) in
  let ids := if needs_session_sync v && (1 <? Z.of_nat (size (sessions v))) then other_ids v id else [] in
  (with_sync v false,
   Opened (mkOpened id
     (if has_pending then str "Reconnected to existing terminal with pending output"
      else str "Reconnected to existing terminal")
     (pid s) service_id has_pending ids)).

Definition handle_open (e : Env) (v : PersistentTerminalService) (id r c : Z)
  : PersistentTerminalService * Reply :=
  let v := remap v id in
  match sessions v !! id with
  | Some s => let '(v, m) := reconnect v id s in (v, Ok (Some m))
  | None =>
      match spawned e with
      | None => (v, Err OpenFailed)
      | Some p =>
          let s := mkSession (now e) (Some (u16_of r, u16_of c)) true (Some []) (Some []) true OutputBuffer.new p
                     (u16_of r) (u16_of c) false (Active None Idle) in
          let ids := if needs_session_sync v then (map_to_list (sessions v)).*1 else [] in
          (with_sync (with_sessions v (<[id := s]> (sessions v))) false,
           Ok (Some (Opened (mkOpened id (str "Terminal opened") p service_id false ids))))
      end
  end.

(** ** The other actions *)
Definition handle_resize (e : Env) (v : PersistentTerminalService) (id r c : Z) : PersistentTerminalService * Reply :=
  match sessions v !! id with
  | Some s =>
      let s := with_size (with_activity s (now e)) (u16_of r) (u16_of c) in
      let '(s, reply) :=
        match pty s with
        | Some _ => if resize_ok e id then (with_pty s (Some (u16_of r, u16_of c)), Ok None) else (s, Err ResizeFailed)
        | None => (s, Ok None)
        end in
      (with_sessions v (<[id := s]> (sessions v)), reply)
  | None => (v, Ok None)
  end.

Definition handle_data (e : Env) (v : PersistentTerminalService) (id : Z) (data : bytes)
  : PersistentTerminalService * Reply :=
  match sessions v !! id with
  | Some s =>
      let s := with_activity s (now e) in
      let s := match input_tx s with Some sent => with_input s (Some (sent ++ [data])) | None => s end in
      (with_sessions v (<[id := s]> (sessions v)), Ok None)
  | None => (v, Ok None)
  end.

Definition handle_close (e : Env) (v : PersistentTerminalService) (id : Z) : PersistentTerminalService * Reply :=
  match sessions v !! id with
  | Some s =>
      (with_sessions v (delete id (sessions v)),
       if child s then if kill_ok e id then Ok (Some (ClosedMsg id (-1))) else Err KillFailed
       else Ok (Some (ClosedMsg id 0)))
  | None => (v, Ok None)
  end.

Definition handle_action (e : Env) (v : PersistentTerminalService) (a : TerminalAction)
  : PersistentTerminalService * Reply :=
  let v := update_activity v (now e) in
  match a with
  | OpenTerminal id r c => handle_open e v id r c
  | ResizeTerminal id r c => handle_resize e v id r c
  | TerminalData id data => handle_data e v id data
  | CloseTerminal id => handle_close e v id
  | NoAction => (v, Ok None)
  end.

(** ** [read_outputs] *)
Definition do_sigwinch_resize (ok : bool) (s : TerminalSession) (a : SigwinchAction) : bool * TerminalSession :=
  if (rows s =? 0) || (cols s =? 0) then (false, s)
  else
    let target := match a with
                  | ActTempResize => if 2 <? rows s then usat_sub (rows s) 1 else Z.min (rows s + 1) (2 ^ 16 - 1)
                  | ActRestore => rows s
                  end in
    match pty s with
    | Some _ => if ok then (true, with_pty s (Some (target, cols s))) else (false, s)
    | None => (false, s)
    end.

Definition create_terminal_data_response (id : Z) (data : bytes) : TerminalResponse :=
  if COMPRESS_THRESHOLD <? len data then
    let c := compress data in
    if len c <? len data then Data id c true else Data id data false
  else Data id data false.

(** One attempt of a phase is used up before it is known to succeed. *)
Definition next_phase (p : SigwinchPhase) : SigwinchPhase * option SigwinchAction :=
  match p with
  | TempResize retries => if retries =? 0 then (Idle, None) else (TempResize (retries - 1), Some ActTempResize)
  | Restore retries => if retries =? 0 then (Idle, None) else (Restore (retries - 1), Some ActRestore)
  | Idle => (Idle, None)
  end.
Definition after_resize (p : SigwinchPhase) (a : SigwinchAction) (ok : bool) : SigwinchPhase :=
  if ok then match a with ActTempResize => Restore MAX_SIGWINCH_PHASE_ATTEMPTS | ActRestore => Idle end else p.

(** The session, what it sends, and whether it has just ended. *)
Definition read_session (e : Env) (id : Z) (s : TerminalSession) : TerminalSession * list TerminalResponse * bool :=
  if busy e id then (s, [], false)
  else
    let ended := negb (closed_message_sent s) &&
                 (reader s && finished e id ||
                  child s && match try_wait e id with Exited _ => true | _ => false end) in
    let s := if ended then with_closed s true else s in
    let received := match output_rx s with Some q => q | None => [] end in
    let s := with_output s (match output_rx s with Some _ => Some [] | None => None end)
               (foldl append (output_buffer s) received) in
    match state s with
    | Closed => (s, [], ended)
    | Active pending phase =>
        let '(phase, action) := next_phase phase in
        let replay := match pending with
                      | Some b => if bool_decide (b = []) then [] else [create_terminal_data_response id b]
                      | None => []
                      end in
        let s := if bool_decide (received = []) then s else with_activity s (now e) in
        let '(phase, s) :=
          match action with
          | Some a => let '(ok, s) := do_sigwinch_resize (resize_ok e id) s a in (after_resize phase a ok, s)
          | None => (phase, s)
          end in
        (with_state s (Active None phase), replay ++ map (create_terminal_data_response id) received, ended)
    end.

Definition exit_code (e : Env) (id : Z) (s : TerminalSession) : Z :=
  if child s then match try_wait e id with Exited code => code | _ => 0 end else 0.

(** The end of a session is told after all output. *)
Fixpoint close_ended (e : Env) (m : gmap Z TerminalSession) (ids : list Z)
  : gmap Z TerminalSession * list TerminalResponse :=
  match ids with
  | [] => (m, [])
  | id :: ids =>
      let '(m1, code) := match m !! id with
                         | Some s => (delete id m, exit_code e id s)
                         | None => (m, 0)
                         end in
      let '(m2, out) := close_ended e m1 ids in (m2, ClosedMsg id code :: out)
  end.

Fixpoint read_all (e : Env) (l : list (Z * TerminalSession))
  : list (Z * TerminalSession) * list TerminalResponse * list Z :=
  match l with
  | [] => ([], [], [])
  | (id, s) :: l =>
      let '(s, out, ended) := read_session e id s in
      let '(l, outs, closed) := read_all e l in
      ((id, s) :: l, out ++ outs, if ended then id :: closed else closed)
  end.

Definition read_outputs (e : Env) (v : PersistentTerminalService) : PersistentTerminalService * list TerminalResponse :=
  let '(l, out, closed) := read_all e (map_to_list (sessions v)) in
  let '(m, out2) := close_ended e (list_to_map l) closed in
  (with_sessions v m, out ++ out2).
End Service.

(** ** The registry of services *)
Section Registry.
Context {Z_ : Zstd}.
Definition Registry : Type := gmap bytes PersistentTerminalService.

Definition get_or_create_service (reg : Registry) (id : bytes) (now : Z) (persistent specified : bool)
  : result Registry Failure :=
  match reg !! id with
  | None =>
      if MAX_SERVICES <=? Z.of_nat (size reg) then Err TooManyServices
      else Ok (<[id := reset_status (service_new now persistent specified) persistent]> reg)
  | Some v => Ok (<[id := reset_status v persistent]> reg)
  end.

Definition remove_service (reg : Registry) (id : bytes) : Registry := delete id reg.

Definition is_idle (now : Z) (v : PersistentTerminalService) : bool :=
  negb (is_persistent v) && (SERVICE_IDLE_TIMEOUT <? now - s_last_activity v) ||
  is_persistent v && bool_decide (sessions v = ∅) && (SERVICE_IDLE_TIMEOUT * 2 <? now - s_last_activity v).
Definition cleanup_inactive_services (reg : Registry) (now : Z) : Registry :=
  foldl remove_service reg (filter (fun kv => is_idle now kv.2 = true) (map_to_list reg)).*1.

Definition set_persistent (reg : Registry) (id : bytes) (persistent : bool) : result Registry Failure :=
  match reg !! id with
  | Some v => Ok (<[id := mkService (sessions v) (s_last_activity v) persistent (needs_session_sync v) (is_specified_user v)]> reg)
  | None => Err ServiceNotFound
  end.

(** When the service's loop ends, and when the connection drops ([persistent]
    is what the connection's proxy knows of the service). *)
Definition on_disconnect (reg : Registry) (id : bytes) (persistent : bool) : Registry :=
  if persistent then reg else remove_service reg id.
Definition drop_temporary (reg : Registry) (id : bytes) : Registry :=
  match reg !! id with Some v => if is_persistent v then reg else remove_service reg id | None => reg end.

Definition handle_action_of (e : Env) (reg : Registry) (id : bytes) (a : TerminalAction) : Registry * Reply :=
  match reg !! id with
  | None => (reg, Ok (Some (ErrorMsg (str "Terminal service " ++ id ++ str " not found"))))
  | Some v => let '(v, r) := handle_action id e v a in (<[id := v]> reg, r)
  end.
Definition read_outputs_of (e : Env) (reg : Registry) (id : bytes) : Registry * list TerminalResponse :=
  match reg !! id with
  | None => (reg, [])
  | Some v => let '(v, out) := read_outputs e v in (<[id := v]> reg, out)
  end.

(** Everything that changes the registry. *)
Inductive RegistryOp :=
| Create (id : bytes) (now : Z) (persistent specified : bool)
| Cleanup (now : Z)
| SetPersistent (id : bytes) (persistent : bool)
| LoopEnded (id : bytes)
| Disconnected (id : bytes) (persistent : bool)
| Action (e : Env) (id : bytes) (a : TerminalAction)
| Round (e : Env) (id : bytes).

Definition registry_step (reg : Registry) (op : RegistryOp) : Registry :=
  match op with
  | Create id now persistent specified =>
      match get_or_create_service reg id now persistent specified with Ok reg' => reg' | Err _ => reg end
  | Cleanup now => cleanup_inactive_services reg now
  | SetPersistent id persistent => match set_persistent reg id persistent with Ok reg' => reg' | Err _ => reg end
  | LoopEnded id => drop_temporary reg id
  | Disconnected id persistent => on_disconnect reg id persistent
  | Action e id a => (handle_action_of e reg id a).1
  | Round e id => (read_outputs_of e reg id).1
  end.
End Registry.

(** ** The reaper of child processes
    [check_zombie_terminals]: the vector of processes (by number), the index of
    the loop; [fuel] bounds its turns. *)
Fixpoint check_zombies (fuel : nat) (wait : Z -> Wait) (i : nat) (tasks : list Z) : option (list Z) :=
  match fuel with
  | O => None
  | S fuel =>
      match tasks !! i with
      | None => Some tasks
      | Some p =>
          match wait p with
          | Exited _ => check_zombies fuel wait i (delete i tasks)
          | Running => check_zombies fuel wait (S i) tasks
          | WaitError => check_zombies fuel wait i (delete i tasks)
          end
      end
  end.

(** ** What the viewer of a terminal sees *)
Section Shown.
Context {Z_ : Zstd}.

(** The output in a response, for terminal [id]. *)
Definition payload (id : Z) (r : TerminalResponse) : bytes :=
  match r with
  | Data i d c => if bool_decide (i = id) then if c then decompress d else d else []
  | _ => []
  end.
Definition shown (id : Z) (rs : list TerminalResponse) : bytes := concat (map (payload id) rs).

(** Chunks that the reader thread of terminal [id] puts into its queue. *)
Definition arrive (v : PersistentTerminalService) (id : Z) (chunks : list bytes) : PersistentTerminalService :=
  match sessions v !! id with
  | Some s => with_sessions v (<[id := foldl produce s chunks]> (sessions v))
  | None => v
  end.

(** Rounds of the service's loop, with what arrives before each. *)
Fixpoint rounds (id : Z) (v : PersistentTerminalService) (l : list (list bytes * Env))
  : PersistentTerminalService * list TerminalResponse :=
  match l with
  | [] => (v, [])
  | (chunks, e) :: l =>
      let '(v, out) := read_outputs e (arrive v id chunks) in
      let '(v, outs) := rounds id v l in (v, out ++ outs)
  end.

(** Whether the service, when it looks at the terminal, finds that it ended. *)
Definition ends (s : TerminalSession) (e : Env) (id : Z) : bool :=
  negb (closed_message_sent s) &&
  (reader s && finished e id || child s && match try_wait e id with Exited _ => true | _ => false end).

(** What comes out of a queue of [CHANNEL_BUFFER_SIZE] chunks that holds [q]:
    what finds no room is dropped; a round in which the session is busy leaves
    everything there, any other empties it, and the round that finds the
    terminal ended is the last. *)
Fixpoint carried (s : TerminalSession) (id : Z) (q : list bytes) (l : list (list bytes * Env)) : list bytes :=
  match l with
  | [] => []
  | (chunks, e) :: l =>
      let q := q ++ take (CHANNEL_BUFFER_SIZE - length q) chunks in
      if busy e id then carried s id q l
      else q ++ if ends s e id then [] else carried s id [] l
  end.
(** There is room for everything, and all of it is looked at in the end. *)
Fixpoint roomy (s : TerminalSession) (id : Z) (n : nat) (l : list (list bytes * Env)) : Prop :=
  match l with
  | [] => n = 0%nat
  | (chunks, e) :: l =>
      (n + length chunks <= CHANNEL_BUFFER_SIZE)%nat /\
      if busy e id then roomy s id (n + length chunks) l else if ends s e id then l = [] else roomy s id 0 l
  end.

Lemma carried_sublist s id l : forall q, carried s id q l `sublist_of` q ++ concat l.*1.
Proof.
  induction l as [|[chunks e] l IH]; intros q; simpl; [apply sublist_nil_l|].
  destruct (busy e id).
  - etrans; [apply IH|]. rewrite <- app_assoc. apply sublist_app; [done|]. apply sublist_app; [apply sublist_take|done].
  - rewrite app_assoc. apply sublist_app; [apply sublist_app; [done|apply sublist_take]|].
    destruct (ends s e id); [apply sublist_nil_l|]. apply (IH []).
Qed.
Lemma carried_roomy s id l : forall q, roomy s id (length q) l -> carried s id q l = q ++ concat l.*1.
Proof.
  induction l as [|[chunks e] l IH]; intros q; simpl; [by intros ->%nil_length_inv|]. intros [Hn Hr].
  rewrite (take_ge chunks) by lia. destruct (busy e id).
  - rewrite IH by by rewrite length_app. by rewrite app_assoc.
  - rewrite <- app_assoc. do 2 f_equal. destruct (ends s e id); [by subst l|]. by apply (IH []).
Qed.

Lemma shown_app id a b : shown id (a ++ b) = shown id a ++ shown id b.
Proof. unfold shown. by rewrite map_app, concat_app. Qed.

Lemma data_ids id i d : i <> id -> payload id (create_terminal_data_response i d) = [].
Proof.
  intros H. unfold create_terminal_data_response. destruct (_ <? _); [destruct (_ <? _)|]; simpl;
    by rewrite bool_decide_false.
Qed.

Lemma datas_ids id i l : i <> id -> shown id (map (create_terminal_data_response i) l) = [].
Proof. intros H. unfold shown. induction l as [|d l IH]; [done|]. simpl. by rewrite data_ids, IH. Qed.

Lemma read_session_ids e i s id : i <> id -> shown id (read_session e i s).1.2 = [].
Proof.
  intros H. unfold read_session. destruct (busy e i); [done|]. cbv zeta. destruct (state _) as [|pending phase]; [done|].
  destruct (next_phase phase) as [p [a|]].
  - destruct (do_sigwinch_resize _ _ _) as [ok s']. cbn [fst snd]. rewrite shown_app, datas_ids, app_nil_r by done.
    destruct pending as [b|]; [|done]. case_bool_decide; [done|]. unfold shown. simpl. by rewrite data_ids.
  - cbn [fst snd]. rewrite shown_app, datas_ids, app_nil_r by done.
    destruct pending as [b|]; [|done]. case_bool_decide; [done|]. unfold shown. simpl. by rewrite data_ids.
Qed.

Lemma read_all_absent e id l : id ∉ l.*1 ->
  (read_all e l).1.1.*1 = l.*1 /\ shown id (read_all e l).1.2 = [] /\ id ∉ (read_all e l).2.
Proof.
  induction l as [|[i s'] l IH]; [intros _; split_and!; [done|done|apply not_elem_of_nil]|].
  rewrite fmap_cons, not_elem_of_cons. intros [Hi Hl]. destruct (IH Hl) as (H1 & H2 & H3). simpl.
  pose proof (read_session_ids e i s' id (not_eq_sym Hi)) as H4. simpl in Hi.
  destruct (read_session e i s') as [[s1 o1] ended]. destruct (read_all e l) as [[l1 outs] closed]. simpl in *.
  rewrite shown_app, H2, H4. split_and!; [by f_equal|done|]. destruct ended; [|done]. rewrite not_elem_of_cons. done.
Qed.

Lemma read_all_spec e id s l : NoDup l.*1 -> (id, s) ∈ l ->
  let r := read_all e l in let o := read_session e id s in
  r.1.1.*1 = l.*1 /\ (id, o.1.1) ∈ r.1.1 /\ shown id r.1.2 = shown id o.1.2 /\ (id ∈ r.2 <-> o.2 = true).
Proof.
  cbv zeta.
  induction l as [|[i s'] l IH]; [intros _ H; by apply elem_of_nil in H|].
  rewrite fmap_cons, NoDup_cons, elem_of_cons. intros [Hi Hn] [[= <- <-]|Hin].
  - destruct (read_all_absent e id l Hi) as (H1 & H2 & H3). simpl.
    destruct (read_session e id s) as [[s1 o1] ended]. destruct (read_all e l) as [[l1 outs] closed]. simpl in *.
    rewrite shown_app, H2, app_nil_r. split_and!; [by f_equal|by left|done|]. destruct ended; [|done]. rewrite elem_of_cons. naive_solver.
  - destruct (IH Hn Hin) as (H1 & H2 & H3 & H4). assert (i <> id) as Hne.
    { intros ->. apply Hi. apply list_elem_of_fmap. by exists (id, s). }
    pose proof (read_session_ids e i s' id Hne) as H5. simpl.
    destruct (read_session e i s') as [[s1 o1] ended]. destruct (read_all e l) as [[l1 outs] closed]. simpl in *.
    rewrite shown_app, H5. split_and!; [by f_equal|by right|done|]. rewrite <- H4. destruct ended; [|done].
    rewrite elem_of_cons. naive_solver.
Qed.

Lemma close_ended_spec e id ids : forall m,
  (close_ended e m ids).1 !! id = (if decide (id ∈ ids) then None else m !! id) /\ shown id (close_ended e m ids).2 = [].
Proof.
  induction ids as [|i ids IH]; intros m; [split; [|done]; case_decide as X; [by apply elem_of_nil in X|done]|]. cbn [close_ended].
  set (m1 := match m !! i with Some _ => delete i m | None => m end).
  assert (m1 = delete i m) as Em by (unfold m1; destruct (m !! i) eqn:E; [done|by rewrite delete_id]).
  assert (exists code, match m !! i with Some s => (delete i m, exit_code e i s) | None => (m, 0) end = (m1, code)) as [code ->]
    by (unfold m1; destruct (m !! i); by eexists).
  destruct (IH m1) as [H1 H2]. destruct (close_ended e m1 ids) as [m2 out]. simpl in *. split; [|by unfold shown in *].
  rewrite H1, Em. destruct (decide (i = id)) as [->|Hne].
  - rewrite lookup_delete_eq, (decide_True (P := id ∈ id :: ids)) by by left. by case_decide.
  - rewrite lookup_delete_ne by done. repeat case_decide; set_solver.
Qed.

Lemma read_outputs_spec e v id s s' o ended : sessions v !! id = Some s -> read_session e id s = (s', o, ended) ->
  sessions (read_outputs e v).1 !! id = (if ended then None else Some s') /\ shown id (read_outputs e v).2 = shown id o.
Proof.
  intros Hs Hr. unfold read_outputs.
  destruct (read_all_spec e id s (map_to_list (sessions v))) as (H1 & H2 & H3 & H4);
    [apply NoDup_fst_map_to_list|by apply elem_of_map_to_list|].
  rewrite Hr in H2, H3, H4. destruct (read_all e (map_to_list (sessions v))) as [[l out] closed]. simpl in *.
  destruct (close_ended_spec e id closed (list_to_map l)) as [H5 H6].
  destruct (close_ended e (list_to_map l) closed) as [m out2]. simpl in *.
  rewrite H5, shown_app, H6, app_nil_r, H3. split; [|done]. destruct ended.
  - by rewrite decide_True by by apply H4.
  - rewrite decide_False by (by intros ?%H4). apply elem_of_list_to_map_1; [|done]. rewrite H1. apply NoDup_fst_map_to_list.
Qed.

(** A terminal that is gone stays gone and shows nothing. *)
Lemma read_outputs_absent e v id : sessions v !! id = None ->
  sessions (read_outputs e v).1 !! id = None /\ shown id (read_outputs e v).2 = [].
Proof.
  intros Hs. unfold read_outputs. destruct (read_all_absent e id (map_to_list (sessions v))) as (H1 & H2 & H3).
  { intros ([i s] & -> & Hin)%list_elem_of_fmap. apply elem_of_map_to_list in Hin. simpl in Hs. congruence. }
  destruct (read_all e (map_to_list (sessions v))) as [[l out] closed]. simpl in *.
  destruct (close_ended_spec e id closed (list_to_map l)) as [H5 H6].
  destruct (close_ended e (list_to_map l) closed) as [m out2]. simpl in *. rewrite H5, shown_app, H2, H6. split; [|done].
  case_decide; [done|]. apply not_elem_of_list_to_map_1. rewrite H1. intros ([i s] & -> & Hin)%list_elem_of_fmap.
  apply elem_of_map_to_list in Hin. simpl in Hs. congruence.
Qed.
Lemma rounds_absent id l : forall v, sessions v !! id = None -> shown id (rounds id v l).2 = [].
Proof.
  induction l as [|[chunks e] l IH]; intros v Hv; simpl; [done|]. unfold arrive. rewrite Hv.
  destruct (read_outputs_absent e v id Hv) as [H1 H2]. destruct (read_outputs e v) as [v1 out]. simpl in *.
  specialize (IH v1 H1). destruct (rounds id v1 l) as [v2 outs]. simpl in *. by rewrite shown_app, H2, IH.
Qed.
Context {ZL : ZstdLaws}.

Lemma data_payload id d : payload id (create_terminal_data_response id d) = d.
Proof.
  unfold create_terminal_data_response. destruct (Z.ltb_spec COMPRESS_THRESHOLD (len d)) as [H|]; [destruct (_ <? _)|];
    simpl; rewrite bool_decide_true by done; try done.
  apply decompress_compress. intros ->. vm_compute in H. done.
Qed.

Lemma datas_payload id l : shown id (map (create_terminal_data_response id) l) = concat l.
Proof. induction l as [|d l IH]; [done|]. unfold shown in *. simpl. by rewrite data_payload, IH. Qed.

Lemma produce_all chunks : forall s q, output_rx s = Some q -> (length q <= CHANNEL_BUFFER_SIZE)%nat ->
  foldl produce s chunks = with_output s (Some (q ++ take (CHANNEL_BUFFER_SIZE - length q) chunks)) (output_buffer s).
Proof.
  induction chunks as [|c chunks IH]; intros s q Hq Hl; simpl.
  - rewrite take_nil, app_nil_r, <- Hq. by destruct s.
  - unfold produce at 2. rewrite Hq. destruct (Nat.ltb_spec (length q) CHANNEL_BUFFER_SIZE) as [Hlt|Hge].
    + rewrite (IH _ (q ++ [c])); [|done|rewrite length_app; simpl; lia]. rewrite length_app. simpl.
      replace (CHANNEL_BUFFER_SIZE - length q)%nat with (S (CHANNEL_BUFFER_SIZE - (length q + 1))) by lia. simpl. by rewrite <- app_assoc.
    + rewrite (IH _ q) by done. by replace (CHANNEL_BUFFER_SIZE - length q)%nat with 0%nat by lia.
Qed.

(** The viewer is connected; [past] is all that was taken out of the queue, which
    now holds [q]; [s0] is the session as it was. *)
Definition streaming (s0 : TerminalSession) (past : list bytes) (pending : option bytes) (q : list bytes) (s : TerminalSession) : Prop :=
  output_buffer s = append_all past /\ output_rx s = Some q /\ (exists phase, state s = Active pending phase) /\
  closed_message_sent s = closed_message_sent s0 /\ reader s = reader s0 /\ child s = child s0.

(** A look at the session empties the queue, whether or not the terminal ended. *)
Lemma read_streaming s0 past pending q s e id : streaming s0 past pending q s -> busy e id = false ->
  exists s' o, read_session e id s = (s', o, ends s0 e id) /\
    (ends s0 e id = false -> streaming s0 (past ++ q) None [] s') /\ shown id o = default [] pending ++ concat q.
Proof.
  intros (Hb & Hq & (phase & Hst) & E1 & E2 & E3) Hbusy. unfold read_session. rewrite Hbusy. cbv zeta.
  change (negb (closed_message_sent s) && _) with (ends s e id).
  assert (ends s e id = ends s0 e id) as -> by (unfold ends; by rewrite E1, E2, E3). set (end_ := ends s0 e id).
  set (s1 := if end_ then with_closed s true else s).
  assert (output_rx s1 = Some q /\ output_buffer s1 = append_all past /\ state s1 = Active pending phase /\ (end_ = false -> s1 = s))
    as (F1 & F2 & F3 & F4) by (unfold s1; by destruct end_).
  cbn [output_rx with_output state output_buffer]. rewrite F1, F2, F3.
  assert (foldl append (append_all past) q = append_all (past ++ q)) as -> by (unfold append_all; by rewrite foldl_app).
  assert (shown id (match pending with Some b => if bool_decide (b = []) then [] else [create_terminal_data_response id b]
    | None => [] end ++ map (create_terminal_data_response id) q) = default [] pending ++ concat q) as Hs.
  { rewrite shown_app, datas_payload. f_equal. destruct pending as [b|]; [|done]. case_bool_decide as E; [by rewrite E|].
    unfold shown. simpl. by rewrite data_payload, app_nil_r. }
  set (s2 := if bool_decide (q = []) then _ else _).
  assert (forall s3, output_buffer s3 = output_buffer s2 -> output_rx s3 = output_rx s2 -> closed_message_sent s3 = closed_message_sent s2 ->
    reader s3 = reader s2 -> child s3 = child s2 -> forall phase', end_ = false ->
    streaming s0 (past ++ q) None [] (with_state s3 (Active None phase'))) as Hstr.
  { intros s3 G1 G2 G3 G4 G5 phase' He. unfold s2 in *. rewrite (F4 He) in *.
    split_and!; try (simpl; rewrite ?G1, ?G2, ?G3, ?G4, ?G5; by case_bool_decide). by eexists. }
  destruct (next_phase phase) as [p [a|]].
  - destruct (do_sigwinch_resize (resize_ok e id) s2 a) as [ok s3] eqn:Er. do 2 eexists. split; [reflexivity|]. split; [|exact Hs].
    apply Hstr; unfold do_sigwinch_resize in Er; (destruct (_ || _); [by injection Er as <- <-|];
      destruct (pty s2); [destruct (resize_ok e id)|]; by injection Er as <- <-).
  - do 2 eexists. split; [reflexivity|]. split; [|exact Hs]. by apply Hstr.
Qed.

(** Whether the session was looked at. *)
Definition looked (id : Z) (l : list (list bytes * Env)) : bool := existsb (fun r => negb (busy r.2 id)) l.

Lemma rounds_streaming s0 id l : forall past pending q s v, (length q <= CHANNEL_BUFFER_SIZE)%nat ->
  sessions v !! id = Some s -> streaming s0 past pending q s ->
  shown id (rounds id v l).2 = (if looked id l then default [] pending else []) ++ concat (carried s0 id q l).
Proof.
  induction l as [|[chunks e] l IH]; intros past pending q s v Hl Hs Hst; simpl; [done|]. unfold arrive. rewrite Hs.
  rewrite (produce_all chunks s q (proj1 (proj2 Hst)) Hl). set (q1 := q ++ take _ chunks).
  assert (length q1 <= CHANNEL_BUFFER_SIZE)%nat as Hl1 by (unfold q1; rewrite length_app, length_take; lia).
  assert (streaming s0 past pending q1 (with_output s (Some q1) (output_buffer s))) as Hst1
    by (destruct Hst as (? & ? & ? & ? & ? & ?); by split_and!).
  set (s1 := with_output s (Some q1) (output_buffer s)) in *. set (v1 := with_sessions v (<[id := s1]> (sessions v))).
  assert (sessions v1 !! id = Some s1) as Hs1 by apply lookup_insert_eq. destruct (busy e id) eqn:Hb; simpl.
  - assert (read_session e id s1 = (s1, [], false)) as Hr by (unfold read_session; by rewrite Hb).
    destruct (read_outputs_spec e v1 id s1 _ _ _ Hs1 Hr) as [H1 H2]. destruct (read_outputs e v1) as [v2 out]. simpl in H1, H2.
    specialize (IH _ _ _ _ v2 Hl1 H1 Hst1). destruct (rounds id v2 l) as [v3 outs]. simpl in *. by rewrite shown_app, H2, IH.
  - destruct (read_streaming s0 past pending q1 s1 e id Hst1 Hb) as (s2 & o & Hr & Hst2 & Ho).
    destruct (read_outputs_spec e v1 id s1 _ _ _ Hs1 Hr) as [H1 H2]. destruct (read_outputs e v1) as [v2 out]. simpl in H1, H2.
    rewrite concat_app. destruct (ends s0 e id).
    + pose proof (rounds_absent id l v2 H1) as H3. destruct (rounds id v2 l) as [v3 outs]. simpl in *.
      by rewrite shown_app, H2, H3, Ho, !app_nil_r.
    + specialize (IH _ _ [] _ v2 (Nat.le_0_l _) H1 (Hst2 eq_refl)). destruct (rounds id v2 l) as [v3 outs]. simpl in *.
      rewrite shown_app, H2, IH, Ho. destruct (looked id l); by rewrite <- ?app_assoc.
Qed.

(** Taking up a session. *)
Lemma reconnect_streaming service_id v id s past q : sessions v !! id = Some s ->
  output_buffer s = append_all past -> output_rx s = Some q -> (length q <= CHANNEL_BUFFER_SIZE)%nat ->
  exists s' pending o, reconnect service_id v id s = (with_sync (with_sessions v (<[id := s']> (sessions v))) false, Opened o) /\
    o_terminal_id o = id /\ streaming s (past ++ q) pending [] s' /\
    default [] pending = get_recent (append_all (past ++ q)) DEFAULT_RECONNECT_BUFFER_BYTES.
Proof.
  intros Hs Hb Hq Hl. unfold reconnect. rewrite Hq. rewrite take_ge, drop_ge by done. rewrite Hb.
  assert (foldl append (append_all past) q = append_all (past ++ q)) as -> by (unfold append_all; by rewrite foldl_app).
  set (buffer := match q with [] => _ | _ => _ end).
  assert (buffer = get_recent (append_all (past ++ q)) DEFAULT_RECONNECT_BUFFER_BYTES) as Hbuf.
  { unfold buffer. destruct q; [by rewrite app_nil_r|done]. }
  do 3 eexists. split; [reflexivity|]. split; [done|]. split; [split_and!; try done; by eexists|].
  rewrite <- Hbuf. by case_bool_decide as E; [rewrite E|].
Qed.
End Shown.

(** [C30] Reconnecting to a terminal: after opening it again the viewer is first
    shown the end of what was in the terminal's buffer ([past]) and in its queue
    ([q]), at most 8 KiB and all of it if it is no more, and then what the queue
    lets through of what the terminal writes, in order and nothing twice, however
    the rounds fall, whether or not the session is found busy in some of them,
    and up to the end of the terminal, if it ends.  The queue holds 500 chunks
    and drops what finds no room ([carried]); as long as there is room, and once
    everything was looked at, the viewer was shown all that was written. *)
Theorem reconnect_replay `{ZstdLaws} service_id e v id s past q r c l :
  sessions v !! id = Some s -> output_buffer s = append_all past -> output_rx s = Some q ->
  (length q <= CHANNEL_BUFFER_SIZE)%nat ->
  exists v1 o lost replay, handle_open service_id e v id r c = (v1, Ok (Some (Opened o))) /\ o_terminal_id o = id /\
    concat (past ++ q) = lost ++ replay /\ len replay <= DEFAULT_RECONNECT_BUFFER_BYTES /\
    (len (concat (past ++ q)) <= DEFAULT_RECONNECT_BUFFER_BYTES -> lost = []) /\
    shown id (rounds id v1 l).2 = (if looked id l then replay else []) ++ concat (carried s id [] l) /\
    carried s id [] l `sublist_of` concat l.*1 /\
    (roomy s id 0 l -> carried s id [] l = concat l.*1).
Proof.
  intros Hs Hb Hq Hl. destruct (reconnect_streaming service_id v id s past q Hs Hb Hq Hl)
    as (s' & pending & o & Hr & Ho & Hst' & Hp).
  destruct (recent_suffix (past ++ q) DEFAULT_RECONNECT_BUFFER_BYTES) as (lost & E & Hlen & Hall); [done|].
  eexists _, o, lost, _. split; [unfold handle_open, remap; rewrite Hs, Hs, Hr; done|]. split; [done|].
  split; [exact E|]. split; [exact Hlen|]. split; [intros Hs8; apply Hall; exact Hs8|].
  split; [|split; [apply (carried_sublist s id l [])|apply (carried_roomy s id l [])]].
  rewrite <- Hp. eapply rounds_streaming; [apply Nat.le_0_l| |exact Hst']. apply lookup_insert_eq.
Qed.

(** ** The two-phase resize after a reconnect *)
Definition session_rounds `{Zstd} (id : Z) (s : TerminalSession) (l : list (list bytes * Env)) : TerminalSession :=
  foldl (fun s (r : list bytes * Env) => (read_session r.2 id (foldl produce s r.1)).1.1) s l.

Definition measure (p : SigwinchPhase) : Z :=
  match p with Idle => 0 | TempResize n => n + 5 | Restore n => n + 1 end.
Definition sane (p : SigwinchPhase) : Prop := match p with Idle => True | TempResize n | Restore n => 0 <= n end.

Definition resizes (e : Env) (id : Z) (s : TerminalSession) : bool :=
  resize_ok e id && negb (rows s =? 0) && negb (cols s =? 0) && match pty s with Some _ => true | None => false end.
Definition target (s : TerminalSession) (a : SigwinchAction) : Z :=
  match a with
  | ActTempResize => if 2 <? rows s then rows s - 1 else Z.min (rows s + 1) 65535
  | ActRestore => rows s
  end.

Section Sigwinch.
Context `{Zstd}.

Lemma resize_spec e id s a : (0 <= rows s) ->
  do_sigwinch_resize (resize_ok e id) s a =
    (resizes e id s, if resizes e id s then with_pty s (Some (target s a, cols s)) else s).
Proof.
  intros Hr. unfold do_sigwinch_resize, resizes, target. destruct (rows s =? 0); [by rewrite andb_false_r|].
  destruct (cols s =? 0); [by rewrite !andb_false_r|]. simpl. rewrite !andb_true_r.
  destruct (pty s); [|by rewrite andb_false_r]. destruct (resize_ok e id); [|done]. simpl.
  destruct a; [|done]. destruct (Z.ltb_spec 2 (rows s)); [|done]. unfold usat_sub. by rewrite Z.max_r by lia.
Qed.

Lemma read_phase e id s pending p : busy e id = false -> state s = Active pending p -> 0 <= rows s ->
  let s' := (read_session e id s).1.1 in
  rows s' = rows s /\ cols s' = cols s /\
  match next_phase p with
  | (p', Some a) => state s' = Active None (after_resize p' a (resizes e id s)) /\
                    pty s' = if resizes e id s then Some (target s a, cols s) else pty s
  | (p', None) => state s' = Active None p' /\ pty s' = pty s
  end.
Proof.
  intros Hb Hst Hr. cbv zeta. unfold read_session. rewrite Hb. cbv zeta.
  set (s1 := if negb (closed_message_sent s) && _ then _ else s).
  assert (rows s1 = rows s /\ cols s1 = cols s /\ pty s1 = pty s /\ state s1 = state s) as (E1 & E2 & E3 & E4)
    by (unfold s1; by destruct (_ && _)).
  cbn [state with_output]. rewrite E4, Hst. destruct (next_phase p) as [p' [a|]].
  - set (s2 := if bool_decide _ then _ else _).
    assert (rows s2 = rows s /\ cols s2 = cols s /\ pty s2 = pty s) as (F1 & F2 & F3).
    { unfold s2. by case_bool_decide; rewrite <- ?E1, <- ?E2, <- ?E3. }
    assert (resizes e id s2 = resizes e id s) as F4 by (unfold resizes; by rewrite F1, F2, F3).
    assert (target s2 a = target s a) as F5 by (unfold target; by rewrite F1).
    rewrite resize_spec by (by rewrite F1). rewrite F4, F5, F2. destruct (resizes e id s); simpl; auto.
  - cbn. case_bool_decide; simpl; auto.
Qed.

Lemma produce_same chunks : forall s, let s' := foldl produce s chunks in
  rows s' = rows s /\ cols s' = cols s /\ pty s' = pty s /\ state s' = state s.
Proof.
  induction chunks as [|c chunks IH]; intros s; [done|]. simpl. destruct (IH (produce s c)) as (-> & -> & -> & ->).
  unfold produce. destruct (output_rx s); [|done]. by destruct (_ <? _)%nat.
Qed.

Lemma round_phase id s r pending p : busy r.2 id = false -> state s = Active pending p -> 0 <= rows s ->
  let s' := session_rounds id s [r] in
  rows s' = rows s /\ cols s' = cols s /\
  match next_phase p with
  | (p', Some a) => state s' = Active None (after_resize p' a (resizes r.2 id s)) /\
                    pty s' = if resizes r.2 id s then Some (target s a, cols s) else pty s
  | (p', None) => state s' = Active None p' /\ pty s' = pty s
  end.
Proof.
  intros Hb Hst Hr. destruct r as [chunks e]. simpl in *. destruct (produce_same chunks s) as (E1 & E2 & E3 & E4).
  pose proof (read_phase e id (foldl produce s chunks) pending p Hb ltac:(congruence) ltac:(congruence)) as Hrd.
  cbv zeta in Hrd. rewrite E1, E2, E3 in Hrd.
  assert (resizes e id (foldl produce s chunks) = resizes e id s) as E5 by (unfold resizes; by rewrite E1, E2, E3).
  assert (forall a, target (foldl produce s chunks) a = target s a) as E6 by (intros a; unfold target; by rewrite E1).
  rewrite E5 in Hrd. destruct (next_phase p) as [p' [a|]]; [by rewrite E6 in Hrd|done].
Qed.

Lemma measure_step p ok : sane p ->
  let p' := match next_phase p with (p', Some a) => after_resize p' a ok | (p', None) => p' end in
  sane p' /\ (p' = Idle \/ 0 <= measure p' < measure p) /\ 0 <= measure p.
Proof.
  destruct p as [|n|n]; simpl; intros Hs; [split_and!; [done|by left|lia]|..];
    destruct (Z.eqb_spec n 0); simpl; (split_and!; [|..|lia]); try done; try (by left);
    destruct ok; simpl; unfold MAX_SIGWINCH_PHASE_ATTEMPTS; try lia; try done; auto; right; lia.
Qed.

Lemma settles id l : Forall (fun r : list bytes * Env => busy r.2 id = false) l -> forall s pending p,
  state s = Active pending p -> 0 <= rows s -> sane p -> measure p <= Z.of_nat (length l) -> l <> [] ->
  state (session_rounds id s l) = Active None Idle.
Proof.
  induction 1 as [|r l Hb Hl IH]; intros s pending p Hst Hr Hp Hm Hne; [done|].
  pose proof (round_phase id s r pending p Hb Hst Hr) as HR. cbv zeta in HR. destruct HR as (R1 & R2 & R3).
  destruct (measure_step p (resizes r.2 id s) Hp) as (S1 & S2 & S3).
  set (p' := match next_phase p with (p', Some a) => after_resize p' a (resizes r.2 id s) | (p', None) => p' end) in *.
  assert (state (session_rounds id s [r]) = Active None p') as Hst'.
  { unfold p'. destruct (next_phase p) as [q [a|]]; apply R3. }
  change (session_rounds id s (r :: l)) with (session_rounds id (session_rounds id s [r]) l).
  destruct (decide (l = [])) as [->|Hn].
  - simpl length in Hm. change (state (session_rounds id s [r]) = Active None Idle). rewrite Hst'.
    destruct S2 as [->|S2]; [done|]. destruct p' as [|m|m]; simpl in *; [done|lia|].
    exfalso. lia.
  - eapply IH; [exact Hst'|by rewrite R1|done| |done]. simpl length in Hm. destruct S2 as [->|S2]; [simpl; lia|lia].
Qed.
End Sigwinch.

(** The redraw after a reconnect: whether or not resizing works, within
    eight rounds the sequence is over; where it works, the first round gives
    the terminal a different height and the second its own size again. *)
Theorem sigwinch_settles `{Zstd} id s pending l :
  state s = Active pending (TempResize MAX_SIGWINCH_PHASE_ATTEMPTS) -> 0 <= rows s < 2 ^ 16 ->
  Forall (fun r : list bytes * Env => busy r.2 id = false) l ->
  ((8 <= length l)%nat -> state (session_rounds id s l) = Active None Idle) /\
  (forall r1 r2 rest, l = r1 :: r2 :: rest -> resizes r1.2 id s = true -> resize_ok r2.2 id = true ->
     (exists h, pty (session_rounds id s [r1]) = Some (h, cols s) /\ h <> rows s) /\
     pty (session_rounds id s [r1; r2]) = Some (rows s, cols s) /\
     state (session_rounds id s [r1; r2]) = Active None Idle).
Proof.
  intros Hst Hr Hl. split.
  - intros Hlen. eapply settles; [done|exact Hst|lia|done|simpl; unfold MAX_SIGWINCH_PHASE_ATTEMPTS; lia|intros ->; simpl in Hlen; lia].
  - intros r1 r2 rest -> H1 H2. inversion Hl as [|?? B1 Hl']; subst. inversion Hl' as [|?? B2 _]; subst.
    pose proof (round_phase id s r1 pending _ B1 Hst ltac:(lia)) as HR. cbv zeta in HR. simpl next_phase in HR. cbv iota in HR.
    rewrite H1 in HR. destruct HR as (R1 & R2 & R3 & R4). simpl in R3.
    set (s1 := session_rounds id s [r1]) in *.
    pose proof (round_phase id s1 r2 None _ B2 R3 ltac:(lia)) as HR. cbv zeta in HR. simpl next_phase in HR. cbv iota in HR.
    assert (resizes r2.2 id s1 = true) as H3.
    { unfold resizes in *. rewrite R1, R2, R4, H2. clear -H1.
      by destruct (resize_ok r1.2 id), (negb (rows s =? 0)), (negb (cols s =? 0)). }
    rewrite H3 in HR. destruct HR as (T1 & T2 & T3 & T4). change (session_rounds id s [r1; r2]) with (session_rounds id s1 [r2]).
    split; [|split; [by rewrite T4, <- R1, <- R2|exact T3]].
    eexists. split; [exact R4|]. unfold target. destruct (Z.ltb_spec 2 (rows s)); lia.
Qed.

(** ** From the terminal to the queue *)
Section Reader.
Lemma produce_rx s d : output_rx s <> None -> output_rx (produce s d) <> None.
Proof. unfold produce. destruct (output_rx s) as [q|] eqn:E; [|done]. destruct (_ <? _)%nat; simpl; congruence. Qed.

Lemma reader_chunks reads : forall remainder s, output_rx s <> None -> Forall (fun d => d <> []) reads ->
  reader_loop remainder s (ReadBytes <$> reads) =
    let '(r, outs) := Utf8Chunks.push_all remainder reads in (r, foldl produce s outs).
Proof.
  induction reads as [|d reads IH]; intros remainder s Hs Hr; [done|]. simpl. inversion Hr as [|?? Hd Hr']; subst.
  destruct (Utf8Chunks.push_chunk remainder d) as [rem [out|]] eqn:E.
  - unfold try_send_output. destruct (output_rx s) as [q|] eqn:Eq; [|done]. simpl negb. cbv iota.
    rewrite IH; [|apply produce_rx; congruence|done]. by destruct (Utf8Chunks.push_all rem reads).
  - rewrite IH by done. by destruct (Utf8Chunks.push_all rem reads).
Qed.

Lemma reader_loop_app a : forall remainder s b, Forall (fun d => d <> []) a -> output_rx s <> None ->
  reader_loop remainder s ((ReadBytes <$> a) ++ b) =
    let '(r, s) := reader_loop remainder s (ReadBytes <$> a) in reader_loop r s b.
Proof.
  induction a as [|d a IH]; intros remainder s b Hd Hs; [done|]. inversion Hd; subst. simpl.
  destruct (Utf8Chunks.push_chunk remainder d) as [rem [out|]] eqn:E.
  - unfold try_send_output. destruct (output_rx s) as [q|] eqn:Eq; [|done]. simpl negb. cbv iota.
    apply IH; [done|apply produce_rx; congruence].
  - by apply IH.
Qed.

Lemma push_all_length reads : forall r r' outs, Utf8Chunks.push_all r reads = (r', outs) ->
  (length outs <= length reads)%nat.
Proof.
  induction reads as [|d reads IH]; intros r r' outs; simpl; [by intros [= <- <-]|].
  destruct (Utf8Chunks.push_chunk r d) as [r1 o]. destruct (Utf8Chunks.push_all r1 reads) as [r2 os] eqn:E.
  intros [= <- <-]. apply IH in E. rewrite length_app. destruct o; simpl; lia.
Qed.
End Reader.

(** From the terminal to the queue: if the reads of the terminal, up to
    its end, fit into the queue, the queue then holds exactly what was read,
    in chunks that are never empty and, for UTF-8 output, never cut a
    character; nothing stays behind in the accumulator. *)
Theorem reader_delivers s reads : output_rx s = Some [] -> Forall (fun d => d <> []) reads ->
  (length reads < CHANNEL_BUFFER_SIZE)%nat ->
  exists chunks remainder, reader_loop [] s ((ReadBytes <$> reads) ++ [Eof]) =
      (remainder, with_output s (Some chunks) (output_buffer s)) /\
    remainder = [] /\ concat chunks = concat reads /\ ([] ∉ chunks) /\
    (Utf8.valid (concat reads) = true -> Forall (fun c => Utf8.valid c = true) chunks).
Proof.
  intros Hq Hd Hl. rewrite reader_loop_app, reader_chunks by (try done; congruence).
  destruct (Utf8Chunks.push_all [] reads) as [r outs] eqn:E. pose proof (push_all_length _ _ _ _ E) as Hlen.
  destruct (Utf8Chunks.chunks_roundtrip reads r outs E) as (H1 & H2 & _ & H4).
  rewrite (produce_all outs s [] Hq), take_ge by (simpl; unfold CHANNEL_BUFFER_SIZE in *; lia). simpl. unfold Utf8Chunks.finish in *.
  case_bool_decide as Er; simpl in *.
  - exists outs, []. rewrite app_nil_r in H1. split_and!; [by subst|done|done|done|]. intros Hv. by destruct (H4 Hv).
  - exists (outs ++ [r]), []. unfold try_send_output, produce. simpl. rewrite (proj2 (Nat.ltb_lt _ _)) by lia.
    split_and!; [done|done|by rewrite concat_app; simpl; rewrite app_nil_r|set_solver|].
    intros Hv. by destruct (H4 Hv).
Qed.

(** ** Opening again after a reconnect *)
Section Survivors.
Context `{Zstd}.

Lemma remap_spec v id : let m := sessions (remap v id) in
  needs_session_sync (remap v id) = needs_session_sync v /\
  (remap v id = v \/
   exists low s, sessions v !! low = Some s /\ sessions v !! id = None /\ needs_session_sync v = true /\
     (forall i, is_Some (sessions v !! i) -> low <= i) /\ m = <[id := s]> (delete low (sessions v))).
Proof.
  cbv zeta. unfold remap. destruct (sessions v !! id) as [s0|] eqn:Eid; [by split; [|left]|].
  destruct (needs_session_sync v) eqn:Es; [|by split; [|left]]. simpl.
  case_bool_decide as En; [by split; [|left]|]. simpl.
  destruct (list_min _) as [low|] eqn:El; [|by split; [|left]].
  destruct (list_min_spec _ _ El) as [H1 H2]. apply list_elem_of_fmap in H1 as ([i s] & -> & Hin).
  apply elem_of_map_to_list in Hin. simpl in *. rewrite Hin. split; [done|]. right. exists i, s.
  split_and!; try done. intros j [t Hj]. rewrite Forall_forall in H2. apply H2.
  apply list_elem_of_fmap. exists (j, t). split; [done|]. by apply elem_of_map_to_list.
Qed.

Lemma remap_found v id : needs_session_sync v = true -> sessions v <> ∅ -> is_Some (sessions (remap v id) !! id).
Proof.
  intros Hs Hne. unfold remap. destruct (sessions v !! id) as [s|] eqn:E; [by rewrite E|].
  rewrite Hs, bool_decide_false by done. simpl.
  destruct (map_to_list (sessions v)) as [|[i0 s0] l] eqn:El; [by apply map_to_list_empty_iff in El|].
  destruct (list_min _) as [low|] eqn:Em; [|done].
  destruct (list_min_spec _ _ Em) as [H1 _]. rewrite <- El in H1. apply list_elem_of_fmap in H1 as ([i s] & -> & Hin).
  apply elem_of_map_to_list in Hin. simpl. rewrite Hin. simpl. by rewrite lookup_insert_eq.
Qed.

Lemma map_ids (m : gmap Z TerminalSession) i : i ∈ (map_to_list m).*1 <-> is_Some (m !! i).
Proof.
  rewrite list_elem_of_fmap. split.
  - intros ([j s] & -> & H1). exists s. by apply elem_of_map_to_list.
  - intros [s Hs]. exists (i, s). split; [done|]. by apply elem_of_map_to_list.
Qed.

Lemma other_ids_spec v id i : i ∈ other_ids v id <-> is_Some (sessions v !! i) /\ i <> id.
Proof. unfold other_ids. rewrite list_elem_of_filter, map_ids. tauto. Qed.

Lemma other_ids_small v id s : sessions v !! id = Some s -> (size (sessions v) <= 1)%nat -> other_ids v id = [].
Proof.
  intros Hs Hsz. destruct (other_ids v id) as [|i l] eqn:E; [done|]. exfalso.
  assert (i ∈ other_ids v id) as Hi by (rewrite E; left). apply other_ids_spec in Hi as [[t Ht] Hne].
  assert (size (delete id (sessions v)) = 0%nat) as Hz.
  { rewrite (map_size_delete_Some id (sessions v)) by (by eexists). lia. }
  apply map_size_empty_inv in Hz.
  assert (delete id (sessions v) !! i = Some t) as H1 by (rewrite lookup_delete_ne; done). by rewrite Hz in H1.
Qed.

Lemma reconnect_ids service_id v id s : sessions v !! id = Some s -> needs_session_sync v = true ->
  exists s' o, reconnect service_id v id s = (with_sync (with_sessions v (<[id := s']> (sessions v))) false, Opened o) /\
    pid s' = pid s /\ (rows s', cols s') = (rows s, cols s) /\ o_terminal_id o = id /\
    (forall i, i ∈ persistent_sessions o <-> is_Some (sessions v !! i) /\ i <> id).
Proof.
  intros Hs Hsync. unfold reconnect.
  set (p := match output_rx s with Some q => _ | None => _ end). destruct p as [backlog q]. cbv zeta.
  set (s' := with_state _ _). exists s'. eexists. split; [reflexivity|]. split; [done|]. split; [done|]. split; [done|].
  cbn [persistent_sessions needs_session_sync with_sessions sessions]. rewrite Hsync. simpl. intros i.
  set (m := <[id := s']> (sessions v)).
  assert (is_Some (m !! i) /\ i <> id <-> is_Some (sessions v !! i) /\ i <> id) as Hm.
  { unfold m. split; intros [H1 H2]; split; try done; [by rewrite lookup_insert_ne in H1|by rewrite lookup_insert_ne]. }
  rewrite <- Hm. destruct (Z.ltb_spec 1 (Z.of_nat (size m))) as [Hlt|Hge].
  - apply (other_ids_spec (with_sessions v m) id i).
  - rewrite elem_of_nil. split; [done|]. rewrite <- (other_ids_spec (with_sessions v m) id i).
    rewrite (other_ids_small (with_sessions v m) id s'); [by rewrite elem_of_nil|apply lookup_insert_eq|]. simpl. lia.
Qed.
End Survivors.

(** The first terminal that a returning viewer opens: if the service still
    has terminals, one of them is taken up under the wanted number (the one
    with that number, or else the one with the lowest), none is lost or started
    anew, and the answer lists exactly the numbers of all others, which the
    viewer can open next; that is told once. *)
Theorem open_reports_survivors `{Zstd} service_id e v id r c :
  needs_session_sync v = true -> sessions v <> ∅ ->
  exists v' o low s s', handle_open service_id e v id r c = (v', Ok (Some (Opened o))) /\
    sessions v !! low = Some s /\ (low = id \/ sessions v !! id = None /\ forall i, is_Some (sessions v !! i) -> low <= i) /\
    pid s' = pid s /\ (rows s', cols s') = (rows s, cols s) /\
    sessions v' = <[id := s']> (delete low (sessions v)) /\ size (sessions v') = size (sessions v) /\
    needs_session_sync v' = false /\
    (forall i, i ∈ persistent_sessions o <-> is_Some (sessions v' !! i) /\ i <> id).
Proof.
  intros Hsync Hne. destruct (remap_found v id Hsync Hne) as [s Hs].
  destruct (remap_spec v id) as (Hs2 & Hm). rewrite Hsync in Hs2. cbv zeta in Hm.
  destruct (reconnect_ids service_id (remap v id) id s Hs Hs2) as (s' & o & Hr & Hp & Hd & Ho & Hids).
  assert (exists low, sessions v !! low = Some s /\
    (low = id \/ sessions v !! id = None /\ forall i, is_Some (sessions v !! i) -> low <= i) /\
    forall t, <[id := t]> (sessions (remap v id)) = <[id := t]> (delete low (sessions v))) as (low & L1 & L2 & L3).
  { destruct Hm as [E|(low & s1 & H1 & H2 & _ & H4 & H5)].
    - rewrite E in Hs |- *. exists id. split; [done|]. split; [by left|]. intros t. by rewrite insert_delete_eq.
    - rewrite H5, lookup_insert_eq in Hs. injection Hs as <-. exists low. split; [done|]. split; [by right|].
      intros t. rewrite H5. by rewrite insert_insert_eq. }
  eexists _, o, low, s, s'. split; [unfold handle_open; cbv zeta; rewrite Hs, Hr; done|].
  split; [done|]. split; [done|]. split; [done|]. split; [done|]. simpl. rewrite L3. split; [done|].
  split.
  - rewrite map_size_insert_None.
    + rewrite (map_size_delete_Some low (sessions v)) by (by eexists).
      assert (size (sessions v) <> 0)%nat by (by apply map_size_non_empty_iff). lia.
    + destruct L2 as [->|[L2 _]]; [apply lookup_delete_eq|]. rewrite lookup_delete_None. by right.
  - split; [done|]. intros i. rewrite Hids. split; intros [H1 H2]; (split; [|done]).
    + rewrite <- L3. rewrite lookup_insert_ne by done. exact H1.
    + rewrite <- L3 in H1. by rewrite lookup_insert_ne in H1.
Qed.

(** ** The registry *)
Section Registered.
Context `{Zstd}.

Lemma size_remove (reg : Registry) id : (size (remove_service reg id) <= size reg)%nat.
Proof.
  unfold remove_service, Registry in *. destruct (reg !! id) as [v|] eqn:E.
  - rewrite map_size_delete_Some by (by eexists). lia.
  - by rewrite delete_id.
Qed.

Lemma size_update (reg : Registry) id v v' : reg !! id = Some v -> size (<[id := v']> reg) = size reg.
Proof. intros E. apply map_size_insert_Some. by eexists. Qed.

Lemma size_fresh (reg : Registry) id v : reg !! id = None -> size (<[id := v]> reg) = S (size reg).
Proof. apply map_size_insert_None. Qed.

Lemma size_step (reg : Registry) op :
  (size (registry_step reg op) <= Nat.max (size reg) (Z.to_nat MAX_SERVICES))%nat.
Proof.
  destruct op as [id n p sp|n|id p|id|id p|e id a|e id]; simpl.
  - unfold get_or_create_service. destruct (reg !! id) as [v|] eqn:E; [rewrite (size_update _ _ v) by done; lia|].
    destruct (Z.leb_spec MAX_SERVICES (Z.of_nat (size reg))); [lia|]. rewrite size_fresh by done. lia.
  - unfold cleanup_inactive_services. generalize ((filter (fun kv => is_idle n kv.2 = true) (map_to_list reg)).*1).
    intros l. revert reg. induction l as [|i l IH]; intros reg; simpl; [lia|].
    pose proof (IH (remove_service reg i)). pose proof (size_remove reg i). lia.
  - unfold set_persistent. destruct (reg !! id) as [v|] eqn:E; [rewrite (size_update _ _ v) by done|]; lia.
  - unfold drop_temporary. destruct (reg !! id) as [v|]; [|lia]. destruct (is_persistent v); [lia|].
    pose proof (size_remove reg id). lia.
  - unfold on_disconnect. destruct p; [lia|]. pose proof (size_remove reg id). lia.
  - unfold handle_action_of. destruct (reg !! id) as [v|] eqn:E; [|simpl; lia].
    destruct (handle_action id e v a) as [v' r]. simpl. rewrite (size_update _ _ v) by done. lia.
  - unfold read_outputs_of. destruct (reg !! id) as [v|] eqn:E; [|simpl; lia].
    destruct (read_outputs e v) as [v' out]. simpl. rewrite (size_update _ _ v) by done. lia.
Qed.

Lemma lookup_remove (reg : Registry) id i :
  remove_service reg id !! i = if bool_decide (i = id) then None else reg !! i.
Proof.
  unfold remove_service, Registry in *. case_bool_decide as E; [rewrite E; apply lookup_delete_eq|].
  by rewrite lookup_delete_ne.
Qed.

Lemma removed_all l : forall (reg : Registry) i,
  foldl remove_service reg l !! i = if bool_decide (i ∈ l) then None else reg !! i.
Proof.
  induction l as [|j l IH]; intros reg i; [done|]. simpl. rewrite IH, lookup_remove.
  repeat case_bool_decide; set_solver.
Qed.

Lemma idle_ids (reg : Registry) n i :
  i ∈ (filter (fun kv => is_idle n kv.2 = true) (map_to_list reg)).*1 <-> exists v, reg !! i = Some v /\ is_idle n v = true.
Proof.
  rewrite list_elem_of_fmap. split.
  - intros ([j v] & -> & Hin). apply list_elem_of_filter in Hin as [Hv Hin]. apply elem_of_map_to_list in Hin. by exists v.
  - intros (v & Hv & Hi). exists (i, v). split; [done|]. apply list_elem_of_filter. split; [done|].
    by apply elem_of_map_to_list.
Qed.
Lemma is_idle_spec n v : is_idle n v =
  if is_persistent v then bool_decide (sessions v = ∅) && (7200 * 1000000000 <? n - s_last_activity v)
  else 3600 * 1000000000 <? n - s_last_activity v.
Proof. unfold is_idle, SERVICE_IDLE_TIMEOUT. destruct (is_persistent v); [done|]. apply orb_false_r. Qed.
End Registered.

(** Whatever viewers do, there are never more than 100 services. *)
Theorem services_bounded `{Zstd} (ops : list RegistryOp) :
  (size (foldl registry_step ∅ ops) <= Z.to_nat MAX_SERVICES)%nat.
Proof.
  assert (forall (reg : Registry), (size reg <= Z.to_nat MAX_SERVICES)%nat ->
    (size (foldl registry_step reg ops) <= Z.to_nat MAX_SERVICES)%nat) as Hall.
  { induction ops as [|op ops IH]; intros reg Hr; [done|]. simpl. apply IH. pose proof (size_step reg op). lia. }
  apply Hall. vm_compute. lia.
Qed.

(** The cleaning up removes exactly the idle services: temporary ones that
    nobody used for an hour, persistent ones without terminals after two; a
    persistent service with a terminal stays, however long nobody uses it. *)
Theorem cleanup_exact `{Zstd} (reg : Registry) now id :
  cleanup_inactive_services reg now !! id =
    match reg !! id with
    | Some v =>
        if if is_persistent v then bool_decide (sessions v = ∅) && (7200 * 1000000000 <? now - s_last_activity v)
           else 3600 * 1000000000 <? now - s_last_activity v
        then None else Some v
    | None => None
    end.
Proof.
  unfold cleanup_inactive_services. rewrite removed_all. destruct (reg !! id) as [v|] eqn:E; [|by destruct (bool_decide _)].
  rewrite <- is_idle_spec. case_bool_decide as Hi; rewrite idle_ids in Hi.
  - destruct Hi as (v' & Hv & Hi). rewrite E in Hv. injection Hv as <-. by rewrite Hi.
  - destruct (is_idle now v) eqn:Hv; [|done]. by destruct Hi; exists v.
Qed.

Definition runs (wait : Z -> Wait) (p : Z) : Prop := wait p = Running.
#[export] Instance runs_dec wait p : Decision (runs wait p).
Proof. unfold runs. destruct (wait p); [by left|by right..]. Defined.

Lemma check_zombies_from wait rest : forall kept fuel, (length rest < fuel)%nat ->
  check_zombies fuel wait (length kept) (kept ++ rest) = Some (kept ++ filter (runs wait) rest).
Proof.
  induction rest as [|p rest IH]; intros kept fuel Hf; (destruct fuel as [|fuel]; [simpl in Hf; lia|]); simpl.
  - rewrite lookup_ge_None_2 by (rewrite app_nil_r; lia). by rewrite filter_nil.
  - rewrite list_lookup_middle by done.
    assert (delete (length kept) (kept ++ p :: rest) = kept ++ rest) as Hd by (by apply delete_middle).
    simpl in Hf. rewrite filter_cons. destruct (decide (runs wait p)) as [Hr|Hr]; unfold runs in Hr.
    + rewrite Hr. specialize (IH (kept ++ [p]) fuel ltac:(lia)).
      rewrite length_app, <- !app_assoc in IH. simpl in IH. by rewrite Nat.add_1_r in IH.
    + rewrite Hd. destruct (wait p); [done|apply IH; lia..].
Qed.

(** The reaper's loop over the vector that it shrinks ends, and leaves
    exactly the processes that still run, in their order. *)
Theorem check_zombies_filter wait tasks fuel : (length tasks < fuel)%nat ->
  check_zombies fuel wait 0 tasks = Some (filter (runs wait) tasks).
Proof. apply (check_zombies_from wait tasks []). Qed.
Lemma check_zombies_filter_witness :
  check_zombies 4 (fun p => if p =? 2 then Exited 0 else Running) 0 [1; 2; 3] = Some [1; 3].
Proof.
  rewrite (check_zombies_filter (fun p => if p =? 2 then Exited 0 else Running) [1; 2; 3] 4) by (simpl; lia).
  reflexivity.
Defined.

(** ** Witnesses *)
#[local] Existing Instance demo_zstd.
#[local] Existing Instance demo_zstd_laws.

Definition quiet : Env := mkEnv (fun _ => false) (fun _ => false) (fun _ => Running) (fun _ => true) (fun _ => true) None 0.
Definition left_open (q : list bytes) : TerminalSession :=
  mkSession 0 (Some (24, 80)) true (Some []) (Some q) true (append_all [str "ls"]) 7 24 80 false Closed.
Definition left_service (ids : list Z) : PersistentTerminalService :=
  mkService (list_to_map ((fun id => (id, left_open [str "a.txt"])) <$> ids)) 0 true true false.

(** Rounds in which the session is busy, free, ended while its queue overflowed,
    and gone. *)
Definition held : Env := mkEnv (fun _ => true) (fun _ => false) (fun _ => Running) (fun _ => true) (fun _ => true) (Some 8) 0.
Definition exited : Env := mkEnv (fun _ => false) (fun _ => true) (fun _ => Exited 0) (fun _ => true) (fun _ => true) (Some 8) 0.
Definition last_rounds : list (list bytes * Env) :=
  [([str "$"], held); ([str "top"], quiet); (replicate 501 (str "x"), exited); ([str "y"], quiet)].
Lemma reconnect_replay_witness :
  exists v1 o lost replay,
    handle_open (str "ts") quiet (left_service [2]) 2 24 80 = (v1, Ok (Some (Opened o))) /\ o_terminal_id o = 2 /\
    str "lsa.txt" = lost ++ replay /\ len replay <= 8192 /\ (len (str "lsa.txt") <= 8192 -> lost = []) /\
    shown 2 (rounds 2 v1 last_rounds).2 = replay ++ str "$top" ++ replicate 500 Byte.x78.
Proof.
  destruct (reconnect_replay (str "ts") quiet (left_service [2]) 2 (left_open [str "a.txt"]) [str "ls"] [str "a.txt"] 24 80 last_rounds)
    as (v1 & o & lost & replay & H1 & H2 & H3 & H4 & H5 & H6 & _);
    [reflexivity|reflexivity|reflexivity|unfold CHANNEL_BUFFER_SIZE; simpl; lia|].
  exists v1, o, lost, replay. split_and!; [exact H1|exact H2|exact H3|exact H4|exact H5|]. rewrite H6.
  change (looked 2 last_rounds) with true. cbv iota. f_equal.
Defined.

Lemma sigwinch_settles_witness :
  state (session_rounds 2 (with_state (left_open []) (Active None (TempResize 3))) (replicate 8 ([], quiet))) = Active None Idle.
Proof.
  refine (proj1 (sigwinch_settles 2 (with_state (left_open []) (Active None (TempResize 3))) None
    (replicate 8 ([], quiet)) _ _ _) _); [reflexivity|simpl; lia|by apply Forall_replicate|simpl; lia].
Defined.

Lemma open_reports_survivors_witness :
  exists v' o low s s', handle_open (str "ts") quiet (left_service [5; 3; 8]) 1 24 80 = (v', Ok (Some (Opened o))) /\
    sessions (left_service [5; 3; 8]) !! low = Some s /\
    (low = 1 \/ sessions (left_service [5; 3; 8]) !! 1 = None /\
     forall i, is_Some (sessions (left_service [5; 3; 8]) !! i) -> low <= i) /\
    pid s' = pid s /\ (rows s', cols s') = (rows s, cols s) /\
    sessions v' = <[1 := s']> (delete low (sessions (left_service [5; 3; 8]))) /\
    size (sessions v') = size (sessions (left_service [5; 3; 8])) /\ needs_session_sync v' = false /\
    (forall i, i ∈ persistent_sessions o <-> is_Some (sessions v' !! i) /\ i <> 1).
Proof. apply (open_reports_survivors (str "ts") quiet (left_service [5; 3; 8]) 1 24 80); [reflexivity|]. by vm_compute. Defined.

Lemma reader_delivers_witness : exists chunks remainder,
  reader_loop [] (left_open []) ((ReadBytes <$> [[Byte.x61; Byte.xc3]; [Byte.xa9]; [Byte.xf0]]) ++ [Eof]) =
    (remainder, with_output (left_open []) (Some chunks) (output_buffer (left_open []))) /\
  remainder = [] /\ concat chunks = [Byte.x61; Byte.xc3; Byte.xa9; Byte.xf0] /\ ([] ∉ chunks) /\
  (Utf8.valid [Byte.x61; Byte.xc3; Byte.xa9; Byte.xf0] = true -> Forall (fun c => Utf8.valid c = true) chunks).
Proof.
  apply (reader_delivers (left_open []) [[Byte.x61; Byte.xc3]; [Byte.xa9]; [Byte.xf0]]);
    [done|by repeat constructor|simpl; unfold CHANNEL_BUFFER_SIZE; lia].
Defined.
