(* ===== verification/SessionState.v ===== *)
(** * An open session: messages, effects, state ([src/server/connection.rs])

    The data that [SessionHandler] works on: the messages of the viewer with
    the payloads that are looked at ([scope_of] is their view for the scope
    checks of [SessionScope]), what a connection does ([Effect]), and the
    connection itself.  A handler is a [Step]: it changes the connection and
    emits effects, in order; [triple] is the logic in which they are verified.
    Payloads that are only handed on are [bytes]. *)
From S2P Require Import Prelude.
From S2P Require Import SessionScope.

Definition NAME_CURSOR : string := "mouse_cursor".
Definition NAME_POS : string := "mouse_pos".
Definition NAME_WINDOW_FOCUS : string := "window_focus".
Definition CLIPBOARD_NAME : string := "clipboard".
Definition FILE_CLIPBOARD_NAME : string := "file-clipboard".
Definition AUDIO_NAME : string := "audio".

(** ** Messages of the viewer *)
Inductive KeyUnion := KControl (k : Z) | KChr (code : Z) | KUnicode (c : Z) | KSeq (s : bytes) | KHotkey (k : Z).
Record KeyEvent := mkKey { down : bool; press : bool; k_union : option KeyUnion; modifiers : list Z; mode : Z }.

Inductive FileAction :=
| FaReadEmptyDirs (path : bytes) (include_hidden : bool)
| FaReadDir (path : bytes) (include_hidden : bool)
| FaAllFiles (id : Z) (path : bytes) (include_hidden : bool)
| FaSend (id : Z) (path : bytes) (include_hidden : bool) (file_num : Z) (file_type : Z)
| FaReceive (id : Z) (path : bytes) (file_num : Z) (files : list (bytes * Z)) (total_size : Z)
| FaCreate (id : Z) (path : bytes)
| FaRemoveDir (id : Z) (path : bytes) (recursive : bool)
| FaRemoveFile (id : Z) (path : bytes) (file_num : Z)
| FaCancel (id : Z)
| FaSendConfirm (id file_num : Z) (answer : bytes)
| FaRename (id : Z) (path new_name : bytes).

Inductive FileResponse :=
| FrDir
| FrBlock (id file_num : Z) (data : bytes) (compressed : bool)
| FrError (id file_num : Z) (error : bytes)
| FrDone (id file_num : Z)
| FrDigest (id file_num file_size last_modified : Z) (is_resume : bool).

(** [cliprdr::Union::Files], or a message of the clipboard channel, which the
    conversion may not know. *)
Inductive Cliprdr := ClipFiles | ClipMsg (m : bytes) | ClipUnknown.

Inductive MiscMsg :=
| MChatMessage (text : bytes)
| MSwitchDisplay (display width height : Z)
| MCaptureDisplays (add sub set : list Z)
| MToggleVirtualDisplay (on : bool)
| MTogglePrivacyMode (on : bool)
| MOption (o : SessionScope.OptionMessage)
| MRefreshVideo (r : bool)
| MRefreshVideoDisplay (display : Z)
| MVideoReceived
| MRestartRemoteDevice
| MElevationRequest (known : bool)
| MAudioFormat (format : bytes)
| MSwitchSidesRequest (uuid : option Z)
| MChangeResolution (width height : Z)
| MChangeDisplayResolution (display width height : Z)
| MAutoAdjustFps (fps : Z)
| MClientRecordStatus (status : bool)
| MSelectedSid (sid : Z)
| MMessageQuery (switch_display : Z)
| MCloseReason (reason : bytes)
| MOtherMisc (m : SessionScope.Misc).

Inductive Payload :=
| PLoginRequest
| PMouseEvent (e : bytes)
| PPointerDeviceEvent (e : bytes)
| PKeyEvent (e : KeyEvent)
| PClipboard (cb : bytes)
| PMultiClipboards (cbs : list bytes)
| PCliprdr (c : Cliprdr)
| PFileAction (fa : option FileAction)
| PFileResponse (fr : option FileResponse)
| PMisc (m : option MiscMsg)
| PAudioFrame (frame : bytes)
| PVoiceCallRequest (is_connect : bool) (req_timestamp : Z)
| PVoiceCallResponse
| PScreenshotRequest (display : Z)
| PTerminalAction (a : bytes)
| POther (u : SessionScope.Message).

(** The message as the scope checks see it. *)
Definition misc_scope (m : MiscMsg) : SessionScope.Misc :=
  match m with
  | MChatMessage _ => SessionScope.ChatMessage
  | MSwitchDisplay _ _ _ => SessionScope.SwitchDisplay
  | MCaptureDisplays _ _ _ => SessionScope.CaptureDisplays
  | MToggleVirtualDisplay _ => SessionScope.ToggleVirtualDisplay
  | MTogglePrivacyMode _ => SessionScope.TogglePrivacyMode
  | MOption o => SessionScope.Option o
  | MRefreshVideo _ => SessionScope.RefreshVideo
  | MRefreshVideoDisplay _ => SessionScope.RefreshVideoDisplay
  | MVideoReceived => SessionScope.VideoReceived
  | MRestartRemoteDevice => SessionScope.RestartRemoteDevice
  | MElevationRequest _ => SessionScope.ElevationRequest
  | MAudioFormat _ => SessionScope.AudioFormat
  | MSwitchSidesRequest _ => SessionScope.SwitchSidesRequest
  | MChangeResolution _ _ => SessionScope.ChangeResolution
  | MChangeDisplayResolution _ _ _ => SessionScope.ChangeDisplayResolution
  | MAutoAdjustFps _ => SessionScope.AutoAdjustFps
  | MClientRecordStatus _ => SessionScope.ClientRecordStatus
  | MSelectedSid _ => SessionScope.SelectedSid
  | MMessageQuery _ => SessionScope.MessageQuery
  | MCloseReason _ => SessionScope.CloseReason
  | MOtherMisc m => m
  end.
Definition scope_of (p : Payload) : SessionScope.Message :=
  match p with
  | PLoginRequest => Some SessionScope.LoginRequest
  | PMouseEvent _ => Some SessionScope.MouseEvent
  | PPointerDeviceEvent _ => Some SessionScope.PointerDeviceEvent
  | PKeyEvent _ => Some SessionScope.KeyEvent
  | PClipboard _ => Some SessionScope.Clipboard
  | PMultiClipboards _ => Some SessionScope.MultiClipboards
  | PCliprdr _ => Some SessionScope.Cliprdr
  | PFileAction _ => Some SessionScope.FileAction
  | PFileResponse _ => Some SessionScope.FileResponse
  | PMisc m => Some (SessionScope.MiscMessage (misc_scope <$> m))
  | PAudioFrame _ => Some SessionScope.AudioFrame
  | PVoiceCallRequest _ _ => Some SessionScope.VoiceCallRequest
  | PVoiceCallResponse => Some SessionScope.VoiceCallResponse
  | PScreenshotRequest _ => Some SessionScope.ScreenshotRequest
  | PTerminalAction _ => Some SessionScope.TerminalAction
  | POther u => u
  end.

(** ** What a connection does *)
Inductive FsCmd :=
| ReadEmptyDirs (dir : bytes) (include_hidden : bool)
| ReadDir (dir : bytes) (include_hidden : bool)
| RemoveDir (path : bytes) (id : Z) (recursive : bool)
| RemoveFile (path : bytes) (id file_num : Z)
| CreateDir (path : bytes) (id : Z)
| NewWrite (path : bytes) (id file_num : Z) (files : list (bytes * Z)) (overwrite_detection : bool) (total_size : Z)
| CancelWrite (id : Z)
| WriteBlock (id file_num : Z) (data : bytes) (compressed : bool)
| WriteDone (id file_num : Z)
| WriteError (id file_num : Z) (err : bytes)
| CheckDigest (id file_num file_size last_modified : Z) (is_upload is_resume : bool)
| SendConfirm (id file_num : Z) (answer : bytes)
| Rename (id : Z) (path new_name : bytes)
| ReadFile (path : bytes) (id file_num : Z) (include_hidden overwrite_detection : bool)
| CancelRead (id : Z)
| SendConfirmForRead (id file_num : Z) (answer : bytes)
| ReadAllFiles (path : bytes) (id : Z) (include_hidden : bool).

Inductive CmData :=
| CmFs (cmd : FsCmd)
| CmChatMessage (text : bytes)
| CmClipboardFile (m : bytes)
| CmClipboardFileEnabled (enabled : bool)
| CmFileTransferLog (action : string)
| CmVoiceCallIncoming | CmStartVoiceCall | CmCloseVoiceCall
| CmSwitchPermission (name : string) (enabled : bool)
| CmDisconnected | CmClose.

Inductive Permission := Keyboard | Clipboard | Audio | File | Restart | Recording | BlockInput | PrivacyMode.
#[export] Instance Permission_eq_dec : EqDecision Permission.
Proof. solve_decision. Defined.

Inductive PrivacyState :=
| PrvOnSucceeded | PrvOnFailed | PrvOnFailedDenied | PrvOnFailedPlugin | PrvOffSucceeded | PrvOffByPeer
| PrvOffFailed | PrvOffUnknown | PrvNotSupported.

Inductive Reply :=
| RError (id : Z) (err : string) (file_num : Z)
| RDir (id : Z) (path : bytes)
| RBlock (id file_num : Z) (data : bytes) (compressed : bool)
| RDone (id file_num : Z)
| RDigest (id file_num last_modified file_size : Z) (is_resume : bool)
| RPermission (p : Permission) (enabled : bool)
| RPrivacy (s : PrivacyState)
| RBlockInputError (on : bool)
| RVoiceCall (ts : Z) (accepted : bool)
| RVoiceCallRequest (is_connect : bool)
| RChat (text : bytes)
| RClip (m : bytes)
| RDisplayChanged
| RElevation (err : string)
| RMessageBox
| RSwitchBack
| RTerminal (a : bytes)
| RLogin (ok : bool)
| RCloseReason (reason : string).

Inductive Effect :=
| Send (r : Reply)
| ToCm (d : CmData)
| Mouse (e : bytes) (simulate show_cursor : bool)
| Pointer (e : bytes)
| Key (e : KeyEvent) (press : bool)
| Block (on : bool)
| UpdateClipboard (cbs : list bytes)
| ServeClip (m : bytes)
| EmptyFileClipboard
| Audit (receive : bool)
| ReadJob (id : Z) (path : bytes) (from_memory : bool)
| Alarm (family : string)
| Reboot
| ChangeResolution (display : option Z) (width height : Z)
| SwitchDisplay (display : Z)
| CaptureDisplays (add sub set : list Z)
| VirtualDisplay (on : bool)
| PrivacyOn | PrivacyOff
| Elevate
| RunSwitchSides (uuid : Z)
| AudioThread (format : bytes) | AudioData (frame : bytes)
| VoiceDevice (host : bool)
| Quality (q : Z) | CustomFps (fps : Z) | AutoFps (fps : Z) | RecordStatus (status : bool) | Decoding (q : Z)
| RefreshVideo (display : option Z)
| FrameFetched
| Screenshot (display : Z)
| Terminal (a : bytes)
| TerminalPersistent (persistent : bool)
| Whiteboard (on : bool)
| TerminalService
| CameraConnection
| Lock.

(** ** The connection *)
Record Perms := mkPerms {
  keyboard : bool;
  clipboard : bool;
  audio : bool;
  file : bool;
  restart : bool;
  recording : bool;
  block_input : bool;
  privacy_mode : bool
}.
Definition perm (p : Permission) (ps : Perms) : bool :=
  match p with
  | Keyboard => keyboard ps | Clipboard => clipboard ps | Audio => audio ps | File => file ps
  | Restart => restart ps | Recording => recording ps | BlockInput => block_input ps | PrivacyMode => privacy_mode ps
  end.
Definition set_perm (p : Permission) (b : bool) (ps : Perms) : Perms :=
  let v q := if decide (q = p) then b else perm q ps in
  mkPerms (v Keyboard) (v Clipboard) (v Audio) (v File) (v Restart) (v Recording) (v BlockInput) (v PrivacyMode).

Record Options := mkOptions {
  disable_keyboard : bool;
  disable_clipboard : bool;
  disable_audio : bool;
  enable_file_transfer : bool;
  show_my_cursor : bool;
  show_remote_cursor : bool;
  follow_remote_cursor : bool;
  follow_remote_window : bool;
  lock_after_session_end : bool
}.
Definition with_disable_keyboard (x : bool) (o : Options) : Options :=
  mkOptions x (disable_clipboard o) (disable_audio o) (enable_file_transfer o) (show_my_cursor o)
    (show_remote_cursor o) (follow_remote_cursor o) (follow_remote_window o) (lock_after_session_end o).
Definition with_disable_clipboard (x : bool) (o : Options) : Options :=
  mkOptions (disable_keyboard o) x (disable_audio o) (enable_file_transfer o) (show_my_cursor o)
    (show_remote_cursor o) (follow_remote_cursor o) (follow_remote_window o) (lock_after_session_end o).
Definition with_disable_audio (x : bool) (o : Options) : Options :=
  mkOptions (disable_keyboard o) (disable_clipboard o) x (enable_file_transfer o) (show_my_cursor o)
    (show_remote_cursor o) (follow_remote_cursor o) (follow_remote_window o) (lock_after_session_end o).
Definition with_enable_file_transfer (x : bool) (o : Options) : Options :=
  mkOptions (disable_keyboard o) (disable_clipboard o) (disable_audio o) x (show_my_cursor o)
    (show_remote_cursor o) (follow_remote_cursor o) (follow_remote_window o) (lock_after_session_end o).
Definition with_show_my_cursor (x : bool) (o : Options) : Options :=
  mkOptions (disable_keyboard o) (disable_clipboard o) (disable_audio o) (enable_file_transfer o) x
    (show_remote_cursor o) (follow_remote_cursor o) (follow_remote_window o) (lock_after_session_end o).
Definition with_show_remote_cursor (x : bool) (o : Options) : Options :=
  mkOptions (disable_keyboard o) (disable_clipboard o) (disable_audio o) (enable_file_transfer o)
    (show_my_cursor o) x (follow_remote_cursor o) (follow_remote_window o) (lock_after_session_end o).
Definition with_follow_remote_cursor (x : bool) (o : Options) : Options :=
  mkOptions (disable_keyboard o) (disable_clipboard o) (disable_audio o) (enable_file_transfer o)
    (show_my_cursor o) (show_remote_cursor o) x (follow_remote_window o) (lock_after_session_end o).
Definition with_follow_remote_window (x : bool) (o : Options) : Options :=
  mkOptions (disable_keyboard o) (disable_clipboard o) (disable_audio o) (enable_file_transfer o)
    (show_my_cursor o) (show_remote_cursor o) (follow_remote_cursor o) x (lock_after_session_end o).
Definition with_lock_after_session_end (x : bool) (o : Options) : Options :=
  mkOptions (disable_keyboard o) (disable_clipboard o) (disable_audio o) (enable_file_transfer o)
    (show_my_cursor o) (show_remote_cursor o) (follow_remote_cursor o) (follow_remote_window o) x.

Record Connection := mkConnection {
  perms : Perms;
  opts : Options;
  authorized : bool;
  conn_type : option AuthConnType;
  port_forward_socket : bool;
  file_transfer : bool;
  view_camera : bool;
  terminal : bool;
  lr_version : bytes;
  voice_calling : bool;
  voice_call_request_timestamp : option Z;
  services_subed : bool;
  delayed_read_dir : option (bytes * bool);
  cm_read_job_ids : gset Z;
  read_jobs : list Z;
  printer_data : list (bytes * bytes);
  chat_unanswered : bool;
  file_transferred : bool;
  audio_sender : bool;
  display_idx : Z;
  terminal_persistent : bool;
  terminal_user_token : bool;
  pressed_modifiers : gset Z;
  scope_violation_messages : gset string;
  closed : bool;
  auto_disconnect_timer : option (Z * Z);
  subs : gset string
}.
Definition with_perms (x : Perms) (c : Connection) : Connection :=
  mkConnection x (opts c) (authorized c) (conn_type c) (port_forward_socket c) (file_transfer c) (view_camera c)
    (terminal c) (lr_version c) (voice_calling c) (voice_call_request_timestamp c) (services_subed c)
    (delayed_read_dir c) (cm_read_job_ids c) (read_jobs c) (printer_data c) (chat_unanswered c)
    (file_transferred c) (audio_sender c) (display_idx c) (terminal_persistent c) (terminal_user_token c)
    (pressed_modifiers c) (scope_violation_messages c) (closed c) (auto_disconnect_timer c) (subs c).
Definition with_opts (x : Options) (c : Connection) : Connection :=
  mkConnection (perms c) x (authorized c) (conn_type c) (port_forward_socket c) (file_transfer c)
    (view_camera c) (terminal c) (lr_version c) (voice_calling c) (voice_call_request_timestamp c)
    (services_subed c) (delayed_read_dir c) (cm_read_job_ids c) (read_jobs c) (printer_data c)
    (chat_unanswered c) (file_transferred c) (audio_sender c) (display_idx c) (terminal_persistent c)
    (terminal_user_token c) (pressed_modifiers c) (scope_violation_messages c) (closed c)
    (auto_disconnect_timer c) (subs c).
Definition with_authorized (x : bool) (t : option AuthConnType) (c : Connection) : Connection :=
  mkConnection (perms c) (opts c) x t (port_forward_socket c) (file_transfer c) (view_camera c) (terminal c)
    (lr_version c) (voice_calling c) (voice_call_request_timestamp c) (services_subed c) (delayed_read_dir c)
    (cm_read_job_ids c) (read_jobs c) (printer_data c) (chat_unanswered c) (file_transferred c) (audio_sender c)
    (display_idx c) (terminal_persistent c) (terminal_user_token c) (pressed_modifiers c)
    (scope_violation_messages c) (closed c) (auto_disconnect_timer c) (subs c).
Definition with_port_forward_socket (x : bool) (c : Connection) : Connection :=
  mkConnection (perms c) (opts c) (authorized c) (conn_type c) x (file_transfer c) (view_camera c) (terminal c)
    (lr_version c) (voice_calling c) (voice_call_request_timestamp c) (services_subed c) (delayed_read_dir c)
    (cm_read_job_ids c) (read_jobs c) (printer_data c) (chat_unanswered c) (file_transferred c) (audio_sender c)
    (display_idx c) (terminal_persistent c) (terminal_user_token c) (pressed_modifiers c)
    (scope_violation_messages c) (closed c) (auto_disconnect_timer c) (subs c).
Definition with_voice_calling (x : bool) (c : Connection) : Connection :=
  mkConnection (perms c) (opts c) (authorized c) (conn_type c) (port_forward_socket c) (file_transfer c)
    (view_camera c) (terminal c) (lr_version c) x (voice_call_request_timestamp c) (services_subed c)
    (delayed_read_dir c) (cm_read_job_ids c) (read_jobs c) (printer_data c) (chat_unanswered c)
    (file_transferred c) (audio_sender c) (display_idx c) (terminal_persistent c) (terminal_user_token c)
    (pressed_modifiers c) (scope_violation_messages c) (closed c) (auto_disconnect_timer c) (subs c).
Definition with_voice_call_request_timestamp (x : option Z) (c : Connection) : Connection :=
  mkConnection (perms c) (opts c) (authorized c) (conn_type c) (port_forward_socket c) (file_transfer c)
    (view_camera c) (terminal c) (lr_version c) (voice_calling c) x (services_subed c) (delayed_read_dir c)
    (cm_read_job_ids c) (read_jobs c) (printer_data c) (chat_unanswered c) (file_transferred c) (audio_sender c)
    (display_idx c) (terminal_persistent c) (terminal_user_token c) (pressed_modifiers c)
    (scope_violation_messages c) (closed c) (auto_disconnect_timer c) (subs c).
Definition with_services_subed (x : bool) (c : Connection) : Connection :=
  mkConnection (perms c) (opts c) (authorized c) (conn_type c) (port_forward_socket c) (file_transfer c)
    (view_camera c) (terminal c) (lr_version c) (voice_calling c) (voice_call_request_timestamp c) x
    (delayed_read_dir c) (cm_read_job_ids c) (read_jobs c) (printer_data c) (chat_unanswered c)
    (file_transferred c) (audio_sender c) (display_idx c) (terminal_persistent c) (terminal_user_token c)
    (pressed_modifiers c) (scope_violation_messages c) (closed c) (auto_disconnect_timer c) (subs c).
Definition with_delayed_read_dir (x : option (bytes * bool)) (c : Connection) : Connection :=
  mkConnection (perms c) (opts c) (authorized c) (conn_type c) (port_forward_socket c) (file_transfer c)
    (view_camera c) (terminal c) (lr_version c) (voice_calling c) (voice_call_request_timestamp c)
    (services_subed c) x (cm_read_job_ids c) (read_jobs c) (printer_data c) (chat_unanswered c)
    (file_transferred c) (audio_sender c) (display_idx c) (terminal_persistent c) (terminal_user_token c)
    (pressed_modifiers c) (scope_violation_messages c) (closed c) (auto_disconnect_timer c) (subs c).
Definition with_cm_read_job_ids (x : gset Z) (c : Connection) : Connection :=
  mkConnection (perms c) (opts c) (authorized c) (conn_type c) (port_forward_socket c) (file_transfer c)
    (view_camera c) (terminal c) (lr_version c) (voice_calling c) (voice_call_request_timestamp c)
    (services_subed c) (delayed_read_dir c) x (read_jobs c) (printer_data c) (chat_unanswered c)
    (file_transferred c) (audio_sender c) (display_idx c) (terminal_persistent c) (terminal_user_token c)
    (pressed_modifiers c) (scope_violation_messages c) (closed c) (auto_disconnect_timer c) (subs c).
Definition with_read_jobs (x : list Z) (c : Connection) : Connection :=
  mkConnection (perms c) (opts c) (authorized c) (conn_type c) (port_forward_socket c) (file_transfer c)
    (view_camera c) (terminal c) (lr_version c) (voice_calling c) (voice_call_request_timestamp c)
    (services_subed c) (delayed_read_dir c) (cm_read_job_ids c) x (printer_data c) (chat_unanswered c)
    (file_transferred c) (audio_sender c) (display_idx c) (terminal_persistent c) (terminal_user_token c)
    (pressed_modifiers c) (scope_violation_messages c) (closed c) (auto_disconnect_timer c) (subs c).
Definition with_printer_data (x : list (bytes * bytes)) (c : Connection) : Connection :=
  mkConnection (perms c) (opts c) (authorized c) (conn_type c) (port_forward_socket c) (file_transfer c)
    (view_camera c) (terminal c) (lr_version c) (voice_calling c) (voice_call_request_timestamp c)
    (services_subed c) (delayed_read_dir c) (cm_read_job_ids c) (read_jobs c) x (chat_unanswered c)
    (file_transferred c) (audio_sender c) (display_idx c) (terminal_persistent c) (terminal_user_token c)
    (pressed_modifiers c) (scope_violation_messages c) (closed c) (auto_disconnect_timer c) (subs c).
Definition with_chat_unanswered (x : bool) (c : Connection) : Connection :=
  mkConnection (perms c) (opts c) (authorized c) (conn_type c) (port_forward_socket c) (file_transfer c)
    (view_camera c) (terminal c) (lr_version c) (voice_calling c) (voice_call_request_timestamp c)
    (services_subed c) (delayed_read_dir c) (cm_read_job_ids c) (read_jobs c) (printer_data c) x
    (file_transferred c) (audio_sender c) (display_idx c) (terminal_persistent c) (terminal_user_token c)
    (pressed_modifiers c) (scope_violation_messages c) (closed c) (auto_disconnect_timer c) (subs c).
Definition with_file_transferred (x : bool) (c : Connection) : Connection :=
  mkConnection (perms c) (opts c) (authorized c) (conn_type c) (port_forward_socket c) (file_transfer c)
    (view_camera c) (terminal c) (lr_version c) (voice_calling c) (voice_call_request_timestamp c)
    (services_subed c) (delayed_read_dir c) (cm_read_job_ids c) (read_jobs c) (printer_data c)
    (chat_unanswered c) x (audio_sender c) (display_idx c) (terminal_persistent c) (terminal_user_token c)
    (pressed_modifiers c) (scope_violation_messages c) (closed c) (auto_disconnect_timer c) (subs c).
Definition with_audio_sender (x : bool) (c : Connection) : Connection :=
  mkConnection (perms c) (opts c) (authorized c) (conn_type c) (port_forward_socket c) (file_transfer c)
    (view_camera c) (terminal c) (lr_version c) (voice_calling c) (voice_call_request_timestamp c)
    (services_subed c) (delayed_read_dir c) (cm_read_job_ids c) (read_jobs c) (printer_data c)
    (chat_unanswered c) (file_transferred c) x (display_idx c) (terminal_persistent c) (terminal_user_token c)
    (pressed_modifiers c) (scope_violation_messages c) (closed c) (auto_disconnect_timer c) (subs c).
Definition with_display_idx (x : Z) (c : Connection) : Connection :=
  mkConnection (perms c) (opts c) (authorized c) (conn_type c) (port_forward_socket c) (file_transfer c)
    (view_camera c) (terminal c) (lr_version c) (voice_calling c) (voice_call_request_timestamp c)
    (services_subed c) (delayed_read_dir c) (cm_read_job_ids c) (read_jobs c) (printer_data c)
    (chat_unanswered c) (file_transferred c) (audio_sender c) x (terminal_persistent c) (terminal_user_token c)
    (pressed_modifiers c) (scope_violation_messages c) (closed c) (auto_disconnect_timer c) (subs c).
Definition with_terminal_persistent (x : bool) (c : Connection) : Connection :=
  mkConnection (perms c) (opts c) (authorized c) (conn_type c) (port_forward_socket c) (file_transfer c)
    (view_camera c) (terminal c) (lr_version c) (voice_calling c) (voice_call_request_timestamp c)
    (services_subed c) (delayed_read_dir c) (cm_read_job_ids c) (read_jobs c) (printer_data c)
    (chat_unanswered c) (file_transferred c) (audio_sender c) (display_idx c) x (terminal_user_token c)
    (pressed_modifiers c) (scope_violation_messages c) (closed c) (auto_disconnect_timer c) (subs c).
Definition with_pressed_modifiers (x : gset Z) (c : Connection) : Connection :=
  mkConnection (perms c) (opts c) (authorized c) (conn_type c) (port_forward_socket c) (file_transfer c)
    (view_camera c) (terminal c) (lr_version c) (voice_calling c) (voice_call_request_timestamp c)
    (services_subed c) (delayed_read_dir c) (cm_read_job_ids c) (read_jobs c) (printer_data c)
    (chat_unanswered c) (file_transferred c) (audio_sender c) (display_idx c) (terminal_persistent c)
    (terminal_user_token c) x (scope_violation_messages c) (closed c) (auto_disconnect_timer c) (subs c).
Definition with_scope_violation_messages (x : gset string) (c : Connection) : Connection :=
  mkConnection (perms c) (opts c) (authorized c) (conn_type c) (port_forward_socket c) (file_transfer c)
    (view_camera c) (terminal c) (lr_version c) (voice_calling c) (voice_call_request_timestamp c)
    (services_subed c) (delayed_read_dir c) (cm_read_job_ids c) (read_jobs c) (printer_data c)
    (chat_unanswered c) (file_transferred c) (audio_sender c) (display_idx c) (terminal_persistent c)
    (terminal_user_token c) (pressed_modifiers c) x (closed c) (auto_disconnect_timer c) (subs c).
Definition with_closed (x : bool) (c : Connection) : Connection :=
  mkConnection (perms c) (opts c) (authorized c) (conn_type c) (port_forward_socket c) (file_transfer c)
    (view_camera c) (terminal c) (lr_version c) (voice_calling c) (voice_call_request_timestamp c)
    (services_subed c) (delayed_read_dir c) (cm_read_job_ids c) (read_jobs c) (printer_data c)
    (chat_unanswered c) (file_transferred c) (audio_sender c) (display_idx c) (terminal_persistent c)
    (terminal_user_token c) (pressed_modifiers c) (scope_violation_messages c) x (auto_disconnect_timer c)
    (subs c).
Definition with_auto_disconnect_timer (x : option (Z * Z)) (c : Connection) : Connection :=
  mkConnection (perms c) (opts c) (authorized c) (conn_type c) (port_forward_socket c) (file_transfer c)
    (view_camera c) (terminal c) (lr_version c) (voice_calling c) (voice_call_request_timestamp c)
    (services_subed c) (delayed_read_dir c) (cm_read_job_ids c) (read_jobs c) (printer_data c)
    (chat_unanswered c) (file_transferred c) (audio_sender c) (display_idx c) (terminal_persistent c)
    (terminal_user_token c) (pressed_modifiers c) (scope_violation_messages c) (closed c) x (subs c).
Definition with_subs (x : gset string) (c : Connection) : Connection :=
  mkConnection (perms c) (opts c) (authorized c) (conn_type c) (port_forward_socket c) (file_transfer c)
    (view_camera c) (terminal c) (lr_version c) (voice_calling c) (voice_call_request_timestamp c)
    (services_subed c) (delayed_read_dir c) (cm_read_job_ids c) (read_jobs c) (printer_data c)
    (chat_unanswered c) (file_transferred c) (audio_sender c) (display_idx c) (terminal_persistent c)
    (terminal_user_token c) (pressed_modifiers c) (scope_violation_messages c) (closed c)
    (auto_disconnect_timer c) x.

(** ** Steps *)
Definition Step : Type := Connection -> Connection * list Effect.

Definition skip : Step := fun c => (c, []).
Definition emit (e : Effect) : Step := fun c => (c, [e]).
Definition upd (f : Connection -> Connection) : Step := fun c => (f c, []).
Definition then_ (a b : Step) : Step :=
  fun c => let '(c, e1) := a c in let '(c, e2) := b c in (c, e1 ++ e2).
Definition when (b : bool) (a : Step) : Step := if b then a else skip.
(** Reading the state. *)
Definition reading {A} (f : Connection -> A) (k : A -> Step) : Step := fun c => k (f c) c.
Declare Scope step_scope.
Delimit Scope step_scope with step.
Bind Scope step_scope with Step.
Notation "a >> b" := (then_ a b) (at level 58, right associativity) : step_scope.
#[global] Open Scope step_scope.

(** ** A logic of steps
    From a state in [P], every effect is in [E] and the new state is in [Q];
    [keeps] is the case of an invariant. *)
Definition triple (P : Connection -> Prop) (s : Step) (E : Effect -> Prop) (Q : Connection -> Prop) : Prop :=
  forall c, P c -> Q (s c).1 /\ Forall E (s c).2.
Definition keeps (P : Connection -> Prop) (E : Effect -> Prop) (s : Step) : Prop := triple P s E P.

Section Triples.
Implicit Types (P Q R : Connection -> Prop) (E : Effect -> Prop).

Lemma triple_then P Q R E a b : triple P a E Q -> triple Q b E R -> triple P (a >> b) E R.
Proof.
  intros Ha Hb c Hc. destruct (Ha c Hc) as [Hq He]. unfold then_. destruct (a c) as [c1 e1]. simpl in *.
  destruct (Hb c1 Hq) as [Hr He2]. destruct (b c1) as [c2 e2]. split; [done|]. by apply Forall_app.
Qed.

Lemma triple_weaken P P' E Q Q' s :
  triple P' s E Q' -> (forall c, P c -> P' c) -> (forall c, Q' c -> Q c) -> triple P s E Q.
Proof. intros H Hp Hq c Hc. destruct (H c (Hp c Hc)). split; [by apply Hq|done]. Qed.

Lemma triple_effects P E E' Q s : triple P s E Q -> (forall x, E x -> E' x) -> triple P s E' Q.
Proof. intros H He c Hc. destruct (H c Hc) as [? Hf]. split; [done|]. by eapply Forall_impl. Qed.

Lemma keeps_skip P E : keeps P E skip.
Proof. intros c Hc. by split. Qed.
Lemma keeps_emit P E x : E x -> keeps P E (emit x).
Proof. intros H c Hc. split; [done|]. by constructor. Qed.
Lemma keeps_upd P E f : (forall c, P c -> P (f c)) -> keeps P E (upd f).
Proof. intros H c Hc. split; [by apply H|done]. Qed.
Lemma keeps_then P E a b : keeps P E a -> keeps P E b -> keeps P E (a >> b).
Proof. apply triple_then. Qed.
Lemma keeps_when P E (b : bool) s : (b = true -> keeps P E s) -> keeps P E (when b s).
Proof. intros H. destruct b; [by apply H|apply keeps_skip]. Qed.
Lemma keeps_if P E (b : bool) s t : (b = true -> keeps P E s) -> (b = false -> keeps P E t) ->
  keeps P E (if b then s else t).
Proof. intros H1 H2. destruct b; auto. Qed.
Lemma keeps_reading {A} P E (f : Connection -> A) k : (forall c, P c -> keeps P E (k (f c))) -> keeps P E (reading f k).
Proof. intros H c Hc. by apply H. Qed.
End Triples.

(** Taking a step apart. *)
Ltac step :=
  match goal with
  | |- keeps _ _ skip => apply keeps_skip
  | |- keeps _ _ (emit _) => apply keeps_emit
  | |- keeps _ _ (upd _) => apply keeps_upd; intros ? ?
  | |- keeps _ _ (_ >> _) => apply keeps_then
  | |- keeps _ _ (when _ _) => apply keeps_when; intros ?
  | |- keeps _ _ (reading _ _) => apply keeps_reading; intros ? ?
  | |- keeps _ _ (if _ then _ else _) => apply keeps_if; intros ?
  | |- keeps _ _ (match ?x with _ => _ end) => destruct x eqn:?
  end.
