(* ===== verification/SessionHandler.v ===== *)
(** * The handlers of a controlled device ([src/server/connection.rs])

    What an open session does with the messages of the viewer ([on_message])
    and with the orders of the connection manager ([from_cm]): input, clipboard,
    files, options, voice calls, privacy mode, permissions, subscriptions.
    Logging in is [LoginFlow], the scope of a session [SessionScope].

    The platform ([cfg]) and the built-in options are the record [Build], the
    answers of the operating system [Sys].  Displays are not modelled: a change
    of display or resolution is an effect.  The server is alive and holds the
    services [services].  Mobile devices are not modelled. *)
From S2P Require Import Prelude.
From S2P Require Import Encoding.
From S2P Require Import Version.
From S2P Require Import SessionScope.
From S2P Require Import SessionState.

Record Build := mkBuild {
  windows : bool;
  linux : bool;
  unix_file_copy_paste : bool;
  one_way_file_transfer : bool;
  one_way_clipboard_redirection : bool;
  scope_violation_alarm : bool;
  scope_violation_close : bool;
  need_fs_cm_send_files : bool;
  max_files : Z;
  services : gset string
}.

(** [read_files] and [all_files]: how many files a path stands for, if it can
    be read; [turn_on] and [turn_off] of the privacy mode, [check_err] and
    [still_in_privacy_mode] after it was turned on, [held]: it is on and this
    connection holds it; [auto_disconnect]: the minutes set for an idle viewer;
    [many_displays]: the connection is subscribed to more than one display. *)
Record Sys := mkSys {
  now : Z;
  read_files : bytes -> bool -> option Z;
  all_files : bytes -> bool -> option Z;
  privacy_supported : bool;
  in_privacy_mode : bool;
  still_in_privacy_mode : bool;
  held : bool;
  other_impl : bool;
  turn_on : option (option bool);
  check_err : bool;
  turn_off : option bool;
  display_changed : bool;
  whiteboard_supported : bool;
  other_session : Z -> bool;
  session_known : bool;
  elevation_needed : bool;
  rdev_modifier : Z -> option Z;
  auto_disconnect : option Z;
  many_displays : bool
}.

Section Handlers.
Context (b : Build) (e : Sys).

(** ** Permissions *)
Definition peer_keyboard_enabled (c : Connection) : bool := keyboard (perms c) && negb (disable_keyboard (opts c)).
Definition clipboard_enabled (c : Connection) : bool := clipboard (perms c) && negb (disable_clipboard (opts c)).
Definition audio_enabled (c : Connection) : bool := audio (perms c) && negb (disable_audio (opts c)).
Definition file_transfer_enabled (c : Connection) : bool := file (perms c) && enable_file_transfer (opts c).
Definition can_sub_clipboard_service (c : Connection) : bool :=
  clipboard_enabled c && peer_keyboard_enabled c && negb (one_way_clipboard_redirection b).
Definition can_sub_file_clipboard_service (c : Connection) : bool :=
  clipboard_enabled c && file_transfer_enabled c && negb (one_way_file_transfer b).
Definition is_authed_view_camera_conn (c : Connection) : bool := bool_decide (conn_type c = Some ViewCamera).
Definition is_authed_remote_conn (c : Connection) : bool := bool_decide (conn_type c = Some Remote).
Definition should_handle_render_broadcast_message (c : Connection) : bool :=
  bool_decide (conn_type c = Some Remote) || bool_decide (conn_type c = Some ViewCamera).
Definition should_handle_text_clipboard_message (c : Connection) : bool := bool_decide (conn_type c = Some Remote).

Definition update_auto_disconnect_timer : Step :=
  upd (fun c => with_auto_disconnect_timer ((fun t => (now e, t.2)) <$> auto_disconnect_timer c) c).

(** [Server::subscribe] for this connection. *)
Definition subscribe (name : string) (sub : bool) : Step :=
  when (bool_decide (name ∈ services b))
    (upd (fun c => with_subs (if sub then {[name]} ∪ subs c else subs c ∖ {[name]}) c)).
Definition subscribe_if (name : string) (f : Connection -> bool) : Step := reading f (fun sub => subscribe name sub).

(** ** Input *)
Definition mouse_event (ev : bytes) : Step := reading id (fun c =>
  (if peer_keyboard_enabled c then emit (Mouse ev true (show_my_cursor (opts c)))
   else when (show_my_cursor (opts c)) (emit (Mouse ev false true)))
  >> update_auto_disconnect_timer).

Definition pointer_event (ev : bytes) : Step := reading id (fun c =>
  when (peer_keyboard_enabled c) (emit (Pointer ev)) >> update_auto_disconnect_timer).

Definition is_modifier (k : KeyEvent) : bool :=
  match k_union k with
  | Some (KControl v) => bool_decide (v ∈ [1; 29; 4; 23; 75; 73; 74; 64])
  | _ => false
  end.

(** The modifier key of an event in the modes [Map] (1) and [Translate] (2). *)
Definition modifier_key (k : KeyEvent) : option Z :=
  match mode k with
  | 1 => rdev_modifier e (match k_union k with Some (KChr code) => code | _ => 0 end)
  | 2 => match k_union k with Some (KChr code) => rdev_modifier e (Z.land code 0xFFFF) | _ => None end
  | _ => None
  end.

Definition is_press (k : KeyEvent) : bool :=
  if linux b then (press k || down k) && negb (is_modifier k || match modifier_key k with Some _ => true | None => false end)
  else press k.

Definition record_modifier (k : KeyEvent) (c : Connection) : Connection :=
  match modifier_key k with
  | Some key =>
      with_pressed_modifiers (if is_press k then {[key]} ∪ pressed_modifiers c else pressed_modifiers c ∖ {[key]}) c
  | None => c
  end.

Definition input_key (k : KeyEvent) : Step :=
  if is_press k then
    match k_union k with
    | Some (KUnicode _) | Some (KSeq _) => emit (Key k false)
    | _ => emit (Key k true)
    end
  else emit (Key k false).

Definition key_event (k : KeyEvent) : Step := reading id (fun c =>
  when (peer_keyboard_enabled c) (upd (record_modifier k) >> input_key k) >> update_auto_disconnect_timer).

(** What the input thread does with a key: the events it simulates. *)
Definition key_calls (k : KeyEvent) (pressed : bool) : list KeyEvent :=
  let msg d := mkKey d false (k_union k) (modifiers k) (mode k) in
  if pressed then [msg true; msg false] else [msg (down k)].

(** ** Files *)
Definition send_fs (cmd : FsCmd) : Step := emit (ToCm (CmFs cmd)).
Definition log (action : string) : Step := emit (ToCm (CmFileTransferLog action)).

Definition create_and_start_read_job (id : Z) (count : option Z) (path : bytes) (from_memory : bool) : Step :=
  match count with
  | None => emit (Send (RError id "read" 0))
  | Some n =>
      if negb from_memory && (max_files b <? n) then emit (Send (RError id "too many files" (-1)))
      else emit (Send (RDir id path)) >> upd (fun c => with_read_jobs (read_jobs c ++ [id]) c)
           >> emit (ReadJob id path from_memory) >> emit (Audit false)
  end.

(** The first entry with the path is removed. *)
Fixpoint take_printer_data (path : bytes) (l : list (bytes * bytes)) : option (bytes * list (bytes * bytes)) :=
  match l with
  | [] => None
  | (p, d) :: l =>
      if bool_decide (p = path) then Some (d, l)
      else match take_printer_data path l with Some (d', l') => Some (d', (p, d) :: l') | None => None end
  end.

Definition is_printer (file_type : Z) : bool := file_type =? 1.
Definition overwrite_detection (c : Connection) : bool :=
  get_version_number (str "1.1.10") <=? get_version_number (lr_version c).

Definition send_files (id : Z) (path : bytes) (include_hidden : bool) (file_num file_type : Z) : Step := reading Datatypes.id (fun c =>
  if is_printer file_type then
    match take_printer_data path (printer_data c) with
    | Some (_, rest) =>
        upd (with_printer_data rest) >> create_and_start_read_job id (Some 1) path true >> upd (with_file_transferred true)
    | None => skip
    end
  else
    (if need_fs_cm_send_files b then
       upd (fun c => with_cm_read_job_ids ({[id]} ∪ cm_read_job_ids c) c)
       >> send_fs (ReadFile path id file_num include_hidden (overwrite_detection c))
     else create_and_start_read_job id (read_files e path include_hidden) path false)
    >> upd (with_file_transferred true)).

Definition one_way_id (fa : FileAction) : option Z :=
  match fa with
  | FaSend id _ _ _ _ | FaRemoveFile id _ _ | FaRename id _ _ | FaCreate id _ | FaRemoveDir id _ _ => Some id
  | _ => None
  end.

Fixpoint remove_first (id : Z) (l : list Z) : list Z :=
  match l with [] => [] | j :: l => if j =? id then l else j :: remove_first id l end.

Definition cancel (id : Z) : Step :=
  send_fs (CancelWrite id)
  >> upd (fun c => with_cm_read_job_ids (cm_read_job_ids c ∖ {[id]}) c)
  >> send_fs (CancelRead id)
  >> reading (fun c => bool_decide (id ∈ read_jobs c)) (fun known =>
       when known (upd (fun c => with_read_jobs (remove_first id (read_jobs c)) c) >> log "transfer")).

Definition run_action (fa : FileAction) : Step :=
  match fa with
  | FaReadEmptyDirs path hidden => send_fs (ReadEmptyDirs path hidden)
  | FaReadDir path hidden => send_fs (ReadDir path hidden)
  | FaAllFiles id path hidden =>
      if need_fs_cm_send_files b then send_fs (ReadAllFiles path id hidden)
      else match all_files e path hidden with
           | None => emit (Send (RError id "read" (-1)))
           | Some n => if max_files b <? n then emit (Send (RError id "too many files" (-1))) else emit (Send (RDir id path))
           end
  | FaSend id path hidden num type => send_files id path hidden num type
  | FaReceive id path num files total => reading overwrite_detection (fun od =>
      send_fs (NewWrite path id num files od total) >> emit (Audit true) >> upd (with_file_transferred true))
  | FaRemoveDir id path recursive => send_fs (RemoveDir path id recursive)
  | FaRemoveFile id path num => send_fs (RemoveFile path id num)
  | FaCreate id path => send_fs (CreateDir path id) >> log "create_dir"
  | FaCancel id => cancel id
  | FaSendConfirm id num answer => reading Datatypes.id (fun c =>
      if bool_decide (id ∈ read_jobs c) then skip
      else if bool_decide (id ∈ cm_read_job_ids c) then send_fs (SendConfirmForRead id num answer)
      else send_fs (SendConfirm id num answer))
  | FaRename id path new_name => send_fs (Rename id path new_name) >> log "rename"
  end.

Definition handles_action (c : Connection) (fa : option FileAction) : bool :=
  file_transfer c || match fa with Some (FaSend _ _ _ _ type) => is_printer type | _ => false end.

Definition file_action (fa : option FileAction) : Step := reading id (fun c =>
  when (handles_action c fa)
    match delayed_read_dir c with
    | Some _ =>
        match fa with
        | Some (FaReadDir path hidden) => upd (with_delayed_read_dir (Some (path, hidden)))
        | _ => skip
        end
    | None =>
        match fa with
        | Some fa =>
            match one_way_file_transfer b, one_way_id fa with
            | true, Some id => emit (Send (RError id "one-way-file-transfer-tip" 0))
            | _, _ => run_action fa
            end
        | None => skip
        end
    end).

Definition file_response (fr : option FileResponse) : Step :=
  match fr with
  | Some (FrBlock id num data compressed) => send_fs (WriteBlock id num data compressed)
  | Some (FrDone id num) => send_fs (WriteDone id num)
  | Some (FrDigest id num size lm resume) => send_fs (CheckDigest id num size lm true resume)
  | Some (FrError id num err) => send_fs (WriteError id num err)
  | Some FrDir | None => skip
  end.

(** ** Clipboard *)
Definition file_copy_paste (c : Connection) : bool :=
  get_version_number (str "1.3.8") <=? get_version_number (lr_version c).

Definition cliprdr (m : Cliprdr) : Step :=
  match m with
  | ClipFiles => emit (Audit true)
  | ClipMsg m =>
      when (windows b) (emit (ToCm (CmClipboardFile m)))
      >> when (unix_file_copy_paste b) (reading file_copy_paste (fun ok => when ok (emit (ServeClip m))))
  | ClipUnknown => skip
  end.

(** ** Privacy mode *)
Definition turn_off_privacy_to_msg : Step :=
  emit PrivacyOff
  >> emit (Send (RPrivacy (match turn_off e with Some true => PrvOffSucceeded | _ => PrvOffFailed end))).

Definition turn_on_privacy : Step := reading id (fun c =>
  if negb (is_authed_remote_conn c) || negb (privacy_mode (perms c)) then emit (Send (RPrivacy PrvOnFailedDenied))
  else if negb (privacy_supported e) then emit (Send (RPrivacy PrvNotSupported))
  else
    when (in_privacy_mode e && other_impl e) (emit (Send (RPrivacy PrvOffSucceeded)))
    >> emit PrivacyOn
    >> match turn_on e with
       | Some (Some true) =>
           if check_err e then emit PrivacyOff >> emit (Send (RPrivacy PrvOnFailed)) else emit (Send (RPrivacy PrvOnSucceeded))
       | Some (Some false) => emit (Send (RPrivacy PrvOnFailedPlugin))
       | Some None => when (still_in_privacy_mode e) (emit PrivacyOff) >> emit (Send (RPrivacy PrvOnFailed))
       | None => emit (Send (RPrivacy PrvOffFailed))
       end).

Definition turn_off_privacy : Step :=
  if negb (privacy_supported e) then emit (Send (RPrivacy PrvNotSupported)) else turn_off_privacy_to_msg.

Definition toggle_privacy_mode (on : bool) : Step := if on then turn_on_privacy else turn_off_privacy.

(** ** Options *)
Definition set_opt (f : bool -> Options -> Options) (v : bool) : Step := upd (fun c => with_opts (f v (opts c)) c).
(** [enum_value()] of a [BoolOption] that is set. *)
Definition on_bool (v : Z) (k : bool -> Step) : Step := when ((v =? 1) || (v =? 2)) (k (v =? 2)).

Definition update_quality (o : OptionMessage) : Step :=
  when (image_quality_known (image_quality o))
    (let q := if image_quality o =? 0 then if 0 <? custom_image_quality o then custom_image_quality o else -1
              else image_quality o in
     when (0 <? q) (emit (Quality q))).

Definition subscribe_audio : Step := reading id (fun c =>
  if is_authed_view_camera_conn c then
    when (voice_calling c || negb (audio_enabled c)) (subscribe AUDIO_NAME (audio_enabled c))
  else subscribe AUDIO_NAME (audio_enabled c)).

Definition subscribe_cursor : Step :=
  subscribe_if NAME_CURSOR (fun c => peer_keyboard_enabled c || show_remote_cursor (opts c)).

Definition update_block_input (o : OptionMessage) : Step := reading id (fun c =>
  when (bool_option_known (SessionScope.block_input o))
    (if keyboard (perms c) && SessionState.block_input (perms c) then on_bool (SessionScope.block_input o) (fun v => emit (Block v))
     else on_bool (SessionScope.block_input o) (fun v => emit (Send (RBlockInputError v))))).

Definition update_terminal_persistence (persistent : bool) : Step :=
  upd (with_terminal_persistent persistent) >> emit (TerminalPersistent persistent).

Definition update_options (o : OptionMessage) : Step :=
  update_quality o
  >> when (0 <? custom_fps o) (emit (CustomFps (custom_fps o)))
  >> match supported_decoding o with Some q => emit (Decoding q) | None => skip end
  >> on_bool (SessionScope.lock_after_session_end o) (set_opt with_lock_after_session_end)
  >> on_bool (SessionScope.show_remote_cursor o) (fun v =>
       set_opt with_show_remote_cursor v >> subscribe_cursor >> subscribe NAME_POS v)
  >> on_bool (SessionScope.follow_remote_cursor o) (set_opt with_follow_remote_cursor)
  >> on_bool (SessionScope.follow_remote_window o) (fun v => set_opt with_follow_remote_window v >> subscribe NAME_WINDOW_FOCUS v)
  >> on_bool (SessionScope.disable_audio o) (fun v => set_opt with_disable_audio v >> subscribe_audio)
  >> when (windows b || unix_file_copy_paste b) (on_bool (SessionScope.enable_file_transfer o) (fun v =>
       set_opt with_enable_file_transfer v
       >> when (windows b) (reading file_transfer_enabled (fun v => emit (ToCm (CmClipboardFileEnabled v))))
       >> when (unix_file_copy_paste b)
            (when (negb v) (emit EmptyFileClipboard) >> subscribe_if FILE_CLIPBOARD_NAME (can_sub_file_clipboard_service))))
  >> on_bool (SessionScope.disable_clipboard o) (fun v =>
       set_opt with_disable_clipboard v >> subscribe_if CLIPBOARD_NAME (can_sub_clipboard_service))
  >> on_bool (SessionScope.disable_keyboard o) (fun v =>
       set_opt with_disable_keyboard v >> subscribe_if CLIPBOARD_NAME (can_sub_clipboard_service)
       >> when (unix_file_copy_paste b) (subscribe_if FILE_CLIPBOARD_NAME (can_sub_file_clipboard_service))
       >> subscribe_cursor)
  >> reading id (fun c =>
       when ((get_version_number (lr_version c) <? get_version_number (str "1.2.4")) && keyboard (perms c))
         (on_bool (SessionScope.privacy_mode o) (fun v => if v then turn_on_privacy else turn_off_privacy)))
  >> update_block_input o
  >> on_bool (SessionScope.terminal_persistent o) update_terminal_persistence
  >> on_bool (SessionScope.show_my_cursor o) (fun v =>
       set_opt with_show_my_cursor v
       >> if whiteboard_supported e then emit (Whiteboard v) else when v (emit (Send RMessageBox))).

(** ** Displays *)
Definition refresh_video_display (display : option Z) : Step := emit (RefreshVideo display).

Definition change_resolution (display : option Z) (w h : Z) : Step := reading id (fun c =>
  when (keyboard (perms c)) (emit (ChangeResolution display w h))).

Definition handle_switch_display (d w h : Z) : Step := reading id (fun c =>
  when (negb (display_idx c =? u64_of d))
    (emit (SwitchDisplay d) >> upd (with_display_idx (u64_of d))
     >> when (negb (view_camera c) && negb (w =? 0) && negb (h =? 0)) (change_resolution None w h)
     >> when (display_changed e) (emit (Send RDisplayChanged)))).

(** What is captured is an effect; the focused window is followed only while
    one display is shown. *)
Definition capture_displays (add sub set : list Z) : Step :=
  emit (CaptureDisplays add sub set)
  >> reading id (fun c => when (follow_remote_window (opts c)) (subscribe NAME_WINDOW_FOCUS (negb (many_displays e)))).

Definition is_remote (c : Connection) : bool :=
  negb (file_transfer c) && negb (port_forward_socket c) && negb (view_camera c) && negb (terminal c).

(** The services that the permissions and options leave out. *)
Definition noperms (c : Connection) : gset string :=
  (if negb (peer_keyboard_enabled c) && negb (show_remote_cursor (opts c)) then {[NAME_CURSOR]} else ∅)
  ∪ (if negb (show_remote_cursor (opts c)) then {[NAME_POS]} else ∅)
  ∪ (if negb (follow_remote_window (opts c)) then {[NAME_WINDOW_FOCUS]} else ∅)
  ∪ (if negb (can_sub_clipboard_service c) then {[CLIPBOARD_NAME]} else ∅)
  ∪ (if unix_file_copy_paste b && negb (can_sub_file_clipboard_service c) then {[FILE_CLIPBOARD_NAME]} else ∅)
  ∪ (if negb (audio_enabled c) then {[AUDIO_NAME]} else ∅).

Definition try_sub_monitor_services : Step := reading id (fun c =>
  when (is_remote c && negb (services_subed c))
    (upd (with_services_subed true)
     >> upd (with_auto_disconnect_timer ((fun minute => (now e, minute)) <$> auto_disconnect e))
     >> upd (fun c => with_subs (subs c ∪ services b ∖ noperms c) c))).

(** ** The end of a login
    What [send_logon_response_and_keep_alive] does from [authorized = true] on,
    after the checks that [LoginFlow] models: [o] are the options of the login
    request, [dir] the folder asked for (empty if it is none), [screen] that the
    display server is supported (Linux), [displays] that the displays could be
    listed, [wait] that the viewer first picks a Windows session. *)
Record Login := mkLogin {
  login_options : option OptionMessage;
  login_dir : bytes * bool;
  screen : bool;
  displays : bool;
  wait : bool
}.
Definition auth_conn_type (c : Connection) : AuthConnType :=
  if file_transfer c then FileTransfer else if port_forward_socket c then PortForward
  else if view_camera c then ViewCamera else if terminal c then SessionScope.Terminal else Remote.
Definition disable_keyboard_permission : Step := upd (fun c => with_perms (set_perm Keyboard false (perms c)) c).

Definition finish_login (l : Login) : Step :=
  upd (fun c => with_authorized true (Some (auth_conn_type c)) c)
  >> reading id (fun c =>
       if port_forward_socket c then emit (Send (RLogin true))
       else if linux b && is_remote c && negb (screen l) then emit (Send (RLogin false))
       else
         let wait_session_id_confirm := windows b && negb (terminal c) && wait l in
         let sub_service := is_remote c && displays l in
         emit (Send (RLogin (negb (is_remote c) || displays l)))
         >> match update_scoped_login_options (conn_type c) (login_options l) with
            | Some o => update_options o
            | None => skip
            end
         >> (if file_transfer c then
               disable_keyboard_permission
               >> (if negb wait_session_id_confirm then send_fs (ReadDir (login_dir l).1 (login_dir l).2)
                   else upd (with_delayed_read_dir (Some (login_dir l))))
             else if terminal c then disable_keyboard_permission >> emit TerminalService
             else if view_camera c then
               when (negb wait_session_id_confirm) (emit CameraConnection)
               >> disable_keyboard_permission >> emit (Send (RPermission Keyboard false))
             else when (sub_service && negb wait_session_id_confirm) try_sub_monitor_services)).

(** ** Voice calls *)
Definition close_voice_call : Step :=
  emit (VoiceDevice false) >> emit (ToCm CmCloseVoiceCall) >> upd (with_voice_calling false)
  >> reading is_authed_view_camera_conn (fun cam => when cam (subscribe AUDIO_NAME false)).

Definition handle_voice_call (accepted : bool) : Step := reading voice_call_request_timestamp (fun ts =>
  match ts with
  | Some ts =>
      upd (with_voice_call_request_timestamp None)
      >> (if accepted then emit (VoiceDevice true) >> emit (ToCm CmStartVoiceCall) else emit (ToCm CmCloseVoiceCall))
      >> emit (Send (RVoiceCall ts accepted)) >> upd (with_voice_calling accepted)
      >> reading id (fun c =>
           when (is_authed_view_camera_conn c) (subscribe AUDIO_NAME (audio_enabled c && accepted)))
  | None => skip
  end).

(** ** Closing *)
Definition on_close (lock : bool) : Step := reading id (fun c =>
  when (negb (closed c))
    (upd (with_closed true) >> emit (VoiceDevice false)
     >> when (lock && SessionState.lock_after_session_end (opts c) && keyboard (perms c)) (emit Lock)
     >> emit (ToCm (if chat_unanswered c || file_transferred c then CmDisconnected else CmClose))
     >> upd (with_port_forward_socket false))).

Definition send_close_reason_no_retry (reason : string) : Step := emit (Send (RCloseReason reason)).

(** ** [misc] messages: the step, and whether the connection goes on *)
Definition misc_message (m : MiscMsg) : Connection -> Step * bool := fun c =>
  match m with
  | MSwitchDisplay d w h => (handle_switch_display d w h, true)
  | MCaptureDisplays add sub set => (capture_displays add sub set, true)
  | MToggleVirtualDisplay on => (when (windows b && negb (view_camera c)) (emit (VirtualDisplay on)), true)
  | MTogglePrivacyMode on => (when (negb (view_camera c)) (toggle_privacy_mode on), true)
  | MChatMessage text =>
      (emit (ToCm (CmChatMessage text)) >> upd (with_chat_unanswered true) >> update_auto_disconnect_timer, true)
  | MOption o => (match updated_option (conn_type c) o with Some o => update_options o | None => skip end, true)
  | MRefreshVideo r =>
      (when (should_handle_render_broadcast_message c)
         (when r (refresh_video_display None) >> update_auto_disconnect_timer), true)
  | MRefreshVideoDisplay d =>
      (when (should_handle_render_broadcast_message c)
         (refresh_video_display (Some (u64_of d)) >> update_auto_disconnect_timer), true)
  | MVideoReceived => (emit FrameFetched, true)
  | MRestartRemoteDevice => (when (restart (perms c)) (emit Reboot), true)
  | MElevationRequest known =>
      (when (windows b && known)
         ((if keyboard (perms c) then
             when (elevation_needed e) (emit Elevate) >> emit (Send (RElevation (if elevation_needed e then "" else "No need to elevate")))
           else emit (Send (RElevation "No permission")))
          >> update_auto_disconnect_timer), true)
  | MAudioFormat format =>
      (when (negb (disable_audio (opts c))) (upd (with_audio_sender true) >> emit (AudioThread format)), true)
  | MSwitchSidesRequest (Some uuid) => (emit (RunSwitchSides uuid) >> on_close false, false)
  | MSwitchSidesRequest None => (skip, true)
  | MChangeResolution w h => (when (negb (view_camera c)) (change_resolution None w h), true)
  | MChangeDisplayResolution d w h => (when (negb (view_camera c)) (change_resolution (Some (u64_of d)) w h), true)
  | MAutoAdjustFps fps => (emit (AutoFps fps), true)
  | MClientRecordStatus status => (emit (RecordStatus status), true)
  | MSelectedSid sid =>
      if windows b && session_known e then
        if other_session e sid then (skip, false)
        else if file_transfer c then
          (match delayed_read_dir c with
           | Some (dir, hidden) => upd (with_delayed_read_dir None) >> send_fs (ReadDir dir hidden)
           | None => skip
           end, true)
        else if view_camera c || terminal c then (skip, true)
        else (try_sub_monitor_services, true)
      else (skip, true)
  | MMessageQuery _ => (when (display_changed e) (emit (Send RDisplayChanged)), true)
  | MCloseReason _ | MOtherMisc _ => (skip, true)
  end.

(** ** [on_message] *)
Definition dispatch (p : Payload) (c : Connection) : Step * bool :=
  if port_forward_socket c then (skip, true)
  else
    match p with
    | PMouseEvent ev => (when (negb (is_authed_view_camera_conn c)) (mouse_event ev), true)
    | PPointerDeviceEvent ev => (when (negb (is_authed_view_camera_conn c)) (pointer_event ev), true)
    | PKeyEvent k => (when (negb (is_authed_view_camera_conn c)) (key_event k), true)
    | PClipboard cb =>
        (when (should_handle_text_clipboard_message c && clipboard_enabled c) (emit (UpdateClipboard [cb])), true)
    | PMultiClipboards cbs =>
        (when (should_handle_text_clipboard_message c && clipboard_enabled c) (emit (UpdateClipboard cbs)), true)
    | PCliprdr m => (when (windows b || unix_file_copy_paste b) (cliprdr m), true)
    | PFileAction fa => (file_action fa, true)
    | PFileResponse fr => (file_response fr, true)
    | PMisc (Some m) => misc_message m c
    | PMisc None => (skip, true)
    | PAudioFrame frame => (when (negb (disable_audio (opts c)) && audio_sender c) (emit (AudioData frame)), true)
    | PVoiceCallRequest true ts =>
        (upd (with_voice_call_request_timestamp (Some (if ts =? 0 then now e else ts))) >> emit (ToCm CmVoiceCallIncoming), true)
    | PVoiceCallRequest false _ => (close_voice_call, true)
    | PVoiceCallResponse => (skip, true)
    | PScreenshotRequest d => (emit (Screenshot d) >> refresh_video_display (Some (u64_of d)), true)
    | PTerminalAction a => (when (terminal_user_token c) (emit (Terminal a) >> emit (Send (RTerminal a))), true)
    | PLoginRequest | POther _ => (skip, true)
    end.

Definition scope_violation (family : string) (c : Connection) : Step * bool :=
  let first := bool_decide (family ∉ scope_violation_messages c) in
  (upd (with_scope_violation_messages ({[family]} ∪ scope_violation_messages c))
   >> when (first && scope_violation_alarm b) (emit (Alarm family))
   >> when (scope_violation_close b) (send_close_reason_no_retry "Connection not allowed" >> on_close true),
   negb (scope_violation_close b)).

(** Messages of the login, and all messages before it, are [LoginFlow]'s. *)
Definition on_message (p : Payload) (c : Connection) : Step * bool :=
  match p with
  | PMisc (Some (MCloseReason _)) => (on_close true, false)
  | PLoginRequest => (skip, true)
  | _ =>
      if authorized c then
        match authorized_scope_violation (windows b) (conn_type c) (scope_of p) with
        | Some family => scope_violation family c
        | None => dispatch p c
        end
      else (skip, true)
  end.

(** ** Orders of the connection manager *)
Inductive CmOrder :=
| OClose
| OCmErr (expected : bool)
| OChatMessage (text : bytes)
| OSwitchPermission (name : string) (enabled : bool)
| OClipboardFile (m : option bytes)
| OPrivacyModeState (s : PrivacyState)
| OSwitchSidesBack
| OVoiceCallResponse (accepted : bool)
| OCloseVoiceCall
| OReadJobInit (id : Z) (mine : bool) (result : option bytes)
| OFileBlock (id file_num : Z) (data : bytes) (compressed mine : bool)
| OFileReadDone (id file_num : Z) (mine : bool)
| OFileReadError (id file_num : Z) (err : string) (mine : bool)
| OFileDigest (id file_num last_modified file_size : Z) (is_resume mine : bool)
| OAllFiles (id : Z) (path : bytes) (ok mine : bool).

Definition set_permission (p : Permission) (enabled : bool) : Step :=
  upd (fun c => with_perms (set_perm p enabled (perms c)) c) >> emit (Send (RPermission p enabled)).

Definition switch_privacy (enabled : bool) : Step := reading (fun c => privacy_mode (perms c)) (fun before =>
  if negb enabled && held e then
    emit PrivacyOff
    >> match turn_off e with
       | Some true => emit (Send (RPrivacy PrvOffByPeer)) >> set_permission PrivacyMode enabled
       | _ => emit (Send (RPrivacy PrvOffFailed)) >> emit (ToCm (CmSwitchPermission "privacy_mode" before))
       end
  else set_permission PrivacyMode enabled).

Definition switch_permission (name : string) (enabled : bool) : Step :=
  if (name =? "keyboard")%string then
    set_permission Keyboard enabled
    >> subscribe_if CLIPBOARD_NAME can_sub_clipboard_service
    >> when (unix_file_copy_paste b) (subscribe_if FILE_CLIPBOARD_NAME can_sub_file_clipboard_service)
    >> subscribe_if NAME_CURSOR (fun c => enabled || show_remote_cursor (opts c))
  else if (name =? "clipboard")%string then
    set_permission Clipboard enabled >> subscribe_if CLIPBOARD_NAME can_sub_clipboard_service
  else if (name =? "audio")%string then
    set_permission Audio enabled >> reading authorized (fun a => when a subscribe_audio)
  else if (name =? "file")%string then
    set_permission File enabled
    >> when (unix_file_copy_paste b)
         (when (negb enabled) (emit EmptyFileClipboard) >> subscribe_if FILE_CLIPBOARD_NAME can_sub_file_clipboard_service)
  else if (name =? "restart")%string then set_permission Restart enabled
  else if (name =? "recording")%string then set_permission Recording enabled
  else if (name =? "block_input")%string then set_permission BlockInput enabled
  else if (name =? "privacy_mode")%string then switch_privacy enabled
  else skip.

Definition forget_job (id : Z) : Step := upd (fun c => with_cm_read_job_ids (cm_read_job_ids c ∖ {[id]}) c).
Definition if_cm_job (id : Z) (s : Step) : Step :=
  reading (fun c => bool_decide (id ∈ cm_read_job_ids c)) (fun known => when known s).

Definition from_cm (o : CmOrder) : Step * bool :=
  match o with
  | OClose =>
      (upd (with_chat_unanswered false) >> upd (with_file_transferred false)
       >> send_close_reason_no_retry "" >> on_close true, false)
  | OCmErr true => (skip, true)
  | OCmErr false => (on_close false, false)
  | OChatMessage text => (emit (Send (RChat text)) >> upd (with_chat_unanswered false), true)
  | OSwitchPermission name enabled => (switch_permission name enabled, true)
  | OClipboardFile m =>
      (when (windows b) (reading is_remote (fun r => when r
         match m with None => emit (Audit false) | Some m => emit (Send (RClip m)) end)), true)
  | OPrivacyModeState s => (emit (Send (RPrivacy s)), true)
  | OSwitchSidesBack => (emit (Send RSwitchBack), true)
  | OVoiceCallResponse accepted => (handle_voice_call accepted, true)
  | OCloseVoiceCall => (close_voice_call >> emit (Send (RVoiceCallRequest false)), true)
  | OReadJobInit id mine result =>
      (when mine (if_cm_job id
         match result with
         | None => forget_job id >> emit (Send (RError id "init" 0))
         | Some path => emit (Send (RDir id path)) >> emit (Audit false) >> upd (with_file_transferred true)
         end), true)
  | OFileBlock id num data compressed mine =>
      (when mine (if_cm_job id (emit (Send (RBlock id num data compressed)))), true)
  | OFileReadDone id num mine => (when mine (if_cm_job id (forget_job id >> emit (Send (RDone id num)))), true)
  | OFileReadError id num err mine => (when mine (if_cm_job id (forget_job id >> emit (Send (RError id err num)))), true)
  | OFileDigest id num lm size resume mine =>
      (when mine (if_cm_job id (emit (Send (RDigest id num lm size resume)))), true)
  | OAllFiles id path ok mine =>
      (when mine (if ok then emit (Send (RDir id path)) else emit (Send (RError id "all files" (-1)))), true)
  end.

(** ** The timer: disconnecting an idle viewer (times in seconds) *)
Definition second_timer (c : Connection) : Step * bool :=
  match auto_disconnect_timer c with
  | Some (instant, minute) =>
      if minute * 60 <? now e - instant then
        (send_close_reason_no_retry "Connection failed due to inactivity" >> on_close true, false)
      else (skip, true)
  | None => (skip, true)
  end.

Inductive Event := FromPeer (p : Payload) | FromCm (o : CmOrder) | Tick.

Definition handler (ev : Event) (c : Connection) : Step * bool :=
  match ev with FromPeer p => on_message p c | FromCm o => from_cm o | Tick => second_timer c end.
End Handlers.

(** The connection's loop: each event with what the operating system answers;
    it ends when a handler says so. *)
Fixpoint session (b : Build) (c : Connection) (evs : list (Sys * Event)) : Connection * list (Connection * Effect) :=
  match evs with
  | [] => (c, [])
  | (e, ev) :: evs =>
      let '(s, go) := handler b e ev c in
      let '(c', out) := s c in
      let '(c'', outs) := if go then session b c' evs else (c', []) in
      (c'', map (pair c) out ++ outs)
  end.

(** ** What an effect needs *)
Definition remote_session (c : Connection) : Prop := authorized c = true /\ conn_type c = Some Remote.

Definition fs_permitted (b : Build) (c : Connection) (cmd : FsCmd) : Prop :=
  match cmd with
  | WriteBlock _ _ _ _ | WriteDone _ _ | WriteError _ _ _ | CheckDigest _ _ _ _ _ _ =>
      conn_type c = Some Remote \/ conn_type c = Some FileTransfer
  | RemoveDir _ _ _ | RemoveFile _ _ _ | CreateDir _ _ | Rename _ _ _ | ReadFile _ _ _ _ _ =>
      file_transfer c = true /\ one_way_file_transfer b = false
  | _ => file_transfer c = true
  end.

Definition permitted (b : Build) (c : Connection) (x : Effect) : Prop :=
  match x with
  | Mouse _ simulate _ =>
      remote_session c /\ if simulate then peer_keyboard_enabled c = true else show_my_cursor (opts c) = true
  | Pointer _ | Key _ _ => remote_session c /\ peer_keyboard_enabled c = true
  | Block _ => remote_session c /\ keyboard (perms c) = true /\ block_input (perms c) = true
  | UpdateClipboard _ => remote_session c /\ clipboard_enabled c = true
  | Reboot => remote_session c /\ restart (perms c) = true
  | PrivacyOn => remote_session c /\ privacy_mode (perms c) = true
  | Elevate => remote_session c /\ keyboard (perms c) = true
  | ChangeResolution _ _ _ => authorized c = true /\ keyboard (perms c) = true /\ view_camera c = false
  | ServeClip _ | RunSwitchSides _ => remote_session c
  | VirtualDisplay _ => authorized c = true /\ view_camera c = false
  | AudioThread _ | AudioData _ => authorized c = true /\ disable_audio (opts c) = false
  | Terminal _ => authorized c = true /\ terminal_user_token c = true
  | Screenshot _ => authorized c = true /\ (conn_type c = Some Remote \/ conn_type c = Some ViewCamera)
  | ToCm (CmFs cmd) => authorized c = true /\ fs_permitted b c cmd
  | ToCm (CmClipboardFileEnabled enabled) => enabled = true -> file (perms c) = true
  | ReadJob _ _ from_memory =>
      authorized c = true /\ one_way_file_transfer b = false /\ (from_memory = false -> file_transfer c = true)
  | Lock => lock_after_session_end (opts c) = true /\ keyboard (perms c) = true
  | _ => True
  end.

(** What no message of the viewer changes. *)
Definition frame (c0 c : Connection) : Prop :=
  perms c = perms c0 /\ conn_type c = conn_type c0 /\ authorized c = authorized c0 /\ view_camera c = view_camera c0 /\
  file_transfer c = file_transfer c0 /\ terminal_user_token c = terminal_user_token c0 /\ terminal c = terminal c0.
Definition frame_opts (c0 c : Connection) : Prop := frame c0 c /\ opts c = opts c0.

Lemma frame_refl c : frame c c.
Proof. by split_and!. Qed.
Lemma frame_trans c0 c1 c2 : frame c0 c1 -> frame c1 c2 -> frame c0 c2.
Proof. unfold frame. intuition congruence. Qed.

(** Updates keep the frame, effects without a condition are permitted. *)
Ltac guards :=
  unfold remote_session, fs_permitted, peer_keyboard_enabled, clipboard_enabled, is_authed_remote_conn,
    is_authed_view_camera_conn, should_handle_text_clipboard_message, id in *;
  repeat match goal with
  | H : _ && _ = true |- _ => apply andb_true_iff in H as [? ?]
  | H : _ || _ = false |- _ => apply orb_false_iff in H as [? ?]
  | H : negb _ = true |- _ => apply negb_true_iff in H
  | H : negb _ = false |- _ => apply negb_false_iff in H
  | H : bool_decide _ = true |- _ => apply bool_decide_eq_true in H
  | H : bool_decide _ = false |- _ => apply bool_decide_eq_false in H
  end.
Ltac framed :=
  unfold permitted in *; guards; simpl in *; guards; unfold frame_opts, frame in *; rewrite ?andb_true_iff, ?negb_true_iff;
  intuition congruence.
Ltac steps := repeat first [progress cbv zeta | step]; try exact I; try framed.

Section Permitted.
Context (b : Build) (e : Sys) (c0 : Connection).
Hypothesis Hauth : authorized c0 = true.

Lemma subscribe_keeps (P : Connection -> Prop) E name sub :
  (forall c x, P c -> P (with_subs x c)) -> keeps P E (subscribe b name sub).
Proof. intros H. unfold subscribe. repeat step. by apply H. Qed.

Lemma subscribe_frame E name sub : keeps (frame c0) E (subscribe b name sub).
Proof. apply subscribe_keeps. intros c x Hc. framed. Qed.
Lemma subscribe_frame_opts E name sub : keeps (frame_opts c0) E (subscribe b name sub).
Proof. apply subscribe_keeps. intros c x Hc. framed. Qed.
Lemma subscribe_if_frame E name f : keeps (frame c0) E (subscribe_if b name f).
Proof. unfold subscribe_if. step. apply subscribe_frame. Qed.

Lemma mouse_permitted ev : conn_type c0 = Some Remote -> keeps (frame_opts c0) (permitted b c0) (mouse_event e ev).
Proof.
  intros Hr. unfold mouse_event, update_auto_disconnect_timer. steps.
Qed.

Lemma pointer_permitted ev : conn_type c0 = Some Remote -> keeps (frame_opts c0) (permitted b c0) (pointer_event e ev).
Proof. intros Hr. unfold pointer_event, update_auto_disconnect_timer. steps. Qed.

Lemma key_permitted k : conn_type c0 = Some Remote -> keeps (frame_opts c0) (permitted b c0) (key_event b e k).
Proof.
  intros Hr. unfold key_event, update_auto_disconnect_timer, input_key. steps.
  unfold record_modifier. destruct (modifier_key e k); framed.
Qed.

Lemma read_job_permitted id count path memory : one_way_file_transfer b = false ->
  (memory = false -> file_transfer c0 = true) ->
  keeps (frame_opts c0) (permitted b c0) (create_and_start_read_job b id count path memory).
Proof. intros H1 H2. unfold create_and_start_read_job. steps. Qed.

Lemma action_permitted fa : file_transfer c0 = true ->
  one_way_file_transfer b = false \/ one_way_id fa = None ->
  keeps (frame_opts c0) (permitted b c0) (run_action b e fa).
Proof.
  intros Hf Hw. unfold run_action, send_files, cancel, send_fs, log.
  destruct fa; simpl in Hw; steps; try (apply read_job_permitted; [by destruct Hw|done]); destruct Hw; framed.
Qed.

Lemma file_permitted fa : keeps (frame_opts c0) (permitted b c0) (file_action b e fa).
Proof.
  unfold file_action. apply keeps_reading. intros c Hc. apply keeps_when. unfold handles_action. intros H.
  destruct (delayed_read_dir (id c)); [steps|]. destruct fa as [fa|]; [|step].
  destruct (one_way_file_transfer b) eqn:Ew.
  - destruct (one_way_id fa) as [i|] eqn:Ei; [steps|]. apply action_permitted; [|by right].
    apply orb_true_iff in H as [H|H]; [framed|]. destruct fa; try done.
  - apply orb_true_iff in H as [H|H]; [apply action_permitted; [framed|by left]|].
    destruct fa as [| | |i path hidden num type| | | | | | |]; try done. simpl. unfold send_files. rewrite H.
    steps; by apply read_job_permitted.
Qed.

Lemma response_permitted fr : conn_type c0 = Some Remote \/ conn_type c0 = Some FileTransfer ->
  keeps (frame_opts c0) (permitted b c0) (file_response fr).
Proof. intros H. unfold file_response, send_fs. steps. Qed.

Lemma cliprdr_permitted m : conn_type c0 = Some Remote -> keeps (frame_opts c0) (permitted b c0) (cliprdr b m).
Proof. intros H. unfold cliprdr. steps. Qed.

Lemma privacy_permitted on : keeps (frame c0) (permitted b c0) (toggle_privacy_mode e on).
Proof.
  unfold toggle_privacy_mode, turn_on_privacy, turn_off_privacy, turn_off_privacy_to_msg. steps.
Qed.

Lemma audio_keeps E : keeps (frame c0) E (subscribe_audio b).
Proof. unfold subscribe_audio. repeat step; apply subscribe_frame. Qed.

Lemma set_opt_keeps E f v : keeps (frame c0) E (set_opt f v).
Proof. unfold set_opt. steps. Qed.

Lemma options_permitted o : conn_type c0 = Some Remote \/ SessionScope.block_input o = 0 ->
  keeps (frame c0) (permitted b c0) (update_options b e o).
Proof.
  intros Ho. unfold update_options, update_quality, on_bool, subscribe_cursor, update_terminal_persistence.
  repeat first [apply audio_keeps | apply set_opt_keeps | apply subscribe_frame | apply subscribe_if_frame
    | apply (privacy_permitted true) | apply (privacy_permitted false) | progress cbv zeta | step]; try exact I.
  - unfold permitted, file_transfer_enabled. intros [? _]%andb_true_iff. framed.
  - unfold update_block_input, on_bool. repeat step; try exact I.
    destruct Ho as [Ho|Ho]; [framed|]. rewrite Ho in *. done.
  - framed.
Qed.

Lemma resolution_permitted d w h : view_camera c0 = false ->
  keeps (frame_opts c0) (permitted b c0) (change_resolution d w h).
Proof. intros H. unfold change_resolution. steps. Qed.

Lemma switch_display_permitted d w h : keeps (frame_opts c0) (permitted b c0) (handle_switch_display e d w h).
Proof.
  unfold handle_switch_display. repeat step; try exact I; try framed. apply resolution_permitted. framed.
Qed.

Lemma closing_permitted lock : keeps (frame_opts c0) (permitted b c0) (on_close lock).
Proof. clear Hauth. unfold on_close. steps. by destruct (_ || _). Qed.

Lemma sub_monitor_permitted : keeps (frame c0) (permitted b c0) (try_sub_monitor_services b e).
Proof. unfold try_sub_monitor_services. steps. Qed.
Lemma voice_permitted : keeps (frame c0) (permitted b c0) (close_voice_call b).
Proof. unfold close_voice_call. steps. apply subscribe_frame. Qed.
End Permitted.

(** What is shown of a handler: its effects are permitted before it, and the
    frame is kept. *)
Definition safe (b : Build) (c0 : Connection) (s : Step) : Prop :=
  frame c0 (s c0).1 /\ Forall (permitted b c0) (s c0).2.

Lemma safe_keeps b c0 s : keeps (frame c0) (permitted b c0) s -> safe b c0 s.
Proof. intros H. apply (H c0), frame_refl. Qed.
Lemma safe_keeps_opts b c0 s : keeps (frame_opts c0) (permitted b c0) s -> safe b c0 s.
Proof. intros H. destruct (H c0) as [[? _] ?]; [by split; [apply frame_refl|]|]. by split. Qed.

(** A message that passes the scope check. *)
Lemma scope_remote w c p : authorized_scope_violation w (conn_type c) (scope_of p) = None ->
  match p with
  | PMouseEvent _ | PPointerDeviceEvent _ | PKeyEvent _ | PScreenshotRequest _ =>
      conn_type c = Some Remote \/ conn_type c = Some ViewCamera
  | PFileResponse _ | PFileAction _ => conn_type c = Some Remote \/ conn_type c = Some FileTransfer
  | PCliprdr _ | PMisc (Some MRestartRemoteDevice) | PMisc (Some (MSwitchSidesRequest _))
  | PMisc (Some (MElevationRequest _)) => conn_type c = Some Remote
  | _ => True
  end.
Proof. destruct (conn_type c) as [[]|], p as [| | | | | | | | | [[]|] | | | | | | ]; simpl; auto; done. Qed.

Section Safe.
Context (b : Build) (e : Sys) (c : Connection).
Hypothesis Hauth : authorized c = true.

Lemma option_block_input o o' : updated_option (conn_type c) o = Some o' ->
  conn_type c = Some Remote \/ SessionScope.block_input o' = 0.
Proof.
  destruct (conn_type c) as [t|] eqn:E; [|done]. intros H. pose proof (applied_confined t o o' (or_introl H)) as Hc.
  destruct t; [by left|done|done|..]; right; destruct Hc as [-> _]; done.
Qed.

Lemma misc_safe m : authorized_scope_violation (windows b) (conn_type c) (scope_of (PMisc (Some m))) = None ->
  safe b c (misc_message b e m c).1.
Proof.
  intros Hs%scope_remote. destruct m; simpl in Hs; unfold misc_message; cbn [fst];
    try (apply safe_keeps_opts; unfold update_auto_disconnect_timer, refresh_video_display; steps; fail).
  - by apply safe_keeps_opts, switch_display_permitted.
  - apply safe_keeps_opts. unfold capture_displays. repeat step; [exact I|apply subscribe_frame_opts].
  - apply safe_keeps. steps. by apply privacy_permitted.
  - apply safe_keeps. destruct (updated_option (conn_type c) o) eqn:E; [|step].
    eapply options_permitted; [done|by eapply option_block_input].
  - destruct uuid; cbn [fst]; apply safe_keeps_opts; [|step]. repeat step; [framed|by apply closing_permitted].
  - apply safe_keeps_opts. repeat step. apply resolution_permitted; framed.
  - apply safe_keeps_opts. repeat step. apply resolution_permitted; framed.
  - destruct (windows b && session_known e); [|apply safe_keeps, keeps_skip].
    destruct (other_session e sid); [apply safe_keeps, keeps_skip|].
    destruct (file_transfer c) eqn:Ef; [|destruct (view_camera c || terminal c); apply safe_keeps; [apply keeps_skip|by apply sub_monitor_permitted]].
    apply safe_keeps_opts. cbn [fst]. destruct (delayed_read_dir c) as [[dir hidden]|]; unfold send_fs; steps.
Qed.

Lemma dispatch_safe p : authorized_scope_violation (windows b) (conn_type c) (scope_of p) = None ->
  safe b c (dispatch b e p c).1.
Proof.
  intros Hs. unfold dispatch. destruct (port_forward_socket c); [apply safe_keeps, keeps_skip|].
  pose proof (scope_remote _ _ _ Hs) as Hr.
  destruct p as [|ev|ev|k|cb|cbs|m|fa|fr|[m|]|frame|[] ts| |d|a|u]; cbn [fst];
    try (apply safe_keeps_opts; unfold refresh_video_display; steps; fail).
  - apply safe_keeps_opts. repeat step. apply mouse_permitted; [done|]. destruct Hr; framed.
  - apply safe_keeps_opts. repeat step. apply pointer_permitted; [done|]. destruct Hr; framed.
  - apply safe_keeps_opts. repeat step. apply key_permitted; [done|]. destruct Hr; framed.
  - apply safe_keeps_opts. repeat step. by apply cliprdr_permitted.
  - by apply safe_keeps_opts, file_permitted.
  - by apply safe_keeps_opts, response_permitted.
  - by apply misc_safe.
  - by apply safe_keeps, voice_permitted.
Qed.

Lemma violation_safe family : safe b c (scope_violation b family c).1.
Proof.
  apply safe_keeps_opts. unfold scope_violation, send_close_reason_no_retry. cbn [fst].
  repeat step; try exact I; try apply closing_permitted; framed.
Qed.
End Safe.

Lemma message_safe b e c p : safe b c (on_message b e p c).1.
Proof.
  assert (safe b c (skip : Step)) as Hskip by apply safe_keeps, keeps_skip.
  assert (safe b c (if authorized c
      then match authorized_scope_violation (windows b) (conn_type c) (scope_of p) with
           | Some family => scope_violation b family c | None => dispatch b e p c end
      else (skip, true)).1) as Hmain.
  { destruct (authorized c) eqn:Ha; [|done].
    destruct (authorized_scope_violation _ _ _) eqn:Ev; [by apply violation_safe|by apply dispatch_safe]. }
  destruct p as [| | | | | | | | |[[]|]| | | | | |]; try exact Hmain; [exact Hskip|].
  apply safe_keeps_opts, closing_permitted.
Qed.


(** Orders have no effect that needs a permission, except locking the screen. *)
Lemma order_permitted b e c0 o : Forall (permitted b c0) ((from_cm b e o).1 c0).2.
Proof.
  assert (forall s, keeps (fun _ => True) (permitted b c0) s -> Forall (permitted b c0) (s c0).2) as Hany by (intros s H; by apply H).
  assert (forall s, keeps (frame_opts c0) (permitted b c0) s -> Forall (permitted b c0) (s c0).2) as Hframe
    by (intros s H; apply H; split; [apply frame_refl|done]).
  destruct o as [|[]| | | | | | | | | | | | |]; unfold from_cm; cbn [fst];
    try (apply Hframe; unfold send_close_reason_no_retry; repeat step; try exact I; try apply closing_permitted; framed);
    apply Hany; unfold switch_permission, switch_privacy, set_permission, handle_voice_call, close_voice_call,
      if_cm_job, forget_job, subscribe_if, subscribe_audio, subscribe; repeat step; exact I.
Qed.

Lemma timer_permitted b e c0 : Forall (permitted b c0) ((second_timer e c0).1 c0).2.
Proof.
  unfold second_timer. destruct (auto_disconnect_timer c0) as [[i m]|]; [|constructor].
  destruct (_ <? _); [|constructor]. cbn [fst]. apply (keeps_then (frame_opts c0)).
  - by apply keeps_emit.
  - apply closing_permitted.
  - split; [apply frame_refl|done].
Qed.

Lemma handler_permitted b e ev c : Forall (permitted b c) ((handler b e ev c).1 c).2.
Proof. destruct ev; [apply message_safe|apply order_permitted|apply timer_permitted]. Qed.

(** [C4] Nothing without permission: in a session, whatever the viewer sends
    and in whatever order the device's user changes permissions, each thing the
    device does is covered by the state at that moment.  Keys, mouse and pointer
    are simulated only in a remote-control session with the keyboard permission
    on and not disabled; the clipboard is set only with its permission; files
    are read, created, renamed or removed only in a file-transfer session and
    never under one-way transfer; blocking input, privacy mode, restarting,
    elevation and resolution each need their permission. *)
Theorem session_permitted b evs : forall c, Forall (fun ce => permitted b ce.1 ce.2) (session b c evs).2.
Proof.
  induction evs as [|[e ev] evs IH]; intros c; [constructor|]. simpl.
  pose proof (handler_permitted b e ev c) as H. destruct (handler b e ev c) as [s go]. simpl in H.
  destruct (s c) as [c' out]. simpl in H. assert (Forall (fun ce => permitted b ce.1 ce.2) (map (pair c) out)) as Hm
    by (rewrite Forall_map; exact H).
  destruct go.
  - specialize (IH c'). destruct (session b c' evs) as [c'' outs]. simpl. by apply Forall_app.
  - simpl. by rewrite app_nil_r.
Qed.

(** ** What [subscribe] does to the set *)
Definition new_subs (b : Build) (name : string) (sub : bool) (s : gset string) : gset string :=
  if bool_decide (name ∈ services b) then if sub then {[name]} ∪ s else s ∖ {[name]} else s.

Lemma with_subs_id c : with_subs (subs c) c = c.
Proof. by destruct c. Qed.

Lemma subscribe_eq b name sub c : subscribe b name sub c = (with_subs (new_subs b name sub (subs c)) c, []).
Proof.
  unfold subscribe, new_subs. case_bool_decide; simpl; [done|]. by rewrite with_subs_id.
Qed.

Lemma elem_new_subs_ne b name sub s n : n <> name -> n ∈ new_subs b name sub s <-> n ∈ s.
Proof. intros H. unfold new_subs. case_bool_decide; [|done]. destruct sub; set_solver. Qed.
Lemma elem_new_subs_eq b name sub s :
  name ∈ new_subs b name sub s <-> if bool_decide (name ∈ services b) then sub = true else name ∈ s.
Proof. unfold new_subs. case_bool_decide; [|done]. destruct sub; set_solver. Qed.

Lemma then_fst a b c : ((a >> b) c).1 = (b (a c).1).1.
Proof. unfold then_. destruct (a c) as [c1 e1]. simpl. by destruct (b c1). Qed.

(** ** A revoked permission stays revoked *)
Definition perm_name (p : Permission) : string :=
  match p with
  | Keyboard => "keyboard" | Clipboard => "clipboard" | Audio => "audio" | File => "file"
  | Restart => "restart" | Recording => "recording" | BlockInput => "block_input" | PrivacyMode => "privacy_mode"
  end.
(** What a session does under a permission: the effects, and the services it is
    subscribed to. *)
Definition needs (p : Permission) (x : Effect) : bool :=
  match p, x with
  | Keyboard, (Mouse _ true _ | Pointer _ | Key _ _ | Block _ | ChangeResolution _ _ _ | Elevate | Lock) => true
  | Clipboard, UpdateClipboard _ => true
  | File, ToCm (CmClipboardFileEnabled enabled) => enabled
  | Restart, Reboot => true
  | BlockInput, Block _ => true
  | PrivacyMode, PrivacyOn => true
  | _, _ => false
  end.
Definition gated (b : Build) (p : Permission) (n : string) : Prop :=
  n ∈ services b /\
  match p with
  | Keyboard | Clipboard => n = CLIPBOARD_NAME
  | Audio => n = AUDIO_NAME
  | File => unix_file_copy_paste b = true /\ n = FILE_CLIPBOARD_NAME
  | Restart | Recording | BlockInput | PrivacyMode => False
  end.
Definition grants (p : Permission) (ev : Event) : bool :=
  match ev with FromCm (OSwitchPermission name true) => bool_decide (name = perm_name p) | _ => false end.

Lemma perm_set p q en ps : perm p (set_perm q en ps) = if decide (p = q) then en else perm p ps.
Proof. by destruct p. Qed.

(** Without the permission, and without its services. *)
Definition off (p : Permission) (N : string -> Prop) (c : Connection) : Prop :=
  perm p (perms c) = false /\ forall n, N n -> n ∉ subs c.

Section Revoked.
Context (b : Build) (e : Sys) (p : Permission).
Let keep s := keeps (off p (gated b p)) (fun _ => True) s.

Lemma subscribe_off name sub : (gated b p name -> sub = false) -> keep (subscribe b name sub).
Proof.
  intros H c [Hp Hn]. rewrite subscribe_eq. split; [|constructor]. split; [done|]. intros n Hg. simpl.
  destruct (decide (n = name)) as [->|Hne]; [|rewrite elem_new_subs_ne by done; by apply Hn].
  rewrite elem_new_subs_eq, bool_decide_true, (H Hg) by apply Hg. done.
Qed.
Lemma subscribe_free name sub : name ∈ [NAME_CURSOR; NAME_POS; NAME_WINDOW_FOCUS] -> keep (subscribe b name sub).
Proof.
  intros H. apply subscribe_off. intros [_ Hg]. exfalso. apply list_elem_of_In in H.
  destruct H as [<-|[<-|[<-|[]]]]; destruct p; try done; by destruct Hg.
Qed.
Lemma subscribe_clipboard c : off p (gated b p) c -> keep (subscribe b CLIPBOARD_NAME (can_sub_clipboard_service b c)).
Proof.
  intros [Hp _]. apply subscribe_off. intros [_ Hg]. unfold can_sub_clipboard_service, clipboard_enabled, peer_keyboard_enabled.
  destruct p; simpl in Hp; try rewrite Hp; simpl; rewrite ?andb_false_r; try done; by destruct Hg.
Qed.
Lemma subscribe_files c : off p (gated b p) c -> keep (subscribe b FILE_CLIPBOARD_NAME (can_sub_file_clipboard_service b c)).
Proof.
  intros [Hp _]. apply subscribe_off. intros [_ Hg]. unfold can_sub_file_clipboard_service, clipboard_enabled, file_transfer_enabled.
  destruct p; simpl in Hp; try rewrite Hp; simpl; rewrite ?andb_false_r; try done; by destruct Hg.
Qed.
Lemma subscribe_sound c sub : off p (gated b p) c -> (audio_enabled c = false -> sub = false) -> keep (subscribe b AUDIO_NAME sub).
Proof.
  intros [Hp _] H. apply subscribe_off. intros [_ Hg]. apply H. unfold audio_enabled.
  destruct p; simpl in Hp; try rewrite Hp; try done; by destruct Hg.
Qed.
Lemma start_off : keep (try_sub_monitor_services b e).
Proof.
  unfold keep, try_sub_monitor_services. repeat step; try done. split; [apply H1|]. intros n Hg. simpl. destruct H1 as [Hp Hn].
  rewrite not_elem_of_union. split; [by apply Hn|]. rewrite elem_of_difference. intros [_ Hno]. apply Hno. unfold noperms, id.
  destruct Hg as [_ Hg].
  unfold can_sub_clipboard_service, can_sub_file_clipboard_service, clipboard_enabled, peer_keyboard_enabled, file_transfer_enabled, audio_enabled.
  destruct p; simpl in *; try done; try match type of Hg with _ /\ _ => destruct Hg as [Hu Hg]; rewrite Hu end; subst; rewrite Hp; simpl; rewrite ?andb_false_r; simpl; set_solver.
Qed.

Ltac subscription :=
  match goal with
  | |- keeps _ _ (subscribe _ CLIPBOARD_NAME _) => eapply subscribe_clipboard; eassumption
  | |- keeps _ _ (subscribe _ FILE_CLIPBOARD_NAME _) => eapply subscribe_files; eassumption
  | |- keeps _ _ (subscribe _ AUDIO_NAME _) =>
      first [by eapply subscribe_sound | eapply subscribe_sound; [eassumption|exact (fun H => H)]
        | eapply subscribe_sound; [eassumption|]; unfold id in *; by intros ->]
  | |- keeps _ _ (subscribe _ _ _) => apply subscribe_free; apply list_elem_of_In; simpl; tauto
  end.
Ltac offs :=
  repeat first
    [ subscription
    | progress unfold subscribe_if, subscribe_cursor, subscribe_audio, set_opt, update_auto_disconnect_timer, send_fs, log
    | progress cbv zeta | step ]; try exact I; try assumption.

(** Nothing a viewer's message or an order does that needs the permission: by
    what is permitted, and for copied files by the permission itself. *)
Lemma options_off o : keeps (off p (gated b p)) (fun _ => True) (update_options b e o).
Proof.
  unfold update_options, update_quality, on_bool, update_block_input, update_terminal_persistence, on_bool,
    turn_on_privacy, turn_off_privacy, turn_off_privacy_to_msg.
  offs.
Qed.
Lemma voice_off : keeps (off p (gated b p)) (fun _ => True) (close_voice_call b).
Proof. unfold close_voice_call. offs. Qed.
Lemma close_off lock : keeps (off p (gated b p)) (fun _ => True) (on_close lock).
Proof. unfold on_close. offs. Qed.
Lemma file_off fa : keeps (off p (gated b p)) (fun _ => True) (file_action b e fa).
Proof. unfold file_action, run_action, send_files, create_and_start_read_job, cancel. offs. Qed.

Lemma misc_off m c : keeps (off p (gated b p)) (fun _ => True) (misc_message b e m c).1.
Proof.
  destruct m; simpl; try (unfold handle_switch_display, change_resolution, refresh_video_display, capture_displays,
    toggle_privacy_mode, turn_on_privacy, turn_off_privacy, turn_off_privacy_to_msg; offs; fail).
  - destruct (updated_option (conn_type c) o); [apply options_off|apply keeps_skip].
  - destruct uuid; simpl; [|apply keeps_skip]. apply keeps_then; [by apply keeps_emit|apply close_off].
  - destruct (windows b && _); [|apply keeps_skip]. destruct (other_session e sid); [apply keeps_skip|].
    destruct (file_transfer c); simpl; [destruct (delayed_read_dir c) as [[d h]|]; offs|].
    destruct (view_camera c || terminal c); [apply keeps_skip|apply start_off].
Qed.
Lemma message_off m c : keeps (off p (gated b p)) (fun _ => True) (on_message b e m c).1.
Proof.
  assert (keeps (off p (gated b p)) (fun _ => True) (if authorized c
      then match authorized_scope_violation (windows b) (conn_type c) (scope_of m) with
           | Some family => scope_violation b family c | None => dispatch b e m c end
      else (skip, true)).1) as Hmain.
  { destruct (authorized c); [|apply keeps_skip]. destruct (authorized_scope_violation _ _ _) as [family|].
    { unfold scope_violation, send_close_reason_no_retry. cbn [fst]. repeat step; try exact I; [done|apply close_off]. }
    unfold dispatch. destruct (port_forward_socket c); [apply keeps_skip|].
    destruct m as [| | | | | | | | |[m|]| |[]| | | |]; cbn [fst];
      try (unfold mouse_event, pointer_event, cliprdr, file_response, refresh_video_display; offs; fail).
    - unfold key_event, input_key. offs. unfold record_modifier. by destruct (modifier_key e e0).
    - apply file_off.
    - apply misc_off.
    - apply voice_off. }
  destruct m as [| | | | | | | | |[[]|]| | | | | |]; try exact Hmain; [apply keeps_skip|apply close_off].
Qed.

(** An order can only switch the permission off again. *)
Lemma set_permission_off q en : (q = p -> en = false) -> keeps (off p (gated b p)) (fun _ => True) (set_permission q en).
Proof.
  intros H. unfold set_permission. repeat step; [|done]. destruct H0 as [Hp Hn]. split; [|done]. simpl. rewrite perm_set.
  destruct (decide (p = q)); [by apply H|done].
Qed.
Lemma switch_off name en : (name = perm_name p -> en = false) -> keeps (off p (gated b p)) (fun _ => True) (switch_permission b e name en).
Proof.
  intros H. unfold switch_permission, switch_privacy.
  repeat match goal with |- keeps _ _ (if String.eqb ?x ?y then _ else _) =>
    destruct (String.eqb_spec x y) as [->|]; [|] end;
  repeat first [apply set_permission_off; intros <-; by apply H | progress offs].
Qed.
Lemma order_off o : grants p (FromCm o) = false -> keeps (off p (gated b p)) (fun _ => True) (from_cm b e o).1.
Proof.
  intros Hg. destruct o as [|[]| |name en| | | | | | | | | | |]; unfold from_cm; cbn [fst];
    try (unfold send_close_reason_no_retry, if_cm_job, forget_job; offs; fail).
  - unfold send_close_reason_no_retry. repeat step; try exact I; try done. apply close_off.
  - apply close_off.
  - apply switch_off. intros ->. destruct en; [|done]. simpl in Hg. by rewrite bool_decide_true in Hg.
  - unfold handle_voice_call. offs.
  - step; [apply voice_off|by step].
Qed.
Lemma handler_off ev c : grants p ev = false -> keeps (off p (gated b p)) (fun _ => True) (handler b e ev c).1.
Proof.
  intros Hg. destruct ev as [m|o|]; [apply message_off|by apply order_off|]. simpl.
  unfold second_timer, send_close_reason_no_retry. destruct (auto_disconnect_timer c) as [[i m]|]; [|apply keeps_skip].
  destruct (_ <? _); [|apply keeps_skip]. cbn [fst]. step; [by step|apply close_off].
Qed.
End Revoked.

Lemma permitted_needs b c p x : permitted b c x -> needs p x = true -> perm p (perms c) = true.
Proof.
  destruct p, x; try done; simpl; guards; try (intros; intuition; fail).
  all: try destruct simulate; try (destruct d; try done; tauto); try done; intros [_ H] _; by apply andb_true_iff in H as [? _].
Qed.

Lemma session_off b p evs : forall c, off p (gated b p) c -> Forall (fun ev => grants p ev.2 = false) evs ->
  Forall (fun ce => needs p ce.2 = false) (session b c evs).2 /\ off p (gated b p) (session b c evs).1.
Proof.
  induction evs as [|[e ev] evs IH]; intros c Hp Hg; [by split|]. inversion Hg as [|?? Hg1 Hg2]; subst. simpl in Hg1. simpl.
  pose proof (handler_permitted b e ev c) as H. destruct (handler_off b e p ev c Hg1 c Hp) as [Hoff _].
  destruct (handler b e ev c) as [s go]. simpl in H, Hoff. destruct (s c) as [c' out]. simpl in H, Hoff.
  assert (Forall (fun ce => needs p ce.2 = false) (map (pair c) out)) as Hm.
  { rewrite Forall_map. eapply Forall_impl; [exact H|]. intros x Hx. simpl.
    destruct (needs p x) eqn:En; [|done]. destruct Hp as [Hp _]. rewrite (permitted_needs b c p x Hx En) in Hp. done. }
  destruct go.
  - specialize (IH c' Hoff Hg2). destruct (session b c' evs) as [c'' outs]. simpl in *.
    split; [apply Forall_app|]; tauto.
  - simpl. by rewrite app_nil_r.
Qed.

(** Switching off takes the subscriptions away at once. *)
Section Switched.
Context (b : Build) (e : Sys) (p : Permission).

Lemma set_now : triple (fun _ => True) (set_permission p false) (fun _ => True) (fun c => perm p (perms c) = false).
Proof. intros c _. split; [|by repeat constructor]. simpl. rewrite perm_set. by rewrite decide_True. Qed.
Lemma set_authorized : triple (fun c => authorized c = true) (set_permission p false) (fun _ => True)
  (fun c => perm p (perms c) = false /\ authorized c = true).
Proof. intros c H. split; [|by repeat constructor]. split; [|done]. simpl. rewrite perm_set. by rewrite decide_True. Qed.
Lemma drop_now n f : (forall n', gated b p n' -> n' = n) -> (forall c, perm p (perms c) = false -> f c = false) ->
  triple (fun c => perm p (perms c) = false) (subscribe_if b n f) (fun _ => True) (off p (gated b p)).
Proof.
  intros Hn Hf c Hp. unfold subscribe_if, reading. rewrite subscribe_eq. split; [|constructor]. split; [done|].
  intros n' Hg. pose proof (Hn n' Hg) as ->. simpl. rewrite elem_new_subs_eq, bool_decide_true, (Hf c Hp) by apply Hg. done.
Qed.
Lemma nothing_gated c : (forall n, ~ gated b p n) -> perm p (perms c) = false -> off p (gated b p) c.
Proof. intros H Hp. split; [done|]. intros n Hn. by apply H in Hn. Qed.
End Switched.

Lemma keyboard_off b e : triple (fun _ => True) (switch_permission b e "keyboard" false) (fun _ => True) (off Keyboard (gated b Keyboard)).
Proof.
  unfold switch_permission. simpl. eapply triple_then; [apply (set_now Keyboard)|]. eapply triple_then.
  - apply drop_now; [by intros n [_ ->]|]. intros c H. simpl in H. unfold can_sub_clipboard_service, peer_keyboard_enabled. rewrite H. simpl. by rewrite andb_false_r.
  - fold (keeps (off Keyboard (gated b Keyboard)) (fun _ => True)). apply keeps_then; unfold subscribe_if; repeat step.
    + by apply subscribe_files.
    + apply subscribe_free, list_elem_of_In. simpl. tauto.
Qed.
Lemma clipboard_off b e : triple (fun _ => True) (switch_permission b e "clipboard" false) (fun _ => True) (off Clipboard (gated b Clipboard)).
Proof.
  unfold switch_permission. simpl. eapply triple_then; [apply (set_now Clipboard)|]. apply drop_now; [by intros n [_ ->]|].
  intros c H. simpl in H. unfold can_sub_clipboard_service, clipboard_enabled. by rewrite H.
Qed.
Lemma audio_off b e : triple (fun c => authorized c = true) (switch_permission b e "audio" false) (fun _ => True) (off Audio (gated b Audio)).
Proof.
  unfold switch_permission. simpl. eapply triple_then; [apply (set_authorized Audio)|]. intros c [H Ha]. unfold reading. rewrite Ha. simpl in *.
  assert (subscribe_audio b c = subscribe_if b AUDIO_NAME audio_enabled c) as ->.
  { unfold subscribe_audio, subscribe_if, reading, id, audio_enabled. rewrite H. simpl. rewrite orb_true_r. by destruct (is_authed_view_camera_conn c). }
  revert c H Ha. intros c H _. apply drop_now; [by intros n [_ ->]| |done]. intros c' H'. simpl in H'. unfold audio_enabled. by rewrite H'.
Qed.
Lemma file_off_now b e : triple (fun _ => True) (switch_permission b e "file" false) (fun _ => True) (off File (gated b File)).
Proof.
  unfold switch_permission. simpl. eapply triple_then; [apply (set_now File)|]. destruct (unix_file_copy_paste b) eqn:Hu; simpl.
  - eapply triple_then; [by apply (keeps_emit (fun c => perm File (perms c) = false))|]. apply (drop_now b File); [by intros n (_ & _ & ->)|].
    intros c H. simpl in H. unfold can_sub_file_clipboard_service, file_transfer_enabled. rewrite H. simpl. by rewrite andb_false_r.
  - intros c H. split; [|constructor]. apply nothing_gated; [|done]. intros n (_ & ? & _). congruence.
Qed.

Lemma switched_off b e p c : authorized c = true ->
  let c1 := ((handler b e (FromCm (OSwitchPermission (perm_name p) false)) c).1 c).1 in
  (p = PrivacyMode -> perm p (perms c1) = false) -> off p (gated b p) c1.
Proof.
  intros Ha c1 Hpr. subst c1. cbn [handler from_cm fst] in *. destruct p; cbn [perm_name] in *.
  - by apply keyboard_off.
  - by apply clipboard_off.
  - by apply audio_off.
  - by apply file_off_now.
  - apply nothing_gated; [by intros n [_ ?]|]. apply (set_now Restart); done.
  - apply nothing_gated; [by intros n [_ ?]|]. apply (set_now Recording); done.
  - apply nothing_gated; [by intros n [_ ?]|]. apply (set_now BlockInput); done.
  - apply nothing_gated; [by intros n [_ ?]|by apply Hpr].
Qed.


(** ** Witness *)
Definition demo_build : Build :=
  mkBuild false true true false false false false false 100
    {[NAME_CURSOR; NAME_POS; NAME_WINDOW_FOCUS; CLIPBOARD_NAME; FILE_CLIPBOARD_NAME; AUDIO_NAME]}.
Definition demo_sys : Sys :=
  mkSys 1000 (fun _ _ => Some 1) (fun _ _ => Some 1) true false false false false (Some (Some true)) false (Some true) true true
    (fun _ => false) true false (fun _ => None) (Some 10) false.
Definition demo_opts : Options := mkOptions false false false false false false false false false.
Definition all_perms (v : bool) : Perms := mkPerms v v v v v v v v.
Definition demo_conn (p : Perms) (auth : bool) (t : option AuthConnType) : Connection :=
  mkConnection p demo_opts auth t false false false false (str "1.4.0") false None false None ∅ [] [] false false false 0 false
    false ∅ ∅ false None ∅.

