(* ===== verification/SessionSubs.v ===== *)
(** * Subscriptions of a session ([src/server/connection.rs])

    Which services of the device a remote-control session is subscribed to, as
    its permissions and options change ([SessionHandler]): the clipboard, the
    audio and the pointer follow them exactly; two behaviours do not. *)
From S2P Require Import Prelude.
From S2P Require Import SessionScope.
From S2P Require Import SessionState.
From S2P Require Import SessionHandler.

(** ** The invariant *)
Record follows (b : Build) (name : string) (f : Connection -> bool) (c : Connection) : Prop := mkFollows {
  only_if : name ∈ subs c -> name ∈ services b /\ f c = true;
  whenever : services_subed c = true -> name ∈ services b -> f c = true -> name ∈ subs c
}.
Definition wants_cursor (c : Connection) : bool := peer_keyboard_enabled c || show_remote_cursor (opts c).
Definition wants_pos (c : Connection) : bool := show_remote_cursor (opts c).

(** [st]: the services of the session have been started. *)
Record subs_ok (b : Build) (st : bool) (c : Connection) : Prop := mkSubsOk {
  ok_kind : (authorized c = true /\ conn_type c = Some Remote) /\ (st = true -> services_subed c = true);
  ok_clipboard : follows b CLIPBOARD_NAME (can_sub_clipboard_service b) c;
  ok_audio : follows b AUDIO_NAME audio_enabled c;
  ok_pos : follows b NAME_POS wants_pos c;
  ok_cursor : services_subed c = true -> NAME_CURSOR ∈ services b -> wants_cursor c = true -> NAME_CURSOR ∈ subs c
}.

Lemma follows_same b n f c c' : follows b n f c -> (n ∈ subs c' <-> n ∈ subs c) -> f c' = f c ->
  services_subed c' = services_subed c -> follows b n f c'.
Proof. intros [H1 H2] E1 E2 E3. constructor; rewrite E1, E2; [done|]. by rewrite E3. Qed.

(** A subscription that was just brought up to date. *)
Lemma follows_new b n f c c' : follows b n f c ->
  (n ∈ subs c' <-> if bool_decide (n ∈ services b) then f c' = true else n ∈ subs c) -> follows b n f c'.
Proof.
  intros [H1 _] E. case_bool_decide as Hs; constructor; rewrite E; auto; [|by intros].
  intros H. by apply H1 in H as [H _].
Qed.

(** The part of a connection that the invariant depends on. *)
Definition same_subs (b : Build) (c c' : Connection) : Prop :=
  can_sub_clipboard_service b c' = can_sub_clipboard_service b c /\ audio_enabled c' = audio_enabled c /\
  wants_pos c' = wants_pos c /\ wants_cursor c' = wants_cursor c /\ authorized c' = authorized c /\
  conn_type c' = conn_type c /\ services_subed c' = services_subed c /\ subs c' = subs c.

Lemma subs_ok_same b st c c' : same_subs b c c' -> subs_ok b st c -> subs_ok b st c'.
Proof.
  intros (E1 & E2 & E3 & E4 & E5 & E6 & E7 & E8) [K C A P U].
  constructor; [by rewrite E5, E6, E7|eapply follows_same; [eassumption|by rewrite E8|done|done]..|].
  rewrite E4, E7, E8. exact U.
Qed.

(** Evaluating a block of options and subscriptions. *)
Ltac block :=
  let c := fresh "c" in let H := fresh "H" in
  intros c H; split; [|by apply Forall_true];
  unfold set_opt, set_permission, subscribe_cursor, subscribe_if, reading, id;
  repeat first [rewrite then_fst | rewrite subscribe_eq | progress cbn [fst upd emit]];
  destruct H as [[K1 K2] C A P U].
Ltac unchanged :=
  match goal with
  | H : follows ?b ?n ?f _ |- follows ?b ?n ?f _ =>
      apply (follows_same b n f _ _ H); [|reflexivity|reflexivity]; simpl; rewrite ?elem_new_subs_ne by done; reflexivity
  | U : _ -> _ -> _ -> NAME_CURSOR ∈ _ |- _ -> _ -> _ -> NAME_CURSOR ∈ _ =>
      simpl; rewrite ?elem_new_subs_ne by done; exact U
  end.
Ltac renewed :=
  match goal with
  | H : follows ?b ?n ?f _ |- follows ?b ?n ?f _ =>
      apply (follows_new b n f _ _ H); simpl;
      repeat first [rewrite elem_new_subs_ne by done | rewrite elem_new_subs_eq; case_bool_decide]; reflexivity
  | |- _ -> _ -> _ -> NAME_CURSOR ∈ _ =>
      simpl; repeat first [rewrite elem_new_subs_ne by done | rewrite elem_new_subs_eq];
      intros ? ?; rewrite bool_decide_true by done; exact id
  end.
Ltac settle := constructor; [done|first [unchanged | renewed]..].

Lemma neutral_keeps b st name sub : name ∉ [CLIPBOARD_NAME; AUDIO_NAME; NAME_POS; NAME_CURSOR] ->
  keeps (subs_ok b st) (fun _ => True) (subscribe b name sub).
Proof. rewrite !not_elem_of_cons. intros (N1 & N2 & N3 & N4 & _). block. settle. Qed.

Lemma no_camera b st c : subs_ok b st c -> is_authed_view_camera_conn c = false.
Proof. intros [[[_ K] _] _ _ _ _]. unfold is_authed_view_camera_conn. rewrite K. by apply bool_decide_eq_false_2. Qed.
Lemma audio_remote b c : is_authed_view_camera_conn c = false -> subscribe_audio b c = subscribe b AUDIO_NAME (audio_enabled c) c.
Proof. intros H. unfold subscribe_audio, reading, id. by rewrite H. Qed.

Section Blocks.
Context (b : Build) (st : bool).
Let keep s := keeps (subs_ok b st) (fun _ => True) s.

Lemma show_remote_cursor_keeps v : keep (set_opt with_show_remote_cursor v >> subscribe_cursor b >> subscribe b NAME_POS v).
Proof. block. settle. Qed.
Lemma disable_clipboard_keeps v :
  keep (set_opt with_disable_clipboard v >> subscribe_if b CLIPBOARD_NAME (can_sub_clipboard_service b)).
Proof. block. settle. Qed.
Lemma disable_audio_keeps v : keep (set_opt with_disable_audio v >> subscribe_audio b).
Proof.
  intros c H. split; [|by apply Forall_true]. unfold set_opt. rewrite then_fst. cbn [fst upd].
  rewrite audio_remote by (by eapply (no_camera b st c)). rewrite subscribe_eq. destruct H as [[K1 K2] C A P U]. settle.
Qed.
Lemma disable_keyboard_keeps v :
  keep (set_opt with_disable_keyboard v >> subscribe_if b CLIPBOARD_NAME (can_sub_clipboard_service b)
        >> when (unix_file_copy_paste b) (subscribe_if b FILE_CLIPBOARD_NAME (can_sub_file_clipboard_service b))
        >> subscribe_cursor b).
Proof. destruct (unix_file_copy_paste b); simpl when; block; settle. Qed.
Lemma keyboard_keeps en :
  keep (set_permission Keyboard en >> subscribe_if b CLIPBOARD_NAME (can_sub_clipboard_service b)
        >> when (unix_file_copy_paste b) (subscribe_if b FILE_CLIPBOARD_NAME (can_sub_file_clipboard_service b))
        >> subscribe_if b NAME_CURSOR (fun c => en || show_remote_cursor (opts c))).
Proof.
  destruct (unix_file_copy_paste b); simpl when; block; (constructor; [done|first [unchanged | renewed]..|]);
    simpl; rewrite elem_new_subs_eq; intros _ Hs; rewrite bool_decide_true by done;
    unfold wants_cursor, peer_keyboard_enabled; simpl; by destruct en.
Qed.
Lemma clipboard_keeps en :
  keep (set_permission Clipboard en >> subscribe_if b CLIPBOARD_NAME (can_sub_clipboard_service b)).
Proof. block. settle. Qed.
Lemma audio_permission_keeps en :
  keep (set_permission Audio en >> reading authorized (fun a => when a (subscribe_audio b))).
Proof.
  intros c H. split; [|by apply Forall_true]. pose proof (no_camera b st c H) as Hn. destruct H as [[K1 K2] C A P U].
  unfold set_permission. rewrite !then_fst. cbn [fst upd emit]. unfold reading. simpl authorized. rewrite (proj1 K1). simpl when.
  rewrite audio_remote by done. rewrite subscribe_eq. settle.
Qed.

Lemma elem_cond (x : bool) (n m : string) : n ∈ (if x then {[m]} else ∅ : gset string) <-> x = true /\ n = m.
Proof. destruct x; set_solver. Qed.

Lemma elem_noperms n c : n ∈ noperms b c <->
  wants_cursor c = false /\ n = NAME_CURSOR \/ wants_pos c = false /\ n = NAME_POS \/
  follow_remote_window (opts c) = false /\ n = NAME_WINDOW_FOCUS \/
  can_sub_clipboard_service b c = false /\ n = CLIPBOARD_NAME \/
  (unix_file_copy_paste b && negb (can_sub_file_clipboard_service b c)) = true /\ n = FILE_CLIPBOARD_NAME \/
  audio_enabled c = false /\ n = AUDIO_NAME.
Proof.
  unfold noperms, wants_cursor, wants_pos.
  rewrite !elem_of_union, !elem_cond, andb_true_iff, !negb_true_iff, orb_false_iff. tauto.
Qed.

Lemma follows_start n f c : follows b n f c -> (n ∈ noperms b c <-> f c = false) ->
  f (with_services_subed true c) = f c ->
  (forall x, f (with_subs x (with_services_subed true c)) = f (with_services_subed true c)) ->
  noperms b (with_services_subed true c) = noperms b c ->
  follows b n f (with_subs (subs c ∪ services b ∖ noperms b (with_services_subed true c)) (with_services_subed true c)).
Proof.
  intros [H1 H2] Hn E1 E2 E3. rewrite E3. constructor; simpl; rewrite E2, E1, elem_of_union, elem_of_difference, Hn.
  - intros [H|[H Hf]]; [by apply H1|]. by apply not_false_is_true in Hf.
  - intros _ Hs ->. by right.
Qed.

Lemma sub_monitor_keeps e : keep (try_sub_monitor_services b e).
Proof.
  unfold try_sub_monitor_services. intros c H. split; [|by apply Forall_true]. unfold reading, id.
  destruct (is_remote c && negb (services_subed c)); simpl when; [|done]. rewrite !then_fst. cbn [fst upd].
  apply (subs_ok_same b st (with_subs (subs c ∪ services b ∖ noperms b (with_services_subed true c)) (with_services_subed true c))); [by split_and!|].
  destruct H as [[K K'] C A P U]. constructor; [done|apply (follows_start _ _ c); try done..|].
  - rewrite elem_noperms. split; [|by intros ->; right; right; right; left].
    intros [[_ ?]|[[_ ?]|[[_ ?]|[[? _]|[[_ ?]|[_ ?]]]]]]; done.
  - rewrite elem_noperms. split; [|by intros ->; do 5 right].
    intros [[_ ?]|[[_ ?]|[[_ ?]|[[_ ?]|[[_ ?]|[? _]]]]]]; done.
  - rewrite elem_noperms. split; [|by intros ->; right; left].
    intros [[_ ?]|[[? _]|[[_ ?]|[[_ ?]|[[_ ?]|[_ ?]]]]]]; done.
  - simpl. intros _ Hs Hw. rewrite elem_of_union, elem_of_difference. right. split; [done|]. rewrite elem_noperms.
    intros [[Hf _]|[[_ ?]|[[_ ?]|[[_ ?]|[[_ ?]|[_ ?]]]]]]; try done. change (wants_cursor c = true) in Hw.
    change (wants_cursor c = false) in Hf. congruence.
Qed.
End Blocks.

Ltac same := eapply subs_ok_same; [|eassumption]; by split_and!.
Ltac quiet := repeat first [progress cbv zeta | step]; try exact I; try same; try done.

Section Events.
Context (b : Build) (e : Sys) (st : bool).
Let keep s := keeps (subs_ok b st) (fun _ => True) s.

Lemma set_opt_same f v : (forall c, same_subs b c (with_opts (f v (opts c)) c)) -> keep (set_opt f v).
Proof. intros H. unfold keep, set_opt. step. eapply subs_ok_same; [apply H|done]. Qed.

Lemma window_focus_keeps v : keep (subscribe b NAME_WINDOW_FOCUS v).
Proof. apply neutral_keeps, (bool_decide_unpack _). by vm_compute. Qed.
Lemma file_clipboard_keeps : keep (subscribe_if b FILE_CLIPBOARD_NAME (can_sub_file_clipboard_service b)).
Proof. unfold keep, subscribe_if. step. apply neutral_keeps, (bool_decide_unpack _). by vm_compute. Qed.

Lemma options_keep o : keep (update_options b e o).
Proof.
  unfold keep, update_options, update_quality, on_bool, update_terminal_persistence, update_block_input, on_bool,
    turn_on_privacy, turn_off_privacy, turn_off_privacy_to_msg.
  repeat first [apply show_remote_cursor_keeps | apply disable_audio_keeps | apply disable_clipboard_keeps
    | apply disable_keyboard_keeps | apply window_focus_keeps | apply file_clipboard_keeps
    | apply set_opt_same; intros ?; by split_and! | progress cbv zeta | step]; try exact I; same.
Qed.

Lemma close_keep lock : keep (on_close lock).
Proof. unfold keep, on_close. quiet. Qed.

Lemma file_keep fa : keep (file_action b e fa).
Proof.
  unfold keep, file_action, run_action, send_files, create_and_start_read_job, cancel, send_fs, log. quiet.
Qed.

Lemma voice_keep : keep (close_voice_call b).
Proof.
  unfold keep, close_voice_call. quiet.
  match goal with H : subs_ok _ _ ?c |- _ => pose proof (no_camera _ _ _ H); congruence end.
Qed.

Lemma voice_answer_keep accepted : keep (handle_voice_call b accepted).
Proof.
  unfold keep, handle_voice_call. quiet. unfold id in *.
  match goal with H : subs_ok _ _ ?c |- _ => pose proof (no_camera _ _ _ H); congruence end.
Qed.

Lemma misc_keep m c : keep (misc_message b e m c).1.
Proof.
  destruct m; simpl; unfold keep; try (unfold capture_displays; repeat first [apply window_focus_keeps | step]; exact I; fail); try (unfold handle_switch_display, change_resolution, refresh_video_display,
    update_auto_disconnect_timer, toggle_privacy_mode, turn_on_privacy, turn_off_privacy, turn_off_privacy_to_msg, send_fs; quiet; fail).
  - destruct (updated_option (conn_type c) o); [apply options_keep|apply keeps_skip].
  - destruct uuid; simpl; [|apply keeps_skip]. apply keeps_then; [by apply keeps_emit|apply close_keep].
  - unfold send_fs. destruct (windows b && _); [|apply keeps_skip]. destruct (other_session e sid); [apply keeps_skip|].
    destruct (file_transfer c); simpl; [destruct (delayed_read_dir c) as [[d h]|]; quiet|].
    destruct (view_camera c || terminal c); [apply keeps_skip|apply sub_monitor_keeps].
Qed.

Lemma message_keep p c : keep (on_message b e p c).1.
Proof.
  assert (keep (if authorized c
      then match authorized_scope_violation (windows b) (conn_type c) (scope_of p) with
           | Some family => scope_violation b family c | None => dispatch b e p c end
      else (skip, true)).1) as Hmain.
  { unfold keep. destruct (authorized c); [|apply keeps_skip]. destruct (authorized_scope_violation _ _ _) as [family|].
    { unfold scope_violation, send_close_reason_no_retry. cbn [fst]. repeat step; try exact I; [same|apply close_keep]. }
    unfold dispatch. destruct (port_forward_socket c); [apply keeps_skip|].
    destruct p as [| | | | | | | | |[m|]| |[]| | | |]; cbn [fst];
      try (unfold mouse_event, pointer_event, key_event, input_key, update_auto_disconnect_timer, cliprdr, file_response,
        send_fs, refresh_video_display; quiet; fail).
    - unfold key_event, input_key, update_auto_disconnect_timer. quiet. unfold record_modifier.
      destruct (modifier_key e e0); [same|done].
    - apply file_keep.
    - apply misc_keep.
    - apply voice_keep. }
  destruct p as [| | | | | | | | |[[]|]| | | | | |]; try exact Hmain; [apply keeps_skip|apply close_keep].
Qed.

Lemma permission_same p en : p <> Keyboard -> p <> Clipboard -> p <> Audio -> keep (set_permission p en).
Proof. intros. unfold keep, set_permission. destruct p; try done; quiet. Qed.

Lemma switch_keep name en : keep (switch_permission b e name en).
Proof.
  unfold keep, switch_permission, switch_privacy.
  repeat match goal with |- keeps _ _ (if String.eqb ?x ?y then _ else _) => destruct (String.eqb_spec x y) as [->|] end;
    [apply keyboard_keeps|apply clipboard_keeps|apply audio_permission_keeps|..];
    repeat first [apply file_clipboard_keeps | by apply permission_same | step]; exact I.
Qed.

Lemma order_keep o : keep (from_cm b e o).1.
Proof.
  destruct o as [|[]| |name en| | | | | | | | | | |]; unfold keep, from_cm; cbn [fst];
    try (unfold send_close_reason_no_retry, if_cm_job, forget_job; quiet; fail).
  - unfold send_close_reason_no_retry. repeat step; try exact I; try same. apply close_keep.
  - apply close_keep.
  - apply switch_keep.
  - apply voice_answer_keep.
  - step; [apply voice_keep|by step].
Qed.

Lemma handler_keep ev c : keep (handler b e ev c).1.
Proof.
  destruct ev; [apply message_keep|apply order_keep|]. unfold keep. simpl. unfold second_timer, send_close_reason_no_retry.
  destruct (auto_disconnect_timer c) as [[i m]|]; [|apply keeps_skip].
  destruct (_ <? _); [|apply keeps_skip]. cbn [fst]. step; [by step|apply close_keep].
Qed.
End Events.

(** *** Before the login *)
(** Nothing but the clipboard (and the cursor) can be subscribed to. *)
Record before (b : Build) (c : Connection) : Prop := mkBefore {
  before_kind : authorized c = false /\ conn_type c = None /\ services_subed c = false;
  before_clipboard : CLIPBOARD_NAME ∈ subs c -> CLIPBOARD_NAME ∈ services b /\ can_sub_clipboard_service b c = true;
  before_none : AUDIO_NAME ∉ subs c /\ NAME_POS ∉ subs c
}.
Lemma before_same b c c' : authorized c' = authorized c -> conn_type c' = conn_type c -> services_subed c' = services_subed c ->
  can_sub_clipboard_service b c' = can_sub_clipboard_service b c -> subs c' = subs c -> before b c -> before b c'.
Proof. intros E1 E2 E3 E4 E5 [K C N]. by constructor; rewrite ?E1, ?E2, ?E3, ?E4, ?E5. Qed.
Lemma before_subscribe b name sub : name ∉ [CLIPBOARD_NAME; AUDIO_NAME; NAME_POS] -> keeps (before b) (fun _ => True) (subscribe b name sub).
Proof.
  rewrite !not_elem_of_cons. intros (N1 & N2 & N3 & _) c [K C N]. rewrite subscribe_eq. split; [|constructor].
  constructor; [done|..]; simpl; by rewrite !elem_new_subs_ne.
Qed.
(** The clipboard, brought up to date after a change of permissions. *)
Lemma before_clipboard_renewed b c : (authorized c = false /\ conn_type c = None /\ services_subed c = false) ->
  AUDIO_NAME ∉ subs c /\ NAME_POS ∉ subs c -> (CLIPBOARD_NAME ∈ subs c -> CLIPBOARD_NAME ∈ services b) ->
  before b (subscribe b CLIPBOARD_NAME (can_sub_clipboard_service b c) c).1.
Proof.
  intros K N H. rewrite subscribe_eq. constructor; [done|..]; simpl; [|by rewrite !elem_new_subs_ne].
  rewrite elem_new_subs_eq. case_bool_decide as Hs; [done|]. intros Hc. by apply H in Hc.
Qed.
Lemma before_permission b q en c : q = Keyboard \/ q = Clipboard -> before b c ->
  before b ((set_permission q en >> subscribe_if b CLIPBOARD_NAME (can_sub_clipboard_service b)) c).1.
Proof.
  intros Hq [K C N]. unfold set_permission, subscribe_if, reading. rewrite !then_fst. cbn [fst upd emit].
  apply before_clipboard_renewed; [done..|]. simpl. intros H. by apply C in H as [H _].
Qed.
Lemma before_free b p en : p <> Keyboard -> p <> Clipboard -> keeps (before b) (fun _ => True) (set_permission p en).
Proof. intros H1 H2. unfold set_permission. repeat step; [|exact I]. apply (before_same b c); [done|done|done|by destruct p|done|done]. Qed.
Lemma before_other b name f : name ∉ [CLIPBOARD_NAME; AUDIO_NAME; NAME_POS] -> keeps (before b) (fun _ => True) (subscribe_if b name f).
Proof. intros H. unfold subscribe_if. step. by apply before_subscribe. Qed.
Lemma name_files : FILE_CLIPBOARD_NAME ∉ [CLIPBOARD_NAME; AUDIO_NAME; NAME_POS].
Proof. apply (bool_decide_unpack _). by vm_compute. Qed.
Lemma name_cursor : NAME_CURSOR ∉ [CLIPBOARD_NAME; AUDIO_NAME; NAME_POS].
Proof. apply (bool_decide_unpack _). by vm_compute. Qed.

Lemma before_switch b e name en : keeps (before b) (fun _ => True) (switch_permission b e name en).
Proof.
  unfold switch_permission, switch_privacy.
  repeat match goal with |- keeps _ _ (if String.eqb ?x ?y then _ else _) => destruct (String.eqb_spec x y) as [->|] end.
  - intros c Hc. split; [|by apply Forall_true]. rewrite then_fst, then_fst.
    refine (proj1 (keeps_then (before b) (fun _ => True) _ _ _ _ _ _)); [|apply before_other, name_cursor|].
    + apply keeps_when. intros _. apply before_other, name_files.
    + rewrite <- then_fst. apply before_permission; auto.
  - intros c Hc. split; [|by apply Forall_true]. apply before_permission; auto.
  - intros c Hc. split; [|by apply Forall_true]. rewrite then_fst. destruct (before_free b Audio en ltac:(done) ltac:(done) c Hc) as [Hk _].
    destruct Hk as [K C N]. unfold reading. rewrite (proj1 K). by constructor.
  - repeat first [apply before_free; done | apply before_other, name_files | step]; exact I.
  - by apply before_free.
  - by apply before_free.
  - by apply before_free.
  - repeat first [apply before_free; done | step]; exact I.
  - apply keeps_skip.
Qed.
Ltac early := eapply before_same; [..|eassumption]; done.
Lemma before_close b lock : keeps (before b) (fun _ => True) (on_close lock).
Proof. unfold on_close. repeat step; try exact I; early. Qed.
Lemma before_handler b e ev c : before b c -> before b ((handler b e ev c).1 c).1.
Proof.
  intros Hc. destruct ev as [m|o|]; simpl.
  - assert ((on_message b e m c).1 = skip \/ (on_message b e m c).1 = on_close true) as [-> | ->];
      [unfold on_message; rewrite (proj1 (before_kind b c Hc)); repeat case_match; auto|done|by apply before_close].
  - assert (forall s, keeps (before b) (fun _ => True) s -> before b (s c).1) as H by (intros s Hs; by apply Hs). apply H.
    assert (is_authed_view_camera_conn c = false) as Hn.
    { unfold is_authed_view_camera_conn. rewrite (proj1 (proj2 (before_kind b c Hc))). by apply bool_decide_eq_false_2. }
    destruct o as [|[]| |name en| | | | | | | | | | |]; unfold from_cm; cbn [fst];
      try (unfold send_close_reason_no_retry, if_cm_job, forget_job; repeat step; try exact I; early; fail).
    + unfold send_close_reason_no_retry. repeat step; try exact I; try early. apply before_close.
    + apply before_close.
    + apply before_switch.
    + unfold handle_voice_call. repeat step; try exact I; try early.
      all: match goal with K : before _ ?x, E : is_authed_view_camera_conn _ = true |- _ =>
        exfalso; revert E; unfold id, is_authed_view_camera_conn; rewrite (proj1 (proj2 (before_kind _ _ K))); done end.
    + unfold close_voice_call. repeat step; try exact I; try early.
      all: match goal with K : before _ ?x, E : is_authed_view_camera_conn _ = true |- _ =>
        exfalso; revert E; unfold id, is_authed_view_camera_conn; rewrite (proj1 (proj2 (before_kind _ _ K))); done end.
  - assert (forall s, keeps (before b) (fun _ => True) s -> before b (s c).1) as H by (intros s Hs; by apply Hs). apply H.
    unfold second_timer, send_close_reason_no_retry. destruct (auto_disconnect_timer c) as [[i m]|]; [|apply keeps_skip].
    destruct (_ <? _); [|apply keeps_skip]. cbn [fst]. step; [by step|apply before_close].
Qed.

(** A property that every event preserves holds at the end of a session. *)
Lemma session_ind (P : Connection -> Prop) b evs : (forall e ev c, P c -> P ((handler b e ev c).1 c).1) -> forall c, P c -> P (session b c evs).1.
Proof.
  intros H. induction evs as [|[e ev] evs IH]; intros c Hc; [done|]. simpl. specialize (H e ev c Hc).
  destruct (handler b e ev c) as [s go]. simpl in H. destruct (s c) as [c1 out]. simpl in H. destruct go; [|done].
  specialize (IH c1 H). by destruct (session b c1 evs).
Qed.

(** *** The login *)
(** What a login request leaves as it is. *)
Definition logging_in (c c' : Connection) : Prop :=
  perms c' = perms c /\ opts c' = opts c /\ authorized c' = authorized c /\ conn_type c' = conn_type c /\
  services_subed c' = services_subed c /\ subs c' = subs c.
(** An ordinary login: the display server is supported, the displays are found,
    no session of Windows has to be picked first. *)
Definition ordinary (b : Build) (l : Login) : bool := (negb (linux b) || screen l) && displays l && negb (windows b && wait l).

Lemma remote_flags c : auth_conn_type c = Remote ->
  file_transfer c = false /\ port_forward_socket c = false /\ view_camera c = false /\ terminal c = false.
Proof. unfold auth_conn_type. by destruct (file_transfer c), (port_forward_socket c), (view_camera c), (terminal c). Qed.

Lemma login_start b c : before b c -> auth_conn_type c = Remote -> subs_ok b false (with_authorized true (Some (auth_conn_type c)) c).
Proof.
  intros [(K1 & K2 & K3) C [N1 N2]] Ht. constructor.
  - simpl. by rewrite Ht.
  - constructor; [exact C|simpl; by rewrite K3].
  - constructor; [simpl; by intros ?%N1|simpl; by rewrite K3].
  - constructor; [simpl; by intros ?%N2|simpl; by rewrite K3].
  - simpl. by rewrite K3.
Qed.
Lemma options_remote b e o : keeps (fun c => is_remote c = true) (fun _ => True) (update_options b e o).
Proof.
  unfold update_options, update_quality, on_bool, update_block_input, update_terminal_persistence, on_bool, turn_on_privacy,
    turn_off_privacy, turn_off_privacy_to_msg, set_opt, subscribe_cursor, subscribe_audio, subscribe_if, subscribe.
  repeat first [progress cbv zeta | step]; try exact I; assumption.
Qed.
Lemma sub_monitor_started b e c : is_remote c = true -> services_subed (try_sub_monitor_services b e c).1 = true.
Proof.
  intros H. unfold try_sub_monitor_services, reading, id. rewrite H. simpl. by destruct (services_subed c) eqn:E.
Qed.
Lemma login_follows b e l c : before b c -> auth_conn_type c = Remote -> subs_ok b (ordinary b l) (finish_login b e l c).1.
Proof.
  intros Hb Ht. destruct (remote_flags c Ht) as (F1 & F2 & F3 & F4). pose proof (login_start b c Hb Ht) as Hs.
  unfold finish_login. rewrite then_fst. cbn [fst upd]. set (c1 := with_authorized true (Some (auth_conn_type c)) c) in *. unfold reading, id.
  change (port_forward_socket c1) with (port_forward_socket c). change (file_transfer c1) with (file_transfer c).
  change (terminal c1) with (terminal c). change (view_camera c1) with (view_camera c). rewrite F1, F2, F3, F4.
  assert (is_remote c1 = true) as Hr by (unfold is_remote; change (port_forward_socket c1) with (port_forward_socket c);
    change (file_transfer c1) with (file_transfer c); change (terminal c1) with (terminal c); change (view_camera c1) with (view_camera c);
    by rewrite F1, F2, F3, F4).
  rewrite Hr. unfold ordinary. destruct (linux b && true && negb (screen l)) eqn:Es.
  { assert (negb (linux b) || screen l = false) as -> by (destruct (linux b), (screen l); done). exact Hs. }
  assert (negb (linux b) || screen l = true) as -> by (destruct (linux b), (screen l); done).
  cbv zeta. rewrite !then_fst. cbn [fst emit].
  set (u := match update_scoped_login_options _ _ with Some o => _ | None => _ end).
  assert (subs_ok b false (u c1).1 /\ is_remote (u c1).1 = true) as [H1 H2].
  { subst u. destruct (update_scoped_login_options _ _); [|done]. split; [by apply options_keep|by apply options_remote]. }
  cbn [negb andb]. rewrite andb_true_r. destruct (displays l && negb (windows b && wait l)) eqn:Eg; [|exact H1].
  destruct (sub_monitor_keeps b false e (u c1).1 H1) as [H3 _]. destruct H3 as [[K _] C A P U]. constructor; try done. split; [done|].
  intros _. by apply sub_monitor_started.
Qed.

(** [C36] The services follow the permissions.  Take a connection from its
    start: whatever happens before it logs in, a login as a remote-control session
    with any options, and then any messages of the viewer and any orders of the
    device's user.  It is subscribed to the clipboard, the sound and the position
    of the pointer only if its permissions and options at that moment allow it, and
    exactly then once its services have been started (among those the device has),
    as every ordinary login does; and the pictures of the cursor are never missing
    when they are wanted. *)
Theorem subscriptions_follow b c0 early c e l evs :
  authorized c0 = false -> conn_type c0 = None -> services_subed c0 = false -> subs c0 = ∅ ->
  logging_in (session b c0 early).1 c -> auth_conn_type c = Remote ->
  let c' := (session b (finish_login b e l c).1 evs).1 in
  (CLIPBOARD_NAME ∈ subs c' -> can_sub_clipboard_service b c' = true) /\
  (AUDIO_NAME ∈ subs c' -> audio_enabled c' = true) /\
  (NAME_POS ∈ subs c' -> show_remote_cursor (opts c') = true) /\
  (services_subed c' = true ->
     (CLIPBOARD_NAME ∈ services b -> can_sub_clipboard_service b c' = true -> CLIPBOARD_NAME ∈ subs c') /\
     (AUDIO_NAME ∈ services b -> audio_enabled c' = true -> AUDIO_NAME ∈ subs c') /\
     (NAME_POS ∈ services b -> show_remote_cursor (opts c') = true -> NAME_POS ∈ subs c') /\
     (NAME_CURSOR ∈ services b -> wants_cursor c' = true -> NAME_CURSOR ∈ subs c')) /\
  (ordinary b l = true -> services_subed c' = true).
Proof.
  intros H1 H2 H3 H4 (L1 & L2 & L3 & L4 & L5 & L6) Ht. cbv zeta.
  assert (before b (session b c0 early).1) as Hb.
  { apply (session_ind (before b)); [intros; by apply before_handler|]. constructor; [done|..]; rewrite H4; set_solver. }
  assert (before b c) as Hc.
  { destruct Hb as [K C N]. constructor; rewrite ?L3, ?L4, ?L5, ?L6; try done.
    unfold can_sub_clipboard_service, clipboard_enabled, peer_keyboard_enabled. by rewrite L1, L2. }
  pose proof (session_ind (subs_ok b (ordinary b l)) b evs
    (fun e ev c H => proj1 (handler_keep b e _ ev c c H)) _ (login_follows b e l c Hc Ht)) as [[_ K] [C1 C2] [A1 A2] [P1 P2] U].
  split_and!; try tauto.
Qed.

(** ** Behaviours that do not follow the permissions *)

(** Three gaps: a connection that has not logged in is subscribed to the
    clipboard when the device's user switches its clipboard permission on;
    switching that permission off leaves the subscription to copied files as it
    is; and requests for copied files are answered in every remote-control
    session, whatever its permissions. *)
Theorem permission_gaps b e c :
  (authorized c = false -> CLIPBOARD_NAME ∈ services b -> peer_keyboard_enabled c = true ->
   disable_clipboard (opts c) = false -> one_way_clipboard_redirection b = false ->
   CLIPBOARD_NAME ∈ subs ((handler b e (FromCm (OSwitchPermission "clipboard" true)) c).1 c).1) /\
  (FILE_CLIPBOARD_NAME ∈ subs c ->
   let c' := ((handler b e (FromCm (OSwitchPermission "clipboard" false)) c).1 c).1 in
   can_sub_file_clipboard_service b c' = false /\ FILE_CLIPBOARD_NAME ∈ subs c') /\
  (forall m, remote_session c -> port_forward_socket c = false -> windows b = false -> unix_file_copy_paste b = true ->
   file_copy_paste c = true -> (handler b e (FromPeer (PCliprdr (ClipMsg m))) c).1 c = (c, [ServeClip m])).
Proof.
  split_and!.
  - intros _ Hs Hk Hd Ho. simpl. unfold switch_permission. simpl. unfold set_permission, subscribe_if, reading.
    rewrite !then_fst. cbn [fst upd emit]. rewrite subscribe_eq. simpl. apply elem_new_subs_eq.
    rewrite bool_decide_true by done. unfold can_sub_clipboard_service, clipboard_enabled. simpl. rewrite Hd, Ho.
    unfold peer_keyboard_enabled in *. simpl. by rewrite Hk.
  - intros Hs. simpl. unfold switch_permission. simpl. unfold set_permission, subscribe_if, reading.
    rewrite !then_fst. cbn [fst upd emit]. rewrite subscribe_eq. simpl. split; [done|]. by apply elem_new_subs_ne.
  - intros m [Ha Hr] Hp Hw Hu Hv. simpl. rewrite Ha, Hr. simpl. unfold dispatch. rewrite Hp, Hw, Hu. simpl.
    unfold cliprdr, then_, reading. rewrite Hw, Hu. simpl. by rewrite Hv.
Qed.

(** On Linux no modifier is ever recorded, so none is released when a session
    ends with one held down: a key event of a modifier never counts as a press
    there. *)
Lemma linux_records_nothing b e c k : linux b = true -> pressed_modifiers c = ∅ ->
  pressed_modifiers (record_modifier b e k c) = ∅.
Proof.
  intros Hl Hp. unfold record_modifier, is_press. destruct (modifier_key e k) as [key|]; [|done]. simpl.
  rewrite Hl, orb_true_r, andb_false_r. rewrite Hp. set_solver.
Qed.

(** On Linux: a login, an order, a message; the session hears the sound and no
    longer sees the clipboard. *)
Definition demo_login : Login := mkLogin (Some option_new) ([], false) true true false.
Lemma subscriptions_follow_witness :
  let early := [(demo_sys, FromCm (OSwitchPermission "clipboard" true))] in
  let evs := [(demo_sys, FromPeer (PMisc (Some (MOption option_new)))); (demo_sys, FromCm (OSwitchPermission "clipboard" false))] in
  let c0 := demo_conn (all_perms true) false None in
  let c := (session demo_build c0 early).1 in
  let c1 := (finish_login demo_build demo_sys demo_login c).1 in
  let c' := (session demo_build c1 evs).1 in
  CLIPBOARD_NAME ∈ subs c1 /\ CLIPBOARD_NAME ∉ subs c' /\ AUDIO_NAME ∈ subs c'.
Proof.
  intros early evs c0 c c1 c'. split; [apply (bool_decide_unpack _); by vm_compute|].
  destruct (subscriptions_follow demo_build c0 early c demo_sys demo_login evs) as (H1 & _ & _ & H2 & H3);
    [reflexivity..|by split_and!|reflexivity|]. split.
  - intros Hin. apply H1 in Hin. vm_compute in Hin. discriminate Hin.
  - apply H2; [apply H3; reflexivity|apply (bool_decide_unpack _); by vm_compute|reflexivity].
Defined.

Lemma permission_gaps_witness :
  CLIPBOARD_NAME ∈ subs ((handler demo_build demo_sys (FromCm (OSwitchPermission "clipboard" true))
    (demo_conn (set_perm Clipboard false (all_perms true)) false None)).1
      (demo_conn (set_perm Clipboard false (all_perms true)) false None)).1.
Proof.
  apply (proj1 (permission_gaps demo_build demo_sys (demo_conn (set_perm Clipboard false (all_perms true)) false None)));
    [reflexivity|apply (bool_decide_unpack _); by vm_compute|reflexivity..].
Defined.
