(* ===== verification/Service.v ===== *)
(** * Services and their subscribers ([src/server/service.rs])

    Screen contents, the mouse pointer, sound and the clipboard are each
    produced by a service thread and pushed to the connections that subscribed.
    A service that greets newcomers with a snapshot parks them in
    [new_subscribes] until its next turn.  Connections subscribe and leave at
    any time between two steps of the thread: [Op] lists the atomic steps (each
    is one section under the lock), and a run is any sequence of them.
    [Subscriber] is the trait of the same name, with what a service relies on
    as its laws. *)
From S2P Require Import Prelude.

(** ** Messages and subscribers *)
Inductive Message :=
| VideoFrame (display : Z) (frame : bytes)
| SwitchDisplay (display : Z) (m : bytes)
| CursorData (id : Z) (hot colors : bytes)
| CursorId (id : Z)
| CursorPosition (x y : Z)
| FollowCurrentDisplay (display : Z)
| PeerInfo (displays : list bytes)
| OtherMessage (m : bytes).

(** The two channels from a service to a connection's task. *)
Inductive Chan := Tx | TxVideo.
Definition Delivery : Type := Chan * Message.
(** What one step puts on the channels of each connection. *)
Definition Out := gmap Z (list Delivery).

Record ConnInner := mkConnInner { inner_id : Z; tx : bool; tx_video : bool }.

Class Subscriber (T : Type) := {
  id : T -> Z;
  send : Message -> T -> T * list Delivery;
  from : ConnInner -> T
}.
Class SubscriberLaws (T : Type) `{Subscriber T} := {
  id_from c : id (from c) = inner_id c;
  id_send m s : id (send m s).1 = id s
}.

(** Video frames and display switches share a channel, which keeps them in order. *)
Definition tx_by_video (m : Message) : bool :=
  match m with VideoFrame _ _ | SwitchDisplay _ _ => true | _ => false end.
Definition conn_send (m : Message) (c : ConnInner) : ConnInner * list Delivery :=
  if tx_by_video m then (c, if tx_video c then [(TxVideo, m)] else [])
  else (c, if tx c then [(Tx, m)] else []).

#[export] Instance conn_subscriber : Subscriber ConnInner :=
  {| id := inner_id; send := conn_send; from c := c |}.
#[export] Instance conn_laws : SubscriberLaws ConnInner.
Proof. split; [done|]. intros m s. simpl. unfold conn_send. by destruct (tx_by_video m). Qed.

Definition SERVICE_OPTION_VALUE_TRUE : string := "1".
Definition SERVICE_OPTION_VALUE_FALSE : string := "0".

Record ServiceInner (T : Type) := mkService {
  name : string;
  subscribes : gmap Z T;
  new_subscribes : gmap Z T;
  active : bool;
  need_snapshot : bool;
  options : gmap string string
}.
Arguments mkService {T}.
Arguments name {T}. Arguments subscribes {T}. Arguments new_subscribes {T}.
Arguments active {T}. Arguments need_snapshot {T}. Arguments options {T}.

Section Service.
Context {T : Type} `{SubscriberLaws T}.
Abbreviation Service := (ServiceInner T).

Definition with_subs (a n : gmap Z T) (s : Service) : Service :=
  mkService (name s) a n (active s) (need_snapshot s) (options s).
Definition with_options (o : gmap string string) (s : Service) : Service :=
  mkService (name s) (subscribes s) (new_subscribes s) (active s) (need_snapshot s) o.

Definition new (n : string) (snap : bool) : Service := mkService n ∅ ∅ true snap ∅.

(** Sending to the subscribers of a map that satisfy [keep]. *)
Definition broadcast (keep : Z -> T -> bool) (m : Message) (l : gmap Z T) : gmap Z T * Out :=
  let r := map_imap (fun k s => Some (if keep k s then send m s else (s, []))) l in
  (fst <$> r, snd <$> r).

Definition send_new_subscribes (m : Message) (s : Service) : Service * Out :=
  let '(n, out) := broadcast (fun _ _ => true) m (new_subscribes s) in
  (with_subs (subscribes s) n s, out).
Definition swap_new_subscribes (s : Service) : Service :=
  with_subs (map_fold (fun _ x l => <[id x := x]> l) (subscribes s) (new_subscribes s)) ∅ s.
Definition has_subscribes (s : Service) : bool :=
  bool_decide (0 < size (subscribes s))%nat || bool_decide (0 < size (new_subscribes s))%nat.

Definition is_subed (i : Z) (s : Service) : bool :=
  bool_decide (is_Some (subscribes s !! i)) || bool_decide (is_Some (new_subscribes s !! i)).
Definition on_subscribe (c : ConnInner) (s : Service) : Service :=
  if bool_decide (is_Some (subscribes s !! inner_id c)) then s
  else if need_snapshot s then with_subs (subscribes s) (<[inner_id c := from c]> (new_subscribes s)) s
  else with_subs (<[inner_id c := from c]> (subscribes s)) (new_subscribes s) s.
Definition on_unsubscribe (i : Z) (s : Service) : Service :=
  match subscribes s !! i with
  | Some _ => with_subs (delete i (subscribes s)) (new_subscribes s) s
  | None => with_subs (subscribes s) (delete i (new_subscribes s)) s
  end.
Definition join (s : Service) : Service :=
  mkService (name s) (subscribes s) (new_subscribes s) false (need_snapshot s) (options s).
Definition get_option (opt : string) (s : Service) : option string := options s !! opt.
Definition set_option (opt val : string) (s : Service) : Service := with_options (<[opt := val]> (options s)) s.
Definition is_option_true (opt : string) (s : Service) : bool :=
  bool_decide (get_option opt s = Some SERVICE_OPTION_VALUE_TRUE).
Definition set_option_bool (opt : string) (val : bool) (s : Service) : Service :=
  set_option opt (if val then SERVICE_OPTION_VALUE_TRUE else SERVICE_OPTION_VALUE_FALSE) s.
Definition ok (s : Service) : bool := active s && has_subscribes s.

Definition to_subscribes (keep : Z -> T -> bool) (m : Message) (s : Service) : Service * Out :=
  let '(a, out) := broadcast keep m (subscribes s) in (with_subs a (new_subscribes s) s, out).
Definition send_shared (m : Message) : Service -> Service * Out := to_subscribes (fun _ _ => true) m.
Definition send_to (m : Message) (i : Z) (s : Service) : Service * Out :=
  match subscribes s !! i with
  | Some x => let '(x, d) := send m x in (with_subs (<[i := x]> (subscribes s)) (new_subscribes s) s, {[i := d]})
  | None => (s, ∅)
  end.
Definition send_to_others (m : Message) (i : Z) : Service -> Service * Out :=
  to_subscribes (fun sid _ => negb (sid =? i)) m.
Definition send_without (m : Message) (sub : Z) : Service -> Service * Out :=
  to_subscribes (fun _ s => negb (sub =? id s)) m.
(** Also returns who the frame went to. *)
Definition send_video_frame_shared (m : Message) (s : Service) : Service * Out * gset Z :=
  let conn_ids := list_to_set ((fun kx => id kx.2) <$> map_to_list (subscribes s)) in
  (send_shared m s, conn_ids).

(** ** Steps and runs *)
Inductive Op :=
| OnSubscribe (c : ConnInner)
| OnUnsubscribe (i : Z)
| SendShared (m : Message)
| SendTo (m : Message) (i : Z)
| SendToOthers (m : Message) (i : Z)
| SendWithout (m : Message) (sub : Z)
| SendNew (m : Message)
| Swap
| SetOption (opt val : string)
| Join.

Definition apply (o : Op) (s : Service) : Service * Out :=
  match o with
  | OnSubscribe c => (on_subscribe c s, ∅)
  | OnUnsubscribe i => (on_unsubscribe i s, ∅)
  | SendShared m => send_shared m s
  | SendTo m i => send_to m i s
  | SendToOthers m i => send_to_others m i s
  | SendWithout m i => send_without m i s
  | SendNew m => send_new_subscribes m s
  | Swap => (swap_new_subscribes s, ∅)
  | SetOption opt val => (set_option opt val s, ∅)
  | Join => (join s, ∅)
  end.
Fixpoint trace (ops : list Op) (s : Service) : Service * list Out :=
  match ops with
  | [] => (s, [])
  | o :: ops => let '(s, out) := apply o s in let '(s, outs) := trace ops s in (s, out :: outs)
  end.
Definition received (i : Z) (outs : list Out) : list Delivery :=
  mjoin ((fun out : Out => default [] (out !! i)) <$> outs).

(** Steps that other threads can take between two steps of the service's own. *)
Definition external (o : Op) : bool :=
  match o with OnSubscribe _ | OnUnsubscribe _ | SetOption _ _ | Join => true | _ => false end.

(** The steps of [snapshot]: the callback runs only when somebody is waiting,
    others come and go ([before], [after]) around what it sends to those who
    wait, and it ends with them admitted, whether it fails or not. *)
Definition snapshot {E : Type} (callback : Service -> list Message * result unit E)
    (before after : list Op) (s : Service) : list Op * result unit E :=
  if bool_decide (0 < size (new_subscribes s))%nat then
    let '(ms, r) := callback (trace before s).1 in
    (before ++ (SendNew <$> ms) ++ after ++ [Swap], r)
  else ([], Ok tt).
(** What [ServiceSwap::has_subscribes] tells the callback. *)
Definition swap_has_subscribes (s : Service) : bool := bool_decide (0 < size (subscribes s))%nat.

(** ** One connection's view

    What a connection is to a service, and how each step changes that and what
    it is sent: no other connection plays a part. *)
Inductive Phase := Absent | Waiting (x : T) | Joined (x : T).

Definition phase (i : Z) (s : Service) : Phase :=
  match subscribes s !! i with
  | Some x => Joined x
  | None => match new_subscribes s !! i with Some x => Waiting x | None => Absent end
  end.
Definition joined_send (b : bool) (m : Message) (p : Phase) : Phase * list Delivery :=
  match p with
  | Joined x => if b then let '(x, d) := send m x in (Joined x, d) else (p, [])
  | _ => (p, [])
  end.
Definition phase_step (snap : bool) (i : Z) (o : Op) (p : Phase) : Phase * list Delivery :=
  match o with
  | OnSubscribe c =>
      if bool_decide (inner_id c = i) then
        (match p with Joined x => Joined x | _ => if snap then Waiting (from c) else Joined (from c) end, [])
      else (p, [])
  | OnUnsubscribe j => (if bool_decide (j = i) then Absent else p, [])
  | SendShared m => joined_send true m p
  | SendTo m j => joined_send (j =? i) m p
  | SendToOthers m j | SendWithout m j => joined_send (negb (j =? i)) m p
  | SendNew m => match p with Waiting x => let '(x, d) := send m x in (Waiting x, d) | _ => (p, []) end
  | Swap => (match p with Waiting x => Joined x | _ => p end, [])
  | SetOption _ _ | Join => (p, [])
  end.
Fixpoint phase_run (snap : bool) (i : Z) (ops : list Op) (p : Phase) : Phase * list Delivery :=
  match ops with
  | [] => (p, [])
  | o :: ops => let '(p, d) := phase_step snap i o p in let '(p, ds) := phase_run snap i ops p in (p, d ++ ds)
  end.

(** What a connection was sent since it last came. *)
Definition fresh (i : Z) (o : Op) (p : Phase) : bool :=
  match o, p with OnSubscribe c, (Absent | Waiting _) => inner_id c =? i | _, _ => false end.
Fixpoint phase_log (snap : bool) (i : Z) (ops : list Op) (p : Phase) (log : list Delivery) : Phase * list Delivery :=
  match ops with
  | [] => (p, log)
  | o :: ops =>
      let '(p1, d) := phase_step snap i o p in
      phase_log snap i ops p1 (if fresh i o p then [] else log ++ d)
  end.

(** The invariant of a service: keys are ids, nobody waits and is joined at
    once, and nobody waits where there is no snapshot. *)
Record wf (s : Service) : Prop := {
  joined_id : forall k x, subscribes s !! k = Some x -> id x = k;
  waiting_id : forall k x, new_subscribes s !! k = Some x -> id x = k;
  wf_disjoint : forall k x, subscribes s !! k = Some x -> new_subscribes s !! k = None;
  no_snapshot : need_snapshot s = false -> new_subscribes s = ∅
}.

Lemma new_wf n snap : wf (new n snap).
Proof. by split. Qed.

Lemma broadcast_fst keep m (l : gmap Z T) k :
  (broadcast keep m l).1 !! k = (fun x => if keep k x then (send m x).1 else x) <$> l !! k.
Proof.
  unfold broadcast, Out. cbn [fst snd]. rewrite lookup_fmap, map_lookup_imap. destruct (l !! k) as [x|]; [|done]. simpl. by destruct (keep k x).
Qed.
Lemma broadcast_snd keep m (l : gmap Z T) k :
  default [] ((broadcast keep m l).2 !! k) = match l !! k with Some x => if keep k x then (send m x).2 else [] | None => [] end.
Proof.
  unfold broadcast, Out. cbn [fst snd]. rewrite lookup_fmap, map_lookup_imap. destruct (l !! k) as [x|]; [|done]. simpl. by destruct (keep k x).
Qed.

Lemma swap_union (a n : gmap Z T) : (forall k x, n !! k = Some x -> id x = k) ->
  map_fold (fun _ x l => <[id x := x]> l) a n = n ∪ a.
Proof.
  induction n as [|k x n Hk Hf IH] using map_first_key_ind; intros Hid; [by rewrite map_fold_empty, (left_id_L ∅ (∪))|].
  rewrite map_fold_insert_first_key by done. rewrite (Hid k x) by apply lookup_insert_eq.
  rewrite IH, <- insert_union_l; [done|]. intros j y Hj. apply Hid. rewrite lookup_insert_ne; [done|congruence].
Qed.

Lemma swap_lookup (s : Service) k : wf s ->
  subscribes (swap_new_subscribes s) !! k = match new_subscribes s !! k with Some x => Some x | None => subscribes s !! k end.
Proof.
  intros [_ Hn _ _]. simpl. rewrite swap_union by done. rewrite lookup_union.
  destruct (new_subscribes s !! k); [by rewrite union_Some_l|by rewrite (left_id_L None (∪))].
Qed.

Lemma apply_need_snapshot o s : need_snapshot (apply o s).1 = need_snapshot s.
Proof.
  destruct o as [c|j|m|m j|m j|m j|m| |opt v|]; simpl; try done.
  - unfold on_subscribe. case_bool_decide; [done|]. by destruct (need_snapshot s) eqn:E; simpl.
  - unfold on_unsubscribe. by destruct (subscribes s !! j).
  - unfold send_to. destruct (subscribes s !! j); [|done]. by destruct (send m t).
Qed.

Lemma on_subscribe_wf c s : wf s -> wf (on_subscribe c s).
Proof.
  intros [Ha Hn Hd Hs]. unfold on_subscribe. case_bool_decide as Hc; [done|].
  assert (subscribes s !! inner_id c = None) as Hc' by (destruct (subscribes s !! inner_id c); [by destruct Hc|done]).
  destruct (need_snapshot s) eqn:Hsnap; split; simpl; try done.
  - intros k x [[<- <-]|[_ Hx]]%lookup_insert_Some; [apply id_from|by apply Hn].
  - intros k x Hx. rewrite lookup_insert_ne; [by apply (Hd k x)|]. intros <-. congruence.
  - congruence.
  - intros k x [[<- <-]|[_ Hx]]%lookup_insert_Some; [apply id_from|by apply Ha].
  - intros k x _. by rewrite Hs.
  - intros _. by apply Hs.
Qed.

Lemma on_unsubscribe_wf j s : wf s -> wf (on_unsubscribe j s).
Proof.
  intros [Ha Hn Hd Hs]. unfold on_unsubscribe. destruct (subscribes s !! j) eqn:Hj; split; simpl; try done.
  - intros k x [_ Hx]%lookup_delete_Some. by apply Ha.
  - intros k x [_ Hx]%lookup_delete_Some. by apply (Hd k x).
  - intros k x [_ Hx]%lookup_delete_Some. by apply Hn.
  - intros k x Hx. apply lookup_delete_None. right. by apply (Hd k x).
  - intros Hsn. by rewrite Hs, delete_empty.
Qed.

Lemma broadcast_ids keep m (l : gmap Z T) :
  (forall k x, l !! k = Some x -> id x = k) -> forall k x, (broadcast keep m l).1 !! k = Some x -> id x = k.
Proof.
  intros Hl k x. rewrite broadcast_fst. destruct (l !! k) as [y|] eqn:Hy; [|done]. simpl. intros [= <-].
  specialize (Hl k y Hy). destruct (keep k y); [by rewrite id_send|done].
Qed.

Lemma to_subscribes_wf keep m s : wf s -> wf (to_subscribes keep m s).1.
Proof.
  intros [Ha Hn Hd Hs]. unfold to_subscribes. pose proof (broadcast_ids keep m _ Ha) as Hids.
  pose proof (broadcast_fst keep m (subscribes s)) as Hl. destruct (broadcast keep m (subscribes s)) as [a out]. simpl in *.
  split; simpl; try done. intros k x Hx. rewrite Hl in Hx. destruct (subscribes s !! k) as [y|] eqn:Hy; [|done]. by apply (Hd k y).
Qed.

Lemma send_new_wf m s : wf s -> wf (send_new_subscribes m s).1.
Proof.
  intros [Ha Hn Hd Hs]. unfold send_new_subscribes. pose proof (broadcast_ids (fun _ _ => true) m _ Hn) as Hids.
  pose proof (broadcast_fst (fun _ _ => true) m (new_subscribes s)) as Hl.
  destruct (broadcast _ m (new_subscribes s)) as [n out]. simpl in *.
  split; simpl; try done.
  - intros k x Hx. rewrite Hl, (Hd k x Hx). done.
  - intros Hsn. apply map_empty. intros k. rewrite Hl, Hs by done. done.
Qed.

Lemma swap_wf s : wf s -> wf (swap_new_subscribes s).
Proof.
  intros Hwf. pose proof (fun k => swap_lookup s k Hwf) as Hl. destruct Hwf as [Ha Hn Hd Hs]. split; try done.
  intros k x. rewrite Hl. destruct (new_subscribes s !! k) eqn:Hk; [intros [= <-]; by apply Hn|apply Ha].
Qed.

Lemma apply_wf o s : wf s -> wf (apply o s).1.
Proof.
  intros Hwf. destruct o as [c|j|m|m j|m j|m j|m| |opt v|]; cbn [apply fst].
  - by apply on_subscribe_wf.
  - by apply on_unsubscribe_wf.
  - by apply to_subscribes_wf.
  - unfold send_to. destruct (subscribes s !! j) as [x|] eqn:Hx; [|done].
    pose proof (id_send m x) as Hid. destruct (send m x) as [x' d]. simpl in *. destruct Hwf as [Ha Hn Hd Hs]. split; simpl; try done.
    + intros k y [[<- <-]|[_ Hy]]%lookup_insert_Some; [rewrite Hid|]; by apply Ha.
    + intros k y [[<- <-]|[_ Hy]]%lookup_insert_Some; [by apply (Hd j x)|by apply (Hd k y)].
  - by apply to_subscribes_wf.
  - by apply to_subscribes_wf.
  - by apply send_new_wf.
  - by apply swap_wf.
  - by destruct Hwf.
  - by destruct Hwf.
Qed.

(** Sending to the joined subscribers, seen by one connection. *)
Lemma to_subscribes_phase keep b m i s : (forall x, subscribes s !! i = Some x -> keep i x = b) ->
  phase i (to_subscribes keep m s).1 = (joined_send b m (phase i s)).1 /\
  default [] ((to_subscribes keep m s).2 !! i) = (joined_send b m (phase i s)).2.
Proof.
  intros Hk. pose proof (broadcast_fst keep m (subscribes s) i) as H1. pose proof (broadcast_snd keep m (subscribes s) i) as H2.
  unfold to_subscribes. destruct (broadcast keep m (subscribes s)) as [a out]. simpl in *. rewrite H2. unfold phase. simpl. rewrite H1.
  destruct (subscribes s !! i) as [x|]; simpl; [|by destruct (new_subscribes s !! i)]. rewrite (Hk x) by done.
  destruct b; [|done]. by destruct (send m x).
Qed.

Lemma apply_phase o i s : wf s ->
  phase i (apply o s).1 = (phase_step (need_snapshot s) i o (phase i s)).1 /\
  default [] ((apply o s).2 !! i) = (phase_step (need_snapshot s) i o (phase i s)).2.
Proof.
  intros Hwf. destruct o as [c|j|m|m j|m j|m j|m| |opt v|]; cbn [apply phase_step fst snd]; try done.
  - split; [|by case_bool_decide]. unfold on_subscribe, phase.
    destruct (decide (inner_id c = i)) as [<-|Hi].
    + rewrite (bool_decide_true (inner_id c = inner_id c)) by done. simpl.
      destruct (subscribes s !! inner_id c) as [x|] eqn:Hx; [rewrite bool_decide_true by eauto; by rewrite Hx|].
      rewrite bool_decide_false by (by intros [??]). destruct (need_snapshot s); simpl; rewrite ?Hx, lookup_insert_eq; [|by destruct (new_subscribes s !! inner_id c)].
      by destruct (new_subscribes s !! inner_id c).
    + rewrite (bool_decide_false (inner_id c = i)) by done. simpl. case_bool_decide; [done|].
      destruct (need_snapshot s); simpl; by rewrite lookup_insert_ne.
  - split; [|done]. unfold on_unsubscribe, phase. pose proof (wf_disjoint s Hwf i) as Hd.
    destruct (decide (j = i)) as [->|Hi]; [rewrite bool_decide_true by done|rewrite bool_decide_false by done].
    + destruct (subscribes s !! i) as [x|] eqn:Hx; simpl; [by rewrite lookup_delete_eq, (Hd x)|by rewrite Hx, lookup_delete_eq].
    + destruct (subscribes s !! j); simpl; by rewrite lookup_delete_ne.
  - by apply to_subscribes_phase.
  - unfold send_to, phase, joined_send. destruct (decide (j = i)) as [->|Hi].
    + rewrite Z.eqb_refl. destruct (subscribes s !! i) as [x|] eqn:Hx; simpl.
      * destruct (send m x) as [x' d]. simpl. unfold Out. rewrite lookup_insert_eq, lookup_singleton_eq. done.
      * rewrite Hx. by destruct (new_subscribes s !! i).
    + rewrite (proj2 (Z.eqb_neq _ _) Hi). destruct (subscribes s !! j) as [x|] eqn:Hx; simpl.
      * destruct (send m x) as [x' d]. simpl. unfold Out. rewrite lookup_insert_ne, lookup_singleton_ne by done.
        destruct (subscribes s !! i); [done|]. by destruct (new_subscribes s !! i).
      * destruct (subscribes s !! i); [done|]. by destruct (new_subscribes s !! i).
  - apply to_subscribes_phase. intros x _. by rewrite Z.eqb_sym.
  - apply to_subscribes_phase. intros x Hx. by rewrite (joined_id s Hwf i x Hx).
  - pose proof (broadcast_fst (fun _ _ => true) m (new_subscribes s) i) as H1. pose proof (broadcast_snd (fun _ _ => true) m (new_subscribes s) i) as H2.
    pose proof (wf_disjoint s Hwf i) as Hd.
    unfold send_new_subscribes. destruct (broadcast _ m (new_subscribes s)) as [a out]. simpl in *. rewrite H2. unfold phase. simpl. rewrite H1.
    destruct (subscribes s !! i) as [x|]; [by rewrite (Hd x)|]. destruct (new_subscribes s !! i) as [x|]; [|done]. simpl.
    by destruct (send m x).
  - split; [|done]. unfold phase at 1. rewrite swap_lookup by done. pose proof (wf_disjoint s Hwf i) as Hd. unfold phase.
    destruct (subscribes s !! i) as [x|]; [by rewrite (Hd x)|]. simpl. rewrite lookup_empty. by destruct (new_subscribes s !! i).
Qed.

Lemma trace_app ops1 ops2 s :
  trace (ops1 ++ ops2) s =
    let '(s1, o1) := trace ops1 s in let '(s2, o2) := trace ops2 s1 in (s2, o1 ++ o2).
Proof.
  revert s. induction ops1 as [|o ops1 IH]; intros s; simpl; [by destruct (trace ops2 s)|].
  destruct (apply o s) as [s1 out]. rewrite IH. destruct (trace ops1 s1) as [s2 o1]. by destruct (trace ops2 s2).
Qed.
Lemma phase_run_app snap i ops1 ops2 p :
  phase_run snap i (ops1 ++ ops2) p =
    let '(p1, d1) := phase_run snap i ops1 p in let '(p2, d2) := phase_run snap i ops2 p1 in (p2, d1 ++ d2).
Proof.
  revert p. induction ops1 as [|o ops1 IH]; intros p; simpl; [by destruct (phase_run snap i ops2 p)|].
  destruct (phase_step snap i o p) as [p1 d]. rewrite IH. destruct (phase_run snap i ops1 p1) as [p2 d1].
  destruct (phase_run snap i ops2 p2). by rewrite (assoc_L (++)).
Qed.
Lemma received_app i o1 o2 : received i (o1 ++ o2) = received i o1 ++ received i o2.
Proof. unfold received. by rewrite fmap_app, join_app. Qed.

Lemma trace_wf ops s : wf s -> wf (trace ops s).1.
Proof.
  revert s. induction ops as [|o ops IH]; intros s Hs; [done|]. simpl. apply (apply_wf o) in Hs.
  destruct (apply o s) as [s1 out]. specialize (IH s1 Hs). by destruct (trace ops s1).
Qed.
Lemma trace_need_snapshot ops s : need_snapshot (trace ops s).1 = need_snapshot s.
Proof.
  revert s. induction ops as [|o ops IH]; intros s; [done|]. simpl. pose proof (apply_need_snapshot o s) as Hs.
  destruct (apply o s) as [s1 out]. specialize (IH s1). destruct (trace ops s1). simpl in *. congruence.
Qed.

Lemma trace_phase ops i s : wf s ->
  phase i (trace ops s).1 = (phase_run (need_snapshot s) i ops (phase i s)).1 /\
  received i (trace ops s).2 = (phase_run (need_snapshot s) i ops (phase i s)).2.
Proof.
  revert s. induction ops as [|o ops IH]; intros s Hs; [done|]. simpl.
  destruct (apply_phase o i s Hs) as [Hp Ho]. pose proof (apply_need_snapshot o s) as Hn. apply (apply_wf o) in Hs.
  destruct (apply o s) as [s1 out]. destruct (phase_step (need_snapshot s) i o (phase i s)) as [p1 d]. simpl in *.
  destruct (IH s1 Hs) as [IHp IHo]. rewrite Hn, Hp in IHp, IHo. destruct (trace ops s1) as [s2 outs].
  destruct (phase_run (need_snapshot s) i ops p1) as [p2 ds]. simpl in *. split; [done|].
  change (received i (out :: outs)) with (default [] (out !! i) ++ received i outs). by rewrite Ho, IHo.
Qed.

Lemma is_subed_phase i s : is_subed i s = match phase i s with Absent => false | _ => true end.
Proof.
  unfold is_subed, phase. destruct (subscribes s !! i); [done|]. by destruct (new_subscribes s !! i).
Qed.

(** Whether the last word of a connection was to subscribe. *)
Fixpoint wants (i : Z) (ops : list Op) (was : bool) : bool :=
  match ops with
  | [] => was
  | OnSubscribe c :: ops => wants i ops (bool_decide (inner_id c = i) || was)
  | OnUnsubscribe j :: ops => wants i ops (negb (bool_decide (j = i)) && was)
  | _ :: ops => wants i ops was
  end.

Definition present (p : Phase) : bool := match p with Absent => false | _ => true end.

Lemma phase_step_present snap i o p : present (phase_step snap i o p).1 = wants i [o] (present p).
Proof.
  assert (forall b m, present (joined_send b m p).1 = present p) as Hj.
  { intros b m. destruct p as [|x|x]; try done. unfold joined_send. destruct b; [|done]. by destruct (send m x). }
  destruct o as [c|j|m|m j|m j|m j|m| |opt v|]; cbn [phase_step wants]; try apply Hj; try done.
  - case_bool_decide; [|done]. destruct p; [by destruct snap|by destruct snap|done].
  - by case_bool_decide.
  - destruct p as [|x|x]; try done. by destruct (send m x).
  - by destruct p.
Qed.

Lemma phase_run_present snap i ops p : present (phase_run snap i ops p).1 = wants i ops (present p).
Proof.
  revert p. induction ops as [|o ops IH]; intros p; [done|]. simpl. pose proof (phase_step_present snap i o p) as Hp.
  destruct (phase_step snap i o p) as [p1 d]. specialize (IH p1). destruct (phase_run snap i ops p1) as [p2 ds]. simpl in *.
  rewrite IH, Hp. by destruct o.
Qed.

Lemma absent_silent snap i o p : present p = false -> (phase_step snap i o p).2 = [].
Proof. destruct p; try done. intros _. destruct o; simpl; try done. by case_bool_decide. Qed.

Lemma absent_run_silent snap i ops p : present p = false ->
  (forall c, OnSubscribe c ∈ ops -> inner_id c <> i) -> (phase_run snap i ops p).2 = [].
Proof.
  revert p. induction ops as [|o ops IH]; intros p Hp Ho; [done|]. simpl.
  pose proof (absent_silent snap i o p Hp) as Hd. pose proof (phase_step_present snap i o p) as Hs.
  destruct (phase_step snap i o p) as [p1 d]. simpl in *. subst d.
  assert (present p1 = false) as Hp1.
  { rewrite Hs, Hp. destruct o as [c|j| | | | | | | |]; simpl; try done; [|by rewrite andb_false_r].
    by rewrite bool_decide_false by (apply Ho; left). }
  specialize (IH p1 Hp1 (fun c Hc => Ho c (list_elem_of_further _ _ _ Hc))).
  destruct (phase_run snap i ops p1). by simpl in *.
Qed.

Lemma phase_log_app snap i ops1 ops2 p log :
  phase_log snap i (ops1 ++ ops2) p log =
    let '(p1, log1) := phase_log snap i ops1 p log in phase_log snap i ops2 p1 log1.
Proof.
  revert p log. induction ops1 as [|o ops1 IH]; intros p log; [done|]. simpl. destruct (phase_step snap i o p). apply IH.
Qed.
(** One step of it. *)
Definition log_step (snap : bool) (i : Z) (o : Op) (pl : Phase * list Delivery) : Phase * list Delivery :=
  ((phase_step snap i o pl.1).1, if fresh i o pl.1 then [] else pl.2 ++ (phase_step snap i o pl.1).2).
Lemma phase_log_cons snap i o ops p log :
  phase_log snap i (o :: ops) p log = phase_log snap i ops (log_step snap i o (p, log)).1 (log_step snap i o (p, log)).2.
Proof. simpl. unfold log_step. simpl. by destruct (phase_step snap i o p). Qed.

(** What other threads do to a connection of a service with snapshots. *)
Lemma external_log_step i o pl : external o ->
  log_step true i o pl = pl \/ log_step true i o pl = (Absent, pl.2) \/
  exists c, o = OnSubscribe c /\ inner_id c = i /\ log_step true i o pl = (Waiting (from c), []).
Proof.
  intros He. destruct pl as [p log]. unfold log_step. cbn [fst snd].
  destruct o as [c|j| | | | | | |opt v|]; try done; cbn [phase_step fst snd fresh]; rewrite ?app_nil_r; auto.
  - case_bool_decide as Hi; cbn [fst snd].
    + rewrite (proj2 (Z.eqb_eq _ _) Hi). destruct p as [|x|x]; cbn [fst snd]; rewrite ?app_nil_r; eauto 6.
    + rewrite (proj2 (Z.eqb_neq _ _) Hi). destruct p; rewrite app_nil_r; auto.
  - case_bool_decide; auto.
Qed.
Lemma phase_log_phase snap i ops p log : (phase_log snap i ops p log).1 = (phase_run snap i ops p).1.
Proof.
  revert p log. induction ops as [|o ops IH]; intros p log; [done|]. simpl. destruct (phase_step snap i o p) as [p1 d].
  rewrite IH. by destruct (phase_run snap i ops p1).
Qed.

(** ** Service threads

    One turn of the loops of [repeat] and [run]: the steps it takes, with those
    of other threads among them, and for how long the thread sleeps.  The
    result is [None] once the service was told to stop.  [mid] is what others
    do between the look at the subscribers and the work. *)
Definition HIBERNATE_TIMEOUT : Z := 30.
Definition MAX_ERROR_TIMEOUT : Z := 1000.

Definition repeat_turn {S E : Type} (init reset : S -> S)
    (callback : Service -> S -> list Op * S * result unit E)
    (interval elapsed : Z) (mid : list Op) (s : Service) (w : S * bool) : option (list Op * (S * bool) * list Z) :=
  let '(state, may_reset) := w in
  if active s then
    let '(ops, w, sleeps) :=
      if has_subscribes s then
        let state := if may_reset then state else init state in
        let '(ops, state, r) := callback (trace mid s).1 state in
        (ops, (state, true), match r with Err _ => [MAX_ERROR_TIMEOUT] | Ok _ => [] end)
      else if may_reset then ([], (reset state, false), [])
      else ([], (state, may_reset), []) in
    Some (mid ++ ops, w, sleeps ++ if elapsed <? interval then [interval - elapsed] else [])
  else None.

(** The back-off after a failure; [elapsed] is how long the callback worked. *)
Definition next_error_timeout (error_timeout elapsed : Z) : Z :=
  let error_timeout := if MAX_ERROR_TIMEOUT <? elapsed then HIBERNATE_TIMEOUT else u64_of (error_timeout * 2) in
  if MAX_ERROR_TIMEOUT <? error_timeout then MAX_ERROR_TIMEOUT else error_timeout.

Definition run_turn {E : Type} (callback : Service -> list Op * result unit E)
    (elapsed : Z) (mid : list Op) (s : Service) (error_timeout : Z) : option (list Op * Z * list Z) :=
  if active s then
    if has_subscribes s then
      let '(ops, r) := callback (trace mid s).1 in
      match r with
      | Err _ =>
          let error_timeout := next_error_timeout error_timeout elapsed in
          Some (mid ++ ops, error_timeout, [error_timeout; HIBERNATE_TIMEOUT])
      | Ok _ => Some (mid ++ ops, error_timeout, [HIBERNATE_TIMEOUT])
      end
    else Some (mid, error_timeout, [HIBERNATE_TIMEOUT])
  else None.

(** The back-off after failures whose callbacks worked for the given times. *)
Definition error_timeouts (elapsed : list Z) : Z := fold_left next_error_timeout elapsed HIBERNATE_TIMEOUT.

Lemma next_error_timeout_quick t e : 0 <= t <= MAX_ERROR_TIMEOUT -> e <= MAX_ERROR_TIMEOUT ->
  next_error_timeout t e = Z.min MAX_ERROR_TIMEOUT (2 * t).
Proof.
  unfold next_error_timeout, MAX_ERROR_TIMEOUT. intros Ht He. rewrite (proj2 (Z.ltb_ge _ _) He).
  unfold u64_of. rewrite wrap_id by (unfold in_width; lia). destruct (Z.ltb_spec 1000 (t * 2)); lia.
Qed.

Lemma next_error_timeout_bounds t e : HIBERNATE_TIMEOUT <= t <= MAX_ERROR_TIMEOUT ->
  HIBERNATE_TIMEOUT <= next_error_timeout t e <= MAX_ERROR_TIMEOUT.
Proof.
  intros Ht. destruct (Z.le_gt_cases e MAX_ERROR_TIMEOUT) as [He|He].
  - rewrite next_error_timeout_quick by (unfold HIBERNATE_TIMEOUT in *; lia). unfold HIBERNATE_TIMEOUT, MAX_ERROR_TIMEOUT in *. lia.
  - unfold next_error_timeout. rewrite (proj2 (Z.ltb_lt _ _) He). unfold HIBERNATE_TIMEOUT, MAX_ERROR_TIMEOUT. simpl. lia.
Qed.

Lemma error_timeouts_bounds es : HIBERNATE_TIMEOUT <= error_timeouts es <= MAX_ERROR_TIMEOUT.
Proof.
  assert (forall t, HIBERNATE_TIMEOUT <= t <= MAX_ERROR_TIMEOUT ->
    HIBERNATE_TIMEOUT <= fold_left next_error_timeout es t <= MAX_ERROR_TIMEOUT) as Hf.
  { induction es as [|e es IH]; intros t Ht; simpl; [exact Ht|]. apply IH. by apply next_error_timeout_bounds. }
  apply Hf. unfold HIBERNATE_TIMEOUT, MAX_ERROR_TIMEOUT. lia.
Qed.

(** Quick failures in a row double the pause until it reaches a second. *)
Lemma quick_failures es e : Forall (fun x => x <= MAX_ERROR_TIMEOUT) es -> MAX_ERROR_TIMEOUT < e ->
  error_timeouts (e :: es) = Z.min MAX_ERROR_TIMEOUT (HIBERNATE_TIMEOUT * 2 ^ len es).
Proof.
  intros Hes He. unfold error_timeouts. simpl. unfold next_error_timeout at 2. rewrite (proj2 (Z.ltb_lt _ _) He). simpl.
  assert (forall t, 0 < t <= MAX_ERROR_TIMEOUT ->
    fold_left next_error_timeout es t = Z.min MAX_ERROR_TIMEOUT (t * 2 ^ len es)) as Hf; [|apply Hf; unfold HIBERNATE_TIMEOUT, MAX_ERROR_TIMEOUT; lia].
  clear He e. induction Hes as [|e es He Hes IH]; intros t Ht; simpl; [rewrite len_nil; simpl; lia|].
  rewrite next_error_timeout_quick by lia. rewrite len_cons. pose proof (len_nonneg es).
  rewrite IH by (unfold MAX_ERROR_TIMEOUT in *; lia). rewrite (Z.pow_add_r 2 1) by lia.
  assert (1 <= 2 ^ len es) by (pose proof (Z.pow_pos_nonneg 2 (len es)); lia).
  unfold MAX_ERROR_TIMEOUT in *. destruct (Z.min_spec 1000 (2 * t)) as [[? ->]|[? ->]]; nia.
Qed.
End Service.

(** ** What a service promises *)

(** [C11] Whatever connections subscribe, leave and are sent in whatever order,
    each connection is in the phase, and has been sent exactly the messages, of
    an automaton that only looks at its own subscriptions and the messages that
    are addressed to it: first absent, then waiting for the snapshot where the
    service has one, then joined; and it is subscribed exactly when its last
    word was to subscribe. *)
Theorem service_refines_phases {T} `{SubscriberLaws T} n snap i ops :
  let '(s, outs) := trace ops (new n snap : ServiceInner T) in
  phase i s = (phase_run snap i ops Absent).1 /\
  received i outs = (phase_run snap i ops Absent).2 /\
  is_subed i s = wants i ops false.
Proof.
  destruct (trace ops (new n snap)) as [s outs] eqn:E.
  destruct (trace_phase ops i (new n snap) (new_wf n snap)) as [Hp Ho]. rewrite E in Hp, Ho. simpl in Hp, Ho.
  unfold phase in Hp at 2. unfold phase in Ho. simpl in Hp, Ho. rewrite lookup_empty in Hp, Ho.
  split_and!; [done..|]. rewrite is_subed_phase, Hp. apply (phase_run_present snap i ops Absent).
Qed.

(** A connection that left, or never came, is sent nothing until it subscribes. *)
Lemma left_receives_nothing {T} `{SubscriberLaws T} i ops (s : ServiceInner T) : wf s -> is_subed i s = false ->
  (forall c, OnSubscribe c ∈ ops -> inner_id c <> i) -> received i (trace ops s).2 = [].
Proof.
  intros Hs Hi Ho. rewrite (proj2 (trace_phase ops i s Hs)). apply absent_run_silent; [|done].
  rewrite is_subed_phase in Hi. by destruct (phase i s).
Qed.

Lemma service_refines_phases_witness :
  let m := OtherMessage [] in
  let ops := [OnSubscribe (mkConnInner 7 true true); SendShared m; SendNew (CursorPosition 1 2); Swap; SendShared m; SendWithout m 7;
              OnUnsubscribe 7; SendShared m] in
  received 7 (trace ops (new "demo" true : ServiceInner ConnInner)).2 = [(Tx, CursorPosition 1 2); (Tx, m)].
Proof.
  intros m ops. pose proof (service_refines_phases (T := ConnInner) "demo" true 7 ops) as H.
  vm_compute in H. vm_compute. exact (proj1 (proj2 H)).
Defined.
