(* ===== verification/PointerServices.v ===== *)
(** * The pointer services ([src/server/input_service.rs])

    The device's pointer is three services: its shape, its position and the
    display that has the focus.  The shape service remembers, for each
    subscriber, which shapes it was sent and repeats only their numbers; the
    viewer keeps the shapes.  [Viewer] is a reference viewer, and the theorems
    say what it shows. *)
From S2P Require Import Prelude.
From S2P Require Import SessionState.
From S2P Require Import Service.

Definition INVALID_CURSOR_POS : Z := - 2 ^ 31.
Definition INVALID_DISPLAY_IDX : Z := -1.

(** ** Subscribers of the shape service *)
Record MouseCursorSub := mkCursorSub { inner : ConnInner; cached : gmap Z Message }.

Definition cursor_send (m : Message) (x : MouseCursorSub) : MouseCursorSub * list Delivery :=
  match m with
  | CursorData i _ _ =>
      match cached x !! i with
      | Some m => (x, (conn_send m (inner x)).2)
      | None => (mkCursorSub (inner x) (<[i := CursorId i]> (cached x)), (conn_send m (inner x)).2)
      end
  | _ => (x, (conn_send m (inner x)).2)
  end.

#[export] Instance cursor_subscriber : Subscriber MouseCursorSub :=
  {| id x := inner_id (inner x); send := cursor_send; from c := mkCursorSub c ∅ |}.
#[export] Instance cursor_laws : SubscriberLaws MouseCursorSub.
Proof. split; [done|]. intros m x. destruct m; try done. simpl. by destruct (cached x !! id). Qed.

(** ** The shape service *)
Record StateCursor := mkStateCursor {
  hcursor : Z;
  cursor_data : Message;
  cached_cursor_data : gmap Z Message
}.
Definition StateCursor_default : StateCursor := mkStateCursor 0 (OtherMessage []) ∅.
Definition StateCursor_reset (_ : StateCursor) : StateCursor := StateCursor_default.

Section Shape.
Context {E : Type}.
(** The compressor (zstd), and what the platform knows of the pointer: the
    handle of its shape, and the shape with a handle. *)
Context (compress : bytes -> bytes).
Abbreviation Svc := (ServiceInner MouseCursorSub).

(** The message for a shape, from the cache or made now. *)
Definition cursor_message (get_cursor_data : Z -> result (Z * bytes * bytes) E) (h : Z) (st : StateCursor)
  : result (Message * gmap Z Message) E :=
  match cached_cursor_data st !! h with
  | Some msg => Ok (msg, cached_cursor_data st)
  | None =>
      let? data := get_cursor_data h in
      let '(i, hot, colors) := data in
      let msg := CursorData i hot (compress colors) in
      Ok (msg, <[h := msg]> (cached_cursor_data st))
  end.

(** The announcement of a new shape, before the snapshot. *)
Definition announce (get_cursor : result (option Z) E) (get_cursor_data : Z -> result (Z * bytes * bytes) E)
    (st : StateCursor) : result (list Op * StateCursor) E :=
  let? h := get_cursor in
  match h with
  | Some h =>
      if h =? hcursor st then Ok ([], st)
      else
        let? mc := cursor_message get_cursor_data h st in
        let '(msg, cache) := mc in
        Ok ([SendShared msg], mkStateCursor h msg cache)
  | None => Ok ([], st)
  end.

Definition run_cursor (get_cursor : result (option Z) E) (get_cursor_data : Z -> result (Z * bytes * bytes) E)
    (before after : list Op) (s : Svc) (st : StateCursor) : list Op * StateCursor * result unit E :=
  match announce get_cursor get_cursor_data st with
  | Err e => ([], st, Err e)
  | Ok (ops, st) =>
      let '(more, r) := snapshot (fun _ => ([cursor_data st], Ok tt)) before after (trace ops s).1 in
      (ops ++ more, st, r)
  end.

(** What the outside contributes to one turn of the thread. *)
Record Turn := mkTurn {
  between : list Op;
  mid : list Op;
  get_cursor : result (option Z) E;
  get_cursor_data : Z -> result (Z * bytes * bytes) E;
  before_snapshot : list Op;
  after_snapshot : list Op;
  elapsed : Z
}.

(** [new_cursor]: the thread's life, as the steps that were taken so far and
    the thread's state. *)
Definition cursor_turn (t : Turn) (w : list Op * (StateCursor * bool)) : list Op * (StateCursor * bool) :=
  let '(ops, st) := w in
  let ops := ops ++ between t in
  let s := (trace ops (new NAME_CURSOR true)).1 in
  match repeat_turn (fun st => st) StateCursor_reset
          (run_cursor (get_cursor t) (get_cursor_data t) (before_snapshot t) (after_snapshot t)) 33 (elapsed t) (mid t) s st with
  | Some (more, st, _) => (ops ++ more, st)
  | None => (ops, st)
  end.
Definition cursor_run (ts : list Turn) : list Op * (StateCursor * bool) :=
  foldl (fun w t => cursor_turn t w) ([], (StateCursor_default, false)) ts.
End Shape.
Arguments Turn : clear implicits.
Arguments mkTurn {E}.

(** ** Position and focus *)
Record Input := mkInput { in_conn : Z; in_time : Z }.

Definition pos_valid (st : Z * Z) : bool := negb (st.1 =? INVALID_CURSOR_POS).
Definition is_moved (st : Z * Z) (x y : Z) : bool := pos_valid st && (negb (st.1 =? x) || negb (st.2 =? y)).

(** [run_pos]; nobody is told of movements it made itself just before. *)
Definition run_pos {E} (pos : Z * Z) (now : Z) (latest : Input) (before after : list Op)
    (s : ServiceInner ConnInner) (st : Z * Z) : list Op * (Z * Z) * result unit E :=
  let '(x, y) := pos in
  if (x =? INVALID_CURSOR_POS) || (y =? INVALID_CURSOR_POS) then ([], st, Ok tt)
  else
    let exclude := if i64_of (now - in_time latest) <? 300 then in_conn latest else 0 in
    let ops := if is_moved st x y then [SendWithout (CursorPosition x y) exclude] else [] in
    let '(more, r) := snapshot (fun _ => ([CursorPosition x y], Ok tt)) before after (trace ops s).1 in
    (ops ++ more, (x, y), r).

Definition focus_changed (st disp_idx : Z) : bool := negb (st =? INVALID_DISPLAY_IDX) && negb (st =? disp_idx).
Definition run_window_focus (ndisplays : Z) (focused : option Z) (st : Z) : list Op * Z :=
  if ndisplays <=? 1 then ([], st)
  else
    match focused with
    | Some d => (if focus_changed st d then [SendShared (FollowCurrentDisplay d)] else [], d)
    | None => ([], st)
    end.

(** ** The reference viewer *)
Record Viewer := mkViewer { shapes : gmap Z (bytes * bytes); shown : option (Z * (bytes * bytes)) }.
Definition show (v : Viewer) (d : Delivery) : Viewer :=
  match d.2 with
  | CursorData i hot colors => mkViewer (<[i := (hot, colors)]> (shapes v)) (Some (i, (hot, colors)))
  | CursorId i => mkViewer (shapes v) (pair i <$> shapes v !! i)
  | _ => v
  end.
Definition view (log : list Delivery) : Viewer := foldl show (mkViewer ∅ None) log.

Definition shape_of (m : Message) : option (Z * (bytes * bytes)) :=
  match m with CursorData i hot colors => Some (i, (hot, colors)) | _ => None end.

(** ** What holds while the shape service runs *)
Record state_ok (st : StateCursor) : Prop := {
  cache_ok : forall h m, cached_cursor_data st !! h = Some m -> exists hot colors, m = CursorData h hot colors;
  current_ok : cursor_data st = OtherMessage [] \/
    exists h hot colors, cursor_data st = CursorData h hot colors /\ cached_cursor_data st !! h = Some (cursor_data st)
}.

Definition consistent (st : StateCursor) (x : MouseCursorSub) (v : Viewer) : Prop :=
  forall i m, cached x !! i = Some m -> m = CursorId i /\
    exists hot colors, cached_cursor_data st !! i = Some (CursorData i hot colors) /\ shapes v !! i = Some (hot, colors).

(** [g]: whether the viewer never arrived between the sending of a snapshot and
    the admission of those who waited. *)
Definition shown_ok (g : bool) (st : StateCursor) (log : list Delivery) : Prop :=
  shown (view log) = shape_of (cursor_data st) \/ (g = false /\ log = []).
Definition good (g : bool) (st : StateCursor) (x : MouseCursorSub) (log : list Delivery) : Prop :=
  tx (inner x) = true -> consistent st x (view log) /\ shown_ok g st log.

(** [w]: whether the snapshot is out. *)
Definition fine (g w : bool) (st : StateCursor) (pl : Phase * list Delivery) : Prop :=
  match pl.1 with
  | Absent => True
  | Waiting x => if w then good g st x pl.2 else x = from (inner x) /\ pl.2 = []
  | Joined x => good g st x pl.2
  end.

Lemma view_snoc log d : view (log ++ [d]) = show (view log) d.
Proof. unfold view. by rewrite foldl_app. Qed.

(** Sending the current shape to a consistent subscriber shows it. *)
Lemma send_shows g st x log : state_ok st -> (tx (inner x) = true -> consistent st x (view log)) ->
  cursor_data st <> OtherMessage [] \/ shown (view log) = None ->
  good g st (send (cursor_data st) x).1 (log ++ (send (cursor_data st) x).2).
Proof.
  intros [Hcache Hcur] Hc Hk. destruct Hcur as [Hm|(h & hot & colors & Hm & Hin)].
  - rewrite Hm. simpl. intros Ht. destruct Hk as [Hk|Hk]; [done|]. unfold conn_send. simpl. rewrite Ht. simpl.
    unfold shown_ok. rewrite view_snoc. unfold show. simpl. split; [by apply Hc|]. left. by rewrite Hm.
  - rewrite Hm in Hin |- *. simpl. destruct (cached x !! h) as [m|] eqn:Hx; simpl; intros Ht.
    + destruct (Hc Ht h m Hx) as (-> & a & b & Hab & Hv). rewrite Hin in Hab. injection Hab as -> ->.
      unfold conn_send. simpl. rewrite Ht. simpl. unfold shown_ok. rewrite view_snoc. unfold show. simpl. rewrite Hv. simpl.
      split; [by apply Hc|]. left. by rewrite Hm.
    + simpl in Ht. unfold conn_send. simpl. rewrite Ht. simpl. unfold shown_ok. rewrite view_snoc. unfold show. simpl. split; [|left; by rewrite Hm].
      intros i m. simpl. intros [[<- <-]|[Hne Hi]]%lookup_insert_Some.
      * split; [done|]. exists hot, colors. by rewrite lookup_insert_eq.
      * destruct (Hc Ht i m Hi) as (-> & a & b & Hab & Hv). split; [done|]. exists a, b. by rewrite lookup_insert_ne.
Qed.

(** ** The steps of a turn *)

(** The viewer [i] arrives. *)
Definition arrival (i : Z) (o : Op) : bool := match o with OnSubscribe c => inner_id c =? i | _ => false end.

Lemma good_empty st c : good false st (from c) [].
Proof. intros _. split; [|by right]. intros i m. simpl. by rewrite lookup_empty. Qed.

Lemma external_fine g w st i o pl : external o -> (w = true -> arrival i o = true -> g = false) ->
  fine g w st pl -> fine g w st (log_step true i o pl).
Proof.
  intros He Hg Hf. destruct (external_log_step i o pl He) as [->|[->|(c & -> & Hi & ->)]]; [done..|].
  unfold fine. simpl. destruct w; [rewrite Hg by (done || by apply Z.eqb_eq); apply good_empty|done].
Qed.

Lemma externals_fine g w st i ops p log : Forall external ops -> (w = true -> g = true -> Forall (fun o => negb (arrival i o)) ops) ->
  fine g w st (p, log) -> fine g w st (phase_log true i ops p log).
Proof.
  intros He. revert p log. induction He as [|o ops Ho He IH]; intros p log Hg Hf; [done|].
  rewrite phase_log_cons. assert (w = true -> arrival i o = true -> g = false) as Hgo.
  { intros Hw Ha. destruct g; [|done]. specialize (Hg Hw eq_refl). inversion Hg as [|? ? Hn]. by rewrite Ha in Hn. }
  pose proof (external_fine g w st i o (p, log) Ho Hgo Hf) as H1. destruct (log_step true i o (p, log)) as [p1 log1].
  apply IH; [|done]. intros Hw Hgt. specialize (Hg Hw Hgt). by inversion Hg.
Qed.

(** Nobody joins before a snapshot. *)
Lemma waiting_stay_waiting g i ops p log st st' : Forall external ops -> fine g false st (p, log) ->
  (forall x, p <> Joined x) -> fine g false st' (phase_log true i ops p log).
Proof.
  intros He Hf Hj. apply externals_fine; [done..|]. destruct p as [|x|x]; try done. by destruct (Hj x).
Qed.

(** The announcement of a new shape. *)
Definition extends (st st' : StateCursor) : Prop :=
  forall h m, cached_cursor_data st !! h = Some m -> cached_cursor_data st' !! h = Some m.

Lemma announce_fine g i st st' pl : state_ok st' -> extends st st' -> cursor_data st' <> OtherMessage [] ->
  fine g false st pl -> fine g false st' (log_step true i (SendShared (cursor_data st')) pl).
Proof.
  intros Hok Hext Hm Hf. destruct pl as [p log]. unfold log_step, fine in *. cbn [fst snd phase_step fresh] in *.
  destruct p as [|x|x]; simpl; [done|by rewrite app_nil_r|]. simpl in Hf.
  assert (good g st' (send (cursor_data st') x).1 (log ++ (send (cursor_data st') x).2)) as Hg.
  { apply send_shows; [done| |by left]. intros Ht. destruct (Hf Ht) as [Hc _]. intros j m Hj.
    destruct (Hc j m Hj) as (-> & a & b & Hab & Hv). split; [done|]. exists a, b. eauto. }
  simpl in Hg. by destruct (cursor_send (cursor_data st') x).
Qed.

(** The snapshot. *)
Lemma snapshot_sent_fine g i st pl : state_ok st ->
  fine g false st pl -> fine g true st (log_step true i (SendNew (cursor_data st)) pl).
Proof.
  intros Hok Hf. destruct pl as [p log]. unfold log_step, fine in *. cbn [fst snd phase_step fresh] in *.
  destruct p as [|x|x]; simpl; [done| |by rewrite app_nil_r]. destruct Hf as [Hx Hl]. simpl in Hl. subst log.
  pose proof (send_shows g st x [] Hok) as Hg. destruct (send (cursor_data st) x) as [x' d] eqn:E. simpl in E. rewrite E. apply Hg; [|by right].
  intros _ j m. rewrite Hx. simpl. by rewrite lookup_empty.
Qed.

Lemma swap_fine g i st pl : fine g true st pl -> fine g false st (log_step true i Swap pl).
Proof.
  intros Hf. destruct pl as [p log]. unfold log_step, fine in *. cbn [fst snd phase_step fresh] in *.
  destruct p as [|x|x]; simpl in *; rewrite ?app_nil_r; done.
Qed.

(** ** Turns *)
Section Turns.
Context {E : Type} (compress : bytes -> bytes).

(** What is asked of the outside: others only subscribe, leave, set options or
    stop the service; the platform hands out the shape that was asked for. *)
Record turn_ok (t : Turn E) : Prop := {
  between_ok : Forall external (between t);
  mid_ok : Forall external (mid t);
  before_ok : Forall external (before_snapshot t);
  after_ok : Forall external (after_snapshot t);
  platform_ok : forall h i hot colors, get_cursor_data t h = Ok (i, hot, colors) -> i = h
}.
(** The viewer [i] arrives after the snapshot was sent and before those who
    waited are admitted. *)
Definition in_gap (i : Z) (t : Turn E) : bool := existsb (arrival i) (after_snapshot t).
Definition punctual (g : bool) (i : Z) (t : Turn E) : Prop := g = true -> in_gap i t = false.
Lemma punctual_arrivals g i t : punctual g i t -> g = true -> Forall (fun o => negb (arrival i o)) (after_snapshot t).
Proof.
  intros H Hg. specialize (H Hg). unfold in_gap in H. induction (after_snapshot t) as [|o l IH]; [done|]. simpl in H.
  apply orb_false_iff in H as [H1 H2]. constructor; [by rewrite H1|by apply IH].
Qed.

Lemma snapshot_fine g t i st p log : turn_ok t -> punctual g i t -> state_ok st -> fine g false st (p, log) ->
  fine g false st (phase_log true i (before_snapshot t ++ [SendNew (cursor_data st)] ++ after_snapshot t ++ [Swap]) p log).
Proof.
  intros Ht Hti Hok Hf. rewrite !phase_log_app. destruct (phase_log true i (before_snapshot t) p log) as [p1 log1] eqn:E1.
  assert (fine g false st (p1, log1)) as H1 by (rewrite <- E1; apply externals_fine; [by apply Ht|done|done]).
  rewrite phase_log_app, phase_log_cons. apply (snapshot_sent_fine g i) in H1; [|done].
  destruct (log_step true i _ (p1, log1)) as [p2 log2]. cbn [fst snd phase_log].
  rewrite phase_log_app. destruct (phase_log true i (after_snapshot t) p2 log2) as [p3 log3] eqn:E3.
  assert (fine g true st (p3, log3)) as H3 by (rewrite <- E3; apply externals_fine; [by apply Ht|intros _; by apply punctual_arrivals|done]).
  rewrite phase_log_cons. apply (swap_fine g i) in H3. by destruct (log_step true i Swap (p3, log3)).
Qed.

Lemma announce_ok t st ops st' : turn_ok t -> state_ok st ->
  announce compress (get_cursor t) (get_cursor_data t) st = Ok (ops, st') ->
  state_ok st' /\ ((ops = [] /\ st' = st) \/
    (ops = [SendShared (cursor_data st')] /\ extends st st' /\ cursor_data st' <> OtherMessage [])).
Proof.
  intros Ht Hok. unfold announce, cursor_message. destruct (get_cursor t) as [[h|]|e]; simpl; [|intros [= <- <-]; auto|done].
  destruct (h =? hcursor st); [intros [= <- <-]; auto|].
  destruct (cached_cursor_data st !! h) as [m|] eqn:Hm; simpl.
  - intros [= <- <-]. destruct (cache_ok st Hok h m Hm) as (a & b & ->). split.
    + split; [apply Hok|]. right. simpl. eauto 6.
    + right. simpl. split_and!; [done|by intros ???|done].
  - destruct (get_cursor_data t h) as [[[i hot] colors]|e] eqn:Hd; [|done]. simpl. intros [= <- <-].
    rewrite (platform_ok t Ht h i hot colors Hd). split.
    + split; simpl.
      * intros k m [[<- <-]|[_ Hk]]%lookup_insert_Some; [eauto|by apply (cache_ok st Hok)].
      * right. exists h, hot, (compress colors). by rewrite lookup_insert_eq.
    + right. simpl. split_and!; [done| |done]. intros k m Hk. simpl. rewrite lookup_insert_ne; [done|congruence].
Qed.

Lemma run_cursor_fine g t s st i p log : turn_ok t -> punctual g i t -> state_ok st -> fine g false st (p, log) ->
  let '(ops, st', _) := run_cursor compress (get_cursor t) (get_cursor_data t) (before_snapshot t) (after_snapshot t) s st in
  state_ok st' /\ fine g false st' (phase_log true i ops p log).
Proof.
  intros Ht Hti Hok Hf. unfold run_cursor.
  destruct (announce compress (get_cursor t) (get_cursor_data t) st) as [[ops st']|e] eqn:Ea; [|done].
  destruct (announce_ok t st ops st' Ht Hok Ea) as [Hok' Hops].
  assert (fine g false st' (phase_log true i ops p log)) as Hf'.
  { destruct Hops as [[-> ->]|(-> & Hext & Hm)]; [done|]. rewrite phase_log_cons.
    pose proof (announce_fine g i st st' (p, log) Hok' Hext Hm Hf) as H1. by destruct (log_step true i _ (p, log)). }
  unfold snapshot. case_bool_decide; simpl; [|by rewrite app_nil_r].
  split; [done|]. rewrite phase_log_app. destruct (phase_log true i ops p log) as [p1 log1]. by apply snapshot_fine.
Qed.

Definition world_ok (g : bool) (i : Z) (w : list Op * (StateCursor * bool)) : Prop :=
  state_ok w.2.1 /\ fine g false w.2.1 (phase_log true i w.1 Absent []).

Lemma no_subscribes_absent (s : ServiceInner MouseCursorSub) i : has_subscribes s = false -> phase i s = Absent.
Proof.
  unfold has_subscribes, phase. intros [Ha Hn]%orb_false_iff.
  apply bool_decide_eq_false in Ha, Hn.
  assert (subscribes s = ∅) as -> by (apply map_size_empty_inv; lia).
  assert (new_subscribes s = ∅) as -> by (apply map_size_empty_inv; lia). by rewrite !lookup_empty.
Qed.

Lemma cursor_turn_ok g i t w : turn_ok t -> punctual g i t -> world_ok g i w -> world_ok g i (cursor_turn compress t w).
Proof.
  destruct w as [ops [st may]]. intros Ht Hti [Hok Hf]. simpl in Hok, Hf. unfold cursor_turn.
  set (s := (trace (ops ++ between t) (new NAME_CURSOR true)).1).
  assert (phase i s = (phase_log true i (ops ++ between t) Absent []).1) as Hs.
  { rewrite phase_log_phase. apply (trace_phase _ i (new NAME_CURSOR true) (new_wf _ _)). }
  assert (fine g false st (phase_log true i (ops ++ between t) Absent [])) as H1.
  { rewrite phase_log_app. destruct (phase_log true i ops Absent []) as [p log]. apply externals_fine; [by apply Ht|done|done]. }
  clearbody s. unfold repeat_turn. destruct (active s); [|done].
  assert (forall st', (st' = st \/ has_subscribes s = false) -> fine g false st' (phase_log true i ((ops ++ between t) ++ mid t) Absent [])) as H2.
  { intros st' Hst. rewrite phase_log_app.
    destruct (phase_log true i (ops ++ between t) Absent []) as [p log]. simpl in Hs.
    destruct Hst as [->|Hst]; [apply externals_fine; [by apply Ht|done|done]|].
    apply (waiting_stay_waiting g i _ p log st); [by apply Ht|done|]. rewrite <- Hs, (no_subscribes_absent s i Hst). done. }
  destruct (has_subscribes s) eqn:Hh.
  - assert ((if may then st else st) = st) as -> by by destruct may.
    set (s' := (trace (mid t) s).1). pose proof (fun p log => run_cursor_fine g t s' st i p log Ht Hti Hok) as Hrun.
    specialize (H2 st (or_introl eq_refl)). destruct (phase_log true i ((ops ++ between t) ++ mid t) Absent []) as [p log] eqn:Ep.
    specialize (Hrun p log H2). destruct (run_cursor compress _ _ _ _ s' st) as [[more st'] r]. unfold world_ok. simpl.
    by rewrite (assoc_L (++)), phase_log_app, Ep.
  - destruct may; split; simpl; rewrite ?app_nil_r; try (apply H2; auto); [|done].
    split; simpl; [intros h m; by rewrite lookup_empty|by left].
Qed.

Lemma cursor_run_ok g i ts : Forall turn_ok ts -> Forall (punctual g i) ts -> world_ok g i (cursor_run compress ts).
Proof.
  unfold cursor_run. assert (world_ok g i ([], (StateCursor_default, false))) as Hw.
  { split; [|done]. split; simpl; [intros h m; by rewrite lookup_empty|by left]. }
  revert Hw. generalize (@nil (Op), (StateCursor_default, false)). intros w Hw Ht. revert w Hw.
  induction Ht as [|t ts Ht Hts IH]; intros w Hw Hi; [done|]. inversion Hi; subst. simpl. apply IH; [by apply cursor_turn_ok|done].
Qed.
End Turns.

(** ** What viewers see *)


(** A service without snapshots never runs one: the position service asks for
    them in vain, and a viewer that joins while the pointer rests is not told
    where it is. *)
Lemma position_snapshot_never {E} ops callback before after :
  snapshot (E := E) callback before after (trace ops (new NAME_POS false : ServiceInner ConnInner)).1 = ([], Ok tt).
Proof.
  unfold snapshot. pose proof (trace_wf ops (new NAME_POS false : ServiceInner ConnInner) (new_wf _ _)) as Hwf.
  pose proof (trace_need_snapshot ops (new NAME_POS false : ServiceInner ConnInner)) as Hn. simpl in Hn.
  rewrite (no_snapshot _ Hwf Hn). done.
Qed.

(** Two turns: a viewer joins and is sent the shape; the shape changes and
    changes back, and the third message is a number. *)
Definition demo_cursor_turns : list (Turn unit) :=
  let turn ops h := mkTurn ops [] (Ok (Some h)) (fun h => Ok (h, [], [byte.of_Z h])) [] [] 40 in
  [turn [OnSubscribe (mkConnInner 7 true true)] 1; turn [] 2; turn [] 1].


(** The gap: one that arrives after the snapshot was sent and before the
    waiting ones are admitted is admitted without it. *)
Example arrival_in_the_gap :
  let late := mkTurn [OnSubscribe (mkConnInner 7 true true)] [] (Ok (Some 1)) (fun h => Ok (h, [], [byte.of_Z h]))
                [] [OnSubscribe (mkConnInner 8 true true)] 40 in
  let '(ops, (st, _)) := cursor_run (E := unit) (fun b => b) [late] in
  let '(s, outs) := trace ops (new NAME_CURSOR true : ServiceInner MouseCursorSub) in
  is_subed 8 s = true /\ new_subscribes s = ∅ /\ received 8 outs = [] /\ shape_of (cursor_data st) <> None.
Proof. vm_compute. split_and!; [done..|discriminate]. Qed.
