(* ===== verification/Server.v ===== *)
(** * The server of a controlled device ([src/server.rs])

    All connections of a device share its services, by name.  A connection is
    subscribed to what its permissions allow when its session opens, to the
    displays it asks for, and to nothing once it is gone.  The trait [Service]
    is what the server knows of a service; [ServiceInner] implements it. *)
From S2P Require Import Prelude.
From S2P Require Import Encoding.
From S2P Require Import Version.
From S2P Require Import SessionScope.
From S2P Require Import SessionState.
From S2P Require Import SessionHandler.
From S2P Require Import Service.
From S2P Require Import PointerServices.

(** ** The trait [Service] *)
Class ServiceOps (D : Type) := {
  svc_name : D -> string;
  svc_on_subscribe : ConnInner -> D -> D;
  svc_on_unsubscribe : Z -> D -> D;
  svc_is_subed : Z -> D -> bool;
  svc_set_option : string -> string -> D -> D;
  svc_join : D -> D;
  svc_valid : D -> Prop
}.
Class ServiceLaws (D : Type) `{ServiceOps D} := {
  subscribe_spec c d : svc_valid d -> let d' := svc_on_subscribe c d in
    svc_valid d' /\ svc_name d' = svc_name d /\
    forall i, svc_is_subed i d' = bool_decide (inner_id c = i) || svc_is_subed i d;
  unsubscribe_spec j d : svc_valid d -> let d' := svc_on_unsubscribe j d in
    svc_valid d' /\ svc_name d' = svc_name d /\
    forall i, svc_is_subed i d' = negb (bool_decide (j = i)) && svc_is_subed i d;
  set_option_spec o v d : svc_valid d -> let d' := svc_set_option o v d in
    svc_valid d' /\ svc_name d' = svc_name d /\ forall i, svc_is_subed i d' = svc_is_subed i d
}.

#[export] Instance inner_ops {T} `{Subscriber T} : ServiceOps (ServiceInner T) := {|
  svc_name := name; svc_on_subscribe := on_subscribe; svc_on_unsubscribe := on_unsubscribe;
  svc_is_subed := is_subed; svc_set_option := set_option; svc_join := join; svc_valid := wf |}.

#[export] Instance inner_laws {T} `{SubscriberLaws T} : ServiceLaws (ServiceInner T).
Proof.
  assert (forall o (s : ServiceInner T), wf s -> forall i, is_subed i (apply o s).1 = wants i [o] (is_subed i s)) as Hsub.
  { intros o s Hs i. rewrite !is_subed_phase. pose proof (proj1 (apply_phase o i s Hs)) as Hp.
    pose proof (phase_step_present (need_snapshot s) i o (phase i s)) as Hq. rewrite <- Hp in Hq. exact Hq. }
  split; simpl.
  - intros c s Hs. split_and!; [by apply on_subscribe_wf| |intros i; apply (Hsub (OnSubscribe c) s Hs)].
    unfold on_subscribe. case_bool_decide; [done|]. by destruct (need_snapshot s).
  - intros j s Hs. split_and!; [by apply on_unsubscribe_wf| |intros i; apply (Hsub (OnUnsubscribe j) s Hs)].
    unfold on_unsubscribe. by destruct (subscribes s !! j).
  - intros o v s Hs. split_and!; [apply (apply_wf (SetOption o v) s Hs)|done|done].
Qed.

(** [Box<dyn Service>]: the pointer shapes, or a service of plain connections. *)
Inductive DynService := Generic (s : ServiceInner ConnInner) | Cursor (s : ServiceInner MouseCursorSub).

#[export] Instance dyn_ops : ServiceOps DynService := {|
  svc_name d := match d with Generic s => svc_name s | Cursor s => svc_name s end;
  svc_on_subscribe c d := match d with Generic s => Generic (svc_on_subscribe c s) | Cursor s => Cursor (svc_on_subscribe c s) end;
  svc_on_unsubscribe i d := match d with Generic s => Generic (svc_on_unsubscribe i s) | Cursor s => Cursor (svc_on_unsubscribe i s) end;
  svc_is_subed i d := match d with Generic s => svc_is_subed i s | Cursor s => svc_is_subed i s end;
  svc_set_option o v d := match d with Generic s => Generic (svc_set_option o v s) | Cursor s => Cursor (svc_set_option o v s) end;
  svc_join d := match d with Generic s => Generic (svc_join s) | Cursor s => Cursor (svc_join s) end;
  svc_valid d := match d with Generic s => svc_valid s | Cursor s => svc_valid s end |}.
#[export] Instance dyn_laws : ServiceLaws DynService.
Proof.
  split.
  - intros c [s|s]; [exact (subscribe_spec (D := ServiceInner ConnInner) c s)|exact (subscribe_spec (D := ServiceInner MouseCursorSub) c s)].
  - intros j [s|s]; [exact (unsubscribe_spec (D := ServiceInner ConnInner) j s)|exact (unsubscribe_spec (D := ServiceInner MouseCursorSub) j s)].
  - intros o v [s|s]; [exact (set_option_spec (D := ServiceInner ConnInner) o v s)|exact (set_option_spec (D := ServiceInner MouseCursorSub) o v s)].
Qed.

(** ** Names of video services ([video_service.rs]) *)
Inductive VideoSource := Monitor | Camera.
#[export] Instance VideoSource_eq_dec : EqDecision VideoSource.
Proof. solve_decision. Defined.
#[export] Instance VideoSource_countable : Countable VideoSource.
Proof. by apply (inj_countable' (fun v => bool_decide (v = Camera)) (fun b : bool => if b then Camera else Monitor)); intros []. Defined.

Definition service_name_prefix (v : VideoSource) : string := match v with Monitor => "monitor" | Camera => "camera" end.
Definition get_service_name (v : VideoSource) (idx : N) : string := service_name_prefix v +:+ pretty idx.
Definition is_video_service_name (n : string) : bool :=
  String.prefix (service_name_prefix Monitor) n || String.prefix (service_name_prefix Camera) n.
Definition PRIMARY_CAMERA_IDX : N := 0.

(** ** The server *)
Record Server (D : Type) := mkServer {
  connections : gmap Z ConnInner;
  services : gmap string D;
  id_count : Z
}.
Arguments mkServer {D}. Arguments connections {D}. Arguments services {D}. Arguments id_count {D}.

Section Server.
Context {D : Type} `{ServiceLaws D}.
(** [video_service::new]: a service of that name; and the index of the display
    that was the primary one at the start. *)
Context (video_service_new : VideoSource -> N -> D) (PRIMARY_DISPLAY_IDX : N).
Abbreviation Srv := (Server D).

Definition with_services (l : gmap string D) (s : Srv) : Srv := mkServer (connections s) l (id_count s).
Definition with_connections (l : gmap Z ConnInner) (s : Srv) : Srv := mkServer l (services s) (id_count s).

Definition contains (n : string) (s : Srv) : bool := bool_decide (is_Some (services s !! n)).
Definition add_service (d : D) (s : Srv) : Srv := with_services (<[svc_name d := d]> (services s)) s.

(** [id_count]: a random start between 1 and 1999, and one more for each id. *)
Definition initial_id_count (random : Z) : Z := i32_of (Z.rem random 1000 + 1000).
Definition get_new_id (s : Srv) : Z * Srv :=
  let n := i32_of (id_count s + 1) in (n, mkServer (connections s) (services s) n).

Definition try_add_primary_camera_service (exists_ : bool) (s : Srv) : Srv :=
  if negb exists_ then s
  else if contains (get_service_name Camera PRIMARY_CAMERA_IDX) s then s
  else add_service (video_service_new Camera PRIMARY_CAMERA_IDX) s.
Definition try_add_primay_video_service (s : Srv) : Srv :=
  if contains (get_service_name Monitor PRIMARY_DISPLAY_IDX) s then s
  else add_service (video_service_new Monitor PRIMARY_DISPLAY_IDX) s.

Definition add_camera_connection (exists_ : bool) (c : ConnInner) (s : Srv) : Srv :=
  let s :=
    if exists_ then
      match services s !! get_service_name Camera PRIMARY_CAMERA_IDX with
      | Some d => with_services (<[get_service_name Camera PRIMARY_CAMERA_IDX := svc_on_subscribe c d]> (services s)) s
      | None => s
      end
    else s in
  with_connections (<[inner_id c := c]> (connections s)) s.

Definition add_connection (c : ConnInner) (noperms : gset string) (s : Srv) : Srv :=
  let primary := get_service_name Monitor PRIMARY_DISPLAY_IDX in
  let visit d :=
    let n := svc_name d in
    if is_video_service_name n && negb (bool_decide (n = primary)) then d
    else if negb (bool_decide (n ∈ noperms)) then svc_on_subscribe c d
    else d in
  let s := with_services (visit <$> services s) s in
  with_connections (<[inner_id c := c]> (connections s)) s.

Definition remove_connection (c : ConnInner) (s : Srv) : Srv :=
  let s := with_services (svc_on_unsubscribe (inner_id c) <$> services s) s in
  with_connections (delete (inner_id c) (connections s)) s.

Definition subscribe (n : string) (c : ConnInner) (sub : bool) (s : Srv) : Srv :=
  match services s !! n with
  | Some d =>
      if Bool.eqb (svc_is_subed (inner_id c) d) sub then s
      else with_services (<[n := if sub then svc_on_subscribe c d else svc_on_unsubscribe (inner_id c) d]> (services s)) s
  | None => s
  end.

(** [close_connections]: what is sent to each connection. *)
Definition close_connections (stop_service : Message) (s : Srv) : gmap Z (list Delivery) :=
  (fun c => (conn_send stop_service c).2) <$> connections s.

Definition set_video_service_opt (display : option (VideoSource * N)) (opt value : string) (s : Srv) : Srv :=
  let visit k d :=
    let skip := match display with Some (v, i) => negb (bool_decide (k = get_service_name v i)) | None => false end in
    if negb skip && is_video_service_name k then svc_set_option opt value d else d in
  with_services (map_imap (fun k d => Some (visit k d)) (services s)) s.

Definition get_subbed_displays_count (i : Z) (s : Srv) : nat :=
  length (filter (fun kd : string * D => is_video_service_name kd.1 && svc_is_subed i kd.2) (map_to_list (services s))).

(** One round of the loop of [capture_displays]. *)
Definition capture_visit (c : ConnInner) (displays : list string) (include exclude : bool) (s : Srv) (n : string) : Srv :=
  if is_video_service_name n then
    if bool_decide (n ∈ displays) then if include then subscribe n c true s else s
    else if exclude then subscribe n c false s else s
  else s.
Definition capture_displays (c : ConnInner) (v : VideoSource) (displays : list N) (include exclude : bool) (s : Srv) : Srv :=
  foldl (capture_visit c (get_service_name v <$> displays) include exclude) s (map_to_list (services s)).*1.

(** [Drop for Server]. *)
Definition drop_server (s : Srv) : Srv := with_services (svc_join <$> services s) s.

(** ** What connections ask for ([connection.rs]) *)

Definition ensure (v : VideoSource) (s : Srv) (d : N) : Srv :=
  if contains (get_service_name v d) s then s else add_service (video_service_new v d) s.

(** [Connection::capture_displays]; also whether several displays are shown now. *)
Definition conn_capture_displays (c : ConnInner) (v : VideoSource) (follow_remote_window : bool)
    (add sub set : list N) (s : Srv) : Srv * bool :=
  let s := foldl (ensure v) s add in
  let s := foldl (ensure v) s set in
  let s :=
    if bool_decide (add <> []) then capture_displays c v add true false s
    else if bool_decide (sub <> []) then capture_displays c v sub false true s
    else capture_displays c v set true true s in
  let multi_ui_session := bool_decide (1 < get_subbed_displays_count (inner_id c) s)%nat in
  let s := if follow_remote_window then subscribe NAME_WINDOW_FOCUS c (negb multi_ui_session) s else s in
  (s, multi_ui_session).

Definition is_support_multi_ui_session (version : bytes) : bool :=
  get_version_number (str "1.2.4") <=? get_version_number version.

Definition switch_display_to (c : ConnInner) (v : VideoSource) (version : bytes) (current display_idx : N) (s : Srv) : Srv * N :=
  let s := if bool_decide (display_idx = PRIMARY_DISPLAY_IDX) then s else ensure v s display_idx in
  let s := if is_support_multi_ui_session version then s else subscribe (get_service_name v current) c false s in
  (subscribe (get_service_name v display_idx) c true s, display_idx).

Definition refresh_video_display (v : VideoSource) (display : option N) (s : Srv) : Srv :=
  set_video_service_opt (pair v <$> display) "refresh" SERVICE_OPTION_VALUE_TRUE s.
End Server.

(** ** Names *)
Lemma prefix_append p n : String.prefix p (p +:+ n) = true.
Proof. induction p as [|a p IH]; simpl; [by destruct n|]. by destruct (Ascii.ascii_dec a a). Qed.

Lemma service_name_video v i : is_video_service_name (get_service_name v i) = true.
Proof. unfold is_video_service_name, get_service_name. destruct v; rewrite prefix_append; [done|apply orb_true_r]. Qed.

Lemma get_service_name_inj v1 i1 v2 i2 : get_service_name v1 i1 = get_service_name v2 i2 -> v1 = v2 /\ i1 = i2.
Proof.
  unfold get_service_name. intros E. destruct v1, v2; try discriminate E;
    (split; [done|]; by apply (inj (String.append _)), (inj pretty) in E).
Qed.

(** ** Who is subscribed to what *)
Section Subscriptions.
Context {D : Type} `{ServiceLaws D}.
Context (PRIMARY_DISPLAY_IDX : N).
Abbreviation Srv := (Server D).
Implicit Types (s : Srv) (c : ConnInner).

Definition subed (i : Z) (n : string) s : bool :=
  match services s !! n with Some d => svc_is_subed i d | None => false end.
Definition srv_ok s : Prop := forall n d, services s !! n = Some d -> svc_name d = n /\ svc_valid d.

Lemma contains_subed i n s : contains n s = false -> subed i n s = false.
Proof.
  unfold contains, subed. intros Hn%bool_decide_eq_false. destruct (services s !! n); [|done]. by destruct Hn.
Qed.

Lemma add_service_ok d s : srv_ok s -> svc_valid d -> srv_ok (add_service d s).
Proof. intros Hs Hd n e. simpl. intros [[<- <-]|[_ Hn]]%lookup_insert_Some; [done|by apply Hs]. Qed.

(** Replacing a service by one with the same name. *)
Lemma insert_ok n d s : srv_ok s -> svc_name d = n -> svc_valid d -> srv_ok (with_services (<[n := d]> (services s)) s).
Proof. intros Hs Hn Hd m e. simpl. intros [[<- <-]|[_ Hm]]%lookup_insert_Some; [done|by apply Hs]. Qed.

Lemma subscribe_ok n c b s : srv_ok s -> srv_ok (subscribe n c b s).
Proof.
  intros Hs. unfold subscribe. destruct (services s !! n) as [d|] eqn:Hd; [|done]. destruct (Bool.eqb _ _); [done|].
  destruct (Hs n d Hd) as [Hn Hv]. apply insert_ok; [done|..];
    (destruct b; [destruct (subscribe_spec c d Hv) as (?&?&?)|destruct (unsubscribe_spec (inner_id c) d Hv) as (?&?&?)]; congruence).
Qed.

Lemma subscribe_subed n c b s i m : srv_ok s ->
  subed i m (subscribe n c b s) =
    if decide (i = inner_id c /\ m = n /\ is_Some (services s !! n)) then b else subed i m s.
Proof.
  intros Hs. unfold subscribe. destruct (services s !! n) as [d|] eqn:Hd; [|by rewrite decide_False by (by intros (_&_&?&?))].
  destruct (Hs n d Hd) as [Hn Hv]. destruct (Bool.eqb (svc_is_subed (inner_id c) d) b) eqn:Hb.
  - apply eqb_prop in Hb. case_decide as Hc; [|done]. destruct Hc as (-> & -> & _). unfold subed. by rewrite Hd.
  - unfold subed. simpl. destruct (decide (m = n)) as [->|Hm]; [rewrite lookup_insert_eq|rewrite lookup_insert_ne by done; by rewrite decide_False by tauto].
    rewrite Hd. destruct b.
    + rewrite (proj2 (proj2 (subscribe_spec c d Hv)) i). destruct (decide (i = inner_id c)) as [->|Hi].
      * rewrite decide_True by eauto. by rewrite bool_decide_true.
      * rewrite decide_False by tauto. by rewrite bool_decide_false.
    + rewrite (proj2 (proj2 (unsubscribe_spec (inner_id c) d Hv)) i). destruct (decide (i = inner_id c)) as [->|Hi].
      * rewrite decide_True by eauto. by rewrite bool_decide_true.
      * rewrite decide_False by tauto. by rewrite bool_decide_false.
Qed.

Lemma subscribe_dom n c b s m : is_Some (services (subscribe n c b s) !! m) <-> is_Some (services s !! m).
Proof.
  unfold subscribe. destruct (services s !! n) as [d|] eqn:Hd; [|done]. destruct (Bool.eqb _ _); [done|]. simpl.
  destruct (decide (m = n)) as [->|Hm]; [rewrite lookup_insert_eq, Hd; split; eauto|by rewrite lookup_insert_ne].
Qed.

(** What [Server::capture_displays] makes of one subscription. *)
Definition captured (wanted include exclude was : bool) : bool :=
  if wanted then include || was else negb exclude && was.

Lemma captured_idem w i e b : captured w i e (captured w i e b) = captured w i e b.
Proof. by destruct w, i, e, b. Qed.

(** [s'] is [s] with the subscriptions of [c] to the video services in [l] captured. *)
Definition captures c (ds : list string) (include exclude : bool) (l : list string) s s' : Prop :=
  srv_ok s' /\ (forall n, is_Some (services s' !! n) <-> is_Some (services s !! n)) /\
  forall i n, subed i n s' =
    if decide (i = inner_id c /\ n ∈ l /\ is_video_service_name n = true /\ is_Some (services s !! n))
    then captured (bool_decide (n ∈ ds)) include exclude (subed i n s) else subed i n s.

Lemma captures_subscribe c ds include exclude m b s : srv_ok s -> is_video_service_name m = true ->
  captured (bool_decide (m ∈ ds)) include exclude (subed (inner_id c) m s) = b ->
  captures c ds include exclude [m] s (subscribe m c b s).
Proof.
  intros Hs Hm Hb. split_and!; [by apply subscribe_ok|intros n; apply subscribe_dom|]. intros i n. rewrite subscribe_subed by done.
  destruct (decide (i = inner_id c /\ n = m /\ is_Some (services s !! m))) as [(-> & -> & Hd)|Hn].
  - rewrite decide_True by (split_and!; set_solver). done.
  - rewrite decide_False; [done|]. intros (-> & ->%list_elem_of_singleton & _ & Hd). tauto.
Qed.

Lemma captures_same c ds include exclude m s : srv_ok s ->
  (is_video_service_name m = true -> captured (bool_decide (m ∈ ds)) include exclude (subed (inner_id c) m s) = subed (inner_id c) m s) ->
  captures c ds include exclude [m] s s.
Proof.
  intros Hs Hb. split_and!; [done..|]. intros i n.
  destruct (decide (i = inner_id c /\ _)) as [(-> & ->%list_elem_of_singleton & Hv & _)|]; [by rewrite Hb|done].
Qed.

Lemma capture_visit_spec c ds include exclude m s : srv_ok s ->
  captures c ds include exclude [m] s (capture_visit c ds include exclude s m).
Proof.
  intros Hs. unfold capture_visit. destruct (is_video_service_name m) eqn:Hm; [|apply captures_same; [done|congruence]].
  case_bool_decide as Hd; [destruct include|destruct exclude];
    (apply captures_subscribe || apply captures_same); try done; intros;
    rewrite ?(bool_decide_true _ Hd), ?(bool_decide_false _ Hd); done.
Qed.

Lemma capture_fold c ds include exclude l : forall s, srv_ok s ->
  captures c ds include exclude l s (foldl (capture_visit c ds include exclude) s l).
Proof.
  induction l as [|m l IH]; intros s Hs; simpl.
  { split_and!; [done..|]. intros i n. rewrite decide_False; [done|]. intros (_ & ?%not_elem_of_nil & _). done. }
  destruct (capture_visit_spec c ds include exclude m s Hs) as (H1 & H2 & H3).
  destruct (IH _ H1) as (H4 & H5 & H6). split_and!; [done|intros n; by rewrite H5|]. intros i n. rewrite H6, H3.
  destruct (decide (i = inner_id c /\ n ∈ [m] /\ is_video_service_name n = true /\ is_Some (services s !! n))) as [Hc|Hc].
  - rewrite captured_idem. destruct Hc as (-> & ->%list_elem_of_singleton & Hv & Hd).
    rewrite (decide_True (P := _ = _ /\ m ∈ m :: l /\ _)) by (split_and!; [done|left|done|done]).
    by destruct (decide (inner_id c = inner_id c /\ m ∈ l /\ _)).
  - apply decide_ext. rewrite H2, elem_of_cons. rewrite list_elem_of_singleton in Hc. clear - Hc. tauto.
Qed.

Lemma fmap_ok (f : D -> D) s : srv_ok s ->
  (forall n d, services s !! n = Some d -> svc_valid (f d) /\ svc_name (f d) = svc_name d) ->
  srv_ok (with_services (f <$> services s) s).
Proof.
  intros Hs Hf n d. simpl. rewrite lookup_fmap. destruct (services s !! n) as [e|] eqn:He; [|done]. intros [= <-].
  destruct (Hf n e He), (Hs n e He). split; congruence.
Qed.

(** The primary display, and everything that is not a display and is not left out. *)
Definition admitted (noperms : gset string) (n : string) : Prop :=
  n ∉ noperms /\ (is_video_service_name n = true -> n = get_service_name Monitor PRIMARY_DISPLAY_IDX).
#[export] Instance admitted_dec noperms n : Decision (admitted noperms n).
Proof. unfold admitted. apply _. Defined.

Lemma add_connection_spec c noperms s : srv_ok s -> let s' := add_connection PRIMARY_DISPLAY_IDX c noperms s in
  srv_ok s' /\ (forall n, is_Some (services s' !! n) <-> is_Some (services s !! n)) /\
  forall i n, subed i n s' = if decide (i = inner_id c /\ admitted noperms n /\ is_Some (services s !! n)) then true else subed i n s.
Proof.
  intros Hs. unfold add_connection. cbv zeta. set (visit := fun d : D => _).
  assert (forall n d, services s !! n = Some d -> svc_valid (visit d) /\ svc_name (visit d) = svc_name d /\
    forall i, svc_is_subed i (visit d) = if decide (i = inner_id c /\ admitted noperms n) then true else svc_is_subed i d) as Hv.
  { intros n d Hd. destruct (Hs n d Hd) as [Hn Hvalid]. unfold visit, admitted. rewrite Hn.
    destruct (subscribe_spec c d Hvalid) as (Hs1 & Hs2 & Hs3).
    destruct (is_video_service_name n && negb (bool_decide (n = get_service_name Monitor PRIMARY_DISPLAY_IDX))) eqn:Hb.
    - apply andb_prop in Hb as [Hb1 Hb2%negb_true_iff%bool_decide_eq_false]. split_and!; [done..|]. intros i.
      rewrite decide_False; [done|]. intros (_ & _ & Hp). by apply Hb2, Hp.
    - destruct (decide (n ∈ noperms)) as [Hp|Hp]; [rewrite (bool_decide_true (n ∈ noperms)) by done|rewrite (bool_decide_false (n ∈ noperms)) by done];
        simpl; (split_and!; [first [done|congruence]..|]; intros i).
      + rewrite decide_False; [done|]. tauto.
      + rewrite Hs3. destruct (decide (i = inner_id c)) as [->|Hi]; [rewrite bool_decide_true, decide_True; [done|split_and!; try done|done]|].
        * intros Hvid. rewrite Hvid in Hb. simpl in Hb. by apply negb_false_iff, bool_decide_eq_true in Hb.
        * rewrite bool_decide_false by done. by rewrite decide_False by tauto. }
  split_and!.
  - intros n d Hd. apply (fmap_ok visit s Hs); [|done]. intros m e He. destruct (Hv m e He) as (?&?&?). done.
  - intros n. simpl. rewrite lookup_fmap. by destruct (services s !! n).
  - intros i n. unfold subed. simpl. rewrite lookup_fmap. destruct (services s !! n) as [d|] eqn:Hd; simpl.
    + rewrite (proj2 (proj2 (Hv n d Hd))). apply decide_ext. split; [intros []; eauto|tauto].
    + rewrite decide_False; [done|]. by intros (_ & _ & ?%is_Some_None).
Qed.

Lemma remove_connection_spec c s : srv_ok s -> let s' := remove_connection c s in
  srv_ok s' /\ (forall n, is_Some (services s' !! n) <-> is_Some (services s !! n)) /\
  forall i n, subed i n s' = negb (bool_decide (inner_id c = i)) && subed i n s.
Proof.
  intros Hs. cbv zeta. split_and!.
  - intros n d Hd. apply (fmap_ok (svc_on_unsubscribe (inner_id c)) s Hs); [|done].
    intros m e He. destruct (unsubscribe_spec (inner_id c) e (proj2 (Hs m e He))) as (?&?&?). done.
  - intros n. simpl. rewrite lookup_fmap. by destruct (services s !! n).
  - intros i n. unfold subed. simpl. rewrite lookup_fmap. destruct (services s !! n) as [d|] eqn:Hd; simpl; [|by rewrite andb_false_r].
    apply (unsubscribe_spec (inner_id c) d (proj2 (Hs n d Hd))).
Qed.

Lemma subed_exists i n s : subed i n s = true -> is_Some (services s !! n).
Proof. unfold subed. destruct (services s !! n); [eauto|done]. Qed.

Lemma capture_displays_spec c v ds include exclude s : srv_ok s -> let s' := capture_displays c v ds include exclude s in
  srv_ok s' /\ (forall n, is_Some (services s' !! n) <-> is_Some (services s !! n)) /\
  forall i n, subed i n s' =
    if decide (i = inner_id c /\ is_video_service_name n = true /\ is_Some (services s !! n))
    then captured (bool_decide (n ∈ get_service_name v <$> ds)) include exclude (subed i n s) else subed i n s.
Proof.
  intros Hs. cbv zeta. unfold capture_displays.
  destruct (capture_fold c (get_service_name v <$> ds) include exclude (map_to_list (services s)).*1 s Hs) as (H1 & H2 & H3).
  split_and!; [done..|]. intros i n. rewrite H3. apply decide_ext. split; [tauto|]. intros (-> & Hv & d & Hd). split_and!; eauto.
  apply list_elem_of_fmap. exists (n, d). split; [done|]. by apply elem_of_map_to_list.
Qed.

(** The same, where the displays to include are there. *)
Lemma capture_displays_all c v ds include exclude s : srv_ok s ->
  (include = true -> forall n, n ∈ get_service_name v <$> ds -> is_Some (services s !! n)) ->
  let s' := capture_displays c v ds include exclude s in
  srv_ok s' /\ forall i n, subed i n s' =
    if decide (i = inner_id c /\ is_video_service_name n = true)
    then captured (bool_decide (n ∈ get_service_name v <$> ds)) include exclude (subed i n s) else subed i n s.
Proof.
  intros Hs Hin. destruct (capture_displays_spec c v ds include exclude s Hs) as (H1 & _ & H3). split; [done|].
  intros i n. rewrite H3. destruct (decide (i = inner_id c /\ is_video_service_name n = true)) as [[-> Hv]|Hn].
  - destruct (decide (is_Some (services s !! n))) as [Hd|Hd]; [by rewrite decide_True|]. rewrite decide_False by (intros (_ & _ & ?); done).
    assert (subed (inner_id c) n s = false) as -> by (unfold subed; destruct (services s !! n); [by destruct Hd|done]).
    unfold captured. case_bool_decide as Hm; [|by rewrite andb_false_r]. rewrite orb_false_r. destruct include; [|done].
    destruct Hd. by apply Hin.
  - rewrite decide_False; [done|]. intros (? & ? & _). by apply Hn.
Qed.
End Subscriptions.

Section Ensure.
Context {D : Type} `{ServiceLaws D}.
Context (video_service_new : VideoSource -> N -> D).
Implicit Types (s : Server D).

(** A fresh video service has its name and no subscribers. *)
Hypothesis video_new : forall v i, svc_valid (video_service_new v i) /\
  svc_name (video_service_new v i) = get_service_name v i /\ forall j, svc_is_subed j (video_service_new v i) = false.

Lemma ensure_ok v s d : srv_ok s -> srv_ok (ensure video_service_new v s d).
Proof. intros Hs. unfold ensure. destruct (contains _ s); [done|]. apply add_service_ok; [done|apply video_new]. Qed.
Lemma ensure_subed v s d i n : subed i n (ensure video_service_new v s d) = subed i n s.
Proof.
  unfold ensure. destruct (contains (get_service_name v d) s) eqn:Hc; [done|].
  destruct (video_new v d) as (_ & Hn & Hj). apply (contains_subed i) in Hc. unfold subed in *. simpl. rewrite Hn.
  destruct (decide (n = get_service_name v d)) as [->|Hne]; [by rewrite lookup_insert_eq, Hj, Hc|by rewrite lookup_insert_ne].
Qed.
Lemma ensure_dom v s d n :
  is_Some (services (ensure video_service_new v s d) !! n) <-> n = get_service_name v d \/ is_Some (services s !! n).
Proof.
  unfold ensure. destruct (contains (get_service_name v d) s) eqn:Hc.
  - apply bool_decide_eq_true in Hc. split; [auto|]. by intros [->|?].
  - simpl. rewrite (proj1 (proj2 (video_new v d))). destruct (decide (n = get_service_name v d)) as [->|Hne];
      [rewrite lookup_insert_eq; split; eauto|rewrite lookup_insert_ne by done; split; [auto|by intros [?|?]]].
Qed.

Lemma ensures_spec v ds : forall s, srv_ok s -> let s' := foldl (ensure video_service_new v) s ds in
  srv_ok s' /\ (forall i n, subed i n s' = subed i n s) /\
  (forall n, is_Some (services s' !! n) <-> n ∈ get_service_name v <$> ds \/ is_Some (services s !! n)).
Proof.
  induction ds as [|d ds IH]; intros s Hs; simpl.
  { split_and!; [done..|]. intros n. split; [by right|intros [Hn|?]; [by apply not_elem_of_nil in Hn|done]]. }
  destruct (IH _ (ensure_ok v s d Hs)) as (H1 & H2 & H3). split_and!; [done|intros i n; by rewrite H2, ensure_subed|].
  intros n. rewrite H3, ensure_dom, elem_of_cons. clear. tauto.
Qed.

End Ensure.

(** [video_service::new]. *)
Definition video_service_new (v : VideoSource) (i : N) : DynService := Generic (new (get_service_name v i) true).
Lemma video_service_new_ok v i : svc_valid (video_service_new v i) /\
  svc_name (video_service_new v i) = get_service_name v i /\ forall j, svc_is_subed j (video_service_new v i) = false.
Proof. split_and!; [apply new_wf|done..]. Qed.

(** ** What the server promises *)

(** Whether a display is subscribed to after it was asked for. *)
Definition asked (v : VideoSource) (add sub set : list N) (n : string) (was : bool) : bool :=
  match add, sub with
  | _ :: _, _ => bool_decide (n ∈ get_service_name v <$> add) || was
  | [], _ :: _ => bool_decide (n ∈ get_service_name v <$> sub) && was
  | [], [] => bool_decide (n ∈ get_service_name v <$> set)
  end.

(** Asking for displays changes the video subscriptions of the one
    connection and nothing else: with displays to add it gets these besides
    what it has, with displays to set it gets exactly these, and with displays
    to subtract it keeps exactly those and loses all others. *)
Theorem capture_displays_exact c v follow add sub set (s : Server DynService) : srv_ok s ->
  let s' := (conn_capture_displays video_service_new c v follow add sub set s).1 in
  srv_ok s' /\
  forall i n, is_video_service_name n = true \/ i <> inner_id c ->
    subed i n s' =
      if decide (i = inner_id c) then asked v add sub set n (subed i n s) else subed i n s.
Proof.
  intros Hs. unfold conn_capture_displays.
  destruct (ensures_spec video_service_new video_service_new_ok v add s Hs) as (A1 & A2 & A3).
  destruct (ensures_spec video_service_new video_service_new_ok v set _ A1) as (B1 & B2 & B3).
  set (s2 := foldl _ _ set) in *. clearbody s2. cbv zeta. cbn [fst].
  assert (forall i n, subed i n s2 = subed i n s) as Hsame by (intros i n; by rewrite B2, A2). clear A1 A2 B2.
  assert (forall n, n ∈ get_service_name v <$> add \/ n ∈ get_service_name v <$> set -> is_Some (services s2 !! n)) as Hex.
  { intros n Hn. rewrite B3, A3. tauto. }
  set (s3 := if bool_decide (add <> []) then _ else _).
  assert (srv_ok s3 /\ forall i n, is_video_service_name n = true \/ i <> inner_id c -> subed i n s3 =
      if decide (i = inner_id c) then asked v add sub set n (subed i n s) else subed i n s) as [Hok H3].
  { assert (forall ds inc exc, (inc = true -> forall n, n ∈ get_service_name v <$> ds -> is_Some (services s2 !! n)) ->
      srv_ok (capture_displays c v ds inc exc s2) /\ forall i n, is_video_service_name n = true \/ i <> inner_id c ->
      subed i n (capture_displays c v ds inc exc s2) = if decide (i = inner_id c) then
        captured (bool_decide (n ∈ get_service_name v <$> ds)) inc exc (subed i n s) else subed i n s) as Hc.
    { intros ds inc exc Hds. destruct (capture_displays_all c v ds inc exc s2 B1 Hds) as [H1 H2]. split; [done|].
      intros i n Hn. rewrite H2, Hsame. apply decide_ext. tauto. }
    unfold s3. destruct add as [|a add]; [destruct sub as [|b sub]|]; simpl.
    - destruct (Hc set true true) as [H1 H2]; [auto|]. split; [done|]. intros i n Hn. rewrite H2 by done.
      unfold captured, asked. case_decide; [|done]. by destruct (bool_decide (n ∈ _)).
    - destruct (Hc (b :: sub) false true) as [H1 H2]; [done|]. split; [done|]. intros i n Hn. rewrite H2 by done.
      unfold captured, asked. case_decide; [|done]. by destruct (bool_decide (n ∈ _)).
    - destruct (Hc (a :: add) true false) as [H1 H2]; [auto|]. split; [done|]. intros i n Hn. rewrite H2 by done.
      unfold captured, asked. case_decide; [|done]. by destruct (bool_decide (n ∈ _)). }
  clearbody s3. destruct follow; [|done]. split; [by apply subscribe_ok|]. intros i n Hn. rewrite subscribe_subed by done.
  rewrite decide_False; [by apply H3|]. intros (-> & -> & _). by destruct Hn.
Qed.

(** [SessionHandler] keeps the names a connection is subscribed to; the server
    keeps subscribers in its services.  The two agree on everything but the
    displays, which only the server tracks. *)
Record views (b : Build) (c : Connection) (i : Z) (s : Server DynService) : Prop := {
  views_ok : srv_ok s;
  views_services n : is_video_service_name n = false -> n ∈ SessionHandler.services b <-> is_Some (services s !! n);
  views_subs n : is_video_service_name n = false -> n ∈ subs c <-> subed i n s = true
}.

Lemma primary_spec idx (s : Server DynService) : srv_ok s ->
  let s' := try_add_primay_video_service video_service_new idx s in
  srv_ok s' /\ (forall i n, subed i n s' = subed i n s) /\
  forall n, is_video_service_name n = false -> is_Some (services s' !! n) <-> is_Some (services s !! n).
Proof.
  intros Hs. change (try_add_primay_video_service video_service_new idx s) with (ensure video_service_new Monitor s idx).
  split_and!; [apply ensure_ok; [apply video_service_new_ok|done]|intros i n; apply ensure_subed, video_service_new_ok|].
  intros n Hn. rewrite ensure_dom by apply video_service_new_ok. split; [|auto]. intros [->|?]; [|done].
  by rewrite service_name_video in Hn.
Qed.

(** [C10] The subscriptions the session handlers reckon with are the ones in the
    server's services: subscribing and unsubscribing by name, and opening the
    session with what the permissions leave, do the same on both sides and
    touch no other connection; and closing leaves the connection subscribed to
    nothing and others as they were. *)
Theorem server_simulates_session b c (k : ConnInner) idx (s : Server DynService) : views b c (inner_id k) s ->
  (forall n sub, is_video_service_name n = false ->
    let s' := subscribe n k sub s in
    views b (SessionHandler.subscribe b n sub c).1 (inner_id k) s' /\
    forall i m, i <> inner_id k -> subed i m s' = subed i m s) /\
  (forall e, SessionHandler.is_remote c = true -> services_subed c = false ->
    let s' := add_connection idx k (noperms b c) (try_add_primay_video_service video_service_new idx s) in
    views b (try_sub_monitor_services b e c).1 (inner_id k) s' /\
    forall i m, i <> inner_id k -> subed i m s' = subed i m s) /\
  (let s' := remove_connection k s in srv_ok s' /\ (forall n, subed (inner_id k) n s' = false) /\
    forall i m, i <> inner_id k -> subed i m s' = subed i m s).
Proof.
  intros [Hok Hsv Hsu]. split_and!.
  - intros n sub Hn. cbv zeta. pose proof (fun i m => subscribe_subed n k sub s i m Hok) as Hs. split.
    + split; [by apply subscribe_ok|intros m Hm; rewrite subscribe_dom; by apply Hsv|].
      intros m Hm. rewrite Hs. unfold SessionHandler.subscribe, SessionState.when.
      destruct (decide (n ∈ SessionHandler.services b)) as [Hb|Hb].
      * rewrite bool_decide_true by done. apply (Hsv n Hn) in Hb. simpl. destruct (decide (m = n)) as [->|Hne].
        -- rewrite decide_True by done. destruct sub; [rewrite elem_of_union|rewrite elem_of_difference]; rewrite elem_of_singleton; clear; [|split; [|done]]; tauto.
        -- rewrite decide_False by tauto. rewrite <- Hsu by done.
           destruct sub; [rewrite elem_of_union|rewrite elem_of_difference]; rewrite elem_of_singleton; clear - Hne; tauto.
      * rewrite bool_decide_false by done. simpl. rewrite decide_False; [by apply Hsu|]. intros (_ & _ & Hd). by apply Hb, Hsv.
    + intros i m Hi. rewrite Hs, decide_False; [done|]. tauto.
  - intros e Hr Hu. cbv zeta. destruct (primary_spec idx s Hok) as (P1 & P2 & P3).
    destruct (add_connection_spec idx k (noperms b c) _ P1) as (A1 & A2 & A3). split.
    + split; [done|intros m Hm; rewrite A2, P3 by done; by apply Hsv|].
      intros m Hm. rewrite A3. unfold try_sub_monitor_services, reading, SessionState.when. cbn [Datatypes.id]. rewrite Hr, Hu. simpl.
      rewrite elem_of_union, elem_of_difference, Hsu, Hsv by done. rewrite P2. case_decide as Hd.
      * destruct Hd as (_ & [Hd _] & He). split; [done|]. intros _. right. split; [by apply P3|done].
      * split; [|auto]. intros [?|[He Hd2]]; [done|]. destruct Hd. split_and!; [done| |by apply P3].
        split; [done|congruence].
    + intros i m Hi. rewrite A3, decide_False by tauto. apply P2.
  - destruct (remove_connection_spec k s Hok) as (R1 & _ & R3). split_and!; [done|..].
    + intros n. rewrite R3. by rewrite bool_decide_true.
    + intros i m Hi. rewrite R3. by rewrite bool_decide_false.
Qed.

(** Once a connection was removed, no service sends it anything, whatever else
    happens there, unless it subscribes again. *)
Lemma removed_connection_silent k n d (s : Server DynService) ops : srv_ok s ->
  services (remove_connection k s) !! n = Some (Generic d) ->
  (forall c, OnSubscribe c ∈ ops -> inner_id c <> inner_id k) -> received (inner_id k) (trace ops d).2 = [].
Proof.
  intros Hs Hd Ho. destruct (remove_connection_spec k s Hs) as (R1 & _ & R3). destruct (R1 n _ Hd) as [_ Hv].
  apply left_receives_nothing; [exact Hv| |done]. specialize (R3 (inner_id k) n). rewrite bool_decide_true in R3 by done.
  unfold subed in R3. rewrite Hd in R3. exact R3.
Qed.

(** Nothing ever takes a service out of the server: each display asked for adds
    a service, and its thread, for good, whether such a display exists or not. *)
Lemma displays_never_forgotten c v follow add sub set (s : Server DynService) n : srv_ok s ->
  is_Some (services (conn_capture_displays video_service_new c v follow add sub set s).1 !! n) <->
    n ∈ get_service_name v <$> add \/ n ∈ get_service_name v <$> set \/ is_Some (services s !! n).
Proof.
  intros Hs. unfold conn_capture_displays.
  destruct (ensures_spec video_service_new video_service_new_ok v add s Hs) as (A1 & _ & A3).
  destruct (ensures_spec video_service_new video_service_new_ok v set _ A1) as (B1 & _ & B3).
  set (s2 := foldl _ _ set) in *. clearbody s2. cbv zeta. cbn [fst].
  assert (forall ds i e m, is_Some (services (capture_displays c v ds i e s2) !! m) <-> is_Some (services s2 !! m)) as Hc.
  { intros ds i e m. apply (capture_displays_spec c v ds i e s2 B1). }
  transitivity (is_Some (services s2 !! n)); [|rewrite B3, A3; clear; tauto].
  destruct follow; rewrite ?subscribe_dom; destruct (bool_decide (add <> [])), (bool_decide (sub <> [])); apply Hc.
Qed.

(** Fresh ids do not repeat before [2 ^ 32] connections. *)
Fixpoint nth_id {D} (k : nat) (s : Server D) : Z :=
  match k with O => (get_new_id s).1 | S k => nth_id k (get_new_id s).2 end.
Lemma nth_id_eq {D} k (s : Server D) : nth_id k s = i32_of (id_count s + 1 + Z.of_nat k).
Proof.
  revert s. induction k as [|k IH]; intros s; simpl; [f_equal; lia|]. rewrite IH. simpl. unfold i32_of, swrap.
  change (2 ^ (32 - 1)) with (2 ^ 31). f_equal.
  replace ((id_count s + 1 + 2 ^ 31) mod 2 ^ 32 - 2 ^ 31 + 1 + Z.of_nat k + 2 ^ 31)
    with ((id_count s + 1 + 2 ^ 31) mod 2 ^ 32 + (1 + Z.of_nat k)) by lia.
  rewrite Zplus_mod_idemp_l. f_equal. lia.
Qed.
Lemma ids_distinct {D} (s : Server D) j k : (j < k)%nat -> Z.of_nat k - Z.of_nat j < 2 ^ 32 -> nth_id j s <> nth_id k s.
Proof.
  intros Hjk Hk. rewrite !nth_id_eq. unfold i32_of, swrap. change (2 ^ (32 - 1)) with (2 ^ 31). intros E.
  assert ((id_count s + 1 + Z.of_nat j + 2 ^ 31) mod 2 ^ 32 = (id_count s + 1 + Z.of_nat k + 2 ^ 31) mod 2 ^ 32) as E' by lia.
  apply (f_equal (fun z => (z - (id_count s + 1 + Z.of_nat j + 2 ^ 31)) mod 2 ^ 32)) in E'.
  rewrite !Zminus_mod_idemp_l in E'. rewrite Z.sub_diag, Z.mod_0_l in E' by lia.
  replace (id_count s + 1 + Z.of_nat k + 2 ^ 31 - (id_count s + 1 + Z.of_nat j + 2 ^ 31)) with (Z.of_nat k - Z.of_nat j) in E' by lia.
  rewrite Z.mod_small in E' by lia. lia.
Qed.

(** ** Examples *)
Definition demo_server : Server DynService :=
  mkServer ∅ (<[AUDIO_NAME := Generic (new AUDIO_NAME true)]> (<[NAME_CURSOR := Cursor (new NAME_CURSOR true)]> ∅)) 1000.
Lemma demo_server_ok : srv_ok demo_server.
Proof.
  intros n d. simpl. intros [[<- <-]|[_ [[<- <-]|[_ Hn]]%lookup_insert_Some]]%lookup_insert_Some; [split; [done|apply new_wf]..|].
  by rewrite lookup_empty in Hn.
Qed.

Lemma capture_displays_exact_witness :
  let k := mkConnInner 7 true true in
  let s := (conn_capture_displays video_service_new k Monitor true [0%N; 1%N] [] [] demo_server).1 in
  let s' := (conn_capture_displays video_service_new k Monitor true [] [1%N] [] s).1 in
  subed 7 "monitor0" s = true /\ subed 7 "monitor1" s = true /\ subed 7 "monitor0" s' = false /\ subed 7 "monitor1" s' = true.
Proof.
  intros k s s'. destruct (capture_displays_exact k Monitor true [0%N; 1%N] [] [] demo_server demo_server_ok) as [Hs H].
  destruct (capture_displays_exact k Monitor true [] [1%N] [] s Hs) as [_ H'].
  split_and!; [unfold s; rewrite H by (by left)|unfold s; rewrite H by (by left)|unfold s'; rewrite H' by (by left)|unfold s'; rewrite H' by (by left)];
    vm_compute; reflexivity.
Defined.

Lemma server_simulates_session_witness :
  let k := mkConnInner 7 true true in
  let b := mkBuild false true true false false false false false 10 {[AUDIO_NAME; NAME_CURSOR]} in
  let c := demo_conn (all_perms true) true (Some Remote) in
  let s' := add_connection 0 k (noperms b c) (try_add_primay_video_service video_service_new 0 demo_server) in
  subed 7 AUDIO_NAME s' = true.
Proof.
  intros k b c s'. assert (views b c (inner_id k) demo_server) as Hv.
  { split; [apply demo_server_ok| |].
    - intros n _. unfold b. simpl. rewrite elem_of_union, !elem_of_singleton. destruct (decide (n = AUDIO_NAME)) as [->|H1]; [split; eauto|].
      rewrite lookup_insert_ne by done. destruct (decide (n = NAME_CURSOR)) as [->|H2]; [split; eauto|]. rewrite lookup_insert_ne, lookup_empty by done.
      split; [by intros [?|?]|by intros ?%is_Some_None].
    - intros n _. unfold subed. simpl. destruct (decide (n = AUDIO_NAME)) as [->|H1]; [by vm_compute|].
      rewrite lookup_insert_ne by done. destruct (decide (n = NAME_CURSOR)) as [->|H2]; [by vm_compute|]. by rewrite lookup_insert_ne, lookup_empty by done. }
  destruct (server_simulates_session b c k 0 demo_server Hv) as (_ & Hopen & _).
  destruct (Hopen demo_sys eq_refl eq_refl) as [[_ _ Hs] _]. apply (Hs AUDIO_NAME eq_refl). apply (bool_decide_unpack _). vm_compute. exact I.
Defined.
