(* ===== verification/VideoService.v ===== *)
(** * The video services ([src/server/video_service.rs])

    One service per display captures, encodes and sends frames.  A viewer can
    only decode the frames of an encoder from its first frame on, so the loop
    starts over with a new encoder whenever somebody joins; it also starts over
    for a changed display, codec, quality or privacy mode.  After a frame it
    waits until the viewers have taken it.  The capturer and the codecs are
    foreign code: what they answer is in [Tick]. *)
From S2P Require Import Prelude.
From S2P Require Import Service.
From S2P Require Import Server.

Definition OPTION_REFRESH : string := "refresh".
Definition INVALID_PRIVACY_MODE_CONN_ID : Z := 0.

(** ** Acknowledged frames

    Who was sent the last frame of a display, and the acknowledgements that
    wait for its loop. *)
Record Acks := mkAcks { DISPLAY_CONN_IDS : gmap N (gset Z); FRAME_FETCHED_NOTIFIERS : gmap N (list Z) }.

Definition notify_video_frame_fetched (display_idx : N) (conn_id : Z) (a : Acks) : Acks :=
  match FRAME_FETCHED_NOTIFIERS a !! display_idx with
  | Some q => mkAcks (DISPLAY_CONN_IDS a) (<[display_idx := q ++ [conn_id]]> (FRAME_FETCHED_NOTIFIERS a))
  | None => a
  end.
Definition notify_video_frame_fetched_by_conn_id (conn_id : Z) (a : Acks) : Acks :=
  let waiting i := match DISPLAY_CONN_IDS a !! i with Some ids => bool_decide (conn_id ∈ ids) | None => false end in
  mkAcks (DISPLAY_CONN_IDS a)
    (map_imap (fun i q => Some (if waiting i then q ++ [conn_id] else q)) (FRAME_FETCHED_NOTIFIERS a)).

(** [VideoFrameController::set_send]. *)
Definition set_send (display_idx : N) (conn_ids send_conn_ids : gset Z) (a : Acks) : gset Z * Acks :=
  if bool_decide (conn_ids = ∅) then (send_conn_ids, a)
  else (conn_ids, mkAcks (<[display_idx := conn_ids]> (DISPLAY_CONN_IDS a)) (FRAME_FETCHED_NOTIFIERS a)).

(** After the wait. *)
Definition forget_sent (display_idx : N) (a : Acks) : Acks :=
  mkAcks (delete display_idx (DISPLAY_CONN_IDS a)) (FRAME_FETCHED_NOTIFIERS a).

(** One window of the wait: how long it has lasted when it opens, who holds the
    privacy mode, and what [try_wait_next] finds in the channel, nothing after
    a timeout. *)
Record Window := mkWindow { opens : Z; holds_privacy : Z; fetched : list Z }.
Inductive Waited := AllFetched | TimedOut | PrivacyChanged (id : Z) | StillWaiting.

Definition timeout_millis : Z := 3000.
Fixpoint wait_fetched (monitor : bool) (pid : Z) (send_conn_ids fetched_conn_ids : gset Z) (ws : list Window) : Waited * gset Z :=
  match ws with
  | [] => (StillWaiting, fetched_conn_ids)
  | w :: ws =>
      if negb (opens w <? timeout_millis) then (TimedOut, fetched_conn_ids)
      else if monitor && negb (pid =? holds_privacy w) then (PrivacyChanged (holds_privacy w), fetched_conn_ids)
      else
        let fetched_conn_ids :=
          if bool_decide (send_conn_ids = ∅) then fetched_conn_ids else fetched_conn_ids ∪ list_to_set (fetched w) in
        if bool_decide (size send_conn_ids <= size fetched_conn_ids)%nat then (AllFetched, fetched_conn_ids)
        else wait_fetched monitor pid send_conn_ids fetched_conn_ids ws
  end.

(** ** Screenshots *)
Record Screenshot := mkScreenshot { sid : string; restore_vram : bool }.
Inductive FrameKind := PixelBuffer (rgba : option bytes) | Texture.
Inductive ScreenshotResult := Shot (rgba : bytes) | ConvertError | ChangeCodec.

Definition set_take_screenshot (key : VideoSource * N) (sid : string) (l : gmap (VideoSource * N) Screenshot) :=
  <[key := mkScreenshot sid false]> l.

Section Video.
Context {Enc Input : Type}.
(** The encoder: a frame at a time, or an error, which may ask for another
    encoder. *)
Context (encode : Input -> Z -> Enc -> Enc * result bytes bool).
Context (is_hardware latency_free : Enc -> bool).
Abbreviation Svc := (ServiceInner ConnInner).
(** Why the loop is left. *)
Inductive Reason := SWITCH | FrameError.

Record Loop := mkLoop {
  encoder : Enc;
  first_frame : bool;
  encode_fail_counter : Z;
  repeat_encode_counter : Z;
  yuv : option Input;
  screenshot : option Screenshot
}.
Definition with_encoder (e : Enc) (first : bool) (fails : Z) (l : Loop) : Loop :=
  mkLoop e first fails (repeat_encode_counter l) (yuv l) (screenshot l).
Definition with_repeat (n : Z) (l : Loop) : Loop :=
  mkLoop (encoder l) (first_frame l) (encode_fail_counter l) n (yuv l) (screenshot l).
Definition with_yuv (y : option Input) (l : Loop) : Loop :=
  mkLoop (encoder l) (first_frame l) (encode_fail_counter l) (repeat_encode_counter l) y (screenshot l).
Definition with_screenshot (x : option Screenshot) (l : Loop) : Loop :=
  mkLoop (encoder l) (first_frame l) (encode_fail_counter l) (repeat_encode_counter l) (yuv l) x.

(** [falls_back]: on Windows, a capturer that does not use GDI yet and now does. *)
Inductive Captured :=
| CFrame (valid : bool) (kind : FrameKind) (input : option Input)
| CWouldBlock
| CError (falls_back : bool).

(** What the loop meets in one round: the steps of other threads before it
    looks at the service, before the frame, and around a snapshot; the answers
    of its checks; the capturer. *)
Record Tick := mkTick {
  before_ok : list Op;
  qos_switch : bool;
  codec_changed : bool;
  i444_changed : bool;
  privacy_id : Z;
  check_due : bool;
  display_changed : option Message;
  before_frame : list Op;
  captured : Captured;
  ms : Z;
  before_snapshot : list Op;
  after_snapshot : list Op;
  windows : list Window
}.

Definition broadcast_display_changed (t : Tick) (s : Svc) : list Op * result unit Reason :=
  match display_changed t with
  | Some m =>
      let '(more, _) := snapshot (E := Reason) (fun _ => ([m], Ok tt)) (before_snapshot t) (after_snapshot t) (trace [SendShared m] s).1 in
      ([SendShared m] ++ more, Err SWITCH)
  | None => ([], Ok tt)
  end.

Definition PrvOnByOther : Message := OtherMessage [].

Definition check_privacy_mode_changed (capturer_privacy_id now : Z) (t : Tick) (s : Svc) : list Op * result unit Reason :=
  if capturer_privacy_id =? now then ([], Ok tt)
  else
    let ops := if now =? INVALID_PRIVACY_MODE_CONN_ID then [] else [SendToOthers PrvOnByOther now] in
    let '(more, _) := broadcast_display_changed t (trace ops s).1 in
    (ops ++ more, Err SWITCH).

Definition max_fail_times : Z := 3.

(** [handle_one_frame]: a newcomer among viewers makes it start over; the
    frame goes to all that have joined. *)
Definition handle_one_frame (display : N) (frame : Input) (t : Tick) (s : Svc) (l : Loop)
  : list Op * Loop * result (gset Z) Reason :=
  let '(ops, r) := snapshot (fun s => ([], if swap_has_subscribes s then Err SWITCH else Ok tt))
                     (before_snapshot t) (after_snapshot t) s in
  match r with
  | Err e => (ops, l, Err e)
  | Ok _ =>
      let s := (trace ops s).1 in
      let '(enc, out) := encode frame (ms t) (encoder l) in
      match out with
      | Ok vf =>
          let m := VideoFrame (Z.of_N display) vf in
          (ops ++ [SendShared m], with_encoder enc false 0 l, Ok (send_video_frame_shared m s).2)
      | Err need_switch =>
          let fails := encode_fail_counter l + 1 in
          let worn := (first_frame l && latency_free enc) || (max_fail_times <=? fails) in
          let l := with_encoder enc false (if worn then 0 else fails) l in
          (ops, l, if (worn && is_hardware enc) || need_switch then Err SWITCH else Ok ∅)
      end
  end.

(** A frame and the screenshot that was asked for: the answer for the asker, or
    one more round without textures. *)
Definition take_screenshot (kind : FrameKind) (l : Loop) : Loop * option (string * ScreenshotResult) * result unit Reason :=
  match screenshot l with
  | None => (l, None, Ok tt)
  | Some x =>
      let l := with_screenshot None l in
      match kind with
      | PixelBuffer rgba =>
          (l, Some (sid x, match rgba with Some d => Shot d | None => ConvertError end),
           if restore_vram x then Err SWITCH else Ok tt)
      | Texture =>
          if restore_vram x then (l, Some (sid x, ChangeCodec), Err SWITCH)
          else (with_screenshot (Some (mkScreenshot (sid x) true)) l, None, Err SWITCH)
      end
  end.

Definition repeat_encode_max : Z := 10.

(** The frame of a round: whom the loop then waits for, or nothing when it
    [continue]s with the next round at once. *)
Definition handle_captured (monitor : bool) (display : N) (t : Tick) (s : Svc) (l : Loop)
  : list Op * Loop * result (option (gset Z)) Reason :=
  let sending (x : list Op * Loop * result (gset Z) Reason) :=
    let '(ops, l, r) := x in (ops, l, match r with Ok sent => Ok (Some sent) | Err e => Err e end) in
  match captured t with
  | CFrame valid kind input =>
      let l := with_repeat 0 l in
      if negb valid then ([], l, Ok (Some ∅))
      else
        let '(l, _, r) := take_screenshot kind l in
        match r, input with
        | Err e, _ => ([], l, Err e)
        | Ok _, None => ([], l, Err FrameError)
        | Ok _, Some frame =>
            sending (handle_one_frame display frame t s (match kind with Texture => l | PixelBuffer _ => with_yuv (Some frame) l end))
        end
  | CWouldBlock =>
      match yuv l with
      | Some frame =>
          if negb (latency_free (encoder l)) && (repeat_encode_counter l <? repeat_encode_max) then
            sending (handle_one_frame display frame t s (with_repeat (repeat_encode_counter l + 1) l))
          else ([], l, Ok (Some ∅))
      | None => ([], l, Ok (Some ∅))
      end
  | CError falls_back =>
      let '(ops, r) := if monitor then broadcast_display_changed t s else ([], Ok tt) in
      (ops, l, match r with Err e => Err e | Ok _ => if falls_back then Ok None else Err FrameError end)
  end.

Inductive Round := Running (l : Loop) | Finished | Left (e : Reason) (l : Loop).

(** One round of the loop of [run]. *)
Definition round (monitor : bool) (display : N) (capturer_privacy_id : Z) (t : Tick) (s : Svc) (l : Loop) : list Op * Round :=
  let s := (trace (before_ok t) s).1 in
  let '(ops, out) :=
    if negb (ok s) then ([], Finished)
    else if qos_switch t then ([], Left SWITCH l)
    else if is_option_true OPTION_REFRESH s then
      ((if monitor then (broadcast_display_changed t s).1 else []), Left SWITCH l)
    else if codec_changed t || i444_changed t then ([], Left SWITCH l)
    else
      let '(ops1, r) := if monitor then check_privacy_mode_changed capturer_privacy_id (privacy_id t) t s else ([], Ok tt) in
      match r with
      | Err e => (ops1, Left e l)
      | Ok _ =>
          let '(ops2, r) := if monitor && check_due t then broadcast_display_changed t s else ([], Ok tt) in
          match r with
          | Err e => (ops2, Left e l)
          | Ok _ =>
              let s := (trace (before_frame t) s).1 in
              let '(ops3, l, r) := handle_captured monitor display t s l in
              match r with
              | Err e => (before_frame t ++ ops3, Left e l)
              | Ok None => (before_frame t ++ ops3, Running l)
              | Ok (Some sent) =>
                  let s := (trace ops3 s).1 in
                  let '(ops4, out) :=
                    match (wait_fetched monitor capturer_privacy_id sent ∅ (windows t)).1 with
                    | PrivacyChanged now => ((check_privacy_mode_changed capturer_privacy_id now t s).1, Left SWITCH l)
                    | _ => ([], Running l)
                    end in
                  (before_frame t ++ ops3 ++ ops4, out)
              end
          end
      end in
  (before_ok t ++ ops, out).

(** [run], with the encoder that was set up: a first step that drops an old
    request to refresh, and rounds until the loop is left. *)
Fixpoint rounds (monitor : bool) (display : N) (pid : Z) (ts : list Tick) (s : Svc) (l : Loop) : list Op * Round :=
  match ts with
  | [] => ([], Running l)
  | t :: ts =>
      let '(ops, out) := round monitor display pid t s l in
      match out with
      | Running l => let '(more, out) := rounds monitor display pid ts (trace ops s).1 l in (ops ++ more, out)
      | _ => (ops, out)
      end
  end.
Definition run (monitor : bool) (display : N) (pid : Z) (enc : Enc) (shot : option Screenshot) (ts : list Tick) (s : Svc) : list Op * Round :=
  let ops := if is_option_true OPTION_REFRESH s then [SetOption OPTION_REFRESH SERVICE_OPTION_VALUE_FALSE] else [] in
  let '(more, out) := rounds monitor display pid ts (trace ops s).1 (mkLoop enc true 0 0 None shot) in
  (ops ++ more, out).
End Video.

(** ** Streams *)

(** The frames in what was delivered, and in the steps of the service. *)
Definition frame_of (m : Message) : option bytes := match m with VideoFrame _ f => Some f | _ => None end.
Definition frames_got (log : list Delivery) : list bytes := omap (fun d => frame_of d.2) log.
Definition frame_sent (o : Op) : option bytes := match o with SendShared m => frame_of m | _ => None end.
Definition frames_sent (ops : list Op) : list bytes := omap frame_sent ops.

(** Somebody is admitted to the service after its encoder has started, while
    nobody who has joined is left. *)
Fixpoint handover (started : bool) (ops : list Op) (s : ServiceInner ConnInner) : bool :=
  match ops with
  | [] => false
  | o :: ops =>
      match o with
      | Swap => started && bool_decide (size (subscribes s) = 0%nat) && bool_decide (0 < size (new_subscribes s))%nat
      | _ => false
      end || handover (started || match frame_sent o with Some _ => true | None => false end) ops (apply o s).1
  end.

Lemma frames_got_app l1 l2 : frames_got (l1 ++ l2) = frames_got l1 ++ frames_got l2.
Proof. apply omap_app. Qed.
Lemma frames_sent_app l1 l2 : frames_sent (l1 ++ l2) = frames_sent l1 ++ frames_sent l2.
Proof. apply omap_app. Qed.

Lemma externals_no_frames ops : Forall external ops -> frames_sent ops = [].
Proof. induction 1 as [|o ops Ho Hops IH]; [done|]. unfold frames_sent in *. simpl. by destruct o. Qed.

Definition started (sent : list bytes) : bool := bool_decide (sent <> []).

Lemma handover_app sent ops1 ops2 s :
  handover (started sent) (ops1 ++ ops2) s =
    handover (started sent) ops1 s || handover (started (sent ++ frames_sent ops1)) ops2 (trace ops1 s).1.
Proof.
  revert sent s. induction ops1 as [|o ops1 IH]; intros sent s; [by rewrite app_nil_r|].
  simpl. rewrite <- orb_assoc. f_equal.
  assert (started sent || match frame_sent o with Some _ => true | None => false end = started (sent ++ frames_sent [o])) as ->.
  { unfold started, frames_sent. simpl. destruct (frame_sent o); simpl; [|by rewrite orb_false_r, app_nil_r].
    rewrite (bool_decide_true (sent ++ _ <> [])) by (by destruct sent). apply orb_true_r. }
  rewrite IH. f_equal. rewrite <- (assoc_L (++)).
  assert (frames_sent [o] ++ frames_sent ops1 = match frame_sent o with Some y => y :: frames_sent ops1 | None => frames_sent ops1 end) as ->
    by (unfold frames_sent; simpl; by destruct (frame_sent o)).
  destruct (apply o s) as [s1 out]. simpl. by destruct (trace ops1 s1).
Qed.

(** [sent]: the frames of the current encoder so far. *)
Definition follows_stream (sent : list bytes) (pl : Phase * list Delivery) : Prop :=
  match pl.1 with
  | Absent => True
  | Waiting x => tx_video x = true -> frames_got pl.2 = []
  | Joined x => tx_video x = true -> frames_got pl.2 = sent
  end.
(** The state of a run: every connection, with what it got since it came. *)
Definition stream_ok (sent : list bytes) (s : ServiceInner ConnInner) (log : Z -> list Delivery) : Prop :=
  wf s /\ need_snapshot s = true /\ forall i, follows_stream sent (phase i s, log i).

(** The logs after some steps. *)
Definition logs (ops : list Op) (s : ServiceInner ConnInner) (log : Z -> list Delivery) (i : Z) : list Delivery :=
  (phase_log true i ops (phase i s) (log i)).2.

Lemma logs_phase ops s log i : wf s -> need_snapshot s = true ->
  phase_log true i ops (phase i s) (log i) = (phase i (trace ops s).1, logs ops s log i).
Proof.
  intros Hs Hn. unfold logs. pose proof (phase_log_phase true i ops (phase i s) (log i)) as Hp.
  destruct (trace_phase ops i s Hs) as [Ht _]. rewrite Hn in Ht. rewrite <- Ht in Hp.
  destruct (phase_log true i ops (phase i s) (log i)). simpl in *. by rewrite Hp.
Qed.

Lemma logs_app ops1 ops2 s log i : wf s -> need_snapshot s = true ->
  logs (ops1 ++ ops2) s log i = logs ops2 (trace ops1 s).1 (logs ops1 s log) i.
Proof. intros Hs Hn. unfold logs at 1. rewrite phase_log_app, logs_phase by done. done. Qed.

(** One step: the phase and the log move together. *)
Lemma logs_one o s log i : wf s -> need_snapshot s = true ->
  logs [o] s log i = (log_step true i o (phase i s, log i)).2 /\ phase i (apply o s).1 = (log_step true i o (phase i s, log i)).1.
Proof.
  intros Hs Hn. unfold logs, log_step. simpl. destruct (apply_phase o i s Hs) as [Hp _]. rewrite Hn in Hp.
  destruct (phase_step true i o (phase i s)). by simpl in *.
Qed.

Lemma step_stream_ok sent sent' o s log : stream_ok sent s log ->
  (forall i, follows_stream sent (phase i s, log i) -> follows_stream sent' (log_step true i o (phase i s, log i))) ->
  stream_ok sent' (apply o s).1 (logs [o] s log).
Proof.
  intros (Hs & Hn & Hf) Ho. split_and!; [by apply apply_wf|by rewrite apply_need_snapshot|]. intros i.
  destruct (logs_one o s log i Hs Hn) as [-> ->]. specialize (Ho i (Hf i)). by destruct (log_step true i o (phase i s, log i)).
Qed.

Lemma external_stream sent o i pl : external o -> follows_stream sent pl -> follows_stream sent (log_step true i o pl).
Proof.
  intros He Hf. by destruct (external_log_step i o pl He) as [->|[->|(c & -> & _ & ->)]].
Qed.

Lemma externals_stream_ok sent ops s log : Forall external ops -> stream_ok sent s log ->
  stream_ok sent (trace ops s).1 (logs ops s log).
Proof.
  intros He. revert s log. induction He as [|o ops Ho He IH]; intros s log Hs; [exact Hs|].
  assert (stream_ok sent (apply o s).1 (logs [o] s log)) as H1.
  { apply (step_stream_ok sent); [done|]. intros i. by apply external_stream. }
  specialize (IH _ _ H1). destruct Hs as (Hs & Hn & _).
  assert (trace [o] s = ((apply o s).1, [(apply o s).2])) as Et by (cbn [trace]; by destruct (apply o s)).
  assert ((trace (o :: ops) s).1 = (trace ops (apply o s).1).1) as ->.
  { cbn [trace]. destruct (apply o s) as [s1 out]. cbn [fst]. by destruct (trace ops s1). }
  destruct IH as (I1 & I2 & I3). split_and!; [done..|]. intros i. change (o :: ops) with ([o] ++ ops).
  rewrite logs_app by done. rewrite Et. apply I3.
Qed.

(** A frame reaches all that have joined. *)
Lemma frame_stream sent d f i pl : follows_stream sent pl -> follows_stream (sent ++ [f]) (log_step true i (SendShared (VideoFrame d f)) pl).
Proof.
  intros Hf. destruct pl as [p log]. unfold log_step, follows_stream in *. cbn [fst snd phase_step fresh] in *.
  destruct p as [|x|x]; simpl in *; [done|by rewrite app_nil_r|]. intros Hx. rewrite Hx, frames_got_app, Hf by done. done.
Qed.

(** Admission is safe before the first frame. *)
Lemma swap_stream sent i pl : (sent = [] \/ forall x, pl.1 <> Waiting x) -> follows_stream sent pl -> follows_stream sent (log_step true i Swap pl).
Proof.
  intros Hs Hf. destruct pl as [p log]. unfold log_step, follows_stream in *. cbn [fst snd phase_step fresh] in *. rewrite app_nil_r.
  destruct p as [|x|x]; simpl in *; [done| |done]. destruct Hs as [->|Hs]; [done|]. by destruct (Hs x).
Qed.

(** Steps after which everybody has the stream again. *)
Definition safe (ops : list Op) (s : ServiceInner ConnInner) : Prop := forall sent log,
  handover (started sent) ops s = false -> stream_ok sent s log ->
  stream_ok (sent ++ frames_sent ops) (trace ops s).1 (logs ops s log).

Lemma safe_app ops1 ops2 s : safe ops1 s -> safe ops2 (trace ops1 s).1 -> safe (ops1 ++ ops2) s.
Proof.
  intros H1 H2 sent log Hh Hs. rewrite handover_app in Hh. apply orb_false_iff in Hh as [Hh1 Hh2].
  specialize (H1 sent log Hh1 Hs). specialize (H2 _ _ Hh2 H1). rewrite frames_sent_app, (assoc_L (++)).
  destruct Hs as (Hs & Hn & _). destruct H2 as (I1 & I2 & I3). rewrite trace_app.
  destruct (trace ops1 s) as [s1 o1] eqn:E. cbn [fst] in *. destruct (trace ops2 s1) as [s2 o2]. cbn [fst] in *.
  split_and!; [done..|]. intros i. rewrite logs_app by done. rewrite E. apply I3.
Qed.

Lemma safe_externals ops s : Forall external ops -> safe ops s.
Proof. intros He sent log _ Hs. rewrite externals_no_frames, app_nil_r by done. by apply externals_stream_ok. Qed.
Lemma safe_nil s : safe [] s.
Proof. by apply safe_externals. Qed.

Lemma trace_one {T} `{Subscriber T} o (s : ServiceInner T) : (trace [o] s).1 = (apply o s).1.
Proof. cbn [trace]. by destruct (apply o s). Qed.

Lemma safe_frame d f s : safe [SendShared (VideoFrame d f)] s.
Proof.
  intros sent log _ Hs. rewrite trace_one. apply (step_stream_ok sent); [done|]. intros i. apply frame_stream.
Qed.

Lemma externals_not_joined ops s : Forall external ops -> wf s -> need_snapshot s = true ->
  (forall i x, phase i s <> Joined x) -> forall i (x : ConnInner), phase i (trace ops s).1 <> Joined x.
Proof.
  intros He Hs Hn Hj i. pose proof (phase_log_phase true i ops (phase i s) []) as Hp.
  destruct (trace_phase ops i s Hs) as [Ht _]. rewrite Hn in Ht. rewrite Ht, <- Hp. specialize (Hj i). clear Ht Hp Hn Hs.
  revert Hj. generalize (phase i s), (@nil Delivery). induction He as [|o ops Ho He IH]; intros p log Hj; [exact Hj|].
  rewrite phase_log_cons. destruct (external_log_step i o (p, log) Ho) as [->|[->|(c & _ & _ & ->)]]; by apply IH.
Qed.

Lemma no_joined_empty (s : ServiceInner ConnInner) : subscribes s = ∅ <-> forall i x, phase i s <> Joined x.
Proof.
  split; unfold phase.
  - intros -> i x. rewrite lookup_empty. by destruct (new_subscribes s !! i).
  - intros Hj. apply map_empty. intros i. specialize (Hj i). destruct (subscribes s !! i) as [x|]; [by destruct (Hj x)|done].
Qed.

(** A snapshot that found nobody joined. *)
Lemma safe_snapshot before after s : Forall external before -> Forall external after ->
  swap_has_subscribes (trace before s).1 = false -> safe (before ++ after ++ [Swap]) s.
Proof.
  intros Hb Ha Hsw. rewrite (assoc_L (++)). intros sent log Hh Hs.
  pose proof (externals_stream_ok sent (before ++ after) s log (Forall_app_2 _ _ _ Hb Ha) Hs) as H1.
  rewrite handover_app, externals_no_frames, app_nil_r in Hh by (by apply Forall_app_2).
  apply orb_false_iff in Hh as [_ Hh]. simpl in Hh. rewrite orb_false_r in Hh.
  rewrite frames_sent_app, externals_no_frames by (by apply Forall_app_2). simpl. rewrite app_nil_r.
  assert (subscribes (trace (before ++ after) s).1 = ∅) as Hempty.
  { destruct Hs as (Hs & Hn & _). rewrite trace_app. pose proof (trace_wf before s Hs) as Hw. pose proof (trace_need_snapshot before s) as Hn'.
    destruct (trace before s) as [s1 o1]. cbn [fst] in *. pose proof (externals_not_joined after s1 Ha Hw) as Hj.
    destruct (trace after s1) as [s2 o2]. cbn [fst] in *. apply no_joined_empty, Hj; [congruence|]. apply no_joined_empty, map_size_empty_inv.
    unfold swap_has_subscribes in Hsw. apply bool_decide_eq_false in Hsw. lia. }
  rewrite Hempty, map_size_empty in Hh. rewrite (bool_decide_true (0%nat = 0%nat)) in Hh by done. rewrite andb_true_r in Hh.
  destruct Hs as (Hs & Hn & Hf). set (s1 := (trace (before ++ after) s).1) in *.
  assert (stream_ok sent (apply Swap s1).1 (logs [Swap] s1 (logs (before ++ after) s log))) as (I1 & I2 & I3).
  { apply (step_stream_ok sent); [done|]. intros i. apply swap_stream. apply andb_false_iff in Hh as [Hst|Hnew].
    - left. unfold started in Hst. apply bool_decide_eq_false in Hst. destruct sent; [done|by destruct Hst].
    - right. intros x. cbn [fst]. unfold phase. rewrite Hempty, lookup_empty. apply bool_decide_eq_false in Hnew.
      assert (new_subscribes s1 = ∅) as -> by (apply map_size_empty_inv; lia). by rewrite lookup_empty. }
  rewrite trace_app. unfold s1 in *. destruct (trace (before ++ after) s) as [s1' o1] eqn:E. cbn [fst] in *. cbn [trace].
  destruct (apply Swap s1') as [s2 o2] eqn:E2. cbn [fst] in *. split_and!; [done..|]. intros i. rewrite logs_app by done. rewrite E. apply I3.
Qed.

(** ** The loop *)
Section Loop.
Context {Enc Input : Type} (encode : Input -> Z -> Enc -> Enc * result bytes bool) (is_hardware latency_free : Enc -> bool).

Record tick_ok (t : Tick (Input := Input)) : Prop := {
  before_ok_ok : Forall external (before_ok t);
  before_frame_ok : Forall external (before_frame t);
  before_snapshot_ok : Forall external (before_snapshot t);
  after_snapshot_ok : Forall external (after_snapshot t)
}.

Lemma one_frame_safe display frame t s l ops l' sent : tick_ok t ->
  handle_one_frame encode is_hardware latency_free display frame t s l = (ops, l', Ok sent) -> safe ops s.
Proof.
  intros Ht. unfold handle_one_frame, snapshot.
  assert (forall ops', safe ops' s -> (let s0 := (trace ops' s).1 in
    let '(enc, out) := encode frame (ms t) (encoder l) in
    match out with
    | Ok vf => (ops' ++ [SendShared (VideoFrame (Z.of_N display) vf)], with_encoder enc false 0 l,
                Ok (send_video_frame_shared (VideoFrame (Z.of_N display) vf) s0).2)
    | Err need_switch =>
        let fails := encode_fail_counter l + 1 in
        let worn := (first_frame l && latency_free enc) || (max_fail_times <=? fails) in
        let l := with_encoder enc false (if worn then 0 else fails) l in
        (ops', l, if (worn && is_hardware enc) || need_switch then Err SWITCH else Ok ∅)
    end) = (ops, l', Ok sent) -> safe ops s) as Henc.
  { intros ops' Hsafe. cbv zeta. destruct (encode frame (ms t) (encoder l)) as [enc [vf|sw]].
    - intros [= <- _ _]. apply safe_app; [done|apply safe_frame].
    - destruct (_ || sw); [done|]. by intros [= <- _ _]. }
  case_bool_decide as Hn; [|by apply (Henc [] (safe_nil s))].
  destruct (swap_has_subscribes (trace (before_snapshot t) s).1) eqn:Hsw; [done|]. cbn [fmap list_fmap app].
  apply Henc, safe_snapshot; [apply Ht..|done].
Qed.

Lemma captured_safe monitor display t s l ops l' sent : tick_ok t ->
  handle_captured encode is_hardware latency_free monitor display t s l = (ops, l', Ok sent) -> safe ops s.
Proof.
  intros Ht. unfold handle_captured. cbv zeta.
  assert (forall frame l1, (let '(ops1, l2, r) := handle_one_frame encode is_hardware latency_free display frame t s l1 in
    (ops1, l2, match r with Ok sent => Ok (Some sent) | Err e => Err e end)) = (ops, l', Ok sent) -> safe ops s) as Hone.
  { intros frame l1. destruct (handle_one_frame _ _ _ _ _ _ _ _) as [[ops1 l2] [ids|e]] eqn:E; [|done]. intros [= <- _ _].
    by eapply one_frame_safe. }
  destruct (captured t) as [valid kind input| |falls_back].
  - destruct (negb valid); [intros [= <- _ _]; apply safe_nil|].
    destruct (take_screenshot kind (with_repeat 0 l)) as [[l1 o] [u|e]]; [|done].
    destruct input as [frame|]; [|done]. apply Hone.
  - destruct (yuv l) as [frame|]; [|intros [= <- _ _]; apply safe_nil].
    destruct (_ && _); [apply Hone|intros [= <- _ _]; apply safe_nil].
  - unfold broadcast_display_changed. destruct monitor; [destruct (display_changed t); [by destruct (snapshot _ _ _ _)|]|];
      (destruct falls_back; [intros [= <- _ _]; apply safe_nil|done]).
Qed.

Lemma round_safe monitor display pid t s l ops l' : tick_ok t ->
  round encode is_hardware latency_free monitor display pid t s l = (ops, Running l') -> safe ops s.
Proof.
  intros Ht. unfold round. set (s1 := (trace (before_ok t) s).1).
  destruct (negb (ok s1)); [done|]. destruct (qos_switch t); [done|]. destruct (is_option_true OPTION_REFRESH s1); [done|].
  destruct (_ || _); [done|]. destruct (if monitor then _ else _) as [ops1 [u|e]]; [|done].
  destruct (if monitor && check_due t then _ else _) as [ops2 [u2|e]]; [|done].
  destruct (handle_captured _ _ _ _ _ _ _ _) as [[ops3 l1] [sent|e]] eqn:Hc; [|done].
  assert (safe (before_ok t ++ before_frame t ++ ops3) s) as Hsafe.
  { apply safe_app; [apply safe_externals, Ht|]. apply safe_app; [apply safe_externals, Ht|].
    by apply (captured_safe monitor display t _ l _ l1 sent Ht). }
  destruct sent as [sent|]; [|by intros [= <- _]].
  by destruct (wait_fetched _ _ _ _ _).1; try done; intros [= <- _]; rewrite app_nil_r.
Qed.

Lemma rounds_safe monitor display pid ts : forall s l ops l', Forall tick_ok ts ->
  rounds encode is_hardware latency_free monitor display pid ts s l = (ops, Running l') -> safe ops s.
Proof.
  induction ts as [|t ts IH]; intros s l ops l' Hts; simpl; [intros [= <- _]; apply safe_nil|].
  inversion Hts as [|? ? Ht Hts']; subst. destruct (round _ _ _ _ _ _ t s l) as [ops1 out] eqn:Hr. destruct out as [l1| |]; [|done..].
  destruct (rounds _ _ _ _ _ _ ts _ l1) as [more out] eqn:Hm. intros [= <- ->].
  apply safe_app; [by apply (round_safe monitor display pid t s l _ l1)|by apply (IH _ l1 more l')].
Qed.

(** A newcomer among viewers makes the loop start over before a frame is sent. *)
Lemma newcomer_restarts display frame t s l : new_subscribes s <> ∅ ->
  swap_has_subscribes (trace (before_snapshot t) s).1 = true ->
  (handle_one_frame encode is_hardware latency_free display frame t s l).2 = Err SWITCH.
Proof.
  intros Hn Hs. unfold handle_one_frame, snapshot.
  rewrite bool_decide_true by (destruct (size (new_subscribes s)) eqn:E; [by apply map_size_empty_inv in E|lia]). by rewrite Hs.
Qed.
End Loop.

(** [C5] As long as the loop runs, every viewer that has joined was sent all
    frames of the current encoder, from its first, in order and once, since it
    came or since the encoder started: whoever comes and goes, whatever is
    captured, whichever frames fail to encode.  The exception is [handover]:
    the last viewer leaves and another arrives between two looks at the
    service, and the newcomer is admitted in the middle of the stream. *)
Theorem viewers_can_decode {Enc Input} (encode : Input -> Z -> Enc -> Enc * result bytes bool) is_hardware latency_free
    monitor display pid enc shot ts s ops l i x log :
  Forall (tick_ok (Input := Input)) ts -> wf s -> need_snapshot s = true ->
  run encode is_hardware latency_free monitor display pid enc shot ts s = (ops, Running l) ->
  handover false ops s = false ->
  phase_log true i ops (phase i s) [] = (Joined x, log) -> tx_video x = true ->
  frames_got log = frames_sent ops.
Proof.
  intros Hts Hs Hn Hr Hh Hl Hx.
  assert (safe ops s) as Hsafe.
  { unfold run in Hr. set (pre := if is_option_true OPTION_REFRESH s then _ else _) in *.
    destruct (rounds _ _ _ _ _ _ ts _ _) as [more out] eqn:Hm. injection Hr as <- ->.
    apply safe_app; [apply safe_externals; unfold pre; destruct (is_option_true _ s); by repeat constructor|].
    by eapply (rounds_safe encode is_hardware latency_free monitor display pid ts). }
  assert (stream_ok [] s (fun _ => [])) as H0.
  { split_and!; [done..|]. intros j. unfold follows_stream. simpl. by destruct (phase j s). }
  destruct (Hsafe [] (fun _ => []) Hh H0) as (I1 & I2 & I3). specialize (I3 i).
  pose proof (logs_phase ops s (fun _ => []) i Hs Hn) as Hp. simpl in Hp. rewrite Hl in Hp. injection Hp as Hph Hlog.
  unfold follows_stream in I3. cbn [fst snd] in I3. rewrite <- Hph, <- Hlog in I3. by apply I3.
Qed.

(** The wait after a frame: when it ends early, at least as many connections
    acknowledged as were sent the frame, so all of them did, if only they do. *)
Lemma wait_all_fetched monitor pid sent ws : forall fetched_ids ids,
  wait_fetched monitor pid sent fetched_ids ws = (AllFetched, ids) -> (size sent <= size ids)%nat.
Proof.
  induction ws as [|w ws IH]; intros f ids; simpl; [done|]. destruct (negb _); [done|]. destruct (_ && _); [done|].
  set (f1 := if bool_decide (sent = ∅) then f else _). destruct (bool_decide (size sent <= size f1)%nat) eqn:E; [|apply IH].
  intros [= <-]. by apply bool_decide_eq_true in E.
Qed.
Lemma all_fetched_complete monitor pid sent ws ids :
  wait_fetched monitor pid sent ∅ ws = (AllFetched, ids) -> ids ⊆ sent -> ids = sent.
Proof.
  intros Hw Hsub. apply wait_all_fetched in Hw. apply leibniz_equiv, set_subseteq_size_equiv; [done|lia].
Qed.

(** The wait is over once three seconds are. *)
Lemma wait_ends monitor pid sent ws w : timeout_millis <= opens w -> forall fetched_ids,
  (wait_fetched monitor pid sent fetched_ids (ws ++ [w])).1 <> StillWaiting.
Proof.
  intros Hw. induction ws as [|v ws IH]; intros f; simpl.
  - rewrite (proj2 (Z.ltb_ge _ _)) by lia. done.
  - destruct (negb _); [done|]. destruct (_ && _); [done|]. destruct (bool_decide (size sent <= _)%nat); [done|apply IH].
Qed.

(** ** Runs *)
Definition demo_encode (input : bytes) (ms : Z) (e : unit) : unit * result bytes bool := (e, Ok input).
Definition demo_tick (ops : list Op) (f : bytes) : Tick (Input := bytes) :=
  mkTick ops false false false 0 false None [] (CFrame true (PixelBuffer None) (Some f)) 0 [] [] [].
Definition demo_viewer (i : Z) : ConnInner := mkConnInner i true true.

Lemma viewers_can_decode_witness :
  let ts := [demo_tick [OnSubscribe (demo_viewer 7)] [byte.of_Z 1]; demo_tick [] [byte.of_Z 2]] in
  let s := new "monitor0" true : ServiceInner ConnInner in
  let ops := (run demo_encode (fun _ => false) (fun _ => true) true 0 0 tt None ts s).1 in
  frames_got (phase_log true 7 ops (phase 7 s) []).2 = [[byte.of_Z 1]; [byte.of_Z 2]].
Proof.
  intros ts s ops. transitivity (frames_sent ops); [|vm_compute; reflexivity].
  eapply (viewers_can_decode demo_encode (fun _ => false) (fun _ => true) true 0 0 tt None ts s ops _ 7 (demo_viewer 7));
    [repeat constructor|apply new_wf|reflexivity|vm_compute; reflexivity..].
Defined.

(** Viewer 8 arrives as viewer 7 leaves: it is admitted and sent the second
    frame of an encoder whose first frame it never got. *)
Example late_viewer_gets_no_first_frame :
  let ts := [demo_tick [OnSubscribe (demo_viewer 7)] [byte.of_Z 1];
             demo_tick [OnUnsubscribe 7; OnSubscribe (demo_viewer 8)] [byte.of_Z 2]] in
  let s := new "monitor0" true : ServiceInner ConnInner in
  let '(ops, _) := run demo_encode (fun _ => false) (fun _ => true) true 0 0 tt None ts s in
  handover false ops s = true /\ frames_sent ops = [[byte.of_Z 1]; [byte.of_Z 2]] /\
  frames_got (phase_log true 8 ops (phase 8 s) []).2 = [[byte.of_Z 2]].
Proof. vm_compute. split_and!; reflexivity. Qed.
