(* ===== verification/HostPort.v ===== *)
(** * Hosts and ports ([libs/hbb_common/src/socket_client.rs])

    A server is configured as text: a domain or an IPv4 address with or without
    a port, or an IPv6 address, bracketed when a port follows.  Splitting undoes
    what [check_port] completes. *)
From S2P Require Import Prelude.
From S2P Require Import Encoding.
From S2P Require Import Version.

Definition colon : byte := Byte.x3a.
Definition lbracket : byte := Byte.x5b.
Definition rbracket : byte := Byte.x5d.

(** ** Numbers as text *)
Definition show_i32 (z : Z) : bytes := str (pretty z).
(** [str::parse::<i32>]. *)
Definition parse_i32 (s : bytes) : option Z :=
  z ← parse_i64 s; if (- 2 ^ 31 <=? z) && (z <=? i32_max) then Some z else None.

(** ** IPv6 addresses

    The regular expression of [is_ipv6_str]: groups of one to four hexadecimal
    digits with one or two colons between them, at least two groups; bare, or
    in brackets with a port. *)
Definition is_hex (b : byte) : bool :=
  let z := byte.unsigned b in
  ((48 <=? z) && (z <=? 57)) || ((97 <=? z) && (z <=? 102)) || ((65 <=? z) && (z <=? 70)).

(** Groups that are complete, digits of the group, colons after it. *)
Record Scan := mkScan { groups : bool; digits : Z; colons : Z }.
Definition scan_step (b : byte) (s : Scan) : option Scan :=
  if is_hex b then
    if (0 <? colons s) || (digits s =? 0) then Some (mkScan (groups s || (0 <? colons s)) 1 0)
    else if digits s <? 4 then Some (mkScan (groups s) (digits s + 1) 0)
    else None
  else if bool_decide (b = colon) then
    if (0 <? digits s) && (colons s <? 2) then Some (mkScan (groups s) (digits s) (colons s + 1)) else None
  else None.
Fixpoint scan (s : bytes) (st : Scan) : option (Scan * bytes) :=
  match s with
  | [] => Some (st, [])
  | b :: s =>
      if bool_decide (b = rbracket) then Some (st, b :: s)
      else match scan_step b st with Some st => scan s st | None => None end
  end.
Definition scanned (st : Scan) : bool := groups st && (0 <? digits st) && (colons st =? 0).
Definition all_digits (s : bytes) : bool := forallb (fun b => match digit_of b with Some _ => true | None => false end) s.

Definition is_ipv6_str (s : bytes) : bool :=
  match s with
  | b :: rest =>
      if bool_decide (b = lbracket) then
        match scan rest (mkScan false 0 0) with
        | Some (st, r :: c :: port) =>
            scanned st && bool_decide (c = colon) && bool_decide (port <> []) && all_digits port
        | _ => false
        end
      else match scan s (mkScan false 0 0) with Some (st, []) => scanned st | _ => false end
  | [] => false
  end.

(** ** Completing and splitting *)
Definition starts_with (b : byte) (s : bytes) : bool := match s with c :: _ => bool_decide (c = b) | [] => false end.
Definition has_colon (s : bytes) : bool := bool_decide (colon ∈ s).

(** [str::split] on ["]:"]. *)
Fixpoint split_bracket (s : bytes) : list bytes :=
  match s with
  | a :: t =>
      match t with
      | b :: s' =>
          if bool_decide (a = rbracket /\ b = colon) then [] :: split_bracket s'
          else match split_bracket t with x :: l => (a :: x) :: l | [] => [[a]] end
      | [] => [[a]]
      end
  | [] => [[]]
  end.

Definition check_port (host : bytes) (port : Z) : bytes :=
  if is_ipv6_str host then
    if starts_with lbracket host then host else [lbracket] ++ host ++ [rbracket; colon] ++ show_i32 port
  else if negb (has_colon host) then host ++ [colon] ++ show_i32 port
  else host.

(** A positive port after the only separator. *)
Definition with_port {A} (parts : list bytes) (k : bytes -> Z -> A) : option A :=
  match parts with
  | [a; b] => let port := default 0 (parse_i32 b) in if 0 <? port then Some (k a port) else None
  | _ => None
  end.
Definition increase_port (host : bytes) (offset : Z) : bytes :=
  let moved a port := a ++ [colon] ++ show_i32 (i32_of (port + offset)) in
  default host
    (if is_ipv6_str host then
       if starts_with lbracket host then with_port (split_bracket host) (fun a => moved (a ++ [rbracket])) else None
     else if has_colon host then with_port (split_on colon host) moved
     else None).
Definition split_host_port (host : bytes) : option (bytes * Z) :=
  if is_ipv6_str host then
    if starts_with lbracket host then with_port (split_bracket host) (fun a p => (a ++ [rbracket], p)) else None
  else if has_colon host then with_port (split_on colon host) pair
  else None.

(** ** Facts *)
Lemma char_digit (d : N) : (d < 10)%N -> digit_of (Ascii.byte_of_ascii (pretty_N_char d)) = Some (Z.of_N d).
Proof.
  intros Hd. destruct d as [|p]; [reflexivity|]. do 4 (destruct p as [p|p|]; try reflexivity; try lia).
Qed.

Lemma parse_digits_go x : forall s, parse_digits 0 (str (pretty_N_go x s)) = parse_digits (Z.of_N x) (str s).
Proof.
  induction (N.lt_wf_0 x) as [x _ IH]. intros s. destruct (decide (0 < x)%N) as [Hx|Hx].
  - rewrite pretty_N_go_step by done. rewrite IH by (apply N.div_lt; lia).
    unfold str. simpl. rewrite char_digit by (apply N.mod_lt; lia). simpl. f_equal. rewrite N2Z.inj_div, N2Z.inj_mod.
    pose proof (Z.div_mod (Z.of_N x) 10). lia.
  - assert (x = 0%N) as -> by lia. by rewrite pretty_N_go_0.
Qed.

Lemma show_digits z : 0 <= z -> parse_digits 0 (show_i32 z) = Some z.
Proof.
  intros Hz. unfold show_i32. destruct z as [|p|p]; [reflexivity| |lia].
  change (pretty (Z.pos p)) with (pretty_N_go (N.pos p) ""). by rewrite parse_digits_go.
Qed.

Lemma show_sign z : 0 <= z -> exists b s, show_i32 z = b :: s /\ b <> Byte.x2b /\ b <> Byte.x2d.
Proof.
  intros Hz. pose proof (show_digits z Hz) as H. destruct (show_i32 z) as [|b s] eqn:E.
  - simpl in H. injection H as <-. discriminate E.
  - exists b, s. split; [done|]. simpl in H. split; intros ->; discriminate H.
Qed.

Lemma parse_show z : 0 <= z <= i32_max -> parse_i32 (show_i32 z) = Some z.
Proof.
  intros Hz. pose proof (show_digits z (proj1 Hz)) as Hd. destruct (show_sign z (proj1 Hz)) as (b & s & E & H1 & H2).
  unfold parse_i32, parse_i64. rewrite E in Hd |- *.
  assert (match b :: s with Byte.x2b :: ds => (1, ds) | Byte.x2d :: ds => (-1, ds) | _ => (1, b :: s) end = (1, b :: s)) as ->
    by (destruct b; try reflexivity; congruence).
  rewrite decide_False by done. rewrite Hd. cbn [mbind option_bind]. rewrite Z.mul_1_l. unfold i32_max in *.
  assert ((i64_min <=? z) && (z <=? i64_max) = true) as -> by (unfold i64_min, i64_max; lia). cbn [mbind option_bind].
  assert ((- 2 ^ 31 <=? z) && (z <=? 2 ^ 31 - 1) = true) as -> by lia. done.
Qed.

Lemma digits_no_byte c s acc z : parse_digits acc s = Some z -> digit_of c = None -> c ∉ s.
Proof.
  revert acc. induction s as [|b s IH]; intros acc H Hc; [apply not_elem_of_nil|]. simpl in H.
  destruct (digit_of b) as [d|] eqn:Hb; [|done]. simpl in H. rewrite not_elem_of_cons. split; [congruence|by apply (IH _ H)].
Qed.
Lemma show_no_byte c z : 0 <= z -> digit_of c = None -> c ∉ show_i32 z.
Proof. intros Hz. apply (digits_no_byte c _ 0 z). by apply show_digits. Qed.

Lemma show_all_digits z : 0 <= z -> all_digits (show_i32 z) = true.
Proof.
  intros Hz. pose proof (show_digits z Hz) as H. revert H. generalize (show_i32 z), 0 at 1. intros s.
  induction s as [|b s IH]; intros acc H; [done|]. simpl in *. destruct (digit_of b); [|done]. simpl in *. by apply (IH _ H).
Qed.

(** A scan stops at the first bracket. *)
Lemma scan_app s t st st' : scan s st = Some (st', []) -> scan (s ++ rbracket :: t) st = Some (st', rbracket :: t).
Proof.
  revert st. induction s as [|b s IH]; intros st; simpl; [by intros [= ->]|]. case_bool_decide; [done|].
  destruct (scan_step b st); [|done]. apply IH.
Qed.
Lemma scan_bytes s : forall st st', scan s st = Some (st', []) -> (rbracket ∉ s) /\ (lbracket ∉ s).
Proof.
  induction s as [|b s IH]; intros st st'; simpl; [split; apply not_elem_of_nil|]. case_bool_decide as Hb; [done|].
  destruct (scan_step b st) as [st1|] eqn:E; [|done]. intros H. destruct (IH _ _ H). rewrite !not_elem_of_cons. split_and!; try done.
  intros <-. by compute in E.
Qed.

Lemma bare_ipv6 h : is_ipv6_str h = true -> starts_with lbracket h = false ->
  exists st, scan h (mkScan false 0 0) = Some (st, []) /\ scanned st = true.
Proof.
  unfold is_ipv6_str. destruct h as [|b rest]; [done|]. unfold starts_with. intros H Hb. rewrite Hb in H.
  destruct (scan (b :: rest) _) as [[st [|? ?]]|]; try done. eauto.
Qed.

Lemma bracketed_ipv6 h p : is_ipv6_str h = true -> starts_with lbracket h = false -> 0 <= p ->
  is_ipv6_str ([lbracket] ++ h ++ [rbracket; colon] ++ show_i32 p) = true.
Proof.
  intros H Hb Hp. destruct (bare_ipv6 h H Hb) as (st & Hs & Hok). simpl. rewrite (scan_app h _ _ st Hs), Hok.
  rewrite show_all_digits by done. simpl. destruct (show_sign p Hp) as (b & s & -> & _). done.
Qed.

Lemma dotted_not_ipv6 s : dot ∈ s -> is_ipv6_str s = false.
Proof.
  assert (forall s st, dot ∈ s -> match scan s st with Some (_, rest) => exists t, rest = rbracket :: t /\ dot ∈ t | None => True end) as Hscan.
  { clear s. induction s as [|b s IH]; intros st Hd; [by apply not_elem_of_nil in Hd|]. simpl. case_bool_decide as Hb.
    - exists s. subst b. split; [done|]. by apply elem_of_cons in Hd as [Hd|Hd].
    - destruct (scan_step b st) as [st1|] eqn:E; [|done]. apply IH. apply elem_of_cons in Hd as [<-|Hd]; [by compute in E|done]. }
  intros Hd. unfold is_ipv6_str. destruct s as [|b rest]; [done|]. case_bool_decide as Hb.
  - apply elem_of_cons in Hd as [Hd|Hd]; [subst b; discriminate|]. specialize (Hscan rest (mkScan false 0 0) Hd).
    destruct (scan rest _) as [[st rest']|]; [|done]. destruct Hscan as (t & -> & Ht). destruct t as [|c port]; [done|].
    apply not_true_is_false. intros H. repeat (apply andb_prop in H as [H ?]).
    apply elem_of_cons in Ht as [<-|Ht]; [by apply bool_decide_eq_true in H2|]. apply list_elem_of_In in Ht.
    unfold all_digits in H0. rewrite forallb_forall in H0. by specialize (H0 dot Ht).
  - specialize (Hscan (b :: rest) (mkScan false 0 0) Hd). destruct (scan (b :: rest) _) as [[st rest']|]; [|done].
    by destruct Hscan as (t & -> & _).
Qed.

Lemma split_bracket_free s t : rbracket ∉ s -> colon ∉ t -> split_bracket (s ++ rbracket :: colon :: t) = [s; t].
Proof.
  intros Hs Ht. assert (split_bracket t = [t]) as Et.
  { clear Hs. induction t as [|a t IH]; [done|]. rewrite not_elem_of_cons in Ht. destruct Ht as [Ha Ht]. simpl.
    destruct t as [|b t]; [done|]. rewrite bool_decide_false; [|intros [_ ->]; apply Ht; left]. by rewrite IH. }
  induction s as [|a s IH].
  - change (split_bracket ([] ++ rbracket :: colon :: t)) with ([] :: split_bracket t). by rewrite Et.
  - rewrite not_elem_of_cons in Hs. destruct Hs as [Ha Hs]. specialize (IH Hs). cbn [app].
    assert (exists c u, s ++ rbracket :: colon :: t = c :: u) as (c & u & Eu) by (destruct s; eauto).
    rewrite Eu in *. cbn [split_bracket]. rewrite bool_decide_false by (intros [? ?]; congruence).
    change (match u with [] => [[c]] | _ => _ end) with (split_bracket (c :: u)). by rewrite IH.
Qed.

Lemma split_colon h p : colon ∉ h -> 0 <= p -> split_on colon (h ++ [colon] ++ show_i32 p) = [h; show_i32 p].
Proof.
  intros Hh Hp. change ([colon] ++ show_i32 p) with (colon :: show_i32 p). rewrite split_on_app by done. f_equal. apply split_on_free, show_no_byte; [done|reflexivity].
Qed.

(** Completing a host with a port and splitting it again gives the host and
    the port: for a name or IPv4 address as it is, for a bare IPv6 address in
    brackets; a host that is complete is left alone; and raising the port of a
    completed host is completing it with the raised port. *)
Theorem host_port_roundtrip h p o : 0 < p <= i32_max ->
  (dot ∈ h -> colon ∉ h ->
     split_host_port (check_port h p) = Some (h, p) /\
     (0 < p + o <= i32_max -> increase_port (check_port h p) o = check_port h (p + o)) /\
     forall q, check_port (check_port h p) q = check_port h p) /\
  (is_ipv6_str h = true -> starts_with lbracket h = false ->
     split_host_port (check_port h p) = Some ([lbracket] ++ h ++ [rbracket], p) /\
     (0 < p + o <= i32_max -> increase_port (check_port h p) o = check_port h (p + o)) /\
     forall q, check_port (check_port h p) q = check_port h p).
Proof.
  intros Hp. assert (forall x, 0 <= x -> colon ∉ show_i32 x) as Hcolon by (intros x Hx; by apply show_no_byte).
  assert (default 0 (parse_i32 (show_i32 p)) = p /\ (0 <? p) = true) as [Hparse Hpos] by (rewrite parse_show by lia; split; [done|lia]).
  split_and!.
  - intros Hd Hc. assert (forall x, is_ipv6_str (h ++ [colon] ++ show_i32 x) = false) as Hn.
    { intros x. apply dotted_not_ipv6. rewrite elem_of_app. by left. }
    assert (forall x, check_port h x = h ++ [colon] ++ show_i32 x) as Hcheck.
    { intros x. unfold check_port. rewrite dotted_not_ipv6 by done. unfold has_colon. by rewrite bool_decide_false. }
    rewrite !Hcheck. unfold split_host_port, increase_port. rewrite Hn. unfold has_colon.
    rewrite bool_decide_true by (rewrite elem_of_app; right; left). rewrite split_colon by (done || lia). unfold with_port. rewrite Hparse, Hpos.
    split_and!; [done| |].
    + intros Ho. unfold i32_of. by rewrite swrap_id by (unfold i32_max in *; lia).
    + intros q. unfold check_port, has_colon. rewrite Hn. by rewrite bool_decide_true by (rewrite elem_of_app; right; left).
  - intros H6 Hb. destruct (bare_ipv6 h H6 Hb) as (st & Hs & _). destruct (scan_bytes _ _ _ Hs) as [Hr _].
    assert (forall x, check_port h x = [lbracket] ++ h ++ [rbracket; colon] ++ show_i32 x) as Hcheck.
    { intros x. unfold check_port. by rewrite H6, Hb. }
    rewrite !Hcheck. unfold split_host_port, increase_port. rewrite bracketed_ipv6 by (done || lia).
    change (starts_with lbracket ([lbracket] ++ h ++ [rbracket; colon] ++ show_i32 p)) with (bool_decide (lbracket = lbracket)).
    rewrite bool_decide_true by done.
    assert (split_bracket ([lbracket] ++ h ++ [rbracket; colon] ++ show_i32 p) = [lbracket :: h; show_i32 p]) as ->.
    { apply (split_bracket_free (lbracket :: h)); [by rewrite not_elem_of_cons|apply Hcolon; lia]. }
    unfold with_port. rewrite Hparse, Hpos. split_and!; [done| |].
    + intros Ho. unfold i32_of. rewrite swrap_id by (unfold i32_max in *; lia). simpl. by rewrite <- (assoc_L (++)).
    + intros q. unfold check_port. by rewrite bracketed_ipv6 by (done || lia).
Qed.

(** The repository's own examples; a short name of hexadecimal digits with a
    short port reads as an IPv6 address, and completing it twice brackets it. *)
Example check_port_tests :
  check_port (str "[1:2]:12") 32 = str "[1:2]:12" /\ check_port (str "1:2") 32 = str "[1:2]:32" /\
  check_port (str "z1:2") 32 = str "z1:2" /\ check_port (str "1.1.1.1") 32 = str "1.1.1.1:32" /\
  check_port (str "test.com:32") 0 = str "test.com:32" /\
  increase_port (str "[1:2]:12") 1 = str "[1:2]:13" /\ increase_port (str "1.2.2.4:12") 1 = str "1.2.2.4:13" /\
  increase_port (str "test.com") 1 = str "test.com" /\ increase_port (str "1:13") 4 = str "1:13" /\
  increase_port (str "22:1:13") 4 = str "22:1:13" /\ increase_port (str "z1:2") 1 = str "z1:3" /\
  check_port (check_port (str "cafe") 80) 81 = str "[cafe:80]:81".
Proof. vm_compute. repeat split; reflexivity. Qed.
