(* ===== verification/Options.v ===== *)
(** * The configuration store ([libs/hbb_common/src/config.rs], [build_config.rs])

    Every option is looked up in three layers: what the custom client fixes,
    what the user stored, what the custom client defaults to.  Only the middle
    layer is written.  The main options, the local options and the display
    defaults are three instances.  The second half derives from the store what
    the network code asks: the rendezvous servers, the proxy, the pin. *)
From S2P Require Import Prelude.
From S2P Require Import Encoding.
From S2P Require Import PasswordSecurity.
From S2P Require Import PermanentPassword.
From S2P Require Import Authentication.
From S2P Require Import Version.
From S2P Require Import HostPort.

(** ** Text *)

(** The white space of [char::is_whitespace], in UTF-8. *)
Definition white_space : list bytes :=
  List.map (fun b => [b]) [Byte.x09; Byte.x0a; Byte.x0b; Byte.x0c; Byte.x0d; Byte.x20]
  ++ [[Byte.xc2; Byte.x85]; [Byte.xc2; Byte.xa0]; [Byte.xe1; Byte.x9a; Byte.x80]]
  ++ List.map (fun b => [Byte.xe2; Byte.x80; b])
       [Byte.x80; Byte.x81; Byte.x82; Byte.x83; Byte.x84; Byte.x85; Byte.x86; Byte.x87; Byte.x88; Byte.x89;
        Byte.x8a; Byte.xa8; Byte.xa9; Byte.xaf]
  ++ [[Byte.xe2; Byte.x81; Byte.x9f]; [Byte.xe3; Byte.x80; Byte.x80]].

(** Drop any of the prefixes as long as there is one; each step shortens the
    text, so that its length is fuel enough. *)
Fixpoint strip_any (fuel : nat) (ps : list bytes) (s : bytes) : bytes :=
  match fuel with
  | O => s
  | S fuel =>
      match List.find (fun p => PasswordSecurity.starts_with s p) ps with
      | Some p => strip_any fuel ps (dropZ (len p) s)
      | None => s
      end
  end.
Definition trim_start_matches (s p : bytes) : bytes := strip_any (length s) [p] s.
Definition trim (s : bytes) : bytes :=
  let s := strip_any (length s) white_space s in
  rev (strip_any (length s) (List.map (@rev byte) white_space) (rev s)).
Definition ends_with (s p : bytes) : bool := PasswordSecurity.starts_with (rev s) (rev p).
Definition to_ascii_lowercase (s : bytes) : bytes :=
  List.map (fun b => if (65 <=? byte.unsigned b) && (byte.unsigned b <=? 90) then byte.of_Z (byte.unsigned b + 32) else b) s.

(** ** The main options *)
Definition with_options (o : gmap bytes bytes) (s : Settings) : Settings :=
  mkSettings (overwrite_settings s) o (default_settings s).
Definition can_save (s : Settings) (k v : bytes) : bool := is_option_can_save (overwrite_settings s) k (default_settings s) v.
(** An empty value is stored by absence. *)
Definition put (k v : bytes) (o : gmap bytes bytes) : gmap bytes bytes :=
  if bool_decide (v = []) then delete k o else <[k := v]> o.

Definition get_options (s : Settings) : gmap bytes bytes :=
  overwrite_settings s ∪ (options s ∪ default_settings s).
Definition purify_options (s : Settings) (v : gmap bytes bytes) : gmap bytes bytes :=
  filter (fun x => can_save s x.1 x.2 = true) v.
Definition set_options (v : gmap bytes bytes) (s : Settings) : Settings := with_options (purify_options s v) s.
Definition set_option (k v : bytes) (s : Settings) : Settings :=
  with_options (if can_save s k v then put k v (options s) else delete k (options s)) s.

(** ** The local options ([LocalConfig]) *)
Module LocalConfig.
Record Local := mkLocal { local : Settings; ui_flutter : gmap bytes bytes }.
Definition OPTION_LANGUAGE : bytes := str "lang".
Definition set_local_option (k v : bytes) (c : Local) : Local :=
  mkLocal
    (with_options
       (if negb (can_save (local c) k v) then delete k (options (local c))
        else if bool_decide (k = OPTION_LANGUAGE) && bool_decide (v = str "default") then <[k := []]> (options (local c))
        else put k v (options (local c)))
       (local c))
    (ui_flutter c).
Definition get_local_option (c : Local) (k : bytes) : bytes := Authentication.get_option (local c) k.
Definition get_flutter_option (c : Local) (k : bytes) : bytes :=
  default [] (get_or (overwrite_settings (local c)) (ui_flutter c) (default_settings (local c)) k).
Definition set_flutter_option (k v : bytes) (c : Local) : Local := mkLocal (local c) (put k v (ui_flutter c)).
End LocalConfig.

(** ** Display defaults ([UserDefaultConfig]) and the peers' settings built on them *)

(** What [get_num_string] needs of its type: [FromStr], [ToString], the order,
    literals, and the cast to [i32]. *)
Class Num (T : Type) := {
  num_parse : bytes -> option T;
  num_show : T -> bytes;
  num_le : T -> T -> bool;
  num_lit : Z -> T;
  num_as_i32 : T -> Z
}.
Class NumLaws (T : Type) {N : Num T} := {
  num_lit_le a b : a <= b -> num_le (num_lit a) (num_lit b) = true;
  num_parse_show a b v : 0 <= a -> b <= i32_max -> num_le (num_lit a) v = true -> num_le v (num_lit b) = true ->
    num_parse (num_show v) = Some v;
  num_cast_range a b v : num_le (num_lit a) v = true -> num_le v (num_lit b) = true -> a <= num_as_i32 v <= b
}.

Module UserDefaultConfig.
(** [F] is [f64]. *)
Section UserDefault.
Context {F : Type} {NF : Num F}.

(** The options as [Settings]: the display layers around the user's defaults. *)
Definition get_after (c : Settings) (k : bytes) : option bytes := get_or (overwrite_settings c) (options c) (default_settings c) k.
Definition get_string (c : Settings) (key default : bytes) (others : list bytes) : bytes :=
  match get_after c key with
  | Some option => if bool_decide (option ∈ others) then option else default
  | None => default
  end.
Definition get_num_string {T} {N : Num T} (c : Settings) (key : bytes) (default min max : T) : bytes :=
  match get_after c key with
  | Some option =>
      let v := match num_parse option with Some v => v | None => default end in
      if num_le min v && num_le v max then num_show v else num_show default
  | None => num_show default
  end.

#[local] Instance i32_num : Num Z := {|
  num_parse := parse_i32; num_show := show_i32; num_le := Z.leb; num_lit z := z; num_as_i32 z := z |}.

Inductive Kind :=
| Choice (default : bytes) (others : list bytes)
| Real (default min max : Z)
| Int (default min max : Z)
| Free.
(** The arms of [get]'s match; [mobile] is Android or iOS. *)
Definition kind_of (mobile : bool) (key : bytes) : Kind :=
  if bool_decide (key = str "view_style") then
    if mobile then Choice (str "adaptive") [str "original"] else Choice (str "original") [str "adaptive"]
  else if bool_decide (key = str "scroll_style") then Choice (str "scrollauto") [str "scrolledge"; str "scrollbar"]
  else if bool_decide (key = str "image_quality") then Choice (str "balanced") [str "best"; str "low"; str "custom"]
  else if bool_decide (key = str "codec-preference") then
    Choice (str "auto") [str "vp8"; str "vp9"; str "av1"; str "h264"; str "h265"]
  else if bool_decide (key = str "custom_image_quality") then Real 50 10 4095
  else if bool_decide (key = str "custom-fps") then Real 30 5 120
  else if bool_decide (key = str "enable-file-copy-paste") then Choice (str "Y") [[]; str "N"]
  else if bool_decide (key = str "edge-scroll-edge-thickness") then Int 100 20 150
  else if bool_decide (key = str "trackpad-speed") then Int 100 10 1000
  else Free.
Definition get (mobile : bool) (c : Settings) (key : bytes) : bytes :=
  match kind_of mobile key with
  | Choice default others => get_string c key default others
  | Real default min max => get_num_string c key (num_lit (T := F) default) (num_lit min) (num_lit max)
  | Int default min max => get_num_string c key default min max
  | Free => match get_after c key with Some v => v | None => [] end
  end.
Definition set (key value : bytes) (c : Settings) : Settings :=
  with_options (if can_save c key value then put key value (options c) else delete key (options c)) c.

(** What a peer's file gives for three of its fields, whatever it holds. *)
Definition default_trackpad_speed (mobile : bool) (c : Settings) : Z :=
  match parse_i32 (get mobile c (str "trackpad-speed")) with Some v => v | None => 100 end.
Definition deserialize_trackpad_speed (mobile : bool) (c : Settings) (v : Z) : Z :=
  if (10 <=? v) && (v <=? 1000) then v else default_trackpad_speed mobile c.
Definition default_edge_scroll_edge_thickness (mobile : bool) (c : Settings) : Z :=
  match parse_i32 (get mobile c (str "edge-scroll-edge-thickness")) with Some v => v | None => 100 end.
Definition deserialize_edge_scroll_edge_thickness (mobile : bool) (c : Settings) (v : Z) : Z :=
  if (20 <=? v) && (v <=? 150) then v else default_edge_scroll_edge_thickness mobile c.
Definition default_custom_image_quality (mobile : bool) (c : Settings) : list Z :=
  [num_as_i32 match num_parse (T := F) (get mobile c (str "custom_image_quality")) with Some v => v | None => num_lit 50 end].
Definition deserialize_custom_image_quality (mobile : bool) (c : Settings) (v : list Z) : list Z :=
  match v with
  | [x] => if (10 <=? x) && (x <=? 4095) then v else default_custom_image_quality mobile c
  | _ => default_custom_image_quality mobile c
  end.
End UserDefault.
End UserDefaultConfig.

(** ** The rest of the store *)
Record Socks5Server := mkSocks { proxy : bytes; username : bytes; password : bytes }.
#[export] Instance Socks5Server_eq_dec : EqDecision Socks5Server.
Proof. solve_decision. Defined.
Inductive NetworkType := Direct | ProxySocks.
#[export] Instance NetworkType_eq_dec : EqDecision NetworkType.
Proof. solve_decision. Defined.

(** [Config2] with the settings around it, the built-in and hard settings, the
    build's servers and the table of latencies. *)
Record Store := mkStore {
  settings : Settings;
  rendezvous_server : bytes;
  nat_type : Z;
  serial : Z;
  unlock_pin : bytes;
  socks : option Socks5Server;
  BUILTIN_SETTINGS : gmap bytes bytes;
  HARD_SETTINGS : gmap bytes bytes;
  EXE_RENDEZVOUS_SERVER : bytes;
  PROD_RENDEZVOUS_SERVER : bytes;
  RENDEZVOUS_SERVERS : bytes;
  ONLINE : gmap bytes Z
}.
Definition with_settings (x : Settings) (c : Store) : Store :=
  mkStore x (rendezvous_server c) (nat_type c) (serial c) (unlock_pin c) (socks c) (BUILTIN_SETTINGS c) (HARD_SETTINGS c)
    (EXE_RENDEZVOUS_SERVER c) (PROD_RENDEZVOUS_SERVER c) (RENDEZVOUS_SERVERS c) (ONLINE c).
Definition with_online (server : bytes) (o : gmap bytes Z) (c : Store) : Store :=
  mkStore (settings c) server (nat_type c) (serial c) (unlock_pin c) (socks c) (BUILTIN_SETTINGS c) (HARD_SETTINGS c)
    (EXE_RENDEZVOUS_SERVER c) (PROD_RENDEZVOUS_SERVER c) (RENDEZVOUS_SERVERS c) o.
Definition set_serial (x : Z) (c : Store) : Store :=
  mkStore (settings c) (rendezvous_server c) (nat_type c) x (unlock_pin c) (socks c) (BUILTIN_SETTINGS c) (HARD_SETTINGS c)
    (EXE_RENDEZVOUS_SERVER c) (PROD_RENDEZVOUS_SERVER c) (RENDEZVOUS_SERVERS c) (ONLINE c).
Definition set_nat_type (x : Z) (c : Store) : Store :=
  mkStore (settings c) (rendezvous_server c) x (serial c) (unlock_pin c) (socks c) (BUILTIN_SETTINGS c) (HARD_SETTINGS c)
    (EXE_RENDEZVOUS_SERVER c) (PROD_RENDEZVOUS_SERVER c) (RENDEZVOUS_SERVERS c) (ONLINE c).
Definition with_pin (x : bytes) (c : Store) : Store :=
  mkStore (settings c) (rendezvous_server c) (nat_type c) (serial c) x (socks c) (BUILTIN_SETTINGS c) (HARD_SETTINGS c)
    (EXE_RENDEZVOUS_SERVER c) (PROD_RENDEZVOUS_SERVER c) (RENDEZVOUS_SERVERS c) (ONLINE c).
Definition with_socks (x : option Socks5Server) (c : Store) : Store :=
  mkStore (settings c) (rendezvous_server c) (nat_type c) (serial c) (unlock_pin c) x (BUILTIN_SETTINGS c) (HARD_SETTINGS c)
    (EXE_RENDEZVOUS_SERVER c) (PROD_RENDEZVOUS_SERVER c) (RENDEZVOUS_SERVERS c) (ONLINE c).

Definition option_of (c : Store) (k : bytes) : bytes := Authentication.get_option (settings c) k.
Definition use_ws (c : Store) : bool := option2bool (str "allow-websocket") (option_of c (str "allow-websocket")).
Definition is_some_hard_option (c : Store) (name : bytes) : bool := bool_decide (HARD_SETTINGS c !! name = Some (str "Y")).
Definition is_disable_tcp_listen (c : Store) : bool := is_some_hard_option c (str "disable-tcp-listen").
Definition is_disable_unlock_pin (c : Store) : bool := bool_decide (BUILTIN_SETTINGS c !! str "disable-unlock-pin" = Some (str "Y")).
Definition get_unlock_pin (c : Store) : bytes := if is_disable_unlock_pin c then [] else unlock_pin c.
Definition set_unlock_pin (pin : bytes) (c : Store) : Store := if is_disable_unlock_pin c then c else with_pin pin c.
Definition SERIAL : Z := 3.
Definition get_serial (c : Store) : Z := Z.max (serial c) SERIAL.

(** *** The proxy *)
Definition OPTION_PROXY_URL : bytes := str "proxy-url".
Definition OPTION_PROXY_USERNAME : bytes := str "proxy-username".
Definition OPTION_PROXY_PASSWORD : bytes := str "proxy-password".
Definition get_socks_from_custom_client_advanced_settings (m : gmap bytes bytes) : option Socks5Server :=
  url ← m !! OPTION_PROXY_URL;
  Some (mkSocks url (default [] (m !! OPTION_PROXY_USERNAME)) (default [] (m !! OPTION_PROXY_PASSWORD))).
Definition get_socks (c : Store) : option Socks5Server :=
  match get_socks_from_custom_client_advanced_settings (overwrite_settings (settings c)) with
  | Some x => Some x
  | None =>
      match socks c with
      | Some x => Some x
      | None => get_socks_from_custom_client_advanced_settings (default_settings (settings c))
      end
  end.
Definition set_socks (x : option Socks5Server) (c : Store) : Store :=
  if is_some (overwrite_settings (settings c) !! OPTION_PROXY_URL) then c
  else if bool_decide (socks c = x) then c
  else
    let equal_to_default key value := bool_decide (default_settings (settings c) !! key = Some value) in
    let y := default (mkSocks [] [] []) x in
    if bool_decide (socks c = None) && is_some (default_settings (settings c) !! OPTION_PROXY_URL)
       && equal_to_default OPTION_PROXY_URL (proxy y) && equal_to_default OPTION_PROXY_USERNAME (username y)
       && equal_to_default OPTION_PROXY_PASSWORD (password y)
    then c else with_socks x c.
Definition get_network_type (c : Store) : NetworkType :=
  if is_some (overwrite_settings (settings c) !! OPTION_PROXY_URL) then ProxySocks
  else if is_some (socks c) then ProxySocks
  else if is_some (default_settings (settings c) !! OPTION_PROXY_URL) then ProxySocks
  else Direct.
Definition is_proxy (c : Store) : bool := negb (bool_decide (get_network_type c = Direct)).

(** *** The rendezvous servers *)
Definition comma : byte := Byte.x2c.
Definition slash : byte := Byte.x2f.
Definition RENDEZVOUS_PORT : Z := 21116.
Definition first_part (sep : byte) (s : bytes) : bytes := default [] (head (split_on sep s)).
Definition parse_rendezvous_servers (value : bytes) : list bytes :=
  List.filter (fun x => negb (bool_decide (x = []))) (List.map trim (split_on comma value)).
Definition is_inherited_public_server (server : bytes) : bool :=
  let s := trim_start_matches (trim_start_matches (trim server) (str "http://")) (str "https://") in
  let h := to_ascii_lowercase (first_part colon (first_part slash s)) in
  bool_decide (h = str "rustdesk.com") || ends_with h (str ".rustdesk.com").
Definition build_servers (c : Store) : list bytes := parse_rendezvous_servers (RENDEZVOUS_SERVERS c).
Definition get_rendezvous_servers (c : Store) : list bytes :=
  let custom := option_of c (str "custom-rendezvous-server") in
  if bool_decide (EXE_RENDEZVOUS_SERVER c <> []) then [EXE_RENDEZVOUS_SERVER c]
  else if bool_decide (custom <> []) then [custom]
  else if bool_decide (PROD_RENDEZVOUS_SERVER c <> []) then [PROD_RENDEZVOUS_SERVER c]
  else
    let ss := List.filter (fun x => bool_decide (dot ∈ x) && negb (is_inherited_public_server x))
                (split_on comma (option_of c (str "rendezvous-servers"))) in
    if (SERIAL <? serial c) && bool_decide (build_servers c <> []) && bool_decide (ss <> []) then ss
    else build_servers c.
Definition get_rendezvous_server (c : Store) : bytes :=
  let custom := option_of c (str "custom-rendezvous-server") in
  let cached := rendezvous_server c in
  let first := default [] (head (get_rendezvous_servers c)) in
  let s :=
    if bool_decide (EXE_RENDEZVOUS_SERVER c <> []) then EXE_RENDEZVOUS_SERVER c
    else if bool_decide (custom <> []) then custom
    else if bool_decide (PROD_RENDEZVOUS_SERVER c <> []) then PROD_RENDEZVOUS_SERVER c
    else if negb (is_inherited_public_server cached)
            && existsb (fun x => bool_decide (check_port x RENDEZVOUS_PORT = check_port cached RENDEZVOUS_PORT)) (build_servers c)
            && bool_decide (cached <> []) then cached
    else first in
  if bool_decide (s = []) || has_colon s then s else s ++ [colon] ++ show_i32 RENDEZVOUS_PORT.

(** The order in which a [HashMap] is iterated: some order of its entries. *)
Class HashIter := hash_iter : gmap bytes Z -> list (bytes * Z).
Class HashIterLaws {HI : HashIter} := hash_iter_perm m : hash_iter m ≡ₚ map_to_list m.

Definition faster (acc : bytes * Z) (x : bytes * Z) : bytes * Z := if (0 <? x.2) && (x.2 <? acc.2) then x else acc.
Definition fastest (l : list (bytes * Z)) : bytes := (foldl faster ([], i64_max) l).1.
Definition update_latency {HI : HashIter} (h : bytes) (latency : Z) (c : Store) : Store :=
  let o := <[h := latency]> (ONLINE c) in
  let best := fastest (hash_iter o) in
  with_online (if bool_decide (best <> []) then best else rendezvous_server c) o c.

(** ** Options read back what was written *)
Lemma get_put k v o k' : put k v o !! k' = if decide (k' = k) then (if decide (v = []) then None else Some v) else o !! k'.
Proof.
  unfold put. destruct (decide (v = [])) as [->|Hv].
  - rewrite bool_decide_true by done. rewrite lookup_delete. by destruct (decide (k = k')), (decide (k' = k)).
  - rewrite bool_decide_false by done. rewrite lookup_insert. by destruct (decide (k = k')), (decide (k' = k)).
Qed.

Lemma can_save_spec s k v : can_save s k v = true <-> overwrite_settings s !! k = None /\ default_settings s !! k <> Some v.
Proof.
  unfold can_save, is_option_can_save. rewrite negb_true_iff, orb_false_iff, bool_decide_eq_false.
  destruct (overwrite_settings s !! k); simpl; split; intros [? ?]; done.
Qed.

Lemma get_options_spec s k : get_options s !! k = get_or (overwrite_settings s) (options s) (default_settings s) k.
Proof.
  unfold get_options, get_or. rewrite !lookup_union.
  by destruct (overwrite_settings s !! k), (options s !! k), (default_settings s !! k).
Qed.

Lemma purify_spec s v k :
  purify_options s v !! k = match v !! k with Some x => if can_save s k x then Some x else None | None => None end.
Proof.
  unfold purify_options. rewrite map_lookup_filter. destruct (v !! k) as [x|]; [|done]. simpl.
  by destruct (can_save s k x) eqn:E; [rewrite option_guard_True|rewrite option_guard_False].
Qed.

(** What [get_option] gives after [set_option]: the fixed value when the custom
    client fixes one, the default when the option was emptied. *)
Definition effective (s : Settings) (k v : bytes) : bytes :=
  match overwrite_settings s !! k with
  | Some fixed => fixed
  | None => if decide (v = []) then default [] (default_settings s !! k) else v
  end.

Lemma get_set_option s k v k' :
  get_option (set_option k v s) k' = if decide (k' = k) then effective s k v else get_option s k'.
Proof.
  unfold get_option, set_option, get_or, effective. simpl. destruct (decide (k' = k)) as [->|Hk].
  - destruct (overwrite_settings s !! k) as [o|] eqn:Eo; [done|].
    destruct (can_save s k v) eqn:E.
    + rewrite get_put, decide_True by done. by destruct (decide (v = [])).
    + rewrite lookup_delete_eq. destruct (decide (default_settings s !! k = Some v)) as [Hd|Hd].
      * rewrite Hd. by destruct (decide (v = [])) as [->|].
      * assert (can_save s k v = true) by by apply can_save_spec. congruence.
  - assert ((if can_save s k v then put k v (options s) else delete k (options s)) !! k' = options s !! k') as ->; [|done].
    destruct (can_save s k v); [by rewrite get_put, decide_False|by rewrite lookup_delete_ne by done].
Qed.

Lemma get_set_options s k : get_option (set_options (get_options s) s) k = get_option s k.
Proof.
  unfold get_option, set_options. f_equal. unfold get_or at 1. simpl. rewrite purify_spec, get_options_spec.
  unfold get_or. destruct (overwrite_settings s !! k) as [o|] eqn:Eo; [done|].
  destruct (options s !! k) as [x|]; [|destruct (default_settings s !! k) as [x|] eqn:Ed; [|done]].
  - destruct (can_save s k x) eqn:E; [done|].
    destruct (decide (default_settings s !! k = Some x)) as [->|Hd]; [done|].
    assert (can_save s k x = true) by by apply can_save_spec. congruence.
  - by destruct (can_save s k x).
Qed.

(** [C33] Options read back: writing one option changes what it reads as to the
    value written (to the default when emptied, to the fixed value when the
    custom client fixes the option) and leaves every other option as it was;
    the table handed to the settings window holds for every option what
    [get_option] gives, and writing it back unchanged changes no option. *)
Theorem options_read_back s k v k' :
  get_option (set_option k v s) k' = (if decide (k' = k) then effective s k v else get_option s k') /\
  default [] (get_options s !! k') = get_option s k' /\
  get_option (set_options (get_options s) s) k' = get_option s k'.
Proof.
  split; [apply get_set_option|]. split; [by rewrite get_options_spec|apply get_set_options].
Qed.

(** The stored layer never holds a fixed option or a default. *)
Definition pure (s : Settings) : Prop := forall k v, options s !! k = Some v -> can_save s k v = true.

Lemma set_option_pure k v s : pure s -> pure (set_option k v s).
Proof.
  intros H k' v'. unfold set_option. simpl.
  change (can_save (with_options _ s) k' v') with (can_save s k' v').
  destruct (can_save s k v) eqn:E.
  - rewrite get_put. destruct (decide (k' = k)) as [->|]; [|apply H]. destruct (decide (v = [])); [done|]. by intros [= <-].
  - rewrite lookup_delete_Some. intros [_ Hv]. by apply H.
Qed.
Lemma set_options_pure v s : pure (set_options v s).
Proof.
  intros k x. unfold set_options. simpl. change (can_save (with_options _ s) k x) with (can_save s k x).
  rewrite purify_spec. destruct (v !! k) as [y|]; [|done]. destruct (can_save s k y) eqn:E; [|done]. by intros [= <-].
Qed.

(** An emptied option is the default through [set_option], but stays empty
    through [set_options], which stores the empty value. *)
Lemma emptied_twice :
  let s := mkSettings ∅ ∅ {[ str "k" := str "default" ]} in
  get_option (set_option (str "k") [] s) (str "k") = str "default" /\
  get_option (set_options {[ str "k" := [] ]} s) (str "k") = [].
Proof. split; vm_compute; reflexivity. Qed.

(** The language, which may be set to the word default, then reads as empty. *)
Lemma local_get_set c k v k' :
  LocalConfig.get_local_option (LocalConfig.set_local_option k v c) k' =
  if decide (k' = k) then
    if bool_decide (k = LocalConfig.OPTION_LANGUAGE) && bool_decide (v = str "default") && can_save (LocalConfig.local c) k v then []
    else effective (LocalConfig.local c) k v
  else LocalConfig.get_local_option c k'.
Proof.
  unfold LocalConfig.set_local_option, LocalConfig.get_local_option. cbn [LocalConfig.local].
  destruct (can_save (LocalConfig.local c) k v) eqn:E; cbn [negb].
  2: { rewrite andb_false_r. pose proof (get_set_option (LocalConfig.local c) k v k') as G. unfold set_option in G. by rewrite E in G. }
  rewrite andb_true_r. destruct (bool_decide (k = _) && _) eqn:B.
  - apply can_save_spec in E as [Eo _]. unfold get_option, get_or. simpl. destruct (decide (k' = k)) as [->|Hk].
    + by rewrite Eo, lookup_insert_eq.
    + by rewrite lookup_insert_ne by done.
  - pose proof (get_set_option (LocalConfig.local c) k v k') as G. unfold set_option in G. by rewrite E in G.
Qed.

(** ** Display defaults are legal *)
Section Legal.
Context {F : Type} {NF : Num F} {NFL : NumLaws F}.
Import UserDefaultConfig.

(** The values that may come out of [get]. *)
Definition legal (mobile : bool) (key value : bytes) : Prop :=
  match kind_of mobile key with
  | Choice default others => value ∈ default :: others
  | Real default min max => exists v : F, value = num_show v /\ num_le (num_lit min) v = true /\ num_le v (num_lit max) = true
  | Int default min max => exists v, value = show_i32 v /\ min <= v <= max
  | Free => True
  end.

Lemma choice_legal c key d others : get_string c key d others ∈ d :: others.
Proof.
  unfold get_string. destruct (get_after c key) as [o|]; [|set_solver]. destruct (decide (o ∈ others)).
  - rewrite bool_decide_true by done. set_solver.
  - rewrite bool_decide_false by done. set_solver.
Qed.

Lemma num_legal {T} {N : Num T} c key (d min max : T) :
  num_le min d = true -> num_le d max = true ->
  exists v, get_num_string c key d min max = num_show v /\ num_le min v = true /\ num_le v max = true.
Proof.
  intros H1 H2. unfold get_num_string. destruct (get_after c key) as [o|]; [|by exists d].
  destruct (num_le min _ && num_le _ max) eqn:E; [|by exists d]. apply andb_true_iff in E as [E1 E2]. eauto.
Qed.

Definition kind_ok (k : Kind) : Prop :=
  match k with Real d min max | Int d min max => min <= d <= max | _ => True end.
Lemma kind_of_ok mobile key : kind_ok (kind_of mobile key).
Proof. unfold kind_of. repeat case_match; simpl; done || lia. Qed.

Lemma get_legal mobile c key : legal mobile key (get (F := F) mobile c key).
Proof.
  pose proof (kind_of_ok mobile key) as Hk. unfold legal, get. destruct (kind_of mobile key) as [d o|d mi ma|d mi ma|]; simpl in Hk.
  - apply choice_legal.
  - apply num_legal; apply num_lit_le; lia.
  - destruct (num_legal (N := i32_num) c key d mi ma) as (v & E & H1 & H2); simpl; [lia..|].
    exists v. simpl in *. split; [done|lia].
  - done.
Qed.

Lemma default_int mobile c key d mi ma :
  kind_of mobile key = Int d mi ma -> 0 <= mi -> ma <= i32_max ->
  exists v, parse_i32 (get (F := F) mobile c key) = Some v /\ mi <= v <= ma.
Proof.
  intros Hk H1 H2. pose proof (get_legal mobile c key) as H. unfold legal in H. rewrite Hk in H.
  destruct H as (v & -> & Hv). exists v. split; [apply parse_show; lia|done].
Qed.

(** [C40] Settings are well-typed whatever the file holds: every display default
    read is one of the option's choices or a number in the option's range, and
    the numbers a peer's file gives its session (trackpad speed, edge thickness,
    image quality) are in range, be the file's own number in range or not. *)
Theorem display_settings_legal mobile c key x q :
  legal mobile key (get (F := F) mobile c key) /\
  10 <= deserialize_trackpad_speed (F := F) mobile c x <= 1000 /\
  20 <= deserialize_edge_scroll_edge_thickness (F := F) mobile c x <= 150 /\
  exists y, deserialize_custom_image_quality (F := F) mobile c q = [y] /\ 10 <= y <= 4095.
Proof.
  split; [apply get_legal|].
  unfold deserialize_trackpad_speed, default_trackpad_speed, deserialize_edge_scroll_edge_thickness, default_edge_scroll_edge_thickness.
  destruct (default_int mobile c (str "trackpad-speed") 100 10 1000) as (v & -> & Hv); [by destruct mobile|done..|].
  destruct (default_int mobile c (str "edge-scroll-edge-thickness") 100 20 150) as (w & -> & Hw); [by destruct mobile|done..|].
  split; [destruct (_ && _) eqn:E; lia|]. split; [destruct (_ && _) eqn:E; lia|].
  assert (exists y, default_custom_image_quality (F := F) mobile c = [y] /\ 10 <= y <= 4095) as Hd.
  { eexists. split; [reflexivity|]. pose proof (get_legal mobile c (str "custom_image_quality")) as H.
    unfold legal in H. change (kind_of mobile (str "custom_image_quality")) with (Real 50 10 4095) in H.
    destruct H as (f & -> & H1 & H2). rewrite (num_parse_show 10 4095) by done. by apply num_cast_range. }
  unfold deserialize_custom_image_quality. destruct q as [|z [|]]; [done| |done].
  destruct (_ && _) eqn:E; [|done]. exists z. split; [done|lia].
Qed.
End Legal.

(** Integers in place of [f64] satisfy what is asked of it. *)
#[local] Instance i32_num_laws : NumLaws (N := UserDefaultConfig.i32_num) Z.
Proof.
  split; simpl.
  - intros a b. apply Z.leb_le.
  - intros a b v ? ? ? ?. apply parse_show. lia.
  - intros a b v ? ?. lia.
Qed.
Lemma display_settings_legal_witness :
  let c := mkSettings ∅ {[ str "trackpad-speed" := str "5000" ]} ∅ in
  let fps := UserDefaultConfig.get (F := Z) (NF := UserDefaultConfig.i32_num) true c (str "trackpad-speed") in
  fps = str "100" /\ legal (F := Z) (NF := UserDefaultConfig.i32_num) true (str "trackpad-speed") fps.
Proof.
  split; [vm_compute; reflexivity|].
  exact (proj1 (display_settings_legal (NF := UserDefaultConfig.i32_num) true
    (mkSettings ∅ {[ str "trackpad-speed" := str "5000" ]} ∅) (str "trackpad-speed") 0 [])).
Defined.

(** ** Proxies *)
Lemma network_type_spec c : is_proxy c = is_some (get_socks c).
Proof.
  unfold is_proxy, get_network_type, get_socks, get_socks_from_custom_client_advanced_settings.
  destruct (overwrite_settings (settings c) !! OPTION_PROXY_URL); [done|]. simpl.
  destruct (socks c); [done|]. simpl. by destruct (default_settings (settings c) !! OPTION_PROXY_URL).
Qed.

Lemma socks_read_back x c : overwrite_settings (settings c) !! OPTION_PROXY_URL = None ->
  get_socks (set_socks (Some x) c) = Some x.
Proof.
  intros Ho. unfold set_socks, get_socks, get_socks_from_custom_client_advanced_settings. rewrite Ho. simpl.
  destruct (decide (socks c = Some x)) as [Es|Es].
  { rewrite bool_decide_true by done. by rewrite Ho, Es. }
  rewrite (bool_decide_false (socks c = Some x)) by done. destruct (_ && _) eqn:B; cbn [settings with_socks socks]; rewrite Ho; [|done].
  simpl. rewrite !andb_true_iff, !bool_decide_eq_true in B. destruct B as ((((Hn & _) & H1) & H2) & H3).
  rewrite Hn, H1, H2, H3. simpl. by destruct x.
Qed.

(** ** Servers *)
Example inherited_tests :
  is_inherited_public_server (str "rs-ny.rustdesk.com:21116") = true /\
  is_inherited_public_server (str "https://api.rustdesk.com/path") = true /\
  is_inherited_public_server (str "id.example.com:21116") = false.
Proof. split_and!; vm_compute; reflexivity. Qed.
Example build_server_tests :
  parse_rendezvous_servers (str " id1.example.com, ,id2.example.com:21116 ") = [str "id1.example.com"; str "id2.example.com:21116"].
Proof. vm_compute. reflexivity. Qed.

(** With the build's and the user's servers, no server of the public network is
    taken from what a server sent. *)
Lemma no_inherited_server c h :
  EXE_RENDEZVOUS_SERVER c = [] -> option_of c (str "custom-rendezvous-server") = [] -> PROD_RENDEZVOUS_SERVER c = [] ->
  h ∈ get_rendezvous_servers c -> h ∈ build_servers c \/ is_inherited_public_server h = false.
Proof.
  intros H1 H2 H3. unfold get_rendezvous_servers. rewrite H1, H2, H3, !bool_decide_false by tauto.
  destruct (_ && _); [|by left]. rewrite list_elem_of_In, filter_In, andb_true_iff, negb_true_iff. by intros [_ [_ ?]]; right.
Qed.

Lemma faster_spec l : forall acc, 0 < acc.2 ->
  let best := foldl faster acc l in
  0 < best.2 <= acc.2 /\ (best = acc \/ best ∈ l) /\ forall x, x ∈ l -> 0 < x.2 -> best.2 <= x.2.
Proof.
  induction l as [|y l IH]; intros acc Ha; simpl; [split; [lia|]; split; [by left|set_solver]|].
  assert (0 < (faster acc y).2 <= acc.2 /\ (faster acc y = acc \/ faster acc y = y) /\ (0 < y.2 -> (faster acc y).2 <= y.2)) as (F1 & F2 & F3).
  { unfold faster. destruct ((0 <? y.2) && (y.2 <? acc.2)) eqn:E; [split; [lia|]; split; [by right|lia]|].
    split; [lia|]. split; [by left|lia]. }
  destruct (IH (faster acc y)) as (B1 & B2 & B3); [lia|]. split; [lia|]. split.
  - destruct B2 as [->|B2]; [|right; set_solver]. destruct F2 as [->| ->]; [by left|right; set_solver].
  - intros x [->|Hx]%elem_of_cons Hp; [specialize (F3 Hp); lia|by apply B3].
Qed.

(** The server kept after a latency is recorded is one with the least positive
    latency, whatever the order of the table. *)
Lemma update_latency_fastest {HI : HashIter} {HL : HashIterLaws} h lat c :
  let c' := update_latency h lat c in
  ONLINE c' = <[h := lat]> (ONLINE c) /\
  (rendezvous_server c' = rendezvous_server c \/
   exists z, ONLINE c' !! rendezvous_server c' = Some z /\ 0 < z /\ forall h2 z2, ONLINE c' !! h2 = Some z2 -> 0 < z2 -> z <= z2).
Proof.
  split; [done|]. unfold update_latency, fastest. cbn [rendezvous_server ONLINE with_online].
  set (o := <[h := lat]> (ONLINE c)). destruct (faster_spec (hash_iter o) ([], i64_max)) as (B1 & B2 & B3); [by vm_compute|].
  destruct (foldl faster _ _) as [best z] eqn:E. cbn [fst snd] in *. destruct (decide (best = [])) as [->|Hb]; [by left|].
  rewrite bool_decide_true by done. right. destruct B2 as [B2|B2]; [congruence|].
  rewrite (hash_iter_perm o), elem_of_map_to_list in B2. exists z. split; [done|]. split; [lia|].
  intros h2 z2 H2 Hp. apply (B3 (h2, z2)); [|done]. by rewrite (hash_iter_perm o), elem_of_map_to_list.
Qed.
