(* ===== verification/Mediator.v ===== *)
(** * The device's side of registration ([src/rendezvous_mediator.rs])

    A controlled device keeps itself known to its rendezvous server: it
    registers its key, refreshes its address, backs off when the server does
    not answer, and decides for each viewer that asks whether to punch a hole,
    to answer on the local network or to meet at a relay.  Instants are
    nanoseconds of one clock.  The second half runs a device against
    [Rendezvous], the server. *)
From S2P Require Import Prelude.
From S2P Require Import Crypto.
From S2P Require Import Encoding.
From S2P Require Import AddrMangle.
From S2P Require Import Version.
From S2P Require Import HostPort.
From S2P Require Import Options.
From S2P Require Import Rendezvous.

Definition DEPLOY_RETRY_INTERVAL : Z := 30000.
Definition REG_INTERVAL : Z := 15000.
Definition MIN_REG_TIMEOUT : Z := 3000.
Definition MAX_REG_TIMEOUT : Z := 30000.
Definition MAX_FAILS1 : Z := 2.
Definition MAX_FAILS2 : Z := 4.
Definition DNS_INTERVAL : Z := 60000.
Definition DEFAULT_KEEP_ALIVE : Z := 60000.

(** [Duration::as_millis] and [as_micros]; what elapses while a process runs
    fits the 64 bits it is cast to. *)
Definition millis (ns : Z) : Z := ns / 1000000.
Definition micros (ns : Z) : Z := ns / 1000.

(** ** State *)

(** What the process keeps: the configuration that registration uses, and the
    globals of the module. *)
Record Device := mkDevice {
  key_confirmed : bool;
  keys_confirmed : gmap bytes bool;
  id : bytes;
  dev_uuid : bytes;
  dev_pk : bytes;
  conf : Store;
  NEEDS_DEPLOY : bool;
  LAST_NOT_DEPLOYED_REGISTER : option Z;
  SOLVING_PK_MISMATCH : bytes;
  SENT_REGISTER_PK : bool;
  SHOULD_EXIT : bool
}.

(** The mediator of one server and the variables of its loop. *)
Record Loop := mkLoop {
  host : bytes;
  host_prefix : bytes;
  keep_alive : Z;
  reg_timeout : Z;
  fails : Z;
  last_register_resp : option Z;
  last_register_sent : option Z;
  last_dns_check : Z;
  old_latency : Z;
  ema_latency : Z
}.

Definition with_confirmed (k : bool) (ks : gmap bytes bool) (d : Device) : Device :=
  mkDevice k ks (id d) (dev_uuid d) (dev_pk d) (conf d) (NEEDS_DEPLOY d)
    (LAST_NOT_DEPLOYED_REGISTER d) (SOLVING_PK_MISMATCH d) (SENT_REGISTER_PK d) (SHOULD_EXIT d).
Definition with_id (i : bytes) (d : Device) : Device :=
  mkDevice (key_confirmed d) (keys_confirmed d) i (dev_uuid d) (dev_pk d) (conf d) (NEEDS_DEPLOY d)
    (LAST_NOT_DEPLOYED_REGISTER d) (SOLVING_PK_MISMATCH d) (SENT_REGISTER_PK d) (SHOULD_EXIT d).
Definition with_conf (c : Store) (d : Device) : Device :=
  mkDevice (key_confirmed d) (keys_confirmed d) (id d) (dev_uuid d) (dev_pk d) c (NEEDS_DEPLOY d)
    (LAST_NOT_DEPLOYED_REGISTER d) (SOLVING_PK_MISMATCH d) (SENT_REGISTER_PK d) (SHOULD_EXIT d).
Definition with_deploy (n : bool) (t : option Z) (d : Device) : Device :=
  mkDevice (key_confirmed d) (keys_confirmed d) (id d) (dev_uuid d) (dev_pk d) (conf d) n
    t (SOLVING_PK_MISMATCH d) (SENT_REGISTER_PK d) (SHOULD_EXIT d).
Definition with_solving (h : bytes) (d : Device) : Device :=
  mkDevice (key_confirmed d) (keys_confirmed d) (id d) (dev_uuid d) (dev_pk d) (conf d) (NEEDS_DEPLOY d)
    (LAST_NOT_DEPLOYED_REGISTER d) h (SENT_REGISTER_PK d) (SHOULD_EXIT d).
Definition with_sent (b : bool) (d : Device) : Device :=
  mkDevice (key_confirmed d) (keys_confirmed d) (id d) (dev_uuid d) (dev_pk d) (conf d) (NEEDS_DEPLOY d)
    (LAST_NOT_DEPLOYED_REGISTER d) (SOLVING_PK_MISMATCH d) b (SHOULD_EXIT d).
Definition with_exit (b : bool) (d : Device) : Device :=
  mkDevice (key_confirmed d) (keys_confirmed d) (id d) (dev_uuid d) (dev_pk d) (conf d) (NEEDS_DEPLOY d)
    (LAST_NOT_DEPLOYED_REGISTER d) (SOLVING_PK_MISMATCH d) (SENT_REGISTER_PK d) b.

(** ** Configuration ([config.rs]) *)
Definition set_key_confirmed (v : bool) (d : Device) : Device :=
  if Bool.eqb (key_confirmed d) v then d
  else with_confirmed v (if v then keys_confirmed d else ∅) d.
Definition get_host_key_confirmed (h : bytes) (d : Device) : bool := bool_decide (keys_confirmed d !! h = Some true).
Definition set_host_key_confirmed (h : bytes) (v : bool) (d : Device) : Device :=
  if Bool.eqb (get_host_key_confirmed h d) v then d
  else with_confirmed (key_confirmed d) (<[h := v]> (keys_confirmed d)) d.
Fixpoint join_comma (l : list bytes) : bytes :=
  match l with [] => [] | [x] => x | x :: l => x ++ comma :: join_comma l end.
(** The handler of [ConfigureUpdate]. *)
Definition configure_update (serial : Z) (servers : list bytes) (d : Device) : Device :=
  let c := conf d in
  let c' := set_serial serial (with_settings (set_option (str "rendezvous-servers") (join_comma servers) (settings c)) c) in
  let d' := with_conf c' d in
  if bool_decide (get_rendezvous_servers c = get_rendezvous_servers c') then d' else with_exit true d'.
(** [Config::update_id]: [draw] is what the generator gives. *)
Definition update_id (draw : Z) (d : Device) : Device := with_id (show_i32 (1000000000 + draw mod 1000000000)) d.

(** ** Registering *)
(** The results of [RegisterPkResponse]: those the server of this repository
    gives, the one that only other servers give, and values that are no
    member of the enumeration. *)
Inductive PkAnswer := Known (r : PkResult) | NOT_DEPLOYED | Unknown.
(** A message for the device; [RespOther] stands for the requests of viewers,
    which are answered by tasks of their own, below. *)
Inductive Resp :=
| RespRegisterPeer (request_pk : bool)
| RespRegisterPk (r : PkAnswer) (keep : Z)
| RespConfigureUpdate (serial : Z) (servers : list bytes)
| RespOther.

(** What a message of the server is to the device. *)
Definition resp_of (m : MsgOut) : Resp :=
  match m with
  | RegisterPeerResponse b => RespRegisterPeer b
  | RegisterPkResponse r => RespRegisterPk (Known r) 0
  | ConfigureUpdateOut s l => RespConfigureUpdate s l
  | _ => RespOther
  end.

Definition deploy_register_throttled (now : Z) (d : Device) : bool :=
  if negb (NEEDS_DEPLOY d) then false
  else match LAST_NOT_DEPLOYED_REGISTER d with
       | Some t => millis (now - t) <? DEPLOY_RETRY_INTERVAL
       | None => false
       end.

Definition register_pk (now : Z) (d : Device) : Device * list MsgIn :=
  let send d := (with_sent true d, [RegisterPkIn (mkRegisterPk (id d) (dev_uuid d) (dev_pk d))]) in
  if NEEDS_DEPLOY d then
    match LAST_NOT_DEPLOYED_REGISTER d with
    | Some t =>
        if millis (now - t) <? DEPLOY_RETRY_INTERVAL then (d, [])
        else send (with_deploy true (Some now) d)
    | None => send (with_deploy true (Some now) d)
    end
  else send (with_deploy false None d).

Definition may_solve (l : Loop) (d : Device) : bool :=
  bool_decide (SOLVING_PK_MISMATCH d = []) || bool_decide (SOLVING_PK_MISMATCH d = host l).

Definition handle_uuid_mismatch (now draw : Z) (l : Loop) (d : Device) : Device * list MsgIn :=
  if may_solve l d then
    register_pk now (with_solving (host l) (update_id draw (set_key_confirmed false d)))
  else (d, []).

Definition confirmed (l : Loop) (d : Device) : bool := key_confirmed d && get_host_key_confirmed (host_prefix l) d.

Definition register_peer (now : Z) (l : Loop) (d : Device) : Device * list MsgIn :=
  if negb (may_solve l d) then (d, [])
  else if negb (confirmed l d) then register_pk now d
  else (d, [RegisterPeer (id d) (get_serial (conf d))]).

(** ** The loop of [start_udp] *)
Section Loops.
Context {HI : HashIter}.
Definition update_latency (h : bytes) (latency : Z) (d : Device) : Device :=
  with_conf (Options.update_latency h latency (conf d)) d.

Definition with_reg (resp sent : option Z) (timeout f : Z) (l : Loop) : Loop :=
  mkLoop (host l) (host_prefix l) (keep_alive l) timeout f resp sent (last_dns_check l) (old_latency l) (ema_latency l).
Definition with_latency (old ema : Z) (l : Loop) : Loop :=
  mkLoop (host l) (host_prefix l) (keep_alive l) (reg_timeout l) (fails l) (last_register_resp l) (last_register_sent l)
    (last_dns_check l) old ema.
Definition with_keep_alive (k : Z) (l : Loop) : Loop :=
  mkLoop (host l) (host_prefix l) k (reg_timeout l) (fails l) (last_register_resp l) (last_register_sent l)
    (last_dns_check l) (old_latency l) (ema_latency l).
Definition with_dns (t : Z) (l : Loop) : Loop :=
  mkLoop (host l) (host_prefix l) (keep_alive l) (reg_timeout l) (fails l) (last_register_resp l) (last_register_sent l)
    t (old_latency l) (ema_latency l).

(** The closure [update_latency]: the answer is noted, and its latency, in
    microseconds, smoothed and published when it changed much. *)
Definition answered (now : Z) (l : Loop) (d : Device) : Loop * Device :=
  let latency := match last_register_sent l with Some t => i64_of (micros (now - t)) | None => 0 end in
  let l := with_reg (Some now) None MIN_REG_TIMEOUT 0 l in
  if (latency <? 0) || (1000000 <? latency) then (l, d)
  else
    let '(ema, latency) :=
      if ema_latency l =? 0 then (latency, latency)
      else let ema := Z.quot latency 30 + Z.quot (ema_latency l * 29) 30 in (ema, ema) in
    let l := with_latency (old_latency l) ema l in
    let n := Z.max 3000 (Z.quot latency 5) in
    if (n <? Z.abs (latency - old_latency l)) || (old_latency l <=? 0) then
      (with_latency latency ema l, update_latency (host l) latency d)
    else (l, d).

(** [update_latency] of the TCP loop keeps nothing but the latency. *)
Definition answered_tcp (now : Z) (last_sent : option Z) (l : Loop) (d : Device) : Loop * Device :=
  (l, update_latency (host l) (match last_sent with Some t => i64_of (micros (now - t)) | None => 0 end) d).

(** [upd] is the closure [update_latency] of the loop that received the
    message. *)
Definition handle_resp (upd : Loop -> Device -> Loop * Device) (now draw : Z) (r : Resp) (l : Loop) (d : Device)
  : Loop * Device * list MsgIn :=
  match r with
  | RespRegisterPeer request_pk =>
      let '(l, d) := upd l d in
      if request_pk then let '(d, out) := register_pk now d in (l, d, out) else (l, d, [])
  | RespRegisterPk r keep =>
      let '(l, d) := upd l d in
      let '(d, out) :=
        match r with
        | Known OK =>
            (with_deploy false (LAST_NOT_DEPLOYED_REGISTER d)
               (with_solving [] (set_host_key_confirmed (host_prefix l) true (set_key_confirmed true d))), [])
        | Known UUID_MISMATCH => handle_uuid_mismatch now draw l d
        | NOT_DEPLOYED =>
            (set_host_key_confirmed (host_prefix l) false
               (set_key_confirmed false (with_deploy true (LAST_NOT_DEPLOYED_REGISTER d) d)), [])
        | _ => (d, [])
        end in
      (if 0 <? keep then with_keep_alive (i32_of (keep * 1000)) l else l, d, out)
  | RespConfigureUpdate serial servers =>
      (l, configure_update serial servers d, [])
  | RespOther => (l, d, [])
  end.

(** A registration that was not answered in time; the flag says whether the
    socket is bound anew. *)
Definition note_timeout (now : Z) (l : Loop) (d : Device) : Loop * Device * bool :=
  let l := with_reg (last_register_resp l) (last_register_sent l) (reg_timeout l) (fails l + 1) l in
  if MAX_FAILS2 <=? fails l then
    let l := with_latency 0 (ema_latency l) l in
    let d := update_latency (host l) (-1) d in
    if DNS_INTERVAL <? millis (now - last_dns_check l) then (with_dns now l, d, true) else (l, d, false)
  else if MAX_FAILS1 <=? fails l then (with_latency 0 (ema_latency l) l, update_latency (host l) 0 d, false)
  else (l, d, false).

(** One tick: [None] once the loop is to end; otherwise what is sent. *)
Definition on_tick (now : Z) (public : bool) (l : Loop) (d : Device) : option (Loop * Device * list MsgIn * bool) :=
  if SHOULD_EXIT d then None
  else if deploy_register_throttled now d then Some (l, d, [], false)
  else
    let expired := match last_register_resp l with Some t => REG_INTERVAL <=? millis (now - t) | None => true end in
    let timeout := match last_register_sent l with Some t => reg_timeout l <=? millis (now - t) | None => false end in
    let reg := if public && timeout && (reg_timeout l <? MAX_REG_TIMEOUT) then reg_timeout l + MIN_REG_TIMEOUT else reg_timeout l in
    let l := with_reg (last_register_resp l) (last_register_sent l) reg (fails l) l in
    if timeout || (bool_decide (last_register_sent l = None) && expired) then
      let '(l, d, rebind) := if timeout then note_timeout now l d else (l, d, false) in
      let '(d, out) := register_peer now l d in
      Some (with_reg (last_register_resp l) (Some now) (reg_timeout l) (fails l) l, d, out, rebind)
    else Some (l, d, [], false).

Definition get_host_prefix (h : bytes) : bytes :=
  match split_on dot h with
  | x :: _ => match parse_i32 x with Some _ => h | None => x end
  | [] => h
  end.
(** [start_udp] up to its loop. *)
Definition start_udp (now : Z) (h : bytes) : Loop :=
  let h := check_port h RENDEZVOUS_PORT in
  mkLoop h (get_host_prefix h) DEFAULT_KEEP_ALIVE MIN_REG_TIMEOUT 0 None None now 0 0.

(** ** The loop of [start_tcp] *)
Definition start_tcp (now : Z) (h : bytes) (d : Device) : Loop * Device :=
  let l := start_udp now h in (l, set_host_key_confirmed (host_prefix l) false d).

Inductive TcpTick := TcpExit | TcpTimeout | TcpGo (sent : option Z) (d : Device) (out : list MsgIn).
Definition on_tick_tcp (now last_recv_msg : Z) (last_sent : option Z) (l : Loop) (d : Device) : TcpTick :=
  if SHOULD_EXIT d then TcpExit
  else if u64_of (u64_of (keep_alive l) * 3) / 2 <? millis (now - last_recv_msg) then TcpTimeout
  else if negb (confirmed l d)
          && (REG_INTERVAL <=? match last_sent with Some t => millis (now - t) | None => REG_INTERVAL end) then
    let '(d, out) := register_pk now d in TcpGo (Some now) d out
  else TcpGo last_sent d [].

End Loops.

(** ** Answering viewers

    The device is told of a viewer by [PunchHole], [FetchLocalAddr] or
    [RequestRelay]; it decides how to meet.  Repetitions within a tenth of a
    second are dropped. *)
Record Net := mkNet {
  net_conf : Store;
  server_is_ipv4 : bool;
  fresh_uuid : bytes;
  ipv6_socket : option bytes
}.
Record PunchHoleMsg := mkPunchHoleMsg {
  pm_socket_addr : bytes; pm_relay_server : bytes; pm_nat_type : Z; pm_udp_port : Z; pm_force_relay : bool; pm_socket_addr_v6 : bytes }.

Inductive Plan :=
| Duplicate
| CreateRelay (peer : SocketAddr) (socket_addr relay_server uuid : bytes) (secure initiate : bool) (socket_addr_v6 : bytes)
| PunchUdp (peer : SocketAddr) (sent : PunchHoleSent) (socket_addr_v6 : bytes)
| PunchTcp (peer : SocketAddr) (sent : PunchHoleSent) (socket_addr_v6 : bytes)
| Intranet (peer : SocketAddr) (relay_server socket_addr_v6 : bytes).

Definition LastMsg : Type := SocketAddr * Z.
Definition is_duplicate (now : Z) (addr : SocketAddr) (last : LastMsg) : bool :=
  bool_decide (last.1 = addr) && (millis (now - last.2) <? 100).

Definition get_relay_server (n : Net) (h provided : bytes) : bytes :=
  if bool_decide (option_of (net_conf n) (str "relay-server") <> []) then option_of (net_conf n) (str "relay-server")
  else if bool_decide (provided <> []) then provided
  else increase_port h 1.

(** [start_ipv6] when the viewer has an IPv6 port and no relay is forced. *)
Definition try_ipv6 (n : Net) (relay : bool) (peer_v6 : SocketAddr) : bytes :=
  if (0 <? port_of peer_v6) && negb relay then default [] (ipv6_socket n) else [].

(** [NatType::from_i32], unknown when out of range. *)
Definition nat_type_of (n : Z) : Z := if (n =? 1) || (n =? 2) then n else 0.

Definition set_port (a : SocketAddr) (p : Z) : SocketAddr :=
  match a with V4 ip _ => V4 ip p | V6 ip _ f s => V6 ip p f s end.

Definition handle_punch_hole (now : Z) (n : Net) (h my_id version : bytes) (ph : PunchHoleMsg) (last : LastMsg) : Plan * LastMsg :=
  let peer := AddrMangle.decode (pm_socket_addr ph) in
  let peer_v6 := AddrMangle.decode (pm_socket_addr_v6 ph) in
  let last' := (peer, now) in
  if is_duplicate now peer last then (Duplicate, last')
  else
    let relay := use_ws (net_conf n) || is_proxy (net_conf n) || pm_force_relay ph in
    let v6 := try_ipv6 n relay peer_v6 in
    let relay_server := get_relay_server n h (pm_relay_server ph) in
    if (pm_nat_type ph =? SYMMETRIC) || (Options.nat_type (net_conf n) =? SYMMETRIC) || relay || (is_disable_tcp_listen (net_conf n) && (pm_udp_port ph <=? 0)) then
      (CreateRelay peer (pm_socket_addr ph) relay_server (fresh_uuid n) true true v6, last')
    else
      let sent := mkPunchHoleSent (pm_socket_addr ph) my_id relay_server (Some (nat_type_of (Options.nat_type (net_conf n)))) version in
      if 0 <? pm_udp_port ph then (PunchUdp (set_port peer (u16_of (pm_udp_port ph))) sent v6, last')
      else (PunchTcp peer sent v6, last').

Definition handle_request_relay (now : Z) (rr : RelayReq) (secure : bool) (last : LastMsg) : Plan * LastMsg :=
  let addr := AddrMangle.decode (rf_socket_addr rr) in
  let last' := (addr, now) in
  if is_duplicate now addr last then (Duplicate, last')
  else (CreateRelay addr (rf_socket_addr rr) (rf_relay_server rr) (rf_uuid rr) secure false [], last').

(** [handle_intranet]; [intranet_ok] is whether the local connection came about. *)
Definition handle_intranet (now : Z) (n : Net) (h addr relay addr_v6 : bytes) (intranet_ok : bool) (last : LastMsg)
  : Plan * LastMsg :=
  let peer := AddrMangle.decode addr in
  let peer_v6 := AddrMangle.decode addr_v6 in
  let last' := (peer, now) in
  if is_duplicate now peer last then (Duplicate, last')
  else
    let relay_server := get_relay_server n h relay in
    let relayed := use_ws (net_conf n) || is_proxy (net_conf n) in
    let v6 := try_ipv6 n relayed peer_v6 in
    if server_is_ipv4 n && negb relayed && negb (is_disable_tcp_listen (net_conf n)) && intranet_ok then
      (Intranet peer relay_server v6, last')
    else (CreateRelay peer addr relay_server (fresh_uuid n) true true v6, last').

(** ** A key that changes under the registration ([CheckIfResendPk]) *)
Definition check_if_resend_pk (before after : option bytes) (d : Device) : Device :=
  if SENT_REGISTER_PK d && negb (bool_decide (after = before)) then set_key_confirmed false d else d.

(** ** A device and its server

    One clock for both; [addr] is where the server sees the device. *)
Section System.
Context {HI : HashIter}.
Context (show_ip : SocketAddr -> bytes) (valid_server : bytes -> bool) (write_idpk : bytes -> bytes -> bytes) {SG : Sign}.
Context (addr : SocketAddr) (public : bool).

Record Sys := mkSys { loop : Loop; dev : Device; srv : Server }.

Definition at_server (e : Env) (m : MsgIn) (x : Sys) : Sys * list Resp :=
  let '(s, out) := handle_udp show_ip valid_server write_idpk e (srv x) m addr in
  (mkSys (loop x) (dev x) s,
   List.flat_map (fun o => match o with ToUdp a m => if bool_decide (a = addr) then [resp_of m] else [] | ToSink _ _ => [] end) out).
Definition at_device (now draw : Z) (r : Resp) (x : Sys) : Sys * list MsgIn :=
  let '(l, d, out) := handle_resp (answered now) now draw r (loop x) (dev x) in
  (mkSys l d (srv x), out).

(** Deliver a list of messages one after the other. *)
Fixpoint deliver {A B} (step : A -> Sys -> Sys * list B) (ms : list A) (x : Sys) : Sys * list B :=
  match ms with
  | [] => (x, [])
  | m :: ms =>
      let '(x, out) := step m x in
      let '(x, out') := deliver step ms x in
      (x, out ++ out')
  end.

(** What becomes of what a tick sends: it is lost, or arrives after [up], its
    answer being lost or arriving after [down].  The device's own reaction to
    the answer is one more exchange, at the same speed. *)
Inductive Fate := Lost | AnswerLost (up : Z) | Answered (up down : Z).
Record Round := mkRound { at_time : Z; fate : Fate; db_up : bool; guid1 : bytes; guid2 : bytes; drawn : Z }.

Definition exchange (t up down draw : Z) (db : bool) (g : bytes) (ms : list MsgIn) (x : Sys) : Sys * list MsgIn :=
  let '(x, answers) := deliver (at_server (mkEnv (t + up) 0 db g)) ms x in
  deliver (at_device (t + down) draw) answers x.

Definition round (r : Round) (x : Sys) : Sys :=
  match on_tick (at_time r) public (loop x) (dev x) with
  | None => x
  | Some (l, d, ms, _) =>
      let x := mkSys l d (srv x) in
      match fate r with
      | Lost => x
      | AnswerLost up => (deliver (at_server (mkEnv (at_time r + up) 0 (db_up r) (guid1 r))) ms x).1
      | Answered up down =>
          let '(x, ms) := exchange (at_time r) up down (drawn r) (db_up r) (guid1 r) ms x in
          (exchange (at_time r + down) up down (drawn r) (db_up r) (guid2 r) ms x).1
      end
  end.
Definition sends (r : Round) (x : Sys) : bool :=
  match on_tick (at_time r) public (loop x) (dev x) with
  | Some (_, _, m :: _, _) => true
  | _ => false
  end.
Definition rounds (rs : list Round) (x : Sys) : Sys := foldl (fun x r => round r x) x rs.

(** *** The steady state *)
Definition second : Z := 1000000000.

(** The server knows the device, with its key, at this address. *)
Definition known (p : Peer) : Prop := pk p <> [] /\ port_of (socket_addr p) <> 0 /\ same_ip addr (socket_addr p) = true.
(** What the device needs to go on refreshing its address. *)
Definition steady (x : Sys) : Prop :=
  confirmed (loop x) (dev x) = true /\ may_solve (loop x) (dev x) = true /\
  NEEDS_DEPLOY (dev x) = false /\ SHOULD_EXIT (dev x) = false /\ id (dev x) <> [] /\
  Rendezvous.serial (srv x) <= get_serial (conf (dev x)).

(** The device learnt at [a] that it is registered. *)
Definition fresh (i : bytes) (a : Z) (x : Sys) : Prop :=
  steady x /\ id (dev x) = i /\
  last_register_resp (loop x) = Some a /\ last_register_sent (loop x) = None /\ reg_timeout (loop x) = MIN_REG_TIMEOUT /\
  exists p, peers (srv x) !! i = Some p /\ known p /\ a - second <= last_reg_time p <= a.

Lemma answered_spec now l d : exists old ema c,
  answered now l d = (with_latency old ema (with_reg (Some now) None MIN_REG_TIMEOUT 0 l), with_conf c d) /\
  get_serial c = get_serial (conf d).
Proof.
  unfold answered. set (lat := match last_register_sent l with Some t => _ | None => _ end).
  destruct (_ || _).
  { exists (old_latency l), (ema_latency l), (conf d). by destruct l, d. }
  destruct (if ema_latency _ =? 0 then _ else _) as [ema lat'].
  destruct (_ || _); [exists lat', ema, (Options.update_latency (host l) lat' (conf d)); by destruct l, d|].
  exists (old_latency l), ema, (conf d). by destruct l, d.
Qed.

(** What a tick does to a steady device. *)
Definition timed_out (t : Z) (l : Loop) : bool :=
  match last_register_sent l with Some u => reg_timeout l <=? millis (t - u) | None => false end.
Definition due (t : Z) (l : Loop) : bool :=
  timed_out t l || (bool_decide (last_register_sent l = None)
                    && match last_register_resp l with Some a => REG_INTERVAL <=? millis (t - a) | None => true end).
Definition next_timeout (t : Z) (l : Loop) : Z :=
  if public && timed_out t l && (reg_timeout l <? MAX_REG_TIMEOUT) then reg_timeout l + MIN_REG_TIMEOUT else reg_timeout l.

Lemma with_reg_same l : with_reg (last_register_resp l) (last_register_sent l) (reg_timeout l) (fails l) l = l.
Proof. by destruct l. Qed.

Lemma on_tick_idle t l d : SHOULD_EXIT d = false -> NEEDS_DEPLOY d = false -> due t l = false ->
  on_tick t public l d = Some (l, d, [], false).
Proof.
  intros He Hn. unfold due. rewrite orb_false_iff. intros [Ht Hd]. unfold on_tick, deploy_register_throttled. rewrite He, Hn. cbn [negb]. cbv iota zeta.
  change (match last_register_sent l with Some t0 => reg_timeout l <=? millis (t - t0) | None => false end) with (timed_out t l).
  rewrite Ht, andb_false_r. simpl. rewrite Hd, with_reg_same. done.
Qed.

Lemma note_timeout_spec t l d : exists f old dns c rb,
  note_timeout t l d =
    (mkLoop (host l) (host_prefix l) (keep_alive l) (reg_timeout l) f (last_register_resp l) (last_register_sent l) dns old (ema_latency l),
     with_conf c d, rb) /\ get_serial c = get_serial (conf d).
Proof.
  unfold note_timeout, update_latency. destruct (MAX_FAILS2 <=? _); [destruct (DNS_INTERVAL <? _)|destruct (MAX_FAILS1 <=? _)];
    do 3 eexists; [eexists..|exists (conf d)]; eexists; (split; [by destruct l, d|done]).
Qed.

Lemma on_tick_due t l d : SHOULD_EXIT d = false -> NEEDS_DEPLOY d = false -> due t l = true ->
  exists old f dns c rb,
    let l' := mkLoop (host l) (host_prefix l) (keep_alive l) (next_timeout t l) f (last_register_resp l) (Some t) dns old (ema_latency l) in
    get_serial c = get_serial (conf d) /\
    on_tick t public l d = Some (l', (register_peer t l' (with_conf c d)).1, (register_peer t l' (with_conf c d)).2, rb).
Proof.
  intros He Hn Hd. unfold on_tick, deploy_register_throttled. rewrite He, Hn. cbn [negb]. cbv iota zeta.
  change (match last_register_sent l with Some t0 => reg_timeout l <=? millis (t - t0) | None => false end) with (timed_out t l).
  unfold due in Hd. cbn [last_register_sent with_reg]. rewrite Hd. fold (next_timeout t l).
  set (l1 := with_reg _ _ (next_timeout t l) _ l).
  assert (exists f old dns c rb, (if timed_out t l then note_timeout t l1 d else (l1, d, false)) =
    (mkLoop (host l1) (host_prefix l1) (keep_alive l1) (reg_timeout l1) f (last_register_resp l1) (last_register_sent l1) dns old (ema_latency l1),
     with_conf c d, rb) /\ get_serial c = get_serial (conf d)) as (f & old & dns & c & rb & -> & Hc).
  { destruct (timed_out t l); [apply note_timeout_spec|]. exists (fails l), (old_latency l), (last_dns_check l), (conf d), false. split; [by destruct l, d|done]. }
  exists old, f, dns, c, rb. split; [done|]. cbv beta iota zeta. cbn [negb].
  match goal with |- match ?r with _ => _ end = _ => change r with (register_peer t
    (mkLoop (host l) (host_prefix l) (keep_alive l) (next_timeout t l) f (last_register_resp l) (Some t) dns old (ema_latency l)) (with_conf c d)) end.
  by destruct (register_peer _ _ _).
Qed.

(** A steady device's due tick is a refresh. *)
Lemma steady_refresh t l l' d c : confirmed l d = true -> may_solve l d = true -> host l' = host l -> host_prefix l' = host_prefix l ->
  register_peer t l' (with_conf c d) = (with_conf c d, [RegisterPeer (id d) (get_serial c)]).
Proof.
  intros H1 H2 E1 E2. unfold register_peer, may_solve, confirmed in *. rewrite E1, E2. simpl. rewrite H2. simpl.
  unfold get_host_key_confirmed in *. simpl in *. by rewrite H1.
Qed.

Definition refreshed (e : Env) (p : Peer) : Peer := mkPeer addr (now e) (guid p) (uuid p) (pk p) (info_ip p) (reg_pk p).

(** The server's side of a refresh. *)
Lemma server_refresh e l d s i n p : i <> [] -> Rendezvous.serial s <= n -> peers s !! i = Some p -> known p ->
  at_server e (RegisterPeer i n) (mkSys l d s) =
    (mkSys l d (with_peers s (<[i := refreshed e p]> (peers s))), [RespRegisterPeer false]).
Proof.
  intros Hi Hn Hp (K1 & K2 & K3). unfold at_server. cbn [srv handle_udp]. destruct i as [|b i0] eqn:Ei; [done|]. rewrite <- Ei in *.
  assert (negb (is_empty i) = true) as -> by by subst i. cbv iota. unfold update_addr, get_in_memory. rewrite Hp.
  destruct (port_of (socket_addr p) =? 0) eqn:E0; [lia|]. rewrite K3. simpl. destruct (pk p) as [|k0 ks] eqn:Ek; [done|]. simpl.
  destruct (n <? Rendezvous.serial s) eqn:En; [lia|]. simpl. rewrite bool_decide_true by done. unfold refreshed. by rewrite Ek.
Qed.

Lemma device_refreshed now draw l d s : exists old ema c,
  at_device now draw (RespRegisterPeer false) (mkSys l d s) =
    (mkSys (with_latency old ema (with_reg (Some now) None MIN_REG_TIMEOUT 0 l)) (with_conf c d) s, []) /\
  get_serial c = get_serial (conf d).
Proof.
  destruct (answered_spec now l d) as (old & ema & c & E & Hc). exists old, ema, c. split; [|done].
  unfold at_device. simpl. by rewrite E.
Qed.

Lemma same_ip_refl a : same_ip a a = true.
Proof. destruct a; simpl; by apply bool_decide_true. Qed.

Lemma known_refreshed e p : port_of addr <> 0 -> known p -> known (refreshed e p).
Proof. intros H1 (K1 & _ & _). split_and!; [done..|apply same_ip_refl]. Qed.

(** *** Losses *)

(** The registrations in a row that may get lost: on a public server the time
    until the next grows. *)
Definition max_losses : nat := if public then 2 else 3.
(** How long the [k]-th unanswered registration is waited for, in milliseconds,
    and how late after an answer it goes out, in nanoseconds. *)
Definition patience (k : nat) : Z := if public then MIN_REG_TIMEOUT * Z.of_nat k else MIN_REG_TIMEOUT.
Fixpoint latest (k : nat) : Z :=
  match k with
  | O => REG_INTERVAL * 1000000
  | S O => REG_INTERVAL * 1000000 + second
  | S k => latest k + patience k * 1000000 + second
  end.

Definition waiting (k : nat) (a t : Z) (l : Loop) : Prop :=
  match k with
  | O => last_register_sent l = None /\ reg_timeout l = MIN_REG_TIMEOUT /\ t < a + REG_INTERVAL * 1000000
  | S _ => exists u, last_register_sent l = Some u /\ u <= a + latest k /\ t < u + patience k * 1000000 /\ reg_timeout l = patience k
  end.
Definition kept (i : bytes) (k : nat) (t : Z) (x : Sys) : Prop :=
  exists a, steady x /\ id (dev x) = i /\ last_register_resp (loop x) = Some a /\ a <= t + second /\
    (exists p, peers (srv x) !! i = Some p /\ known p /\ a - second <= last_reg_time p <= t + second) /\
    waiting k a t (loop x).

Lemma millis_lt z n : millis z < n <-> z < n * 1000000.
Proof. unfold millis. split; intros H; [|apply Z.div_lt_upper_bound; lia]. pose proof (Z.div_mod z 1000000). pose proof (Z.mod_pos_bound z 1000000). lia. Qed.

Lemma kept_online i k t x e : (k <= max_losses)%nat -> kept i k t x -> t <= now e <= t + 2 * second -> online e (srv x) i = true.
Proof.
  intros Hk (a & _ & _ & _ & _ & (p & Hp & _ & Hr) & Hw) He. unfold online, get_in_memory. rewrite Hp. apply Z.ltb_lt.
  assert (t < a + 27 * second) as Hl.
  { unfold waiting in Hw. destruct k as [|[|[|[|k]]]]; [destruct Hw as (_ & _ & ?)|..]; try (destruct Hw as (u & _ & H1 & H2 & _));
      unfold latest, patience, max_losses, REG_INTERVAL, MIN_REG_TIMEOUT, second in *; destruct public; lia. }
  unfold as_millis. assert (now e - last_reg_time p < REG_TIMEOUT * 1000000) as H by (unfold REG_TIMEOUT, second in *; lia).
  apply millis_lt in H. unfold millis in H. assert (- 1000 <= (now e - last_reg_time p) / 1000000) as H0.
  { apply Z.div_le_lower_bound; unfold second in *; lia. }
  unfold i64_of. rewrite swrap_id; [done|lia|]. unfold REG_TIMEOUT in H. lia.
Qed.

Lemma kept_due i k t t' x : kept i k t x -> t <= t' <= t + second -> due t' (loop x) = false -> kept i k t' x.
Proof.
  intros (a & Hs & Hi & Ha & Hat & (p & Hp & Kp & Hr) & Hw) Ht Hd. unfold due in Hd. apply orb_false_iff in Hd as [D1 D2].
  exists a. split_and!; try done; [lia|exists p; split_and!; done || lia|]. destruct k as [|k].
  - destruct Hw as (W1 & W2 & W3). split_and!; [done..|]. rewrite W1, Ha, bool_decide_true in D2 by done. simpl in D2.
    apply Z.leb_gt, millis_lt in D2. lia.
  - destruct Hw as (u & W1 & W2 & W3 & W4). exists u. split_and!; try done. unfold timed_out in D1. rewrite W1, W4 in D1.
    apply Z.leb_gt, millis_lt in D1. lia.
Qed.

(** A registration that goes out, before its fate is known. *)
Lemma kept_sent i k t t' x old f dns c : kept i k t x -> t <= t' <= t + second -> due t' (loop x) = true -> (k < max_losses)%nat ->
  get_serial c = get_serial (conf (dev x)) ->
  let l := loop x in
  kept i (S k) t' (mkSys
    (mkLoop (host l) (host_prefix l) (keep_alive l) (next_timeout t' l) f (last_register_resp l) (Some t') dns old (ema_latency l))
    (with_conf c (dev x)) (srv x)).
Proof.
  intros (a & Hs & Hi & Ha & Hat & (p & Hp & Kp & Hr) & Hw) Ht Hd Hk Hc l. subst l. exists a.
  destruct Hs as (S1 & S2 & S3 & S4 & S5 & S6).
  split; [unfold steady; simpl; rewrite Hc; by split_and!|]. split_and!; try done; simpl; [lia|exists p; split_and!; done || lia|].
  exists t'. unfold waiting in Hw. unfold due, next_timeout, timed_out in *. destruct k as [|k].
  - destruct Hw as (W1 & W2 & W3). rewrite W1, W2, andb_false_r. simpl. split_and!; [done| |..]; unfold patience, MIN_REG_TIMEOUT in *; destruct public; lia.
  - destruct Hw as (u & W1 & W2 & W3 & W4). rewrite W1 in *. rewrite bool_decide_false in Hd by done. simpl in Hd. rewrite orb_false_r in Hd. rewrite Hd, W4.
    split; [done|]. split; [lia|].
    unfold max_losses, patience, MIN_REG_TIMEOUT, MAX_REG_TIMEOUT in *. destruct public; simpl.
    + assert (k = 0%nat) as -> by lia. simpl. lia.
    + lia.
Qed.

Definition refresh (i : bytes) (e : Env) (x : Sys) : Sys :=
  match peers (srv x) !! i with
  | Some p => mkSys (loop x) (dev x) (with_peers (srv x) (<[i := refreshed e p]> (peers (srv x))))
  | None => x
  end.

Lemma kept_refresh i k t x e : port_of addr <> 0 -> kept i k t x -> t <= now e <= t + second -> kept i k t (refresh i e x).
Proof.
  intros Hp0 (a & Hs & Hi & Ha & Hat & (p & Hp & Kp & Hr) & Hw) He. unfold refresh. rewrite Hp. exists a. split_and!; try done.
  exists (refreshed e p). simpl. rewrite lookup_insert_eq. split_and!; [done|by apply known_refreshed|lia..].
Qed.

(** The device goes on refreshing, and the server knows it. *)
Definition here (i : bytes) (x : Sys) : Prop :=
  steady x /\ id (dev x) = i /\ exists p, peers (srv x) !! i = Some p /\ known p.
Lemma kept_here i k t x : kept i k t x -> here i x.
Proof. intros (a & Hs & Hi & _ & _ & (p & Hp & Kp & _) & _). split_and!; [done..|by exists p]. Qed.

Lemma refresh_at i x e : here i x ->
  at_server e (RegisterPeer (id (dev x)) (get_serial (conf (dev x)))) x = (refresh i e x, [RespRegisterPeer false]).
Proof.
  intros (Hs & Hi & p & Hp & Kp). unfold refresh. rewrite Hp. destruct x as [l d s]. simpl in *.
  destruct Hs as (_ & _ & _ & _ & S5 & S6). simpl in *. rewrite <- Hi in Hp. rewrite (server_refresh e l d s (id d) _ p) by done. by rewrite Hi.
Qed.

Lemma fresh_kept i t a x : t <= a <= t + second -> fresh i a x -> kept i 0 t x.
Proof.
  intros Ht (Hs & Hi & Ha & H1 & H2 & p & Hp & Kp & Hr). exists a. split_and!; try done; [lia|exists p; split_and!; done || lia|].
  unfold waiting, REG_INTERVAL. split_and!; done || lia.
Qed.

(** The answer arrives: the losses are forgotten. *)
Lemma here_answered i t x up down draw db g : port_of addr <> 0 -> here i x -> 0 <= up <= down -> down <= second ->
  let '(x', out) := exchange t up down draw db g [RegisterPeer (id (dev x)) (get_serial (conf (dev x)))] x in
  out = [] /\ fresh i (t + down) x'.
Proof.
  intros Hp0 Hh Hu Hd. unfold exchange. cbn [deliver]. rewrite (refresh_at i x _ Hh). destruct Hh as (Hs & Hi & p & Hp & Kp).
  unfold refresh. rewrite Hp. cbn [app deliver].
  destruct (device_refreshed (t + down) draw (loop x) (dev x)
    (with_peers (srv x) (<[i := refreshed (mkEnv (t + up) 0 db g) p]> (peers (srv x))))) as (old & ema & c & -> & Hc).
  split; [done|]. destruct Hs as (S1 & S2 & S3 & S4 & S5 & S6). split; [unfold steady; simpl; rewrite Hc; by split_and!|].
  split_and!; try done. eexists. simpl. rewrite lookup_insert_eq. split; [done|]. split; [by apply known_refreshed|simpl; lia].
Qed.

Definition fate_ok (f : Fate) : Prop :=
  match f with
  | Lost => True
  | AnswerLost up => 0 <= up <= second
  | Answered up down => 0 <= up <= down /\ down <= second
  end.
Definition lost (f : Fate) : bool := match f with Answered _ _ => false | _ => true end.
(** How many registrations were lost in a row, after a round that started with
    [k] of them. *)
Definition losses (k : nat) (r : Round) (x : Sys) : nat :=
  if sends r x then if lost (fate r) then S k else 0 else k.

Lemma kept_round i k t r x : port_of addr <> 0 -> kept i k t x -> t <= at_time r <= t + second -> fate_ok (fate r) ->
  (losses k r x <= max_losses)%nat -> kept i (losses k r x) (at_time r) (round r x).
Proof.
  intros Hp0 Hk Ht Hf Hl. pose proof Hk as (a & (S1 & S2 & S3 & S4 & S5 & S6) & Hi & _). unfold losses, sends, round in *.
  destruct (due (at_time r) (loop x)) eqn:Hd.
  2: { rewrite (on_tick_idle _ _ _ S4 S3 Hd) in *. replace (mkSys (loop x) (dev x) (srv x)) with x by by destruct x.
       assert (kept i k (at_time r) x) by by apply (kept_due i k t). by destruct (fate r). }
  destruct (on_tick_due (at_time r) (loop x) (dev x) S4 S3 Hd) as (old & f & dns & c & rb & Hc & E). simpl in E. rewrite E in *. clear E.
  rewrite (steady_refresh _ (loop x) _ (dev x) c) in * by done. cbn [fst snd] in *.
  set (x' := mkSys _ (with_conf c (dev x)) (srv x)).
  assert ((k < max_losses)%nat -> kept i (S k) (at_time r) x') as Hsent by (intros; by apply (kept_sent i k t)).
  assert (here i x') as Hh.
  { destruct (kept_here _ _ _ _ Hk) as (_ & _ & Hp). split; [unfold steady; simpl; rewrite Hc; by split_and!|done]. }
  change [RegisterPeer (id (dev x)) (get_serial c)] with [RegisterPeer (id (dev x')) (get_serial (conf (dev x')))].
  destruct (fate r) as [|up|up down]; cbn [lost fate_ok] in *.
  - apply Hsent. lia.
  - cbn [deliver]. rewrite (refresh_at i) by done. cbn [fst]. apply kept_refresh; [done|apply Hsent; lia|simpl; lia].
  - pose proof (here_answered i (at_time r) x' up down (drawn r) (db_up r) (guid1 r) Hp0 Hh) as H.
    destruct (exchange _ _ _ _ _ _ _ x') as [x1 out]. destruct H as [-> H]; [lia..|]. cbn. apply (fresh_kept i _ (at_time r + down)); [lia|done].
Qed.

(** When the round's exchange is over. *)
Definition over (r : Round) : Z :=
  at_time r + match fate r with Lost => 0 | AnswerLost up => up | Answered _ down => down end.
(** Ticks come at most a second apart and after the exchange of the one before,
    and no more than [max_losses] registrations in a row are lost. *)
Fixpoint tolerable (t free : Z) (k : nat) (rs : list Round) (x : Sys) : Prop :=
  match rs with
  | [] => True
  | r :: rs =>
      t <= at_time r <= t + second /\ free <= at_time r /\ fate_ok (fate r) /\ (losses k r x <= max_losses)%nat /\
      tolerable (at_time r) (over r) (losses k r x) rs (round r x)
  end.

Definition fate_okb (f : Fate) : bool :=
  match f with
  | Lost => true
  | AnswerLost up => (0 <=? up) && (up <=? second)
  | Answered up down => (0 <=? up) && (up <=? down) && (down <=? second)
  end.
Fixpoint tolerableb (t free : Z) (k : nat) (rs : list Round) (x : Sys) : bool :=
  match rs with
  | [] => true
  | r :: rs =>
      (t <=? at_time r) && (at_time r <=? t + second) && (free <=? at_time r) && fate_okb (fate r)
      && (losses k r x <=? max_losses)%nat && tolerableb (at_time r) (over r) (losses k r x) rs (round r x)
  end.
Lemma tolerableb_sound rs : forall t free k x, tolerableb t free k rs x = true -> tolerable t free k rs x.
Proof.
  induction rs as [|r rs IH]; intros t free k x; simpl; [done|]. rewrite !andb_true_iff. intros (((((H1 & H2) & H3) & H4) & H5) & H6).
  split; [lia|]. split; [lia|]. split; [|split; [by apply Nat.leb_le|by apply IH]].
  unfold fate_okb, fate_ok in *. destruct (fate r); [done|lia..].
Qed.

Lemma kept_rounds i rs : forall t free k x, port_of addr <> 0 -> kept i k t x -> (k <= max_losses)%nat -> tolerable t free k rs x ->
  forall pre r post, rs = pre ++ r :: post ->
  exists k', (k' <= max_losses)%nat /\ kept i k' (at_time r) (rounds (pre ++ [r]) x).
Proof.
  induction rs as [|r0 rs IH]; intros t free k x Hp0 Hk Hl; simpl; [intros _ pre r post E; by destruct pre|].
  intros (H1 & _ & H2 & H3 & H4) pre r post E. pose proof (kept_round i k t r0 x Hp0 Hk H1 H2 H3) as Hk'.
  destruct pre as [|y pre]; injection E as <- E; [by exists (losses k r0 x)|]. unfold rounds. simpl. by apply (IH _ _ _ _ Hp0 Hk' H3 H4 pre r post).
Qed.

(** [C26] Registration survives losses: once the device has learnt that it is
    registered, and as long as its ticks come at most a second apart, answers
    take at most a second and no more than three registrations in a row are lost
    (two on a public server, where the device backs off), the server reports the
    device online at every instant: after each tick, for the two seconds that
    cover the next tick and the arrival of what it sends. *)
Theorem online_despite_losses i a rs x :
  port_of addr <> 0 -> fresh i a x -> tolerable a a 0 rs x ->
  (forall e, a <= now e <= a + 2 * second -> online e (srv x) i = true) /\
  forall pre r post, rs = pre ++ r :: post ->
  forall e, at_time r <= now e <= at_time r + 2 * second -> online e (srv (rounds (pre ++ [r]) x)) i = true.
Proof.
  intros Hp0 Hf Ht. assert (kept i 0 a x) as Hk by (apply (fresh_kept i a a); [unfold second; lia|done]). split.
  - intros e He. apply (kept_online i 0 a); [lia|done..].
  - intros pre r post E e He. destruct (kept_rounds i rs a a 0 x Hp0 Hk ltac:(lia) Ht pre r post E) as (k' & Hl & Hk').
    by apply (kept_online i k' (at_time r)).
Qed.

(** *** The first registration *)
(** The server takes the registration: the address is not blocked, the id is
    not another machine's, the key or the address is new, and the device has not
    just registered three times. *)
Definition accepts (e : Env) (s : Server) (rk : RegisterPk) : bool :=
  let '(ok, s) := check_ip_blocker e s (show_ip addr) (rk_id rk) in
  let p := (get_or e s (rk_id rk)).1 in
  ok && match pk_status p rk (show_ip addr), reg_pk_next e (reg_pk p) with Some (true, _), Some _ => true | _, _ => false end.

Lemma update_pk_peer e s i a u k ip p : peers s !! i = Some p ->
  exists q, peers (update_pk e s i a u k ip).2 !! i = Some q /\ socket_addr q = a /\ last_reg_time q = now e /\ pk q = k.
Proof.
  intros Hp. unfold update_pk. rewrite Hp. destruct (is_empty _).
  - destruct (insert_peer _ _ _ _ _ _) as [[g d]|]; simpl; rewrite lookup_insert_eq; eauto.
  - destruct (db_update_pk _ _ _ _ _ _); simpl; rewrite lookup_insert_eq; eauto.
Qed.

Lemma update_pk_serial e s i a u k ip : Rendezvous.serial (update_pk e s i a u k ip).2 = Rendezvous.serial s.
Proof.
  unfold update_pk. destruct (peers s !! i); [|done]. destruct (is_empty _); [by destruct (insert_peer _ _ _ _ _ _) as [[]|]|].
  by destruct (db_update_pk _ _ _ _ _ _).
Qed.
Lemma get_or_peer e s i : peers (get_or e s i).2 !! i = Some (get_or e s i).1 /\ Rendezvous.serial (get_or e s i).2 = Rendezvous.serial s.
Proof.
  unfold get_or, pm_get. destruct (peers s !! i) as [p|] eqn:E; [done|].
  destruct (get_peer e (db s) i) as [[r|]|]; simpl; by rewrite lookup_insert_eq.
Qed.
Lemma blocker_serial e s ip i : Rendezvous.serial (check_ip_blocker e s ip i).2 = Rendezvous.serial s.
Proof.
  unfold check_ip_blocker. destruct (ip_blocker s !! ip) as [[[n t0] [ids t2]]|]; [|done].
  by repeat match goal with |- context [if ?b then _ else _] => destruct b end.
Qed.

Lemma register_accepted e s rk : rk_uuid rk <> [] -> rk_pk rk <> [] -> 6 <= len (rk_id rk) -> accepts e s rk = true ->
  exists s' q, handle_register_pk show_ip e s rk addr = (s', [ToUdp addr (RegisterPkResponse OK)]) /\
    peers s' !! rk_id rk = Some q /\ socket_addr q = addr /\ last_reg_time q = now e /\ pk q = rk_pk rk /\
    Rendezvous.serial s' = Rendezvous.serial s.
Proof.
  intros Hu Hk Hl Ha. unfold accepts in Ha. unfold handle_register_pk.
  destruct (rk_uuid rk) as [|u0 us] eqn:Eu; [done|]. destruct (rk_pk rk) as [|k0 ks] eqn:Ek; [done|]. rewrite <- Eu, <- Ek in *.
  replace (is_empty (rk_uuid rk) || is_empty (rk_pk rk)) with false by (by rewrite Eu, Ek). cbv iota.
  destruct (len (rk_id rk) <? 6) eqn:E6; [lia|]. pose proof (blocker_serial e s (show_ip addr) (rk_id rk)) as B.
  destruct (check_ip_blocker e s (show_ip addr) (rk_id rk)) as [ok s1]. destruct ok; [|done]. simpl in Ha, B |- *.
  destruct (get_or_peer e s1 (rk_id rk)) as [G1 G2]. destruct (get_or e s1 (rk_id rk)) as [p s2]. simpl in *.
  destruct (pk_status p rk (show_ip addr)) as [[[] ic]|]; [|done..]. destruct (reg_pk_next e (reg_pk p)) as [r|]; [|done].
  set (s3 := set_reg_pk s2 (rk_id rk) r). set (s4 := if ic then note_ip_change e s3 (rk_id rk) (show_ip addr) else s3).
  assert ((exists q, peers s4 !! rk_id rk = Some q) /\ Rendezvous.serial s4 = Rendezvous.serial s) as [[q Hq] E4].
  { unfold s4, s3, set_reg_pk. rewrite G1. destruct ic; simpl; rewrite lookup_insert_eq; (split; [by eexists|congruence]). }
  destruct (update_pk_peer e s4 (rk_id rk) addr (rk_uuid rk) (rk_pk rk) (show_ip addr) q Hq) as (q' & H1 & H2 & H3 & H4).
  do 2 eexists. split_and!; [done..|]. by rewrite update_pk_serial.
Qed.

Lemma digits_bound s : forall acc z, 0 <= acc -> parse_digits acc s = Some z -> z < (acc + 1) * 10 ^ len s.
Proof.
  induction s as [|b s IH]; intros acc z Ha; simpl.
  - intros [= <-]. change (len []) with 0. lia.
  - destruct (digit_of b) as [d|] eqn:Ed; [|done]. assert (0 <= d <= 9) as Hd by (unfold digit_of in Ed; case_match; simplify_eq; lia). intros H. apply IH in H; [|lia].
    rewrite len_cons, Z.pow_add_r by (pose proof (len_nonneg s); lia). pose proof (Z.pow_pos_nonneg 10 (len s) ltac:(lia) (len_nonneg s)). nia.
Qed.
(** The ids that [update_id] draws are long enough for the server. *)
Lemma drawn_id_long draw d : 6 <= len (id (update_id draw d)).
Proof.
  unfold update_id. simpl. pose proof (Z.mod_pos_bound draw 1000000000 ltac:(lia)) as Hm. set (z := 1000000000 + draw mod 1000000000) in *.
  pose proof (digits_bound (show_i32 z) 0 z ltac:(lia) (show_digits z ltac:(lia))) as H.
  destruct (decide (6 <= len (show_i32 z))) as [|Hl]; [done|]. exfalso.
  assert (10 ^ len (show_i32 z) <= 10 ^ 5) by (apply Z.pow_le_mono_r; lia). lia.
Qed.

Lemma register_pk_ready now d : NEEDS_DEPLOY d = false ->
  register_pk now d = (with_sent true (with_deploy false None d), [RegisterPkIn (mkRegisterPk (id d) (dev_uuid d) (dev_pk d))]).
Proof. intros H. unfold register_pk. by rewrite H. Qed.

(** The device's side of an accepted registration. *)
Lemma device_registered now draw l d s :
  exists old ema c ks, let l' := with_latency old ema (with_reg (Some now) None MIN_REG_TIMEOUT 0 l) in
  get_serial c = get_serial (conf d) /\ ks !! host_prefix l = Some true /\
  at_device now draw (RespRegisterPk (Known OK) 0) (mkSys l d s) =
    (mkSys l' (with_deploy false (LAST_NOT_DEPLOYED_REGISTER d) (with_solving [] (with_confirmed true ks (with_conf c d)))) s, []).
Proof.
  destruct (answered_spec now l d) as (old & ema & c & E & Hc). exists old, ema, c.
  unfold at_device. cbn [handle_resp loop dev srv]. rewrite E. cbv beta iota zeta. change (0 <? 0) with false. cbv iota.
  set (l' := with_latency _ _ _). set (d0 := with_conf c d). change (host_prefix l') with (host_prefix l).
  assert (exists ks, set_host_key_confirmed (host_prefix l) true (set_key_confirmed true d0) = with_confirmed true ks d0 /\
    ks !! host_prefix l = Some true) as (ks & -> & Hks).
  { unfold set_host_key_confirmed. set (d1 := set_key_confirmed true d0).
    assert (exists k, d1 = with_confirmed true k d0) as [k ->].
    { unfold d1, set_key_confirmed. destruct (key_confirmed d0) eqn:K; simpl; [|by eexists]. exists (keys_confirmed d0). subst d0. destruct d. simpl in K. by subst. }
    destruct (get_host_key_confirmed _ _) eqn:G; simpl.
    - exists k. split; [done|]. unfold get_host_key_confirmed in G. simpl in G. by apply bool_decide_eq_true in G.
    - eexists. split; [done|]. by rewrite lookup_insert_eq. }
  exists ks. done.
Qed.

Lemma registered_fresh now draw l d s i q : id d = i -> i <> [] -> NEEDS_DEPLOY d = false -> SHOULD_EXIT d = false ->
  Rendezvous.serial s <= get_serial (conf d) -> peers s !! i = Some q -> known q -> now - second <= last_reg_time q <= now ->
  let '(x, out) := at_device now draw (RespRegisterPk (Known OK) 0) (mkSys l d s) in
  out = [] /\ fresh i now x /\ dev_pk (dev x) = dev_pk d /\ srv x = s.
Proof.
  intros Hi Hn Hd He Hs Hq Kq Hr. destruct (device_registered now draw l d s) as (old & ema & c & ks & Hc & Hk & ->).
  split; [done|]. split; [|done]. split; [|split_and!; try done; by exists q].
  unfold steady, confirmed, may_solve, get_host_key_confirmed. cbn. rewrite Hk, Hc, Hi. split_and!; try done.
Qed.

(** An accepted registration, from the datagram to the device's belief. *)
Lemma exchange_registers t up down draw db g l d s :
  let rk := mkRegisterPk (id d) (dev_uuid d) (dev_pk d) in
  port_of addr <> 0 -> NEEDS_DEPLOY d = false -> SHOULD_EXIT d = false -> dev_uuid d <> [] -> dev_pk d <> [] -> 6 <= len (id d) ->
  Rendezvous.serial s <= get_serial (conf d) -> 0 <= up <= down -> down <= second -> accepts (mkEnv (t + up) 0 db g) s rk = true ->
  let '(x, out) := exchange t up down draw db g [RegisterPkIn rk] (mkSys l d s) in
  out = [] /\ fresh (id d) (t + down) x /\ exists q, peers (srv x) !! id d = Some q /\ pk q = dev_pk (dev x).
Proof.
  intros rk Hp0 Hn He Hu Hk Hl Hs Hup Hd Ha.
  destruct (register_accepted (mkEnv (t + up) 0 db g) s rk Hu Hk Hl Ha) as (s' & q & E & Hq & Q1 & Q2 & Q3 & Q4).
  unfold exchange, at_server. cbn [deliver srv loop dev handle_udp]. rewrite E. cbn [flat_map]. rewrite bool_decide_true by done. cbn [app deliver resp_of].
  pose proof (registered_fresh (t + down) draw l d s' (id d) q) as H. destruct (at_device _ _ _ _) as [x out]. cbn [app].
  destruct H as (-> & Hf & Hpk & Hsrv); try done.
  - by destruct (id d).
  - lia.
  - split; [by rewrite Q3|]. rewrite Q1. split; [done|apply same_ip_refl].
  - simpl in Q2. lia.
  - split; [done|]. split; [done|]. exists q. rewrite Hsrv, Hpk. done.
Qed.

(** The device has a key and an id to register and nothing keeps it from it. *)
Definition unregistered (x : Sys) : Prop :=
  confirmed (loop x) (dev x) = false /\ may_solve (loop x) (dev x) = true /\ NEEDS_DEPLOY (dev x) = false /\ SHOULD_EXIT (dev x) = false /\
  dev_uuid (dev x) <> [] /\ dev_pk (dev x) <> [] /\ Rendezvous.serial (srv x) <= get_serial (conf (dev x)).
Definition registration (d : Device) : RegisterPk := mkRegisterPk (id d) (dev_uuid d) (dev_pk d).

Lemma tick_registers t x : unregistered x -> due t (loop x) = true ->
  exists l d rb, on_tick t public (loop x) (dev x) = Some (l, d, [RegisterPkIn (registration (dev x))], rb) /\
    host l = host (loop x) /\ id d = id (dev x) /\ dev_uuid d = dev_uuid (dev x) /\ dev_pk d = dev_pk (dev x) /\
    NEEDS_DEPLOY d = false /\ SHOULD_EXIT d = false /\ SOLVING_PK_MISMATCH d = SOLVING_PK_MISMATCH (dev x) /\
    get_serial (conf d) = get_serial (conf (dev x)).
Proof.
  intros (U1 & U2 & U3 & U4 & _) Hd. destruct (on_tick_due t (loop x) (dev x) U4 U3 Hd) as (old & f & dns & c & rb & Hc & E).
  simpl in E. set (l' := mkLoop _ _ _ _ _ _ _ _ _ _) in E.
  assert (register_peer t l' (with_conf c (dev x)) = register_pk t (with_conf c (dev x))) as R.
  { unfold register_peer. change (may_solve l' (with_conf c (dev x))) with (may_solve (loop x) (dev x)).
    change (confirmed l' (with_conf c (dev x))) with (confirmed (loop x) (dev x)). by rewrite U1, U2. }
  rewrite R, register_pk_ready in E by done. do 3 eexists. split; [exact E|]. by split_and!.
Qed.

Lemma register_pk_serial e s rk : Rendezvous.serial (handle_register_pk show_ip e s rk addr).1 = Rendezvous.serial s.
Proof.
  unfold handle_register_pk. destruct (is_empty _ || is_empty _); [done|]. destruct (len _ <? 6); [done|].
  pose proof (blocker_serial e s (show_ip addr) (rk_id rk)) as F1. destruct (check_ip_blocker _ _ _ _) as [[] s1]; [|done]. simpl in F1 |- *.
  destruct (get_or_peer e s1 (rk_id rk)) as [_ F2]. destruct (get_or _ _ _) as [p s2]. simpl in F2.
  destruct (pk_status _ _ _) as [[changed ip_changed]|]; [|simpl; congruence]. destruct (reg_pk_next _ _) as [r|]; [|simpl; congruence].
  assert (Rendezvous.serial (set_reg_pk s2 (rk_id rk) r) = Rendezvous.serial s2) as F3 by (unfold set_reg_pk; by destruct (peers s2 !! rk_id rk)).
  simpl. destruct changed; rewrite ?update_pk_serial; destruct ip_changed; simpl; congruence.
Qed.

(** A contested id is given up for a drawn one, which is registered at once. *)
Lemma device_redraws now draw l d s : may_solve l d = true -> NEEDS_DEPLOY d = false ->
  exists l' d', at_device now draw (RespRegisterPk (Known UUID_MISMATCH) 0) (mkSys l d s) =
      (mkSys l' d' s, [RegisterPkIn (registration d')]) /\
    id d' = id (update_id draw d) /\ dev_uuid d' = dev_uuid d /\ dev_pk d' = dev_pk d /\ NEEDS_DEPLOY d' = false /\
    SHOULD_EXIT d' = SHOULD_EXIT d /\ get_serial (conf d') = get_serial (conf d).
Proof.
  intros Hm Hn. destruct (answered_spec now l d) as (old & ema & c & E & Hc).
  unfold at_device. cbn [handle_resp loop dev srv]. rewrite E. cbv beta iota zeta. change (0 <? 0) with false. cbv iota.
  unfold handle_uuid_mismatch. change (may_solve _ (with_conf c d)) with (may_solve l d). rewrite Hm.
  assert (exists k ks, set_key_confirmed false (with_conf c d) = with_confirmed k ks (with_conf c d)) as (k & ks & ->).
  { unfold set_key_confirmed. destruct (Bool.eqb _ _); [|by do 2 eexists]. exists (key_confirmed d), (keys_confirmed d). by destruct d. }
  rewrite register_pk_ready by done. 
  eexists _, (with_sent true (with_deploy false None (with_solving (host l) (update_id draw (with_confirmed k ks (with_conf c d)))))). split; [reflexivity|]. by split_and!.
Qed.

(** What both sides hold after a registration. *)
Definition registered_as (i : bytes) (a : Z) (x : Sys) : Prop :=
  fresh i a x /\ exists q, peers (srv x) !! i = Some q /\ pk q = dev_pk (dev x).

(** Registering succeeds: a device without a confirmed key, whose tick is
    due and whose datagrams are answered, ends the tick registered: the server
    holds the device's key under its id, at the address it wrote from, and the
    device knows.  When the server answers that the id is another machine's, the
    device draws another id, long enough to be taken, registers that one in the
    same exchange and ends registered under it. *)
Theorem registration_completes r x up down :
  let t := at_time r in
  let e1 := mkEnv (t + up) 0 (db_up r) (guid1 r) in
  let e2 := mkEnv (t + down + up) 0 (db_up r) (guid2 r) in
  let redrawn := update_id (drawn r) (dev x) in
  port_of addr <> 0 -> unregistered x -> due t (loop x) = true -> fate r = Answered up down -> 0 <= up <= down -> down <= second ->
  (6 <= len (id (dev x)) -> accepts e1 (srv x) (registration (dev x)) = true ->
   registered_as (id (dev x)) (t + down) (round r x)) /\
  (forall s1, handle_register_pk show_ip e1 (srv x) (registration (dev x)) addr = (s1, [ToUdp addr (RegisterPkResponse UUID_MISMATCH)]) ->
   accepts e2 s1 (registration redrawn) = true ->
   registered_as (id redrawn) (t + down + down) (round r x)).
Proof.
  intros t e1 e2 redrawn Hp0 U Hd Hf Hu Hdn. subst e1 e2. destruct (tick_registers t x U Hd) as (l & d & rb & E & D0 & D1 & D2 & D3 & D4 & D5 & D6 & D7).
  destruct U as (U1 & U2 & U3 & U4 & U5 & U6 & U7). unfold round. fold t. rewrite E, Hf.
  assert (registration (dev x) = registration d) as Er by (unfold registration; congruence). rewrite Er. split.
  - intros Hl Ha. pose proof (exchange_registers t up down (drawn r) (db_up r) (guid1 r) l d (srv x)) as X. cbv zeta in X. fold (registration d) in X.
    destruct (exchange _ _ _ _ _ _ _ _) as [x1 out]. destruct X as (-> & X1 & X2); try congruence || lia.
    cbn. by rewrite <- D1.
  - intros s1 Hs1 Ha. pose proof (register_pk_serial (mkEnv (t + up) 0 (db_up r) (guid1 r)) (srv x) (registration d)) as Hser. rewrite Hs1 in Hser. simpl in Hser.
    unfold exchange at 1, at_server. cbn [deliver srv loop dev handle_udp]. rewrite Hs1. cbn [flat_map]. rewrite bool_decide_true by done.
    cbn [app deliver resp_of]. destruct (device_redraws (t + down) (drawn r) l d s1) as (l' & d' & -> & R1 & R2 & R3 & R4 & R5 & R6).
    { unfold may_solve in *. by rewrite D0, D6. } { done. }
    assert (id d' = id redrawn) as Ei by (rewrite R1; done). cbn [app deliver].
    assert (registration d' = registration redrawn) as Er' by (unfold registration; simpl in *; congruence).
    pose proof (exchange_registers (t + down) up down (drawn r) (db_up r) (guid2 r) l' d' s1) as X. cbv zeta in X. fold (registration d') in X.
    destruct (exchange _ _ _ _ _ _ _ _) as [x1 out]. cbn [fst].
    destruct X as (_ & X1 & X2); try congruence || lia.
    + rewrite Ei. apply drawn_id_long.
    + by rewrite <- Ei.
Qed.
End System.

(** ** A device that is not deployed *)
Section Deploy.
Context {HI : HashIter}.

Inductive Event := Tick (t : Z) (public : bool) | Answer (t draw : Z) (r : Resp).
Definition time_of (ev : Event) : Z := match ev with Tick t _ => t | Answer t _ _ => t end.
(** One turn of the loop of [start_udp]. *)
Definition event (ev : Event) (x : Loop * Device) : Loop * Device * list MsgIn :=
  match ev with
  | Tick t public =>
      match on_tick t public x.1 x.2 with
      | Some (l, d, out, _) => (l, d, out)
      | None => (x, [])
      end
  | Answer t draw r => handle_resp (answered t) t draw r x.1 x.2
  end.
(** What is sent, with the time. *)
Fixpoint sent_log (evs : list Event) (x : Loop * Device) : list (Z * MsgIn) :=
  match evs with
  | [] => []
  | ev :: evs =>
      let '(l, d, out) := event ev x in
      List.map (fun m => (time_of ev, m)) out ++ sent_log evs (l, d)
  end.

Definition not_ok (ev : Event) : Prop := match ev with Answer _ _ (RespRegisterPk (Known OK) _) => False | _ => True end.
(** Only registrations of the key, half a minute apart. *)
Fixpoint spaced (last : option Z) (log : list (Z * MsgIn)) : Prop :=
  match log with
  | [] => True
  | (t, m) :: log =>
      (exists rk, m = RegisterPkIn rk) /\ (forall u, last = Some u -> DEPLOY_RETRY_INTERVAL <= millis (t - u)) /\ spaced (Some t) log
  end.

Definition undeployed (x : Loop * Device) : Prop := NEEDS_DEPLOY x.2 = true /\ key_confirmed x.2 = false.

(** What one step may send to a server that refuses the device. *)
Definition polite (t : Z) (d d' : Device) (out : list MsgIn) : Prop :=
  (out = [] /\ LAST_NOT_DEPLOYED_REGISTER d' = LAST_NOT_DEPLOYED_REGISTER d) \/
  (exists rk, out = [RegisterPkIn rk] /\ LAST_NOT_DEPLOYED_REGISTER d' = Some t /\
     forall u, LAST_NOT_DEPLOYED_REGISTER d = Some u -> DEPLOY_RETRY_INTERVAL <= millis (t - u)).

Lemma register_pk_polite t l d : undeployed (l, d) ->
  undeployed (l, (register_pk t d).1) /\ polite t d (register_pk t d).1 (register_pk t d).2.
Proof.
  intros [H1 H2]. simpl in *. unfold register_pk. rewrite H1. destruct (LAST_NOT_DEPLOYED_REGISTER d) as [u|] eqn:E.
  - destruct (millis (t - u) <? DEPLOY_RETRY_INTERVAL) eqn:B; [split; [done|by left]|]. apply Z.ltb_ge in B.
    split; [done|]. right. eexists. split; [done|]. split; [done|]. intros u' Hu. rewrite E in Hu. by injection Hu as <-.
  - split; [done|]. right. eexists. split; [done|]. split; [done|]. congruence.
Qed.

Lemma polite_same t d0 d d' out : LAST_NOT_DEPLOYED_REGISTER d = LAST_NOT_DEPLOYED_REGISTER d0 -> polite t d d' out -> polite t d0 d' out.
Proof. unfold polite. by intros ->. Qed.

Lemma tick_polite t public l d : undeployed (l, d) ->
  match on_tick t public l d with
  | Some (l', d', out, _) => undeployed (l', d') /\ polite t d d' out
  | None => True
  end.
Proof.
  intros Hd. unfold on_tick. destruct (SHOULD_EXIT d); [done|]. destruct (deploy_register_throttled t d); [split; [done|by left]|].
  cbv zeta. match goal with |- context [with_reg _ _ ?reg (fails l) l] => set (l1 := with_reg _ _ reg (fails l) l) end.
  destruct (_ || _); [|split; [done|by left]].
  match goal with |- context [if ?b then note_timeout t l1 d else _] => set (tm := b) end.
  assert (exists l2 c rb, (if tm then note_timeout t l1 d else (l1, d, false)) = (l2, with_conf c d, rb)) as (l2 & c & rb & ->).
  { destruct tm; [destruct (note_timeout_spec t l1 d) as (? & ? & ? & c & rb & -> & _); eauto|]. exists l1, (conf d), false. by destruct d. }
  unfold register_peer. destruct (may_solve l2 _); simpl negb; cbv iota; [|split; [done|by left]].
  assert (confirmed l2 (with_conf c d) = false) as -> by (unfold confirmed; simpl; destruct Hd as [_ H]; simpl in H; by rewrite H).
  simpl negb. cbv iota. destruct (register_pk_polite t l2 (with_conf c d)) as [P1 P2]; [done|].
  destruct (register_pk t (with_conf c d)) as [d' out]. simpl in *. split; [done|]. by apply (polite_same t d (with_conf c d)).
Qed.

Lemma set_key_false d : exists ks, set_key_confirmed false d = with_confirmed false ks d.
Proof.
  unfold set_key_confirmed. destruct (key_confirmed d) eqn:K; simpl; [by eexists|]. exists (keys_confirmed d). destruct d. simpl in K. by subst.
Qed.
Lemma set_host_false h d : exists ks, set_host_key_confirmed h false d = with_confirmed (key_confirmed d) ks d.
Proof.
  unfold set_host_key_confirmed. destruct (Bool.eqb _ _); [exists (keys_confirmed d); by destruct d|by eexists].
Qed.

Lemma answer_polite t draw r l d : undeployed (l, d) -> not_ok (Answer t draw r) ->
  let '(l', d', out) := handle_resp (answered t) t draw r l d in undeployed (l', d') /\ polite t d d' out.
Proof.
  intros Hd Hr. destruct (answered_spec t l d) as (old & ema & c & E & _). destruct r as [pk|r keep|ser servers|]; cbn [handle_resp]; rewrite ?E.
  - destruct pk; [|split; [done|by left]]. destruct (register_pk_polite t l (with_conf c d)) as [P1 P2]; [done|].
    destruct (register_pk t (with_conf c d)) as [d' out]. split; [exact P1|]. by apply (polite_same t d (with_conf c d)).
  - destruct r as [[]| |]; try done; try (split; [done|by left]).
    + unfold handle_uuid_mismatch. destruct (may_solve _ _); [|split; [done|by left]].
      destruct (set_key_false (with_conf c d)) as [ks ->].
      match goal with |- context [register_pk t ?x] => set (d1 := x) end.
      destruct (register_pk_polite t l d1) as [P1 P2]; [split; [apply Hd|done]|]. destruct (register_pk t d1) as [d' out].
      split; [exact P1|]. by apply (polite_same t d d1).
    + match goal with |- context [set_key_confirmed false ?x] => destruct (set_key_false x) as [ks ->] end.
      match goal with |- context [set_host_key_confirmed ?h false ?x] => destruct (set_host_false h x) as [ks' ->] end.
      split; [by split|by left].
  - unfold configure_update. destruct (bool_decide _); (split; [done|by left]).
  - split; [done|by left].
Qed.

Lemma event_polite ev x : undeployed x -> not_ok ev ->
  let '(l, d, out) := event ev x in undeployed (l, d) /\ polite (time_of ev) x.2 d out.
Proof.
  intros Hd Hev. destruct x as [l d]. destruct ev as [t public|t draw r].
  - pose proof (tick_polite t public l d Hd) as H. simpl. destruct (on_tick t public l d) as [[[[l' d'] out] rb]|]; [done|]. split; [done|by left].
  - apply (answer_polite t draw r l d Hd Hev).
Qed.

Lemma undeployed_spaced evs : forall x, undeployed x -> Forall not_ok evs -> spaced (LAST_NOT_DEPLOYED_REGISTER x.2) (sent_log evs x).
Proof.
  induction evs as [|ev evs IH]; intros x Hx; [done|]. rewrite Forall_cons. intros [Hev H]. simpl.
  pose proof (event_polite ev x Hx Hev) as P. destruct (event ev x) as [[l d] out]. destruct P as [Hd [[-> E]|(rk & -> & E & Hs)]]; simpl.
  - rewrite <- E. by apply (IH (l, d)).
  - split; [by eexists|]. split; [done|]. rewrite <- E. by apply (IH (l, d)).
Qed.

(** [C32] A refused device is quiet: when the server answers that the device is
    not deployed, then, whatever ticks and answers follow, and until the server
    accepts it, the device sends nothing but the registration of its key, at
    least thirty seconds apart (also when asked for the key, or told that its id
    is another machine's). *)
Theorem undeployed_backs_off t draw keep l d evs :
  let '(l1, d1, _) := handle_resp (answered t) t draw (RespRegisterPk NOT_DEPLOYED keep) l d in
  Forall not_ok evs -> spaced (LAST_NOT_DEPLOYED_REGISTER d) (sent_log evs (l1, d1)).
Proof.
  destruct (answered_spec t l d) as (old & ema & c & E & _). cbn [handle_resp]. rewrite E.
  match goal with |- context [set_key_confirmed false ?x] => destruct (set_key_false x) as [ks ->] end.
  match goal with |- context [set_host_key_confirmed ?h false ?x] => destruct (set_host_false h x) as [ks' ->] end.
  intros H. match goal with |- context [sent_log evs ?x] => apply (undeployed_spaced evs x) end; done.
Qed.

(** The smoothed latency stays within a second, in microseconds. *)
Lemma latency_bounded t l d : 0 <= ema_latency l <= 1000000 -> 0 <= ema_latency (answered t l d).1 <= 1000000.
Proof.
  intros H. unfold answered. cbn [ema_latency with_reg with_latency]. set (lat := match last_register_sent l with Some u => _ | None => _ end).
  destruct ((lat <? 0) || (1000000 <? lat)) eqn:B; [done|]. apply orb_false_iff in B as [B1 B2]. apply Z.ltb_ge in B1, B2.
  assert (0 <= (if ema_latency l =? 0 then (lat, lat) else let ema := Z.quot lat 30 + Z.quot (ema_latency l * 29) 30 in (ema, ema)).1 <= 1000000) as He.
  { destruct (ema_latency l =? 0); simpl; [lia|]. rewrite !Z.quot_div_nonneg by lia.
    pose proof (Z.div_mod lat 30 ltac:(lia)). pose proof (Z.mod_pos_bound lat 30 ltac:(lia)).
    pose proof (Z.div_mod (ema_latency l * 29) 30 ltac:(lia)). pose proof (Z.mod_pos_bound (ema_latency l * 29) 30 ltac:(lia)). lia. }
  destruct (if ema_latency l =? 0 then _ else _) as [ema lat']. simpl in He. by destruct (_ || _).
Qed.
End Deploy.

(** ** A device at work *)
#[local] Existing Instance Toy.sign_.
#[local] Instance hash_iter0 : HashIter := map_to_list.
Definition store0 : Store := mkStore (Authentication.mkSettings ∅ ∅ ∅) [] 0 0 [] None ∅ ∅ [] [] [] ∅.
Definition device0 : Device :=
  mkDevice false ∅ (str "123456789") [Byte.x41] [Byte.x42] store0 false None [] false false.
Definition sys0 : Sys := mkSys (start_udp 0 (str "hbbs.example.org")) device0 (mkServer ∅ [] ∅ ∅ ∅ [] 0 false 0 [] [] None [] None [] [] []).
Definition clock (n : Z) : Z := (9000 + n) * second.
Definition round0 (t : Z) (f : Fate) : Round := mkRound (clock t) f true [Byte.x01] [Byte.x02] 7.
(** Answered in a quarter of a second. *)
Definition quick : Fate := Answered (second / 8) (second / 4).
Definition tick0 : Round := round0 1000 quick.

Lemma registration_completes_witness :
  registered_as addr0 (id (dev sys0)) (at_time tick0 + second / 4) (round show_ip0 (fun _ => true) write_idpk0 addr0 false tick0 sys0).
Proof.
  refine (proj1 (registration_completes show_ip0 (fun _ => true) write_idpk0 addr0 false tick0 sys0 (second / 8) (second / 4) _ _ _ _ _ _) _ _);
    [discriminate|..].
  - split_and!; vm_compute; congruence.
  - vm_compute. reflexivity.
  - reflexivity.
  - split; vm_compute; congruence.
  - vm_compute. congruence.
  - vm_compute. congruence.
  - vm_compute. reflexivity.
Defined.

(** The same device, whose id another machine has. *)
Definition contested : Sys :=
  mkSys (loop sys0) device0
    (mkServer ∅ [mkRow [Byte.x09] (str "123456789") [Byte.x99] [Byte.x98] []] ∅ ∅ ∅ [] 0 false 0 [] [] None [] None [] [] []).
Example contested_registers :
  let x := round show_ip0 (fun _ => true) write_idpk0 addr0 false tick0 contested in
  id (dev x) = str "1000000007" /\ (pk <$> peers (srv x) !! str "1000000007") = Some [Byte.x42] /\
  (row_pk <$> registered (srv x) (str "123456789")) = Some [Byte.x98].
Proof. vm_compute. done. Qed.

(** Ticks a second apart; the three registrations of the first 24 are lost, the
    fourth arrives. *)
Definition lost_ticks : list Round := (fun n => round0 (1001 + Z.of_nat n) Lost) <$> seq 0 24.
Definition arriving : Round := round0 1025 quick.
Definition registered0 : Sys := round show_ip0 (fun _ => true) write_idpk0 addr0 false tick0 sys0.
Example three_lost :
  filter (fun n => sends false (default arriving (lost_ticks !! n))
    (rounds show_ip0 (fun _ => true) write_idpk0 addr0 false (take n lost_ticks) registered0) = true) (seq 0 25) = [15; 18; 21; 24]%nat.
Proof. vm_compute. reflexivity. Qed.

Lemma online_despite_losses_witness :
  online (mkEnv (at_time arriving) 0 true []) (srv (rounds show_ip0 (fun _ => true) write_idpk0 addr0 false (lost_ticks ++ [arriving]) registered0))
    (str "123456789") = true.
Proof.
  refine (proj2 (online_despite_losses show_ip0 (fun _ => true) write_idpk0 addr0 false (str "123456789") (at_time tick0 + second / 4)
    (lost_ticks ++ [arriving]) registered0 _ _ _) lost_ticks arriving [] eq_refl (mkEnv (at_time arriving) 0 true []) _).
  - discriminate.
  - split; [split_and!; vm_compute; congruence|]. split_and!; [vm_compute; reflexivity..|].
    eexists. split; [vm_compute; reflexivity|]. vm_compute. split_and!; congruence.
  - apply tolerableb_sound. vm_compute. reflexivity.
  - vm_compute. split; congruence.
Defined.

(** After the server restarted, the registered device is asked for its key and
    told it is registered, yet stays offline until it refreshes once more. *)
Definition restart (x : Sys) : Sys :=
  mkSys (loop x) (dev x) (with_peers (srv x) ∅).
Example restart_needs_two_rounds :
  let x1 := rounds show_ip0 (fun _ => true) write_idpk0 addr0 false [round0 1016 quick] (restart registered0) in
  let x2 := rounds show_ip0 (fun _ => true) write_idpk0 addr0 false [round0 1032 quick] x1 in
  confirmed (loop x1) (dev x1) = true /\
  online (mkEnv (clock 1017) 0 true []) (srv x1) (str "123456789") = false /\
  online (mkEnv (clock 1033) 0 true []) (srv x2) (str "123456789") = true.
Proof. vm_compute. done. Qed.

Lemma undeployed_backs_off_witness :
  let l := start_udp 0 (str "hbbs.example.org") in
  let evs := [Tick (20 * second) false; Tick (23 * second) false; Answer (24 * second) 7 (RespRegisterPk (Known UUID_MISMATCH) 0);
              Answer (25 * second) 7 (RespRegisterPeer true); Tick (55 * second) false] in
  let '(l1, d1, _) := handle_resp (answered second) second 0 (RespRegisterPk NOT_DEPLOYED 0) l device0 in
  fst <$> sent_log evs (l1, d1) = [20 * second; 55 * second] /\ spaced None (sent_log evs (l1, d1)).
Proof.
  split; [vm_compute; reflexivity|].
  apply (undeployed_backs_off second 0 0 (start_udp 0 (str "hbbs.example.org")) device0
    [Tick (20 * second) false; Tick (23 * second) false; Answer (24 * second) 7 (RespRegisterPk (Known UUID_MISMATCH) 0);
     Answer (25 * second) 7 (RespRegisterPeer true); Tick (55 * second) false]).
  by repeat constructor.
Defined.
