(* ===== verification/Connect.v ===== *)
(** * How a viewer reaches a device ([src/client.rs], [src/server.rs])

    The viewer asks the rendezvous server for the device, tries the address it
    is given, and falls back to a relay; or the device itself answers with a
    relay.  The network's part (what arrives, which attempt connects) is an
    argument.  The second half puts viewer, rendezvous server, device and relay
    together. *)
From S2P Require Import Prelude.
From S2P Require Import Crypto.
From S2P Require Import Encoding.
From S2P Require Import AddrMangle.
From S2P Require Import Version.
From S2P Require Import HostPort.
From S2P Require Import Options.
From S2P Require Import Rendezvous.
From S2P Require Import Mediator.
From S2P Require Import Relay.

Definition CONNECT_TIMEOUT : Z := 18000.
Definition MIN : Z := 1000.
Definition RELAY_PORT : Z := 21117.
Definition UNKNOWN_NAT : Z := 0.
Definition ASYMMETRIC : Z := 1.

(** ** Asking for the device *)

(** What a viewer reads of the server's answers, beyond what the server of this
    repository sets. *)
Record PunchAnswer := mkPunchAnswer {
  pa : PunchHoleResponse;
  pa_other_failure : bytes;
  pa_known_failure : bool;
  pa_overuse : bool;
  pa_is_udp : bool;
  pa_socket_addr_v6 : bytes
}.
Inductive Answer :=
| APunch (a : PunchAnswer)
| ARelay (rr : RelayResponse) (socket_addr_v6 : bytes)
| AOther.

Inductive ConnectError :=
| OtherFailure (reason : bytes)
| IdNotExist
| Offline
| KeyMismatch
| KeyOveruse
| OtherPunchFailure
| FailedRendezvous
| FailedDirect
| FailedRelay (reason : bytes).

Inductive Punch :=
| Punched (a : PunchAnswer)
| Relayed (rr : RelayResponse) (socket_addr_v6 : bytes)
| Silence
| Bail (e : ConnectError).

(** Why there is no address; [pa_known_failure] is whether the number is one of
    the enumeration, [pa_overuse] the member only other servers send. *)
Definition failure_of (a : PunchAnswer) : ConnectError :=
  if bool_decide (pa_other_failure a <> []) then OtherFailure (pa_other_failure a)
  else if negb (pa_known_failure a) then OtherPunchFailure
  else if pa_overuse a then KeyOveruse
  else match phr_failure (pa a) with
       | ID_NOT_EXIST => IdNotExist
       | OFFLINE => Offline
       | LICENSE_MISMATCH => KeyMismatch
       end.

(** The request is sent up to three times; each time something may arrive. *)
Fixpoint punch_attempts (attempts : list (option Answer)) : Punch :=
  match attempts with
  | [] => Silence
  | Some (APunch a) :: _ => if bool_decide (phr_socket_addr (pa a) = []) then Bail (failure_of a) else Punched a
  | Some (ARelay rr v6) :: _ => Relayed rr v6
  | _ :: l => punch_attempts l
  end.
Definition punch (attempts : list (option Answer)) : Punch := punch_attempts (take 3 attempts).

Definition my_nat (force_relay : bool) (my_nat_type : Z) : Z :=
  if force_relay then SYMMETRIC else nat_type_of my_nat_type.

(** ** Trying the address *)
(** [my_nat_type2] is what a second look at the own NAT gives. *)
Definition connect_timeout (is_local : bool) (peer_nat_type my_nat_type my_nat_type2 : Z) (relay_server : bytes)
  (direct_failures punch_time_used : Z) : Z :=
  if is_local || (peer_nat_type =? SYMMETRIC) then MIN
  else
    let t :=
      if bool_decide (relay_server = []) then CONNECT_TIMEOUT
      else
        let mine := if my_nat_type =? UNKNOWN_NAT then my_nat_type2 else my_nat_type in
        let t :=
          if peer_nat_type =? ASYMMETRIC then
            if mine =? ASYMMETRIC then if 0 <? direct_failures then u64_of (punch_time_used * 6) else CONNECT_TIMEOUT
            else if mine =? SYMMETRIC then MIN
            else 0
          else 0 in
        if t =? 0 then u64_of (punch_time_used * (if 0 <? direct_failures then 3 else 6)) else t in
    if t <? MIN then MIN else t.

(** The first attempt of a race that succeeds. *)
Inductive Via := TCP | UDP | IPv6 | RelayVia | WebSocket.

(** *** Asking for a relay: three times, with a new uuid and socket each *)
Inductive RelayReply :=
| NoSocket (reason : bytes)
| Replied (refuse_reason : bytes)
| NoReply.
Inductive RelayOutcome := RelayUuid (uuid : bytes) | RelayFailed (reason : bytes).
Fixpoint relay_attempts (l : list (bytes * RelayReply)) : RelayOutcome :=
  match l with
  | [] => RelayFailed (str "Timeout")
  | (uuid, r) :: l =>
      match r with
      | NoSocket e => RelayFailed e
      | Replied e => if bool_decide (e = []) then RelayUuid uuid else RelayFailed e
      | NoReply => relay_attempts l
      end
  end.
Definition request_relay (l : list (bytes * RelayReply)) : RelayOutcome := relay_attempts (take 3 l).

(** What the viewer asks of the relay, and where: [create_relay]. *)
Definition create_relay (relay_server uuid key : bytes) : bytes * Pair.RequestRelay :=
  (check_port relay_server RELAY_PORT, Pair.mkRequestRelay uuid key).
(** The same on the device: [create_relay_connection_]. *)
Definition create_relay_connection (relay_server uuid key : bytes) : bytes * Pair.RequestRelay :=
  (check_port relay_server RELAY_PORT, Pair.mkRequestRelay uuid key).

(** The handler of a session: the failures it remembers for the peer, and the
    flag that error reports use. *)
Record Lch := mkLch { direct_failures : Z; lch_direct : option bool; lch_received : bool }.

Inductive Outcome := Connected (via : Via) (direct : bool) (pk : option bytes) | Failed (e : ConnectError) | SecureFailed.

(** [direct] is the first of the racing attempts that succeeded, [relay] what
    the requests for a relay came to, [secured] how the handshake ended. *)
Definition connect (direct : option Via) (force_relay : bool) (relay_server : bytes) (relay : list (bytes * RelayReply))
  (relay_conn : bool) (secured : option (option bytes)) (h : Lch) : Outcome * Lch :=
  let finish via is_direct :=
    match secured with
    | Some pk => (Connected via is_direct pk, h)
    | None => (SecureFailed, mkLch (direct_failures h) (Some is_direct) (lch_received h))
    end in
  match direct, force_relay with
  | Some via, false => finish via true
  | _, _ =>
      if bool_decide (relay_server = []) then (Failed FailedDirect, h)
      else match request_relay relay with
           | RelayUuid _ =>
               if relay_conn then finish RelayVia false
               else (Failed (FailedRelay (str "Failed to connect to relay server")), mkLch (direct_failures h) (Some false) (lch_received h))
           | RelayFailed e => (Failed (FailedRelay e), mkLch (direct_failures h) (Some false) (lch_received h))
           end
  end.

(** What the network does in one run of [_start_inner]. *)
Record Trial := mkTrial {
  tr_attempts : list (option Answer);
  tr_direct : option Via;
  tr_relays : list (bytes * RelayReply);
  tr_relay_conn : bool;
  tr_relay_race : option Via;
  tr_secured : option (option bytes)
}.

(** The flag says whether the session came about in [connect]. *)
Definition start_inner (x : Trial) (force_relay : bool) (h : Lch) : Outcome * bool * Lch :=
  match punch (tr_attempts x) with
  | Bail e => (Failed e, false, h)
  | Silence => (Failed FailedRendezvous, false, h)
  | Relayed rr _ =>
      match tr_relay_race x with
      | None => (Failed (FailedRelay (str "Failed to connect to relay server")), false, h)
      | Some via =>
          match tr_secured x with
          | Some pk => (Connected via (match via with IPv6 => true | _ => false end) pk, false, h)
          | None => (SecureFailed, false, h)
          end
      end
  | Punched a =>
      if port_of (AddrMangle.decode (phr_socket_addr (pa a))) =? 0 then (Failed FailedRendezvous, false, h)
      else
        let '(o, h) := connect (tr_direct x) force_relay (phr_relay_server (pa a)) (tr_relays x) (tr_relay_conn x) (tr_secured x) h in
        (o, true, h)
  end.

(** [start] around it: whether the address worked is remembered for the peer. *)
Definition start (x : Trial) (force_relay : bool) (h : Lch) : Outcome * Lch :=
  let '(o, by_connect, h) := start_inner x force_relay (mkLch (direct_failures h) None false) in
  match o with
  | Connected _ direct _ =>
      if by_connect && negb force_relay && xorb (direct_failures h =? 0) direct then
        (o, mkLch (if direct then 0 else 1) (lch_direct h) (lch_received h))
      else (o, h)
  | _ => (o, h)
  end.

(** ** Facts *)
Lemma connect_timeout_min il pn mn mn2 rs df pt : MIN <= connect_timeout il pn mn mn2 rs df pt.
Proof. unfold connect_timeout. destruct (_ || _); [done|]. cbv zeta. destruct (_ <? MIN) eqn:E; lia. Qed.

(** After a session that came about by its address or by the relay asked for in
    its stead, the remembered failures tell which; sessions that a device relays
    of itself leave them alone. *)
Lemma failures_remembered x h via direct pk h' : start x false h = (Connected via direct pk, h') ->
  (direct_failures h' =? 0) = direct \/ direct_failures h' = direct_failures h.
Proof.
  unfold start. destruct (start_inner x false _) as [[o b] h1] eqn:E. destruct o as [v d p| |]; [|by intros [=]..].
  destruct b; simpl.
  - destruct (xorb _ d) eqn:X; intros [= <- <- <- <-]; simpl; [left; by destruct d|left].
    by destruct (direct_failures h1 =? 0), d.
  - intros [= <- <- <- <-]. right. unfold start_inner in E. by repeat case_match; simplify_eq.
Qed.

(** A forced relay never ends in a direct session. *)
Lemma forced_is_relayed x h via direct pk h' : start x true h = (Connected via direct pk, h') -> direct = true ->
  exists rr v6, punch (tr_attempts x) = Relayed rr v6 /\ via = IPv6.
Proof.
  unfold start. destruct (start_inner x true _) as [[o b] h1] eqn:E. destruct o as [v d p| |]; [|by intros [=]..].
  rewrite andb_false_r. simpl. intros [= <- <- <- <-] ->. unfold start_inner in E. destruct (punch _) as [a|rr v6| |e] eqn:Ep.
  - destruct (_ =? 0); [by simplify_eq|]. unfold connect in E. repeat case_match; simplify_eq.
  - exists rr, v6. split; [done|]. repeat case_match; simplify_eq; done.
  - by simplify_eq.
  - by simplify_eq.
Qed.

(** ** Meeting at the relay *)

(** What the device does about a message that announces a viewer. *)
Definition device_plan (now : Z) (n : Net) (host my_id version : bytes) (intranet_ok : bool) (last : LastMsg) (m : MsgOut) : Plan :=
  match m with
  | PunchHole a nat relay => (handle_punch_hole now n host my_id version (mkPunchHoleMsg a relay nat 0 false []) last).1
  | FetchLocalAddr a relay => (handle_intranet now n host a relay [] intranet_ok last).1
  | _ => Duplicate
  end.
(** [create_relay] of the device towards the rendezvous server. *)
Definition relay_response (my_id version socket_addr relay_server uuid : bytes) (initiate : bool) : RelayResponse :=
  mkRelayResponse socket_addr (if initiate then uuid else []) (if initiate then relay_server else [])
    (if initiate then my_id else []) [] version.

Lemma plan_relays now n host my_id version ok last m a peer sa rs u secure initiate v6 :
  carried_addr m = Some a ->
  device_plan now n host my_id version ok last m = CreateRelay peer sa rs u secure initiate v6 ->
  peer = AddrMangle.decode a /\ sa = a /\ u = fresh_uuid n /\ secure = true /\ initiate = true.
Proof.
  destruct m; simpl; try done; intros [= ->]; unfold handle_punch_hole, handle_intranet; cbn [pm_socket_addr pm_udp_port];
    repeat case_match; simpl; intros E; try discriminate; by injection E as <- <- <- <- <- <- <-.
Qed.

(** A relay pairs two connections that come one after the other with the same
    uuid. *)
Section Pairing.
Context (show_ip show_addr : SocketAddr -> bytes) (key : bytes).
Lemma looked_up (s : Pair.State) c a r u k : u <> [] -> key = [] \/ k = key -> Pair.is_loopback a = false ->
  show_ip (try_into_v4 a) ∉ Pair.BLOCKLIST s ->
  Pair.handle_connection show_ip show_addr key s c a r false (Some (Pair.mkRequestRelay u k)) =
  let s' := Pair.with_peers s (delete u (Pair.PEERS s)) in
  match Pair.PEERS s !! u with
  | Some (p, ws) => Pair.with_task (Pair.with_usage s' ({[show_addr a]} ∪ Pair.USAGE s')) c (Pair.Relaying p u (negb ws) (show_addr a))
  | None => Pair.with_task s' c (Pair.Looked u false)
  end.
Proof.
  intros Hu Hk Hl Hb. unfold Pair.handle_connection. rewrite Hl. simpl. rewrite bool_decide_false by done.
  unfold Pair.make_pair, Pair.make_pair_. simpl.
  assert (negb (bool_decide (key = [])) && negb (bool_decide (k = key)) = false) as ->.
  { destruct Hk as [->| ->]; [done|]. by rewrite (bool_decide_true (key = key)), andb_false_r. }
  rewrite (bool_decide_false (u = [])) by done. by destruct (Pair.PEERS s !! u) as [[p ws]|].
Qed.

(** What other connections do at the relay while two wait for each other with
    the uuid [u]: none of them asks for [u]. *)
Definition elsewhere (u : bytes) (c1 c2 : Z) (a : Pair.Action) : Prop :=
  match a with
  | Pair.Arrive c _ _ _ rf => c <> c1 /\ c <> c2 /\ forall x, rf = Some x -> Pair.uuid x <> u
  | Pair.Insert c | Pair.Wake c | Pair.Finish c => c <> c1 /\ c <> c2
  end.
(** No task but [c1] holds [u]. *)
Definition unclaimed (u : bytes) (c1 : Z) (s : Pair.State) : Prop :=
  forall c, c <> c1 -> Pair.tasks s !! c <> Some (Pair.Sleeping u) /\ forall ws, Pair.tasks s !! c <> Some (Pair.Looked u ws).
Definition undisturbed (u : bytes) (c1 c2 : Z) (s s' : Pair.State) : Prop :=
  Pair.PEERS s' !! u = Pair.PEERS s !! u /\ Pair.tasks s' !! c1 = Pair.tasks s !! c1 /\ Pair.tasks s' !! c2 = Pair.tasks s !! c2 /\
  Pair.BLOCKLIST s' = Pair.BLOCKLIST s.

Lemma unclaimed_task u c1 s p us b c t : unclaimed u c1 s -> t <> Pair.Sleeping u -> (forall ws, t <> Pair.Looked u ws) ->
  unclaimed u c1 (Pair.mkState p us b (<[c := t]> (Pair.tasks s))).
Proof. intros H H1 H2 c' Hc. simpl. rewrite lookup_insert. case_decide; [split; [congruence|intros ws; specialize (H2 ws); congruence]|by apply H]. Qed.

Lemma elsewhere_act u c1 c2 s a s' : unclaimed u c1 s -> elsewhere u c1 c2 a -> Pair.act show_ip show_addr key s a = Some s' ->
  unclaimed u c1 s' /\ undisturbed u c1 c2 s s'.
Proof.
  intros H He Ha. destruct a as [c addr real ws rf|c|c|c]; simpl in He, Ha;
    destruct (Pair.tasks s !! c) as [t|] eqn:T; try done; [|destruct t as [v w|v|p v r id|]; try done..].
  - destruct He as (N1 & N2 & Hrf). injection Ha as <-. unfold Pair.handle_connection, Pair.make_pair, Pair.make_pair_.
    repeat case_match; simplify_eq; (split; [apply unclaimed_task; [done|..]; try done; intros ? [= E' _]; by apply (Hrf _ eq_refl)|]);
      unfold undisturbed; simpl; rewrite ?lookup_insert_ne by done; try done; by rewrite lookup_delete_ne by by apply (Hrf _ eq_refl).
  - destruct He as [N1 N2], (H c N1) as [_ Hl]. injection Ha as <-. assert (v <> u) as Hv by (intros ->; by apply (Hl w)).
    split; [apply unclaimed_task; [done|congruence|done]|]. unfold undisturbed. simpl. by rewrite !lookup_insert_ne by done.
  - destruct He as [N1 N2], (H c N1) as [Hl _]. injection Ha as <-. assert (v <> u) as Hv by congruence.
    split; [by apply unclaimed_task|]. unfold undisturbed. simpl. by rewrite lookup_delete_ne, !lookup_insert_ne by done.
  - destruct He as [N1 N2]. injection Ha as <-. split; [by apply unclaimed_task|].
    unfold undisturbed. simpl. by rewrite !lookup_insert_ne by done.
Qed.

Lemma elsewhere_run u c1 c2 acts : forall s s', unclaimed u c1 s -> Forall (elsewhere u c1 c2) acts ->
  Pair.run show_ip show_addr key acts s = Some s' -> unclaimed u c1 s' /\ undisturbed u c1 c2 s s'.
Proof.
  induction acts as [|a acts IH]; intros s s' H Hf Hr; simpl in Hr; [by injection Hr as <-|]. inversion Hf; subst.
  destruct (Pair.act _ _ _ s a) as [s1|] eqn:A; [|done]. edestruct elsewhere_act as [G1 (E1 & E2 & E3 & E4)]; [done|done|exact A|].
  destruct (IH s1 s') as [G2 (F1 & F2 & F3 & F4)]; [done..|]. split; [done|]. unfold undisturbed. by rewrite F1, F2, F3, F4.
Qed.

(** The second comes while the first waits, others coming and going. *)
Lemma one_after_the_other s c1 c2 a1 a2 r1 r2 u k1 k2 : u <> [] -> c1 <> c2 ->
  key = [] \/ k1 = key -> key = [] \/ k2 = key -> Pair.is_loopback a1 = false -> Pair.is_loopback a2 = false ->
  show_ip (try_into_v4 a1) ∉ Pair.BLOCKLIST s -> show_ip (try_into_v4 a2) ∉ Pair.BLOCKLIST s ->
  Pair.PEERS s !! u = None -> unclaimed u c1 s -> Pair.tasks s !! c1 = None -> Pair.tasks s !! c2 = None ->
  forall mid1 s1, Forall (elsewhere u c1 c2) mid1 ->
    Pair.run show_ip show_addr key (Pair.Arrive c1 a1 r1 false (Some (Pair.mkRequestRelay u k1)) :: mid1) s = Some s1 ->
  exists s2, Pair.act show_ip show_addr key s1 (Pair.Insert c1) = Some s2 /\
  forall mid2 s3, Forall (elsewhere u c1 c2) mid2 -> Pair.run show_ip show_addr key mid2 s2 = Some s3 ->
  exists s4 id, Pair.act show_ip show_addr key s3 (Pair.Arrive c2 a2 r2 false (Some (Pair.mkRequestRelay u k2))) = Some s4 /\
    Pair.tasks s4 !! c2 = Some (Pair.Relaying c1 u true id).
Proof.
  intros Hu Hc K1 K2 L1 L2 B1 B2 Hp Hn T1 T2 mid1 s1 M1. cbn [Pair.run Pair.act]. rewrite T1, looked_up by done. cbv zeta. rewrite Hp.
  set (s0 := Pair.with_task _ _ _). intros R1. destruct (elsewhere_run u c1 c2 mid1 s0 s1) as [N1 (E1 & E2 & E3 & E4)]; [|done..|].
  { intros c Hne. simpl. rewrite lookup_insert_ne by done. by apply Hn. }
  rewrite E2. unfold s0 at 1. simpl. rewrite lookup_insert_eq. eexists. split; [done|]. intros mid2 s3 M2 R2.
  apply elsewhere_run with (c1 := c1) (c2 := c2) (u := u) in R2 as [_ (F1 & F2 & F3 & F4)]; [|by intros c Hne; simpl; rewrite lookup_insert_ne by done; apply N1|done].
  simpl in F1, F3, F4. rewrite lookup_insert_eq in F1. rewrite lookup_insert_ne, E3 in F3 by done.
  unfold s0 in F3. simpl in F3. rewrite lookup_insert_ne, T2 in F3 by done.
  rewrite F3, looked_up; [|done..|by rewrite F4, E4]. cbv zeta. rewrite F1. do 2 eexists. split; [done|]. simpl. by rewrite lookup_insert_eq.
Qed.
End Pairing.

Section Meeting.
Context (show_ip : SocketAddr -> bytes) (valid_server : bytes -> bool) (write_idpk : bytes -> bytes -> bytes) {SG : Sign} {SGL : SignLaws}.
Local Abbreviation step := (Rendezvous.step show_ip valid_server write_idpk).
Local Abbreviation run := (Rendezvous.run show_ip valid_server write_idpk).

Lemma get_pk_conf e s ver i : mask (get_pk write_idpk e s ver i).2 = mask s /\ local_ip (get_pk write_idpk e s ver i).2 = local_ip s.
Proof.
  unfold get_pk, pm_get. destruct (sk s); [|done]. destruct (is_empty ver); [done|]. destruct (peers s !! i); [done|].
  by destruct (get_peer e (db s) i) as [[]|].
Qed.

Lemma relay_response_delivered e s my_id version a rs u addrB sinkB lic ws key k r :
  consistent s -> registered s my_id = Some r -> my_id <> [] -> db_ok e = true -> version <> [] -> sk s = Some key ->
  tcp_punch s !! try_into_v4 (AddrMangle.decode a) = Some k ->
  exists rr, (step e s (TcpIn addrB (RelayResponseIn (relay_response my_id version a rs u true)) sinkB lic ws)).2 = [ToSink k (RelayResponseOut rr)] /\
    rr_uuid rr = u /\ rr_pk rr = sign (write_idpk my_id (row_pk r)) key /\
    (is_lan s (AddrMangle.decode a) = false -> rs <> local_ip s -> rr_relay_server rr = rs).
Proof.
  intros Hc Hr Hi Hdb Hv Hk Ht. cbn [Rendezvous.step handle_tcp relay_response rr_socket_addr rr_id rr_version rr_relay_server rr_uuid].
  destruct my_id as [|b i0] eqn:Ei; [done|]. rewrite <- Ei in *. replace (negb (is_empty my_id)) with true by by subst my_id. cbv iota.
  pose proof (get_pk_signed write_idpk e s my_id r version key Hc Hr Hdb Hv Hk) as G.
  pose proof (get_pk_framed write_idpk e s version my_id) as [F _]. pose proof (get_pk_conf e s version my_id) as (L1 & L2).
  destruct (get_pk write_idpk e s version my_id) as [sg s1]. simpl in G, F, L1, L2. subst sg.
  set (choice := if negb (is_empty rs) then _ else _).
  assert (exists rl s2, choice = (rl, s2) /\ tcp_punch s2 = tcp_punch s1 /\
    (is_lan s (AddrMangle.decode a) = false -> rs <> local_ip s -> rl = rs)) as (rl & s2 & -> & F2 & Hrl).
  { subst choice. destruct rs as [|b0 rs0] eqn:Ers; [by exists [], s1|]. cbn [is_empty negb]. rewrite <- Ers.
    assert (is_lan s1 (AddrMangle.decode a) = is_lan s (AddrMangle.decode a)) as -> by (unfold is_lan; by rewrite L1). rewrite L2.
    destruct (is_lan s _); [by exists (local_ip s), s1|]. destruct (decide (rs = local_ip s)) as [E|E].
    - rewrite bool_decide_true by done. exists (Rendezvous.get_relay_server s1).1, (Rendezvous.get_relay_server s1).2.
      split; [by destruct (Rendezvous.get_relay_server s1)|]. split; [|done]. unfold Rendezvous.get_relay_server. by repeat case_match.
    - rewrite bool_decide_false by done. by exists rs, s1. }
  unfold send_to_tcp. rewrite F2, F, Ht. eexists. split; [done|]. by split_and!.
Qed.


(** The other way round: a viewer whose direct attempts failed asks for a relay
    over a new connection; the device, unless it just heard from the same
    address, goes to the relay and with the uuid the viewer named, and its
    answer, which carries neither, ends the viewer's attempts with that uuid. *)
Theorem viewer_asks_for_relay e1 s addrA k rf p lic ws e2 addrB sinkB lic' ws' my_id version now secure last :
  addr_ok addrA -> canonical addrA = try_into_v4 addrA -> in_width 32 (tm e1) -> peers s !! rf_id rf = Some p ->
  is_duplicate now (canonical addrA) last = false ->
  let res1 := step e1 s (TcpIn addrA (RequestRelay rf) (Some k) lic ws) in
  exists rr, res1.2 = [ToUdp (socket_addr p) (RequestRelayOut rr)] /\
    let plan := (handle_request_relay now rr secure last).1 in
    plan = CreateRelay (canonical addrA) (rf_socket_addr rr) (rf_relay_server rf) (rf_uuid rf) secure false [] /\
    let said := relay_response my_id version (rf_socket_addr rr) (rf_relay_server rf) (rf_uuid rf) false in
    exists resp, (step e2 res1.1 (TcpIn addrB (RelayResponseIn said) sinkB lic' ws')).2 = [ToSink k (RelayResponseOut resp)] /\
      request_relay [(rf_uuid rf, Replied [])] = RelayUuid (rf_uuid rf) /\
      (create_relay (rf_relay_server rf) (rf_uuid rf) lic) = create_relay_connection (rf_relay_server rf) (rf_uuid rf) lic.
Proof.
  intros HA Hcan Ht Hp Hd res1. unfold res1. cbn [Rendezvous.step handle_tcp park_sink]. unfold get_in_memory.
  cbn [peers with_tcp_punch]. rewrite Hp. eexists. split; [done|]. cbv zeta. unfold handle_request_relay. cbn [rf_socket_addr rf_relay_server rf_uuid].
  rewrite decode_mangled, Hd by done. split; [done|]. cbn. unfold send_to_tcp. cbn.
  rewrite decode_mangled, try_into_v4_canonical, lookup_insert_eq by done. eexists. split; [done|]. done.
Qed.
End Meeting.

#[local] Existing Instances Toy.sign_ Toy.sign_laws.
(** A viewer behind a symmetric NAT. *)
Definition ask0 : PunchHoleRequest := mkPunchHoleRequest id0 SYMMETRIC [].
Definition net0 : Net := mkNet store0 true (str "uuid-1") None.
Definition asked0 : Server := (step show_ip0 (fun _ => true) write_idpk0 env0 server0 (TcpIn addr1 (PunchHoleRequestIn ask0) (Some 5) [] false)).1.
Definition said0 : RelayResponse :=
  relay_response id0 [Byte.x31] (AddrMangle.encode 7 addr1) (str "hbbs.example.org:21117") (str "uuid-1") true.
(** Another connection at the relay, in between. *)
Definition other_comes : Pair.Action := Pair.Arrive 3 addr0 addr0 false (Some (Pair.mkRequestRelay (str "uuid-2") [])).
Definition from (s : Pair.State) (acts : list Pair.Action) : Pair.State := default s (Pair.run show_ip0 show_ip0 [] acts s).
Definition relay1 : Pair.State :=
  from (Pair.init ∅) [Pair.Arrive 1 addr1 addr1 false (Some (Pair.mkRequestRelay (str "uuid-1") [])); other_comes].
Definition relay2 : Pair.State := from relay1 [Pair.Insert 1].
Definition relay3 : Pair.State := from relay2 [Pair.Insert 3].
