(* ===== verification/ViewerOptions.v ===== *)
(** * The viewer's session options ([src/client.rs], [LoginConfigHandler])

    A viewer keeps, for each peer, the options of its sessions.  When it logs in
    it sends those that differ from a fresh connection's, afterwards each change
    as an option message.  [toggle_option] and [get_option_message] are here,
    with the device's [update_options] ([SessionHandler]): the two sides stay in
    step.  The peer's file is the field [disk]: storing a configuration and
    loading it gives it back (the encrypted secrets in it are those of
    [ViewerLogin]).  The clipboard files emptied at hand when file copying is
    switched off on Unix are not part of the state here. *)
From S2P Require Import Prelude.
From S2P Require Import Encoding.
From S2P Require Import HostPort.
From S2P Require Import SessionScope.
From S2P Require Import SessionState.
From S2P Require Import SessionHandler.

(** [BoolOption] *)
Definition No : Z := 1.
Definition Yes : Z := 2.
Definition bool_option (b : bool) : Z := if b then Yes else No.

(** ** Option messages *)
Module Msg.
Definition image_quality (x : Z) (o : OptionMessage) : OptionMessage :=
  mkOption x (SessionScope.lock_after_session_end o) (SessionScope.show_remote_cursor o) (SessionScope.privacy_mode o) (SessionScope.block_input o) (SessionScope.custom_image_quality o) (SessionScope.disable_audio o) (SessionScope.disable_clipboard o) (SessionScope.enable_file_transfer o) (SessionScope.supported_decoding o) (SessionScope.custom_fps o) (SessionScope.disable_keyboard o) (SessionScope.follow_remote_cursor o) (SessionScope.follow_remote_window o) (SessionScope.disable_camera o) (SessionScope.terminal_persistent o) (SessionScope.show_my_cursor o).
Definition lock_after_session_end (x : Z) (o : OptionMessage) : OptionMessage :=
  mkOption (SessionScope.image_quality o) x (SessionScope.show_remote_cursor o) (SessionScope.privacy_mode o) (SessionScope.block_input o) (SessionScope.custom_image_quality o) (SessionScope.disable_audio o) (SessionScope.disable_clipboard o) (SessionScope.enable_file_transfer o) (SessionScope.supported_decoding o) (SessionScope.custom_fps o) (SessionScope.disable_keyboard o) (SessionScope.follow_remote_cursor o) (SessionScope.follow_remote_window o) (SessionScope.disable_camera o) (SessionScope.terminal_persistent o) (SessionScope.show_my_cursor o).
Definition show_remote_cursor (x : Z) (o : OptionMessage) : OptionMessage :=
  mkOption (SessionScope.image_quality o) (SessionScope.lock_after_session_end o) x (SessionScope.privacy_mode o) (SessionScope.block_input o) (SessionScope.custom_image_quality o) (SessionScope.disable_audio o) (SessionScope.disable_clipboard o) (SessionScope.enable_file_transfer o) (SessionScope.supported_decoding o) (SessionScope.custom_fps o) (SessionScope.disable_keyboard o) (SessionScope.follow_remote_cursor o) (SessionScope.follow_remote_window o) (SessionScope.disable_camera o) (SessionScope.terminal_persistent o) (SessionScope.show_my_cursor o).
Definition privacy_mode (x : Z) (o : OptionMessage) : OptionMessage :=
  mkOption (SessionScope.image_quality o) (SessionScope.lock_after_session_end o) (SessionScope.show_remote_cursor o) x (SessionScope.block_input o) (SessionScope.custom_image_quality o) (SessionScope.disable_audio o) (SessionScope.disable_clipboard o) (SessionScope.enable_file_transfer o) (SessionScope.supported_decoding o) (SessionScope.custom_fps o) (SessionScope.disable_keyboard o) (SessionScope.follow_remote_cursor o) (SessionScope.follow_remote_window o) (SessionScope.disable_camera o) (SessionScope.terminal_persistent o) (SessionScope.show_my_cursor o).
Definition block_input (x : Z) (o : OptionMessage) : OptionMessage :=
  mkOption (SessionScope.image_quality o) (SessionScope.lock_after_session_end o) (SessionScope.show_remote_cursor o) (SessionScope.privacy_mode o) x (SessionScope.custom_image_quality o) (SessionScope.disable_audio o) (SessionScope.disable_clipboard o) (SessionScope.enable_file_transfer o) (SessionScope.supported_decoding o) (SessionScope.custom_fps o) (SessionScope.disable_keyboard o) (SessionScope.follow_remote_cursor o) (SessionScope.follow_remote_window o) (SessionScope.disable_camera o) (SessionScope.terminal_persistent o) (SessionScope.show_my_cursor o).
Definition custom_image_quality (x : Z) (o : OptionMessage) : OptionMessage :=
  mkOption (SessionScope.image_quality o) (SessionScope.lock_after_session_end o) (SessionScope.show_remote_cursor o) (SessionScope.privacy_mode o) (SessionScope.block_input o) x (SessionScope.disable_audio o) (SessionScope.disable_clipboard o) (SessionScope.enable_file_transfer o) (SessionScope.supported_decoding o) (SessionScope.custom_fps o) (SessionScope.disable_keyboard o) (SessionScope.follow_remote_cursor o) (SessionScope.follow_remote_window o) (SessionScope.disable_camera o) (SessionScope.terminal_persistent o) (SessionScope.show_my_cursor o).
Definition disable_audio (x : Z) (o : OptionMessage) : OptionMessage :=
  mkOption (SessionScope.image_quality o) (SessionScope.lock_after_session_end o) (SessionScope.show_remote_cursor o) (SessionScope.privacy_mode o) (SessionScope.block_input o) (SessionScope.custom_image_quality o) x (SessionScope.disable_clipboard o) (SessionScope.enable_file_transfer o) (SessionScope.supported_decoding o) (SessionScope.custom_fps o) (SessionScope.disable_keyboard o) (SessionScope.follow_remote_cursor o) (SessionScope.follow_remote_window o) (SessionScope.disable_camera o) (SessionScope.terminal_persistent o) (SessionScope.show_my_cursor o).
Definition disable_clipboard (x : Z) (o : OptionMessage) : OptionMessage :=
  mkOption (SessionScope.image_quality o) (SessionScope.lock_after_session_end o) (SessionScope.show_remote_cursor o) (SessionScope.privacy_mode o) (SessionScope.block_input o) (SessionScope.custom_image_quality o) (SessionScope.disable_audio o) x (SessionScope.enable_file_transfer o) (SessionScope.supported_decoding o) (SessionScope.custom_fps o) (SessionScope.disable_keyboard o) (SessionScope.follow_remote_cursor o) (SessionScope.follow_remote_window o) (SessionScope.disable_camera o) (SessionScope.terminal_persistent o) (SessionScope.show_my_cursor o).
Definition enable_file_transfer (x : Z) (o : OptionMessage) : OptionMessage :=
  mkOption (SessionScope.image_quality o) (SessionScope.lock_after_session_end o) (SessionScope.show_remote_cursor o) (SessionScope.privacy_mode o) (SessionScope.block_input o) (SessionScope.custom_image_quality o) (SessionScope.disable_audio o) (SessionScope.disable_clipboard o) x (SessionScope.supported_decoding o) (SessionScope.custom_fps o) (SessionScope.disable_keyboard o) (SessionScope.follow_remote_cursor o) (SessionScope.follow_remote_window o) (SessionScope.disable_camera o) (SessionScope.terminal_persistent o) (SessionScope.show_my_cursor o).
Definition supported_decoding (x : option Z) (o : OptionMessage) : OptionMessage :=
  mkOption (SessionScope.image_quality o) (SessionScope.lock_after_session_end o) (SessionScope.show_remote_cursor o) (SessionScope.privacy_mode o) (SessionScope.block_input o) (SessionScope.custom_image_quality o) (SessionScope.disable_audio o) (SessionScope.disable_clipboard o) (SessionScope.enable_file_transfer o) x (SessionScope.custom_fps o) (SessionScope.disable_keyboard o) (SessionScope.follow_remote_cursor o) (SessionScope.follow_remote_window o) (SessionScope.disable_camera o) (SessionScope.terminal_persistent o) (SessionScope.show_my_cursor o).
Definition custom_fps (x : Z) (o : OptionMessage) : OptionMessage :=
  mkOption (SessionScope.image_quality o) (SessionScope.lock_after_session_end o) (SessionScope.show_remote_cursor o) (SessionScope.privacy_mode o) (SessionScope.block_input o) (SessionScope.custom_image_quality o) (SessionScope.disable_audio o) (SessionScope.disable_clipboard o) (SessionScope.enable_file_transfer o) (SessionScope.supported_decoding o) x (SessionScope.disable_keyboard o) (SessionScope.follow_remote_cursor o) (SessionScope.follow_remote_window o) (SessionScope.disable_camera o) (SessionScope.terminal_persistent o) (SessionScope.show_my_cursor o).
Definition disable_keyboard (x : Z) (o : OptionMessage) : OptionMessage :=
  mkOption (SessionScope.image_quality o) (SessionScope.lock_after_session_end o) (SessionScope.show_remote_cursor o) (SessionScope.privacy_mode o) (SessionScope.block_input o) (SessionScope.custom_image_quality o) (SessionScope.disable_audio o) (SessionScope.disable_clipboard o) (SessionScope.enable_file_transfer o) (SessionScope.supported_decoding o) (SessionScope.custom_fps o) x (SessionScope.follow_remote_cursor o) (SessionScope.follow_remote_window o) (SessionScope.disable_camera o) (SessionScope.terminal_persistent o) (SessionScope.show_my_cursor o).
Definition follow_remote_cursor (x : Z) (o : OptionMessage) : OptionMessage :=
  mkOption (SessionScope.image_quality o) (SessionScope.lock_after_session_end o) (SessionScope.show_remote_cursor o) (SessionScope.privacy_mode o) (SessionScope.block_input o) (SessionScope.custom_image_quality o) (SessionScope.disable_audio o) (SessionScope.disable_clipboard o) (SessionScope.enable_file_transfer o) (SessionScope.supported_decoding o) (SessionScope.custom_fps o) (SessionScope.disable_keyboard o) x (SessionScope.follow_remote_window o) (SessionScope.disable_camera o) (SessionScope.terminal_persistent o) (SessionScope.show_my_cursor o).
Definition follow_remote_window (x : Z) (o : OptionMessage) : OptionMessage :=
  mkOption (SessionScope.image_quality o) (SessionScope.lock_after_session_end o) (SessionScope.show_remote_cursor o) (SessionScope.privacy_mode o) (SessionScope.block_input o) (SessionScope.custom_image_quality o) (SessionScope.disable_audio o) (SessionScope.disable_clipboard o) (SessionScope.enable_file_transfer o) (SessionScope.supported_decoding o) (SessionScope.custom_fps o) (SessionScope.disable_keyboard o) (SessionScope.follow_remote_cursor o) x (SessionScope.disable_camera o) (SessionScope.terminal_persistent o) (SessionScope.show_my_cursor o).
Definition terminal_persistent (x : Z) (o : OptionMessage) : OptionMessage :=
  mkOption (SessionScope.image_quality o) (SessionScope.lock_after_session_end o) (SessionScope.show_remote_cursor o) (SessionScope.privacy_mode o) (SessionScope.block_input o) (SessionScope.custom_image_quality o) (SessionScope.disable_audio o) (SessionScope.disable_clipboard o) (SessionScope.enable_file_transfer o) (SessionScope.supported_decoding o) (SessionScope.custom_fps o) (SessionScope.disable_keyboard o) (SessionScope.follow_remote_cursor o) (SessionScope.follow_remote_window o) (SessionScope.disable_camera o) x (SessionScope.show_my_cursor o).
Definition show_my_cursor (x : Z) (o : OptionMessage) : OptionMessage :=
  mkOption (SessionScope.image_quality o) (SessionScope.lock_after_session_end o) (SessionScope.show_remote_cursor o) (SessionScope.privacy_mode o) (SessionScope.block_input o) (SessionScope.custom_image_quality o) (SessionScope.disable_audio o) (SessionScope.disable_clipboard o) (SessionScope.enable_file_transfer o) (SessionScope.supported_decoding o) (SessionScope.custom_fps o) (SessionScope.disable_keyboard o) (SessionScope.follow_remote_cursor o) (SessionScope.follow_remote_window o) (SessionScope.disable_camera o) (SessionScope.terminal_persistent o) x.
End Msg.

(** ** A peer's configuration, as far as a session's options go *)
Record PeerConfig := mkPeerConfig {
  pc_show_remote_cursor : bool;
  pc_follow_remote_cursor : bool;
  pc_follow_remote_window : bool;
  pc_show_quality_monitor : bool;
  pc_disable_audio : bool;
  pc_disable_clipboard : bool;
  pc_lock_after_session_end : bool;
  pc_terminal_persistent : bool;
  pc_privacy_mode : bool;
  pc_enable_file_copy_paste : bool;
  pc_allow_swap_key : bool;
  pc_view_only : bool;
  pc_show_my_cursor : bool;
  pc_image_quality : string;
  pc_custom_image_quality : list Z;
  pc_options : gmap string bytes
}.
Module Conf.
Definition show_remote_cursor (x : bool) (c : PeerConfig) : PeerConfig :=
  mkPeerConfig x (pc_follow_remote_cursor c) (pc_follow_remote_window c) (pc_show_quality_monitor c) (pc_disable_audio c) (pc_disable_clipboard c) (pc_lock_after_session_end c) (pc_terminal_persistent c) (pc_privacy_mode c) (pc_enable_file_copy_paste c) (pc_allow_swap_key c) (pc_view_only c) (pc_show_my_cursor c) (pc_image_quality c) (pc_custom_image_quality c) (pc_options c).
Definition follow_remote_cursor (x : bool) (c : PeerConfig) : PeerConfig :=
  mkPeerConfig (pc_show_remote_cursor c) x (pc_follow_remote_window c) (pc_show_quality_monitor c) (pc_disable_audio c) (pc_disable_clipboard c) (pc_lock_after_session_end c) (pc_terminal_persistent c) (pc_privacy_mode c) (pc_enable_file_copy_paste c) (pc_allow_swap_key c) (pc_view_only c) (pc_show_my_cursor c) (pc_image_quality c) (pc_custom_image_quality c) (pc_options c).
Definition follow_remote_window (x : bool) (c : PeerConfig) : PeerConfig :=
  mkPeerConfig (pc_show_remote_cursor c) (pc_follow_remote_cursor c) x (pc_show_quality_monitor c) (pc_disable_audio c) (pc_disable_clipboard c) (pc_lock_after_session_end c) (pc_terminal_persistent c) (pc_privacy_mode c) (pc_enable_file_copy_paste c) (pc_allow_swap_key c) (pc_view_only c) (pc_show_my_cursor c) (pc_image_quality c) (pc_custom_image_quality c) (pc_options c).
Definition show_quality_monitor (x : bool) (c : PeerConfig) : PeerConfig :=
  mkPeerConfig (pc_show_remote_cursor c) (pc_follow_remote_cursor c) (pc_follow_remote_window c) x (pc_disable_audio c) (pc_disable_clipboard c) (pc_lock_after_session_end c) (pc_terminal_persistent c) (pc_privacy_mode c) (pc_enable_file_copy_paste c) (pc_allow_swap_key c) (pc_view_only c) (pc_show_my_cursor c) (pc_image_quality c) (pc_custom_image_quality c) (pc_options c).
Definition disable_audio (x : bool) (c : PeerConfig) : PeerConfig :=
  mkPeerConfig (pc_show_remote_cursor c) (pc_follow_remote_cursor c) (pc_follow_remote_window c) (pc_show_quality_monitor c) x (pc_disable_clipboard c) (pc_lock_after_session_end c) (pc_terminal_persistent c) (pc_privacy_mode c) (pc_enable_file_copy_paste c) (pc_allow_swap_key c) (pc_view_only c) (pc_show_my_cursor c) (pc_image_quality c) (pc_custom_image_quality c) (pc_options c).
Definition disable_clipboard (x : bool) (c : PeerConfig) : PeerConfig :=
  mkPeerConfig (pc_show_remote_cursor c) (pc_follow_remote_cursor c) (pc_follow_remote_window c) (pc_show_quality_monitor c) (pc_disable_audio c) x (pc_lock_after_session_end c) (pc_terminal_persistent c) (pc_privacy_mode c) (pc_enable_file_copy_paste c) (pc_allow_swap_key c) (pc_view_only c) (pc_show_my_cursor c) (pc_image_quality c) (pc_custom_image_quality c) (pc_options c).
Definition lock_after_session_end (x : bool) (c : PeerConfig) : PeerConfig :=
  mkPeerConfig (pc_show_remote_cursor c) (pc_follow_remote_cursor c) (pc_follow_remote_window c) (pc_show_quality_monitor c) (pc_disable_audio c) (pc_disable_clipboard c) x (pc_terminal_persistent c) (pc_privacy_mode c) (pc_enable_file_copy_paste c) (pc_allow_swap_key c) (pc_view_only c) (pc_show_my_cursor c) (pc_image_quality c) (pc_custom_image_quality c) (pc_options c).
Definition terminal_persistent (x : bool) (c : PeerConfig) : PeerConfig :=
  mkPeerConfig (pc_show_remote_cursor c) (pc_follow_remote_cursor c) (pc_follow_remote_window c) (pc_show_quality_monitor c) (pc_disable_audio c) (pc_disable_clipboard c) (pc_lock_after_session_end c) x (pc_privacy_mode c) (pc_enable_file_copy_paste c) (pc_allow_swap_key c) (pc_view_only c) (pc_show_my_cursor c) (pc_image_quality c) (pc_custom_image_quality c) (pc_options c).
Definition enable_file_copy_paste (x : bool) (c : PeerConfig) : PeerConfig :=
  mkPeerConfig (pc_show_remote_cursor c) (pc_follow_remote_cursor c) (pc_follow_remote_window c) (pc_show_quality_monitor c) (pc_disable_audio c) (pc_disable_clipboard c) (pc_lock_after_session_end c) (pc_terminal_persistent c) (pc_privacy_mode c) x (pc_allow_swap_key c) (pc_view_only c) (pc_show_my_cursor c) (pc_image_quality c) (pc_custom_image_quality c) (pc_options c).
Definition allow_swap_key (x : bool) (c : PeerConfig) : PeerConfig :=
  mkPeerConfig (pc_show_remote_cursor c) (pc_follow_remote_cursor c) (pc_follow_remote_window c) (pc_show_quality_monitor c) (pc_disable_audio c) (pc_disable_clipboard c) (pc_lock_after_session_end c) (pc_terminal_persistent c) (pc_privacy_mode c) (pc_enable_file_copy_paste c) x (pc_view_only c) (pc_show_my_cursor c) (pc_image_quality c) (pc_custom_image_quality c) (pc_options c).
Definition view_only (x : bool) (c : PeerConfig) : PeerConfig :=
  mkPeerConfig (pc_show_remote_cursor c) (pc_follow_remote_cursor c) (pc_follow_remote_window c) (pc_show_quality_monitor c) (pc_disable_audio c) (pc_disable_clipboard c) (pc_lock_after_session_end c) (pc_terminal_persistent c) (pc_privacy_mode c) (pc_enable_file_copy_paste c) (pc_allow_swap_key c) x (pc_show_my_cursor c) (pc_image_quality c) (pc_custom_image_quality c) (pc_options c).
Definition show_my_cursor (x : bool) (c : PeerConfig) : PeerConfig :=
  mkPeerConfig (pc_show_remote_cursor c) (pc_follow_remote_cursor c) (pc_follow_remote_window c) (pc_show_quality_monitor c) (pc_disable_audio c) (pc_disable_clipboard c) (pc_lock_after_session_end c) (pc_terminal_persistent c) (pc_privacy_mode c) (pc_enable_file_copy_paste c) (pc_allow_swap_key c) (pc_view_only c) x (pc_image_quality c) (pc_custom_image_quality c) (pc_options c).
Definition image_quality (x : string) (c : PeerConfig) : PeerConfig :=
  mkPeerConfig (pc_show_remote_cursor c) (pc_follow_remote_cursor c) (pc_follow_remote_window c) (pc_show_quality_monitor c) (pc_disable_audio c) (pc_disable_clipboard c) (pc_lock_after_session_end c) (pc_terminal_persistent c) (pc_privacy_mode c) (pc_enable_file_copy_paste c) (pc_allow_swap_key c) (pc_view_only c) (pc_show_my_cursor c) x (pc_custom_image_quality c) (pc_options c).
Definition custom_image_quality (x : list Z) (c : PeerConfig) : PeerConfig :=
  mkPeerConfig (pc_show_remote_cursor c) (pc_follow_remote_cursor c) (pc_follow_remote_window c) (pc_show_quality_monitor c) (pc_disable_audio c) (pc_disable_clipboard c) (pc_lock_after_session_end c) (pc_terminal_persistent c) (pc_privacy_mode c) (pc_enable_file_copy_paste c) (pc_allow_swap_key c) (pc_view_only c) (pc_show_my_cursor c) (pc_image_quality c) x (pc_options c).
Definition options (x : gmap string bytes) (c : PeerConfig) : PeerConfig :=
  mkPeerConfig (pc_show_remote_cursor c) (pc_follow_remote_cursor c) (pc_follow_remote_window c) (pc_show_quality_monitor c) (pc_disable_audio c) (pc_disable_clipboard c) (pc_lock_after_session_end c) (pc_terminal_persistent c) (pc_privacy_mode c) (pc_enable_file_copy_paste c) (pc_allow_swap_key c) (pc_view_only c) (pc_show_my_cursor c) (pc_image_quality c) (pc_custom_image_quality c) x.
End Conf.

Inductive ConnType := DEFAULT_CONN | FILE_TRANSFER | PORT_FORWARD | RDP | VIEW_CAMERA | TERMINAL.
#[export] Instance ConnType_eq_dec : EqDecision ConnType.
Proof. solve_decision. Defined.

(** The handler: [config] in memory, [disk] in the peer's file. *)
Record Handler := mkHandler {
  config : PeerConfig;
  disk : PeerConfig;
  h_conn_type : ConnType;
  h_direct : option bool;
  public_server : bool;
  flutter : bool;
  decodings : Z;
  h_custom_fps : option Z
}.
Definition with_config (c d : PeerConfig) (h : Handler) : Handler :=
  mkHandler c d (h_conn_type h) (h_direct h) (public_server h) (flutter h) (decodings h) (h_custom_fps h).
Definition with_fps (f : option Z) (h : Handler) : Handler :=
  mkHandler (config h) (disk h) (h_conn_type h) (h_direct h) (public_server h) (flutter h) (decodings h) f.
Definition load_config (h : Handler) : PeerConfig := disk h.
Definition save_config (c : PeerConfig) (h : Handler) : Handler := with_config c c h.

Definition get_option (h : Handler) (k : string) : bytes := default [] (pc_options (config h) !! k).
Definition set_option (k : string) (v : bytes) (h : Handler) : Handler :=
  if bool_decide (v = get_option h k) then h
  else save_config (Conf.options (<[k := v]> (pc_options (load_config h))) (load_config h)) h.

Definition get_toggle_option (h : Handler) (name : string) : bool :=
  if (name =? "show-remote-cursor")%string then pc_show_remote_cursor (config h)
  else if (name =? "lock-after-session-end")%string then pc_lock_after_session_end (config h)
  else if (name =? "terminal-persistent")%string then pc_terminal_persistent (config h)
  else if (name =? "privacy-mode")%string then pc_privacy_mode (config h)
  else if (name =? "enable-file-copy-paste")%string then pc_enable_file_copy_paste (config h)
  else if (name =? "disable-audio")%string then pc_disable_audio (config h)
  else if (name =? "disable-clipboard")%string then pc_disable_clipboard (config h)
  else if (name =? "show-quality-monitor")%string then pc_show_quality_monitor (config h)
  else if (name =? "allow_swap_key")%string then pc_allow_swap_key (config h)
  else if (name =? "view-only")%string then pc_view_only (config h)
  else if (name =? "show-my-cursor")%string then pc_show_my_cursor (config h)
  else if (name =? "follow-remote-cursor")%string then pc_follow_remote_cursor (config h)
  else if (name =? "follow-remote-window")%string then pc_follow_remote_window (config h)
  else negb (bool_decide (get_option h name = [])).

(** Entering and leaving the view-only mode. *)
Definition toggle_view_only (h : Handler) (c : PeerConfig) : PeerConfig * OptionMessage :=
  let c := Conf.view_only (negb (pc_view_only c)) c in
  if pc_view_only c then
    (c, Msg.disable_keyboard Yes (Msg.disable_clipboard Yes (Msg.show_remote_cursor Yes
          (Msg.enable_file_transfer No (Msg.lock_after_session_end No option_new)))))
  else
    let o := Msg.disable_keyboard No
      (Msg.disable_clipboard (bool_option (get_toggle_option h "disable-clipboard"))
      (Msg.show_remote_cursor (bool_option (get_toggle_option h "show-remote-cursor"))
      (Msg.enable_file_transfer (bool_option (pc_enable_file_copy_paste (config h)))
      (Msg.lock_after_session_end (bool_option (pc_lock_after_session_end (config h))) option_new)))) in
    if pc_show_my_cursor c then (Conf.show_my_cursor false c, Msg.show_my_cursor No o) else (c, o).

(** [None] is a name that is no toggle: it is kept in the free options. *)
Definition toggled (name : string) (h : Handler) (c : PeerConfig) : option (PeerConfig * OptionMessage) :=
  let flip get (set : bool -> PeerConfig -> PeerConfig) (say : Z -> OptionMessage -> OptionMessage) :=
    let v := negb (get c) in Some (set v c, say (bool_option v) option_new) in
  if (name =? "show-remote-cursor")%string then flip pc_show_remote_cursor Conf.show_remote_cursor Msg.show_remote_cursor
  else if (name =? "follow-remote-cursor")%string then flip pc_follow_remote_cursor Conf.follow_remote_cursor Msg.follow_remote_cursor
  else if (name =? "follow-remote-window")%string then flip pc_follow_remote_window Conf.follow_remote_window Msg.follow_remote_window
  else if (name =? "disable-audio")%string then flip pc_disable_audio Conf.disable_audio Msg.disable_audio
  else if (name =? "disable-clipboard")%string then flip pc_disable_clipboard Conf.disable_clipboard Msg.disable_clipboard
  else if (name =? "lock-after-session-end")%string then flip pc_lock_after_session_end Conf.lock_after_session_end Msg.lock_after_session_end
  else if (name =? "terminal-persistent")%string then flip pc_terminal_persistent Conf.terminal_persistent Msg.terminal_persistent
  else if (name =? "privacy-mode")%string then Some (c, Msg.privacy_mode (bool_option (negb (pc_privacy_mode c))) option_new)
  else if (name =? "enable-file-copy-paste")%string then flip pc_enable_file_copy_paste Conf.enable_file_copy_paste Msg.enable_file_transfer
  else if (name =? "block-input")%string then Some (c, Msg.block_input Yes option_new)
  else if (name =? "unblock-input")%string then Some (c, Msg.block_input No option_new)
  else if (name =? "show-quality-monitor")%string then Some (Conf.show_quality_monitor (negb (pc_show_quality_monitor c)) c, option_new)
  else if (name =? "allow_swap_key")%string then Some (Conf.allow_swap_key (negb (pc_allow_swap_key c)) c, option_new)
  else if (name =? "view-only")%string then Some (toggle_view_only h c)
  else if (name =? "show-my-cursor")%string then flip pc_show_my_cursor Conf.show_my_cursor Msg.show_my_cursor
  else None.

(** [str::contains] *)
Fixpoint contains (sub s : string) : bool :=
  String.prefix sub s || match s with EmptyString => false | String _ s => contains sub s end.

Definition toggle_option (name : string) (h : Handler) : option OptionMessage * Handler :=
  match toggled name h (load_config h) with
  | Some (c, o) => (Some o, if contains "block-input" name then h else save_config c h)
  | None =>
      let is_set := negb (bool_decide (get_option h name = [])) in
      let o := if is_set then delete name (pc_options (config h)) else <[name := str "Y"]> (pc_options (config h)) in
      (None, save_config (Conf.options o (config h)) h)
  end.

(** ** Quality *)
Definition get_image_quality_enum (q : string) (ignore_default : bool) : option Z :=
  if (q =? "low")%string then Some 2
  else if (q =? "best")%string then Some 4
  else if (q =? "balanced")%string then if ignore_default then None else Some 3
  else None.
Definition allow_more (h : Handler) : bool := negb (public_server h) || bool_decide (h_direct h = Some true).
(** The frame rate is only sent by the Flutter viewer. *)
Definition quality_message (ignore_default : bool) (h : Handler) : OptionMessage * Handler :=
  let q := pc_image_quality (config h) in
  match get_image_quality_enum q ignore_default with
  | Some v => (Msg.image_quality v option_new, h)
  | None =>
      if (q =? "custom")%string then
        let quality :=
          match pc_custom_image_quality (load_config h) with
          | [] => 50
          | x :: _ => if negb (allow_more h) && (100 <? x) then 50 else x
          end in
        let o := Msg.custom_image_quality (i32_of (Z.shiftl quality 8)) option_new in
        match (if flutter h then pc_options (config h) !! "custom-fps"%string else None) with
        | Some fps =>
            let fps := default 30 (parse_i32 fps) in
            let fps := if negb (allow_more h) && (30 <? fps) then 30 else fps in
            (Msg.custom_fps fps o, with_fps (Some (u64_of fps)) h)
        | None => (o, h)
        end
      else (option_new, h)
  end.

Definition get_option_message (ignore_default : bool) (h : Handler) : option OptionMessage * Handler :=
  if bool_decide (h_conn_type h ∈ [PORT_FORWARD; RDP; FILE_TRANSFER]) then (None, h)
  else if bool_decide (h_conn_type h = TERMINAL) then
    (if get_toggle_option h "terminal-persistent" then Some (Msg.terminal_persistent Yes option_new) else None, h)
  else
    let '(o, h) := quality_message ignore_default h in
    let on b (say : Z -> OptionMessage -> OptionMessage) o := if b : bool then say Yes o else o in
    let view_only := get_toggle_option h "view-only" in
    let o := on view_only Msg.disable_keyboard o in
    let o := on (view_only || get_toggle_option h "show-remote-cursor") Msg.show_remote_cursor o in
    let o := on (view_only && get_toggle_option h "show-my-cursor") Msg.show_my_cursor o in
    let o := on (get_toggle_option h "follow-remote-cursor") Msg.follow_remote_cursor o in
    let o := on (get_toggle_option h "follow-remote-window") Msg.follow_remote_window o in
    let o := on (negb view_only && get_toggle_option h "lock-after-session-end") Msg.lock_after_session_end o in
    let o := on (get_toggle_option h "disable-audio") Msg.disable_audio o in
    let o := on (negb view_only && get_toggle_option h "enable-file-copy-paste") Msg.enable_file_transfer o in
    let o := on (view_only || get_toggle_option h "disable-clipboard") Msg.disable_clipboard o in
    (Some (Msg.supported_decoding (Some (decodings h)) o), h).

Definition save_image_quality (value : string) (h : Handler) : option OptionMessage * Handler :=
  ((fun q => Msg.image_quality q option_new) <$> get_image_quality_enum value false,
   save_config (Conf.image_quality value (load_config h)) h).
Definition save_custom_image_quality (q : Z) (h : Handler) : OptionMessage * Handler :=
  (Msg.custom_image_quality (i32_of (Z.shiftl q 8)) option_new,
   save_config (Conf.custom_image_quality [q] (Conf.image_quality "custom" (load_config h))) h).
Definition set_custom_fps (fps : Z) (save : bool) (h : Handler) : OptionMessage * Handler :=
  let h := if save then save_config (Conf.options (<["custom-fps"%string := show_i32 fps]> (pc_options (load_config h))) (load_config h)) h else h in
  (Msg.custom_fps fps option_new, with_fps (Some (u64_of fps)) h).

(** ** The device's side of an option message *)
Definition apply_flag (v : Z) (f : bool -> SessionState.Options -> SessionState.Options) (o : SessionState.Options) : SessionState.Options :=
  if (v =? 1) || (v =? 2) then f (v =? 2) o else o.
Definition apply_options (b : Build) (m : OptionMessage) (o : SessionState.Options) : SessionState.Options :=
  apply_flag (SessionScope.show_my_cursor m) with_show_my_cursor
    (apply_flag (SessionScope.disable_keyboard m) with_disable_keyboard
    (apply_flag (SessionScope.disable_clipboard m) with_disable_clipboard
    ((if windows b || unix_file_copy_paste b then apply_flag (SessionScope.enable_file_transfer m) with_enable_file_transfer else id)
    (apply_flag (SessionScope.disable_audio m) with_disable_audio
    (apply_flag (SessionScope.follow_remote_window m) with_follow_remote_window
    (apply_flag (SessionScope.follow_remote_cursor m) with_follow_remote_cursor
    (apply_flag (SessionScope.show_remote_cursor m) with_show_remote_cursor
    (apply_flag (SessionScope.lock_after_session_end m) with_lock_after_session_end o)))))))).

(** [s] turns the options into [f] of them and leaves the kind of session. *)
Definition opts_by (f : SessionState.Options -> SessionState.Options) (s : Step) : Prop :=
  forall c, opts (s c).1 = f (opts c) /\ conn_type (s c).1 = conn_type c.

Lemma by_seq f g s t : opts_by f s -> opts_by g t -> opts_by (fun o => g (f o)) (s >> t).
Proof.
  intros Hs Ht c. unfold then_. destruct (Hs c) as [H1 H2]. destruct (s c) as [c1 e1]. destruct (Ht c1) as [H3 H4].
  destruct (t c1) as [c2 e2]. simpl in *. split; congruence.
Qed.
Lemma by_emit e : opts_by id (emit e).
Proof. done. Qed.
Lemma by_skip : opts_by id skip.
Proof. done. Qed.
Lemma by_when (v : bool) s : opts_by id s -> opts_by id (when v s).
Proof. by destruct v. Qed.
Lemma by_reading {A} f (g : Connection -> A) k : (forall x, opts_by f (k x)) -> opts_by f (reading g k).
Proof. intros H c. apply H. Qed.
Lemma by_upd f : (forall c, opts (f c) = opts c /\ conn_type (f c) = conn_type c) -> opts_by id (upd f).
Proof. done. Qed.
Lemma by_set f v : opts_by (f v) (set_opt f v).
Proof. done. Qed.
Lemma by_idl f s t : opts_by f s -> opts_by id t -> opts_by f (s >> t).
Proof. intros Hs Ht. apply (by_seq f id); done. Qed.
Lemma by_idr f s t : opts_by id s -> opts_by f t -> opts_by f (s >> t).
Proof. intros Hs Ht. apply (by_seq id f); done. Qed.
Lemma by_ext f g s : (forall o, f o = g o) -> opts_by f s -> opts_by g s.
Proof. intros E H c. rewrite <- E. apply H. Qed.
Lemma by_guard (v : bool) f s : opts_by f s -> opts_by (if v then f else id) (when v s).
Proof. by destruct v. Qed.
Lemma by_on_bool f v k : (forall x, opts_by (f x) (k x)) -> opts_by (apply_flag v f) (on_bool v k).
Proof. intros H. unfold on_bool, apply_flag, when. destruct (_ || _); [apply H|apply by_skip]. Qed.
Lemma by_on_bool_id v k : (forall x, opts_by id (k x)) -> opts_by id (on_bool v k).
Proof. intros H. unfold on_bool. apply by_when, H. Qed.

Section Device.
Context (b : Build) (e : Sys).
Lemma by_subscribe n v : opts_by id (subscribe b n v).
Proof. apply by_when. done. Qed.
Lemma by_subscribe_if n f : opts_by id (subscribe_if b n f).
Proof. apply by_reading. intros x. apply by_subscribe. Qed.

Create HintDb viewer.
#[local] Hint Resolve by_upd by_emit by_skip by_when by_set by_subscribe by_subscribe_if by_idl by_on_bool_id : viewer.
#[local] Hint Extern 2 (opts_by id (reading _ _)) => apply by_reading; intros : viewer.
#[local] Hint Extern 1 (opts_by id (if ?x then _ else _)) => destruct x : viewer.
#[local] Hint Extern 1 (opts_by id (match ?x with Some _ => _ | None => _ end)) => destruct x : viewer.

Lemma by_privacy_on : opts_by id (turn_on_privacy e).
Proof. unfold turn_on_privacy. apply by_reading. intros c. repeat case_match; auto 10 with viewer. Qed.
Lemma by_privacy_off : opts_by id (turn_off_privacy e).
Proof. unfold turn_off_privacy, turn_off_privacy_to_msg. case_match; auto with viewer. Qed.

Lemma by_options m : opts_by (apply_options b m) (update_options b e m).
Proof.
  eapply by_ext; [|unfold update_options;
    eapply by_idr; [unfold update_quality; auto with viewer|]; eapply by_idr; [auto with viewer|]; eapply by_idr; [auto with viewer|];
    eapply by_seq; [eapply by_on_bool; auto with viewer|];
    eapply by_seq; [eapply (by_on_bool with_show_remote_cursor); unfold subscribe_cursor; auto with viewer|];
    eapply by_seq; [eapply by_on_bool; auto with viewer|];
    eapply by_seq; [eapply (by_on_bool with_follow_remote_window); auto with viewer|];
    eapply by_seq; [eapply (by_on_bool with_disable_audio); unfold subscribe_audio; auto 8 with viewer|];
    eapply by_seq; [apply (by_guard (windows b || unix_file_copy_paste b)), (by_on_bool with_enable_file_transfer); auto 8 with viewer|];
    eapply by_seq; [eapply (by_on_bool with_disable_clipboard); auto with viewer|];
    eapply by_seq; [eapply (by_on_bool with_disable_keyboard); unfold subscribe_cursor; auto 8 with viewer|];
    eapply by_idr; [eauto 8 using by_privacy_on, by_privacy_off with viewer|];
    eapply by_idr; [unfold update_block_input; auto 8 with viewer|];
    eapply by_idr; [apply by_on_bool_id; intros; unfold update_terminal_persistence; auto with viewer|];
    eapply (by_on_bool with_show_my_cursor); auto 8 with viewer].
  intros o. done.
Qed.
End Device.

(** ** Viewer and device in step *)

(** The options a device should have, given the viewer's configuration. *)
Definition expected (b : Build) (c : PeerConfig) : SessionState.Options :=
  let v := pc_view_only c in
  mkOptions v (v || pc_disable_clipboard c) (pc_disable_audio c)
    ((windows b || unix_file_copy_paste b) && (negb v && pc_enable_file_copy_paste c)) (pc_show_my_cursor c)
    (v || pc_show_remote_cursor c) (pc_follow_remote_cursor c) (pc_follow_remote_window c) (negb v && pc_lock_after_session_end c).

(** What the menus offer: in the view-only mode the options it sets aside are
    not, outside it the own cursor is not. *)
Definition offered (name : string) (h : Handler) : bool :=
  let v := pc_view_only (config h) in
  if existsb (String.eqb name) ["show-remote-cursor"; "disable-clipboard"; "lock-after-session-end"; "enable-file-copy-paste"]%string then negb v
  else if (name =? "show-my-cursor")%string then v
  else true.

(** One toggle, the message delivered. *)
Definition toggle_step (b : Build) (x : Handler * Connection) (t : Sys * string) : Handler * Connection :=
  let '(o, h) := toggle_option t.2 x.1 in
  (h, match o with Some o => ((misc_message b t.1 (MOption o) x.2).1 x.2).1 | None => x.2 end).
Fixpoint all_offered (b : Build) (ts : list (Sys * string)) (x : Handler * Connection) : Prop :=
  match ts with
  | [] => True
  | t :: ts => offered t.2 x.1 = true /\ all_offered b ts (toggle_step b x t)
  end.
(** Logging in: the connection's options are those of the login request. *)
Definition login_step (b : Build) (e : Sys) (h : Handler) (c : Connection) : Handler * Connection :=
  let '(o, h) := get_option_message true h in
  (h, match update_scoped_login_options (conn_type c) o with Some o => (update_options b e o c).1 | None => c end).

(** Memory and file agree; the own cursor is only shown in the view-only mode. *)
Definition tidy (h : Handler) : Prop :=
  disk h = config h /\ h_conn_type h = DEFAULT_CONN /\ (pc_show_my_cursor (config h) = true -> pc_view_only (config h) = true).
Definition in_step (b : Build) (x : Handler * Connection) : Prop :=
  tidy x.1 /\ conn_type x.2 = Some Remote /\ opts x.2 = expected b (config x.1).

Lemma option_delivered b e o c : conn_type c = Some Remote ->
  opts ((misc_message b e (MOption o) c).1 c).1 = apply_options b o (opts c) /\ conn_type ((misc_message b e (MOption o) c).1 c).1 = Some Remote.
Proof.
  intros Hc. cbn [misc_message fst]. unfold updated_option. rewrite Hc, bool_decide_true by done.
  destruct (by_options b e o c) as [H1 H2]. by rewrite H1, H2.
Qed.

(** What a toggle that says something does to both sides. *)
Lemma toggled_expected b name h c o : tidy h -> offered name h = true -> toggled name h (config h) = Some (c, o) ->
  apply_options b o (expected b (config h)) = expected b (if contains "block-input" name then config h else c) /\
  (pc_show_my_cursor c = true -> pc_view_only c = true).
Proof.
  intros (_ & _ & Ht) Ho H. unfold offered in Ho. unfold toggled, toggle_view_only in H.
  destruct h as [[src frc frw sqm da dc lk tp pm fc sk vo sm iq ciq ops] d ct di pub fl dec fps]. cbn [config pc_view_only pc_show_my_cursor] in *.
  unfold apply_options, expected. destruct (windows b || unix_file_copy_paste b);
  repeat match type of H with
  | (if (name =? ?s)%string then _ else _) = _ => destruct (String.eqb_spec name s) as [->|_]; [clear -H Ho Ht; simpl in Ho, H |- *|]
  end; try discriminate H.
  all: try (destruct vo; [|discriminate Ho]); try (destruct vo; [discriminate Ho|]).
  all: try destruct vo; try (specialize (Ht eq_refl); discriminate Ht); destruct sm; try (specialize (Ht eq_refl); discriminate Ht);
    cbn in H; injection H as <- <-;
    (split; [|intros X; first [reflexivity | discriminate X]]); first [reflexivity | destruct src, dc, fc, lk, da, frc, frw; reflexivity].
Qed.

Lemma toggle_in_step b x t : in_step b x -> offered t.2 x.1 = true -> in_step b (toggle_step b x t).
Proof.
  intros (Hh & Hc & Ho) Hof. destruct x as [h c], t as [e name]. cbn [fst snd] in *. unfold toggle_step, toggle_option, load_config. cbn [fst snd].
  pose proof Hh as (Hd & Hct & Ht). rewrite Hd. destruct (toggled name h (config h)) as [[pc o]|] eqn:E.
  - destruct (toggled_expected b name h pc o Hh Hof E) as [E1 E2]. destruct (option_delivered b e o c Hc) as [D1 D2].
    destruct (contains "block-input" name); (split; [|split; [done|cbn [fst snd]; by rewrite D1, Ho]]); done.
  - cbn [fst snd]. split; [|split; [done|simpl; by rewrite Ho]]. done.
Qed.

Lemma quality_silent g h : exists iq ciq fps f,
  quality_message g h = (mkOption iq 0 0 0 0 ciq 0 0 0 None fps 0 0 0 0 0 0, with_fps f h).
Proof.
  assert (h = with_fps (h_custom_fps h) h) as Eh by by destruct h.
  unfold quality_message. destruct (get_image_quality_enum _ _); [do 3 eexists; exists (h_custom_fps h); by rewrite <- Eh|].
  destruct (_ =? "custom")%string; [|do 3 eexists; exists (h_custom_fps h); by rewrite <- Eh].
  destruct (if flutter h then _ else _); [by do 4 eexists|]. do 3 eexists. exists (h_custom_fps h). by rewrite <- Eh.
Qed.

Lemma login_in_step b e h c : tidy h -> conn_type c = Some Remote -> opts c = mkOptions false false false false false false false false false ->
  in_step b (login_step b e h c).
Proof.
  intros Hh Hc Ho. pose proof Hh as (Hd & Hct & Ht). unfold login_step, get_option_message. rewrite Hct, bool_decide_false by set_solver.
  rewrite bool_decide_false by done. destruct (quality_silent true h) as (iq & ciq & fps & f & ->). cbv beta iota zeta. rewrite Hc.
  unfold update_scoped_login_options, scoped_login_option. cbn [fst].
  match goal with |- context [update_options b e ?o c] => destruct (by_options b e o c) as [D1 D2]; set (c' := (update_options b e o c).1) in * end.
  split; [done|]. split; [cbn [snd]; congruence|]. cbn [fst snd config with_fps]. rewrite D1, Ho. clear -Ht.
  unfold apply_options, expected, get_toggle_option. cbn [String.eqb Ascii.eqb Bool.eqb config with_fps].
  generalize (windows b || unix_file_copy_paste b). intros w.
  destruct h as [[src frc frw sqm da dc lk tp pm fc sk vo sm iq' ciq' ops] d ct di pub fl dec fps']. cbn in Ht |- *. clear -Ht.
  destruct vo; cbn.
  - destruct sm, frc, frw, da, w; reflexivity.
  - destruct sm; [specialize (Ht eq_refl); discriminate Ht|]. destruct fc, w; destruct src, frc, frw, da, dc, lk; reflexivity.
Qed.

(** [C20] Viewer and device stay in step: after a viewer logs in to a fresh
    remote session, and after any sequence of the toggles its menus offer, each
    message being delivered, the device's view of the session's options
    (keyboard, clipboard, audio, file clipboard, cursors, locking at the end) is
    the one the viewer's configuration calls for, the view-only mode setting
    aside the options it overrides and bringing them back. *)
Theorem options_in_step b e h c ts :
  tidy h -> conn_type c = Some Remote -> opts c = mkOptions false false false false false false false false false ->
  let x := login_step b e h c in
  all_offered b ts x ->
  let '(h', c') := foldl (toggle_step b) x ts in
  opts c' = expected b (config h') /\ disk h' = config h'.
Proof.
  intros Hh Hc Ho x. assert (in_step b x) as Hx by by apply login_in_step. clearbody x. revert x Hx.
  induction ts as [|t ts IH]; intros x Hx; simpl.
  - destruct x as [h' c']. destruct Hx as ((? & _) & _ & ?). done.
  - intros [H1 H2]. apply IH; [by apply toggle_in_step|done].
Qed.

(** The menus matter: the toggle of a set-aside option undoes the view-only mode
    for it, and the view-only mode does not announce an own cursor that was
    configured before. *)
Definition conf0 : PeerConfig := mkPeerConfig false false false false false false false false false true false true false "balanced" [] ∅.
Definition handler0 (c : PeerConfig) : Handler := mkHandler c c DEFAULT_CONN None true true 0 None.
Definition build0 : Build := mkBuild true false false false false false false false 0 ∅.
Example set_aside_comes_back :
  (fun o => SessionState.disable_clipboard (apply_options build0 o (expected build0 conf0))) <$> (toggle_option "disable-clipboard" (handler0 (Conf.disable_clipboard true conf0))).1
  = Some false.
Proof. vm_compute. reflexivity. Qed.
Example own_cursor_not_announced :
  let h := handler0 (Conf.show_my_cursor true (Conf.view_only false conf0)) in
  let '(o, h') := toggle_option "view-only" h in
  pc_view_only (config h') = true /\ pc_show_my_cursor (config h') = true /\ (SessionScope.show_my_cursor <$> o) = Some 0.
Proof. vm_compute. done. Qed.

Lemma options_in_step_witness :
  let x := login_step build0 demo_sys (handler0 (Conf.disable_audio true conf0)) (demo_conn (all_perms true) true (Some Remote)) in
  let ts := [(demo_sys, "show-my-cursor"%string); (demo_sys, "view-only"%string); (demo_sys, "disable-clipboard"%string); (demo_sys, "disable-audio"%string)] in
  (opts x.2 = expected build0 (Conf.disable_audio true conf0)) /\
  let '(h', c') := foldl (toggle_step build0) x ts in
  opts c' = expected build0 (config h') /\ disk h' = config h'.
Proof.
  intros x ts. split; [vm_compute; reflexivity|].
  refine (options_in_step build0 demo_sys (handler0 (Conf.disable_audio true conf0)) (demo_conn (all_perms true) true (Some Remote)) ts _ eq_refl eq_refl _).
  - vm_compute. done.
  - vm_compute. done.
Defined.
