(* ===== verification/ViewerLogin.v ===== *)
(** * The viewer's side of a login ([src/client.rs], [PeerConfig] of
    [libs/hbb_common/src/config.rs])

    [LoginConfigHandler] as far as logging in goes: which device and server an
    address names ([initialize]), the password that answers the device's
    challenge and where it comes from ([handle_hash], [handle_login_from_ui]),
    what an error or a successful login does to what is remembered
    ([handle_login_error], [handle_peer_info]), and the peer's file with its
    encrypted secrets.  The device's side is [Authentication] and [LoginFlow].
    The build is the Flutter desktop viewer.  Of the login request the fields
    the device's handler reads are kept. *)
From S2P Require Import Prelude.
From S2P Require Import Crypto.
From S2P Require Import Encoding.
From S2P Require Import Version.
From S2P Require Import PasswordSecurity.
From S2P Require Import PermanentPassword.
From S2P Require Import Authentication.
From S2P Require Import SessionScope.
From S2P Require Import LoginFlow.
From S2P Require Import Options.
From S2P Require Import ViewerOptions.

Record Hash := mkHash { salt : bytes; challenge : bytes }.

Inductive PasswordSource :=
| PersonalAb (p : bytes)
| SharedAb (p : bytes)
| Undefined.

(** The peer's configuration: the session's options are [ViewerOptions]'. *)
Record PeerFile := mkPeerFile {
  pf_password : bytes;
  info_username : bytes;
  info_hostname : bytes;
  info_platform : bytes;
  keyboard_mode : bytes;
  pf_session : PeerConfig
}.
Definition peer_options (c : PeerFile) : gmap string bytes := pc_options (pf_session c).
Definition with_peer_password (p : bytes) (c : PeerFile) : PeerFile :=
  mkPeerFile p (info_username c) (info_hostname c) (info_platform c) (keyboard_mode c) (pf_session c).
Definition with_peer_options (o : gmap string bytes) (c : PeerFile) : PeerFile :=
  mkPeerFile (pf_password c) (info_username c) (info_hostname c) (info_platform c) (keyboard_mode c) (Conf.options o (pf_session c)).
Definition with_info (u h p : bytes) (c : PeerFile) : PeerFile :=
  mkPeerFile (pf_password c) u h p (keyboard_mode c) (pf_session c).
Definition with_keyboard_mode (k : bytes) (c : PeerFile) : PeerFile :=
  mkPeerFile (pf_password c) (info_username c) (info_hostname c) (info_platform c) k (pf_session c).

(** [ConnToken]; its JSON text is a fresh copy of it. *)
Record ConnToken := mkConnToken { token_password : bytes; token_source : PasswordSource; token_session : Z }.

(** [LoginConfigHandler] *)
Record Lc := mkLc {
  id : bytes;
  conn_type : ConnType;
  is_terminal_admin : bool;
  hash : Hash;
  password : bytes;
  remember : bool;
  config : PeerFile;
  port_forward : bytes * Z;
  version : Z;
  session_id : Z;
  force_relay : bool;
  direct : option bool;
  switch_uuid : option bytes;
  switch_back_allowed : bool;
  other_server : option (bytes * bytes * bytes);
  custom_fps : option Z;
  password_source : PasswordSource;
  shared_password : option bytes
}.
Definition set_hash (x : Hash) (l : Lc) : Lc :=
  mkLc (id l) (conn_type l) (is_terminal_admin l) x (password l) (remember l) (config l) (port_forward l) (version l) (session_id l) (force_relay l) (direct l) (switch_uuid l) (switch_back_allowed l) (other_server l) (custom_fps l) (password_source l) (shared_password l).
Definition set_password (x : bytes) (l : Lc) : Lc :=
  mkLc (id l) (conn_type l) (is_terminal_admin l) (hash l) x (remember l) (config l) (port_forward l) (version l) (session_id l) (force_relay l) (direct l) (switch_uuid l) (switch_back_allowed l) (other_server l) (custom_fps l) (password_source l) (shared_password l).
Definition set_remember (x : bool) (l : Lc) : Lc :=
  mkLc (id l) (conn_type l) (is_terminal_admin l) (hash l) (password l) x (config l) (port_forward l) (version l) (session_id l) (force_relay l) (direct l) (switch_uuid l) (switch_back_allowed l) (other_server l) (custom_fps l) (password_source l) (shared_password l).
Definition set_config (x : PeerFile) (l : Lc) : Lc :=
  mkLc (id l) (conn_type l) (is_terminal_admin l) (hash l) (password l) (remember l) x (port_forward l) (version l) (session_id l) (force_relay l) (direct l) (switch_uuid l) (switch_back_allowed l) (other_server l) (custom_fps l) (password_source l) (shared_password l).
Definition set_version (x : Z) (l : Lc) : Lc :=
  mkLc (id l) (conn_type l) (is_terminal_admin l) (hash l) (password l) (remember l) (config l) (port_forward l) x (session_id l) (force_relay l) (direct l) (switch_uuid l) (switch_back_allowed l) (other_server l) (custom_fps l) (password_source l) (shared_password l).
Definition set_switch (x : option bytes) (back : bool) (l : Lc) : Lc :=
  mkLc (id l) (conn_type l) (is_terminal_admin l) (hash l) (password l) (remember l) (config l) (port_forward l) (version l) (session_id l) (force_relay l) (direct l) x back (other_server l) (custom_fps l) (password_source l) (shared_password l).
Definition set_source (x : PasswordSource) (l : Lc) : Lc :=
  mkLc (id l) (conn_type l) (is_terminal_admin l) (hash l) (password l) (remember l) (config l) (port_forward l) (version l) (session_id l) (force_relay l) (direct l) (switch_uuid l) (switch_back_allowed l) (other_server l) (custom_fps l) x (shared_password l).
Definition set_shared (x : option bytes) (l : Lc) : Lc :=
  mkLc (id l) (conn_type l) (is_terminal_admin l) (hash l) (password l) (remember l) (config l) (port_forward l) (version l) (session_id l) (force_relay l) (direct l) (switch_uuid l) (switch_back_allowed l) (other_server l) (custom_fps l) (password_source l) x.

(** The files of the peers, by their id. *)
Local Abbreviation Disk := (gmap bytes PeerFile).

(** ** Keyboard modes ([keyboard.rs], [common.rs]) *)
Inductive KeyboardMode := Legacy | Map | Translate | Auto.
#[export] Instance KeyboardMode_eq_dec : EqDecision KeyboardMode.
Proof. solve_decision. Defined.
Definition keyboard_modes : list KeyboardMode := [Legacy; Map; Translate; Auto].
Definition mode_string (k : KeyboardMode) : bytes :=
  str match k with Legacy => "legacy" | Map => "map" | Translate => "translate" | Auto => "auto" end.
Definition mode_from_str (s : bytes) : option KeyboardMode :=
  List.find (fun k => bool_decide (mode_string k = s)) keyboard_modes.
Definition v1_2_0 : Z := get_version_number (str "1.2.0").
(** No other character lowers to one of "android". *)
Definition is_keyboard_mode_supported (k : KeyboardMode) (version_number : Z) (peer_platform : bytes) : bool :=
  match k with
  | Legacy => true
  | Map => if bool_decide (to_ascii_lowercase peer_platform = str "android") then false else v1_2_0 <=? version_number
  | Translate | Auto => v1_2_0 <=? version_number
  end.
Definition get_supported_keyboard_modes (v : Z) (peer_platform : bytes) : list KeyboardMode :=
  List.filter (fun k => is_keyboard_mode_supported k v peer_platform) keyboard_modes.

(** ** Address books *)
Record AbPeer := mkAbPeer { ab_id : bytes; ab_hash : bytes }.
Record AbEntry := mkAbEntry { ab_name : bytes; ab_peers : list AbPeer }.
Record Ab := mkAb { ab_token : bytes; ab_entries : list AbEntry }.
Definition personal (e : AbEntry) : bool :=
  bool_decide (ab_name e = str "My address book") || bool_decide (ab_name e = str "Legacy address book").

(** What the viewer's surroundings answer: its own id, name, platform, hardware
    id and version, its rendezvous server, the access token and the address
    book, the built-in password, whether this device asked for the switch of
    sides, whether a public server is used and the decodings it offers. *)
Record Around := mkAround {
  my_id : bytes;
  display_name : bytes;
  my_platform : bytes;
  get_hwid : bytes;
  my_version : bytes;
  rendezvous_server : bytes;
  access_token : bytes;
  ab : Ab;
  default_connect_password : bytes;
  consume_local_switch_sides_uuid : bytes -> bytes -> bool;
  using_public_server : bool;
  supported_decodings : Z;
  nonces : string -> bytes
}.

Inductive Out :=
| Login (l : LoginReq)
| SwitchLogin (uuid : bytes) (l : LoginReq)
| MsgBox (msgtype title text link : bytes)
| SyncPersonalAb (peer hash : bytes).
Definition msgbox (t title text : string) : Out := MsgBox (str t) (str title) (str text) [].

Section Viewer.
Context {SB : Secretbox} {B64 : Base64} {SHA : Sha256}.
Context (m : Machine).
(** [Uuid::from_str]; a directory in the JSON map [remote_dir] for a user; the
    public server's key; pages of the manual (constants of the build). *)
Context (uuid_from_str : bytes -> option bytes) (remote_dir : bytes -> bytes -> bytes) (RS_PUB_KEY : bytes).
Context (DOCS_LINUX_LOGIN_URL LINK_HEADLESS_LINUX_SUPPORT SCRAP_X11_REF_URL : bytes).
(** The session options of a peer without a file. *)
Context (default_session : PeerConfig).

(** ** The peer's file *)
Definition SECRETS : list string := ["rdp_password"; "os-username"; "os-password"]%string.
Definition hide (n : string -> bytes) (o : gmap string bytes) (k : string) : gmap string bytes :=
  match o !! k with
  | Some v => <[k := encrypt_str_or_original m (n k) v PASSWORD_ENC_VERSION ENCRYPT_MAX_LEN]> o
  | None => o
  end.
Definition store_ (n : string -> bytes) (c : PeerFile) : PeerFile :=
  with_peer_options (foldl (hide n) (peer_options c) SECRETS)
    (with_peer_password (encrypt_vec_or_original m (n "password"%string) (pf_password c) PASSWORD_ENC_VERSION ENCRYPT_MAX_LEN) c).
Definition reveal (x : gmap string bytes * bool) (k : string) : gmap string bytes * bool :=
  match x.1 !! k with
  | Some v => let '(v, _, store2) := decrypt_str_or_original m v PASSWORD_ENC_VERSION in (<[k := v]> x.1, x.2 || store2)
  | None => x
  end.
(** The configuration, and whether the file is to be written again. *)
Definition load (f : PeerFile) : PeerFile * bool :=
  let '(pw, _, store2) := decrypt_vec_or_original m (pf_password f) PASSWORD_ENC_VERSION in
  let '(o, store) := foldl reveal (peer_options f, store2) SECRETS in
  (with_peer_options o (with_peer_password pw f), store).

Definition new_peer : PeerFile := mkPeerFile [] [] [] [] [] default_session.
Definition load_config (a : Around) (i : bytes) (d : Disk) : PeerFile * Disk :=
  match d !! i with
  | Some f => let '(c, store) := load f in (c, if store then <[i := store_ (nonces a) c]> d else d)
  | None => (new_peer, d)
  end.
Definition save_config (a : Around) (c : PeerFile) (l : Lc) (d : Disk) : Lc * Disk :=
  (set_config c l, <[id l := store_ (nonces a) c]> d).

Definition get_option (l : Lc) (k : string) : bytes := default [] (peer_options (config l) !! k).
Definition set_option (a : Around) (k : string) (v : bytes) (l : Lc) (d : Disk) : Lc * Disk :=
  let '(c, d) := load_config a (id l) d in
  if bool_decide (v = get_option l k) then (l, d)
  else save_config a (with_peer_options (<[k := v]> (peer_options c)) c) l d.

(** ** Which device ([initialize]) *)
Record Opening := mkOpening {
  o_id : bytes;
  o_conn_type : ConnType;
  o_switch_uuid : option bytes;
  o_force_relay : bool;
  o_shared_password : option bytes;
  o_token : option ConnToken;
  o_random : Z;
  o_ws_or_proxy : bool;
  o_terminal_admin : bool
}.
Definition at_sign : byte := Byte.x40.
Definition question : byte := Byte.x3f.
Definition ampersand : byte := Byte.x26.
Definition equals : byte := Byte.x3d.
Definition nth_part (n : nat) (sep : byte) (s : bytes) : bytes := default [] (split_on sep s !! n).
(** [to_lowercase() == "key"]: besides the ASCII letters the Kelvin sign lowers
    to a k. *)
Definition is_key (k : bytes) : bool :=
  let k := match k with Byte.xe2 :: Byte.x84 :: Byte.xaa :: k => Byte.x6b :: k | _ => k end in
  bool_decide (to_ascii_lowercase k = str "key").
Fixpoint split_first (sep : byte) (s : bytes) : option (bytes * bytes) :=
  match s with
  | [] => None
  | b :: s => if bool_decide (b = sep) then Some ([], s) else (fun x => (b :: x.1, x.2)) <$> split_first sep s
  end.
(** The last argument called "key". *)
Definition key_argument (args : bytes) : bytes :=
  foldl (fun acc arg => match split_first equals arg with Some (k, v) => if is_key k then v else acc | None => acc end)
    [] (split_on ampersand args).
Definition handle_relay_id (i : bytes) : bytes :=
  if ends_with i [Byte.x5c; Byte.x72] || ends_with i (str "/r") then takeZ (len i - 2) i else i.
Definition PUBLIC_SERVER : bytes := str "public".

(** The id, whether a relay is asked for, and the other server. *)
Definition parse_id (i : bytes) (force_relay : bool) (other : option (bytes * bytes * bytes))
  : bytes * bool * option (bytes * bytes * bytes) :=
  if bool_decide (at_sign ∈ i) then
    let raw_id := nth_part 0 at_sign i in
    let server_key := nth_part 1 at_sign i in
    let server := nth_part 0 question server_key in
    let args := nth_part 1 question server_key in
    let key := if bool_decide (server = PUBLIC_SERVER) then RS_PUB_KEY else key_argument args in
    let real_id := handle_relay_id raw_id in
    (real_id ++ [at_sign] ++ server, force_relay || negb (bool_decide (real_id = raw_id)), Some (real_id, server, key))
  else
    let real_id := handle_relay_id i in
    if bool_decide (real_id = i) then (i, force_relay, other) else (real_id, true, other).

Definition initialize (a : Around) (o : Opening) (l : Lc) (d : Disk) : Lc * Disk :=
  let '(i, force_relay, other) := parse_id (o_id o) (o_force_relay o) (other_server l) in
  let '(c, d) := load_config a i d in
  let option k := default [] (peer_options c !! k) in
  let '(sid, pw, src) := match o_token o with
                         | Some t => (token_session t, token_password t, token_source t)
                         | None => (0, password l, password_source l) end in
  let sid := if sid =? 0 then if o_random o =? 0 then 1 else o_random o else sid in
  let force_relay := option2bool (str "force-always-relay") (option "force-always-relay"%string) || force_relay || o_ws_or_proxy o in
  let other := match other with
               | Some (real_id, server, key) =>
                   if negb (is_empty (option "other-server-key"%string)) && is_empty key
                   then Some (real_id, server, option "other-server-key"%string) else other
               | None => None end in
  let admin := bool_decide (o_conn_type o = TERMINAL) && o_terminal_admin o in
  (mkLc i (o_conn_type o) admin (hash l) pw (negb (is_empty (pf_password c))) c (port_forward l) (version l) sid force_relay None
     (o_switch_uuid o) false other (custom_fps l) src (o_shared_password o), d).

Definition get_conn_token (l : Lc) : option ConnToken :=
  if is_empty (password l) then None else Some (mkConnToken (password l) (password_source l) (session_id l)).

(** ** The login request ([create_login_msg]) *)
Definition handler_of (a : Around) (d : Disk) (l : Lc) : Handler :=
  mkHandler (pf_session (config l)) (pf_session (load_config a (id l) d).1) (conn_type l) (direct l) (using_public_server a) true
    (supported_decodings a) (custom_fps l).
Definition get_key_terminal_service_id (l : Lc) : string :=
  if is_terminal_admin l then "terminal-admin-service-id" else "terminal-service-id".
Definition login_union (l : Lc) : LoginUnion :=
  match conn_type l with
  | FILE_TRANSFER =>
      LFileTransfer (remote_dir (get_option l "remote_dir") (info_username (config l))) (negb (is_empty (get_option l "remote_show_hidden")))
  | VIEW_CAMERA => LViewCamera
  | PORT_FORWARD | RDP => LPortForward (port_forward l).1 (port_forward l).2
  | TERMINAL => LTerminal (get_option l (get_key_terminal_service_id l))
  | DEFAULT_CONN => LRemote
  end.
Definition create_login_msg (a : Around) (d : Disk) (os_username pw : bytes) (l : Lc) : LoginReq :=
  let '(me, pure_id) := match other_server l with
                        | Some (i, _, _) => (my_id a ++ [at_sign] ++ rendezvous_server a, i)
                        | None => (my_id a, id l) end in
  let hw := if bool_decide (get_option l "trust-this-device" = str "Y") then get_hwid a else [] in
  mkLogin pure_id me (display_name a) (my_platform a) (session_id l) pw hw (my_version a)
    (get_option_message true (handler_of a d l)).1 os_username (login_union l).

(** ** Answering the challenge ([handle_hash]) *)
Definition digest (pw slt : bytes) : bytes := sha256 (pw ++ slt).
Definition is_personal_ab (src : PasswordSource) (pw : bytes) : bool :=
  if is_empty pw then false else match src with PersonalAb p => bool_decide (p = pw) | _ => false end.
Definition is_shared_ab (src : PasswordSource) (pw : bytes) (h : Hash) : bool :=
  if is_empty pw then false else match src with SharedAb p => bool_decide (pw = digest p (salt h)) | _ => false end.

Definition try_get_password_from_personal_ab (a : Around) (x : bytes * Lc) : bytes * Lc :=
  if negb (is_empty (access_token a)) && bool_decide (access_token a = ab_token (ab a)) then
    match List.find personal (ab_entries (ab a)) with
    | Some e =>
        match List.find (fun p => bool_decide (ab_id p = id x.2)) (ab_peers e) with
        | Some p =>
            match b64_decode (ab_hash p) with
            | Some h => if is_empty h then x else (h, set_source (PersonalAb h) x.2)
            | None => x
            end
        | None => x
        end
    | None => x
    end
  else x.

(** The digest to answer with, in the order the sources are asked. *)
Definition last_or_preset (preset : bytes) (h : Hash) (l : Lc) : bytes * Lc :=
  if is_empty (password l) && negb (is_empty preset) then (digest preset (salt h), set_source Undefined l) else (password l, l).
Definition or_shared (h : Hash) (x : bytes * Lc) : bytes * Lc :=
  let l := set_shared None x.2 in
  match shared_password x.2 with
  | Some p => if is_empty p then (x.1, l) else (digest p (salt h), set_source (SharedAb p) l)
  | None => (x.1, l)
  end.
Definition or_remembered (x : bytes * Lc) : bytes * Lc :=
  if is_empty x.1 then (pf_password (config x.2), if is_empty (pf_password (config x.2)) then x.2 else set_source Undefined x.2) else x.
Definition or_personal (a : Around) (x : bytes * Lc) : bytes * Lc :=
  if is_empty x.1 then try_get_password_from_personal_ab a x else x.
Definition or_built_in (a : Around) (h : Hash) (x : bytes * Lc) : bytes * Lc :=
  if is_empty x.1 then
    let p := default_connect_password a in
    if is_empty p then x else (digest p (salt h), set_source (SharedAb p) x.2)
  else x.
Definition choose_password (a : Around) (preset : bytes) (h : Hash) (l : Lc) : Lc :=
  let '(pw, l) := or_built_in a h (or_personal a (or_remembered (or_shared h (last_or_preset preset h l)))) in
  set_password pw l.

Definition answer_hash (a : Around) (preset : bytes) (h : Hash) (d : Disk) (l : Lc) : Lc * list Out :=
  let l := choose_password a preset h l in
  let terminal := bool_decide (conn_type l = TERMINAL) in
  if terminal && is_terminal_admin l then
    (l, [msgbox (if is_empty (password l) then "terminal-admin-login-password" else "terminal-admin-login") "" ""])
  else
    let '(pw, out) := if is_empty (password l) then ([], [msgbox "input-password" "Password Required" ""])
                      else (sha256 (password l ++ challenge h), []) in
    (l, out ++ [Login (create_login_msg a d (if terminal then [] else get_option l "os-username") pw l)]).

Definition handle_hash (a : Around) (preset : bytes) (h : Hash) (d : Disk) (l : Lc) : Lc * list Out :=
  let l := set_hash h l in
  let uuid := switch_uuid l in
  let l := set_switch None (switch_back_allowed l) l in
  match uuid ≫= uuid_from_str with
  | Some u =>
      if consume_local_switch_sides_uuid a (id l) u then
        let l := set_switch None true l in
        (set_source Undefined l, [SwitchLogin u (create_login_msg a d [] [] l)])
      else answer_hash a preset h d l
  | None => answer_hash a preset h d l
  end.

Definition handle_login_from_ui (a : Around) (os_username typed : bytes) (rem : bool) (d : Disk) (l : Lc) : Lc * list Out :=
  let '(pw, l) :=
    if is_empty typed then
      if is_empty (password l) then
        (pf_password (config l), if is_empty (pf_password (config l)) then l else set_source Undefined l)
      else (password l, l)
    else (digest typed (salt (hash l)), set_remember rem (set_source Undefined l)) in
  let l := set_password pw l in
  (l, [Login (create_login_msg a d os_username (sha256 (pw ++ challenge (hash l))) l)]).

(** ** Errors ([handle_login_error]) *)
Definition LOGIN_MSG_PASSWORD_EMPTY : bytes := str "Empty Password".
Definition LOGIN_SCREEN_WAYLAND : bytes := str "Wayland login screen is not supported".
Definition LOGIN_ERROR_MAP : list (bytes * (Out * bool)) :=
  [(LOGIN_SCREEN_WAYLAND, (MsgBox (str "error") (str "Login Error") (str "Login screen using Wayland is not supported") DOCS_LINUX_LOGIN_URL, true));
   (LOGIN_MSG_DESKTOP_SESSION_NOT_READY, (msgbox "session-login" "" "", true));
   (str "Desktop xsession failed", (msgbox "session-re-login" "" "", true));
   (str "Desktop session another user login", (msgbox "info-nocancel" "another_user_login_title_tip" "another_user_login_text_tip", false));
   (str "Desktop xorg not found", (MsgBox (str "info-nocancel") (str "xorg_not_found_title_tip") (str "xorg_not_found_text_tip") LINK_HEADLESS_LINUX_SUPPORT, true));
   (str "Desktop none", (MsgBox (str "info-nocancel") (str "no_desktop_title_tip") (str "no_desktop_text_tip") LINK_HEADLESS_LINUX_SUPPORT, true));
   (LOGIN_MSG_DESKTOP_SESSION_NOT_READY_PASSWORD_EMPTY, (msgbox "session-login-password" "" "", true));
   (LOGIN_MSG_DESKTOP_SESSION_NOT_READY_PASSWORD_WRONG, (msgbox "session-login-re-password" "" "", true));
   (LOGIN_MSG_NO_PASSWORD_ACCESS, (msgbox "wait-remote-accept-nook" "Prompt" "Please wait for the remote side to accept your session request...", true))].
Fixpoint has_infix (p s : bytes) : bool :=
  PasswordSecurity.starts_with s p || match s with [] => false | _ :: s => has_infix p s end.

(** Whether the connection is kept for another try. *)
Definition handle_login_error (a : Around) (err : bytes) (l : Lc) (d : Disk) : bool * Lc * Disk * list Out :=
  if bool_decide (err = LOGIN_MSG_PASSWORD_EMPTY) then
    (true, set_password [] l, d, [msgbox "input-password" "Password Required" ""])
  else if bool_decide (err = LOGIN_MSG_PASSWORD_WRONG) then
    (true, set_password [] l, d, [MsgBox (str "re-input-password") err (str "Do you want to enter again?") []])
  else if bool_decide (err = LOGIN_MSG_2FA_WRONG) || bool_decide (err = REQUIRE_2FA) then
    let '(l, d) := if bool_decide (get_option l "trust-this-device" = str "Y") then set_option a "trust-this-device" [] l d else (l, d) in
    (true, l, d, [MsgBox (str "input-2fa") err [] []])
  else
    match List.find (fun x => bool_decide (x.1 = err)) LOGIN_ERROR_MAP with
    | Some (_, (box, try_again)) => (try_again, l, d, [box])
    | None => (false, l, d, [MsgBox (str "error") (str "Login Error") err (if has_infix (str "x11 expected") err then SCRAP_X11_REF_URL else [])])
    end.

(** ** Logged in ([handle_peer_info]) *)
Record PeerInfo := mkPeerInfo { pi_username : bytes; pi_hostname : bytes; pi_platform : bytes; pi_version : bytes }.
Definition remembered (l : Lc) (password0 : bytes) : bytes :=
  if remember l then
    if negb (is_empty (password l)) && negb (bool_decide (password l = password0))
       && negb (is_shared_ab (password_source l) (password l) (hash l))
    then password l else password0
  else if is_personal_ab (password_source l) (password l) then password l
  else [].
Definition settled_mode (pi : PeerInfo) (mode : bytes) : bytes :=
  let v := get_version_number (pi_version pi) in
  if is_empty mode then
    mode_string (if is_keyboard_mode_supported Map v (pi_platform pi) then Map else Legacy)
  else
    let current := default Legacy (mode_from_str mode) in
    if existsb (fun k => bool_decide (k = current)) (get_supported_keyboard_modes v (pi_platform pi)) then mode else mode_string Legacy.
(** The configuration after the login. *)
Definition informed (pi : PeerInfo) (l : Lc) (c : PeerFile) : PeerFile :=
  let c := with_info (pi_username pi) (pi_hostname pi) (pi_platform pi) c in
  let c := with_peer_password (remembered l (pf_password c)) c in
  let c := match other_server l with
           | Some (_, b, key) => if bool_decide (b = PUBLIC_SERVER) then c
                                 else with_peer_options (<["other-server-key"%string := key]> (peer_options c)) c
           | None => c end in
  let c := if force_relay l then with_peer_options (<["force-always-relay"%string := str "Y"]> (peer_options c)) c else c in
  with_keyboard_mode (settled_mode pi (keyboard_mode c)) c.
Definition handle_peer_info (a : Around) (pi : PeerInfo) (l : Lc) (d : Disk) : Lc * Disk * list Out :=
  let l := if is_empty (pi_version pi) then l else set_version (get_version_number (pi_version pi)) l in
  let '(c, d) := load_config a (id l) d in
  let c := informed pi l c in
  let out := if negb (is_empty (pf_password c)) && negb (is_shared_ab (password_source l) (password l) (hash l))
                && negb (is_personal_ab (password_source l) (password l))
             then [SyncPersonalAb (id l) (b64_encode (pf_password c))] else [] in
  (save_config a c l d, out).

(** ** Storing and loading *)
Context {SBL : SecretboxLaws} {B64L : Base64Laws} {SHAL : Sha256Laws}.

Lemma digest_len p s : len (digest p s) = 32.
Proof. apply sha256_len. Qed.
Lemma digest_some p s : is_empty (digest p s) = false.
Proof. pose proof (digest_len p s) as H. by destruct (digest p s). Qed.
Lemma answer_some x : is_empty (sha256 x) = false.
Proof. pose proof (sha256_len x) as H. by destruct (sha256 x). Qed.
(** What a file keeps as a password: nothing, or a digest. *)
Definition digest_like (p : bytes) : Prop := p = [] \/ len p = 32.
Lemma digest_plain p : len p = 32 -> is_encrypted p = false.
Proof.
  intros H. unfold is_encrypted. destruct (_ || _); [done|]. destruct (b64_decode _) as [x|] eqn:E; [|done].
  apply b64_decode_len in E. unfold VERSION_LEN in E. rewrite len_dropZ in E by lia. rewrite H in E. done.
Qed.

Lemma load_password f : pf_password (load f).1 = (decrypt_vec_or_original m (pf_password f) PASSWORD_ENC_VERSION).1.1.
Proof.
  unfold load. destruct (decrypt_vec_or_original _ _ _) as [[pw b] st]. by destruct (foldl reveal _ _) as [o st'].
Qed.
Lemma stored_password n c : len (n "password"%string) = NONCEBYTES -> digest_like (pf_password c) ->
  pf_password (load (store_ n c)).1 = pf_password c.
Proof.
  intros Hn [E|E].
  - rewrite load_password. unfold store_. simpl. rewrite E. done.
  - rewrite load_password. cbn [store_ pf_password with_peer_options with_peer_password].
    destruct (encrypt_vec_stored m (n "password"%string) (pf_password c) ENCRYPT_MAX_LEN Hn) as (x & Ex & Hne & _ & Hd);
      [by intros E0; rewrite E0 in E|by apply digest_plain|rewrite E; done|].
    unfold PASSWORD_ENC_VERSION. rewrite Ex, decrypt_vec_stored by done. destruct m as [u pk mb]. by rewrite Hd.
Qed.

(** Nonces have the length of nonces. *)
Definition sane (a : Around) : Prop := len (nonces a "password"%string) = NONCEBYTES.
Definition file_password (a : Around) (i : bytes) (d : Disk) : bytes := pf_password (load_config a i d).1.

Lemma load_config_password a a' i d : sane a -> (digest_like (file_password a' i d)) ->
  file_password a' i (load_config a i d).2 = file_password a' i d.
Proof.
  intros Ha Hd. unfold file_password, load_config in *. destruct (d !! i) as [f|] eqn:E; [|simpl; by rewrite E].
  destruct (load f) as [c st] eqn:El. destruct st; simpl; [|by rewrite E, El]. rewrite lookup_insert_eq.
  destruct (load (store_ (nonces a) c)) as [c2 st2] eqn:E2. simpl in *. pose proof (stored_password (nonces a) c Ha Hd) as H.
  by rewrite E2 in H.
Qed.
Lemma save_config_password a a' c l d : sane a -> digest_like (pf_password c) ->
  file_password a' (id l) (save_config a c l d).2 = pf_password c.
Proof.
  intros Ha Hd. unfold file_password, load_config. simpl. rewrite lookup_insert_eq.
  destruct (load (store_ (nonces a) c)) as [c2 st2] eqn:E2. pose proof (stored_password (nonces a) c Ha Hd) as H. by rewrite E2 in H.
Qed.
(** Only the options and the password of the file depend on the surroundings. *)
Lemma load_config_same a a' i d : (load_config a i d).1 = (load_config a' i d).1.
Proof. unfold load_config. destruct (d !! i) as [f|]; [|done]. by destruct (load f). Qed.

Lemma informed_password pi l c : pf_password (informed pi l c) = remembered l (pf_password c).
Proof. unfold informed. destruct (force_relay l), (other_server l) as [[[? b] k]|]; simpl; try case_bool_decide; done. Qed.

(** A successful login leaves in the file the password it [remembered]. *)
Lemma peer_info_password a pi l d : sane a ->
  digest_like (remembered l (file_password a (id l) d)) ->
  let '(l', d', _) := handle_peer_info a pi l d in
  (forall a', file_password a' (id l) d' = remembered l (file_password a (id l) d)) /\
  pf_password (config l') = remembered l (file_password a (id l) d) /\
  id l' = id l /\ password l' = password l /\ password_source l' = password_source l /\ hash l' = hash l.
Proof.
  intros Ha Hd. unfold handle_peer_info.
  set (l1 := if is_empty (pi_version pi) then l else _).
  assert (id l1 = id l /\ password l1 = password l /\ password_source l1 = password_source l /\ hash l1 = hash l /\
    forall x, remembered l1 x = remembered l x) as (E1 & E2 & E3 & E4 & Er)
    by (subst l1; by destruct (is_empty _)).
  clearbody l1. unfold file_password in Hd. rewrite E1.
  pose proof (informed_password pi l1 (load_config a (id l) d).1) as Hi. rewrite Er in Hi.
  change (file_password a (id l) d) with (pf_password (load_config a (id l) d).1). rewrite <- Hi in Hd |- *.
  destruct (load_config a (id l) d) as [c d1]. cbn [fst] in *.
  pose proof (fun a' => save_config_password a a' (informed pi l1 c) l1 d1 Ha Hd) as Hs. rewrite E1 in Hs.
  unfold save_config in *. by split_and!.
Qed.
(** ** The device opens to the right password

    [admits] is what a login needs besides a password: the session's kind is
    permitted and can be set up, the request names this device, no second
    factor or click is demanded and the viewer's address is not locked out. *)
Section Device.
Context (dm : Machine) (parse_v6 : string -> option bytes) (show_v6 : bytes -> string) (is_direct_ip_access : bytes -> bool).

Definition can_set_up (e : Env) (u : LoginUnion) : bool :=
  match u with
  | LTerminal service => negb (bool_decide (is_service_specified_user e service = Some true))
  | LPortForward host port => connect e (normalize_port_forward_target host port).1
  | _ => true
  end.
Definition admits (e : Env) (q : LoginReq) (c : Conn) (s : Shared) : bool :=
  negb (authorized c) && is_none (require_2fa c)
  && is_some (request_scope e (reset_session_scope_for_login (handle_login_request_without_validation e q c s)) s).1
  && (is_direct_ip_access (LoginFlow.username q) || bool_decide (LoginFlow.username q = get_id e))
  && is_empty (err_msg e) && negb (headless_check e)
  && negb (click_only dm e s)
  && (LoginThrottle.check_failure parse_v6 show_v6 (ip c) 0 (now_ms e) (throttle s)).1.1.2
  && can_set_up e (lr_union q).
Definition lets_in (e : Env) (q : LoginReq) (c : Conn) (s : Shared) : bool :=
  let '(keep, c, _, _) := on_login_request dm parse_v6 show_v6 is_direct_ip_access e q c s in keep && authorized c.

Lemma grant_opens e c s : authorized c = false -> require_2fa c = None -> can_set_up e (lr_union (lr c)) = true ->
  (terminal c = true -> lr_union (lr c) = LTerminal (terminal_service_id c)) ->
  let '(keep, c, _, _) := grant e c s in keep && authorized c = true.
Proof.
  intros Ha H2 Hs Ht. unfold grant, send_logon_response_and_keep_alive, second_factor_due. rewrite Ha, H2.
  unfold prepare_terminal_login_for_authorization, connect_port_forward_if_needed.
  destruct (terminal c) eqn:Et.
  - rewrite (Ht eq_refl) in Hs. simpl in Hs. destruct (terminal_user_token c); simpl.
    + destruct (port_forward_socket c); [done|]. simpl. by rewrite (Ht eq_refl).
    + destruct (is_service_specified_user e (terminal_service_id c)) as [[]|]; simpl in *; [done|..];
        (destruct (port_forward_socket c); [done|]; by rewrite (Ht eq_refl)).
  - simpl. destruct (port_forward_socket c); [done|]. destruct (lr_union (lr c)) as [| | |host port|]; try done.
    simpl in Hs. destruct (normalize_port_forward_target host port) as [addr rdp]. simpl in Hs. by rewrite Hs.
Qed.

Lemma recent_keeps c tf now a : credentials dm c true (is_recent_session c tf now a).2 = credentials dm c true a /\
  credentials dm c false (is_recent_session c tf now a).2 = credentials dm c false a.
Proof. unfold is_recent_session. by destruct (_ !! _). Qed.

Lemma password_opens e c s : authorized c = false -> require_2fa c = None -> can_set_up e (lr_union (lr c)) = true ->
  (terminal c = true -> lr_union (lr c) = LTerminal (terminal_service_id c)) ->
  err_msg e = [] -> click_only dm e s = false ->
  (LoginThrottle.check_failure parse_v6 show_v6 (ip c) 0 (now_ms e) (throttle s)).1.1.2 = true ->
  lr_pw (lr c) <> [] -> answers (attempt c) (credentials dm (attempt c) (allow_logon_screen_password e s) (auth s)) ->
  let '(keep, c, _, _) := check_password dm parse_v6 show_v6 e c s in keep && authorized c = true.
Proof.
  intros Ha H2 Hs Ht He Hc Hf Hp Hw. unfold check_password. rewrite Hc, He. cbn [is_empty].
  destruct (recent_keeps (attempt c) false (now e) (auth s)) as [R1 R2].
  assert (allow_logon_screen_password e (with_auth s (is_recent_session (attempt c) false (now e) (auth s)).2) = allow_logon_screen_password e s) as Hl.
  { unfold is_recent_session. by destruct (_ !! _). }
  destruct (is_recent_session (attempt c) false (now e) (auth s)) as [recent a]. cbn [snd] in *.
  destruct recent; [by apply grant_opens|]. destruct (lr_pw (lr c)) as [|x p] eqn:Ep; [done|]. cbn [is_empty].
  cbn [throttle with_auth]. destruct (LoginThrottle.check_failure _ _ _ _ _ _) as [[[[failure time] res] eff] t]. cbn in Hf. subst res. cbn [negb].
  assert (answers (attempt c) (credentials dm (attempt c) (allow_logon_screen_password e s) a)) as Hw'
    by (destruct (allow_logon_screen_password e s); by rewrite ?R1, ?R2).
  apply validate_password_spec with (now := now e) in Hw'.
  change (allow_logon_screen_password e (with_throttle (with_auth s a) t)) with (allow_logon_screen_password e (with_auth s a)). rewrite Hl.
  cbn [auth with_throttle with_auth]. destruct (validate_password dm (attempt c) (allow_logon_screen_password e s) (now e) a) as [[ok pr] a'].
  cbn in Hw'. subst ok. cbn [negb].
  match goal with |- context [grant e ?x ?y] => pose proof (grant_opens e x y Ha H2 Hs Ht) as G; destruct (grant e x y) as [[[k ?] ?] ?] end.
  done.
Qed.

(** What [request_scope] leaves of the connection. *)
Lemma scope_keeps e c s c' eff : request_scope e c s = (Some c', eff) -> terminal c = false ->
  authorized c' = authorized c /\ require_2fa c' = require_2fa c /\ lr c' = lr c /\ ip c' = ip c /\ attempt c' = attempt c /\
  (terminal c' = true -> lr_union (lr c') = LTerminal (terminal_service_id c')).
Proof.
  intros H Ht. unfold request_scope in H. destruct (lr_union (lr c)) as [| |sid|h p|] eqn:E;
    repeat match type of H with (if ?x then _ else _) = _ => destruct x end; try discriminate H; injection H as <- <-;
    split_and!; try done; intros; simpl in *; congruence.
Qed.

(** The answer for one of the device's passwords opens it. *)
Lemma lets_in_answer e q c s h1 : admits e q c s = true ->
  h1 ∈ credentials dm (mkAttempt (LoginFlow.salt c) (LoginFlow.challenge c) [] ([], [], 0)) (allow_logon_screen_password e s) (auth s) ->
  lr_pw q = sha256 (h1 ++ LoginFlow.challenge c) -> lets_in e q c s = true.
Proof.
  unfold admits. rewrite !andb_true_iff. intros ((((((((Ha & H2) & Hs) & Hn) & He) & Hh) & Hc) & Hf) & Hu) Hh1 Hq.
  apply negb_true_iff in Ha, Hh, Hc. assert (require_2fa c = None) as H2' by by destruct (require_2fa c).
  assert (err_msg e = []) as He' by by destruct (err_msg e).
  assert (exists o, handle_login_request_without_validation e q c s = set_lr c q o) as (o & Eo).
  { unfold handle_login_request_without_validation. cbn [require_2fa set_lr]. rewrite H2', bool_decide_true by done. by eexists. }
  unfold lets_in, on_login_request. rewrite Eo in Hs |- *. cbn [authorized set_lr]. rewrite Ha.
  destruct (request_scope e _ s) as [[c1|] eff] eqn:E; [|done]. clear Hs.
  destruct (scope_keeps _ _ _ _ _ E eq_refl) as (K1 & K2 & K3 & K4 & K5 & K6).
  assert (negb (is_direct_ip_access (LoginFlow.username q)) && negb (bool_decide (LoginFlow.username q = get_id e)) = false) as ->
    by by rewrite <- negb_orb, Hn.
  unfold headless_desktop. rewrite Hh, He'. cbn [negb is_empty andb].
  pose proof (password_opens e c1 s) as G. rewrite K1, K2, K3, K4, K5 in G. cbn [lr set_lr set_scope reset_session_scope_for_login] in G.
  assert (lr_pw q <> []) as Hne by (rewrite Hq; pose proof (sha256_len (h1 ++ LoginFlow.challenge c)) as L; by destruct (sha256 _)).
  rewrite K3 in K6. specialize (G Ha H2' Hu K6 He' Hc Hf Hne ltac:(by exists h1)).
  by destruct (check_password _ _ _ _ _ _) as [[[k c2] s2] eff2].
Qed.
End Device.

(** ** Remembering a password *)
Definition fresh_lc : Lc :=
  mkLc [] DEFAULT_CONN false (mkHash [] []) [] false new_peer ([], 0) 0 0 false None None false None None Undefined None.

(** Every device that admits the request and has the digest [h1] among its
    passwords opens to it. *)
Definition opens (h1 slt ch : bytes) (q : LoginReq) : Prop :=
  forall dm parse_v6 show_v6 is_direct_ip_access e c s,
  LoginFlow.salt c = slt -> LoginFlow.challenge c = ch -> admits dm parse_v6 show_v6 is_direct_ip_access e q c s = true ->
  h1 ∈ credentials dm (mkAttempt slt ch [] ([], [], 0)) (allow_logon_screen_password e s) (auth s) ->
  lets_in dm parse_v6 show_v6 is_direct_ip_access e q c s = true.
Lemma answer_opens h1 slt ch q : lr_pw q = sha256 (h1 ++ ch) -> opens h1 slt ch q.
Proof. intros Hq dm p6 s6 di e c s <- <- Ha Hc. by eapply lets_in_answer. Qed.
Lemma login_msg_pw a d os pw l : lr_pw (create_login_msg a d os pw l) = pw.
Proof. unfold create_login_msg. by destruct (other_server l) as [[[? ?] ?]|]. Qed.

Lemma remembered_typed l t p0 : password l = digest t (salt (hash l)) -> password_source l = Undefined ->
  remembered l p0 = if remember l then digest t (salt (hash l)) else [].
Proof.
  intros Hp Hs. unfold remembered, is_shared_ab, is_personal_ab. rewrite Hp, Hs, !digest_some. destruct (remember l); [|done].
  case_bool_decide as E; simpl; [by rewrite <- E|done].
Qed.

Section Reopened.
Context (a : Around) (o : Opening) (d : Disk).
Hypothesis no_token : o_token o = None.
Hypothesis no_shared : o_shared_password o = None.
Hypothesis no_switch : o_switch_uuid o = None.
Hypothesis no_admin : o_terminal_admin o = false.
Hypothesis no_account : access_token a = [].
Hypothesis no_built_in : default_connect_password a = [].

Lemma reopened i : (parse_id (o_id o) (o_force_relay o) None).1.1 = i ->
  let '(l, _) := initialize a o fresh_lc d in
  pf_password (config l) = file_password a i d /\ password l = [] /\ switch_uuid l = None /\ shared_password l = None /\ is_terminal_admin l = false.
Proof.
  intros <-. unfold initialize, file_password. cbn [other_server fresh_lc]. destruct (parse_id _ _ _) as [[i f] ot]. cbn [fst].
  destruct (load_config a i d) as [c d']. rewrite no_token, no_switch, no_shared, no_admin. simpl. by rewrite andb_false_r.
Qed.

(** What a challenge is answered with when nothing but the file knows. *)
Lemma answered_from_file i h d' : (parse_id (o_id o) (o_force_relay o) None).1.1 = i ->
  let '(l, _) := initialize a o fresh_lc d in
  let '(_, out) := handle_hash a [] h d' l in
  if is_empty (file_password a i d)
  then exists q, out = [msgbox "input-password" "Password Required" ""; Login q] /\ lr_pw q = []
  else exists q, out = [Login q] /\ lr_pw q = sha256 (file_password a i d ++ challenge h).
Proof.
  intros Hi. pose proof (reopened i Hi) as R. destruct (initialize a o fresh_lc d) as [l d1]. destruct R as (Rp & Rw & Rs & Rsh & Ra).
  rewrite <- Rp. unfold handle_hash. cbn [switch_uuid set_hash]. rewrite Rs. cbn [mbind option_bind].
  unfold answer_hash, choose_password, last_or_preset. cbn [password set_switch set_hash]. rewrite Rw. cbn [is_empty negb andb].
  unfold or_shared. cbn [shared_password snd fst set_switch set_hash]. rewrite Rsh.
  unfold or_remembered. cbn [fst snd is_empty config set_shared set_switch set_hash].
  destruct (pf_password (config l)) as [|x p] eqn:Ep; cbn [is_empty].
  - unfold or_personal, try_get_password_from_personal_ab, or_built_in. cbn [fst snd is_empty].
    rewrite no_account, no_built_in. cbn [is_empty negb andb fst snd].
    cbn [password conn_type is_terminal_admin set_password set_shared set_switch set_hash is_empty].
    rewrite Ra, andb_false_r. eexists. split; [done|]. apply login_msg_pw.
  - unfold or_personal, or_built_in. cbn [fst snd is_empty].
    cbn [password conn_type is_terminal_admin set_password set_source set_shared set_switch set_hash is_empty].
    rewrite Ra, andb_false_r. eexists. split; [done|]. apply login_msg_pw.
Qed.
End Reopened.

(** [C23] A remembered password logs in by itself, another is asked for: a viewer
    types the device's password; its answer opens every device that admits the
    request and has that password.  After the login the viewer is closed and
    opened again, with the configuration read back from the encrypted file, and
    the device sends a new challenge.  If the password was to be remembered the
    viewer answers at once and the answer opens the device; if not, it asks for
    a password and waits with an empty one, whatever the file held before. *)
Theorem remembered_login a a' o l d os typed rem pi ch :
  sane a -> typed <> [] ->
  (parse_id (o_id o) (o_force_relay o) None).1.1 = id l ->
  o_token o = None -> o_shared_password o = None -> o_switch_uuid o = None -> o_terminal_admin o = false ->
  access_token a' = [] -> default_connect_password a' = [] ->
  let slt := salt (hash l) in
  let '(l1, out1) := handle_login_from_ui a os typed rem d l in
  let '(l2, d2, _) := handle_peer_info a pi l1 d in
  let '(l3, d3) := initialize a' o fresh_lc d2 in
  let '(l4, out4) := handle_hash a' [] (mkHash slt ch) d3 l3 in
  (exists q, out1 = [Login q] /\ opens (digest typed slt) slt (challenge (hash l)) q) /\
  if rem then exists q, out4 = [Login q] /\ opens (digest typed slt) slt ch q
  else exists q, out4 = [msgbox "input-password" "Password Required" ""; Login q] /\ lr_pw q = [].
Proof.
  intros Ha Ht Hi N1 N2 N3 N4 A1 A2 slt. unfold handle_login_from_ui. destruct typed as [|x t]; [done|]. cbn [is_empty].
  remember (x :: t) as typed eqn:E. clear E Ht x t.
  set (l1 := set_password _ _).
  pose proof (remembered_typed l1 typed (file_password a (id l1) d) eq_refl eq_refl) as Hr.
  pose proof (peer_info_password a pi l1 d Ha) as Hp. rewrite Hr in Hp.
  change (remember l1) with rem in Hp. change (hash l1) with (hash l) in Hp. fold slt in Hp.
  destruct (handle_peer_info a pi l1 d) as [[l2 d2] out2].
  destruct Hp as (Hp & _); [destruct rem; [right; apply digest_len|by left]|]. specialize (Hp a'). change (id l1) with (id l) in Hp.
  pose proof (fun d' => answered_from_file a' o d2 N1 N2 N3 N4 A1 A2 (id l) (mkHash slt ch) d' Hi) as Hq.
  destruct (initialize a' o fresh_lc d2) as [l3 d3]. specialize (Hq d3).
  destruct (handle_hash a' [] (mkHash slt ch) d3 l3) as [l4 out4]. rewrite Hp in Hq. split.
  - eexists. split; [done|]. apply answer_opens, login_msg_pw.
  - destruct rem; [rewrite digest_some in Hq|done]. destruct Hq as (q & Eo & Eq). exists q. split; [done|]. by apply answer_opens.
Qed.

(** ** Shared passwords are not kept

    What can happen to a login after it was opened; the device's salt is [slt]
    throughout. *)
Inductive Ev :=
| EvOpen (o : Opening) (preset ch : bytes)
| EvHash (preset ch : bytes)
| EvUi (os typed : bytes) (rem : bool)
| EvError (err : bytes)
| EvInfo (pi : PeerInfo).
(** A new window takes over the password of the old one. *)
Definition handed_over (l : Lc) (o : Opening) : Opening :=
  mkOpening (o_id o) (o_conn_type o) (o_switch_uuid o) (o_force_relay o) (o_shared_password o) (get_conn_token l) (o_random o) (o_ws_or_proxy o) (o_terminal_admin o).
Definition happens (slt : bytes) (x : Lc * Disk) (e : Around * Ev) : Lc * Disk :=
  match e.2 with
  | EvOpen o preset ch =>
      let '(l, d) := initialize e.1 (handed_over x.1 o) fresh_lc x.2 in ((handle_hash e.1 preset (mkHash slt ch) d l).1, d)
  | EvHash preset ch => ((handle_hash e.1 preset (mkHash slt ch) x.2 x.1).1, x.2)
  | EvUi os typed rem => ((handle_login_from_ui e.1 os typed rem x.2 x.1).1, x.2)
  | EvError err => let '(_, l, d, _) := handle_login_error e.1 err x.1 x.2 in (l, d)
  | EvInfo pi => (handle_peer_info e.1 pi x.1 x.2).1
  end.
(** The passwords the user entered, and the digests of the own address book. *)
Definition entered (e : Ev) : list bytes :=
  match e with EvOpen _ preset _ | EvHash preset _ => [preset] | EvUi _ typed _ => [typed] | _ => [] end.
Definition in_ab (a : Around) (x : bytes) : Prop :=
  exists e p, e ∈ ab_entries (ab a) /\ personal e = true /\ p ∈ ab_peers e /\ b64_decode (ab_hash p) = Some x.
Definition own (slt p0 : bytes) (evs : list (Around * Ev)) (x : bytes) : Prop :=
  x = [] \/ x = p0 \/ Exists (fun e => in_ab e.1 x \/ exists t, t ∈ entered e.2 /\ x = digest t slt) evs.

Section Kept.
Context (slt : bytes) (K : bytes -> Prop).
Hypothesis K_nil : K [].
Hypothesis K_digest : forall x, K x -> digest_like x.

(** Where the password in memory comes from. *)
Definition sourced (pw : bytes) (l : Lc) : Prop :=
  match password_source l with
  | SharedAb p => pw = [] \/ pw = digest p slt
  | PersonalAb p => K p /\ K pw
  | Undefined => K pw
  end.
(** What one event may bring in. *)
Definition brings (i : bytes) (e : Around * Ev) : Prop :=
  sane e.1 /\ (forall x, in_ab e.1 x -> K x) /\ Forall (fun t => K (digest t slt)) (entered e.2) /\
  match e.2 with EvOpen o _ _ => (parse_id (o_id o) (o_force_relay o) None).1.1 = i /\ o_switch_uuid o = None | _ => True end.
Definition base (i : bytes) (x : Lc * Disk) : Prop :=
  sourced (password x.1) x.1 /\ forall a, K (file_password a i x.2).
Definition safe (i : bytes) (x : Lc * Disk) : Prop :=
  base i x /\ id x.1 = i /\ salt (hash x.1) = slt /\ K (pf_password (config x.1)) /\ switch_uuid x.1 = None.

Lemma sourced_nil l : sourced (password l) l -> sourced [] l.
Proof. unfold sourced. destruct (password_source l); [intros [??]; by split|by left|done]. Qed.

Lemma personal_sourced a x l : (forall y, in_ab a y -> K y) -> sourced x l ->
  let r := try_get_password_from_personal_ab a (x, l) in sourced r.1 r.2 /\ config r.2 = config l /\ id r.2 = id l.
Proof.
  intros Hab Hs. unfold try_get_password_from_personal_ab. destruct (_ && _); [|done].
  destruct (List.find personal _) as [e|] eqn:Ee; [|done]. apply List.find_some in Ee as [Ee1 Ee2].
  destruct (List.find _ (ab_peers e)) as [p|] eqn:Ep; [|done]. apply List.find_some in Ep as [Ep1 _].
  destruct (b64_decode (ab_hash p)) as [h|] eqn:Eh; [|done]. destruct (is_empty h); [done|].
  split; [|done]. assert (K h) as Hh; [|by split]. apply Hab. exists e, p. rewrite <- !list_elem_of_In in *. done.
Qed.

(** Choosing a password keeps the rest. *)
Definition fine (l : Lc) (x : bytes * Lc) : Prop :=
  sourced x.1 x.2 /\ config x.2 = config l /\ id x.2 = id l /\ hash x.2 = hash l /\ switch_uuid x.2 = switch_uuid l.
Lemma personal_fine l a x : (forall y, in_ab a y -> K y) -> fine l x -> fine l (try_get_password_from_personal_ab a x).
Proof.
  intros Hab Hx. unfold try_get_password_from_personal_ab. destruct (_ && _); [|done].
  destruct (List.find personal _) as [e|] eqn:Ee; [|done]. apply List.find_some in Ee as [Ee1 Ee2].
  destruct (List.find _ (ab_peers e)) as [p|] eqn:Ep; [|done]. apply List.find_some in Ep as [Ep1 _].
  destruct (b64_decode (ab_hash p)) as [h|] eqn:Eh; [|done]. destruct (is_empty h); [done|].
  split; [|apply Hx]. assert (K h) as Hh; [|by split]. apply Hab. exists e, p. rewrite <- !list_elem_of_In in *. done.
Qed.
Lemma shared_fine l h x : salt h = slt -> fine l x -> fine l (or_shared h x).
Proof.
  intros Hh Hx. unfold or_shared. destruct (shared_password x.2) as [p|]; [destruct (is_empty p); [done|]|done].
  split; [right; by rewrite Hh|apply Hx].
Qed.
Lemma built_in_fine l a h x : salt h = slt -> fine l x -> fine l (or_built_in a h x).
Proof.
  intros Hh Hx. unfold or_built_in. destruct (is_empty x.1); [|done]. destruct (is_empty _); [done|]. split; [right; by rewrite Hh|apply Hx].
Qed.
Lemma remembered_fine l x : K (pf_password (config l)) -> fine l x -> fine l (or_remembered x).
Proof.
  intros Hc Hx. unfold or_remembered. destruct x as [[|y x1] x2]; [|done]. pose proof Hx as (_ & X2 & _). cbn [fst snd is_empty] in *. rewrite X2.
  destruct (pf_password (config l)); [done|]. split; [done|apply Hx].
Qed.
Lemma choose_fine a preset h l : salt h = slt -> (forall y, in_ab a y -> K y) -> K (digest preset slt) ->
  sourced (password l) l -> K (pf_password (config l)) ->
  let r := choose_password a preset h l in fine l (password r, r).
Proof.
  intros Hh Hab Hp Hs Hc. unfold choose_password.
  assert (fine l (last_or_preset preset h l)) as H0 by (unfold last_or_preset; destruct (_ && _); [by rewrite Hh|done]).
  apply (shared_fine l h) in H0; [|done]. apply remembered_fine in H0; [|done].
  assert (fine l (or_personal a (or_remembered (or_shared h (last_or_preset preset h l))))) as H1
    by (unfold or_personal; destruct (is_empty _); [by apply personal_fine|done]).
  apply (built_in_fine l a h) in H1; [|done]. by destruct (or_built_in _ _ _) as [pw r].
Qed.

Lemma hash_safe i a preset ch d l : (forall x, in_ab a x -> K x) -> K (digest preset slt) ->
  base i (l, d) -> id l = i -> K (pf_password (config l)) -> switch_uuid l = None ->
  safe i ((handle_hash a preset (mkHash slt ch) d l).1, d).
Proof.
  intros Hab Hp [Hs Hd] Hi Hc Hu. unfold handle_hash. cbn [switch_uuid set_hash]. rewrite Hu. cbn [mbind option_bind].
  set (l1 := set_switch _ _ _). unfold answer_hash.
  destruct (choose_fine a preset (mkHash slt ch) l1 eq_refl Hab Hp Hs Hc) as (F1 & F2 & F3 & F4 & F5).
  set (r := choose_password a preset (mkHash slt ch) l1) in *. clearbody r. cbn [snd] in *.
  assert (safe i (r, d)) as Hr.
  { unfold safe, base. cbn [fst snd]. rewrite F2, F3, F4, F5. done. }
  destruct (_ && _); [done|]. by destruct (is_empty (password r)).
Qed.

Lemma open_safe i a o preset ch x : (forall x, in_ab a x -> K x) -> K (digest preset slt) -> sane a ->
  (parse_id (o_id o) (o_force_relay o) None).1.1 = i -> o_switch_uuid o = None ->
  base i x -> safe i (happens slt x (a, EvOpen o preset ch)).
Proof.
  intros Hab Hp Ha Hi Hu [Hs Hd]. unfold happens. cbn [fst snd]. unfold initialize. cbn [o_id o_force_relay handed_over other_server fresh_lc].
  destruct (parse_id _ _ _) as [[j f] ot]. cbn [fst] in Hi. subst j.
  pose proof (load_config_password a) as Hl. pose proof (Hd a) as Hda. unfold file_password in Hda.
  assert (forall a', K (file_password a' i (load_config a i x.2).2)) as Hd'
    by (intros a'; rewrite load_config_password; [apply Hd|done|apply K_digest, Hd]).
  destruct (load_config a i x.2) as [c d]. cbn [snd fst] in Hd', Hda.
  destruct x as [l d0]. cbn [fst snd] in *. unfold handed_over, get_conn_token. destruct (is_empty (password l));
    cbn [o_token o_switch_uuid o_conn_type o_shared_password o_terminal_admin o_random o_ws_or_proxy token_session token_password token_source]; cbv beta iota zeta;
    apply hash_safe; done.
Qed.

Lemma remembered_kept l p0 : salt (hash l) = slt -> sourced (password l) l -> K p0 -> K (remembered l p0).
Proof.
  intros Hh Hs H0. unfold remembered, is_shared_ab, is_personal_ab, sourced in *. rewrite Hh.
  destruct (remember l).
  - destruct (is_empty (password l)) eqn:Ee; [done|]. cbn [negb andb].
    destruct (bool_decide (password l = p0)); [done|]. cbn [negb andb]. destruct (password_source l) as [p|p|]; [apply Hs| |done].
    destruct Hs as [Hs|Hs]; [by rewrite Hs in Ee|]. by rewrite bool_decide_true.
  - destruct (is_empty (password l)); [done|]. destruct (password_source l) as [p|p|]; [|done|done].
    case_bool_decide; [apply Hs|done].
Qed.

Lemma chosen_safe i l l' d : safe i (l, d) -> id l' = id l -> hash l' = hash l -> config l' = config l -> switch_uuid l' = switch_uuid l ->
  sourced (password l') l' -> safe i (l', d).
Proof. intros ((_ & Hd) & Hi & Hh & Hc & Hu) E1 E2 E3 E4 Hs. unfold safe, base. cbn [fst snd] in *. by rewrite E1, E2, E3, E4. Qed.

Lemma ui_safe i a os typed rem d l : Forall (fun t => K (digest t slt)) [typed] -> safe i (l, d) ->
  safe i ((handle_login_from_ui a os typed rem d l).1, d).
Proof.
  intros Hen%Forall_inv Hx. pose proof Hx as ((Hs & Hd) & Hi & Hh & Hc & Hu). cbn [fst snd] in *. unfold handle_login_from_ui.
  destruct typed as [|t typed]; cbn [is_empty].
  - destruct (is_empty (password l)) eqn:Ep; [|by apply (chosen_safe i l)].
    destruct (pf_password (config l)) as [|z q] eqn:Ec; cbn [is_empty].
    + apply (chosen_safe i l); try done. exact (sourced_nil l Hs).
    + by apply (chosen_safe i l).
  - apply (chosen_safe i l); try done. unfold sourced. simpl. by rewrite Hh.
Qed.

Lemma set_option_safe i a k v d l : sane a -> safe i (l, d) -> safe i (set_option a k v l d).
Proof.
  intros Ha Hx. pose proof Hx as ((Hs & Hd) & Hi & Hh & Hc & Hu). cbn [fst snd] in *. unfold set_option. rewrite Hi.
  pose proof (Hd a) as Hda. unfold file_password in Hda.
  assert (forall a', K (file_password a' i (load_config a i d).2)) as Hd'
    by (intros a'; rewrite load_config_password; [apply Hd|done|apply K_digest, Hd]).
  destruct (load_config a i d) as [c d1]. cbn [fst snd] in *. case_bool_decide; [by split_and!|].
  set (c' := with_peer_options _ c). assert (K (pf_password c')) as Hc' by done.
  split; [|by split_and!]. split; [done|]. intros a'. rewrite <- Hi. rewrite save_config_password; [done|done|by apply K_digest].
Qed.

Lemma error_safe i a err d l : sane a -> safe i (l, d) -> safe i (happens slt (l, d) (a, EvError err)).
Proof.
  intros Ha Hx. assert (safe i (set_password [] l, d)) as H0.
  { apply (chosen_safe i l); try done. apply (sourced_nil l), Hx. }
  unfold happens, handle_login_error. cbn [fst snd]. case_bool_decide; [done|]. case_bool_decide; [done|].
  destruct (_ || _).
  - destruct (bool_decide (get_option l _ = _)); [|done]. pose proof (set_option_safe i a "trust-this-device" [] d l Ha Hx) as Hso.
    by destruct (set_option _ _ _ _ _).
  - by destruct (List.find _ _) as [[? [? ?]]|].
Qed.

Lemma info_safe i a pi d l : sane a -> safe i (l, d) -> safe i (handle_peer_info a pi l d).1.
Proof.
  intros Ha ((Hs & Hd) & Hi & Hh & Hc & Hu). cbn [fst snd] in *. subst i.
  pose proof (remembered_kept l _ Hh Hs (Hd a)) as Hr.
  pose proof (peer_info_password a pi l d Ha (K_digest _ Hr)) as Hp.
  assert (switch_uuid (handle_peer_info a pi l d).1.1 = None) as Hsw.
  { unfold handle_peer_info. destruct (is_empty (pi_version pi)), (load_config _ _ d); done. }
  destruct (handle_peer_info a pi l d) as [[l' d'] out]. destruct Hp as (P1 & P2 & P3 & P4 & P5 & P6). cbn [fst snd] in *.
  unfold safe, base, sourced. cbn [fst snd]. rewrite P2, P3, P4, P5, P6. split_and!; try done. intros a'. by rewrite P1.
Qed.

Lemma happens_safe i x e : brings i e -> safe i x -> safe i (happens slt x e).
Proof.
  intros (Ha & Hab & Hen & Ho) Hx. pose proof Hx as ((Hs & Hd) & Hi & Hh & Hc & Hu). destruct e as [a ev], x as [l d]. cbn [fst snd] in *.
  destruct ev as [o preset ch|preset ch|os typed rem|err|pi].
  - apply open_safe; try done; try apply Ho. by apply Forall_inv in Hen.
  - apply hash_safe; try done. by apply Forall_inv in Hen.
  - by apply ui_safe.
  - by apply error_safe.
  - by apply info_safe.
Qed.
Lemma run_safe i evs : Forall (brings i) evs -> forall x, safe i x -> safe i (foldl (happens slt) x evs).
Proof.
  induction evs as [|e evs IH]; intros Hb x Hx; [done|]. apply Forall_cons in Hb as [H1 H2]. by apply (IH H2), happens_safe.
Qed.
End Kept.

(** What the events of a run bring in. *)
Lemma own_brings slt p0 i evs : Forall (fun e => sane e.1 /\ (forall x, in_ab e.1 x -> digest_like x) /\
    match e.2 with EvOpen o _ _ => (parse_id (o_id o) (o_force_relay o) None).1.1 = i /\ o_switch_uuid o = None | _ => True end) evs ->
  Forall (brings slt (own slt p0 evs) i) evs.
Proof.
  rewrite !Forall_forall. intros H e He. destruct (H e He) as (H1 & H2 & H3). split_and!; [done| | |done].
  - intros x Hx. right. right. apply Exists_exists. exists e. by split; [|left].
  - apply Forall_forall. intros t Ht. right. right. apply Exists_exists. exists e. split; [done|]. right. by exists t.
Qed.

(** Passwords shared by others are not kept: a viewer is opened for a
    device, possibly with the password of a shared address book or a built-in
    one, gets challenges, is typed passwords into, sees errors and successful
    logins and is handed over to new windows, in any order.  The password the
    device's file then holds is empty, the one it held before, from the user's
    own address book, or the digest of one the user entered; a shared password
    is not written there. *)
Theorem shared_not_kept slt a o preset ch evs d i :
  let all := (a, EvOpen o preset ch) :: evs in
  Forall (fun e => sane e.1 /\ (forall x, in_ab e.1 x -> digest_like x) /\
    match e.2 with EvOpen o _ _ => (parse_id (o_id o) (o_force_relay o) None).1.1 = i /\ o_switch_uuid o = None | _ => True end) all ->
  digest_like (file_password a i d) ->
  let '(_, d') := foldl (happens slt) (fresh_lc, d) all in
  forall a', own slt (file_password a i d) all (file_password a' i d').
Proof.
  intros all H Hd. set (p0 := file_password a i d) in *.
  assert (forall x, own slt p0 all x -> digest_like x) as HK.
  { intros x [->|[->|Hx]]; [by left|done|]. apply Exists_exists in Hx as (e & He & Hx). rewrite Forall_forall in H.
    destruct Hx as [Hx|(t & _ & ->)]; [by apply (H e He)|right; apply digest_len]. }
  assert (own slt p0 all []) as Hn by by left. pose proof (own_brings slt p0 i all H) as Hb.
  assert (base slt (own slt p0 all) i (fresh_lc, d)) as H0.
  { split; [done|]. intros a'. right. left. unfold file_password. by rewrite (load_config_same a' a). }
  apply Forall_cons in Hb as [(Ha & Hab & Hen & Hi & Hu) Hb]. apply Forall_inv in Hen.
  pose proof (open_safe slt (own slt p0 all) Hn HK i a o preset ch (fresh_lc, d) Hab Hen Ha Hi Hu H0) as H1.
  pose proof (run_safe slt (own slt p0 all) Hn HK i evs Hb _ H1) as ((_ & H2) & _).
  cbn [foldl all]. destruct (foldl _ _ evs) as [l' d']. exact H2.
Qed.
End Viewer.

(** ** A viewer and a device *)
#[local] Existing Instances Toy.secretbox Toy.secretbox_laws Rfc4648.base64 Rfc4648.base64_laws
  ToySha.sha ToySha.sha_laws.
Definition around0 : Around :=
  mkAround (str "viewer") (str "Pc") (str "Linux") [] (str "1.4.0") (str "rs") [] (mkAb [] []) [] (fun _ _ => false) false 0 (fun _ => nonce24).
Definition opening0 (i : string) (shared : option bytes) : Opening := mkOpening (str i) DEFAULT_CONN None false shared None 7 false false.
Definition info0 : PeerInfo := mkPeerInfo (str "user") (str "host") (str "Linux") (str "1.4.0").
Definition no_uuid : bytes -> option bytes := fun _ => None.
Definition no_dir : bytes -> bytes -> bytes := fun _ _ => [].
(** A viewer that got the device's first challenge. *)
Definition waiting : Lc :=
  (handle_hash desktop no_uuid no_dir conf0 around0 [] (mkHash (str "s") (str "challenge")) ∅
     (initialize desktop [] conf0 around0 (opening0 "device" None) (fresh_lc conf0) ∅).1).1.
Definition logged_in_again (rem : bool) : list Out :=
  let l1 := (handle_login_from_ui desktop no_dir conf0 around0 [] (str "123456") rem ∅ waiting).1 in
  let d2 := (handle_peer_info desktop conf0 around0 info0 l1 ∅).1.2 in
  let '(l3, d3) := initialize desktop [] conf0 around0 (opening0 "device" None) (fresh_lc conf0) d2 in
  (handle_hash desktop no_uuid no_dir conf0 around0 [] (mkHash (str "s") (str "again")) d3 l3).2.

Lemma remembered_login_witness :
  (exists q, logged_in_again true = [Login q] /\ opens (digest (str "123456") (str "s")) (str "s") (str "again") q) /\
  (exists q, logged_in_again false = [msgbox "input-password" "Password Required" ""; Login q] /\ lr_pw q = []).
Proof.
  pose proof (fun rem => remembered_login desktop no_uuid no_dir [] conf0 around0 around0 (opening0 "device" None) waiting ∅ [] (str "123456") rem info0
    (str "again") eq_refl ltac:(discriminate) eq_refl eq_refl eq_refl eq_refl eq_refl eq_refl eq_refl) as H. split.
  - specialize (H true). cbv zeta in H. unfold logged_in_again.
    destruct (handle_login_from_ui _ _ _ _ _ _ _ _ _) as [l1 o1]. cbn [fst].
    destruct (handle_peer_info _ _ _ _ _ _) as [[l2 d2] o2]. cbn [fst snd]. destruct (initialize _ _ _ _ _ _ _) as [l3 d3].
    change (salt (hash waiting)) with (str "s") in H. destruct (handle_hash _ _ _ _ _ _ _ _ _) as [l4 o4]. exact (proj2 H).
  - specialize (H false). cbv zeta in H. unfold logged_in_again.
    destruct (handle_login_from_ui _ _ _ _ _ _ _ _ _) as [l1 o1]. cbn [fst].
    destruct (handle_peer_info _ _ _ _ _ _) as [[l2 d2] o2]. cbn [fst snd]. destruct (initialize _ _ _ _ _ _ _) as [l3 d3].
    change (salt (hash waiting)) with (str "s") in H. destruct (handle_hash _ _ _ _ _ _ _ _ _) as [l4 o4]. exact (proj2 H).
Defined.
(** The device of [LoginFlow]'s examples admits that request, and opens. *)
Example reconnected_opens :
  match logged_in_again true with
  | [Login q] =>
      let c := conn_new "10.0.0.2"%string (str "s") (str "again") None None in
      admits desktop no_v6 show_v6 LoginFlow.direct env0 q c (shared0 no_settings) = true /\
      lets_in desktop no_v6 show_v6 LoginFlow.direct env0 q c (shared0 no_settings) = true
  | _ => False
  end.
Proof. vm_compute. done. Qed.

Definition shared_story : list (Around * Ev) :=
  [(around0, EvInfo info0); (around0, EvError (str "Wrong Password")); (around0, EvUi [] (str "mine") true);
   (around0, EvInfo info0); (around0, EvOpen (opening0 "device" (Some (str "team"))) [] (str "c2")); (around0, EvInfo info0)].
Lemma shared_not_kept_witness :
  let all := (around0, EvOpen (opening0 "device" (Some (str "team"))) [] (str "c1")) :: shared_story in
  let '(_, d') := foldl (happens desktop no_uuid no_dir [] [] [] [] conf0 (str "s")) (fresh_lc conf0, ∅) all in
  forall a', own (str "s") (file_password desktop conf0 around0 (str "device") ∅) all (file_password desktop conf0 a' (str "device") d').
Proof.
  intros all. pose proof (shared_not_kept desktop no_uuid no_dir [] [] [] [] conf0 (str "s") around0 (opening0 "device" (Some (str "team"))) []
    (str "c1") shared_story ∅ (str "device")) as H. cbv zeta in H. fold all in H. apply H.
  - assert (forall x, in_ab around0 x -> digest_like x) as Hab by (intros x (e & p & He & _); inversion He).
    unfold all, shared_story. repeat (apply Forall_cons; split; [split; [reflexivity|split; [exact Hab|first [exact I | split; vm_compute; reflexivity]]]|]). by apply Forall_nil.
  - by left.
Defined.
(** In that run the file ends with the password the user entered. *)
Example entered_is_kept :
  let d' := (foldl (happens desktop no_uuid no_dir [] [] [] [] conf0 (str "s")) (fresh_lc conf0, ∅)
     ((around0, EvOpen (opening0 "device" (Some (str "team"))) [] (str "c1")) :: shared_story)).2 in
  file_password desktop conf0 around0 (str "device") d' = digest (str "mine") (str "s").
Proof. vm_compute. reflexivity. Qed.
(** Addresses: a relay is asked for with "/r", another server after "@". *)
Example addresses :
  parse_id (str "RSKEY") (str "123456789/r@host:21116?key=abc") false None
    = (str "123456789@host:21116", true, Some (str "123456789", str "host:21116", str "abc")) /\
  parse_id (str "RSKEY") (str "123456789@public") false None = (str "123456789@public", false, Some (str "123456789", str "public", str "RSKEY")) /\
  parse_id (str "RSKEY") (str "123456789\r") false None = (str "123456789", true, None).
Proof. vm_compute. done. Qed.
(** A login from the interface without a password, with none remembered, sends
    the digest of the challenge, not an empty password: the device counts a
    wrong guess. *)
Example empty_answer_is_a_guess :
  match (handle_login_from_ui desktop no_dir conf0 around0 [] [] false ∅ waiting).2 with
  | [Login q] => lr_pw q = sha256 (str "challenge") /\
      (on_login_request desktop no_v6 show_v6 LoginFlow.direct env0 q (viewer None None) (shared0 no_settings)).2 =
      [SendLoginErr LOGIN_MSG_PASSWORD_WRONG; TryStartCm (str "viewer") (str "Pc") false]
  | _ => False
  end.
Proof. vm_compute. done. Qed.
