(* ===== verification/Codec.v ===== *)
(** * Choosing the video codec ([libs/scrap/src/common/codec.rs])

    Each viewer announces which codecs it decodes and which it prefers; the
    device keeps these announcements ([PEER_DECODINGS]) and chooses one codec
    for all ([Encoder::update]): the usable preference with most votes,
    otherwise an automatic choice.  A video service builds its encoder from the
    choice and falls back when there is none.  A viewer that cannot decode what
    it gets marks the codec and announces again. *)
From S2P Require Import Prelude.
From S2P Require Import Encoding.
From S2P Require Import PasswordSecurity.
From S2P Require Import PermanentPassword.
From S2P Require Import Options.

Inductive CodecFormat := VP8 | VP9 | AV1 | H264 | H265 | Unknown.
#[export] Instance CodecFormat_eq_dec : EqDecision CodecFormat.
Proof. solve_decision. Defined.

(** [PreferCodec] by its number; other numbers are unknown to this version. *)
Definition Auto : Z := 0.
Definition prefer_of (f : CodecFormat) : Z :=
  match f with VP9 => 1 | H264 => 2 | H265 => 3 | VP8 => 4 | AV1 => 5 | Unknown => 0 end.
Inductive PreferCodec := PAuto | PCodec (f : CodecFormat).
Definition enum_value_or_auto (p : Z) : PreferCodec :=
  if p =? 1 then PCodec VP9 else if p =? 2 then PCodec H264 else if p =? 3 then PCodec H265
  else if p =? 4 then PCodec VP8 else if p =? 5 then PCodec AV1 else PAuto.

Record SupportedDecoding := mkDecoding {
  ability_vp9 : Z;
  ability_h264 : Z;
  ability_h265 : Z;
  prefer : Z;
  ability_vp8 : Z;
  ability_av1 : Z;
  i444_vp9 : bool;
  i444_av1 : bool;
  prefer_chroma : Z
}.
Definition I420 : Z := 0.
Definition I444 : Z := 1.
Definition only_vp9 : SupportedDecoding := mkDecoding 1 0 0 Auto 0 0 false false I420.
Definition ability (f : CodecFormat) (s : SupportedDecoding) : Z :=
  match f with VP8 => ability_vp8 s | VP9 => ability_vp9 s | AV1 => ability_av1 s | H264 => ability_h264 s | H265 => ability_h265 s | Unknown => 0 end.

Record SupportedEncoding := mkEncoding { e_vp8 : bool; e_av1 : bool; e_h264 : bool; e_h265 : bool; e_i444_vp9 : bool; e_i444_av1 : bool }.

(** What the machine offers at the moment: 32-bit build or not, the options and
    features for hardware codecs with the encoders found, the result of the AV1
    test and the memory. *)
Record Hardware := mkHardware {
  disable_av1 : bool;
  enable_vram_option : bool;
  vram_available : CodecFormat -> bool;
  enable_hwcodec_option : bool;
  hw_try_get : CodecFormat -> option bytes;
  av1_test : bool;
  total_memory : Z
}.

(** [PEER_DECODINGS], [ENCODE_CODEC_FORMAT], [USABLE_ENCODING] *)
Record Codecs := mkCodecs {
  decodings : gmap Z SupportedDecoding;
  format : CodecFormat;
  usable : option SupportedEncoding
}.
Definition codecs0 : Codecs := mkCodecs ∅ VP9 None.
Definition with_format (f : CodecFormat) (c : Codecs) : Codecs := mkCodecs (decodings c) f (usable c).

Inductive EncodingUpdate :=
| Update (id : Z) (d : SupportedDecoding)
| Remove (id : Z)
| NewOnlyVP9 (id : Z)
| Check_.

(** A [HashMap] is walked in an order of its own. *)
Class DecodingIter := decoding_iter : gmap Z SupportedDecoding -> list (Z * SupportedDecoding).
Class DecodingIterLaws {DI : DecodingIter} := decoding_iter_perm m : decoding_iter m ≡ₚ map_to_list m.

Section Device.
Context {DI : DecodingIter}.

Definition update_decodings (u : EncodingUpdate) (m : gmap Z SupportedDecoding) : gmap Z SupportedDecoding :=
  match u with
  | Update id d => <[id := d]> m
  | Remove id => delete id m
  | NewOnlyVP9 id => <[id := only_vp9]> m
  | Check_ => m
  end.

(** Every viewer, and there is one, decodes [f]. *)
Definition all_decode (f : CodecFormat) (l : list (Z * SupportedDecoding)) : bool :=
  negb (is_empty l) && forallb (fun x => 0 <? ability f x.2) l.
Definition vram_encoding (hw : Hardware) (f : CodecFormat) (l : list (Z * SupportedDecoding)) : bool :=
  enable_vram_option hw && all_decode f l && vram_available hw f.
Definition hw_encoding (hw : Hardware) (f : CodecFormat) (l : list (Z * SupportedDecoding)) : option bytes :=
  if enable_hwcodec_option hw && all_decode f l then hw_try_get hw f else None.
Definition useable (hw : Hardware) (f : CodecFormat) (l : list (Z * SupportedDecoding)) : bool :=
  match f with
  | VP8 => all_decode VP8 l
  | VP9 => true
  | AV1 => all_decode AV1 l && negb (disable_av1 hw)
  | H264 | H265 => all_decode f l && (vram_encoding hw f l || is_some (hw_encoding hw f l))
  | Unknown => false
  end.
Definition preferences (hw : Hardware) (l : list (Z * SupportedDecoding)) : list Z :=
  prefer <$> List.filter (fun s => existsb (fun f => (prefer s =? prefer_of f) && useable hw f l) [VP9; VP8; AV1; H264; H265]) (snd <$> l).

(** The most frequent preference. *)
Fixpoint count_one (p : Z) (counts : list (Z * Z)) : list (Z * Z) :=
  match counts with
  | [] => [(p, 1)]
  | (q, n) :: counts => if q =? p then (q, n + 1) :: counts else (q, n) :: count_one p counts
  end.
Definition counted (ps : list Z) : list (Z * Z) := foldl (fun c p => count_one p c) [] ps.
Definition max_count (counts : list (Z * Z)) : Z := foldl Z.max 0 (snd <$> counts).
Definition most_frequent (ps : list Z) : Z :=
  match List.find (fun x => x.2 =? max_count (counted ps)) (counted ps) with
  | Some (p, _) => p
  | None => Auto
  end.

(** Four gigabytes. *)
Definition LOW_MEMORY : Z := 4 * 1024 * 1024 * 1024.
Definition auto_codec (hw : Hardware) (l : list (Z * SupportedDecoding)) : CodecFormat :=
  let c := if useable hw AV1 l && av1_test hw then AV1 else VP9 in
  let c := if useable hw H264 l then H264 else c in
  let c := if useable hw H265 l then H265 else c in
  if (bool_decide (c = VP9) || bool_decide (c = AV1)) && useable hw VP8 l && (total_memory hw <=? LOW_MEMORY) then VP8 else c.
Definition chosen (hw : Hardware) (l : list (Z * SupportedDecoding)) : CodecFormat :=
  match enum_value_or_auto (most_frequent (preferences hw l)) with
  | PCodec ((H264 | H265) as f) => if vram_encoding hw f l || is_some (hw_encoding hw f l) then f else auto_codec hw l
  | PCodec f => f
  | PAuto => auto_codec hw l
  end.

Definition update (hw : Hardware) (u : EncodingUpdate) (c : Codecs) : Codecs :=
  let m := update_decodings u (decodings c) in
  let l := decoding_iter m in
  mkCodecs m (chosen hw l)
    (Some (mkEncoding (useable hw VP8 l) (useable hw AV1 l) (useable hw H264 l) (useable hw H265 l) false false)).

Definition supported_encoding (hw : Hardware) : SupportedEncoding :=
  let h f := enable_hwcodec_option hw && is_some (hw_try_get hw f) || enable_vram_option hw && vram_available hw f in
  mkEncoding true (negb (disable_av1 hw)) (h H264) (h H265) true true.

(** ** Encoders ([video_service.rs]) *)
Inductive EncoderCfg :=
| VPX (f : CodecFormat)
| AOM
| HWRAM (name : bytes)
| VRAM (data_format : CodecFormat).

(** [str::contains]; no other character lowers to one of the letters looked for. *)
Fixpoint name_contains (p s : bytes) : bool :=
  starts_with s p || match s with [] => false | _ :: s => name_contains p s end.
Definition cfg_format (cfg : EncoderCfg) : option CodecFormat :=
  match cfg with
  | VPX VP8 => Some VP8
  | VPX _ => Some VP9
  | AOM => Some AV1
  | HWRAM name =>
      let name := to_ascii_lowercase name in
      Some (if name_contains (str "vp8") name then VP8 else if name_contains (str "vp9") name then VP9
            else if name_contains (str "av1") name then AV1 else if name_contains (str "h264") name then H264 else H265)
  | VRAM ((H264 | H265) as f) => Some f
  | VRAM _ => None
  end.
Definition set_fallback (cfg : EncoderCfg) (c : Codecs) : Codecs :=
  match cfg_format cfg with Some f => if bool_decide (format c = f) then c else with_format f c | None => c end.

(** [vram_try_get] is the encoder for the adapter of the captured display. *)
Definition encoder_config (vram_try_get : CodecFormat -> option CodecFormat) (hw : Hardware) (c : Codecs) : EncoderCfg :=
  match format c with
  | (H264 | H265) as f =>
      match vram_try_get f with
      | Some d => VRAM d
      | None => match hw_try_get hw f with Some name => HWRAM name | None => VPX VP9 end
      end
  | VP8 => VPX VP8
  | VP9 | Unknown => VPX VP9
  | AV1 => AOM
  end.
Definition get_encoder_config (vram_try_get : CodecFormat -> option CodecFormat) (hw : Hardware) (c : Codecs) : EncoderCfg * Codecs :=
  let c := update hw Check_ c in (encoder_config vram_try_get hw c, c).

Definition use_i444 (cfg : EncoderCfg) (c : Codecs) : bool :=
  let l := decoding_iter (decodings c) in
  let prefer_i444 := forallb (fun d => prefer_chroma d.2 =? I444) l in
  let i444_useable := match cfg with
                      | VPX VP8 => false
                      | VPX _ => forallb (fun d => i444_vp9 d.2) l
                      | AOM => forallb (fun d => i444_av1 d.2) l
                      | HWRAM _ | VRAM _ => false
                      end in
  prefer_i444 && i444_useable && negb (is_empty l).

(** [works]: whether the encoder can be created; a hardware encoder that cannot
    makes VP9 the choice. *)
Definition encoder_new (works : bool) (cfg : EncoderCfg) (c : Codecs) : bool * Codecs :=
  if works then (true, c) else (false, match cfg with HWRAM _ | VRAM _ => with_format VP9 c | _ => c end).

Record SetUp := mkSetUp { s_cfg : EncoderCfg; s_format : CodecFormat; s_i444 : bool }.
Definition setup_encoder (vram_try_get : CodecFormat -> option CodecFormat) (hw : Hardware) (works : bool) (c : Codecs)
  : option SetUp * Codecs :=
  let '(cfg, c) := get_encoder_config vram_try_get hw c in
  let c := set_fallback cfg c in
  let f := format c in
  let i444 := use_i444 cfg c in
  let '(ok, c) := encoder_new works cfg c in
  (if ok then Some (mkSetUp cfg f i444) else None, c).
End Device.

(** ** The viewer *)
Record ViewerCodecs := mkViewerCodecs {
  v_disable_av1 : bool;
  v_hw_decoder : CodecFormat -> bool;
  v_vram_decoder : CodecFormat -> bool;
  codec_preference : bytes;
  i444_option : bytes
}.
Definition preference (v : ViewerCodecs) : Z * Z :=
  let codec := codec_preference v in
  (if bool_decide (codec = str "vp8") then prefer_of VP8 else if bool_decide (codec = str "vp9") then prefer_of VP9
   else if bool_decide (codec = str "av1") then prefer_of AV1 else if bool_decide (codec = str "h264") then prefer_of H264
   else if bool_decide (codec = str "h265") then prefer_of H265 else Auto,
   if bool_decide (i444_option v = str "Y") then I444 else I420).
Definition without (s : SupportedDecoding) (f : CodecFormat) : SupportedDecoding :=
  let zero g x := if bool_decide (f = g) then 0 else x in
  mkDecoding (zero VP9 (ability_vp9 s)) (zero H264 (ability_h264 s)) (zero H265 (ability_h265 s)) (prefer s)
    (zero VP8 (ability_vp8 s)) (zero AV1 (ability_av1 s)) (i444_vp9 s) (i444_av1 s) (prefer_chroma s).
Definition supported_decodings (v : ViewerCodecs) (mark_unsupported : list CodecFormat) : SupportedDecoding :=
  let '(p, chroma) := preference v in
  let h f := if v_hw_decoder v f || v_vram_decoder v f then 1 else 0 in
  foldl without (mkDecoding 1 (h H264) (h H265) p 1 (if v_disable_av1 v then 0 else 1) true true chroma) mark_unsupported.

Definition MAX_DECODE_FAIL_COUNTER : Z := 3.
(** After each frame: the marks, and the announcement if one is due. *)
Definition note_decoder (v : ViewerCodecs) (valid : bool) (fail_counter : Z) (f : CodecFormat) (marks : list CodecFormat)
  : list CodecFormat * option SupportedDecoding :=
  if negb valid || (MAX_DECODE_FAIL_COUNTER <=? fail_counter) then
    if bool_decide (f ∈ marks) then (marks, None)
    else (marks ++ [f], Some (supported_decodings v (marks ++ [f])))
  else (marks, None).

(** ** Counting votes *)
Fixpoint tally (q : Z) (c : list (Z * Z)) : Z :=
  match c with [] => 0 | (r, n) :: c => (if r =? q then n else 0) + tally q c end.
Definition occurrences (q : Z) (ps : list Z) : Z := len (List.filter (Z.eqb q) ps).

Lemma tally_count_one q p c : tally q (count_one p c) = tally q c + (if q =? p then 1 else 0).
Proof.
  induction c as [|[r n] c IH]; simpl; [rewrite (Z.eqb_sym p q); lia|].
  destruct (Z.eqb_spec r p) as [->|]; simpl; [rewrite (Z.eqb_sym q p); destruct (p =? q); lia|]. rewrite IH. lia.
Qed.
Lemma count_one_keys p c q : q ∈ (count_one p c).*1 <-> q = p \/ q ∈ c.*1.
Proof.
  induction c as [|[r n] c IH]; simpl; [rewrite list_elem_of_singleton, elem_of_nil; tauto|].
  destruct (Z.eqb_spec r p) as [->|]; simpl; rewrite !elem_of_cons; [|rewrite IH]; tauto.
Qed.
(** A tally: one entry for each key, all counts positive. *)
Definition tallied (c : list (Z * Z)) : Prop := NoDup c.*1 /\ Forall (fun x => 0 < x.2) c.
Lemma count_one_tallied p c : tallied c -> tallied (count_one p c).
Proof.
  intros [Hn Hp]. induction c as [|[r n] c IH]; simpl.
  - split; [by apply NoDup_singleton|by apply Forall_singleton].
  - simpl in Hn. apply NoDup_cons in Hn as [Hr Hn]. apply Forall_cons in Hp as [Hp1 Hp]. simpl in Hp1.
    destruct (Z.eqb_spec r p) as [->|Hrp].
    + split; [simpl; by apply NoDup_cons|]. apply Forall_cons. split; [simpl; lia|done].
    + destruct (IH Hn Hp) as [I1 I2]. split; [|by apply Forall_cons]. simpl. apply NoDup_cons. split; [|done].
      rewrite count_one_keys. intros [?|?]; done.
Qed.
Lemma counted_spec ps : forall c, tallied c -> let r := foldl (fun c p => count_one p c) c ps in
  tallied r /\ forall q, tally q r = tally q c + occurrences q ps.
Proof.
  induction ps as [|p ps IH]; intros c Hc; simpl.
  - split; [done|]. intros q. unfold occurrences. simpl. rewrite len_nil. lia.
  - destruct (IH (count_one p c) (count_one_tallied p c Hc)) as [I1 I2]. split; [done|]. intros q. rewrite I2, tally_count_one.
    unfold occurrences. simpl. destruct (q =? p); rewrite ?len_cons; lia.
Qed.
Lemma tally_absent q c : q ∉ c.*1 -> tally q c = 0.
Proof.
  induction c as [|[r n] c IH]; simpl; [done|]. rewrite not_elem_of_cons. intros [Hr Hc].
  rewrite (proj2 (Z.eqb_neq r q)) by done. by rewrite IH.
Qed.
Lemma tally_unique q n c : NoDup c.*1 -> (q, n) ∈ c -> tally q c = n.
Proof.
  induction c as [|[r k] c IH]; simpl; intros Hn H; [by apply elem_of_nil in H|]. apply NoDup_cons in Hn as [Hr Hn].
  apply elem_of_cons in H as [[= -> ->]|H]; [rewrite Z.eqb_refl, tally_absent by done; lia|].
  rewrite (proj2 (Z.eqb_neq r q)); [by apply IH|]. intros ->. apply Hr, list_elem_of_fmap. by exists (q, n).
Qed.
Lemma tally_entry q c : NoDup c.*1 -> tally q c <> 0 -> (q, tally q c) ∈ c.
Proof.
  intros Hn H. destruct (decide (q ∈ c.*1)) as [Hq|Hq]; [|by rewrite tally_absent in H].
  apply list_elem_of_fmap in Hq as ([q' n] & -> & Hq). simpl in *. by rewrite (tally_unique _ _ _ Hn Hq).
Qed.
Lemma occurrences_elem q ps : q ∈ ps <-> 0 < occurrences q ps.
Proof.
  unfold occurrences. split.
  - intros H. assert (q ∈ List.filter (Z.eqb q) ps) as Hf by (apply list_elem_of_In, filter_In; split; [by apply list_elem_of_In|apply Z.eqb_refl]).
    destruct (List.filter _ ps) as [|x l]; [by apply elem_of_nil in Hf|]. rewrite len_cons. pose proof (len_nonneg l). lia.
  - destruct (List.filter (Z.eqb q) ps) as [|y l] eqn:Ef; [intros H; exfalso; by vm_compute in H|intros _].
    assert (y ∈ List.filter (Z.eqb q) ps) as Hy by (rewrite Ef; left). apply list_elem_of_In, filter_In in Hy as [Hy ->%Z.eqb_eq].
    by apply list_elem_of_In.
Qed.
Lemma fold_max_spec (l : list Z) : forall a, let r := foldl Z.max a l in (forall x, x ∈ l -> x <= r) /\ a <= r /\ (r = a \/ r ∈ l).
Proof.
  induction l as [|n l IH]; intros a; simpl.
  - split; [|by split; [|left]]. intros x Hx. by apply elem_of_nil in Hx.
  - destruct (IH (Z.max a n)) as (I1 & I2 & I3). split_and!; [|lia|].
    + intros x [->|Hx]%elem_of_cons; [lia|by apply I1].
    + destruct I3 as [E|Hx]; [|right; by right]. rewrite E. destruct (Z.max_spec a n) as [[_ ->]|[_ ->]]; [right; left|by left].
Qed.
Lemma max_count_spec c : Forall (fun x => 0 < x.2) c ->
  (forall x, x ∈ c -> x.2 <= max_count c) /\ (c <> [] -> exists x, x ∈ c /\ x.2 = max_count c).
Proof.
  intros Hp. unfold max_count. destruct (fold_max_spec (snd <$> c) 0) as (H1 & H2 & H3).
  assert (forall x, x ∈ c -> x.2 <= foldl Z.max 0 (snd <$> c)) as H by (intros x Hx; apply H1, list_elem_of_fmap; by exists x).
  split; [done|]. intros Hc. destruct H3 as [E|(x & E & Hx)%list_elem_of_fmap]; [|by exists x].
  destruct c as [|x c]; [done|]. exfalso. apply Forall_cons in Hp as [Hp _]. specialize (H x ltac:(by left)). rewrite E in H. lia.
Qed.

(** The most frequent preference is one, and none is more frequent. *)
Lemma most_frequent_spec ps : ps <> [] -> most_frequent ps ∈ ps /\ forall q, occurrences q ps <= occurrences (most_frequent ps) ps.
Proof.
  intros Hps. destruct (counted_spec ps [] ltac:(by split; constructor)) as [[Hn Hp] Hq]. fold (counted ps) in Hn, Hp, Hq.
  assert (forall q, tally q (counted ps) = occurrences q ps) as Hq' by (intros q; rewrite Hq; done). clear Hq. rename Hq' into Hq.
  destruct (max_count_spec (counted ps) Hp) as [M1 M2].
  assert (forall q, occurrences q ps <> 0 -> occurrences q ps <= max_count (counted ps)) as Hmax.
  { intros q H0. rewrite <- (Hq q) in H0 |- *. by apply (M1 (q, tally q (counted ps))), tally_entry. }
  assert (counted ps <> []) as Hc.
  { intros E. destruct ps as [|p ps']; [done|]. assert (0 < occurrences p (p :: ps')) as H by (apply occurrences_elem; left).
    specialize (Hq p). rewrite E in Hq. simpl tally in Hq. lia. }
  unfold most_frequent. destruct (List.find _ (counted ps)) as [[p n]|] eqn:E.
  - apply List.find_some in E as [E1 E2]. apply list_elem_of_In in E1. apply Z.eqb_eq in E2. simpl in E2.
    assert (occurrences p ps = n) as Ho by by rewrite <- Hq, (tally_unique p n).
    rewrite Forall_forall in Hp. specialize (Hp _ E1). simpl in Hp. split; [apply occurrences_elem; lia|].
    intros q. destruct (decide (occurrences q ps = 0)) as [->|H0]; [lia|]. rewrite Ho, E2. by apply Hmax.
  - exfalso. destruct (M2 Hc) as (x & Hx & Ex). apply list_elem_of_In in Hx. apply (List.find_none _ _ E), Z.eqb_neq in Hx. done.
Qed.

(** ** What is chosen *)
Section Chosen.
Context {DI : DecodingIter} {DIL : DecodingIterLaws}.

(** Every viewer decodes [f]; VP9 is the codec all versions know. *)
Definition decodable (m : gmap Z SupportedDecoding) (f : CodecFormat) : Prop :=
  f = VP9 \/ forall i s, m !! i = Some s -> 0 < ability f s.

Lemma iter_elem m i s : (i, s) ∈ decoding_iter m <-> m !! i = Some s.
Proof. rewrite decoding_iter_perm. apply elem_of_map_to_list. Qed.
Lemma all_decode_decodable m f : all_decode f (decoding_iter m) = true -> decodable m f.
Proof.
  unfold all_decode. rewrite andb_true_iff, forallb_forall. intros [_ H]. right. intros i s Hs.
  apply iter_elem, list_elem_of_In, H in Hs. by apply Z.ltb_lt in Hs.
Qed.
Lemma useable_decodable hw m f : useable hw f (decoding_iter m) = true -> decodable m f.
Proof.
  destruct f; simpl; rewrite ?andb_true_iff; try done; try (intros [H _]); try (intros H); try by apply all_decode_decodable. by left.
Qed.

Lemma auto_useable hw l : useable hw (auto_codec hw l) l = true.
Proof.
  unfold auto_codec. destruct (useable hw AV1 l) eqn:E1, (useable hw H264 l) eqn:E2, (useable hw H265 l) eqn:E3, (useable hw VP8 l) eqn:E4, (av1_test hw);
    cbn [andb]; repeat case_bool_decide; try done; cbn [orb andb]; try (destruct (_ <=? _)); done.
Qed.
Lemma auto_order hw l : let use g := useable hw g l in
  auto_codec hw l = if use H265 then H265 else if use H264 then H264
                    else if use VP8 && (total_memory hw <=? LOW_MEMORY) then VP8 else if use AV1 && av1_test hw then AV1 else VP9.
Proof.
  intros use. subst use. unfold auto_codec.
  destruct (useable hw H265 l), (useable hw H264 l), (useable hw AV1 l), (av1_test hw), (useable hw VP8 l), (total_memory hw <=? LOW_MEMORY); done.
Qed.
Lemma prefer_codec f : f <> Unknown -> enum_value_or_auto (prefer_of f) = PCodec f.
Proof. by destruct f. Qed.

(** A preference that is counted is the number of a useable codec. *)
Lemma preference_useable hw l p : p ∈ preferences hw l -> exists f, f <> Unknown /\ p = prefer_of f /\ useable hw f l = true.
Proof.
  unfold preferences. intros (s & -> & Hs)%list_elem_of_fmap. apply list_elem_of_In, filter_In in Hs as [_ Hs].
  apply existsb_exists in Hs as (f & Hf & H). apply andb_true_iff in H as [E%Z.eqb_eq H]. exists f. split_and!; [|done|done].
  intros ->. done.
Qed.

(** The viewers that prefer [f]. *)
Definition votes (f : CodecFormat) (m : gmap Z SupportedDecoding) : Z :=
  len (List.filter (fun x => prefer x.2 =? prefer_of f) (map_to_list m)).
Lemma filter_perm {A} (P : A -> bool) l k : l ≡ₚ k -> len (List.filter P l) = len (List.filter P k).
Proof. induction 1; simpl; repeat case_match; rewrite ?len_cons; lia. Qed.
Lemma prefer_inj f g : f <> Unknown -> g <> Unknown -> prefer_of f = prefer_of g -> f = g.
Proof. by destruct f, g. Qed.

Lemma counted_votes hw l f (k : list (Z * SupportedDecoding)) : f <> Unknown ->
  len (List.filter (Z.eqb (prefer_of f)) (prefer <$> List.filter (fun s => existsb (fun f => (prefer s =? prefer_of f) && useable hw f l) [VP9; VP8; AV1; H264; H265]) (snd <$> k))) =
  if useable hw f l then len (List.filter (fun x => prefer x.2 =? prefer_of f) k) else 0.
Proof.
  intros Hf. induction k as [|[i s] k IH]; [by destruct (useable hw f l)|].
  rewrite fmap_cons. cbn [List.filter snd]. destruct (Z.eqb_spec (prefer s) (prefer_of f)) as [E|E].
  - replace (existsb _ _) with (useable hw f l).
    + destruct (useable hw f l) eqn:Eu; [|done]. rewrite fmap_cons. cbn [List.filter]. by rewrite E, Z.eqb_refl, !len_cons, IH.
    + cbn [existsb]. rewrite E. destruct f; simpl; by rewrite ?orb_false_r.
  - destruct (existsb _ _); [|done]. rewrite fmap_cons. cbn [List.filter].
    by rewrite (proj2 (Z.eqb_neq (prefer_of f) (prefer s))) by congruence.
Qed.
Lemma occurrences_votes hw m f : f <> Unknown ->
  occurrences (prefer_of f) (preferences hw (decoding_iter m)) = if useable hw f (decoding_iter m) then votes f m else 0.
Proof. intros Hf. unfold votes. rewrite <- (filter_perm _ _ _ (decoding_iter_perm m)). by apply counted_votes. Qed.

(** The choice: a useable codec; the one with most votes among the useable ones
    if any has a vote. *)
Lemma chosen_spec hw m : let l := decoding_iter m in let f := chosen hw l in
  useable hw f l = true /\
  ((exists g, g <> Unknown /\ useable hw g l = true /\ 0 < votes g m) ->
     0 < votes f m /\ forall g, g <> Unknown -> useable hw g l = true -> votes g m <= votes f m) /\
  ((forall g, g <> Unknown -> useable hw g l = true -> votes g m = 0) -> f = auto_codec hw l).
Proof.
  intros l f. subst f. unfold chosen. destruct (preferences hw l) as [|p ps] eqn:Ep.
  - assert (forall g, g <> Unknown -> useable hw g l = true -> votes g m = 0) as H0.
    { intros g Hg Hu. pose proof (occurrences_votes hw m g Hg) as H. fold l in H. rewrite Ep, Hu in H. by rewrite <- H. }
    simpl. split_and!; [apply auto_useable| |done]. intros (g & Hg & Hu & Hv). rewrite (H0 g Hg Hu) in Hv. lia.
  - rewrite <- Ep. destruct (most_frequent_spec (preferences hw l)) as [H1 H2]; [by rewrite Ep|].
    destruct (preference_useable _ _ _ H1) as (f & Hf & E & Hu). rewrite E in *. rewrite prefer_codec by done.
    assert (match PCodec f with
            | PCodec ((H264 | H265) as f) => if vram_encoding hw f l || is_some (hw_encoding hw f l) then f else auto_codec hw l
            | PCodec f => f
            | PAuto => auto_codec hw l
            end = f) as ->.
    { destruct f; try done; simpl in Hu; apply andb_true_iff in Hu as [_ ->]; done. }
    apply occurrences_elem in H1. pose proof (occurrences_votes hw m f Hf) as Hv. fold l in Hv. rewrite Hu in Hv. rewrite Hv in H1.
    split_and!; [done| |].
    + intros _. split; [done|]. intros g Hg Hug. specialize (H2 (prefer_of g)). rewrite Hv in H2.
      pose proof (occurrences_votes hw m g Hg) as Hvg. fold l in Hvg. rewrite Hug in Hvg. lia.
    + intros H0. specialize (H0 f Hf Hu). lia.
Qed.

(** ** Runs: announcements, departures, encoders set up *)
Inductive Event :=
| EvUpdate (hw : Hardware) (u : EncodingUpdate)
| EvSetUp (vram_try_get : CodecFormat -> option CodecFormat) (hw : Hardware) (works : bool).
(** Hardware encoders are listed under the codec they produce. *)
Definition honest (e : Event) : Prop :=
  match e with
  | EvUpdate _ _ => True
  | EvSetUp vram hw _ => forall f, f = H264 \/ f = H265 ->
      (forall d, vram f = Some d -> d = f) /\ (forall name, hw_try_get hw f = Some name -> cfg_format (HWRAM name) = Some f)
  end.
(** The state, and the encoders set up so far with the viewers at that time. *)
Definition Run : Type := Codecs * list (gmap Z SupportedDecoding * SetUp).
Definition step (x : Run) (e : Event) : Run :=
  match e with
  | EvUpdate hw u => (update hw u x.1, x.2)
  | EvSetUp vram hw works =>
      let '(s, c) := setup_encoder vram hw works x.1 in (c, x.2 ++ match s with Some s => [(decodings c, s)] | None => [] end)
  end.

(** Full chroma only for viewers that all want and decode it. *)
Definition i444_wanted (m : gmap Z SupportedDecoding) (s : SetUp) : Prop :=
  s_i444 s = true -> m <> ∅ /\ forall i d, m !! i = Some d ->
    prefer_chroma d = I444 /\ match s_format s with VP9 => i444_vp9 d = true | AV1 => i444_av1 d = true | _ => False end.
Definition served (x : gmap Z SupportedDecoding * SetUp) : Prop :=
  cfg_format (s_cfg x.2) = Some (s_format x.2) /\ decodable x.1 (s_format x.2) /\ i444_wanted x.1 x.2.

Lemma update_decodable hw u c : decodable (decodings (update hw u c)) (format (update hw u c)).
Proof. apply (useable_decodable hw). apply (chosen_spec hw (update_decodings u (decodings c))). Qed.

Lemma forallb_iter (P : SupportedDecoding -> bool) m i d : forallb (fun x => P x.2) (decoding_iter m) = true -> m !! i = Some d -> P d = true.
Proof. rewrite forallb_forall. intros H Hd. apply iter_elem, list_elem_of_In, H in Hd. done. Qed.

Lemma use_i444_wanted cfg f c : cfg_format cfg = Some f -> i444_wanted (decodings c) (mkSetUp cfg f (use_i444 cfg c)).
Proof.
  intros Hf Hu. simpl in Hu. unfold use_i444 in Hu. apply andb_true_iff in Hu as [Hu Hne]. apply andb_true_iff in Hu as [Hp Hi].
  split; [intros E; simpl in E; rewrite E in Hne; pose proof (decoding_iter_perm ∅) as P; rewrite map_to_list_empty in P; apply Permutation_nil_r in P; by rewrite P in Hne|].
  intros i d Hd. split; [apply Z.eqb_eq; exact (forallb_iter (fun d => prefer_chroma d =? I444) _ i d Hp Hd)|]. simpl.
  destruct cfg as [g| | |]; simpl in Hf; [destruct g|..]; try discriminate Hi; injection Hf as <-.
  all: try exact (forallb_iter i444_vp9 _ i d Hi Hd). exact (forallb_iter i444_av1 _ i d Hi Hd).
Qed.

Lemma setup_served vram hw works c : honest (EvSetUp vram hw works) ->
  let '(s, c') := setup_encoder vram hw works c in
  decodings c' = decodings c /\ decodable (decodings c') (format c') /\ match s with Some s => served (decodings c', s) | None => True end.
Proof.
  intros Hh. unfold setup_encoder, get_encoder_config. set (c1 := update hw Check_ c).
  assert (decodings c1 = decodings c) as Ed by done. pose proof (update_decodable hw Check_ c) as Hd. fold c1 in Hd.
  set (cfg := encoder_config vram hw c1).
  assert (exists f, cfg_format cfg = Some f /\ decodable (decodings c1) f) as (f & Ef & Hf).
  { subst cfg. unfold encoder_config. destruct (format c1) eqn:E; try (eexists; split; [reflexivity|]; first [exact Hd | by left]).
    all: destruct (Hh (format c1) ltac:(rewrite E; tauto)) as [H1 H2]; rewrite E in *.
    all: destruct (vram _) as [d|] eqn:Ev; [rewrite (H1 d eq_refl); eexists; split; [reflexivity|exact Hd]|].
    all: destruct (hw_try_get hw _) as [n|] eqn:En; [rewrite (H2 n eq_refl); eexists; split; [reflexivity|exact Hd]|].
    all: eexists; split; [reflexivity|by left]. }
  set (c2 := set_fallback cfg c1). assert (decodings c2 = decodings c1 /\ format c2 = f) as [E2 F2].
  { subst c2. unfold set_fallback. rewrite Ef. case_bool_decide; done. }
  unfold encoder_new. destruct works.
  - rewrite E2, F2. split_and!; [done|done|]. split_and!; [done|done|]. rewrite <- E2. by apply use_i444_wanted.
  - assert (decodable (decodings c2) (format c2)) as Hd2 by by rewrite E2, F2. rewrite <- E2 in Ed. clearbody c2.
    destruct cfg; split_and!; try done; by left.
Qed.

Lemma run_served evs : Forall honest evs -> forall x, decodable (decodings x.1) (format x.1) -> Forall served x.2 ->
  let r := foldl step x evs in decodable (decodings r.1) (format r.1) /\ Forall served r.2.
Proof.
  induction evs as [|e evs IH]; intros Hh x Hx Hs; [done|]. apply Forall_cons in Hh as [He Hh]. apply (IH Hh).
  - destruct e as [hw u|vram hw works]; [apply update_decodable|]. pose proof (setup_served vram hw works x.1 He) as H. simpl.
    destruct (setup_encoder vram hw works x.1) as [s c]. apply H.
  - destruct e as [hw u|vram hw works]; [done|]. pose proof (setup_served vram hw works x.1 He) as H. simpl.
    destruct (setup_encoder vram hw works x.1) as [s c]. apply Forall_app. split; [done|]. destruct H as (_ & _ & H).
    destruct s; [by apply Forall_singleton|constructor].
Qed.

(** [C6] Everybody can watch: in any sequence of announcements, departures and
    encoders set up, whatever the machine offers meanwhile, the codec agreed on
    is VP9 or one that every present viewer has announced to decode; each
    encoder set up produces the codec noted for it, which every viewer present
    decodes, and full chroma only when all of them want it and decode it with
    that codec. *)
Theorem everyone_can_decode evs : Forall honest evs ->
  let r := foldl step (codecs0, []) evs in
  decodable (decodings r.1) (format r.1) /\ Forall served r.2.
Proof. intros H. apply (run_served evs H); [by left|constructor]. Qed.

(** The viewers' votes decide: after an update the codec is useable (decoded
    by all, encodable here); if a useable codec is preferred by anybody, no
    useable codec is preferred by more viewers than the chosen one, whatever the
    order the announcements are walked in; if none is, the automatic choice is
    taken: H265, else H264, else AV1 or VP9, VP8 on small machines. *)
Theorem votes_decide hw u c : let c' := update hw u c in
  let m := decodings c' in let use g := useable hw g (decoding_iter m) in
  use (format c') = true /\
  ((exists g, g <> Unknown /\ use g = true /\ 0 < votes g m) ->
     0 < votes (format c') m /\ forall g, g <> Unknown -> use g = true -> votes g m <= votes (format c') m) /\
  ((forall g, g <> Unknown -> use g = true -> votes g m = 0) ->
     format c' = if use H265 then H265 else if use H264 then H264
                 else if use VP8 && (total_memory hw <=? LOW_MEMORY) then VP8 else if use AV1 && av1_test hw then AV1 else VP9).
Proof.
  intros c' m use. subst use m c'. destruct (chosen_spec hw (update_decodings u (decodings c))) as (H1 & H2 & H3). cbn [format update decodings].
  split; [exact H1|]. split; [exact H2|]. intros H0. rewrite (H3 H0). apply auto_order.
Qed.

(** ** A codec given up *)
Lemma without_ability s f g : ability g (without s f) = if bool_decide (f = g) then 0 else ability g s.
Proof. destruct f, g; done. Qed.
Lemma marked_ability marks f : forall s, f ∈ marks -> ability f (foldl without s marks) = 0.
Proof.
  induction marks as [|g marks IH]; intros s H; [by apply elem_of_nil in H|]. simpl. destruct (decide (f ∈ marks)) as [Hf|Hf]; [by apply IH|].
  apply elem_of_cons in H as [->|H]; [|done].
  assert (forall l s, ability g s = 0 -> ability g (foldl without s l) = 0) as Hk.
  { clear. induction l as [|h l IH]; intros s Hs; [done|]. simpl. apply IH. rewrite without_ability. by case_bool_decide. }
  apply Hk. rewrite without_ability. by rewrite bool_decide_true.
Qed.
(** An event that leaves the announcement of [i] alone. *)
Definition leaves (i : Z) (e : Event) : Prop :=
  match e with
  | EvUpdate _ (Update j _) | EvUpdate _ (Remove j) | EvUpdate _ (NewOnlyVP9 j) => j <> i
  | _ => True
  end.
Lemma announcement_stays i d e x : leaves i e -> decodings x.1 !! i = Some d -> decodings (step x e).1 !! i = Some d.
Proof.
  intros Hl Hd. destruct e as [hw [j s|j|j|]|vram hw works]; simpl in *; try (rewrite lookup_insert_ne by done; done); try done.
  - by rewrite lookup_delete_ne.
  - unfold setup_encoder, get_encoder_config, set_fallback, encoder_new. cbv zeta. destruct (cfg_format _); [case_bool_decide|]; destruct works; simpl; try done; by destruct (encoder_config _ _ _).
Qed.

(** A codec that fails is given up: when a viewer's decoder for a codec
    other than VP9 is not usable or failed three times, it marks the codec and
    announces the rest; from the moment the device knows, the codec is not the
    one agreed on and no encoder is set up for it, as long as that announcement
    stands, whatever other viewers announce. *)
Theorem failing_codec_given_up v valid fail_counter f marks i hw c evs :
  negb valid || (MAX_DECODE_FAIL_COUNTER <=? fail_counter) = true -> f ∉ marks -> f <> VP9 ->
  Forall honest evs -> Forall (leaves i) evs ->
  exists d, note_decoder v valid fail_counter f marks = (marks ++ [f], Some d) /\
  let r := foldl step (update hw (Update i d) c, []) evs in
  format r.1 <> f /\ Forall (fun x => s_format x.2 <> f) r.2.
Proof.
  intros Hfail Hm Hf Hh Hl. unfold note_decoder. rewrite Hfail, bool_decide_false by done. eexists. split; [done|].
  set (d := supported_decodings v (marks ++ [f])).
  assert (ability f d = 0) as Hd by (subst d; unfold supported_decodings; destruct (preference v); apply marked_ability, elem_of_app; right; left).
  assert (forall m, m !! i = Some d -> ~ decodable m f) as Hnot.
  { intros m Hi [?|H]; [done|]. specialize (H i d Hi). lia. }
  assert (forall evs x, Forall honest evs -> Forall (leaves i) evs -> decodings x.1 !! i = Some d -> decodable (decodings x.1) (format x.1) ->
    Forall (fun x => s_format x.2 <> f) x.2 -> let r := foldl step x evs in format r.1 <> f /\ Forall (fun x => s_format x.2 <> f) r.2) as Hrun.
  { clear evs Hh Hl. induction evs as [|e evs IH]; intros x Hh Hl Hi Hx Hs; simpl.
    - split; [|done]. intros E. rewrite E in Hx. by apply (Hnot _ Hi).
    - apply Forall_cons in Hh as [He Hh], Hl as [Hle Hl]. pose proof (announcement_stays i d e x Hle Hi) as Hi'. apply IH; try done.
      + destruct e as [hw' u|vram hw' works]; [apply update_decodable|]. pose proof (setup_served vram hw' works x.1 He) as H. simpl.
        destruct (setup_encoder vram hw' works x.1) as [s c']. apply H.
      + destruct e as [hw' u|vram hw' works]; [done|]. pose proof (setup_served vram hw' works x.1 He) as H. simpl in Hi' |- *.
        destruct (setup_encoder vram hw' works x.1) as [s c']. apply Forall_app. split; [done|]. destruct s as [s|]; [|constructor].
        apply Forall_singleton. destruct H as (_ & _ & _ & H & _). simpl in *. intros E. rewrite E in H. by apply (Hnot _ Hi'). }
  apply Hrun; try done; [|apply update_decodable]. simpl. apply lookup_insert_eq.
Qed.
End Chosen.

(** ** Two viewers *)
#[local] Instance ordered_iter : DecodingIter := map_to_list.
#[local] Instance ordered_iter_laws : DecodingIterLaws.
Proof. by intros m. Defined.
Definition machine0 : Hardware :=
  mkHardware false false (fun _ => false) true (fun f => if bool_decide (f = H264) then Some (str "h264_nvenc") else None) true (16 * LOW_MEMORY).
Definition viewer0 (codec : string) : ViewerCodecs := mkViewerCodecs false (fun f => bool_decide (f = H264)) (fun _ => false) (str codec) (str "Y").
Definition two_viewers : list Event :=
  [EvUpdate machine0 (Update 1 (supported_decodings (viewer0 "h264") []));
   EvSetUp (fun _ => None) machine0 true;
   EvUpdate machine0 (NewOnlyVP9 2);
   EvSetUp (fun _ => None) machine0 true;
   EvUpdate machine0 (Remove 2);
   EvSetUp (fun _ => None) machine0 false].
Lemma two_honest : Forall honest two_viewers.
Proof.
  repeat (apply Forall_cons; split; [first [exact I|intros f [-> | ->]; (split; [discriminate|intros name E; vm_compute in E; first [discriminate E|injection E as <-; vm_compute; reflexivity]])]|]).
  apply Forall_nil. exact I.
Qed.

Lemma everyone_can_decode_witness :
  let r := foldl step (codecs0, []) two_viewers in
  map (fun x => s_format x.2) r.2 = [H264; VP9] /\ decodable (decodings r.1) (format r.1) /\ Forall served r.2.
Proof. intros r. split; [vm_compute; reflexivity|]. exact (everyone_can_decode two_viewers two_honest). Defined.

Definition announced : Codecs :=
  update machine0 (Update 3 (supported_decodings (viewer0 "vp8") [])) (update machine0 (Update 2 (supported_decodings (viewer0 "vp8") []))
    (update machine0 (Update 1 (supported_decodings (viewer0 "h264") [])) codecs0)).
Lemma votes_decide_witness :
  format announced = VP8 /\ votes H264 (decodings announced) <= votes (format announced) (decodings announced).
Proof.
  split; [vm_compute; reflexivity|].
  refine (proj2 (proj1 (proj2 (votes_decide machine0 (Update 3 (supported_decodings (viewer0 "vp8") [])) _)) _) H264 _ _).
  - exists VP8. vm_compute. done.
  - done.
  - vm_compute. reflexivity.
Defined.

Lemma failing_codec_given_up_witness :
  exists d, note_decoder (viewer0 "h264") false 0 H264 [] = ([H264], Some d) /\
  let r := foldl step (update machine0 (Update 1 d) announced, []) [EvUpdate machine0 (Remove 2); EvUpdate machine0 (Remove 3); EvSetUp (fun _ => None) machine0 true] in
  format r.1 <> H264 /\ Forall (fun x => s_format x.2 <> H264) r.2.
Proof.
  refine (failing_codec_given_up (viewer0 "h264") false 0 H264 [] 1 machine0 announced _ eq_refl _ _ _ _); try done.
  - intros H. inversion H.
  - repeat (apply Forall_cons; split; [first [exact I|intros f [-> | ->]; (split; [discriminate|intros name E; vm_compute in E; first [discriminate E|injection E as <-; vm_compute; reflexivity]])]|]).
    apply Forall_nil. exact I.
  - repeat (apply Forall_cons; split; [done|]). by apply Forall_nil.
Defined.
