(* ===== verification/Presence.v ===== *)
(** * Which devices are online, asked by a viewer ([src/client.rs],
    [peer_online])

    The viewer asks the extra port of the rendezvous server for the states of
    the devices in its lists; the answer has one bit per device.  With the
    server's [handle_online_request] ([Rendezvous]) the two lists it makes are
    the truth. *)
From S2P Require Import Prelude.
From S2P Require Import Encoding.
From S2P Require Import Version.
From S2P Require Import HostPort.
From S2P Require Import Rendezvous.

(** What one read of the connection gives; [RxNothing] is a timeout, an error
    or bytes that are no message. *)
Inductive Rx := RxKeyExchange | RxOnline (states : list Z) | RxOther | RxNothing.
Definition next_timeout (rx : list Rx) : Rx * list Rx := match rx with [] => (RxNothing, []) | x :: rx => (x, rx) end.

(** [get_next_nonkeyexchange_msg]: two reads, the first of which may be a key
    exchange. *)
Fixpoint next_nonkeyexchange (tries : nat) (rx : list Rx) : option Rx * list Rx :=
  match tries with
  | O => (None, rx)
  | S tries =>
      let '(x, rx) := next_timeout rx in
      match x with
      | RxKeyExchange => next_nonkeyexchange tries rx
      | RxNothing => (None, rx)
      | _ => (Some x, rx)
      end
  end.
Definition get_next_nonkeyexchange_msg : list Rx -> option Rx * list Rx := next_nonkeyexchange 2.

(** [str::parse::<u16>] *)
Definition parse_u16 (s : bytes) : option Z :=
  match s with
  | Byte.x2d :: _ => None
  | _ => z ← parse_i64 s; if (0 <=? z) && (z <=? 65535) then Some z else None
  end.
(** Where [create_online_stream] connects to; [None] is an invalid address. *)
Definition online_server (rendezvous_server : bytes) : option bytes :=
  match split_on colon rendezvous_server with
  | [host; port] => port ← parse_u16 port; if port =? 0 then None else Some (host ++ [colon] ++ show_i32 (port - 1))
  | _ => None
  end.

(** The result; [Panic] is an index out of range. *)
Inductive Answer := States (onlines offlines : list bytes) | Bail | Panic.
Fixpoint read_states (states : list Z) (i : nat) (ids : list bytes) (onlines offlines : list bytes) : Answer :=
  match ids with
  | [] => States onlines offlines
  | id :: ids =>
      let bit_value := u8_of (Z.shiftl 1 (7 - Z.of_nat i mod 8)) in
      match states !! (i / 8)%nat with
      | None => Panic
      | Some b =>
          if Z.land b bit_value =? bit_value then read_states states (S i) ids (onlines ++ [id]) offlines
          else read_states states (S i) ids onlines (offlines ++ [id])
      end
  end.
(** Two messages are waited for. *)
Fixpoint await_states (tries : nat) (ids : list bytes) (rx : list Rx) : Answer :=
  match tries with
  | O => Bail
  | S tries =>
      match get_next_nonkeyexchange_msg rx with
      | (Some (RxOnline states), _) => read_states states 0 ids [] []
      | (Some _, rx) => await_states tries ids rx
      | (None, _) => Bail
      end
  end.
(** [sent]: a connection was made and the request went out. *)
Definition query_online_states_ (rendezvous_server : bytes) (sent : bool) (ids : list bytes) (rx : list Rx) : Answer :=
  match online_server rendezvous_server with
  | Some _ => if sent then await_states 2 ids rx else States [] ids
  | None => States [] ids
  end.

(** ** The answer read *)
Lemma bit_read b k : 0 <= k < 8 -> (Z.land b (u8_of (Z.shiftl 1 k)) =? u8_of (Z.shiftl 1 k)) = Z.testbit b k.
Proof.
  intros Hk. unfold u8_of. rewrite Z.shiftl_1_l, wrap_id.
  2: { unfold in_width. split; [apply Z.pow_nonneg; lia|]. apply Z.pow_lt_mono_r; lia. }
  apply eq_true_iff_eq. rewrite Z.eqb_eq. split.
  - intros H. apply (f_equal (fun z => Z.testbit z k)) in H. rewrite Z.land_spec, Z.pow2_bits_true in H by lia. by rewrite andb_true_r in H.
  - intros H. apply Z.bits_inj. intros j. rewrite Z.land_spec. destruct (Z.eq_dec j k) as [->|Hj].
    + rewrite Z.pow2_bits_true by lia. by rewrite H.
    + rewrite Z.pow2_bits_false by lia. by rewrite andb_false_r.
Qed.

Lemma read_states_spec states ids : forall i on off, (i + length ids <= 8 * length states)%nat ->
  read_states states i ids on off =
  States (on ++ (imap (fun k id => (bit_at states (i + k), id)) ids ≫= fun x => if x.1 : bool then [x.2] else []))
         (off ++ (imap (fun k id => (bit_at states (i + k), id)) ids ≫= fun x => if x.1 : bool then [] else [x.2])).
Proof.
  induction ids as [|id ids IH]; intros i on off Hl; [by rewrite !app_nil_r|]. cbn [read_states imap length] in *.
  assert (i / 8 < length states)%nat as Hi by (apply Nat.Div0.div_lt_upper_bound; lia).
  destruct (lookup_lt_is_Some_2 states _ Hi) as [b Hb]. rewrite Hb, bit_read by (pose proof (Z.mod_pos_bound (Z.of_nat i) 8); lia).
  assert (Z.testbit b (7 - Z.of_nat i mod 8) = bit_at states (i + 0)) as Eb by (unfold bit_at; by rewrite Nat.add_0_r, (nth_lookup_Some _ _ _ _ Hb)).
  assert (forall k, (i + S k = S i + k)%nat) as Es by lia.
  rewrite Eb. rewrite (imap_ext (_ ∘ S) (fun k id => (bit_at states (S i + k), id))) by (intros; unfold compose; by rewrite Es).
  cbn [mbind list_bind fst snd]. destruct (bit_at states (i + 0)); rewrite IH by lia; cbn [app]; by rewrite <- ?app_assoc.
Qed.

Lemma set_states_length e s ids : forall i st, length (set_states e s i ids st) = length st.
Proof. induction ids as [|id ids IH]; intros i st; [done|]. simpl. rewrite IH. by destruct (online e s id); rewrite ?length_alter. Qed.
Lemma truth_marked e s ids : imap (fun k id => (bit_at (handle_online_request e s ids) (0 + k), id)) ids = (fun id => (online e s id, id)) <$> ids.
Proof.
  apply list_eq. intros k. rewrite list_lookup_imap, list_lookup_fmap. destruct (ids !! k) as [id|] eqn:E; [|done]. simpl.
  by rewrite online_states_correct, E.
Qed.
Lemma marked_filter (P : bytes -> bool) ids :
  (((fun id => (P id, id)) <$> ids) ≫= fun x => if x.1 : bool then [x.2] else []) = List.filter P ids /\
  (((fun id => (P id, id)) <$> ids) ≫= fun x => if x.1 : bool then [] else [x.2]) = List.filter (fun id => negb (P id)) ids.
Proof.
  induction ids as [|id ids [I1 I2]]; [done|]. rewrite fmap_cons, !bind_cons, I1, I2. simpl. by destruct (P id).
Qed.

(** [C24] The lists of devices tell the truth: a viewer whose server address is
    valid and whose request goes out divides the devices it asked for into
    those the rendezvous server has in memory and saw in the last thirty
    seconds, and the others, each list in the order asked; a key exchange
    before a message and one other message before the answer do no harm.
    Without a connection all are called offline, and nothing is said when
    there is no answer. *)
Theorem presence_truthful rs e s ids k1 k2 o rx : is_Some (online_server rs) ->
  let kx (b : bool) := if b then [RxKeyExchange] else [] in
  query_online_states_ rs true ids (kx k1 ++ (if o : bool then RxOther :: kx k2 else []) ++ RxOnline (handle_online_request e s ids) :: rx)
    = States (List.filter (online e s) ids) (List.filter (fun id => negb (online e s id)) ids) /\
  query_online_states_ rs false ids rx = States [] ids /\
  query_online_states_ rs true ids [] = Bail.
Proof.
  intros [a Ha] kx. unfold query_online_states_. rewrite Ha. split_and!; [|done|done].
  assert (read_states (handle_online_request e s ids) 0 ids [] [] = States (List.filter (online e s) ids) (List.filter (fun id => negb (online e s id)) ids)) as Hr.
  { rewrite read_states_spec.
    - rewrite truth_marked. destruct (marked_filter (online e s) ids) as [-> ->]. done.
    - unfold handle_online_request. rewrite set_states_length, length_replicate. pose proof (Nat.div_mod_eq (length ids + 7) 8).
      pose proof (Nat.mod_upper_bound (length ids + 7) 8 ltac:(lia)). lia. }
  destruct k1, o, k2; exact Hr.
Qed.

Lemma presence_truthful_witness :
  query_online_states_ (str "rs.example:21116") true [id0; str "99"] [RxKeyExchange; RxOnline (handle_online_request env0 server0 [id0; str "99"])]
    = States [id0] [str "99"].
Proof.
  etransitivity; [refine (proj1 (presence_truthful (str "rs.example:21116") env0 server0 [id0; str "99"] true false false [] _)); vm_compute; by eexists|].
  vm_compute. reflexivity.
Defined.

(** An answer that is too short for the devices asked for is an index out of
    range; a server with an IPv6 address is not asked at all. *)
Example short_answer_panics : query_online_states_ (str "rs.example:21116") true [str "1"] [RxOnline []] = Panic.
Proof. vm_compute. reflexivity. Qed.
Example ipv6_server_not_asked : online_server (str "[2001:db8::1]:21116") = None /\ online_server (str "rs.example:21116") = Some (str "rs.example:21115").
Proof. vm_compute. done. Qed.
