(* ===== verification/ViewerVideo.v ===== *)
(** * Video at the viewer ([src/client/io_loop.rs], [start_video_thread] of
    [src/client.rs])

    Frames of a display reach its decoder thread by two ways: key frames inside
    a channel, the others in a bounded queue with a token in the channel for
    each.  A full queue loses its oldest frame and a key frame is asked for; a
    request for one makes the decoder skip what waits until it comes.  Once a
    second [fps_control] sets the frame rate the device should keep to.  The
    clock counts nanoseconds. *)
From S2P Require Import Prelude.
From S2P Require Import Encoding.

(** ** Frames *)

(** [vf_keys]: for each encoded part of a frame whether it is a key; [None] when
    the frame is of no codec. *)
Record VideoFrame := mkVideoFrame { vf_seq : Z; vf_keys : option (list bool) }.
Definition contains_key_frame (vf : VideoFrame) : bool :=
  match vf_keys vf with Some ks => existsb (fun k => k) ks | None => false end.

Definition VIDEO_QUEUE_SIZE : nat := 120.
Inductive MediaData := MVideoFrame (vf : VideoFrame) | MVideoQueue.

(** One display's thread; [decoded] are the frames given to the decoder. *)
Record VideoThread := mkVideoThread {
  video_channel : list MediaData;
  video_queue : list VideoFrame;
  discard_queue : bool;
  decoded : list VideoFrame
}.
Definition thread0 : VideoThread := mkVideoThread [] [] false [].

(** [ArrayQueue::force_push]: whether the oldest entry had to go. *)
Definition force_push (vf : VideoFrame) (q : list VideoFrame) : bool * list VideoFrame :=
  if (length q <? VIDEO_QUEUE_SIZE)%nat then (false, q ++ [vf]) else (true, tail q ++ [vf]).

(** A frame arrives; the result says whether a key frame is to be asked for. *)
Definition on_video_frame (vf : VideoFrame) (t : VideoThread) : bool * VideoThread :=
  if contains_key_frame vf then
    (false, mkVideoThread (video_channel t ++ [MVideoFrame vf]) (video_queue t) (discard_queue t) (decoded t))
  else
    let '(full, q) := force_push vf (video_queue t) in
    if full then (true, mkVideoThread (video_channel t) q (discard_queue t) (decoded t))
    else (false, mkVideoThread (video_channel t ++ [MVideoQueue]) q (discard_queue t) (decoded t)).

(** A request for a key frame goes out. *)
Definition on_refresh_sent (t : VideoThread) : VideoThread :=
  mkVideoThread (video_channel t) (video_queue t) true (decoded t).

(** One turn of the decoder thread. *)
Definition decode_next (t : VideoThread) : VideoThread :=
  match video_channel t with
  | [] => t
  | MVideoFrame vf :: c => mkVideoThread c (video_queue t) false (decoded t ++ [vf])
  | MVideoQueue :: c =>
      match video_queue t with
      | vf :: q => mkVideoThread c q (discard_queue t) (if discard_queue t then decoded t else decoded t ++ [vf])
      | [] => mkVideoThread c [] (discard_queue t) (decoded t)
      end
  end.

Inductive Ev := Arrives (vf : VideoFrame) | RefreshSent | Decodes.
Definition step (t : VideoThread) (e : Ev) : VideoThread :=
  match e with
  | Arrives vf => (on_video_frame vf t).2
  | RefreshSent => on_refresh_sent t
  | Decodes => decode_next t
  end.
(** Whether no frame finds the queue full. *)
Fixpoint no_overflow (t : VideoThread) (evs : list Ev) : bool :=
  match evs with
  | [] => true
  | e :: evs => match e with Arrives vf => negb (on_video_frame vf t).1 | _ => true end && no_overflow (step t e) evs
  end.

(** ** One queue: what the two ways amount to *)
Record Line := mkLine { waiting : list VideoFrame; skipping : bool; shown : list VideoFrame }.
Definition line_step (l : Line) (e : Ev) : Line :=
  match e with
  | Arrives vf => mkLine (waiting l ++ [vf]) (skipping l) (shown l)
  | RefreshSent => mkLine (waiting l) true (shown l)
  | Decodes =>
      match waiting l with
      | [] => l
      | vf :: w =>
          if contains_key_frame vf then mkLine w false (shown l ++ [vf])
          else mkLine w (skipping l) (if skipping l then shown l else shown l ++ [vf])
      end
  end.

(** The frames that wait, in the order of the channel. *)
Fixpoint merged (c : list MediaData) (q : list VideoFrame) : option (list VideoFrame) :=
  match c with
  | [] => match q with [] => Some [] | _ => None end
  | MVideoFrame vf :: c => if contains_key_frame vf then cons vf <$> merged c q else None
  | MVideoQueue :: c => match q with vf :: q => if contains_key_frame vf then None else cons vf <$> merged c q | [] => None end
  end.
Definition refines (t : VideoThread) (l : Line) : Prop :=
  merged (video_channel t) (video_queue t) = Some (waiting l) /\ discard_queue t = skipping l /\ decoded t = shown l.

Lemma merged_key c q w vf : contains_key_frame vf = true -> merged c q = Some w -> merged (c ++ [MVideoFrame vf]) q = Some (w ++ [vf]).
Proof.
  intros Hk. revert q w. induction c as [|[vf'|] c IH]; intros q w H; simpl in *.
  - destruct q; [|done]. injection H as <-. by rewrite Hk.
  - destruct (contains_key_frame vf'); [|done]. destruct (merged c q) as [w'|] eqn:E; [|done]. injection H as <-. by rewrite (IH _ _ E).
  - destruct q as [|x q]; [done|]. destruct (contains_key_frame x); [done|]. destruct (merged c q) as [w'|] eqn:E; [|done]. injection H as <-.
    by rewrite (IH _ _ E).
Qed.
Lemma merged_token c q w vf : contains_key_frame vf = false -> merged c q = Some w -> merged (c ++ [MVideoQueue]) (q ++ [vf]) = Some (w ++ [vf]).
Proof.
  intros Hk. revert q w. induction c as [|[vf'|] c IH]; intros q w H; simpl in *.
  - destruct q; [|done]. injection H as <-. simpl. by rewrite Hk.
  - destruct (contains_key_frame vf'); [|done]. destruct (merged c q) as [w'|] eqn:E; [|done]. injection H as <-. by rewrite (IH _ _ E).
  - destruct q as [|x q]; [done|]. simpl. destruct (contains_key_frame x); [done|]. destruct (merged c q) as [w'|] eqn:E; [|done]. injection H as <-.
    by rewrite (IH _ _ E).
Qed.

Lemma step_refines t l e : refines t l -> match e with Arrives vf => (on_video_frame vf t).1 = false | _ => True end ->
  refines (step t e) (line_step l e).
Proof.
  intros (Hm & Hd & Hs) He. destruct e as [vf| |]; simpl.
  - unfold on_video_frame, force_push in *. destruct (contains_key_frame vf) eqn:Hk; [split; [by apply merged_key|done]|].
    destruct (_ <? _)%nat; [|done]. split; [by apply merged_token|done].
  - done.
  - unfold decode_next. destruct (video_channel t) as [|[vf|] c] eqn:Ec; simpl in Hm.
    + destruct (video_queue t) eqn:Eq; [|done]. injection Hm as Hw. rewrite <- Hw. split; [by rewrite Ec, Eq, <- Hw|done].
    + destruct (contains_key_frame vf) eqn:Hk; [|done]. destruct (merged c _) as [w|] eqn:E; [|done]. injection Hm as Hw. rewrite <- Hw, Hk.
      split; [done|]. split; [done|]. simpl. by rewrite Hs.
    + destruct (video_queue t) as [|vf q] eqn:Eq; [done|]. destruct (contains_key_frame vf) eqn:Hk; [done|].
      destruct (merged c q) as [w|] eqn:E; [|done]. injection Hm as Hw. rewrite <- Hw, Hk. split; [done|]. split; [done|]. simpl. by rewrite Hd, Hs.
Qed.
Lemma run_refines evs : forall t l, refines t l -> no_overflow t evs = true -> refines (foldl step t evs) (foldl line_step l evs).
Proof.
  induction evs as [|e evs IH]; intros t l Hr H; [done|]. simpl in H. apply andb_true_iff in H as [H1 H2]. simpl. apply IH; [|done].
  apply step_refines; [done|]. destruct e; [by apply negb_true_iff|done|done].
Qed.

(** ** No gaps *)
Definition arrivals (evs : list Ev) : list VideoFrame := omap (fun e => match e with Arrives vf => Some vf | _ => None end) evs.
(** Each frame but a key frame follows its predecessor in the stream. *)
Inductive gapless : list VideoFrame -> Prop :=
| gapless_nil : gapless []
| gapless_first vf : contains_key_frame vf = true \/ vf_seq vf = 0 -> gapless [vf]
| gapless_snoc d x vf : gapless (d ++ [x]) -> contains_key_frame vf = true \/ vf_seq vf = vf_seq x + 1 -> gapless (d ++ [x; vf]).

Lemma gapless_add d vf : gapless d ->
  contains_key_frame vf = true \/ match last d with Some x => vf_seq vf = vf_seq x + 1 | None => vf_seq vf = 0 end -> gapless (d ++ [vf]).
Proof.
  intros Hd H. destruct d as [|x d _] using rev_ind; [by apply (gapless_first vf)|]. rewrite last_snoc in H.
  rewrite <- app_assoc. by apply (gapless_snoc d x vf).
Qed.

(** The numbers of the frames that wait, [n] having arrived. *)
Definition lined_up (n : Z) (l : Line) : Prop :=
  (forall k vf, waiting l !! k = Some vf -> vf_seq vf = n - len (waiting l) + Z.of_nat k) /\ gapless (shown l) /\
  (skipping l = false -> match last (shown l) with Some x => vf_seq x + 1 = n - len (waiting l) | None => n - len (waiting l) = 0 end).

Lemma arrives_lined_up n l vf : lined_up n l -> vf_seq vf = n -> lined_up (n + 1) (line_step l (Arrives vf)).
Proof.
  intros (Hw & Hg & Hs) Hn. unfold lined_up. cbn [line_step waiting shown skipping]. rewrite len_app, len_cons, len_nil.
  replace (n + 1 - (len (waiting l) + (1 + 0))) with (n - len (waiting l)) by lia. split; [|done].
  intros k x Hx. apply lookup_app_Some in Hx as [Hx|[Hk Hx]]; [by apply Hw|]. destruct (k - length (waiting l))%nat as [|j] eqn:Ej; [|done].
  injection Hx as <-. unfold len. lia.
Qed.
Lemma decodes_lined_up n l : lined_up n l -> lined_up n (line_step l Decodes).
Proof.
  intros (Hw & Hg & Hs). cbn [line_step]. destruct (waiting l) as [|vf w] eqn:Ew; [unfold lined_up; by rewrite Ew|].
  pose proof (Hw 0%nat vf eq_refl) as H0. rewrite len_cons in *.
  assert (forall k x, w !! k = Some x -> vf_seq x = n - len w + Z.of_nat k) as Hw'.
  { intros k x Hx. specialize (Hw (S k) x Hx). lia. }
  unfold lined_up. destruct (contains_key_frame vf) eqn:Hk; cbn [waiting shown skipping].
  - split; [done|]. split; [apply gapless_add; [done|by left]|]. intros _. rewrite last_snoc. lia.
  - split; [done|]. destruct (skipping l) eqn:Es; [by split|]. specialize (Hs eq_refl). split.
    + apply gapless_add; [done|]. right. destruct (last (shown l)); lia.
    + intros _. rewrite last_snoc. lia.
Qed.
Lemma run_lined_up evs : forall n l, lined_up n l -> (forall k vf, arrivals evs !! k = Some vf -> vf_seq vf = n + Z.of_nat k) ->
  exists m, lined_up m (foldl line_step l evs).
Proof.
  induction evs as [|e evs IH]; intros n l Hl Hn; [by exists n|]. cbn [foldl]. destruct e as [vf| |].
  - apply (IH (n + 1)); [apply arrives_lined_up; [done|]; rewrite (Hn 0%nat vf eq_refl); lia|].
    intros k x Hx. rewrite (Hn (S k) x Hx). lia.
  - apply (IH n); [|done]. destruct Hl as (H1 & H2 & _). split; [done|]. by split.
  - apply (IH n); [by apply decodes_lined_up|done].
Qed.
(** Without requests for key frames nothing is skipped. *)
Lemma run_shows_all evs : forall l, skipping l = false -> RefreshSent ∉ evs ->
  let l' := foldl line_step l evs in shown l' ++ waiting l' = shown l ++ waiting l ++ arrivals evs.
Proof.
  induction evs as [|e evs IH]; intros l Hs Hr; [simpl; by rewrite app_nil_r|]. apply not_elem_of_cons in Hr as [He Hr]. cbn [foldl]. cbv zeta.
  destruct e as [vf| |]; [| done |].
  - rewrite (IH (line_step l (Arrives vf))) by done. cbn [line_step shown waiting]. change (arrivals (Arrives vf :: evs)) with (vf :: arrivals evs).
    by rewrite <- app_assoc.
  - change (arrivals (Decodes :: evs)) with (arrivals evs). rewrite IH; [|cbn [line_step]; destruct (waiting l); [done|]; by destruct (contains_key_frame _)|done].
    cbn [line_step]. destruct (waiting l) as [|vf w] eqn:Ew; [by rewrite Ew|]. rewrite Hs.
    destruct (contains_key_frame vf); cbn [shown waiting]; by rewrite <- !app_assoc.
Qed.

(** [C22] Frames are decoded in order: the two ways of the frames of a display
    amount to one line.  As long as the queue does not overflow, whatever the
    interleaving of arriving frames, decoding and requests for key frames, a
    frame that is not a key frame is only decoded right after its predecessor
    in the stream; and if no key frame was asked for, the decoded frames
    followed by the waiting ones are those that arrived. *)
Theorem frames_in_order evs : (forall k vf, arrivals evs !! k = Some vf -> vf_seq vf = Z.of_nat k) -> no_overflow thread0 evs = true ->
  let t := foldl step thread0 evs in
  gapless (decoded t) /\
  (RefreshSent ∉ evs -> exists w, merged (video_channel t) (video_queue t) = Some w /\ decoded t ++ w = arrivals evs).
Proof.
  intros Hn Ho t. assert (refines thread0 (mkLine [] false [])) as H0 by done.
  destruct (run_refines evs _ _ H0 Ho) as (Hm & _ & Hd). fold t in Hm, Hd. rewrite Hd.
  destruct (run_lined_up evs 0 (mkLine [] false [])) as (m & _ & Hg & _).
  - split; [by intros|]. split; [constructor|done].
  - intros k vf H. by rewrite (Hn k vf H).
  - split; [done|]. intros Hr. eexists. split; [done|]. by rewrite (run_shows_all evs (mkLine [] false [])).
Qed.

Definition key (n : Z) : VideoFrame := mkVideoFrame n (Some [true]).
Definition delta (n : Z) : VideoFrame := mkVideoFrame n (Some [false]).
Definition demo_evs : list Ev := [Arrives (key 0); Arrives (delta 1); Decodes; RefreshSent; Decodes; Arrives (key 2); Arrives (delta 3); Decodes; Decodes].
Lemma frames_in_order_witness : decoded (foldl step thread0 demo_evs) = [key 0; key 2; delta 3] /\ gapless (decoded (foldl step thread0 demo_evs)).
Proof.
  split; [vm_compute; reflexivity|]. refine (proj1 (frames_in_order demo_evs _ _)); [|vm_compute; reflexivity].
  intros k vf. vm_compute arrivals. do 4 (destruct k as [|k]; [intros [= <-]; reflexivity|]). done.
Defined.

(** When the queue overflows behind a key frame in the channel, a frame that
    depends on the key frame is taken before it: the frame after that one is
    decoded without it. *)
Definition overflow_run : list Ev :=
  Arrives (key 0) :: Decodes :: Arrives (delta 1) :: Arrives (key 2) :: (Arrives ∘ delta ∘ Z.of_nat <$> seq 3 120) ++ [RefreshSent; Decodes; Decodes; Decodes].
Example overflow_breaks_order : map vf_seq (decoded (foldl step thread0 overflow_run)) = [0; 2; 4].
Proof. vm_compute. reflexivity. Qed.

(** ** The frame rate ([fps_control]) *)
Record FpsControl := mkFpsControl {
  refresh_times : Z;
  last_refresh_instant : option Z;
  idle_counter : Z;
  inactive_counter : Z
}.
Definition fps_control0 : FpsControl := mkFpsControl 0 None 0 0.
(** What is known of a display's thread. *)
Record Meter := mkMeter { queue_len : Z; decode_fps : option Z; control : FpsControl }.
Definition with_control (c : FpsControl) (m : Meter) : Meter := mkMeter (queue_len m) (decode_fps m) c.

Definition inactive_threshold : Z := 15.
Definition count_inactive (real_fps : Z) (c : FpsControl) : FpsControl :=
  mkFpsControl (refresh_times c) (last_refresh_instant c) (idle_counter c) (if real_fps =? 0 then u64_of (inactive_counter c + 1) else 0).
Definition effective_custom (custom : option Z) : Z :=
  let c := default 30 custom in if (c <? 5) || (120 <? c) then 30 else c.
(** [Iterator::min] of optional numbers; nothing is less than something. *)
Definition opt_le (x y : option Z) : bool :=
  match x, y with None, _ => true | Some _, None => false | Some x, Some y => x <=? y end.
Fixpoint opt_min (l : list (option Z)) : option Z :=
  match l with
  | [] => None
  | [x] => x
  | x :: l => let y := opt_min l in if opt_le x y then x else y
  end.
Definition active (m : Meter) : bool := inactive_counter (control m) <? inactive_threshold.
Definition min_decode_fps (ms : list Meter) : option Z := opt_min (decode_fps <$> List.filter active ms).
Definition max_queue_len (ms : list Meter) : Z := foldl Z.max 0 (queue_len <$> ms).
Definition limited_fps (direct : bool) (min_fps custom : Z) : Z :=
  let l := if direct then u64_of (min_fps * 9) / 10 else u64_of (min_fps * 4) / 5 in
  if custom <? l then custom else l.

(** Down, up or neither, and the idle counter. *)
Definition with_idle (n : Z) (m : Meter) : Meter :=
  let c := control m in with_control (mkFpsControl (refresh_times c) (last_refresh_instant c) n (inactive_counter c)) m.
Definition fps_trending (last_auto custom limited : Z) (m : Meter) : option bool * Meter :=
  match decode_fps m with
  | None => (None, m)
  | Some d =>
      if inactive_threshold <? inactive_counter (control m) then (None, m)
      else
        let n := queue_len m in
        if (1 <? n) && (limited <? last_auto) || (Z.max 1 (d / 2) <? n) then (Some false, with_idle 0 m)
        else if n <=? 1 then
          let m := with_idle (u64_of (idle_counter (control m) + 1)) m in
          if (3 <? idle_counter (control m)) && (last_auto + 3 <=? limited) then (Some true, m) else (None, m)
        else (None, with_idle 0 m)
  end.

(** The rate to announce. *)
Definition announced (down : bool) (limited max_queue : Z) : Z :=
  let f := if down && (limited <? max_queue) then limited / 2 else limited in if f <? 1 then 1 else f.

Definition SECOND : Z := 1000000000.
Definition wants_refresh (now min_fps : Z) (m : Meter) : bool :=
  let c := control m in
  (refresh_times c <? 20) && (Z.min min_fps (Z.of_nat VIDEO_QUEUE_SIZE / 2) <? queue_len m)
  && ((refresh_times c =? 0) || match last_refresh_instant c with Some t => 10 <? (now - t) / SECOND | None => false end).
Definition refreshed (now : Z) (m : Meter) : Meter :=
  let c := control m in with_control (mkFpsControl (refresh_times c + 1) (Some now) (idle_counter c) (inactive_counter c)) m.

Record Outcome := mkOutcome {
  o_meters : gmap Z Meter;
  o_last_auto : option Z;
  o_sent : option Z;
  o_refresh : gset Z
}.
Definition fps_control (now : Z) (direct : bool) (custom : option Z) (real_fps : gmap Z Z) (last_auto : option Z) (ms : gmap Z Meter) : Outcome :=
  let ms := map_imap (fun k m => Some (with_control (count_inactive (default 0 (real_fps !! k)) (control m)) m)) ms in
  let custom := effective_custom custom in
  let all := snd <$> map_to_list ms in
  match min_decode_fps all with
  | None => mkOutcome ms last_auto None ∅
  | Some min_fps =>
      let limited := limited_fps direct min_fps custom in
      let trend m := fps_trending (default custom last_auto) custom limited m in
      let trends := (fun m => (trend m).1) <$> all in
      let down := existsb (fun t => bool_decide (t = Some false)) trends in
      let up := negb down && existsb (fun t => bool_decide (t = Some true)) trends in
      let ms := (fun m => (trend m).2) <$> ms in
      let f := announced down limited (max_queue_len all) in
      let sent := if (bool_decide (last_auto = None) || down || up) && negb (bool_decide (Some f = last_auto)) then Some f else None in
      let again := filter (fun x : Z * Meter => wants_refresh now min_fps x.2 = true) ms in
      mkOutcome ((fun m => if wants_refresh now min_fps m then refreshed now m else m) <$> ms)
        (match sent with Some f => Some f | None => last_auto end) sent (dom again)
  end.

(** ** Decoding speed ([fps_calculate]) *)
Record Speed := mkSpeed { skip_beginning : Z; frame_count : Z; duration : Z; speed_fps : option Z }.
Definition fps_calculate (format_changed : bool) (elapsed : Z) (s : Speed) : Speed :=
  let s := if format_changed then mkSpeed 0 0 0 (speed_fps s) else s in
  if skip_beginning s <? 3 then mkSpeed (skip_beginning s + 1) (frame_count s) (duration s) (speed_fps s)
  else
    let duration := duration s + elapsed in
    let count := frame_count s + 1 in
    let ms := duration / 1000000 in
    let fps := if (count mod 10 =? 0) && (0 <? ms) then Some (count * 1000 / ms) else speed_fps s in
    if 30 <=? count then mkSpeed (skip_beginning s) 0 0 fps else mkSpeed (skip_beginning s) count duration fps.

(** ** Bounds *)
Lemma custom_range custom : 5 <= effective_custom custom <= 120.
Proof.
  unfold effective_custom. destruct (default 30 custom <? 5) eqn:E1; [simpl; lia|]. destruct (120 <? default 30 custom) eqn:E2; simpl; [lia|].
  apply Z.ltb_ge in E1, E2. lia.
Qed.
Lemma opt_min_spec l x : opt_min l = Some x -> Forall (fun y => exists z, y = Some z /\ x <= z) l.
Proof.
  revert x. induction l as [|y l IH]; intros x H; [constructor|]. destruct l as [|y' l].
  - simpl in H. apply Forall_singleton. exists x. split; [done|lia].
  - change (opt_min (y :: y' :: l)) with (if opt_le y (opt_min (y' :: l)) then y else opt_min (y' :: l)) in H.
    destruct (opt_min (y' :: l)) as [z|]; [|by destruct y]. specialize (IH z eq_refl). destruct y as [y|]; [|done]. simpl in H.
    apply Forall_cons. destruct (Z.leb_spec y z); injection H as <-; (split; [eexists; split; [done|lia]|]).
    + eapply Forall_impl; [exact IH|]. intros ? (w & -> & ?). eexists. split; [done|lia].
    + done.
Qed.

Lemma opt_min_elem l x : opt_min l = Some x -> Some x ∈ l.
Proof.
  induction l as [|y l IH]; [done|]. destruct l as [|y' l]; [simpl; intros ->; by left|].
  change (opt_min (y :: y' :: l)) with (if opt_le y (opt_min (y' :: l)) then y else opt_min (y' :: l)).
  destruct (opt_le y _); intros H; [rewrite H; by left|right; by apply IH].
Qed.
Lemma announced_range down limited mq : 1 <= announced down limited mq <= Z.max 1 limited.
Proof.
  unfold announced. destruct (down && (limited <? mq)).
  - destruct (Z.ltb_spec (limited / 2) 1); [lia|]. Z.div_mod_to_equations; lia.
  - destruct (Z.ltb_spec limited 1); lia.
Qed.
Lemma limited_range direct x d cust : 0 <= x <= d -> d < 2 ^ 32 -> 0 <= cust ->
  limited_fps direct x cust <= cust /\ limited_fps direct x cust <= d * 9 / 10.
Proof.
  intros Hx Hd Hc. unfold limited_fps, u64_of. rewrite !wrap_id by (unfold in_width; lia).
  assert (x * 9 / 10 <= d * 9 / 10) by (apply Z.div_le_mono; lia). assert (x * 4 / 5 <= x * 9 / 10) by (Z.div_mod_to_equations; lia).
  destruct direct; destruct (Z.ltb_spec cust (x * 9 / 10)), (Z.ltb_spec cust (x * 4 / 5)); lia.
Qed.
(** The rest of a tick leaves the measurements and what is active. *)
Lemma trending_keeps a b c m : decode_fps (fps_trending a b c m).2 = decode_fps m /\ active (fps_trending a b c m).2 = active m.
Proof. unfold fps_trending. repeat case_match; done. Qed.
Lemma refreshed_keeps (x : bool) now m : decode_fps (if x then refreshed now m else m) = decode_fps m /\ active (if x then refreshed now m else m) = active m.
Proof. by destruct x. Qed.

(** [C35] The frame rate a viewer asks for can be kept: it is at least one and at
    most the rate the user set (30 if that is not between 5 and 120), and no
    active display's decoder, at the speed measured for it, is asked for more
    than nine tenths of what it does (a rate of one apart); without a measured
    speed for every active display nothing is asked.  The rate is remembered. *)
Theorem asked_rate_sustainable now direct custom real last ms f :
  o_sent (fps_control now direct custom real last ms) = Some f ->
  (forall k m d, ms !! k = Some m -> decode_fps m = Some d -> 0 <= d < 2 ^ 32) ->
  1 <= f <= effective_custom custom /\ f <= 120 /\ o_last_auto (fps_control now direct custom real last ms) = Some f /\
  forall k m, o_meters (fps_control now direct custom real last ms) !! k = Some m -> active m = true ->
    exists d, decode_fps m = Some d /\ f <= Z.max 1 (d * 9 / 10).
Proof.
  unfold fps_control. set (ms1 := map_imap _ ms). set (all := snd <$> map_to_list ms1). intros H Hd.
  destruct (min_decode_fps all) as [min_fps|] eqn:Em; [|discriminate H]. cbn [o_sent o_last_auto o_meters] in *.
  destruct (_ && _) in H |- *; [|discriminate H]. injection H as Ef. rewrite Ef.
  assert (forall m2 d, m2 ∈ all -> decode_fps m2 = Some d -> 0 <= d < 2 ^ 32) as Hall.
  { intros m2 d ([k m3] & -> & Hk)%list_elem_of_fmap E. apply elem_of_map_to_list in Hk. subst ms1. rewrite map_lookup_imap in Hk.
    destruct (ms !! k) as [m0|] eqn:E0; [|done]. injection Hk as <-. by apply (Hd k m0 d E0). }
  pose proof (custom_range custom) as Hc. pose proof (announced_range (existsb (fun t => bool_decide (t = Some false))
    ((fun m => (fps_trending (default (effective_custom custom) last) (effective_custom custom) (limited_fps direct min_fps (effective_custom custom)) m).1) <$> all))
    (limited_fps direct min_fps (effective_custom custom)) (max_queue_len all)) as Hr. rewrite Ef in Hr.
  assert (0 <= min_fps < 2 ^ 32) as Hm.
  { apply opt_min_elem, list_elem_of_fmap in Em as (m2 & E & Hm2). apply list_elem_of_In, filter_In in Hm2 as [Hm2 _].
    apply (Hall m2 min_fps); [by apply list_elem_of_In|done]. }
  destruct (limited_range direct min_fps min_fps (effective_custom custom)) as [L1 _]; [lia..|].
  split; [lia|]. split; [lia|]. split; [done|]. intros k m Hk Ha.
  apply lookup_fmap_Some in Hk as (m1 & <- & Hk). apply lookup_fmap_Some in Hk as (m2 & <- & Hk).
  rewrite (proj2 (refreshed_keeps _ _ _)), (proj2 (trending_keeps _ _ _ _)) in Ha. rewrite (proj1 (refreshed_keeps _ _ _)), (proj1 (trending_keeps _ _ _ _)).
  assert (m2 ∈ all) as Hin by (apply list_elem_of_fmap; exists (k, m2); split; [done|]; by apply elem_of_map_to_list).
  apply opt_min_spec in Em. rewrite Forall_forall in Em. destruct (Em (decode_fps m2)) as (d & E & Hle).
  { apply list_elem_of_fmap. exists m2. split; [done|]. apply list_elem_of_In, filter_In. split; [by apply list_elem_of_In|done]. }
  exists d. split; [done|]. destruct (limited_range direct min_fps d (effective_custom custom)) as [_ L2]; [lia|by apply (Hall m2)|lia|]. lia.
Qed.

(** ** Refreshes are rare *)

(** A tick: the time, the settings, and what was measured of the threads. *)
Record Tick := mkTick { tk_now : Z; tk_direct : bool; tk_custom : option Z; tk_real : gmap Z Z; tk_measure : Z -> Z * option Z }.
Definition measured (f : Z -> Z * option Z) (ms : gmap Z Meter) : gmap Z Meter :=
  map_imap (fun k m => Some (mkMeter (f k).1 (f k).2 (control m))) ms.
Definition tick (t : Tick) (last : option Z) (ms : gmap Z Meter) : Outcome :=
  fps_control (tk_now t) (tk_direct t) (tk_custom t) (tk_real t) last (measured (tk_measure t) ms).
(** When display [k] was refreshed. *)
Fixpoint refreshes (k : Z) (ts : list Tick) (last : option Z) (ms : gmap Z Meter) : list Z :=
  match ts with
  | [] => []
  | t :: ts =>
      let o := tick t last ms in
      (if bool_decide (k ∈ o_refresh o) then [tk_now t] else []) ++ refreshes k ts (o_last_auto o) (o_meters o)
  end.
Fixpoint spaced (last : option Z) (l : list Z) : Prop :=
  match l with
  | [] => True
  | t :: l => match last with Some t0 => 10 < (t - t0) / SECOND | None => True end /\ spaced (Some t) l
  end.

(** The refreshes counted for a display, and the last. *)
Definition history (k : Z) (ms : gmap Z Meter) : option (Z * option Z) :=
  (fun m => (refresh_times (control m), last_refresh_instant (control m))) <$> ms !! k.
Lemma trending_history a b c m : refresh_times (control (fps_trending a b c m).2) = refresh_times (control m) /\
  last_refresh_instant (control (fps_trending a b c m).2) = last_refresh_instant (control m).
Proof. unfold fps_trending. repeat case_match; done. Qed.

Lemma tick_history k t last ms : let o := tick t last ms in
  if bool_decide (k ∈ o_refresh o)
  then exists n l, history k ms = Some (n, l) /\ n < 20 /\ (n = 0 \/ exists t0, l = Some t0 /\ 10 < (tk_now t - t0) / SECOND) /\
       history k (o_meters o) = Some (n + 1, Some (tk_now t))
  else history k (o_meters o) = history k ms.
Proof.
  intros o. subst o. unfold tick, fps_control. set (ms1 := map_imap _ (measured _ ms)).
  assert (history k ms1 = history k ms) as Eh.
  { subst ms1. unfold history, measured. rewrite !map_lookup_imap. by destruct (ms !! k). }
  rewrite <- Eh. destruct (min_decode_fps _) as [min_fps|]; cbn [o_refresh o_meters]; [|by rewrite bool_decide_false by set_solver].
  match goal with |- context [filter _ (?f <$> ms1)] => set (ms2 := f <$> ms1); assert (history k ms2 = history k ms1) as Eh2 end.
  { subst ms2. unfold history. rewrite lookup_fmap. destruct (ms1 !! k) as [m|]; [|done]. simpl.
    by rewrite (proj1 (trending_history _ _ _ _)), (proj2 (trending_history _ _ _ _)). }
  rewrite <- Eh2. clearbody ms2. case_bool_decide as Hk.
  - apply elem_of_dom in Hk as [m Hm]. apply map_lookup_filter_Some in Hm as [Hm Hw]. simpl in Hw.
    unfold history. rewrite lookup_fmap, Hm. simpl. rewrite Hw. eexists _, _. split; [done|].
    unfold wants_refresh in Hw. rewrite !andb_true_iff, orb_true_iff in Hw. destruct Hw as [[H1%Z.ltb_lt _] H2]. split; [done|]. split; [|done].
    destruct H2 as [H2%Z.eqb_eq|H2]; [by left|]. destruct (last_refresh_instant (control m)) as [t0|]; [|done]. right. exists t0. split; [done|by apply Z.ltb_lt].
  - unfold history. rewrite lookup_fmap. destruct (ms2 !! k) as [m|] eqn:Em; [|done]. simpl.
    destruct (wants_refresh _ _ m) eqn:Ew; [|done]. exfalso. apply Hk, elem_of_dom. exists m. by apply map_lookup_filter_Some.
Qed.

(** A display is refreshed at most twenty times, and never twice within ten
    seconds, whatever is measured. *)
Theorem refreshes_rare k ts : forall last ms, (forall m, ms !! k = Some m -> control m = fps_control0) ->
  len (refreshes k ts last ms) <= 20 /\ spaced None (refreshes k ts last ms).
Proof.
  intros last ms Hms.
  assert (forall ts last ms n l, history k ms = Some (n, l) -> 0 <= n <= 20 -> (n = 0 -> l = None) ->
    len (refreshes k ts last ms) <= 20 - n /\ spaced l (refreshes k ts last ms)) as H.
  { clear. induction ts as [|t ts IH]; intros last ms n l Hh Hn Hl; cbn [refreshes]; [rewrite len_nil; simpl; split; [lia|done]|].
    pose proof (tick_history k t last ms) as Ht. cbv zeta in Ht. rewrite Hh in Ht.
    destruct (bool_decide (k ∈ o_refresh (tick t last ms))).
    - destruct Ht as (n' & l' & [= <- <-] & H1 & H2 & H3). destruct (IH (o_last_auto (tick t last ms)) _ _ _ H3) as [I1 I2]; [lia|lia|].
      cbn [app spaced]. rewrite len_cons. split; [lia|]. split; [|done]. destruct H2 as [H2|(t0 & -> & H2)]; [by rewrite (Hl H2)|done].
    - cbn [app]. by apply IH. }
  destruct (ms !! k) as [m|] eqn:Em.
  - apply (H ts last ms 0 None); [unfold history; rewrite Em; simpl; by rewrite (Hms m eq_refl)|lia|done].
  - clear H Hms. revert last ms Em. induction ts as [|t ts IH]; intros last ms Em; cbn [refreshes]; [rewrite len_nil; simpl; split; [lia|done]|].
    pose proof (tick_history k t last ms) as Ht. cbv zeta in Ht.
    assert (history k ms = None) as Hn by (unfold history; by rewrite Em). rewrite Hn in Ht.
    destruct (bool_decide _); [by destruct Ht as (? & ? & ? & _)|]. apply IH. unfold history in Ht. by destruct (o_meters _ !! k).
Qed.

Definition demo_meters : gmap Z Meter := {[0 := mkMeter 2 (Some 25) fps_control0; 1 := mkMeter 0 (Some 50) fps_control0]}.
Lemma asked_rate_sustainable_witness :
  let o := fps_control 0 true (Some 60) {[0 := 20; 1 := 20]} None demo_meters in
  o_sent o = Some 22 /\ 1 <= 22 <= effective_custom (Some 60).
Proof.
  intros o. assert (o_sent o = Some 22) as H by (vm_compute; reflexivity). split; [exact H|].
  refine (proj1 (asked_rate_sustainable 0 true (Some 60) {[0 := 20; 1 := 20]} None demo_meters 22 H _)).
  intros k m d Hk Hd. unfold demo_meters in Hk. apply lookup_insert_Some in Hk as [[_ <-]|[_ Hk]]; [injection Hd as <-; lia|].
  apply lookup_singleton_Some in Hk as [_ <-]. injection Hd as <-. lia.
Defined.
