(* ===== verification/LocalIpc.v ===== *)
(** * Settings between the processes of one machine ([src/ipc.rs])

    The window of the user and the service that accepts connections are two
    processes, each with its own copy of the configuration store of
    [Options].  The window reads and writes options, the proxy and the pin
    through messages to the service; on what was changed the service decides
    what it has to restart.  The result of each exchange is an argument
    ([Link]); the messages that concern other components (passwords, the
    identity, codecs, plugins) are not modelled here. *)
From S2P Require Import Prelude.
From S2P Require Import Encoding.
From S2P Require Import PasswordSecurity.
From S2P Require Import PermanentPassword.
From S2P Require Import Authentication.
From S2P Require Import Options.

Definition OPTION_ALLOW_WEBSOCKET : bytes := str "allow-websocket".
Definition OPTION_DISABLE_UDP : bytes := str "disable-udp".
Definition OPTION_ALLOW_INSECURE_TLS_FALLBACK : bytes := str "allow-insecure-tls-fallback".

(** ** The service *)

(** What a change of the settings sets off. *)
Inductive Effect :=
| RestartMediator
| ResetTlsCache
| RestartAudio
| SetVoiceInput (device : bytes)
| TestNatType
| SwitchPrivacyMode (impl : bytes).
#[export] Instance Effect_eq_dec : EqDecision Effect.
Proof. solve_decision. Defined.

Inductive Data :=
| DOptions (v : option (gmap bytes bytes))
| DSocks (s : option Socks5Server)
| DSocksWs (s : option (option Socks5Server * bytes))
| DUnlockPin (v : option bytes)
| DNatType (t : option Z).

Record CheckIfRestart := mkCheck {
  stop_service : bytes;
  rendezvous_servers : list bytes;
  audio_input : bytes;
  voice_call_input : bytes;
  ws : bytes;
  disable_udp : bytes;
  allow_insecure_tls_fallback : bytes;
  api_server : bytes
}.
Definition check_new (c : Store) : CheckIfRestart :=
  mkCheck (option_of c (str "stop-service")) (get_rendezvous_servers c) (option_of c (str "audio-input"))
    (option_of c (str "voice-call-input")) (option_of c OPTION_ALLOW_WEBSOCKET) (option_of c OPTION_DISABLE_UDP)
    (option_of c OPTION_ALLOW_INSECURE_TLS_FALLBACK) (option_of c (str "api-server")).
Definition differ {A} `{EqDecision A} (x y : A) : bool := negb (bool_decide (x = y)).
(** The destructor, run on the store the handler left. *)
Definition check_drop (w : CheckIfRestart) (c : Store) : list Effect :=
  let tls := differ (allow_insecure_tls_fallback w) (option_of c OPTION_ALLOW_INSECURE_TLS_FALLBACK) in
  (if tls || differ (stop_service w) (option_of c (str "stop-service"))
      || differ (rendezvous_servers w) (get_rendezvous_servers c)
      || differ (ws w) (option_of c OPTION_ALLOW_WEBSOCKET)
      || differ (disable_udp w) (option_of c OPTION_DISABLE_UDP)
      || differ (api_server w) (option_of c (str "api-server"))
   then (if tls then [ResetTlsCache] else []) ++ [RestartMediator] else [])
  ++ (if differ (audio_input w) (option_of c (str "audio-input")) then [RestartAudio] else [])
  ++ (if differ (voice_call_input w) (option_of c (str "voice-call-input"))
      then [SetVoiceInput (option_of c (str "voice-call-input"))] else []).

(** [CheckTestNatType], the same pattern. *)
Definition is_direct (c : Store) : bool := negb (is_some (get_socks c)) && negb (use_ws c).
Definition nat_drop (was_direct : bool) (c : Store) : list Effect :=
  if differ was_direct (is_direct c) then [TestNatType] else [].

Definition store_options (v : gmap bytes bytes) (c : Store) : Store := with_settings (set_options v (settings c)) c.
Definition none_if_empty (s : Socks5Server) : option Socks5Server := if is_empty (proxy s) then None else Some s.

(** The store after a message, the answer and the effects in their order; the
    two guards are dropped in the reverse of the order they were made in. *)
Definition handle_options (value : option (gmap bytes bytes)) (c : Store) : Store * option Data * list Effect :=
  match value with
  | None => (c, Some (DOptions (Some (get_options (settings c)))), [])
  | Some v =>
      let c' := store_options v c in
      (c', Some (DOptions None),
       match v !! str "privacy-mode-impl-key" with Some i => [SwitchPrivacyMode i] | None => [] end
       ++ nat_drop (is_direct c) c' ++ check_drop (check_new c) c')
  end.
Definition handle_socks (s : option Socks5Server) (c : Store) : Store * option Data * list Effect :=
  match s with
  | None => (c, Some (DSocks (get_socks c)), [])
  | Some data =>
      let c' := Options.set_socks (none_if_empty data) c in
      (c', None, RestartMediator :: nat_drop (is_direct c) c')
  end.
Definition handle_socks_ws (s : option (option Socks5Server * bytes)) (c : Store) : Store * option Data * list Effect :=
  match s with
  | None => (c, Some (DSocksWs (Some (get_socks c, option_of c OPTION_ALLOW_WEBSOCKET))), [])
  | Some _ => (c, None, [])
  end.
Definition handle (d : Data) (c : Store) : Store * option Data * list Effect :=
  match d with
  | DOptions v => handle_options v c
  | DSocks s => handle_socks s c
  | DSocksWs s => handle_socks_ws s c
  | DUnlockPin None => (c, Some (DUnlockPin (Some (Options.get_unlock_pin c))), [])
  | DUnlockPin (Some v) => (Options.set_unlock_pin v c, None, [])
  | DNatType _ => (c, Some (DNatType (Some (nat_type c))), [])
  end.

(** ** The window *)

(** How far an exchange with the service gets. *)
Inductive Link := NoConnection | SendFails | NoAnswer | Answers.
Record Pair := mkPair { service : Store; window : Store }.

(** One exchange: what the service does and the answer, if it arrives; [None]
    for an error. *)
Definition exchange (l : Link) (d : Data) (p : Pair) : Pair * option (option Data) * list Effect :=
  match l with
  | NoConnection | SendFails => (p, None, [])
  | NoAnswer => let '(s, _, eff) := handle d (service p) in (mkPair s (window p), Some None, eff)
  | Answers => let '(s, a, eff) := handle d (service p) in (mkPair s (window p), Some a, eff)
  end.

Definition get_options_async (l : Link) (p : Pair) : gmap bytes bytes * Pair :=
  match exchange l (DOptions None) p with
  | (p, Some (Some (DOptions (Some v))), _) => (v, mkPair (service p) (store_options v (window p)))
  | (p, _, _) => (get_options (settings (window p)), p)
  end.
Definition get_option_async (l : Link) (key : bytes) (p : Pair) : bytes * Pair :=
  let '(m, p) := get_options_async l p in (default [] (m !! key), p).

(** Without a connection the window keeps the options for itself; when the
    message cannot be sent it drops them.  The effects are the service's and
    the window's. *)
Definition set_options_ipc (l : Link) (v : gmap bytes bytes) (p : Pair) : Pair * list Effect * list Effect :=
  let store p := mkPair (service p) (store_options v (window p)) in
  let nat p := nat_drop (is_direct (window p)) (store_options v (window p)) in
  match l with
  | NoConnection => (store p, [], nat p)
  | SendFails => (p, [], [])
  | NoAnswer | Answers =>
      let '(p, _, eff) := exchange l (DOptions (Some v)) p in (store p, eff, nat p)
  end.
(** [set_option]: two exchanges, the table read, changed and written back. *)
Definition set_option_ipc (l l' : Link) (key value : bytes) (p : Pair) : Pair * list Effect * list Effect :=
  let '(options, p) := get_options_async l p in
  set_options_ipc l' (put key value options) p.

Definition get_socks_async (l : Link) (p : Pair) : option Socks5Server * Pair :=
  match exchange l (DSocks None) p with
  | (p, Some (Some (DSocks v)), _) => (v, mkPair (service p) (Options.set_socks v (window p)))
  | (p, _, _) => (get_socks (window p), p)
  end.
Definition set_socks_ipc (l : Link) (s : Socks5Server) (p : Pair) : Pair * list Effect * list Effect :=
  let w := Options.set_socks (none_if_empty s) (window p) in
  let '(p', _, eff) := exchange l (DSocks (Some s)) p in
  (mkPair (service p') w, eff, nat_drop (is_direct (window p)) w).
Definition get_socks_ws (l : Link) (p : Pair) : option Socks5Server * bytes * Pair :=
  match exchange l (DSocksWs None) p with
  | (p, Some (Some (DSocksWs (Some v))), _) =>
      let w := Options.set_socks v.1 (window p) in
      (v.1, v.2, mkPair (service p) (with_settings (set_option OPTION_ALLOW_WEBSOCKET v.2 (settings w)) w))
  | (p, _, _) => (get_socks (window p), option_of (window p) OPTION_ALLOW_WEBSOCKET, p)
  end.

Definition MIN_PIN_LEN : Z := 4.
Inductive PinError := PinTooShort | PinTooLong | PinNotSent.
Definition set_unlock_pin_ipc (max_len : Z) (l : Link) (v : bytes) (p : Pair) : Pair * result unit PinError :=
  let v := trim v in
  let n := Utf8.chars_count v in
  if negb (is_empty v) && (n <? MIN_PIN_LEN) then (p, Err PinTooShort)
  else if negb (is_empty v) && (max_len <? n) then (p, Err PinTooLong)
  else
    let p := mkPair (service p) (Options.set_unlock_pin v (window p)) in
    match exchange l (DUnlockPin (Some v)) p with
    | (p, Some _, _) => (p, Ok tt)
    | (p, None, _) => (p, Err PinNotSent)
    end.
Definition get_unlock_pin_ipc (l : Link) (p : Pair) : bytes * Pair :=
  match exchange l (DUnlockPin None) p with
  | (p, Some (Some (DUnlockPin (Some v))), _) => (v, mkPair (service p) (Options.set_unlock_pin v (window p)))
  | (p, _, _) => (Options.get_unlock_pin (window p), p)
  end.

(** ** What the service reads afterwards *)

Lemma get_set_table s k v k' :
  get_option (set_options (put k v (get_options s)) s) k' = if decide (k' = k) then effective s k v else get_option s k'.
Proof.
  unfold get_option at 1. unfold get_or, set_options, effective. simpl. rewrite purify_spec, get_put, get_options_spec.
  destruct (decide (k' = k)) as [->|Hk].
  - destruct (overwrite_settings s !! k) as [o|] eqn:Eo; [done|]. destruct (decide (v = [])) as [|Hv]; [done|].
    destruct (can_save s k v) eqn:E; [done|]. destruct (decide (default_settings s !! k = Some v)) as [Hd|Hd]; [by rewrite Hd|].
    assert (can_save s k v = true) by by apply can_save_spec. congruence.
  - unfold get_option, get_or. destruct (overwrite_settings s !! k') as [o|] eqn:Eo; [done|].
    destruct (options s !! k') as [x|]; [|destruct (default_settings s !! k') as [x|] eqn:Ed; [|done]].
    + destruct (can_save s k' x) eqn:E; [done|].
      destruct (decide (default_settings s !! k' = Some x)) as [->|Hd]; [done|].
      assert (can_save s k' x = true) by by apply can_save_spec. congruence.
    + by destruct (can_save s k' x).
Qed.

(** Both processes run the same custom client. *)
Definition same_client (a b : Store) : Prop :=
  overwrite_settings (settings a) = overwrite_settings (settings b) /\
  default_settings (settings a) = default_settings (settings b).

Lemma set_options_client v a b : same_client a b -> set_options v (settings a) = set_options v (settings b).
Proof.
  intros [Ho Hd]. unfold set_options, with_options, purify_options. rewrite Ho, Hd. f_equal.
  apply map_filter_ext. intros k x _. unfold can_save. by rewrite Ho, Hd.
Qed.

(** The mediator is restarted exactly when something it runs on was changed. *)
Lemma restart_iff c c' : RestartMediator ∈ check_drop (check_new c) c' <->
  get_rendezvous_servers c <> get_rendezvous_servers c' \/
  exists k, k ∈ [str "stop-service"; OPTION_ALLOW_WEBSOCKET; OPTION_DISABLE_UDP; OPTION_ALLOW_INSECURE_TLS_FALLBACK; str "api-server"] /\
    option_of c k <> option_of c' k.
Proof.
  unfold check_drop. rewrite !elem_of_app.
  set (b := differ _ _ || _ || _ || _ || _ || _).
  assert (b = true <-> get_rendezvous_servers c <> get_rendezvous_servers c' \/
    exists k, k ∈ [str "stop-service"; OPTION_ALLOW_WEBSOCKET; OPTION_DISABLE_UDP; OPTION_ALLOW_INSECURE_TLS_FALLBACK; str "api-server"] /\
    option_of c k <> option_of c' k) as Hb.
  { unfold b, differ, check_new. simpl. rewrite !orb_true_iff, !negb_true_iff, !bool_decide_eq_false. split.
    - intros H. repeat destruct H as [H|H]; (by left) || (right; eexists; split; [|exact H]; set_solver).
    - intros [H|(k & Hk & H)]; [tauto|]. repeat (apply elem_of_cons in Hk as [->|Hk]; [tauto|]). inversion Hk. }
  rewrite <- Hb. clear Hb. clearbody b.
  repeat match goal with |- context [if ?x then _ else _] => destruct x end; simpl;
    rewrite ?elem_of_cons, ?elem_of_nil; intuition congruence.
Qed.

(** What each kind of restart depends on. *)
Definition watches (k : bytes) (c c' : Store) : Prop := option_of c k <> option_of c' k.
(** The effects due when the options [t] turned the store [c] into [c']. *)
Definition due (t : gmap bytes bytes) (c c' : Store) (x : Effect) : Prop :=
  match x with
  | RestartMediator =>
      get_rendezvous_servers c <> get_rendezvous_servers c' \/
      exists k, k ∈ [str "stop-service"; OPTION_ALLOW_WEBSOCKET; OPTION_DISABLE_UDP;
                     OPTION_ALLOW_INSECURE_TLS_FALLBACK; str "api-server"] /\ watches k c c'
  | ResetTlsCache => watches OPTION_ALLOW_INSECURE_TLS_FALLBACK c c'
  | RestartAudio => watches (str "audio-input") c c'
  | SetVoiceInput d => watches (str "voice-call-input") c c' /\ d = option_of c' (str "voice-call-input")
  | TestNatType => is_direct c <> is_direct c'
  | SwitchPrivacyMode i => t !! str "privacy-mode-impl-key" = Some i
  end.

Lemma differ_true {A} `{EqDecision A} (x y : A) : differ x y = true <-> x <> y.
Proof. unfold differ. by rewrite negb_true_iff, bool_decide_eq_false. Qed.
Lemma elem_if {A} (b : bool) (y x : A) : x ∈ (if b then [y] else []) <-> b = true /\ x = y.
Proof. destruct b; rewrite ?elem_of_cons, ?elem_of_nil; naive_solver. Qed.

Lemma check_drop_elem c c' x : x ∈ check_drop (check_new c) c' <->
  match x with TestNatType | SwitchPrivacyMode _ => False | x => due ∅ c c' x end.
Proof.
  destruct x as [| | |d| |i].
  { apply restart_iff. }
  all: unfold check_drop; rewrite !elem_of_app, !elem_if;
    match goal with |- context [if ?b then _ else []] => destruct b eqn:Eb end;
    rewrite ?elem_of_app, ?elem_if, ?elem_of_cons, ?elem_of_nil; unfold check_new in *; simpl in *; unfold watches;
    rewrite <- ?differ_true.
  all: try naive_solver.
  all: split; [naive_solver|intros H; rewrite H in Eb; discriminate].
Qed.

Lemma handle_options_due v c x : x ∈ (handle_options (Some v) c).2 <-> due v c (store_options v c) x.
Proof.
  simpl. rewrite !elem_of_app, check_drop_elem. unfold nat_drop. rewrite elem_if, differ_true.
  destruct (v !! str "privacy-mode-impl-key") as [i|] eqn:E; rewrite ?elem_of_cons, ?elem_of_nil;
    destruct x; simpl; rewrite ?E; naive_solver.
Qed.

(** The table a setting is made in: the service's, or the window's own when the
    service does not answer. *)
Definition table_of (l : Link) (p : Pair) : Store := match l with Answers => service p | _ => window p end.
Definition delivered (l : Link) : Prop := l = NoAnswer \/ l = Answers.

(** What both processes read after a setting was made, however far the two
    exchanges got. *)
Lemma set_option_reads l l' k v p p' eff weff : same_client (service p) (window p) ->
  set_option_ipc l l' k v p = (p', eff, weff) ->
  (delivered l' -> forall k', option_of (service p') k' =
     if decide (k' = k) then effective (settings (service p)) k v else option_of (table_of l p) k') /\
  (delivered l' -> forall k', option_of (window p') k' = option_of (service p') k') /\
  (delivered l' -> forall x, x ∈ eff <->
     due (put k v (get_options (settings (table_of l p)))) (service p) (service p') x) /\
  (~ delivered l' -> service p' = service p /\ eff = []).
Proof.
  intros Hc.
  set (t := put k v (get_options (settings (table_of l p)))).
  assert (forall k', get_option (set_options t (settings (service p))) k' =
    if decide (k' = k) then effective (settings (service p)) k v else option_of (table_of l p) k') as Hr.
  { intros k'. assert (same_client (service p) (table_of l p)) as Ht by (by destruct l; [..|split]).
    rewrite (set_options_client _ _ _ Ht). unfold t. rewrite get_set_table. destruct (decide (k' = k)); [|done].
    unfold effective. destruct Ht as [-> ->]. done. }
  assert (set_options t (settings (window p)) = set_options t (settings (service p))) as Hw by (symmetry; by apply set_options_client).
  assert (get_options_async l p = (get_options (settings (table_of l p)),
    match l with Answers => mkPair (service p) (store_options (get_options (settings (service p))) (window p)) | _ => p end)) as G
    by (by destruct l, p).
  unfold set_option_ipc. rewrite G. fold t. clear G.
  set (q := match l with Answers => _ | _ => p end).
  assert (service q = service p /\ same_client (service p) (window q)) as [Q1 Q2] by (by destruct l).
  assert (set_options t (settings (window q)) = set_options t (settings (service p))) as Hw' by (symmetry; by apply set_options_client).
  clearbody q t. unfold set_options_ipc, exchange. unfold delivered.
  destruct l'; cbn [handle handle_options]; intros [= <- <- <-]; cbn [service window].
  1,2: split_and!; [by intros [|]..|]; intros _; by rewrite Q1.
  1,2: rewrite Q1; split; [intros _ k'; apply Hr|]; split; [intros _ k'; unfold option_of, store_options; simpl; by rewrite Hw'|];
    split; [intros _ x; apply (handle_options_due t (service p))|intros H; destruct H; auto].
Qed.


(** When the service is not running the window keeps the setting for itself and
    when the message is lost on the way neither side changes. *)
Lemma settings_without_service k v p :
  let '(p1, eff1, _) := set_option_ipc NoConnection NoConnection k v p in
  let '(p2, eff2, weff2) := set_option_ipc NoConnection SendFails k v p in
  service p1 = service p /\ eff1 = [] /\
  (forall k', option_of (window p1) k' = if decide (k' = k) then effective (settings (window p)) k v else option_of (window p) k') /\
  p2 = p /\ eff2 = [] /\ weff2 = [].
Proof.
  unfold set_option_ipc, get_options_async, set_options_ipc, exchange. simpl.
  repeat split. intros k'. apply get_set_table.
Qed.

(** ** Witness *)
Definition store0 : Store :=
  mkStore (mkSettings ∅ ∅ {[ str "api-server" := str "https://api" ]}) [] 0 0 [] None ∅ ∅ [] [] (str "a.example.com") ∅.
