(* ===== verification/SecondFactor.v ===== *)
(** * The second factor ([src/auth_2fa.rs], [src/ui_interface.rs])

    The user's window draws a secret, shows it as a QR code, and once a code
    generated from it was typed in, stores it sealed in the option ["2fa"] of
    the service ([LocalIpc]).  The service reads it for each new connection
    ([get_2fa]), whose login then waits for a code ([LoginFlow]).  The library
    totp-rs and serde_json are classes; a [TOTP] value is kept abstract, as in
    [LoginFlow].  The second part is the Telegram bot that sends the code. *)
From S2P Require Import Prelude.
From S2P Require Import Crypto.
From S2P Require Import Encoding.
From S2P Require Import PasswordSecurity.
From S2P Require Import PermanentPassword.
From S2P Require Import Authentication.
From S2P Require Import LoginThrottle.
From S2P Require Import SessionScope.
From S2P Require Import LoginFlow.
From S2P Require Import Options.
From S2P Require Import LocalIpc.

Definition TOTP : Type := bytes.
Definition ISSUER : bytes := str "RustDesk".
Definition TAG_LOGIN : bytes := str "Connection".

(** [TOTP::new] for SHA-1 with its digits, skew, step, secret, issuer and
    account, and what is asked of the value; times in milliseconds. *)
Class TotpRs := {
  totp_new : Z -> Z -> Z -> bytes -> option bytes -> bytes -> option TOTP;
  check_current : TOTP -> bytes -> Z -> option bool;
  generate_current : TOTP -> Z -> option bytes;
  get_url : TOTP -> bytes
}.

(** serde_json for one type: what is written is not empty and reads back. *)
Class Json (A : Type) := { to_json : A -> option bytes; from_json : bytes -> option A }.
Class JsonLaws (A : Type) {J : Json A} := {
  json_roundtrip (a : A) s : to_json a = Some s -> from_json s = Some a;
  json_nonempty (a : A) s : to_json a = Some s -> s <> []
}.

Record TOTPInfo := mkInfo { name : bytes; secret : bytes; digits : Z; created_at : Z }.
Definition with_secret (i : TOTPInfo) (s : bytes) : TOTPInfo := mkInfo (name i) s (digits i) (created_at i).
(** What serde writes of a [TelegramBot]: [token_str] is skipped. *)
Record BotFields := mkBotFields { token : bytes; bot_chat : bytes }.
Record TelegramBot := mkBot { token_str : bytes; sealed_token : bytes; chat_id : bytes }.

Definition KEY_2FA : bytes := str "2fa".
Definition KEY_BOT : bytes := str "bot".
Definition MAX_SECRET : Z := 1024.

Section SecondFactor.
Context {SB : Secretbox} {B64 : Base64} {T : TotpRs} {JI : Json TOTPInfo} {JB : Json BotFields}.

Definition new_totp (i : TOTPInfo) : option TOTP :=
  totp_new (digits i) 1 30 (secret i) (Some (ISSUER ++ str " " ++ TAG_LOGIN)) (name i).

(** [drawn] is the secret of [Secret::generate_secret]. *)
Definition gen_totp_info (drawn : bytes) (now : Z) (name : bytes) (digits : Z) : TOTPInfo :=
  mkInfo name drawn digits now.

Definition into_string (m : Machine) (nonce : bytes) (i : TOTPInfo) : option bytes :=
  to_json (with_secret i (encrypt_vec_or_original m nonce (secret i) (str "00") MAX_SECRET)).

Definition from_str (m : Machine) (data : bytes) : option TOTP :=
  i ← from_json (A := TOTPInfo) data;
  let '(s, success, _) := decrypt_vec_or_original m (secret i) (str "00") in
  if success then new_totp (with_secret i s) else None.

(** The window: the set-up under way ([CURRENT_2FA]) and the two stores. *)
Record Setup := mkSetup { current_2fa : option (TOTPInfo * TOTP); stores : Pair }.

Definition generate2fa (drawn : bytes) (now : Z) (id : bytes) (w : Setup) : bytes * Setup :=
  let info := gen_totp_info drawn now id 6 in
  match new_totp info with
  | Some totp => (get_url totp, mkSetup (Some (info, totp)) (stores w))
  | None => ([], w)
  end.

Definition verify2fa (m : Machine) (nonce : bytes) (l l' : Link) (now_ms : Z) (code : bytes) (w : Setup) : bool * Setup :=
  match current_2fa w with
  | Some (info, totp) =>
      match check_current totp code now_ms with
      | Some true =>
          match into_string m nonce info with
          | Some v => (true, mkSetup (current_2fa w) (set_option_ipc l l' KEY_2FA v (stores w)).1.1)
          | None => (false, w)
          end
      | _ => (false, w)
      end
  | None => (false, w)
  end.

Definition get_2fa (m : Machine) (raw : option bytes) (c : Store) : option TOTP :=
  from_str m (default (option_of c KEY_2FA) raw).
Definition has_valid_2fa (m : Machine) (c : Store) : bool := is_some (get_2fa m (Some (option_of c KEY_2FA)) c).

(** ** The Telegram bot *)
Definition bot_into_string (m : Machine) (nonce : bytes) (b : TelegramBot) : option bytes :=
  to_json (mkBotFields (encrypt_vec_or_original m nonce (token_str b) (str "00") MAX_SECRET) (chat_id b)).
Definition bot_save (m : Machine) (nonce : bytes) (l l' : Link) (b : TelegramBot) (p : Pair) : option Pair :=
  s ← bot_into_string m nonce b; Some (set_option_ipc l l' KEY_BOT s p).1.1.

Inductive BotError := BadJson | TokenUnreadable | TokenNotText.
Definition bot_get (m : Machine) (c : Store) : result (option TelegramBot) BotError :=
  let data := option_of c KEY_BOT in
  if is_empty data then Ok None
  else
    match from_json (A := BotFields) data with
    | None => Err BadJson
    | Some b =>
        let '(t, success, _) := decrypt_vec_or_original m (token b) (str "00") in
        if success then
          if Utf8.valid t then Ok (Some (mkBot t (token b) (bot_chat b))) else Err TokenNotText
        else Err TokenUnreadable
    end.

(** What is read out of Telegram's answer to [getUpdates]. *)
Record Updates := mkUpdates { error_code : option Z; description : option bytes; first_chat : option (Z + bytes) }.
Inductive ChatError := NoAnswerFromTelegram | TelegramError (description : bytes) (code : Z) | NotSaved.
Definition chat_text (c : Z + bytes) : bytes := match c with inl n => str (pretty n) | inr s => s end.

Definition get_chatid_telegram (m : Machine) (nonce : bytes) (l l' : Link) (bot_token : bytes) (resp : option Updates) (p : Pair)
  : result (option bytes) ChatError * Pair :=
  match resp with
  | None => (Err NoAnswerFromTelegram, p)
  | Some u =>
      match error_code u with
      | Some code => (Err (TelegramError (default (str "Unknown error occurred") (description u)) code), p)
      | None =>
          match chat_text <$> first_chat u with
          | None => (Ok None, p)
          | Some id =>
              match bot_save m nonce l l' (mkBot bot_token [] id) p with
              | Some p => (Ok (Some id), p)
              | None => (Err NotSaved, p)
              end
          end
      end
  end.

(** The message a waiting login sends ([send_logon_response_and_keep_alive]). *)
Definition code_notice (m : Machine) (c : Store) (totp : TOTP) (now_ms : Z) (id ip : bytes) : option (bytes * bytes) :=
  match bot_get m c with
  | Ok (Some bot) =>
      code ← generate_current totp now_ms;
      Some (str "https://api.telegram.org/bot" ++ token_str bot ++ str "/sendMessage",
        str "2FA code: " ++ code ++ [Byte.x0a; Byte.x0a]
        ++ str "A new connection has been established to your device with ID " ++ id
        ++ str ". The source IP address is " ++ ip ++ str ".")
  | _ => None
  end.

(** ** Storing and reading back *)
Context {SBL : SecretboxLaws} {B64L : Base64Laws} {JIL : JsonLaws TOTPInfo} {JBL : JsonLaws BotFields}.

(** Only texts of two more than a multiple of four bytes look encrypted; the
    twenty bytes of a drawn secret are never taken for one. *)
Lemma is_encrypted_len v : is_encrypted v = true -> len v mod 4 = 2.
Proof.
  unfold is_encrypted. destruct (_ || _) eqn:E; [done|]. apply orb_false_iff in E as [E _]. apply Z.leb_gt in E.
  destruct (b64_decode _) as [d|] eqn:D; [|done]. intros _. apply b64_decode_len in D.
  rewrite len_dropZ in D by (unfold VERSION_LEN in *; lia). unfold VERSION_LEN in *.
  pose proof (Z.div_mod (len v - 2) 4 ltac:(done)) as Q. rewrite D in Q.
  replace (len v) with (2 + ((len v - 2) / 4) * 4) by lia. by rewrite Z.mod_add.
Qed.

Lemma drawn_not_encrypted v : len v = 20 -> is_encrypted v = false.
Proof. intros Hl. destruct (is_encrypted v) eqn:E; [|done]. apply is_encrypted_len in E. rewrite Hl in E. done. Qed.

Lemma from_into m nonce i s pk mb : len nonce = NONCEBYTES -> secret i <> [] -> is_encrypted (secret i) = false ->
  len (secret i) <= MAX_SECRET -> into_string m nonce i = Some s -> from_str (mkMachine (uuid m) pk mb) s = new_totp i.
Proof.
  intros Hn Hne He Hl Hs. unfold into_string in Hs. unfold from_str. rewrite (json_roundtrip _ _ Hs). simpl.
  destruct (proj1 (secret_roundtrip m nonce nonce (secret i) MAX_SECRET pk mb Hn Hne He Hl)) as (_ & -> & _).
  by destruct i.
Qed.

(** ** Logins wait for the code *)
Context {SHA : Sha256} (m : Machine) (parse_v6 : string -> option bytes) (show_v6 : bytes -> string)
  (is_direct_ip_access : bytes -> bool) (devices_json : list TrustedDevice -> bytes).
Local Abbreviation event := (on_event m parse_v6 show_v6 is_direct_ip_access check_current devices_json).
Local Abbreviation login_run := (run m parse_v6 show_v6 is_direct_ip_access check_current devices_json).

(** What settles the second factor of a connection that waits for [t]. *)
Definition settles (t : TOTP) (e : Env) (ev : Event) (c : Conn) (s : Shared) : Prop :=
  match ev with
  | EvAuth2fa code _ => check_current t code (now_ms e) = Some true
  | EvLogin l => trusted_device e l s \/ recent_second_factor e (key_of (requested c l)) s
  | EvSwitchSides l u =>
      trusted_device e l s \/
      exists t0 u0, u = Some u0 /\ switch_sides_uuid s !! my_id l = Some (t0, u0) /\ now e - t0 < SWITCH_SIDES_TIMEOUT
  | EvClick => True
  | EvOther _ => False
  end.

Definition factor_kept (c c' : Conn) : Prop := require_2fa c' = require_2fa c /\ from_switch c' = from_switch c.
Definition waiting (t : TOTP) (c : Conn) : Prop :=
  authorized c = false /\ require_2fa c = Some t /\ from_switch c = false.

Lemma waiting_kept t c c' : authorized c' = false -> factor_kept c c' -> waiting t c -> waiting t c'.
Proof. intros Ha [H1 H2] (_ & W1 & W2). split; [done|]. by rewrite H1, H2. Qed.

Lemma send_logon_factor e c s : factor_kept c (send_logon_response_and_keep_alive e c s).1.1.2.
Proof.
  unfold send_logon_response_and_keep_alive. destruct (authorized c); [done|].
  assert (exists due c1 s1, second_factor_due e c s = (due, c1, s1) /\ factor_kept c c1) as (due & c1 & s1 & -> & [K1 K2]).
  { unfold second_factor_due. destruct (require_2fa c) eqn:R; [|do 3 eexists; by split].
    destruct (is_recent_session _ _ _ _) as [[] a]; do 3 eexists; (split; [done|]); split; simpl; congruence. }
  destruct due; [done|]. unfold prepare_terminal_login_for_authorization, connect_port_forward_if_needed, factor_kept.
  repeat case_match; simplify_eq; simpl; split; congruence.
Qed.

Lemma grant_factor e c s : factor_kept c (grant e c s).1.1.2.
Proof.
  unfold grant. pose proof (send_logon_factor e c s) as K.
  destruct (send_logon_response_and_keep_alive e c s) as [[[keep c1] s1] eff]. by destruct keep.
Qed.

Lemma check_password_factor e c s : factor_kept c (check_password m parse_v6 show_v6 e c s).1.1.2.
Proof.
  unfold check_password. destruct (click_only m e s); [done|].
  destruct (is_recent_session _ _ _ _) as [[] a].
  - destruct (is_empty (err_msg e)); [|done]. exact (grant_factor e (set_primary c TemporaryPassword (from_switch c)) _).
  - destruct (is_empty (lr_pw (lr c))); [by destruct (is_empty (err_msg e))|].
    destruct (check_failure _ _ _ _ _ _) as [[[[f t0] r] ef] t1]. destruct r; [|done].
    destruct (validate_password _ _ _ _ _) as [[ok pr] a2]. destruct ok; [|done].
    simpl negb. cbv iota. destruct (is_empty (err_msg e)); [|done].
    match goal with |- context [grant e ?c1 ?s1] => pose proof (grant_factor e c1 s1) as K; destruct (grant e c1 s1) as [[[k2 c2] s2] e2] end.
    exact K.
Qed.

Lemma login_factor e l c s : authorized c = false ->
  trusted_device e l s \/ factor_kept c (on_login_request m parse_v6 show_v6 is_direct_ip_access e l c s).1.1.2.
Proof.
  intros Ha. unfold on_login_request.
  pose proof (handle_login_keeps e l c s) as (_ & _ & _ & _ & _ & Hau & Hsw & _ & _ & _ & _ & _ & H2).
  set (c1 := handle_login_request_without_validation e l c s) in *. rewrite Hau, Ha.
  destruct H2 as [Hr|[_ H2]]; [right|by left].
  destruct (request_scope e (reset_session_scope_for_login c1) s) as [[c2|] ef] eqn:Rs; [|done].
  destruct (request_scope_spec _ _ _ _ _ Rs) as (_ & _ & _ & _ & _ & _ & _ & R2 & W2 & _).
  assert (factor_kept c c2) as [K1 K2] by (split; congruence).
  destruct (_ && _); [done|]. destruct (headless_desktop _ _ _ _ _) as [[[[s4 ef4]|] s3] ef3]; [|done].
  pose proof (check_password_factor e c2 s4) as [L1 L2].
  destruct (check_password _ _ _ e c2 s4) as [[[k5 c5] s5] ef5]. simpl in *. split; simpl; congruence.
Qed.

Lemma waiting_step t e ev c s k c' s' eff : waiting t c -> event e ev c s = (k, c', s', eff) ->
  settles t e ev c s \/ waiting t c'.
Proof.
  intros W E. pose proof W as (Ha & Hr & Hw). rewrite on_event_unauthorized in E by done.
  destruct ev as [l|code hw|l u| |msg]; simpl; [..|by left|].
  - destruct (decide (authorized c' = true)) as [A|A].
    + apply on_login_request_spec in E as (_ & _ & H & _); [|done]. destruct (H A) as (_ & _ & _ & _ & [H2|[H2|[H2|H2]]]); (congruence || tauto).
    + apply not_true_is_false in A. destruct (login_factor e l c s Ha) as [|K]; [tauto|]. right.
      rewrite E in K. by apply (waiting_kept t c).
  - destruct (decide (authorized c' = true)) as [A|A].
    + apply on_auth_2fa_spec in E as (_ & _ & H & _); [|done]. destruct (H A) as (_ & t' & R & Ck). left. congruence.
    + unfold on_auth_2fa in E. destruct (check_failure _ _ _ _ _ _) as [[[[f t0] r] ef] t1].
      destruct r; [|injection E as <- <- <- <-; by right]. simpl negb in E. cbv iota in E. rewrite Hr in E.
      destruct (check_current t code (now_ms e)) as [[]|]; [by left|injection E as <- <- <- <-; by right..].
  - destruct (decide (authorized c' = true)) as [A|A].
    + left. right. by apply (on_switch_sides_spec _ _ _ _ _ _ _ _ _ Ha E A).
    + apply not_true_is_false in A. unfold on_switch_sides in E.
      pose proof (handle_login_keeps e l c s) as (_ & _ & _ & _ & _ & Hau & Hsw & _ & _ & _ & _ & _ & H2).
      set (c1 := handle_login_request_without_validation e l c s) in *.
      destruct H2 as [H2|[_ H2]]; [|tauto]. assert (waiting t c1) as W1 by (split; [|split]; congruence).
      destruct u as [u|]; [|injection E as <- <- <- <-; by right].
      destruct (filter _ (switch_sides_uuid s) !! my_id l) as [[t0 u0]|] eqn:F; [|injection E as <- <- <- <-; by right].
      apply map_lookup_filter_Some in F as [F1 F2].
      destruct (bool_decide_reflect (u = u0)) as [->|]; [|injection E as <- <- <- <-; by right]. left. right. eauto 8.
  - right. assert (c' = c) as -> by (repeat case_match; congruence). done.
Qed.

(** The first event that settles the factor, and what came before it. *)
Lemma waiting_run t evs : forall c s c' s', waiting t c -> login_run evs c s = Some (c', s') -> authorized c' = true ->
  exists before e ev after c1 s1, evs = before ++ (e, ev) :: after /\ login_run before c s = Some (c1, s1) /\ settles t e ev c1 s1.
Proof.
  induction evs as [|[e ev] evs IH]; intros c s c' s' W; simpl; [intros [= <- <-]; destruct W as (Ha & _); congruence|].
  destruct (event e ev c s) as [[[k c1] s1] ef] eqn:E. destruct k; [|done]. intros R A.
  destruct (waiting_step _ _ _ _ _ _ _ _ _ W E) as [S|W1].
  - exists [], e, ev, evs, c, s. done.
  - destruct (IH _ _ _ _ W1 R A) as (b & e' & ev' & a & c2 & s2 & -> & Rb & S).
    exists ((e, ev) :: b), e', ev', a, c2, s2. split; [done|]. split; [|done]. simpl. by rewrite E.
Qed.


(** A code that is not accepted, or a secret that cannot be written, changes nothing. *)
Lemma verify_refused mw nonce l l' now1 code w w' : verify2fa mw nonce l l' now1 code w = (false, w') -> w' = w.
Proof. unfold verify2fa. intros H. repeat case_match; congruence. Qed.

(** Success is reported even when the service never got the secret. *)
Lemma verify_not_stored mw nonce now1 code w w' : verify2fa mw nonce Answers SendFails now1 code w = (true, w') ->
  service (stores w') = service (stores w).
Proof. unfold verify2fa. intros H. repeat case_match; simplify_eq; done. Qed.

(** A secret that cannot be opened any more is treated as if there was none. *)
Lemma unreadable_not_required raw c i : from_json (A := TOTPInfo) raw = Some i ->
  (decrypt_vec_or_original m (secret i) (str "00")).1.2 = false -> get_2fa m (Some raw) c = None.
Proof. intros J D. unfold get_2fa, from_str. simpl. rewrite J. simpl. by destruct (decrypt_vec_or_original _ _ _) as [[s []] u]. Qed.

(** The bot is read back as it was saved. *)
Lemma bot_roundtrip mw nonce b p p' : len nonce = NONCEBYTES -> uuid mw = uuid m ->
  token_str b <> [] -> Utf8.valid (token_str b) = true -> is_encrypted (token_str b) = false -> len (token_str b) <= MAX_SECRET ->
  same_client (service p) (window p) -> overwrite_settings (Options.settings (service p)) !! KEY_BOT = None ->
  bot_save mw nonce Answers Answers b p = Some p' ->
  exists sealed, bot_get m (service p') = Ok (Some (mkBot (token_str b) sealed (chat_id b))) /\ is_encrypted sealed = true.
Proof.
  intros Hn Hu Ht Hv He Hl Hc Ho. unfold bot_save. destruct (bot_into_string mw nonce b) as [s|] eqn:I; [|done]. cbn [mbind option_bind].
  destruct (set_option_ipc Answers Answers KEY_BOT s p) as [[q eff] weff] eqn:S. cbn [fst]. intros [= <-].
  destruct (set_option_reads _ _ _ _ _ _ _ _ Hc S) as [R _]. specialize (R (or_intror eq_refl)).
  destruct (proj1 (secret_roundtrip mw nonce nonce (token_str b) MAX_SECRET (existing_pk m) (mobile m) Hn Ht He Hl)) as (Hi & Hd & _).
  assert (mkMachine (uuid mw) (existing_pk m) (mobile m) = m) as Hm by (rewrite Hu; by destruct m).
  rewrite Hm in Hd. eexists. split; [|exact Hi]. unfold bot_get.
  rewrite R, decide_True by done. unfold effective. rewrite Ho.
  pose proof (json_nonempty _ _ I) as Hs. rewrite decide_False by done. destruct s as [|x s]; [done|]. simpl is_empty. cbv iota.
  unfold bot_into_string in I. rewrite (json_roundtrip _ _ I). cbn [token bot_chat]. by rewrite Hd, Hv.
Qed.
End SecondFactor.

(** ** Witness *)
#[local] Existing Instances Toy.secretbox Toy.secretbox_laws Rfc4648.base64 Rfc4648.base64_laws ToySha.sha ToySha.sha_laws.

(** An authenticator whose only code is its secret, and a serialisation of
    bounded records by fixed-size fields. *)
Module Toy2fa.
Definition in_range (n : Z) : bool := (0 <=? n) && (n <? 2 ^ 64).
Definition le8 (n : Z) : bytes := le_split 8 n.

Lemma le8_head n r : in_range n = true -> le_combine (take 8 (le8 n ++ r)) = n.
Proof.
  unfold in_range, le8. rewrite andb_true_iff, Z.leb_le, Z.ltb_lt. intros H.
  rewrite take_app_length' by (symmetry; apply length_le_split). by rewrite le_combine_split, Z.mod_small.
Qed.
Lemma le8_tail n r : drop 8 (le8 n ++ r) = r.
Proof. unfold le8. by rewrite drop_app_length' by (symmetry; apply length_le_split). Qed.

Definition write (a b : Z) (x y : bytes) : option bytes :=
  if in_range a && in_range b && in_range (len x) then Some (le8 a ++ le8 b ++ le8 (len x) ++ x ++ y) else None.
Definition read (s : bytes) : Z * Z * bytes * bytes :=
  let a := le_combine (take 8 s) in let s := drop 8 s in
  let b := le_combine (take 8 s) in let s := drop 8 s in
  let n := le_combine (take 8 s) in let s := drop 8 s in
  (a, b, takeZ n s, dropZ n s).
Lemma read_write a b x y s : write a b x y = Some s -> read s = (a, b, x, y) /\ s <> [].
Proof.
  unfold write. destruct (_ && _) eqn:E; [|done]. apply andb_true_iff in E as [E E3]. apply andb_true_iff in E as [E1 E2].
  intros Hs. assert (s = le8 a ++ le8 b ++ le8 (len x) ++ x ++ y) as -> by congruence. clear Hs.
  unfold read. cbv zeta. rewrite !le8_tail, !le8_head by done.
  rewrite takeZ_app_len, dropZ_app_len by done. split; [done|]. by intros H%(f_equal length).
Qed.

#[export] Instance json_info : Json TOTPInfo := {
  to_json i := write (digits i) (created_at i) (name i) (secret i);
  from_json s := let '(d, c, n, x) := read s in Some (mkInfo n x d c) }.
#[export] Instance json_info_laws : JsonLaws TOTPInfo.
Proof. split; intros [n x d c] s [H H']%read_write; [|done]. unfold from_json, json_info. by rewrite H. Qed.
#[export] Instance json_bot : Json BotFields := {
  to_json b := write 0 0 (token b) (bot_chat b);
  from_json s := let '(_, _, t, c) := read s in Some (mkBotFields t c) }.
#[export] Instance json_bot_laws : JsonLaws BotFields.
Proof. split; intros [t c] s [H H']%read_write; [|done]. unfold from_json, json_bot. by rewrite H. Qed.
#[export] Instance totp_rs : TotpRs := {
  totp_new d skew step s issuer account := if (6 <=? d) && (d <=? 8) && (16 <=? len s) then Some s else None;
  check_current t code now := Some (bool_decide (code = t));
  generate_current t now := Some t;
  get_url t := str "otpauth://" ++ t }.
End Toy2fa.
Import Toy2fa.

Definition drawn0 : bytes := str "JBSWY3DPEHPK3PXPJBSW".
Definition nonce0 : bytes := replicate 24 Byte.x07.
Definition enrol : bytes * Setup := generate2fa drawn0 1700000000 (str "123456789") (mkSetup None (mkPair store0 store0)).
Definition enrolled : bool * Setup := verify2fa desktop nonce0 Answers Answers 1700000000000 drawn0 enrol.2.


(** After the machine's identity changed the stored secret cannot be opened, and
    connections are no longer asked for a code. *)
Example moved_secret_not_required :
  has_valid_2fa desktop (service (stores enrolled.2)) = true /\
  get_2fa (mkMachine (str "another") (Some (str "public-key")) false) None (service (stores enrolled.2)) = None.
Proof. split; vm_compute; reflexivity. Qed.
