(* ===== verification/Displays.v ===== *)
(** * The displays of a device ([src/server/display_service.rs], connection.rs)

    [SYNC_DISPLAYS] holds the displays as they were last seen and whether the
    viewers were told.  Logins, the video services and the display service all
    refresh it; the display service tells its subscribers ([Service]) whenever
    it is out of step and whenever somebody joins.  Around operations that
    change displays for a moment a guard suppresses this.  The second table
    records the resolutions that viewers changed, to be restored when the last
    one leaves.  The platform is an X11 desktop: displays are not scaled. *)
From S2P Require Import Prelude.
From S2P Require Import Service.

(** What [scrap::Display] tells of a display. *)
Record Display := mkDisplay {
  d_name : bytes;
  origin : Z * Z;
  d_width : Z;
  d_height : Z;
  is_online : bool;
  is_primary : bool
}.
Record DisplayInfo := mkInfo {
  x : Z;
  y : Z;
  width : Z;
  height : Z;
  info_name : bytes;
  online : bool;
  cursor_embedded : bool;
  original_resolution : Z * Z
}.
#[export] Instance DisplayInfo_eq_dec : EqDecision DisplayInfo.
Proof. solve_decision. Defined.

Record ChangedResolution := mkChanged { original : Z * Z; changed : Z * Z }.
Record SyncDisplaysInfo := mkSync { displays : list DisplayInfo; is_synced : bool }.

(** The process-wide state: [SYNC_DISPLAYS], [CHANGED_RESOLUTIONS] and
    [TEMP_IGNORE_DISPLAYS_CHANGED]. *)
Record Desk := mkDesk {
  sync : SyncDisplaysInfo;
  changed_resolutions : gmap bytes ChangedResolution;
  ignore : bool
}.
Definition desk0 : Desk := mkDesk (mkSync [] false) ∅ false.
Definition with_sync (s : SyncDisplaysInfo) (k : Desk) : Desk := mkDesk s (changed_resolutions k) (ignore k).
Definition with_changed (m : gmap bytes ChangedResolution) (k : Desk) : Desk := mkDesk (sync k) m (ignore k).
Definition with_ignore (b : bool) (k : Desk) : Desk := mkDesk (sync k) (changed_resolutions k) b.
Definition unsync (k : Desk) : Desk := with_sync (mkSync (displays (sync k)) false) k.

(** ** The table of displays *)
Definition check_changed (ign : bool) (new : list DisplayInfo) (s : SyncDisplaysInfo) : SyncDisplaysInfo :=
  let replaced := mkSync new (if negb ign then false else is_synced s) in
  if negb (length (displays s) =? length new)%nat then replaced
  else if existsb (fun p => negb (bool_decide (p.1 = p.2))) (zip new (displays s)) then replaced
  else s.

Definition get_update_sync_displays (s : SyncDisplaysInfo) : option (list DisplayInfo) * SyncDisplaysInfo :=
  if is_synced s then (None, s) else (Some (displays s), mkSync (displays s) true).

(** [as i32] of a size. *)
Definition get_original_resolution (m : gmap bytes ChangedResolution) (name : bytes) (w h : Z) : Z * Z :=
  match m !! name with
  | Some res => original res
  | None => (i32_of w, i32_of h)
  end.
Definition display_info (m : gmap bytes ChangedResolution) (d : Display) : DisplayInfo :=
  mkInfo (i32_of (origin d).1) (i32_of (origin d).2) (i32_of (d_width d)) (i32_of (d_height d)) (d_name d)
    (is_online d) false (get_original_resolution m (d_name d) (d_width d) (d_height d)).
Definition check_update_displays (all : list Display) (k : Desk) : Desk :=
  with_sync (check_changed (ignore k) (display_info (changed_resolutions k) <$> all) (sync k)) k.

Definition check_displays_changed (all : option (list Display)) (k : Desk) : option Desk :=
  all ← all; Some (check_update_displays all k).
Definition update_get_sync_displays_on_login (all : option (list Display)) (k : Desk) : option (list DisplayInfo * Desk) :=
  all ← all; let k := check_update_displays all k in Some (displays (sync k), k).
Definition get_sync_displays (k : Desk) : list DisplayInfo := displays (sync k).
Definition get_display_info (idx : Z) (k : Desk) : option DisplayInfo := displays (sync k) !! Z.to_nat idx.
Definition get_primary_2 (all : list Display) : Z :=
  match list_find (fun d => is_primary d = true) all with Some (i, _) => Z.of_nat i | None => 0 end.

(** What a video service compares its capturer with. *)
Definition check_display_changed (ndisplay idx : Z) (cx cy w h : Z) (k : Desk) : option DisplayInfo :=
  d ← get_display_info idx k;
  if negb (ndisplay =? Z.of_nat (length (displays (sync k)))) then Some d
  else if (x d =? cx) && (y d =? cy) && (width d =? i32_of w) && (height d =? i32_of h) then None
  else Some d.

(** ** Resolutions *)
Definition set_last_changed_resolution (name : bytes) (orig chg : Z * Z) (m : gmap bytes ChangedResolution)
  : gmap bytes ChangedResolution :=
  match m !! name with
  | Some res => <[name := mkChanged (original res) chg]> m
  | None => <[name := mkChanged orig chg]> m
  end.
(** The calls [platform::change_resolution] that restore, and the emptied table. *)
Definition restore_resolutions (k : Desk) : list (bytes * (Z * Z)) * Desk :=
  ((fun kv => (kv.1, original kv.2)) <$> map_to_list (changed_resolutions k), with_changed ∅ k).

(** [Connection::change_resolution]: the call it makes, if it gets that far. *)
Definition change_resolution (keyboard : bool) (all : option (list Display)) (display_idx : Z) (d : option Z) (r : Z * Z)
    (k : Desk) : option (bytes * (Z * Z)) * Desk :=
  if keyboard then
    match all with
    | Some ds =>
        match ds !! Z.to_nat (default display_idx d) with
        | Some display =>
            let orig := (i32_sat (d_width display), i32_sat (d_height display)) in
            (Some (d_name display, r),
             with_changed (set_last_changed_resolution (d_name display) orig r (changed_resolutions k)) k)
        | None => (None, k)
        end
    | None => (None, k)
    end
  else (None, k).

(** *** Every display gets its resolution back

    The platform may carry out a change at once, later, or not at all: after
    each request the displays on record have any size ([moved]), the others
    keep theirs. *)
Definition resize (sz : Z * Z) (d : Display) : Display :=
  mkDisplay (d_name d) (origin d) sz.1 sz.2 (is_online d) (is_primary d).
Definition moved (m : gmap bytes ChangedResolution) (f : bytes -> Z * Z) (ds : list Display) : list Display :=
  (fun d => match m !! d_name d with Some _ => resize (f (d_name d)) d | None => d end) <$> ds.
Definition platform_change (c : bytes * (Z * Z)) (ds : list Display) : list Display :=
  (fun d => if bool_decide (d_name d = c.1) then resize (u64_of c.2.1, u64_of c.2.2) d else d) <$> ds.

Record Request := mkRequest {
  allowed : bool;
  at_display : Z;
  asked_display : option Z;
  asked : Z * Z;
  sizes : bytes -> Z * Z
}.
Definition request (ds : list Display) (k : Desk) (q : Request) : list Display * Desk :=
  let k := (change_resolution (allowed q) (Some ds) (at_display q) (asked_display q) (asked q) k).2 in
  (moved (changed_resolutions k) (sizes q) ds, k).
Fixpoint requests (qs : list Request) (ds : list Display) (k : Desk) : list Display * Desk :=
  match qs with
  | [] => (ds, k)
  | q :: qs => let '(ds, k) := request ds k q in requests qs ds k
  end.

Definition sane (d : Display) : Prop := 0 <= d_width d < 2 ^ 31 /\ 0 <= d_height d < 2 ^ 31.
(** A display as it was before the requests and as it is now. *)
Definition tracked (m : gmap bytes ChangedResolution) (d0 d : Display) : Prop :=
  match m !! d_name d with
  | Some res => d = resize (d_width d, d_height d) d0 /\ original res = (d_width d0, d_height d0)
  | None => d = d0
  end.

Lemma i32_sane z : 0 <= z < 2 ^ 31 -> i32_sat z = z /\ i32_of z = z /\ u64_of z = z.
Proof.
  intros H. split; [apply clampZ_id; unfold i32_max; lia|]. split; [apply swrap_id; lia|]. apply wrap_id. unfold in_width. lia.
Qed.

Lemma tracked_name m d0 d : tracked m d0 d -> d_name d = d_name d0.
Proof. unfold tracked. destruct (m !! d_name d); [by intros [-> _]|by intros ->]. Qed.

Lemma moved_tracked m f ds0 ds : Forall2 (tracked m) ds0 ds -> Forall2 (tracked m) ds0 (moved m f ds).
Proof.
  intros H. unfold moved. rewrite <- (list_fmap_id ds0). apply Forall2_fmap. apply (Forall2_impl _ _ _ _ H). intros d0 d T.
  unfold tracked in *. destruct (m !! d_name d) as [res|] eqn:E; simpl; rewrite E; [|done]. destruct T as [-> T]. by split.
Qed.

Lemma record_tracked ds0 ds m i display r : Forall sane ds0 -> NoDup (d_name <$> ds0) -> Forall2 (tracked m) ds0 ds ->
  ds !! i = Some display ->
  Forall2 (tracked (set_last_changed_resolution (d_name display) (i32_sat (d_width display), i32_sat (d_height display)) r m)) ds0 ds.
Proof.
  intros Hs Hn H Hi. unfold set_last_changed_resolution. apply Forall2_same_length_lookup_2; [by eapply Forall2_length|].
  intros j d0 d Hj0 Hj. pose proof (Forall2_lookup_lr _ _ _ _ _ _ H Hj0 Hj) as T.
  destruct (decide (d_name d = d_name display)) as [E|E].
  - assert (j = i /\ d = display) as [-> ->].
    { destruct (Forall2_lookup_r _ _ _ _ _ H Hi) as (e0 & Hi0 & Ti).
      assert (j = i) as ->; [|split; [done|congruence]]. apply (NoDup_lookup _ _ _ (d_name d0) Hn).
      - by rewrite list_lookup_fmap, Hj0.
      - rewrite list_lookup_fmap, Hi0. simpl. f_equal. rewrite <- (tracked_name _ _ _ Ti), <- (tracked_name _ _ _ T). done. }
    unfold tracked in *. destruct (m !! d_name display) as [res|] eqn:M; rewrite lookup_insert_eq; simpl; [done|].
    subst d0. split; [by destruct display|].
    destruct (proj1 (Forall_lookup _ _) Hs _ _ Hj0) as [Hw Hh]. by rewrite (proj1 (i32_sane _ Hw)), (proj1 (i32_sane _ Hh)).
  - unfold tracked in *. destruct (m !! d_name display); by rewrite lookup_insert_ne by done.
Qed.

Lemma requests_tracked ds0 qs : Forall sane ds0 -> NoDup (d_name <$> ds0) -> forall ds k,
  Forall2 (tracked (changed_resolutions k)) ds0 ds ->
  Forall2 (tracked (changed_resolutions (requests qs ds k).2)) ds0 (requests qs ds k).1.
Proof.
  intros Hs Hn. induction qs as [|q qs IH]; intros ds k H; simpl; [done|]. apply IH. apply moved_tracked.
  unfold change_resolution. destruct (allowed q); [|done].
  destruct (ds !! _) as [display|] eqn:E; [|done]. by apply (record_tracked _ _ _ _ _ _ Hs Hn H E).
Qed.

Lemma platform_changes_one l ds d i : NoDup (l.*1) -> ds !! i = Some d ->
  foldr platform_change ds l !! i =
  Some (match list_to_map (M := gmap bytes (Z * Z)) l !! d_name d with Some sz => resize (u64_of sz.1, u64_of sz.2) d | None => d end).
Proof.
  induction l as [|[n sz] l IH]; intros Hn Hi; simpl; [done|]. inversion Hn as [|?? Hnotin Hn']; subst.
  unfold platform_change at 1. rewrite list_lookup_fmap, IH by done. simpl. f_equal.
  destruct (decide (d_name d = n)) as [<-|E].
  - rewrite lookup_insert_eq. assert (list_to_map (M := gmap bytes (Z * Z)) l !! d_name d = None) as ->
      by (by apply not_elem_of_list_to_map_1). by rewrite bool_decide_true.
  - rewrite lookup_insert_ne by done. destruct (list_to_map l !! d_name d); simpl; by rewrite bool_decide_false.
Qed.

(** Resolutions come back: whatever viewers ask for, on whichever display,
    and however slowly or partly the platform obeys, every viewer is told the
    resolution each display had before the first request, and the calls made
    when the last viewer leaves, in whatever order the table is walked, give
    every display that resolution again and empty the table. *)
Theorem resolutions_restored ds0 qs k0 calls : Forall sane ds0 -> NoDup (d_name <$> ds0) -> changed_resolutions k0 = ∅ ->
  let '(ds, k) := requests qs ds0 k0 in
  calls ≡ₚ (restore_resolutions k).1 ->
  (forall i d0 d, ds0 !! i = Some d0 -> ds !! i = Some d ->
     original_resolution (display_info (changed_resolutions k) d) = (d_width d0, d_height d0)) /\
  foldr platform_change ds calls = ds0 /\ changed_resolutions (restore_resolutions k).2 = ∅.
Proof.
  intros Hs Hn H0. pose proof (requests_tracked ds0 qs Hs Hn ds0 k0) as H. destruct (requests qs ds0 k0) as [ds k]. simpl in H.
  assert (Forall2 (tracked (changed_resolutions k)) ds0 ds) as T.
  { apply H. rewrite H0. apply Forall_Forall2_diag. apply Forall_true. intros d. unfold tracked. by rewrite lookup_empty. }
  clear H. intros Hc. split; [|split; [|done]].
  - intros i d0 d Hi0 Hi. pose proof (Forall2_lookup_lr _ _ _ _ _ _ T Hi0 Hi) as Ti. simpl. unfold get_original_resolution, tracked in *.
    destruct (changed_resolutions k !! d_name d); [by destruct Ti|]. subst d.
    destruct (proj1 (Forall_lookup _ _) Hs _ _ Hi0) as [Hw Hh]. destruct (i32_sane _ Hw) as (_ & -> & _), (i32_sane _ Hh) as (_ & -> & _). done.
  - assert (NoDup (calls.*1)) as Hnd.
    { rewrite Hc. simpl. rewrite <- list_fmap_compose. apply NoDup_fst_map_to_list. }
    assert (list_to_map calls = original <$> changed_resolutions k) as Hm.
    { rewrite (list_to_map_proper _ _ Hnd Hc). simpl. rewrite <- (list_to_map_to_list (changed_resolutions k)) at 2.
      by rewrite <- list_to_map_fmap. }
    apply list_eq_same_length with (length ds0); [done|..].
    { rewrite (Forall2_length _ _ _ T). clear. induction calls as [|c l IH]; simpl; [done|]. unfold platform_change. by rewrite length_fmap. }
    intros i d d0 _ Hi Hi0. destruct (Forall2_lookup_l _ _ _ _ _ T Hi0) as (e & He & Te).
    rewrite (platform_changes_one _ _ _ _ Hnd He), Hm, lookup_fmap in Hi. unfold tracked in Te.
    destruct (changed_resolutions k !! d_name e) as [res|]; simpl in Hi; [|congruence]. injection Hi as <-. destruct Te as [-> ->].
    destruct (proj1 (Forall_lookup _ _) Hs _ _ Hi0) as [Hw Hh]. simpl.
    destruct (i32_sane _ Hw) as (_ & _ & ->), (i32_sane _ Hh) as (_ & _ & ->). by destruct d0.
Qed.

(** ** The display service *)
Section Sync.
(** The bytes of one display on the wire. *)
Context (info_bytes : DisplayInfo -> bytes).
Abbreviation Svc := (ServiceInner ConnInner).

Definition displays_to_msg (ds : list DisplayInfo) : Message := PeerInfo (info_bytes <$> ds).
Definition get_displays_msg (k : Desk) : option Message * Desk :=
  let '(ds, s) := get_update_sync_displays (sync k) in (displays_to_msg <$> ds, with_sync s k).
Definition check_get_displays_changed_msg (all : option (list Display)) (k : Desk) : option Message * Desk :=
  match all with
  | Some all => get_displays_msg (check_update_displays all k)
  | None => (None, k)
  end.
(** The callback of the snapshot; [joined] is [sps.has_subscribes()].  An error
    ends this run of the service, which is then started again. *)
Definition on_snapshot (joined : bool) (k : Desk) : Desk * result unit unit :=
  if negb (ignore k) then if joined then (unsync k, Err tt) else (k, Ok tt) else (k, Ok tt).

(** Where the service thread is, and the guard of [temp_ignore_displays_changed]:
    its destructor clears the flag and then asks for the message. *)
Inductive Pc := Top | Swapping (failed : bool) | Ready.
Inductive Guard := NoGuard | Ignoring | Releasing.
#[local] Instance Guard_eq_dec : EqDecision Guard.
Proof. solve_decision. Defined.

(** [known] is what each viewer was last told, at its login or since. *)
Record World := mkWorld { pc : Pc; guard : Guard; desk : Desk; svc : Svc; known : Z -> list bytes }.
Definition world0 : World := mkWorld Top NoGuard desk0 (new "display"%string true) (fun _ => []).

Definition learn (log : list Delivery) (old : list bytes) : list bytes :=
  foldl (fun o d => match d.2 with PeerInfo ds => ds | _ => o end) old log.
Definition serve (o : Op) (w : World) : World :=
  let '(s, out) := apply o (svc w) in
  mkWorld (pc w) (guard w) (desk w) s (fun i => learn (default [] (out !! i)) (known w i)).
Definition at_pc (p : Pc) (w : World) : World := mkWorld p (guard w) (desk w) (svc w) (known w).
Definition with_desk (k : Desk) (w : World) : World := mkWorld (pc w) (guard w) k (svc w) (known w).
Definition with_guard (g : Guard) (b : bool) (w : World) : World :=
  mkWorld (pc w) g (with_ignore b (desk w)) (svc w) (known w).

(** What the threads do, one section under a lock at a time: a login, a look at
    the displays by a video service, a connection that comes or goes, the guard,
    and the three sections of the service's own loop. *)
Inductive Action :=
| Login (i : Z) (all : option (list Display))
| Look (all : option (list Display))
| Request_ (allowed : bool) (all : option (list Display)) (idx : Z) (d : option Z) (r : Z * Z)
| Restore
| External (o : Op)
| Ignore
| Release
| Trigger
| Snapshot
| SwapIn
| Broadcast (all : option (list Display)).

Definition act (a : Action) (w : World) : World :=
  match a with
  | Login i all =>
      match update_get_sync_displays_on_login all (desk w) with
      | Some (ds, k) => mkWorld (pc w) (guard w) k (svc w) (fun j => if bool_decide (j = i) then info_bytes <$> ds else known w j)
      | None => w
      end
  | Look all => with_desk (default (desk w) (check_displays_changed all (desk w))) w
  | Request_ b all idx d r => with_desk (change_resolution b all idx d r (desk w)).2 w
  | Restore => with_desk (restore_resolutions (desk w)).2 w
  | External o => if external o then serve o w else w
  | Ignore => match guard w with NoGuard => with_guard Ignoring true w | _ => w end
  | Release => match guard w with Ignoring => with_guard Releasing false w | _ => w end
  | Trigger => match guard w with Releasing => with_desk (unsync (desk w)) (with_guard NoGuard false w) | _ => w end
  | Snapshot =>
      match pc w with
      | Top =>
          if bool_decide (0 < size (new_subscribes (svc w)))%nat then
            let '(k, r) := on_snapshot (swap_has_subscribes (svc w)) (desk w) in
            at_pc (Swapping (match r with Err _ => true | Ok _ => false end)) (with_desk k w)
          else at_pc Ready w
      | _ => w
      end
  | SwapIn =>
      match pc w with
      | Swapping failed => at_pc (if failed then Top else Ready) (serve Swap w)
      | _ => w
      end
  | Broadcast all =>
      match pc w with
      | Ready =>
          let '(m, k) := check_get_displays_changed_msg all (desk w) in
          let w := at_pc Top (with_desk k w) in
          match m with Some m => serve (SendShared m) w | None => w end
      | _ => w
      end
  end.
Fixpoint acts (l : list Action) (w : World) : World :=
  match l with [] => w | a :: l => acts l (act a w) end.

(** ** Viewers know the displays *)
Definition current (w : World) : list bytes := info_bytes <$> displays (sync (desk w)).
Definition up_to_date (w : World) (i : Z) : Prop := known w i = current w.
(** Whether a message has gone out without the viewer [i] since it was last told
    the displays, at its login or by a message. *)
Definition missed (i : Z) (a : Action) (w : World) (m : bool) : bool :=
  match a with
  | Login j (Some _) => if bool_decide (j = i) then false else m
  | Broadcast all =>
      match pc w, (check_get_displays_changed_msg all (desk w)).1 with
      | Ready, Some _ => match subscribes (svc w) !! i with Some c => negb (tx c) | None => true end
      | _, _ => m
      end
  | _ => m
  end.
(** The viewer [i] is never let in where nobody is served after it missed a
    message. *)
Fixpoint not_left_behind (i : Z) (l : list Action) (w : World) (m : bool) : Prop :=
  match l with
  | [] => True
  | a :: l =>
      (a = SwapIn -> pc w = Swapping false -> subscribes (svc w) = ∅ -> is_Some (new_subscribes (svc w) !! i) -> m = false) /\
      not_left_behind i l (act a w) (missed i a w m)
  end.

Definition quiet (w : World) : Prop := guard w = NoGuard /\ is_synced (sync (desk w)) = true.
(** For the viewer [i], which missed a message when [m]. *)
Record good (i : Z) (m : bool) (w : World) : Prop := {
  good_wf : wf (svc w);
  good_snap : need_snapshot (svc w) = true;
  good_flag : ignore (desk w) = bool_decide (guard w = Ignoring);
  good_known : quiet w -> forall c, subscribes (svc w) !! i = Some c -> tx c = true -> up_to_date w i;
  good_told : quiet w -> m = false -> up_to_date w i;
  good_pc : quiet w -> match pc w with Swapping true => False | Swapping false => subscribes (svc w) = ∅ | _ => True end
}.

Lemma zip_equal {A} `{EqDecision A} (l1 l2 : list A) : length l2 = length l1 ->
  existsb (fun p => negb (bool_decide (p.1 = p.2))) (zip l1 l2) = false -> l1 = l2.
Proof.
  revert l2. induction l1 as [|a l1 IH]; intros [|b l2] Hl; try done. simpl.
  rewrite orb_false_iff, negb_false_iff, bool_decide_eq_true. intros [-> H]. f_equal. apply IH; [by injection Hl|done].
Qed.

Lemma check_changed_spec ign ds s :
  displays (check_changed ign ds s) = ds /\
  (is_synced (check_changed ign ds s) = true -> is_synced s = true /\ (ign = true \/ displays s = ds)).
Proof.
  unfold check_changed. destruct (length (displays s) =? length ds)%nat eqn:E; simpl; [|by destruct ign; auto].
  apply Nat.eqb_eq in E. destruct (existsb _ _) eqn:Z; simpl; [by destruct ign; auto|].
  apply zip_equal in Z; [|done]. subst. auto.
Qed.

(** A step that changes neither flag nor subscribers, and the displays only
    together with a message that is due. *)
Lemma desk_good i m k w : good i m w -> ignore k = ignore (desk w) ->
  (guard w = NoGuard -> is_synced (sync k) = true -> is_synced (sync (desk w)) = true /\ displays (sync k) = displays (sync (desk w))) ->
  good i m (with_desk k w).
Proof.
  intros [Hw Hn Hf Hk Ht Hp] Hi Hs. split; simpl; try done; [by rewrite Hi|..]; intros [G S]; destruct (Hs G S) as [S' E].
  - intros c Hc Hx. unfold up_to_date, current. simpl. rewrite E. exact (Hk (conj G S') c Hc Hx).
  - intros Hm. unfold up_to_date, current. simpl. rewrite E. exact (Ht (conj G S') Hm).
  - exact (Hp (conj G S')).
Qed.

Lemma look_good i m all w : good i m w -> good i m (with_desk (check_update_displays all (desk w)) w).
Proof.
  intros H. apply desk_good; [done|done|]. intros G. simpl.
  destruct (check_changed_spec (ignore (desk w)) (display_info (changed_resolutions (desk w)) <$> all) (sync (desk w))) as [E S].
  intros Hs. destruct (S Hs) as [S1 [I|D]]; [|split; [done|congruence]].
  rewrite (good_flag _ _ _ H), G in I. done.
Qed.

Lemma external_subs o (s : Svc) i c : external o -> need_snapshot s = true ->
  subscribes (apply o s).1 !! i = Some c -> subscribes s !! i = Some c.
Proof.
  intros He Hn. destruct o as [c0|j|m|m j|m j|m j|m| |opt v|]; simpl; try done.
  - unfold on_subscribe. case_bool_decide; [done|]. by rewrite Hn.
  - unfold on_unsubscribe. destruct (subscribes s !! j) eqn:E; simpl; [|done]. by intros [_ ?]%lookup_delete_Some.
Qed.
Lemma external_silent o (s : Svc) : external o -> (apply o s).2 = ∅.
Proof. by destruct o. Qed.

Lemma external_good i m o w : external o -> good i m w -> good i m (serve o w).
Proof.
  intros He [Hw Hn Hf Hk Ht Hp]. unfold serve. pose proof (apply_wf o _ Hw) as Hw'. pose proof (apply_need_snapshot o (svc w)) as Hn'.
  pose proof (external_subs o (svc w)) as Hs. pose proof (external_silent o (svc w) He) as Ho.
  destruct (apply o (svc w)) as [s out]. simpl in *. subst out. split; simpl; [done|congruence|done|..];
    intros Q; try (unfold up_to_date, Out in *; simpl; rewrite lookup_empty; simpl).
  - intros c Hc. by apply (Hk Q c), Hs.
  - by apply Ht.
  - specialize (Hp Q). destruct (pc w) as [|[]|]; try done. apply map_empty. intros j.
    destruct (subscribes s !! j) as [c|] eqn:E; [|done]. apply Hs in E; [|done..]. by rewrite Hp in E.
Qed.

Lemma snapshot_good i m w : good i m w -> good i m (act Snapshot w).
Proof.
  intros H. simpl. destruct (pc w) eqn:P; try done. case_bool_decide; [|destruct H; by split].
  unfold on_snapshot. destruct (ignore (desk w)) eqn:I; simpl.
  - destruct H as [Hw Hn Hf Hk Ht Hp]. split; simpl; [done..|]. intros [G _]. simpl in G. rewrite Hf, G in I. done.
  - unfold swap_has_subscribes. case_bool_decide as Hj; simpl.
    + assert (good i m (with_desk (unsync (desk w)) w)) as [Hw Hn Hf Hk Ht Hp] by (by apply desk_good).
      split; simpl; try done; by intros [_ ?].
    + destruct H as [Hw Hn Hf Hk Ht Hp]. split; simpl; [done..|]. intros _. apply map_size_empty_iff. lia.
Qed.

Lemma swap_good i m w : good i m w -> (pc w = Swapping false -> subscribes (svc w) = ∅ -> is_Some (new_subscribes (svc w) !! i) -> m = false) ->
  good i m (act SwapIn w).
Proof.
  intros H Hg. simpl. destruct (pc w) as [|failed|] eqn:P; try done. destruct H as [Hw Hn Hf Hk Ht Hp]. unfold serve. simpl.
  split; simpl; [by apply (apply_wf Swap)|done|done|..]; [| |by destruct failed];
    intros Q; unfold up_to_date, Out in *; simpl; rewrite lookup_empty; simpl.
  - intros c Hc Hx. specialize (Hp Q). rewrite P in Hp.
    destruct failed; [done|]. change (subscribes (swap_new_subscribes (svc w)) !! i = Some c) in Hc.
    rewrite swap_lookup in Hc by done.
    destruct (new_subscribes (svc w) !! i) as [c'|] eqn:E; [|by rewrite Hp in Hc]. by apply (Ht Q), Hg.
  - by apply Ht.
Qed.

Lemma broadcast_tells m (w : World) i c : wf (svc w) -> subscribes (svc (serve (SendShared (PeerInfo m)) w)) !! i = Some c -> tx c = true ->
  known (serve (SendShared (PeerInfo m)) w) i = m.
Proof.
  intros Hw. unfold serve, apply, send_shared, to_subscribes.
  pose proof (broadcast_fst (fun _ _ => true) (PeerInfo m) (subscribes (svc w)) i) as F.
  pose proof (broadcast_snd (fun _ _ => true) (PeerInfo m) (subscribes (svc w)) i) as S.
  destruct (broadcast _ _ _) as [a out]. simpl in *. rewrite S, F.
  destruct (subscribes (svc w) !! i) as [c0|]; [|done]. simpl. intros [= <-] Ht. by rewrite Ht.
Qed.

Lemma broadcast_good i m all w : good i m w -> good i (missed i (Broadcast all) w m) (act (Broadcast all) w).
Proof.
  intros H. simpl. destruct (pc w) eqn:P; [done..|]. destruct all as [all|]; simpl; [|destruct H; by split].
  pose proof (look_good i m all w H) as H1. unfold get_displays_msg, get_update_sync_displays.
  set (k := check_update_displays all (desk w)) in *. destruct (is_synced (sync k)) eqn:S; simpl.
  - destruct H1 as [Hw Hn Hf Hk Ht Hp]. replace (with_sync (sync k) k) with k by (by destruct k). by split.
  - destruct H1 as [Hw Hn Hf Hk Ht Hp]. unfold displays_to_msg.
    set (w1 := at_pc Top (with_desk (with_sync (mkSync (displays (sync k)) true) k) w)).
    assert (forall c, subscribes (svc (serve (SendShared (PeerInfo (info_bytes <$> displays (sync k)))) w1)) !! i = Some c -> tx c = true ->
      up_to_date (serve (SendShared (PeerInfo (info_bytes <$> displays (sync k)))) w1) i) as Hsent.
    { intros c Hc Hx. unfold up_to_date. by rewrite (broadcast_tells _ w1 i c). }
    split; [exact (apply_wf (SendShared _) _ Hw)|by etrans; [apply (apply_need_snapshot (SendShared _))|]|done| | |done].
    + intros _ c Hc Hx. by apply (Hsent c).
    + intros _. destruct (subscribes (svc w) !! i) as [c|] eqn:E; [|done]. intros Hx%negb_false_iff. apply (Hsent c); [|done].
      unfold serve, apply, send_shared, to_subscribes. pose proof (broadcast_fst (fun _ _ => true) (PeerInfo (info_bytes <$> displays (sync k))) (subscribes (svc w1)) i) as F.
      destruct (broadcast _ _ _) as [a out]. simpl in *. by rewrite F, E.
Qed.

Lemma act_good i m a w : good i m w ->
  (a = SwapIn -> pc w = Swapping false -> subscribes (svc w) = ∅ -> is_Some (new_subscribes (svc w) !! i) -> m = false) ->
  good i (missed i a w m) (act a w).
Proof.
  intros H Hg. destruct a as [j all|all|b all idx d r| |o| | | | | |all];
    [..|by apply snapshot_good|by apply swap_good; [|apply Hg]|by apply broadcast_good].
  - destruct all as [all|]; simpl; [|done]. destruct (look_good i m all w H) as [Hw Hn Hf Hk Ht Hp]. split; simpl; try done.
    + intros Q c Hc Hx. unfold up_to_date, current. simpl. destruct (bool_decide (i = j)); [reflexivity|exact (Hk Q c Hc Hx)].
    + intros Q Hm. unfold up_to_date, current. simpl. destruct (bool_decide_reflect (i = j)) as [E|E]; [reflexivity|].
      rewrite bool_decide_false in Hm by congruence. exact (Ht Q Hm).
  - destruct all as [all|]; simpl; [by apply look_good|by apply desk_good].
  - simpl. unfold change_resolution. destruct b, all as [all|]; try (by apply desk_good). by destruct (all !! _); apply desk_good.
  - by apply desk_good.
  - simpl. destruct (external o) eqn:E; [apply external_good; [by rewrite E|done]|done].
  - simpl. destruct (guard w); [|done|done]. destruct H as [Hw Hn Hf Hk Ht Hp]. split; simpl; try done; by intros [? _].
  - simpl. destruct (guard w); [done| |done]. destruct H as [Hw Hn Hf Hk Ht Hp]. split; simpl; try done; by intros [? _].
  - simpl. destruct (guard w) eqn:G; [done|done|]. destruct H as [Hw Hn Hf Hk Ht Hp].
    split; simpl; try done; [by rewrite Hf, G|by intros [_ ?]..].
Qed.

Lemma acts_good i l : forall m w, good i m w -> not_left_behind i l w m -> exists m', good i m' (acts l w).
Proof. induction l as [|a l IH]; intros m w H; simpl; [by exists m|]. intros [G1 G2]. eapply IH; [by apply act_good|done]. Qed.

Lemma world0_good i : good i false world0.
Proof. split; simpl; by (intros [_ ?]) || done. Qed.

(** [C21] A viewer knows the displays: over any interleaving of logins,
    arrivals and departures, changes of displays and resolutions, moments in
    which changes are ignored and turns of the display service, once the service
    ended a turn with the displays it saw, a subscribed viewer's last list is
    exactly these, unless changes are being ignored at that time.  It is so for
    every viewer that was not left behind: that was never let in where nobody
    else was served after a message had gone out without it since its login or
    its last message.  What the other viewers do or miss does not matter.
    ([late_viewer_keeps_old_list] is one that is left behind.) *)
Theorem viewers_know_displays i l all :
  let w := acts l world0 in
  not_left_behind i l world0 false -> pc w = Ready -> guard w = NoGuard ->
  let w' := act (Broadcast (Some all)) w in
  forall c, subscribes (svc w') !! i = Some c -> tx c = true ->
    known w' i = info_bytes <$> (display_info (changed_resolutions (desk w)) <$> all).
Proof.
  intros w Hgap P G w' c Hc Ht. destruct (acts_good i l false world0 (world0_good i) Hgap) as [m H]. fold w in H.
  pose proof (broadcast_good i m (Some all) w H) as H'. fold w' in H'.
  assert (guard w' = NoGuard /\ is_synced (sync (desk w')) = true /\
    displays (sync (desk w')) = display_info (changed_resolutions (desk w)) <$> all) as (G' & S' & D').
  { unfold w'. simpl. rewrite P. unfold get_displays_msg, get_update_sync_displays.
    pose proof (proj1 (check_changed_spec (ignore (desk w)) (display_info (changed_resolutions (desk w)) <$> all) (sync (desk w)))) as D.
    destruct (is_synced (sync (check_update_displays all (desk w)))) eqn:S; simpl; [done|].
    unfold serve. simpl. done. }
  rewrite (good_known _ _ _ H' (conj G' S') c Hc Ht). unfold current. by rewrite D'.
Qed.
End Sync.

(** ** Witnesses *)
Definition one_byte (d : DisplayInfo) : bytes := [byte.of_Z (width d)].
Definition screen (n : bytes) (w h : Z) : Display := mkDisplay n (0, 0) w h true true.
Definition a_viewer (i : Z) : ConnInner := mkConnInner i true true.
Definition session_acts : list Action :=
  [Login 1 (Some [screen [] 80 60]); External (OnSubscribe (a_viewer 1)); Snapshot; SwapIn; Broadcast (Some [screen [] 80 60]);
   Login 2 (Some [screen [] 80 60]); Look (Some [screen [] 100 60]); External (OnSubscribe (a_viewer 2)); Snapshot; SwapIn; Snapshot].

Lemma viewers_know_displays_witness :
  known (act one_byte (Broadcast (Some [screen [] 120 60])) (acts one_byte session_acts world0)) 2 = [[Byte.x78]].
Proof.
  refine (viewers_know_displays one_byte 2 session_acts [screen [] 120 60] _ _ _ (a_viewer 2) _ _);
    [|vm_compute; reflexivity..].
  repeat (split; [first [intros H; discriminate H | intros _ H; discriminate H | intros _ _ _ H; vm_compute in H; by destruct H]|]). done.
Defined.

Lemma resolutions_restored_witness :
  let ds0 := [screen [] 80 60; screen [Byte.x41] 100 60] in
  let qs := [mkRequest true 0 None (64, 48) (fun _ => (64, 48)); mkRequest true 0 None (40, 30) (fun _ => (64, 48));
             mkRequest false 0 (Some 1) (9, 9) (fun _ => (40, 30))] in
  d_width <$> (requests qs ds0 desk0).1 = [40; 100] /\
  foldr platform_change (requests qs ds0 desk0).1 (restore_resolutions (requests qs ds0 desk0).2).1 = ds0.
Proof.
  split; [vm_compute; reflexivity|].
  refine (proj1 (proj2 (resolutions_restored [screen [] 80 60; screen [Byte.x41] 100 60]
    [mkRequest true 0 None (64, 48) (fun _ => (64, 48)); mkRequest true 0 None (40, 30) (fun _ => (64, 48));
     mkRequest false 0 (Some 1) (9, 9) (fun _ => (40, 30))] desk0
    (restore_resolutions (requests
      [mkRequest true 0 None (64, 48) (fun _ => (64, 48)); mkRequest true 0 None (40, 30) (fun _ => (64, 48));
       mkRequest false 0 (Some 1) (9, 9) (fun _ => (40, 30))] [screen [] 80 60; screen [Byte.x41] 100 60] desk0).2).1 _ _ _ _))).
  - repeat constructor; simpl; lia.
  - repeat constructor; simpl; set_solver.
  - reflexivity.
  - reflexivity.
Defined.

(** The gap: a viewer that logged in before a change, came too late for its
    message and is let in after the others left keeps the old list. *)
Example late_viewer_keeps_old_list :
  let w := acts one_byte
    [Login 1 (Some [screen [] 80 60]); External (OnSubscribe (a_viewer 1)); Snapshot; SwapIn;
     Login 2 (Some [screen [] 80 60]); External (OnSubscribe (a_viewer 2)); Broadcast (Some [screen [] 100 60]);
     External (OnUnsubscribe 1); Snapshot; SwapIn; Broadcast (Some [screen [] 100 60])] world0 in
  subscribes (svc w) !! 2 = Some (a_viewer 2) /\ known w 2 = [[Byte.x50]] /\ current one_byte w = [[Byte.x64]].
Proof. repeat split; vm_compute; reflexivity. Qed.
