(* ===== verification/Discovery.v ===== *)
(** * Devices on the local network ([src/lan.rs], [LanPeers] of config.rs)

    A viewer broadcasts a ping from every interface, devices that allow it
    answer with a pong, one thread per socket turns pongs into peers, and the
    peers are merged into the list on disk.  Interfaces, addresses and clocks
    are arguments; what arrives on a socket is a list of events. *)
From S2P Require Import Prelude.
From S2P Require Import Encoding.
From S2P Require Import PasswordSecurity.
From S2P Require Import PermanentPassword.
From S2P Require Import Authentication.

Inductive IpAddr := V4 (a : bytes) | V6 (a : bytes).
#[export] Instance IpAddr_eq_dec : EqDecision IpAddr.
Proof. solve_decision. Defined.

Record PeerDiscovery := mkDiscovery {
  cmd : bytes;
  mac : bytes;
  pd_id : bytes;
  pd_username : bytes;
  pd_hostname : bytes;
  pd_platform : bytes
}.
Record DiscoveryPeer := mkPeer {
  id : bytes;
  username : bytes;
  hostname : bytes;
  platform : bytes;
  online : bool;
  ip_mac : gmap bytes bytes
}.
Definition is_same_peer (a b : DiscoveryPeer) : bool := bool_decide (id a = id b) && bool_decide (username a = username b).
Definition with_online (b : bool) (p : DiscoveryPeer) : DiscoveryPeer :=
  mkPeer (id p) (username p) (hostname p) (platform p) b (ip_mac p).
Definition with_ip_mac (m : gmap bytes bytes) (p : DiscoveryPeer) : DiscoveryPeer :=
  mkPeer (id p) (username p) (hostname p) (platform p) (online p) m.

(** ** Addresses of this machine *)
Record Interface := mkInterface { ipv4 : list bytes; ipv6 : list bytes; mac_addr : option bytes }.
Fixpoint get_mac_by_ip (interfaces : list Interface) (ip : IpAddr) : option bytes :=
  match interfaces with
  | [] => None
  | i :: interfaces =>
      let has := match ip with V4 a => bool_decide (a ∈ ipv4 i) | V6 a => bool_decide (a ∈ ipv6 i) end in
      match has, mac_addr i with
      | true, Some m => Some m
      | _, _ => get_mac_by_ip interfaces ip
      end
  end.
Definition get_mac (interfaces : list Interface) (ip : IpAddr) : bytes := default [] (get_mac_by_ip interfaces ip).
Definition is_unspecified (ip : IpAddr) : bool :=
  match ip with V4 a | V6 a => bool_decide (a = replicate (length a) Byte.x00) end.

(** The broadcast sockets: one per address that can be bound, and one more for
    any address; [None] when there is none. *)
Definition UNSPECIFIED : bytes := replicate 4 Byte.x00.
Definition create_broadcast_sockets (interfaces : list Interface) (bindable : bytes -> bool) : list bytes :=
  List.filter bindable (concat (ipv4 <$> interfaces) ++ [UNSPECIFIED]).
Definition PING : PeerDiscovery := mkDiscovery (str "ping") [] [] [] [] [].
Definition send_query (interfaces : list Interface) (bindable : bytes -> bool) : option (list bytes * PeerDiscovery) :=
  match create_broadcast_sockets interfaces bindable with
  | [] => None
  | sockets => Some (sockets, PING)
  end.

(** ** The device *)
Record Host := mkHost { settings : Settings; my_id : bytes; my_hostname : bytes; active_username : bytes; my_platform : bytes;
  host_interfaces : list Interface }.
(** One datagram of [start_listening]; [self_addr] is [get_ipaddr_by_peer]. *)
Definition answer (h : Host) (self_addr : option IpAddr) (p : PeerDiscovery) : option PeerDiscovery :=
  if bool_decide (cmd p = str "ping") && get_bool_option (settings h) (str "enable-lan-discovery") then
    if bool_decide (pd_id p = my_id h) then None
    else
      match self_addr with
      | Some a =>
          let hostname := if bool_decide (my_hostname h = str "localhost") then str "unknown" else my_hostname h in
          Some (mkDiscovery (str "pong") (get_mac (host_interfaces h) a) (my_id h) (active_username h) hostname (my_platform h))
      | None => None
      end
  else None.

(** ** The viewer *)
Section Viewer.
Context (show_ip : IpAddr -> bytes) (interfaces : list Interface) (get_ipaddr_by_peer : IpAddr -> option IpAddr).

(** What one turn of a socket's loop sees: the time after it, and the message
    that was received and could be parsed, with its sender. *)
Record Turn := mkTurn { at_ms : Z; got : option (IpAddr * PeerDiscovery) }.

(** The machine's own address on the way to the sender, looked up once when the
    socket has a fixed address. *)
Definition local_mac (local_addr : option IpAddr) (cached : option bytes) (from : IpAddr) : bytes * option bytes :=
  let try_get_ip_by_peer := match local_addr with None => true | Some a => is_unspecified a end in
  if try_get_ip_by_peer then
    (match get_ipaddr_by_peer from with Some a => get_mac interfaces a | None => [] end, cached)
  else
    match cached with
    | Some m => (m, cached)
    | None => let m := match local_addr with Some a => get_mac interfaces a | None => [] end in (m, Some m)
    end.
Definition foreign (local remote : bytes) : bool :=
  is_empty local && is_empty remote || negb (bool_decide (local = remote)).
Definition peer_of (from : IpAddr) (p : PeerDiscovery) : DiscoveryPeer :=
  mkPeer (pd_id p) (pd_username p) (pd_hostname p) (pd_platform p) true {[ show_ip from := mac p ]}.

(** The loop ends when nothing came for three seconds; a run that ends with its
    events has not ended yet. *)
Fixpoint wait_response (local_addr : option IpAddr) (last_recv_time : Z) (cached : option bytes) (turns : list Turn)
  : list DiscoveryPeer :=
  match turns with
  | [] => []
  | t :: turns =>
      let '(out, last_recv_time, cached) :=
        match got t with
        | Some (from, p) =>
            if bool_decide (cmd p = str "pong") then
              let '(m, cached) := local_mac local_addr cached from in
              (if foreign m (mac p) then [peer_of from p] else [], at_ms t, cached)
            else ([], at_ms t, cached)
        | None => ([], last_recv_time, cached)
        end in
      if 3000 <? at_ms t - last_recv_time then out else out ++ wait_response local_addr last_recv_time cached turns
  end.
End Viewer.

(** *** The list of peers *)
Record Scan := mkScan { peers : list DiscoveryPeer; response_set : gset bytes; written : bool; stored : list DiscoveryPeer }.

(** [due]: more than 300 ms since the list was last written. *)
Definition on_response (s : Scan) (x : bool * DiscoveryPeer) : Scan :=
  let '(due, peer) := x in
  let in_response_set := bool_decide (id peer ∈ response_set s) in
  let peers1 :=
    match list_find (fun x => is_same_peer x peer = true) (peers s) with
    | Some (pos, peer1) =>
        (if in_response_set then with_online true (with_ip_mac (ip_mac peer1 ∪ ip_mac peer) peer) else peer)
        :: delete pos (peers s)
    | None => peer :: peers s
    end in
  let write := due || negb (written s) in
  mkScan peers1 ({[ id peer ]} ∪ response_set s) (written s || write) (if write then peers1 else stored s).

Definition handle_received_peers (loaded : list DiscoveryPeer) (responses : list (bool * DiscoveryPeer)) : Scan :=
  let s := foldl on_response (mkScan (with_online false <$> loaded) ∅ false loaded) responses in
  mkScan (peers s) (response_set s) (written s) (peers s).
Definition remove_discovered (i : bytes) (loaded : list DiscoveryPeer) : list DiscoveryPeer :=
  List.filter (fun x => negb (bool_decide (id x = i))) loaded.
(** The addresses a wake-on-LAN packet is sent to: those of the first entry of
    that id, from every own address. *)
Definition wol_targets (parse_mac : bytes -> option bytes) (interfaces : list Interface) (i : bytes) (loaded : list DiscoveryPeer)
  : list (bytes * bytes) :=
  match list_find (fun p => id p = i) loaded with
  | Some (_, p) =>
      m ← omap parse_mac (snd <$> map_to_list (ip_mac p)); a ← concat (ipv4 <$> interfaces); [(m, a)]
  | None => []
  end.

(** ** What the list says *)
Definition key (p : DiscoveryPeer) : bytes * bytes := (id p, username p).

Lemma same_key a b : is_same_peer a b = true <-> key a = key b.
Proof. unfold is_same_peer, key. rewrite andb_true_iff, !bool_decide_eq_true. split; [by intros [-> ->]|by intros [= -> ->]]. Qed.

(** The list after the answers [rs], read entry by entry. *)
Record tells (old rs : list DiscoveryPeer) (ps : list DiscoveryPeer) : Prop := {
  tells_once : NoDup (key <$> ps);
  tells_all : forall k, k ∈ key <$> ps <-> k ∈ key <$> old \/ k ∈ key <$> rs;
  tells_online : forall p, p ∈ ps -> online p = true <-> key p ∈ key <$> rs;
  tells_kept : forall p, p ∈ ps -> key p ∉ key <$> rs -> exists q, q ∈ old /\ p = with_online false q;
  tells_addresses : forall p r, p ∈ ps -> r ∈ rs -> key r = key p -> dom (ip_mac r) ⊆ dom (ip_mac p);
  tells_fresh : (forall r r', r ∈ rs -> r' ∈ rs -> id r = id r' -> username r = username r') ->
    forall p a, p ∈ ps -> key p ∈ key <$> rs -> a ∈ dom (ip_mac p) -> exists r, r ∈ rs /\ key r = key p /\ a ∈ dom (ip_mac r)
}.

Lemma tells_start old : NoDup (key <$> old) -> tells old [] (with_online false <$> old).
Proof.
  intros Hn. assert (key <$> (with_online false <$> old) = key <$> old) as Hk by (rewrite <- list_fmap_compose; by apply list_fmap_ext).
  split; rewrite ?Hk; [done|set_solver| | | |].
  - intros p (q & -> & Hq)%list_elem_of_fmap. simpl. set_solver.
  - intros p (q & -> & Hq)%list_elem_of_fmap _. eauto.
  - set_solver.
  - set_solver.
Qed.

(** The entry that an answer replaces, if any. *)
Lemma replaced ps r : NoDup (key <$> ps) ->
  (key r ∉ key <$> ps /\ list_find (fun x => is_same_peer x r = true) ps = None) \/
  exists pos q, list_find (fun x => is_same_peer x r = true) ps = Some (pos, q) /\ q ∈ ps /\ key q = key r /\
    NoDup (key <$> delete pos ps) /\ key r ∉ key <$> delete pos ps /\ (forall p, p ∈ ps <-> p = q \/ p ∈ delete pos ps).
Proof.
  intros Hn. destruct (list_find _ ps) as [[pos q]|] eqn:F; [right|left].
  - apply list_find_Some in F as (Hq & Hs & _). apply same_key in Hs. exists pos, q.
    pose proof (delete_Permutation ps pos q Hq) as Hp.
    assert (NoDup (key <$> q :: delete pos ps)) as Hn' by (by rewrite <- Hp). simpl in Hn'. apply NoDup_cons in Hn' as [H1 H2].
    split; [done|]. split; [by eapply list_elem_of_lookup_2|]. split; [done|]. split; [done|]. split; [by rewrite <- Hs|].
    intros p. assert (p ∈ ps <-> p ∈ q :: delete pos ps) as -> by (by rewrite <- Hp). apply elem_of_cons.
  - split; [|done]. apply list_find_None in F. intros (q & Hk & Hq)%list_elem_of_fmap.
    rewrite Forall_forall in F. apply (F q Hq). by apply same_key.
Qed.

Lemma key_in k (l : list DiscoveryPeer) : k ∈ key <$> l <-> exists p, p ∈ l /\ key p = k.
Proof. rewrite list_elem_of_fmap. naive_solver. Qed.

Lemma tells_step old rs ps r e rest : tells old rs ps ->
  key e = key r -> online e = true -> NoDup (key <$> rest) -> key r ∉ key <$> rest ->
  (forall p, p ∈ rest <-> p ∈ ps /\ key p <> key r) ->
  dom (ip_mac r) ⊆ dom (ip_mac e) ->
  (forall p, p ∈ ps -> key p = key r -> id r ∈ id <$> rs -> dom (ip_mac p) ⊆ dom (ip_mac e)) ->
  (forall a, a ∈ dom (ip_mac e) -> a ∈ dom (ip_mac r) \/
     id r ∈ id <$> rs /\ exists p, p ∈ ps /\ key p = key r /\ a ∈ dom (ip_mac p)) ->
  tells old (rs ++ [r]) (e :: rest).
Proof.
  intros [To Ta Tn Tk Td Tf] He Hon Hnd Hnin Hrest Hr Hp Hfrom.
  assert (forall k, k ∈ key <$> rs ++ [r] <-> k ∈ key <$> rs \/ k = key r) as Hk
    by (intros k; rewrite fmap_app, elem_of_app; simpl; rewrite list_elem_of_singleton; done).
  assert (forall p, p ∈ rest -> p ∈ ps /\ key p <> key r) as Hr1 by (intros p; apply Hrest).
  split.
  - simpl. rewrite NoDup_cons, He. done.
  - intros k. rewrite Hk, fmap_cons, elem_of_cons, He. pose proof (Ta k) as Tk'. rewrite !key_in in *. split.
    + intros [->|(p & [Hps _]%Hr1 & Hpk)]; [tauto|]. destruct (proj1 Tk') as [|]; [by exists p|tauto..].
    + intros H. destruct (decide (k = key r)) as [->|Hne]; [by left|right].
      destruct (proj2 Tk') as (p & Hps & <-); [tauto|]. exists p. split; [by apply Hrest|done].
  - intros p. rewrite elem_of_cons, Hk. intros [->|[Hps Hne]%Hr1]; [rewrite He, Hon; tauto|]. rewrite (Tn p Hps). tauto.
  - intros p. rewrite elem_of_cons, Hk. intros [->|[Hps Hne]%Hr1] Hnk; [by rewrite He in Hnk; tauto|]. apply (Tk p Hps). tauto.
  - intros p r'. rewrite elem_of_cons, elem_of_app, list_elem_of_singleton. intros [->|[Hps Hne]%Hr1] [Hr'| ->] Hkk; [| |by apply (Td p r')|done].
    + destruct (proj1 (key_in (key r') ps)) as (p & Hps & Hpk); [apply Ta; right; by apply list_elem_of_fmap_2|].
      rewrite He in Hkk. etrans; [apply (Td p r' Hps Hr'); by rewrite Hpk|]. apply (Hp p Hps); [congruence|].
      injection Hkk as <- _. by apply list_elem_of_fmap_2.
    + done.
  - intros Hu p a. rewrite elem_of_cons, Hk.
    assert (forall r1 r2, r1 ∈ rs -> r2 ∈ rs -> id r1 = id r2 -> username r1 = username r2) as Hu'
      by (intros r1 r2 H1 H2; apply Hu; apply elem_of_app; by left).
    intros [->|[Hps Hne]%Hr1] Hkk Ha.
    + destruct (Hfrom a Ha) as [|((r1 & Hid & Hr1')%list_elem_of_fmap & p & Hps & Hpk & Hap)]; [exists r; split; [apply elem_of_app; right; by apply list_elem_of_singleton|done]|].
      destruct (Tf Hu' p a Hps) as (r2 & Hr2 & Hk2 & Ha2); [|done|exists r2; split; [apply elem_of_app; by left|split; [congruence|done]]].
      rewrite Hpk. apply key_in. exists r1. split; [done|]. unfold key. rewrite <- Hid. f_equal. apply Hu; [apply elem_of_app; by left|apply elem_of_app; right; by apply list_elem_of_singleton|done].
    + destruct (Tf Hu' p a Hps) as (r2 & Hr2 & Hk2 & Ha2); [tauto|done|]. exists r2. split; [apply elem_of_app; by left|done].
Qed.

Lemma response_tells old rs due r s : tells old rs (peers s) -> response_set s = list_to_set (id <$> rs) -> online r = true ->
  tells old (rs ++ [r]) (peers (on_response s (due, r))) /\ response_set (on_response s (due, r)) = list_to_set (id <$> rs ++ [r]).
Proof.
  intros T Hs Hon. split; [|simpl; rewrite Hs; set_solver]. simpl.
  assert (forall b : bool, b = bool_decide (id r ∈ response_set s) -> b = true <-> id r ∈ id <$> rs) as Hin.
  { intros b ->. rewrite bool_decide_eq_true, Hs. apply elem_of_list_to_set. }
  specialize (Hin _ eq_refl). set (b := bool_decide _) in *.
  destruct (replaced (peers s) r (tells_once _ _ _ T)) as [[Hn ->]|(pos & q & -> & Hq & Hk & Hnd & Hnin & Hall)].
  - apply (tells_step old rs (peers s)); try done; [by apply tells_once in T| | |].
    + intros p. split; [|tauto]. intros Hp. split; [done|]. intros E. apply Hn. rewrite <- E. by apply list_elem_of_fmap_2.
    + intros p Hp E. destruct Hn. rewrite <- E. by apply list_elem_of_fmap_2.
    + tauto.
  - assert (forall p, p ∈ peers s -> key p = key r -> p = q) as Huniq.
    { intros p Hp E. apply Hall in Hp as [|Hp]; [done|]. destruct Hnin. rewrite <- E. by apply list_elem_of_fmap_2. }
    assert (forall p, p ∈ delete pos (peers s) <-> p ∈ peers s /\ key p <> key r) as Hrest.
    { intros p. rewrite Hall. split; [intros Hp; split; [by right|]; intros E; destruct Hnin; rewrite <- E; by apply list_elem_of_fmap_2|].
      intros [[->|] ?]; [congruence|done]. }
    destruct b; apply (tells_step old rs (peers s)); try done; simpl.
    + rewrite dom_union. set_solver.
    + intros p Hp E _. rewrite (Huniq p Hp E), dom_union. set_solver.
    + intros a. rewrite dom_union, elem_of_union. intros [Ha|]; [right|by left]. split; [by apply Hin|]. by exists q.
    + intros p Hp E Hi. by apply Hin in Hi.
    + tauto.
Qed.

Lemma responses_tell old responses : NoDup (key <$> old) -> Forall (fun p => online p = true) responses.*2 ->
  tells old responses.*2 (peers (handle_received_peers old responses)).
Proof.
  intros Hn Hon. unfold handle_received_peers. simpl.
  set (s0 := mkScan (with_online false <$> old) ∅ false old).
  cut (tells old responses.*2 (peers (foldl on_response s0 responses)) /\
       response_set (foldl on_response s0 responses) = list_to_set (id <$> responses.*2)); [tauto|].
  induction responses as [|[due r] responses IH] using rev_ind; [split; [by apply tells_start|done]|].
  rewrite fmap_app, Forall_app in Hon. destruct Hon as [H1 H2]. destruct (IH H1) as [T S].
  rewrite foldl_app, fmap_app. simpl foldl. apply response_tells; [done|done|]. by inversion H2.
Qed.

(** The list only depends on which answers came. *)
Lemma tells_perm old rs rs' ps : rs ≡ₚ rs' -> tells old rs ps -> tells old rs' ps.
Proof.
  intros Hp [T1 T2 T3 T4 T5 T6].
  assert (forall r, r ∈ rs <-> r ∈ rs') as Hr by (intros r; by rewrite Hp).
  assert (forall k, k ∈ key <$> rs <-> k ∈ key <$> rs') as Hk by (intros k; by rewrite Hp).
  split; [done|intros k; rewrite <- Hk; apply T2|intros p; rewrite <- Hk; apply T3|intros p; rewrite <- Hk; apply T4| |].
  - intros p r Hps. rewrite <- Hr. by apply T5.
  - intros Hu p a Hps. rewrite <- Hk. intros Hkk Ha. destruct (T6 (fun r r' Hr1 Hr2 => Hu r r' (proj1 (Hr r) Hr1) (proj1 (Hr r') Hr2)) p a Hps Hkk Ha) as (r & Hr' & H).
    exists r. split; [by apply Hr|done].
Qed.

Section Answers.
Context (show_ip : IpAddr -> bytes) (interfaces : list Interface) (by_peer : IpAddr -> option IpAddr).
Local Abbreviation wait := (wait_response show_ip interfaces by_peer).

(** The address [local_mac] finds, whatever was cached. *)
Definition own_mac (local_addr : option IpAddr) (from : IpAddr) : bytes := (local_mac interfaces by_peer local_addr None from).1.
Definition cache_ok (local_addr : option IpAddr) (cached : option bytes) : Prop :=
  match cached with Some m => forall from, own_mac local_addr from = m | None => True end.

Lemma local_mac_spec local_addr cached from : cache_ok local_addr cached ->
  (local_mac interfaces by_peer local_addr cached from).1 = own_mac local_addr from /\
  cache_ok local_addr (local_mac interfaces by_peer local_addr cached from).2.
Proof.
  intros H. unfold local_mac. destruct (match local_addr with None => true | Some a => is_unspecified a end) eqn:E; cbn [fst snd].
  - split; [unfold own_mac, local_mac; by rewrite E|done].
  - destruct cached as [m|]; cbn [fst snd]; [split; [symmetry; apply H|done]|].
    split; [|intros f]; unfold own_mac, local_mac; by rewrite E.
Qed.

(** A turn's own contribution. *)
Definition turn_out (local_addr : option IpAddr) (t : Turn) : list DiscoveryPeer :=
  match got t with
  | Some (from, p) =>
      if bool_decide (cmd p = str "pong") && foreign (own_mac local_addr from) (mac p) then [peer_of show_ip from p] else []
  | None => []
  end.

Lemma wait_cons local_addr last cached t turns : cache_ok local_addr cached ->
  exists cached', cache_ok local_addr cached' /\
  let last' := match got t with Some _ => at_ms t | None => last end in
  wait local_addr last cached (t :: turns) =
  turn_out local_addr t ++ if 3000 <? at_ms t - last' then [] else wait local_addr last' cached' turns.
Proof.
  intros Hc. cbn [wait_response]. unfold turn_out. destruct (got t) as [[from p]|].
  - destruct (bool_decide (cmd p = str "pong")).
    + destruct (local_mac_spec local_addr cached from Hc) as [E Hc']. destruct (local_mac _ _ local_addr cached from) as [m c'].
      cbn [fst snd] in *. subst m. exists c'. split; [done|]. cbn [andb]. destruct (3000 <? _); [by rewrite app_nil_r|done].
    + exists cached. split; [done|]. cbn [andb]. by destruct (3000 <? _).
  - exists cached. split; [done|]. cbv zeta. by destruct (3000 <? _).
Qed.

Lemma answers_online local_addr turns : forall last cached, cache_ok local_addr cached ->
  Forall (fun p => online p = true) (wait local_addr last cached turns).
Proof.
  induction turns as [|t turns IH]; intros last cached Hc; [by constructor|].
  destruct (wait_cons local_addr last cached t turns Hc) as (c' & Hc' & ->). cbv zeta. apply Forall_app. split.
  - unfold turn_out. destruct (got t) as [[from p]|]; [|by constructor]. destruct (_ && _); by repeat constructor.
  - destruct (3000 <? _); [by constructor|by apply IH].
Qed.

Lemma answers_in_time local_addr t0 from d after : forall before last cached, cache_ok local_addr cached -> 
  t0 <= last <= t0 + 3000 -> forall now, Forall (fun t => t0 <= at_ms t <= t0 + 3000) before ->
  cmd d = str "pong" -> foreign (own_mac local_addr from) (mac d) = true ->
  peer_of show_ip from d ∈ wait local_addr last cached (before ++ mkTurn now (Some (from, d)) :: after).
Proof.
  induction before as [|t before IH]; intros last cached Hc Hl now Hb Hd Hf.
  - simpl app. destruct (wait_cons local_addr last cached (mkTurn now (Some (from, d))) after Hc) as (c' & _ & ->). cbv zeta.
    unfold turn_out. simpl. rewrite Hf, bool_decide_true by done. simpl. by left.
  - inversion Hb as [|?? Ht Hb']; subst. simpl app.
    destruct (wait_cons local_addr last cached t (before ++ mkTurn now (Some (from, d)) :: after) Hc) as (c' & Hc' & ->). cbv zeta.
    apply elem_of_app. right. set (last' := match got t with Some _ => at_ms t | None => last end).
    assert (t0 <= last' <= t0 + 3000) as Hl' by (unfold last'; destruct (got t); lia).
    rewrite (proj2 (Z.ltb_ge _ _)) by (unfold last'; destruct (got t); lia). by apply IH.
Qed.

(** [C25] Discovery on the local network: starting from a list without
    duplicates, the list on disk afterwards names every peer once, those it
    named before and those that answered; it shows as online exactly the ones
    that answered, with all the addresses they answered from (and no others, when
    no two users share an id); and a device that allows discovery and whose pong
    arrives on some socket within three seconds, with another hardware address
    than that socket's, is on it and online.  The threads' answers may be
    received in any order. *)
Theorem lan_discovery loaded (sockets : list (option IpAddr * Z * list Turn)) responses : NoDup (key <$> loaded) ->
  responses.*2 ≡ₚ concat ((fun s => wait s.1.1 s.1.2 None s.2) <$> sockets) ->
  let scan := handle_received_peers loaded responses in
  stored scan = peers scan /\
  tells loaded (concat ((fun s => wait s.1.1 s.1.2 None s.2) <$> sockets)) (peers scan) /\
  forall h a pong local start before from now after,
    (local, start, before ++ mkTurn now (Some (from, pong)) :: after) ∈ sockets ->
    answer h a PING = Some pong -> Forall (fun t => start <= at_ms t <= start + 3000) before ->
    foreign (own_mac local from) (mac pong) = true ->
    exists p, p ∈ peers scan /\ key p = (my_id h, active_username h) /\ online p = true /\ show_ip from ∈ dom (ip_mac p).
Proof.
  intros Hn Hp scan. set (outs := concat _) in *.
  assert (Forall (fun p => online p = true) outs) as Hon.
  { apply Forall_concat, Forall_fmap, Forall_true. intros [[l st] ts]. simpl. by apply answers_online. }
  assert (tells loaded outs (peers scan)) as T.
  { apply (tells_perm _ _ _ _ Hp). apply responses_tell; [done|]. by rewrite Hp. }
  split; [done|]. split; [done|]. intros h a pong local start before from now after Hs Ha Hb Hf.
  assert (cmd pong = str "pong" /\ pd_id pong = my_id h /\ pd_username pong = active_username h) as (Hc & Hi & Hu).
  { unfold answer in Ha. destruct (_ && _); [|done]. case_bool_decide; [done|]. destruct a; [|done]. by injection Ha as <-. }
  assert (peer_of show_ip from pong ∈ outs) as Ho.
  { apply list_elem_of_In, in_concat. eexists. split; [apply list_elem_of_In, list_elem_of_fmap; eexists; split; [reflexivity|exact Hs]|].
    apply list_elem_of_In. apply (answers_in_time local start); try done. simpl. lia. }
  assert (key (peer_of show_ip from pong) = (my_id h, active_username h)) as Hk by (unfold key; simpl; congruence).
  destruct (proj1 (key_in (my_id h, active_username h) (peers scan))) as (p & Hps & Hpk).
  { apply (tells_all _ _ _ T). right. rewrite <- Hk. by apply list_elem_of_fmap_2. }
  exists p. split; [done|]. split; [done|]. split.
  - apply (tells_online _ _ _ T p Hps). rewrite Hpk, <- Hk. by apply list_elem_of_fmap_2.
  - apply (tells_addresses _ _ _ T p _ Hps Ho); [congruence|]. simpl. set_solver.
Qed.
End Answers.

(** A machine with a hardware address does not list itself. *)
Lemma own_pong_ignored show_ip interfaces by_peer local from p now : mac p <> [] ->
  mac p = own_mac interfaces by_peer local from -> turn_out show_ip interfaces by_peer local (mkTurn now (Some (from, p))) = [].
Proof.
  intros Hne Hm. unfold turn_out. simpl. rewrite <- Hm. assert (foreign (mac p) (mac p) = false) as ->; [|by rewrite andb_false_r].
  unfold foreign. rewrite bool_decide_true by done. by destruct (mac p).
Qed.

(** ** Witness *)
Definition lan_host : Host :=
  mkHost (mkSettings ∅ ∅ ∅) (str "123") (str "localhost") (str "ann") (str "Linux") [mkInterface [[Byte.x02]] [] (Some (str "aa:bb"))].
Definition lan_pong : PeerDiscovery := default PING (answer lan_host (Some (V4 [Byte.x02])) PING).
Definition lan_show (a : IpAddr) : bytes := match a with V4 a | V6 a => a end.
Definition lan_sockets : list (option IpAddr * Z * list Turn) :=
  [(Some (V4 [Byte.x01]), 0, [mkTurn 10 None] ++ mkTurn 20 (Some (V4 [Byte.x02], lan_pong)) :: [mkTurn 4000 None])].

Lemma lan_discovery_witness :
  exists p, p ∈ peers (handle_received_peers [mkPeer (str "9") [] [] [] true ∅] [(true, peer_of lan_show (V4 [Byte.x02]) lan_pong)]) /\
    key p = (str "123", str "ann") /\ online p = true /\ [Byte.x02] ∈ dom (ip_mac p).
Proof.
  destruct (lan_discovery lan_show [mkInterface [[Byte.x01]] [] (Some (str "cc:dd"))] (fun _ => None)
    [mkPeer (str "9") [] [] [] true ∅] lan_sockets [(true, peer_of lan_show (V4 [Byte.x02]) lan_pong)]) as (_ & _ & H).
  - repeat constructor. set_solver.
  - vm_compute. reflexivity.
  - refine (H lan_host (Some (V4 [Byte.x02])) lan_pong (Some (V4 [Byte.x01])) 0 [mkTurn 10 None] (V4 [Byte.x02]) 20 [mkTurn 4000 None] _ _ _ _).
    + left.
    + reflexivity.
    + repeat constructor; simpl; lia.
    + vm_compute. reflexivity.
Defined.
