(* ===== verification/Tunnel.v ===== *)
(** * Port forwarding ([src/port_forward.rs], [try_port_forward_loop] of connection.rs)

    A viewer listens on a local port.  For each program that connects it logs in
    to the device, keeps what the program writes in the meantime, and then turns
    the framed, sealed stream into a raw one: from there on both sides copy bytes
    between their sockets.  The switch is the delicate part: a framed message that
    arrives after the device switched would be copied into the forwarded
    connection.  [inbox] is the abstract view of one direction of the stream,
    messages and then raw bytes, that the byte-level model of [Tcp] implements;
    the two ends and the wires between them are one state machine. *)
From S2P Require Import Prelude.
From S2P Require Import BytesCodec.
From S2P Require Import Crypto.
From S2P Require Import Tcp.

(** ** One direction of a stream *)
Section Inbox.
Context {SB : Secretbox}.

Definition short (c : BytesCodec) (f : bytes) : Prop := len f <= 0x3FFFFFFF /\ len f <= max_packet_length c.

(** What is buffered in [b] and still on the wire [w] are the frames [fs] (the
    header of the first may be decoded) and then the bytes [r]. *)
Definition reads (c : BytesCodec) (b w : bytes) (fs : list bytes) (r : bytes) : Prop :=
  raw c = false /\ Forall (short c) fs /\
  match state c with
  | Head => b ++ w = concat (frame <$> fs) ++ r
  | Data n => exists f fs', fs = f :: fs' /\ n = len f /\ b ++ w = f ++ concat (frame <$> fs') ++ r
  end.

Lemma decode_head_none c src src' k : decode_head c src = (Ok None, src', k) -> src' = src.
Proof. unfold decode_head. repeat case_match; congruence. Qed.

Lemma split_prefix (a b c : bytes) w : a ++ w = b ++ c -> len b <= len a ->
  takeZ (len b) a = b /\ dropZ (len b) a ++ w = c.
Proof.
  intros E Hl. unfold takeZ, dropZ, len in *. rewrite Nat2Z.id.
  assert (length b <= length a)%nat by lia. split.
  - rewrite <- (take_app_le a w) by done. rewrite E. apply take_app_length.
  - rewrite <- drop_app_le by done. rewrite E. apply drop_app_length.
Qed.

Lemma payload_reads c src w f fs r : raw c = false -> Forall (short c) (f :: fs) -> src ++ w = f ++ concat (frame <$> fs) ++ r ->
  match decode_payload (len f) (set_state c (Data (len f))) src with
  | (Ok None, c', b') => reads c' b' w (f :: fs) r
  | (Ok (Some d), c', b') => d = f /\ reads c' b' w fs r
  | (Err _, _, _) => False
  end.
Proof.
  intros Hr Hs E. unfold decode_payload, decode_data. destruct (Z.ltb_spec (len src) (len f)).
  - split; [done|]. split; [done|]. simpl. by exists f, fs.
  - destruct (split_prefix _ _ _ _ E H) as [-> Ed]. split; [done|]. split; [done|]. split; [by inversion Hs|]. done.
Qed.

Lemma decode_reads c b w f fs r : reads c b w (f :: fs) r ->
  match decode c b with
  | (Ok None, c', b') => reads c' b' w (f :: fs) r
  | (Ok (Some d), c', b') => d = f /\ reads c' b' w fs r
  | (Err _, _, _) => False
  end.
Proof.
  intros (Hr & Hs & Hst). unfold decode. rewrite Hr. destruct (state c) as [|n] eqn:S.
  - assert (b ++ w = header (len f) ++ (f ++ concat (frame <$> fs) ++ r)) as E
      by (rewrite Hst; simpl; unfold frame at 1; by rewrite <- !app_assoc).
    inversion Hs as [|?? [Hf1 Hf2] Hs']; subst. pose proof (len_nonneg f) as H0.
    pose proof (decode_head_header c (len f) (f ++ concat (frame <$> fs) ++ r) (conj H0 Hf1) Hf2) as HH.
    destruct (decode_head c b) as [[[[n'|]|e] src'] k] eqn:D.
    + destruct (decode_head_app c b w _ _ _ D ltac:(done)) as [k' D']. rewrite E, HH in D'. injection D' as <- Es _.
      apply payload_reads; [done|done|by symmetry].
    + apply decode_head_none in D. subst src'. split; [done|]. split; [done|]. by rewrite S.
    + destruct (decode_head_app c b w _ _ _ D ltac:(done)) as [k' D']. rewrite E, HH in D'. done.
  - destruct Hst as (f' & fs' & [= <- <-] & -> & E).
    pose proof (payload_reads c b w f fs r Hr Hs E) as P.
    replace (set_state c (Data (len f))) with c in P by (destruct c; simpl in *; by subst). exact P.
Qed.

Lemma decode_kept c b o c' b' : decode c b = (o, c', b') -> raw c' = raw c /\ max_packet_length c' = max_packet_length c.
Proof. unfold decode, decode_payload, decode_data. intros H. repeat case_match; simplify_eq; done. Qed.

Lemma decode_nothing c w : reads c [] w [] [] -> w = [] /\ decode c [] = (Ok None, c, []).
Proof.
  intros (Hr & _ & Hst). unfold decode. rewrite Hr. destruct (state c); [|by destruct Hst as (? & ? & ? & _)].
  simpl in Hst. by subst.
Qed.

Lemma reads_extend c b w fs r x : reads c b w fs r -> reads c b (w ++ x) fs (r ++ x).
Proof.
  intros (Hr & Hs & Hst). split; [done|]. split; [done|]. destruct (state c).
  - by rewrite app_assoc, Hst, <- app_assoc.
  - destruct Hst as (f & fs' & -> & -> & E). exists f, fs'. split; [done|]. split; [done|].
    by rewrite app_assoc, E, <- !app_assoc.
Qed.
Lemma reads_frame c b w fs f : reads c b w fs [] -> short c f -> reads c b (w ++ frame f) (fs ++ [f]) [].
Proof.
  intros (Hr & Hs & Hst) Hf. split; [done|]. split; [apply Forall_app; split; [done|by apply Forall_singleton]|]. destruct (state c).
  - rewrite app_assoc, Hst, fmap_app, concat_app. simpl. by rewrite !app_nil_r.
  - destruct Hst as (f0 & fs' & -> & -> & E). exists f0, (fs' ++ [f]). split; [done|]. split; [done|].
    rewrite app_assoc, E, fmap_app, concat_app. simpl. by rewrite !app_nil_r, app_assoc.
Qed.
Lemma reads_arrive c b w fs r n : reads c b w fs r -> reads c (b ++ take n w) (drop n w) fs r.
Proof. unfold reads. by rewrite <- app_assoc, take_drop. Qed.

(** *** Sealed messages *)
Fixpoint adv (seq : Z) (n : nat) : Z := match n with O => seq | S n => adv (u64_of (seq + 1)) n end.
Fixpoint seal_seq (key : bytes) (seq : Z) (ms : list bytes) : list bytes :=
  match ms with
  | [] => []
  | m :: ms => seal m (get_nonce (u64_of (seq + 1))) key :: seal_seq key (u64_of (seq + 1)) ms
  end.
Definition sealed (o : option Encrypt) (ms : list bytes) : list bytes :=
  match o with Some e => seal_seq (enc_key e) (dec_seq e) ms | None => ms end.

Lemma adv_snoc seq n : adv seq (S n) = u64_of (adv seq n + 1).
Proof. revert seq. induction n as [|n IH]; intros seq; [done|]. simpl in *. by rewrite IH. Qed.
Lemma seal_seq_snoc key seq ms m :
  seal_seq key seq (ms ++ [m]) = seal_seq key seq ms ++ [seal m (get_nonce (u64_of (adv seq (length ms) + 1))) key].
Proof. revert seq. induction ms as [|a ms IH]; intros seq; simpl; [done|]. by rewrite IH. Qed.

(** The messages [ms] and then the bytes [r] are on their way to [s]. *)
Definition inbox (s : FramedStream) (w : bytes) (ms : list bytes) (r : bytes) : Prop :=
  reads (codec s) (rbuf s) w (sealed (encryption s) ms) r.
(** Both ends have the same key and will use the same nonce, [n] messages being
    on their way. *)
Definition agree (tx rx : FramedStream) (n : nat) : Prop :=
  match encryption tx, encryption rx with
  | Some et, Some er => enc_key et = enc_key er /\ enc_seq et = adv (dec_seq er) n
  | None, None => True
  | _, _ => False
  end.

Context {SBL : SecretboxLaws}.
Definition MAX_MSG : Z := 0x3FFFFFEF.
Definition ready (s : FramedStream) : Prop := raw (codec s) = false /\ max_packet_length (codec s) = usize_max.
(** What a receiver's view depends on. *)
Definition same_reader (s s' : FramedStream) : Prop :=
  codec s' = codec s /\ rbuf s' = rbuf s /\
  match encryption s, encryption s' with
  | Some e, Some e' => enc_key e' = enc_key e /\ dec_seq e' = dec_seq e
  | None, None => True
  | _, _ => False
  end.

Lemma same_reader_inbox s s' w ms r : same_reader s s' -> inbox s w ms r -> inbox s' w ms r.
Proof.
  intros (Hc & Hb & He). unfold inbox, sealed. rewrite Hc, Hb.
  destruct (encryption s), (encryption s'); try done. by destruct He as [-> ->].
Qed.
Lemma same_reader_agree s s' tx n : same_reader s s' -> agree tx s n -> agree tx s' n.
Proof.
  intros (_ & _ & He). unfold agree. destruct (encryption tx), (encryption s), (encryption s'); try done.
  by destruct He as [-> ->].
Qed.

Lemma frame_room n : n <= 0x3FFFFFFF -> n <= usize_max.
Proof. unfold usize_max, u64_max. lia. Qed.

(** Sending one message adds it to the other side's inbox. *)
Lemma send_inbox tx rx w ms m : ready tx -> ready rx -> len m <= MAX_MSG -> agree tx rx (length ms) -> inbox rx w ms [] ->
  exists b tx', send_raw tx m = (Ok b, tx') /\ inbox rx (w ++ b) (ms ++ [m]) [] /\ agree tx' rx (length (ms ++ [m])) /\
    same_reader tx tx' /\ ready tx'.
Proof.
  intros [Hr Hmx] [Hrr Hmr] Hm Ha Hi. unfold MAX_MSG in Hm. unfold send_raw, agree, inbox, sealed in *.
  rewrite length_app, Nat.add_1_r. pose proof (len_nonneg m) as Hp.
  destruct (encryption tx) as [et|] eqn:Et, (encryption rx) as [er|] eqn:Er; try done.
  - destruct Ha as [Hk Hs]. unfold enc. cbn [with_encryption].
    set (c := seal m _ _). assert (len c = 16 + len m) as Hc by (unfold c; rewrite seal_len; unfold MACBYTES; lia).
    exists (frame c). eexists. split.
    { unfold send_bytes. cbn [codec with_encryption]. rewrite encode_spec; [reflexivity|exact Hr|lia]. }
    rewrite seal_seq_snoc. cbn [encryption with_encryption enc_key enc_seq dec_seq]. split; [|split; [|split; [|done]]].
    + unfold c in *. rewrite <- Hs. rewrite <- Hk at 2. apply reads_frame; [done|]. split; [lia|]. rewrite Hmr. apply frame_room. lia.
    + split; [done|]. by rewrite adv_snoc, Hs.
    + split; [done|]. split; [done|]. cbn [encryption with_encryption]. rewrite Et. done.
  - exists (frame m), tx. split; [unfold send_bytes; rewrite encode_spec; [reflexivity|exact Hr|lia]|]. rewrite Et. split; [|split; [done|split; [|done]]].
    + apply reads_frame; [done|]. split; [lia|]. rewrite Hmr. apply frame_room. lia.
    + split; [done|]. split; [done|]. by rewrite Et.
Qed.

(** Reading: nothing yet, or the first message. *)
Lemma next_inbox tx rx w m ms r : ready rx -> inbox rx w (m :: ms) r -> exists rx', ready rx' /\
  ((next rx = (None, rx') /\ inbox rx' w (m :: ms) r /\ (forall n, agree tx rx n -> agree tx rx' n)) \/
   (next rx = (Some (Ok m), rx') /\ inbox rx' w ms r /\ (forall n, agree tx rx (S n) -> agree tx rx' n))) /\
  (forall y n, agree rx y n -> agree rx' y n).
Proof.
  intros [Hrr Hmr] Hi. unfold inbox in Hi. unfold next.
  assert (exists f fs, sealed (encryption rx) (m :: ms) = f :: fs /\ exists o, open_frame (encryption rx) f = (Ok m, o) /\
    fs = sealed o ms /\ (forall n, agree tx rx (S n) -> agree tx (with_encryption rx o) n) /\
    forall y n, agree rx y n -> agree (with_encryption rx o) y n) as (f & fs & Ef & o & Ho & -> & Hag & Hag2).
  { unfold agree, sealed. destruct (encryption rx) as [er|]; simpl.
    - do 2 eexists. split; [done|]. unfold dec. pose proof (seal_len m (get_nonce (u64_of (dec_seq er + 1))) (enc_key er)) as Hl.
      pose proof (len_nonneg m). rewrite (proj2 (Z.leb_gt _ _)) by (rewrite Hl; unfold MACBYTES; lia). rewrite open_seal.
      eexists. split; [done|]. split; [done|]. simpl. split; [done|]. intros y n. by destruct (encryption y).
    - do 2 eexists. split; [done|]. eexists. split; [done|]. split; [done|]. simpl. split; [|done]. intros n. by destruct (encryption tx). }
  rewrite Ef in Hi. pose proof (decode_reads _ _ _ _ _ _ Hi) as D.
  destruct (decode (codec rx) (rbuf rx)) as [[[[d|]|e] c'] b'] eqn:E; [| |done]; apply decode_kept in E as [E1 E2].
  - destruct D as [-> D]. rewrite Ho. eexists. split; [|split; [right; split; [done|]; split; [exact D|exact Hag]|exact Hag2]].
    split; simpl; congruence.
  - eexists. split; [|split; [left; split; [done|]; split|]]; [split; simpl; congruence| |done|done].
    unfold inbox. simpl. rewrite Ef. exact D.
Qed.

Lemma next_nothing rx w : inbox rx w [] [] -> rbuf rx = [] /\ w = [] /\ next rx = (None, rx).
Proof.
  unfold inbox, next. destruct rx as [c b o t]. simpl. intros H.
  assert (b = [] /\ w = []) as [-> ->].
  { destruct H as (_ & _ & H). replace (sealed o []) with (@nil bytes) in H by (by destruct o).
    destruct (state c); [by apply app_nil in H|]. by destruct H as (? & ? & ? & _). }
  replace (sealed o []) with (@nil bytes) in H by (by destruct o). apply decode_nothing in H as [_ ->]. done.
Qed.

(** A reader that turns raw has the raw bytes before it. *)
Lemma inbox_raw rx w r : inbox rx w [] r -> rbuf rx ++ w = r.
Proof.
  unfold inbox. replace (sealed (encryption rx) []) with (@nil bytes) by (by destruct (encryption rx)).
  intros (_ & _ & H). destruct (state (codec rx)); [done|]. by destruct H as (? & ? & ? & _).
Qed.
Lemma next_raw rx : raw (codec rx) = true -> encryption rx = None ->
  next rx = (if decide (rbuf rx = []) then None else Some (Ok (rbuf rx)), with_codec rx (codec rx) []).
Proof.
  intros Hr He. unfold next, decode. rewrite Hr. destruct (decide (rbuf rx = [])) as [E|E]; [by rewrite E|].
  unfold takeZ, dropZ, len. rewrite Nat2Z.id, firstn_all, drop_all. simpl. rewrite He. simpl. by destruct rx; simpl in *; subst.
Qed.
Lemma send_bytes_raw tx b : raw (codec tx) = true -> send_bytes tx b = Ok b.
Proof. intros Hr. unfold send_bytes, encode. by rewrite Hr. Qed.

(** A message that has arrived in full is read. *)
Lemma payload_complete c src f fs r : src = f ++ concat (frame <$> fs) ++ r ->
  exists c' b', decode_payload (len f) c src = (Ok (Some f), c', b').
Proof.
  intros ->. unfold decode_payload, decode_data. pose proof (len_nonneg (concat (frame <$> fs) ++ r)) as Hn.
  rewrite (proj2 (Z.ltb_ge _ _)) by (rewrite len_app; lia).
  destruct (split_prefix (f ++ concat (frame <$> fs) ++ r) f (concat (frame <$> fs) ++ r) []) as [-> _];
    [by rewrite app_nil_r|rewrite len_app; lia|eauto].
Qed.
Lemma decode_complete c b f fs r : reads c b [] (f :: fs) r -> exists c' b', decode c b = (Ok (Some f), c', b').
Proof.
  intros (Hr & Hs & Hst). unfold decode. rewrite Hr. rewrite app_nil_r in Hst. destruct (state c) as [|n] eqn:S.
  - inversion Hs as [|?? [Hf1 Hf2] Hs']; subst.
    replace (concat (frame <$> f :: fs) ++ r) with (header (len f) ++ (f ++ concat (frame <$> fs) ++ r))
      by (simpl; unfold frame; by rewrite <- !app_assoc).
    rewrite decode_head_header by (pose proof (len_nonneg f); lia). by eapply payload_complete.
  - destruct Hst as (f' & fs' & [= <- <-] & -> & E). by eapply payload_complete.
Qed.
Lemma next_complete rx m ms r : inbox rx [] (m :: ms) r -> exists x s, next rx = (Some x, s).
Proof.
  unfold inbox, next. intros H. destruct (sealed (encryption rx) (m :: ms)) as [|f fs] eqn:E; [destruct (encryption rx); discriminate E|].
  apply decode_complete in H as (c' & b' & ->). destruct (open_frame (encryption rx) f). eauto.
Qed.
End Inbox.

(** ** The two ends *)

(** What the two loops tell apart of a message: the login answer that opens the
    session, a [TestDelay] of the device or its reply, anything else. *)
Inductive Kind := KPeerInfo | KDelay | KOther.
#[export] Instance Kind_eq_dec : EqDecision Kind.
Proof. solve_decision. Defined.
Inductive VPhase := LoggingIn | Forwarding | VClosed.
Inductive DPhase := Framed | Raw | DClosed.

(** The viewer's stream with what the local program wrote before the login was
    done; the device's with its login state and the outstanding [TestDelay]; the
    two wires; what was written to the target and to the local program.  For the
    statements: what these two wrote, and how many messages of its own the viewer
    has sent that the device has not read yet.  A run ends when a side closes. *)
Record World := mkWorld {
  v : FramedStream;
  vphase : VPhase;
  buffer : bytes;
  d : FramedStream;
  dphase : DPhase;
  authorized : bool;
  last_test_delay : bool;
  v2d : bytes;
  d2v : bytes;
  to_target : bytes;
  to_app : bytes;
  app_sent : bytes;
  target_sent : bytes;
  unread : nat
}.

Definition with_v (s : FramedStream) (p : VPhase) (b : bytes) (wire : bytes) (w : World) : World :=
  mkWorld s p b (d w) (dphase w) (authorized w) (last_test_delay w) wire (d2v w) (to_target w) (to_app w) (app_sent w) (target_sent w) (unread w).
Definition with_d (s : FramedStream) (p : DPhase) (a t : bool) (wire : bytes) (w : World) : World :=
  mkWorld (v w) (vphase w) (buffer w) s p a t (v2d w) wire (to_target w) (to_app w) (app_sent w) (target_sent w) (unread w).
Definition arrive_v (n : nat) (w : World) : World :=
  mkWorld (deliver (v w) (take n (d2v w))) (vphase w) (buffer w) (d w) (dphase w) (authorized w) (last_test_delay w) (v2d w) (drop n (d2v w))
    (to_target w) (to_app w) (app_sent w) (target_sent w) (unread w).
Definition arrive_d (n : nat) (w : World) : World :=
  mkWorld (v w) (vphase w) (buffer w) (deliver (d w) (take n (v2d w))) (dphase w) (authorized w) (last_test_delay w) (drop n (v2d w)) (d2v w)
    (to_target w) (to_app w) (app_sent w) (target_sent w) (unread w).
Definition give (target app : bytes) (w : World) : World :=
  mkWorld (v w) (vphase w) (buffer w) (d w) (dphase w) (authorized w) (last_test_delay w) (v2d w) (d2v w)
    (to_target w ++ target) (to_app w ++ app) (app_sent w) (target_sent w) (unread w).
Definition wrote (app target : bytes) (w : World) : World :=
  mkWorld (v w) (vphase w) (buffer w) (d w) (dphase w) (authorized w) (last_test_delay w) (v2d w) (d2v w)
    (to_target w) (to_app w) (app_sent w ++ app) (target_sent w ++ target) (unread w).
Definition set_unread (n : nat) (w : World) : World :=
  mkWorld (v w) (vphase w) (buffer w) (d w) (dphase w) (authorized w) (last_test_delay w) (v2d w) (d2v w)
    (to_target w) (to_app w) (app_sent w) (target_sent w) n.

Section Tunnel.
Context {SB : Secretbox} (kind : bytes -> Kind) (peer_info test_delay : bytes).

(** A framed message of the viewer or the device; errors are only logged. *)
Definition viewer_sends (m : bytes) (w : World) : World :=
  let '(r, s) := send_raw (v w) m in
  with_v s (vphase w) (buffer w) (v2d w ++ match r with Ok b => b | Err _ => [] end) w.
Definition device_sends (m : bytes) (w : World) : World :=
  let '(r, s) := send_raw (d w) m in
  with_d s (dphase w) (authorized w) (last_test_delay w) (d2v w ++ match r with Ok b => b | Err _ => [] end) w.

(** *** The viewer: [connect_and_login], then [run_forward] *)
Definition on_app (b : bytes) (w : World) : World :=
  let w := wrote b [] w in
  match vphase w with
  | LoggingIn => with_v (v w) LoggingIn (buffer w ++ b) (v2d w) w
  | Forwarding => with_v (v w) Forwarding (buffer w) (v2d w ++ match send_bytes (v w) b with Ok x => x | Err _ => [] end) w
  | VClosed => w
  end.
(** The end of the login loop: the stream turns raw and the buffer is sent. *)
Definition start_forward (w : World) : World :=
  let s := set_raw (v w) in
  with_v s Forwarding []
    (v2d w ++ if bool_decide (buffer w = []) then [] else match send_bytes s (buffer w) with Ok x => x | Err _ => [] end) w.
Definition login_poll (w : World) : World :=
  let '(r, s) := next (v w) in
  let w := with_v s LoggingIn (buffer w) (v2d w) w in
  match r with
  | None => w
  | Some (Err _) => with_v s VClosed (buffer w) (v2d w) w
  | Some (Ok m) =>
      match kind m with
      | KPeerInfo => start_forward w
      | KDelay => viewer_sends m w
      | KOther => w
      end
  end.
Definition run_forward (w : World) : World :=
  let '(r, s) := next (v w) in
  let w := with_v s Forwarding (buffer w) (v2d w) w in
  match r with
  | None => w
  | Some (Err _) => with_v s VClosed (buffer w) (v2d w) w
  | Some (Ok b) => give [] b w
  end.
Definition poll_v (w : World) : World :=
  match vphase w with LoggingIn => login_poll w | Forwarding => run_forward w | VClosed => w end.

(** *** The device: the message loop, then [try_port_forward_loop] *)
Definition go_raw (w : World) : World := with_d (set_raw (d w)) Raw (authorized w) (last_test_delay w) (d2v w) w.
(** The login answer of a connection with a forwarding socket. *)
Definition log_in (w : World) : World :=
  let w := device_sends peer_info w in with_d (d w) (dphase w) true (last_test_delay w) (d2v w) w.
Definition on_target (b : bytes) (w : World) : World :=
  match dphase w with
  | Raw =>
      let w := wrote [] b w in
      with_d (d w) Raw (authorized w) (last_test_delay w) (d2v w ++ match send_bytes (d w) b with Ok x => x | Err _ => [] end) w
  | _ => w
  end.
(** [accepts]: the login logic lets the viewer in on this message. *)
Definition on_frame (accepts : bool) (w : World) : World :=
  let '(r, s) := next (d w) in
  let w := with_d s Framed (authorized w) (last_test_delay w) (d2v w) w in
  match r with
  | None => w
  | Some (Err _) => with_d s DClosed (authorized w) (last_test_delay w) (d2v w) w
  | Some (Ok m) =>
      let w :=
        match kind m with
        | KDelay => with_d (d w) Framed (authorized w) false (d2v w) w
        | _ =>
            let w := set_unread (pred (unread w)) w in
            if negb (authorized w) && accepts then log_in w else w
        end in
      if authorized w && negb (last_test_delay w) then go_raw w else w
  end.
Definition try_port_forward_loop (w : World) : World :=
  let '(r, s) := next (d w) in
  let w := with_d s Raw (authorized w) (last_test_delay w) (d2v w) w in
  match r with
  | None => w
  | Some (Err _) => with_d s DClosed (authorized w) (last_test_delay w) (d2v w) w
  | Some (Ok b) => give b [] w
  end.
Definition poll_d (accepts : bool) (w : World) : World :=
  match dphase w with Framed => on_frame accepts w | Raw => try_port_forward_loop w | DClosed => w end.
(** The local user clicks "accept": the viewer is let in unless it is already,
    and the message loop is left. *)
Definition on_click (w : World) : World :=
  match dphase w with Framed => go_raw (if authorized w then w else log_in w) | _ => w end.
Definition on_delay_timer (w : World) : World :=
  match dphase w with
  | Framed =>
      if negb (last_test_delay w) && negb (authorized w) then
        let w := device_sends test_delay w in with_d (d w) Framed (authorized w) true (d2v w) w
      else w
  | _ => w
  end.

Inductive Action :=
| AppWrites (b : bytes)
| TargetWrites (b : bytes)
| ViewerSends (m : bytes)
| DeviceSends (m : bytes)
| DelayTimer
| Click
| ArriveV (n : nat)
| ArriveD (n : nat)
| PollV
| PollD (accepts : bool).
Definition act (a : Action) (w : World) : World :=
  match a with
  | AppWrites b => on_app b w
  | TargetWrites b => on_target b w
  | ViewerSends m => match vphase w with LoggingIn => set_unread (S (unread w)) (viewer_sends m w) | _ => w end
  | DeviceSends m => match dphase w with Framed => device_sends m w | _ => w end
  | DelayTimer => on_delay_timer w
  | Click => on_click w
  | ArriveV n => arrive_v n w
  | ArriveD n => arrive_d n w
  | PollV => poll_v w
  | PollD accepts => poll_d accepts w
  end.
Fixpoint acts (l : list Action) (w : World) : World := match l with [] => w | a :: l => acts l (act a w) end.

(** Two streams that agreed on a key, or on none. *)
Definition start (key : option bytes) : World :=
  let s := with_encryption from (Encrypt_new <$> key) in
  mkWorld s LoggingIn [] s Framed false false [] [] [] [] [] [] 0.

(** ** Nothing is lost, added or mixed up *)
Context {SBL : SecretboxLaws}.
Hypothesis kind_peer_info : kind peer_info = KPeerInfo.
Hypothesis kind_test_delay : kind test_delay = KDelay.
Hypothesis short_peer_info : len peer_info <= MAX_MSG.
Hypothesis short_test_delay : len test_delay <= MAX_MSG.

(** The viewer speaks only when the device has read what it said before and has
    not let it in yet; the device's own messages (permissions, chat, what the
    connection manager hands over) end when it lets the viewer in, although
    nothing in the code keeps them back while it waits for a reply to a
    [TestDelay] ([chat_injected]); and the local user accepts while nothing is on
    its way to the device ([click_injects_reply]). *)
Definition careful (a : Action) (w : World) : Prop :=
  match a with
  | ViewerSends m => kind m = KOther /\ len m <= MAX_MSG /\ unread w = O /\ authorized w = false
  | DeviceSends m => kind m = KOther /\ len m <= MAX_MSG /\ (dphase w = Framed -> authorized w = false)
  | Click => unread w = O /\ last_test_delay w = false
  | _ => True
  end.
Fixpoint careful_run (l : list Action) (w : World) : Prop :=
  match l with [] => True | a :: l => careful a w /\ careful_run l (act a w) end.

Definition delays (ms : list bytes) : nat := length (filter (fun m => kind m = KDelay) ms).
Definition others (ms : list bytes) : nat := length (filter (fun m => kind m <> KDelay) ms).
Definition no_answer (ms : list bytes) : Prop := Forall (fun m => kind m <> KPeerInfo) ms.
(** Everything in flight stays short. *)
Definition all_short (ms : list bytes) : Prop := Forall (fun m => len m <= MAX_MSG) ms.

(** [ms1] are the messages on their way to the device, [ms2] those to the viewer. *)
Record inv (w : World) (ms1 ms2 : list bytes) : Prop := {
  inv_v : match vphase w with
    | LoggingIn => ready (v w) /\ inbox (v w) (d2v w) ms2 (target_sent w) /\ buffer w = app_sent w /\ to_app w = [] /\
        (authorized w = false /\ no_answer ms2 \/ authorized w = true /\ exists l, ms2 = l ++ [peer_info] /\ no_answer l)
    | Forwarding => raw (codec (v w)) = true /\ encryption (v w) = None /\ ms2 = [] /\ authorized w = true /\
        to_app w ++ rbuf (v w) ++ d2v w = target_sent w
    | VClosed => False
    end;
  inv_d : match dphase w with
    | Framed => ready (d w) /\ inbox (d w) (v2d w) ms1 (match vphase w with LoggingIn => [] | _ => app_sent w end) /\
        to_target w = [] /\ target_sent w = []
    | Raw => raw (codec (d w)) = true /\ encryption (d w) = None /\ ms1 = [] /\ authorized w = true /\ last_test_delay w = false /\
        to_target w ++ rbuf (d w) ++ v2d w = match vphase w with LoggingIn => [] | _ => app_sent w end
    | DClosed => False
    end;
  inv_agree : vphase w = LoggingIn -> dphase w = Framed ->
    agree (v w) (d w) (length ms1) /\ (authorized w = false -> agree (d w) (v w) (length ms2));
  inv_delays : (delays ms1 + delays ms2)%nat = Nat.b2n (last_test_delay w);
  inv_others : others ms1 = unread w;
  inv_quiet : (unread w <= 1)%nat /\ (authorized w = true -> unread w = O);
  inv_short : all_short ms1 /\ all_short ms2
}.
(** A device that let the viewer in stays framed only for a reply it waits for. *)
Definition settled (w : World) : Prop := dphase w = Framed -> authorized w = true -> last_test_delay w = true.

Lemma delays_app a b : delays (a ++ b) = (delays a + delays b)%nat.
Proof. unfold delays. by rewrite filter_app, length_app. Qed.
Lemma others_app a b : others (a ++ b) = (others a + others b)%nat.
Proof. unfold others. by rewrite filter_app, length_app. Qed.
Lemma delays_cons m ms : delays (m :: ms) = ((if decide (kind m = KDelay) then 1 else 0) + delays ms)%nat.
Proof. unfold delays. rewrite filter_cons. by destruct (decide (kind m = KDelay)). Qed.
Lemma others_cons m ms : others (m :: ms) = ((if decide (kind m = KDelay) then 0 else 1) + others ms)%nat.
Proof. unfold others. rewrite filter_cons. by destruct (decide (kind m = KDelay)) as [E|E]; [rewrite decide_False by auto|rewrite decide_True by auto]. Qed.
Lemma empty_queue ms : delays ms = O -> others ms = O -> ms = [].
Proof. destruct ms as [|m ms]; [done|]. rewrite delays_cons, others_cons. destruct (decide (kind m = KDelay)); lia. Qed.
Lemma one_delay m : kind m = KDelay -> delays [m] = 1%nat /\ others [m] = O.
Proof. intros H. rewrite delays_cons, others_cons. rewrite !decide_True by done. done. Qed.
Lemma one_other m : kind m <> KDelay -> delays [m] = O /\ others [m] = 1%nat.
Proof. intros H. rewrite delays_cons, others_cons. rewrite !decide_False by done. done. Qed.

Lemma short_snoc ms m : all_short ms -> len m <= MAX_MSG -> all_short (ms ++ [m]).
Proof. intros H1 H2. apply Forall_app. split; [done|by apply Forall_singleton]. Qed.

(** Sending, on the whole state. *)
Lemma viewer_sends_spec m w ms1 : ready (v w) -> ready (d w) -> len m <= MAX_MSG -> agree (v w) (d w) (length ms1) ->
  inbox (d w) (v2d w) ms1 [] -> exists s b, viewer_sends m w = with_v s (vphase w) (buffer w) (v2d w ++ b) w /\
    ready s /\ same_reader (v w) s /\ agree s (d w) (length (ms1 ++ [m])) /\ inbox (d w) (v2d w ++ b) (ms1 ++ [m]) [].
Proof.
  intros Hv Hd Hm Ha Hi. destruct (send_inbox (v w) (d w) (v2d w) ms1 m Hv Hd Hm Ha Hi) as (b & s & E & Hi' & Ha' & Hs & Hr).
  exists s, b. unfold viewer_sends. rewrite E. done.
Qed.
Lemma device_sends_spec m w ms2 : ready (v w) -> ready (d w) -> len m <= MAX_MSG -> agree (d w) (v w) (length ms2) ->
  inbox (v w) (d2v w) ms2 [] -> exists s b, device_sends m w = with_d s (dphase w) (authorized w) (last_test_delay w) (d2v w ++ b) w /\
    ready s /\ same_reader (d w) s /\ agree s (v w) (length (ms2 ++ [m])) /\ inbox (v w) (d2v w ++ b) (ms2 ++ [m]) [].
Proof.
  intros Hv Hd Hm Ha Hi. destruct (send_inbox (d w) (v w) (d2v w) ms2 m Hd Hv Hm Ha Hi) as (b & s & E & Hi' & Ha' & Hs & Hr).
  exists s, b. unfold device_sends. rewrite E. done.
Qed.

(** A connection that is not let in is framed at both ends, with nothing raw. *)
Lemma not_in_yet w ms1 ms2 : inv w ms1 ms2 -> authorized w = false ->
  vphase w = LoggingIn /\ dphase w = Framed /\ ready (v w) /\ ready (d w) /\ inbox (d w) (v2d w) ms1 [] /\ inbox (v w) (d2v w) ms2 [] /\
  agree (v w) (d w) (length ms1) /\ agree (d w) (v w) (length ms2) /\ no_answer ms2 /\ target_sent w = [] /\ to_target w = [] /\
  to_app w = [] /\ buffer w = app_sent w.
Proof.
  intros [Iv Id Ia _ _ _ _] Ha. destruct (vphase w) eqn:V; [|by destruct Iv as (_ & _ & _ & ? & _); congruence|done].
  destruct (dphase w) eqn:D; [|by destruct Id as (_ & _ & _ & ? & _); congruence|done].
  destruct Iv as (R1 & I1 & B & T & [[_ N]|[? _]]); [|congruence]. destruct Id as (R2 & I2 & T2 & T3).
  destruct (Ia eq_refl eq_refl) as [A1 A2]. rewrite T3 in I1. auto 20.
Qed.

Lemma app_writes_inv b w ms1 ms2 : inv w ms1 ms2 -> inv (on_app b w) ms1 ms2.
Proof.
  intros [Iv Id Ia Ic Io Iq Is]. unfold on_app. simpl. destruct (vphase w) eqn:V; [| |done].
  - split; simpl; try done.
    + destruct Iv as (? & ? & -> & ? & ?). rewrite !app_nil_r. auto 10.
    + destruct (dphase w); try done. rewrite !app_nil_r. done.
  - destruct Iv as (R & E & -> & A & T). rewrite send_bytes_raw by done. split; simpl; try done.
    + rewrite app_nil_r. done.
    + destruct (dphase w); try done; rewrite ?app_nil_r.
      * destruct Id as (R2 & I2 & T2 & T3). split; [done|]. split; [by apply reads_extend|done].
      * destruct Id as (R2 & E2 & M & A2 & L & T2). do 5 (split; [done|]). rewrite <- T2. by rewrite <- !app_assoc.
Qed.

Lemma target_writes_inv b w ms1 ms2 : inv w ms1 ms2 -> inv (on_target b w) ms1 ms2.
Proof.
  intros H. unfold on_target. destruct (dphase w) eqn:D; [done| |done]. destruct H as [Iv Id Ia Ic Io Iq Is]. rewrite D in *. simpl.
  destruct Id as (R2 & E2 & M & A2 & L & T2). rewrite send_bytes_raw by done. split; simpl; try done.
  - destruct (vphase w); try done.
    + destruct Iv as (R & I & B & T & P). rewrite app_nil_r. split; [done|]. split; [by apply reads_extend|done].
    + destruct Iv as (R & E & -> & A & T). do 4 (split; [done|]). rewrite <- T. by rewrite <- !app_assoc.
  - rewrite app_nil_r. done.
Qed.

Lemma arrive_v_inv n w ms1 ms2 : inv w ms1 ms2 -> inv (arrive_v n w) ms1 ms2.
Proof.
  intros [Iv Id Ia Ic Io Iq Is]. split; simpl; try done.
  destruct (vphase w); try done.
  - destruct Iv as (R & I & ?). split; [done|]. split; [by apply reads_arrive|done].
  - destruct Iv as (R & E & -> & A & T). do 4 (split; [done|]). by rewrite <- app_assoc, take_drop.
Qed.
Lemma arrive_d_inv n w ms1 ms2 : inv w ms1 ms2 -> inv (arrive_d n w) ms1 ms2.
Proof.
  intros [Iv Id Ia Ic Io Iq Is]. split; simpl; try done.
  destruct (dphase w); try done.
  - destruct Id as (R & I & ?). split; [done|]. split; [by apply reads_arrive|done].
  - destruct Id as (R & E & M & A & L & T). do 5 (split; [done|]). by rewrite <- app_assoc, take_drop.
Qed.

Lemma viewer_sends_inv m w ms1 ms2 : inv w ms1 ms2 -> careful (ViewerSends m) w ->
  inv (act (ViewerSends m) w) (ms1 ++ [m]) ms2.
Proof.
  intros H (K & L & U & A). destruct (not_in_yet _ _ _ H A) as (V & D & R1 & R2 & I1 & I2 & A1 & A2 & N & T1 & T2 & T3 & B).
  destruct H as [Iv Id Ia Ic Io Iq Is]. simpl. rewrite V.
  destruct (viewer_sends_spec m w ms1 R1 R2 L A1 I1) as (s & b & -> & Rs & Sm & As & Is').
  destruct (one_other m ltac:(congruence)) as [D1 D2]. split; simpl; rewrite ?V, ?D in *; simpl.
  - split; [done|]. rewrite T1. split; [by apply (same_reader_inbox (v w))|auto].
  - done.
  - intros _ _. split; [done|]. intros _. by apply (same_reader_agree (v w)).
  - rewrite delays_app, D1. lia.
  - rewrite others_app, D2, Io, U. done.
  - split; [lia|congruence].
  - split; [apply short_snoc; [apply Is|done]|apply Is].
Qed.

Lemma device_sends_inv m w ms1 ms2 : inv w ms1 ms2 -> kind m = KOther -> len m <= MAX_MSG -> authorized w = false ->
  inv (device_sends m w) ms1 (ms2 ++ [m]).
Proof.
  intros H K L A. destruct (not_in_yet _ _ _ H A) as (V & D & R1 & R2 & I1 & I2 & A1 & A2 & N & T1 & T2 & T3 & B).
  destruct H as [Iv Id Ia Ic Io Iq Is].
  destruct (device_sends_spec m w ms2 R1 R2 L A2 I2) as (s & b & -> & Rs & Sm & As & Is').
  destruct (one_other m ltac:(congruence)) as [D1 D2]. split; simpl; rewrite ?V, ?D in *; simpl; try done.
  - split; [done|]. rewrite T1. split; [done|]. split; [done|]. split; [done|]. left. split; [done|].
    apply Forall_app. split; [done|apply Forall_singleton; congruence].
  - split; [done|]. split; [by apply (same_reader_inbox (d w))|done].
  - intros _ _. split; [by apply (same_reader_agree (d w))|done].
  - rewrite delays_app, D1. lia.
  - split; [apply Is|by apply short_snoc; [apply Is|]].
Qed.

Lemma delay_timer_inv w ms1 ms2 : inv w ms1 ms2 -> exists ms2', inv (on_delay_timer w) ms1 ms2'.
Proof.
  intros H. unfold on_delay_timer. destruct (dphase w) eqn:D; [|eauto..].
  destruct (last_test_delay w) eqn:L, (authorized w) eqn:A; simpl; [eauto..|].
  destruct (not_in_yet _ _ _ H A) as (V & _ & R1 & R2 & I1 & I2 & A1 & A2 & N & T1 & T2 & T3 & B).
  destruct H as [Iv Id Ia Ic Io Iq Is]. rewrite L in Ic. simpl in Ic.
  destruct (device_sends_spec test_delay w ms2 R1 R2 short_test_delay A2 I2) as (s & b & -> & Rs & Sm & As & Is').
  destruct (one_delay test_delay kind_test_delay) as [D1 D2].
  exists (ms2 ++ [test_delay]). split; simpl; rewrite ?V, ?D, ?A in *; simpl; try done.
  - split; [done|]. rewrite T1. split; [done|]. split; [done|]. split; [done|]. left. split; [done|].
    apply Forall_app. split; [done|apply Forall_singleton; congruence].
  - split; [done|]. split; [by apply (same_reader_inbox (d w))|]. done.
  - intros _ _. split; [by apply (same_reader_agree (d w))|done].
  - rewrite delays_app, D1. lia.
  - split; [apply Is|by apply short_snoc; [apply Is|]].
Qed.

(** *** Letting the viewer in and turning raw *)
Lemma log_in_inv w ms1 ms2 : inv w ms1 ms2 -> authorized w = false -> unread w = O -> inv (log_in w) ms1 (ms2 ++ [peer_info]).
Proof.
  intros H A U. destruct (not_in_yet _ _ _ H A) as (V & D & R1 & R2 & I1 & I2 & A1 & A2 & N & T1 & T2 & T3 & B).
  destruct H as [Iv Id Ia Ic Io Iq Is]. unfold log_in.
  destruct (device_sends_spec peer_info w ms2 R1 R2 short_peer_info A2 I2) as (s & b & -> & Rs & Sm & As & Is').
  destruct (one_other peer_info ltac:(congruence)) as [D1 D2]. split; simpl; rewrite ?V, ?D in *; simpl; try done.
  - split; [done|]. rewrite T1. split; [done|]. split; [done|]. split; [done|]. right. eauto.
  - split; [done|]. split; [by apply (same_reader_inbox (d w))|done].
  - intros _ _. split; [by apply (same_reader_agree (d w))|done].
  - rewrite delays_app, D1. lia.
  - split; [apply Iq|done].
  - split; [apply Is|apply short_snoc; [apply Is|done]].
Qed.

Lemma go_raw_inv w ms1 ms2 : inv w ms1 ms2 -> dphase w = Framed -> authorized w = true -> last_test_delay w = false ->
  inv (go_raw w) [] ms2.
Proof.
  intros [Iv Id Ia Ic Io Iq Is] D A L. rewrite D, L in *. simpl in Ic. destruct Id as (R2 & I2 & T2 & T3).
  assert (ms1 = []) as -> by (apply empty_queue; [lia|]; rewrite Io; by apply Iq).
  apply inbox_raw in I2. split; simpl; try done; rewrite ?L; simpl; try done.
  do 5 (split; [done|]). by rewrite T2.
Qed.

Lemma click_inv w ms1 ms2 : inv w ms1 ms2 -> careful Click w -> exists ms1' ms2', inv (on_click w) ms1' ms2'.
Proof.
  intros H [U L]. unfold on_click. destruct (dphase w) eqn:D; [|eauto..].
  destruct (authorized w) eqn:A; [exists [], ms2; by eapply go_raw_inv|].
  pose proof (log_in_inv _ _ _ H A U) as H'. exists [], (ms2 ++ [peer_info]).
  unfold log_in, device_sends in *. destruct (send_raw (d w) peer_info). by eapply go_raw_inv.
Qed.

(** *** The device reads *)
Lemma read_delay_inv s w m ms1 ms2 : inv w (m :: ms1) ms2 -> dphase w = Framed -> kind m = KDelay -> ready s ->
  inbox s (v2d w) ms1 (match vphase w with LoggingIn => [] | _ => app_sent w end) ->
  (forall n, agree (v w) (d w) (S n) -> agree (v w) s n) -> (forall y n, agree (d w) y n -> agree s y n) ->
  inv (with_d s Framed (authorized w) false (d2v w) w) ms1 ms2.
Proof.
  intros [Iv Id Ia Ic Io Iq Is] D K R I Ag1 Ag2. rewrite D in *. destruct Id as (R2 & I2 & T2 & T3).
  rewrite delays_cons in Ic. rewrite others_cons in Io. rewrite decide_True in Ic, Io by done. destruct Is as [S1 S2].
  split; simpl; try done.
  - intros V _. destruct (Ia V eq_refl). auto.
  - destruct (last_test_delay w); simpl in *; lia.
  - split; [by inversion S1|done].
Qed.
Lemma read_other_inv s w m ms1 ms2 : inv w (m :: ms1) ms2 -> dphase w = Framed -> kind m <> KDelay -> ready s ->
  inbox s (v2d w) ms1 (match vphase w with LoggingIn => [] | _ => app_sent w end) ->
  (forall n, agree (v w) (d w) (S n) -> agree (v w) s n) -> (forall y n, agree (d w) y n -> agree s y n) ->
  inv (set_unread (pred (unread w)) (with_d s Framed (authorized w) (last_test_delay w) (d2v w) w)) ms1 ms2 /\
  pred (unread w) = O /\ authorized w = false.
Proof.
  intros [Iv Id Ia Ic Io Iq Is] D K R I Ag1 Ag2. rewrite D in *. destruct Id as (R2 & I2 & T2 & T3).
  rewrite delays_cons in Ic. rewrite others_cons in Io. rewrite decide_False in Ic, Io by done. destruct Is as [S1 S2]. destruct Iq as [Q1 Q2].
  split; [|split; [lia|destruct (authorized w); [specialize (Q2 eq_refl); lia|done]]]. split; simpl; try done.
  - intros V _. destruct (Ia V eq_refl). auto.
  - lia.
  - split; [lia|]. intros A. rewrite Q2 by done. done.
  - split; [by inversion S1|done].
Qed.
(** The check after every message. *)
Lemma turn_raw_inv w ms1 ms2 : inv w ms1 ms2 -> dphase w = Framed ->
  exists ms1', inv (if authorized w && negb (last_test_delay w) then go_raw w else w) ms1' ms2.
Proof.
  intros H D. destruct (authorized w) eqn:A, (last_test_delay w) eqn:L; simpl; eauto. exists []. by eapply go_raw_inv.
Qed.
Lemma log_in_framed w : dphase w = Framed -> dphase (log_in w) = Framed.
Proof. intros D. unfold log_in, device_sends. destruct (send_raw (d w) peer_info). done. Qed.


(** A framed device with an empty queue has nothing to read. *)
Lemma framed_empty w ms2 : inv w [] ms2 -> settled w -> dphase w = Framed -> vphase w = LoggingIn.
Proof.
  intros [Iv Id Ia Ic Io Iq Is] Hs D. destruct (vphase w); [done| |done].
  destruct Iv as (_ & _ & -> & A & _). rewrite (Hs D A) in Ic. done.
Qed.

Lemma poll_d_inv accepts w ms1 ms2 : inv w ms1 ms2 -> settled w -> exists ms1' ms2', inv (poll_d accepts w) ms1' ms2'.
Proof.
  intros H Hs. unfold poll_d, on_frame, try_port_forward_loop. destruct (dphase w) eqn:D; [| |eauto].
  - assert (dphase w = Framed /\ ready (d w) /\ inbox (d w) (v2d w) ms1 (match vphase w with LoggingIn => [] | _ => app_sent w end)) as (_ & R & I)
      by (destruct H as [_ Id _ _ _ _ _]; rewrite D in Id; destruct Id as (? & ? & _); auto).
    destruct ms1 as [|m ms1].
    + rewrite (framed_empty _ _ H Hs D) in I. apply next_nothing in I as (_ & _ & ->). exists [], ms2.
      replace (with_d (d w) Framed (authorized w) (last_test_delay w) (d2v w) w) with w by (destruct w; simpl in *; by subst). done.
    + destruct (next_inbox (v w) (d w) (v2d w) m ms1 _ R I) as (s & Rs & [(-> & Is' & Ag1)|(-> & Is' & Ag1)] & Ag2).
      * exists (m :: ms1), ms2. destruct H as [Iv Id Ia Ic Io Iq Is]. rewrite D in *. split; simpl; try done.
        -- destruct Id as (_ & _ & T). auto.
        -- intros V _. destruct (Ia V eq_refl). auto.
      * destruct (decide (kind m = KDelay)) as [K|K].
        -- rewrite K. simpl. pose proof (read_delay_inv s w m ms1 ms2 H D K Rs Is' Ag1 Ag2) as H1.
           apply turn_raw_inv in H1 as [ms1' H1]; [eauto|done].
        -- destruct (read_other_inv s w m ms1 ms2 H D K Rs Is' Ag1 Ag2) as (H1 & U & A).
           assert (exists ms2', inv (if negb (authorized w) && accepts
             then log_in (set_unread (pred (unread w)) (with_d s Framed (authorized w) (last_test_delay w) (d2v w) w))
             else set_unread (pred (unread w)) (with_d s Framed (authorized w) (last_test_delay w) (d2v w) w)) ms1 ms2') as [ms2' H2].
           { rewrite A. destruct accepts; simpl; [|rewrite A in H1; eauto]. exists (ms2 ++ [peer_info]). apply log_in_inv; [by rewrite A in H1|done..]. }
           destruct (kind m) eqn:Km; [|done|]; simpl; (eapply turn_raw_inv in H2 as [ms1' H2];
             [eauto|destruct (negb (authorized w) && accepts); [by apply log_in_framed|done]]).
  - exists ms1, ms2. destruct H as [Iv Id Ia Ic Io Iq Is]. rewrite D in *. destruct Id as (R & E & M & A & L & T).
    rewrite next_raw by done. destruct (decide (rbuf (d w) = [])) as [B|B]; (split; simpl; try done).
    + do 5 (split; [done|]). by rewrite B in T.
    + by rewrite app_nil_r.
    + do 5 (split; [done|]). by rewrite <- T, <- app_assoc.
Qed.

(** *** The viewer reads *)
Definition answered (a : bool) (ms : list bytes) : Prop :=
  a = false /\ no_answer ms \/ a = true /\ exists l, ms = l ++ [peer_info] /\ no_answer l.
Lemma answered_tail a m ms : answered a (m :: ms) -> kind m <> KPeerInfo -> answered a ms.
Proof.
  intros [[-> N]|(-> & l & E & N)] K; [left; split; [done|by inversion N]|right; split; [done|]].
  destruct l as [|m' l]; [simplify_eq/=; congruence|]. injection E as -> ->. exists l. split; [done|by inversion N].
Qed.
Lemma answered_head a m ms : answered a (m :: ms) -> kind m = KPeerInfo -> a = true /\ ms = [].
Proof.
  intros [[-> N]|(-> & l & E & N)] K; [by inversion N|]. split; [done|].
  destruct l as [|m' l]; [by simplify_eq/=|]. injection E as -> ->. by inversion N.
Qed.

Lemma viewer_read_inv s w m ms1 ms2 : inv w ms1 (m :: ms2) -> vphase w = LoggingIn -> kind m = KOther -> ready s ->
  inbox s (d2v w) ms2 (target_sent w) ->
  (forall n, agree (d w) (v w) (S n) -> agree (d w) s n) -> (forall y n, agree (v w) y n -> agree s y n) ->
  inv (with_v s LoggingIn (buffer w) (v2d w) w) ms1 ms2.
Proof.
  intros [Iv Id Ia Ic Io Iq Is] V K R I Ag1 Ag2. rewrite V in *. destruct Iv as (_ & _ & B & T & An).
  rewrite delays_cons, decide_False in Ic by congruence. destruct Is as [S1 S2]. split; simpl; try done.
  - split; [done|]. split; [done|]. split; [done|]. split; [done|]. apply (answered_tail _ m); [done|congruence].
  - intros _ D. destruct (Ia eq_refl D) as [A1 A2]. auto.
  - split; [done|by inversion S2].
Qed.

Lemma viewer_reply_inv s w m ms1 ms2 : inv w ms1 (m :: ms2) -> vphase w = LoggingIn -> kind m = KDelay -> ready s ->
  inbox s (d2v w) ms2 (target_sent w) ->
  (forall n, agree (d w) (v w) (S n) -> agree (d w) s n) -> (forall y n, agree (v w) y n -> agree s y n) ->
  inv (viewer_sends m (with_v s LoggingIn (buffer w) (v2d w) w)) (ms1 ++ [m]) ms2.
Proof.
  intros [Iv Id Ia Ic Io Iq Is] V K R I Ag1 Ag2. rewrite V in *. destruct Iv as (_ & _ & B & T & An).
  rewrite delays_cons, decide_True in Ic by congruence. destruct Is as [S1 S2]. inversion S2 as [|?? Sm S2']; subst.
  destruct (last_test_delay w) eqn:L; simpl in Ic; [|lia].
  destruct (dphase w) eqn:D; [|by destruct Id as (_ & _ & _ & _ & ? & _)|done].
  destruct Id as (R2 & I2 & T2 & T3). destruct (Ia eq_refl eq_refl) as [A1 A2].
  destruct (viewer_sends_spec m (with_v s LoggingIn (buffer w) (v2d w) w) ms1 R R2 Sm (Ag2 _ _ A1) I2) as (s' & b & -> & Rs & Sr & As & Is').
  destruct (one_delay m K) as [D1 D2]. split; simpl; rewrite ?D, ?L; simpl; try done.
  - split; [done|]. split; [by apply (same_reader_inbox s)|]. split; [done|]. split; [done|]. apply (answered_tail _ m); [done|congruence].
  - intros _ _. split; [done|]. intros A. apply (same_reader_agree s); [done|]. apply Ag1, A2, A.
  - rewrite delays_app, D1. lia.
  - rewrite others_app, D2. lia.
  - split; [by apply short_snoc|done].
Qed.

Lemma start_forward_inv s w m ms1 ms2 : inv w ms1 (m :: ms2) -> vphase w = LoggingIn -> kind m = KPeerInfo ->
  inbox s (d2v w) ms2 (target_sent w) -> inv (start_forward (with_v s LoggingIn (buffer w) (v2d w) w)) ms1 [].
Proof.
  intros [Iv Id Ia Ic Io Iq Is] V K I. rewrite V in *. destruct Iv as (_ & _ & B & T & An).
  destruct (answered_head _ _ _ An K) as [A ->]. rewrite delays_cons, decide_False in Ic by congruence.
  apply inbox_raw in I. unfold start_forward. rewrite send_bytes_raw by done. cbn [buffer with_v].
  replace (if bool_decide (buffer w = []) then [] else buffer w) with (buffer w) by (case_bool_decide; congruence).
  destruct Is as [S1 _]. split; simpl; try done.
  - do 4 (split; [done|]). by rewrite T.
  - rewrite B. destruct (dphase w); [| |done].
    + destruct Id as (R2 & I2 & T2). split; [done|]. split; [by apply (reads_extend _ _ _ _ [])|done].
    + destruct Id as (R2 & E2 & M & A2 & L & T2). do 5 (split; [done|]). by rewrite !app_assoc, <- (app_assoc (to_target w)), T2.
  - split; [done|constructor].
Qed.

Lemma poll_v_inv w ms1 ms2 : inv w ms1 ms2 -> exists ms1' ms2', inv (poll_v w) ms1' ms2'.
Proof.
  intros H. unfold poll_v, login_poll, run_forward. destruct (vphase w) eqn:V; [| |eauto].
  - assert (ready (v w) /\ inbox (v w) (d2v w) ms2 (target_sent w) /\ answered (authorized w) ms2) as (R & I & An)
      by (destruct H as [Iv _ _ _ _ _ _]; rewrite V in Iv; destruct Iv as (? & ? & _ & _ & ?); auto).
    destruct ms2 as [|m ms2].
    + destruct An as [[A _]|(_ & l & E & _)]; [|by destruct l]. destruct (not_in_yet _ _ _ H A) as (_ & _ & _ & _ & _ & I2 & _).
      apply next_nothing in I2 as (_ & _ & ->). exists ms1, [].
      replace (with_v (v w) LoggingIn (buffer w) (v2d w) w) with w by (destruct w; simpl in *; by subst). done.
    + destruct (next_inbox (d w) (v w) (d2v w) m ms2 _ R I) as (s & Rs & [(-> & Is' & Ag1)|(-> & Is' & Ag1)] & Ag2).
      * exists ms1, (m :: ms2). destruct H as [Iv Id Ia Ic Io Iq Is]. rewrite V in *. split; simpl; try done.
        -- destruct Iv as (_ & _ & T). auto.
        -- intros _ D. destruct (Ia eq_refl D). auto.
      * destruct (kind m) eqn:K; simpl.
        -- exists ms1, []. by eapply start_forward_inv.
        -- exists (ms1 ++ [m]), ms2. by apply viewer_reply_inv.
        -- exists ms1, ms2. by eapply viewer_read_inv.
  - exists ms1, ms2. destruct H as [Iv Id Ia Ic Io Iq Is]. rewrite V in *. destruct Iv as (R & E & M & A & T).
    rewrite next_raw by done. destruct (decide (rbuf (v w) = [])) as [B|B]; (split; simpl; try done).
    + do 4 (split; [done|]). by rewrite B in T.
    + do 4 (split; [done|]). by rewrite <- T, <- app_assoc.
    + by rewrite app_nil_r.
Qed.

Lemma tunnel_act_inv a w ms1 ms2 : inv w ms1 ms2 -> settled w -> careful a w -> exists ms1' ms2', inv (act a w) ms1' ms2'.
Proof.
  intros H Hs C. destruct a; simpl.
  - eauto using app_writes_inv.
  - eauto using target_writes_inv.
  - exists (ms1 ++ [m]), ms2. by apply viewer_sends_inv.
  - destruct (dphase w) eqn:D; [|eauto..]. destruct C as (K & L & A). eauto using device_sends_inv.
  - eapply delay_timer_inv in H as [ms2' H]. eauto.
  - by eapply click_inv.
  - eauto using arrive_v_inv.
  - eauto using arrive_d_inv.
  - by eapply poll_v_inv.
  - by eapply poll_d_inv.
Qed.
Lemma act_settled a w : settled w -> settled (act a w).
Proof.
  unfold settled. intros H. destruct a; simpl;
    unfold on_app, on_target, viewer_sends, device_sends, on_delay_timer, on_click, poll_v, poll_d, login_poll, run_forward, on_frame, try_port_forward_loop, start_forward, go_raw, log_in, device_sends;
    repeat (unfold viewer_sends in *; case_match; simpl in *; try done).
  all: intros D A; destruct (authorized w), (last_test_delay w); simpl in *; try done; try congruence; by apply H.
Qed.

(** *** Whole runs *)
Definition reachable_inv (w : World) : Prop := settled w /\ exists ms1 ms2, inv w ms1 ms2.
Lemma start_inv key : reachable_inv (start key).
Proof.
  split; [by intros _ ?|]. exists [], []. split; simpl; try done.
  - split; [by split|]. split; [|split; [done|split; [done|left; split; [done|constructor]]]].
    split; [done|]. split; [|by destruct key]. destruct key; constructor.
  - split; [by split|]. split; [|done]. split; [done|]. split; [|by destruct key]. destruct key; constructor.
  - intros _ _. by destruct key.
  - split; [lia|done].
  - split; constructor.
Qed.
Lemma acts_inv l w : careful_run l w -> reachable_inv w -> reachable_inv (acts l w).
Proof.
  revert w. induction l as [|a l IH]; intros w; [done|]. intros [C Cl] [Hs (ms1 & ms2 & H)]. apply IH; [done|].
  split; [by apply act_settled|]. by eapply tunnel_act_inv.
Qed.
Lemma acts_app l l' w : acts (l ++ l') w = acts l' (acts l w).
Proof. revert w. induction l as [|a l IH]; intros w; [done|]. apply IH. Qed.

(** What was copied is a part of what was written. *)
Lemma inv_prefix w ms1 ms2 : inv w ms1 ms2 -> to_target w `prefix_of` app_sent w /\ to_app w `prefix_of` target_sent w.
Proof.
  intros [Iv Id _ _ _ _ _]. split.
  - destruct (dphase w); [destruct Id as (_ & _ & -> & _); apply prefix_nil| |done].
    destruct Id as (_ & _ & _ & _ & _ & E). destruct (vphase w).
    + apply app_nil in E as [-> _]. apply prefix_nil.
    + rewrite <- E. by eexists.
    + rewrite <- E. by eexists.
  - destruct (vphase w); [destruct Iv as (_ & _ & _ & -> & _); apply prefix_nil| |done].
    destruct Iv as (_ & _ & _ & _ & <-). by eexists.
Qed.

(** *** Delivery: the network and the two loops, nobody writing *)
Definition delivery (a : Action) : Prop := match a with ArriveV _ | ArriveD _ | PollV | PollD _ => True | _ => False end.
Lemma delivery_careful l w : Forall delivery l -> careful_run l w.
Proof. intros H. revert w. induction H as [|a l Ha _ IH]; intros w; [done|]. split; [by destruct a|apply IH]. Qed.
Lemma delivery_keeps l w : Forall delivery l -> app_sent (acts l w) = app_sent w /\ target_sent (acts l w) = target_sent w /\
  (authorized w = true -> authorized (acts l w) = true).
Proof.
  intros H. revert w. induction H as [|a l Ha _ IH]; intros w; [done|]. simpl. destruct (IH (act a w)) as (-> & -> & I3).
  assert (app_sent (act a w) = app_sent w /\ target_sent (act a w) = target_sent w /\ (authorized w = true -> authorized (act a w) = true))
    as (-> & -> & ?); [|auto]. clear IH I3. destruct a; try done; simpl;
    unfold poll_v, poll_d, login_poll, run_forward, on_frame, try_port_forward_loop, start_forward, go_raw, log_in, device_sends;
    repeat (unfold viewer_sends in *; case_match; simpl in *; try done).
Qed.

Lemma poll_v_reads w m ms1 ms2 : inv w ms1 (m :: ms2) -> vphase w = LoggingIn -> d2v w = [] ->
  d2v (poll_v w) = [] /\ (vphase (poll_v w) = Forwarding \/ vphase (poll_v w) = LoggingIn /\ exists ms1', inv (poll_v w) ms1' ms2).
Proof.
  intros H V E.
  assert (ready (v w) /\ inbox (v w) (d2v w) (m :: ms2) (target_sent w)) as (R & I)
    by (destruct H as [Iv _ _ _ _ _ _]; rewrite V in Iv; destruct Iv as (? & ? & _); auto).
  unfold poll_v, login_poll, run_forward. rewrite V. destruct (next_inbox (d w) (v w) (d2v w) m ms2 _ R I) as (s & Rs & [(N & _)|(-> & Is' & Ag1)] & Ag2).
  { rewrite E in I. apply next_complete in I as (x & s' & E'). congruence. }
  destruct (kind m) eqn:K; simpl.
  - auto.
  - pose proof (viewer_reply_inv s w m ms1 ms2 H V K Rs Is' Ag1 Ag2) as Hi.
    unfold viewer_sends in *. destruct (send_raw _ m). simpl in *. eauto.
  - split; [done|]. right. split; [done|]. eauto using viewer_read_inv.
Qed.

Lemma reach_forwarding w : reachable_inv w -> authorized w = true -> d2v w = [] ->
  exists l, Forall delivery l /\ vphase (acts l w) = Forwarding.
Proof.
  intros [Hs (ms1 & ms2 & H)] A. revert w ms1 Hs H A. induction ms2 as [|m ms2 IH]; intros w ms1 Hs H A E.
  - exists []. split; [done|]. simpl. destruct H as [Iv _ _ _ _ _ _]. destruct (vphase w); [|done..].
    destruct Iv as (_ & _ & _ & _ & [[? _]|(_ & l & El & _)]); [congruence|by destruct l].
  - destruct (vphase w) eqn:V; [|by exists []|by destruct H as [Iv _ _ _ _ _ _]; rewrite V in Iv].
    destruct (poll_v_reads w m ms1 ms2 H V E) as (E' & [V'|(V' & ms1' & H')]).
    + exists [PollV]. split; [by repeat constructor|done].
    + destruct (delivery_keeps [PollV] w) as (_ & _ & A'); [by repeat constructor|].
      destruct (IH (poll_v w) ms1') as (l & Dl & Vl); [by apply (act_settled PollV)|done|by apply A'|done|].
      exists (PollV :: l). split; [by constructor|done].
Qed.

Lemma reach_raw w : reachable_inv w -> vphase w = Forwarding -> v2d w = [] -> dphase w = Framed ->
  vphase (poll_d false w) = Forwarding /\ dphase (poll_d false w) = Raw.
Proof.
  intros [Hs (ms1 & ms2 & H)] V E D. pose proof H as [Iv Id Ia Ic Io Iq Is]. rewrite V, D in *.
  destruct Iv as (_ & _ & -> & A & _). destruct Id as (R & I & _). rewrite (proj2 Iq A) in Io. rewrite (Hs D A) in Ic.
  destruct ms1 as [|m ms1]; [done|]. rewrite delays_cons in Ic. rewrite others_cons in Io.
  destruct (decide (kind m = KDelay)) as [K|K]; [|lia].
  destruct (next_inbox (v w) (d w) (v2d w) m ms1 _ R I) as (s & Rs & [(N & _)|(N & Is' & Ag1)] & Ag2).
  { rewrite E in I. apply next_complete in I as (x & s' & E'). congruence. }
  unfold poll_d, on_frame, try_port_forward_loop. rewrite D, N, K. simpl. by rewrite A.
Qed.

(** *** Everything written arrives *)
Lemma flush_d w : dphase w = Raw -> raw (codec (d w)) = true -> encryption (d w) = None ->
  let w' := poll_d false (arrive_d (length (v2d w)) w) in
  to_target w' = to_target w ++ rbuf (d w) ++ v2d w /\ to_app w' = to_app w /\ v w' = v w /\ d2v w' = d2v w /\ vphase w' = vphase w.
Proof.
  intros D R E. unfold poll_d, on_frame, try_port_forward_loop. simpl. rewrite D, next_raw by done. simpl. rewrite firstn_all.
  destruct (decide (rbuf (d w) ++ v2d w = [])) as [B|B]; simpl; rewrite ?B, ?app_nil_r; done.
Qed.
Lemma flush_v w : vphase w = Forwarding -> raw (codec (v w)) = true -> encryption (v w) = None ->
  let w' := poll_v (arrive_v (length (d2v w)) w) in
  to_app w' = to_app w ++ rbuf (v w) ++ d2v w /\ to_target w' = to_target w.
Proof.
  intros V R E. unfold poll_v, login_poll, run_forward. simpl. rewrite V, next_raw by done. simpl. rewrite firstn_all.
  destruct (decide (rbuf (v w) ++ d2v w = [])) as [B|B]; simpl; rewrite ?B, ?app_nil_r; done.
Qed.

Lemma reach_both w : reachable_inv w -> authorized w = true ->
  exists l, Forall delivery l /\ vphase (acts l w) = Forwarding /\ dphase (acts l w) = Raw.
Proof.
  intros H A. assert (reachable_inv (arrive_v (length (d2v w)) w)) as H1 by (by apply (acts_inv [ArriveV (length (d2v w))] w)).
  destruct (reach_forwarding _ H1 A) as (l & Dl & Vl); [simpl; apply drop_all|].
  set (w2 := acts l (arrive_v (length (d2v w)) w)) in *.
  assert (reachable_inv w2) as H2 by (apply acts_inv; [by apply delivery_careful|done]).
  assert (reachable_inv (arrive_d (length (v2d w2)) w2)) as H3 by (by apply (acts_inv [ArriveD (length (v2d w2))] w2)).
  destruct (dphase w2) eqn:D2.
  - destruct (reach_raw _ H3) as [V D]; [done|simpl; apply drop_all|done|].
    exists (ArriveV (length (d2v w)) :: l ++ [ArriveD (length (v2d w2)); PollD false]). split; [|simpl; by rewrite acts_app].
    constructor; [done|]. apply Forall_app. split; [done|by repeat constructor].
  - exists (ArriveV (length (d2v w)) :: l). split; [by constructor|done].
  - destruct H2 as (_ & ms1 & ms2 & [_ Id _ _ _ _ _]). by rewrite D2 in Id.
Qed.

Lemma all_delivered w : reachable_inv w -> authorized w = true ->
  exists l, Forall delivery l /\ to_target (acts l w) = app_sent w /\ to_app (acts l w) = target_sent w.
Proof.
  intros H A. destruct (reach_both w H A) as (l & Dl & V & D). destruct (delivery_keeps l w Dl) as (Ea & Et & _).
  assert (reachable_inv (acts l w)) as (_ & ms1 & ms2 & [Iv Id _ _ _ _ _]) by (apply acts_inv; [by apply delivery_careful|done]).
  set (w2 := acts l w) in *. rewrite V, D in *. destruct Iv as (Rv & Ev & _ & _ & Tv). destruct Id as (Rd & Ed & _ & _ & _ & Td).
  destruct (flush_d w2 D Rd Ed) as (F1 & F2 & F3 & F4 & F5). set (w3 := poll_d false (arrive_d (length (v2d w2)) w2)) in *.
  destruct (flush_v w3) as (G1 & G2); [congruence..|]. set (w4 := poll_v (arrive_v (length (d2v w3)) w3)) in *.
  exists (l ++ [ArriveD (length (v2d w2)); PollD false; ArriveV (length (d2v w3)); PollV]).
  rewrite acts_app. change (acts _ (acts l w)) with w4. split; [apply Forall_app; split; [done|by repeat constructor]|].
  split; [by rewrite G2, F1, Td|by rewrite G1, F2, F3, F4, Tv].
Qed.

(** [C15] A forwarded connection is transparent.  Over every run of the two ends that
    is [careful] (each side's framed messages end before the other side turns raw:
    the viewer sends one message at a time and none once it is let in, the device
    none of its own after it let the viewer in, the local user does not accept
    while a message or a [TestDelay] reply is under way), with the network
    delivering in pieces of any size, no side fails, what
    the target was given is a prefix of what the local program wrote and the other
    way round (no framed message and no piece of one is ever mixed in, nothing is
    lost at the switch from sealed frames to raw bytes, what was written during the
    login comes first); and once the device has let the viewer in, delivering what
    is under way is enough for both to have received everything. *)
Theorem tunnel_transparent key l (C : careful_run l (start key)) :
  let w := acts l (start key) in
  vphase w <> VClosed /\ dphase w <> DClosed /\ to_target w `prefix_of` app_sent w /\ to_app w `prefix_of` target_sent w /\
  (authorized w = true ->
   exists l', Forall delivery l' /\ to_target (acts l' w) = app_sent w /\ to_app (acts l' w) = target_sent w).
Proof.
  intros w. assert (reachable_inv w) as H by (apply acts_inv; [done|apply start_inv]).
  pose proof H as (_ & ms1 & ms2 & I). destruct (inv_prefix _ _ _ I) as [P1 P2]. destruct I as [Iv Id _ _ _ _ _].
  split; [intros E; by rewrite E in Iv|]. split; [intros E; by rewrite E in Id|]. split; [done|]. split; [done|].
  by apply all_delivered.
Qed.

(** The tunnelled bytes are not sealed: turning raw drops the key that protected
    the login, whatever the two sides had agreed on. *)
Lemma tunnelled_in_clear key l b : careful_run l (start key) -> vphase (acts l (start key)) = Forwarding ->
  v2d (act (AppWrites b) (acts l (start key))) = v2d (acts l (start key)) ++ b.
Proof.
  intros C V. destruct (acts_inv l (start key) C (start_inv key)) as (_ & ms1 & ms2 & [Iv _ _ _ _ _ _]).
  rewrite V in Iv. destruct Iv as (R & _). simpl. unfold on_app. simpl. rewrite V. simpl. by rewrite send_bytes_raw.
Qed.
End Tunnel.

(** ** Runs *)
#[local] Existing Instances Toy.secretbox Toy.secretbox_laws.

(** Messages told apart by their first byte. *)
Definition toy_kind (m : bytes) : Kind :=
  match m with Byte.x01 :: _ => KPeerInfo | Byte.x02 :: _ => KDelay | _ => KOther end.
Definition toy_answer : bytes := [Byte.x01; Byte.x78].
Definition toy_delay : bytes := [Byte.x02].
Definition toy_acts := acts toy_kind toy_answer toy_delay.
(** The hash arrives in two pieces while the program already writes; the login is
    read before the reply to a [TestDelay], so the device waits for it. *)
Definition login_run : list Action :=
  [DeviceSends [Byte.x68]; AppWrites [Byte.x61; Byte.x62]; ArriveV 7; PollV; ArriveV 90; PollV;
   ViewerSends [Byte.x6c]; DelayTimer; ArriveV 90; PollV; ArriveD 90; PollD true; PollD false;
   TargetWrites [Byte.x74]; AppWrites [Byte.x63]].

Lemma tunnel_witness :
  careful_run toy_kind toy_answer toy_delay login_run (start (Some [Byte.x6b])) /\
  authorized (toy_acts login_run (start (Some [Byte.x6b]))) = true /\
  exists l', Forall delivery l' /\
    to_target (toy_acts l' (toy_acts login_run (start (Some [Byte.x6b])))) = [Byte.x61; Byte.x62; Byte.x63] /\
    to_app (toy_acts l' (toy_acts login_run (start (Some [Byte.x6b])))) = [Byte.x74].
Proof.
  assert (careful_run toy_kind toy_answer toy_delay login_run (start (Some [Byte.x6b]))) as C.
  { vm_compute. repeat split; discriminate. }
  split; [exact C|]. split; [vm_compute; reflexivity|].
  destruct (tunnel_transparent toy_kind toy_answer toy_delay eq_refl eq_refl ltac:(vm_compute; discriminate) ltac:(vm_compute; discriminate)
    _ _ C) as (_ & _ & _ & _ & H).
  exact (H ltac:(vm_compute; reflexivity)).
Defined.

(** The device waits in [login_run]: after the login is read it is still framed. *)
Example login_waits_for_reply :
  dphase (toy_acts (take 12 login_run) (start (Some [Byte.x6b]))) = Framed /\
  authorized (toy_acts (take 12 login_run) (start (Some [Byte.x6b]))) = true /\
  dphase (toy_acts (take 13 login_run) (start (Some [Byte.x6b]))) = Raw.
Proof. vm_compute. done. Qed.

(** A click does not wait: the reply that is under way then, a whole frame, is
    copied to the target though the local program wrote nothing. *)
Definition click_run : list Action :=
  [DelayTimer; ArriveV 90; PollV; Click; ArriveD 90; PollD false].
Example click_injects_reply : let w := toy_acts click_run (start (Some [Byte.x6b])) in
  app_sent w = [] /\ to_target w = header 17 ++ seal toy_delay (get_nonce 1) [Byte.x6b].
Proof. vm_compute. done. Qed.

(** A chat message of the local user, while the device waits for the reply to its
    [TestDelay], is sent behind the login answer: the local program gets the frame. *)
Definition chat_run : list Action :=
  [DelayTimer; ViewerSends [Byte.x6c]; ArriveD 90; PollD true; DeviceSends [Byte.x63]; ArriveV 90; PollV; PollV; PollV].
Example chat_injected : let w := toy_acts chat_run (start (Some [Byte.x6b])) in
  dphase (toy_acts (take 4 chat_run) (start (Some [Byte.x6b]))) = Framed /\
  authorized (toy_acts (take 4 chat_run) (start (Some [Byte.x6b]))) = true /\
  target_sent w = [] /\ to_app w = header 17 ++ seal [Byte.x63] (get_nonce 3) [Byte.x6b].
Proof. vm_compute. done. Qed.
