(* ===== verification/CustomServer.v ===== *)
(** * Servers named in the program's file name ([src/custom_server.rs], [src/naming.rs])

    A program can be renamed so that its file name says which servers to use:
    either in clear ([host=..,key=..]) or as a licence, reversed URL-safe base64
    of a JSON record.  Windows adds [(1)] to a second download, and the reader
    copes with that.  serde, base64 and the full Unicode lower case are
    interfaces with the laws their documentation states; the text operations of
    the standard library are modelled on UTF-8 bytes, slicing included, which
    panics inside a character. *)
From S2P Require Import Prelude.
From S2P Require Import Encoding.
From S2P Require Import Crypto.
From S2P Require Import PasswordSecurity.
From S2P Require Import Options.
From S2P Require Import SecondFactor.

(** ** Text *)
Definition text_contains (p s : bytes) : bool := (fix go s := starts_with s p || match s with [] => false | _ :: s => go s end) s.
(** [str::find]: the first place where [p] starts. *)
Fixpoint find (p s : bytes) : option nat :=
  if starts_with s p then Some O else match s with [] => None | _ :: s => S <$> find p s end.

Definition cons_head (b : byte) (l : list bytes) : list bytes := match l with h :: t => (b :: h) :: t | [] => [[b]] end.
(** [str::split] on a non-empty pattern; each round takes a byte, so that the
    length of the text is fuel enough. *)
Fixpoint split_fuel (n : nat) (p s : bytes) : list bytes :=
  match n with
  | O => [s]
  | S n =>
      if starts_with s p then [] :: split_fuel n p (drop (length p) s)
      else match s with [] => [[]] | b :: s => cons_head b (split_fuel n p s) end
  end.
Definition split_str (p s : bytes) : list bytes := split_fuel (length s) p s.
Fixpoint join (r : bytes) (l : list bytes) : bytes :=
  match l with [] => [] | [x] => x | x :: l => x ++ r ++ join r l end.
Definition replace (p r s : bytes) : bytes := join r (split_str p s).

(** [&s[i..j]], nothing when it panics. *)
Definition boundary (s : bytes) (i : nat) : bool :=
  bool_decide (i = 0%nat) || bool_decide (i = length s) || match s !! i with Some b => negb (Utf8.cont b) | None => false end.
Definition slice (s : bytes) (i j : nat) : option bytes :=
  if bool_decide (i <= j <= length s)%nat && boundary s i && boundary s j then Some (drop i (take j s)) else None.
(** [s.chars().rev().collect()] and [s.chars().skip(n).collect()]. *)
Definition rev_chars (s : bytes) : bytes := concat (rev (snd <$> Utf8.chars s)).
Definition skip_chars (n : nat) (s : bytes) : bytes := concat (drop n (snd <$> Utf8.chars s)).

(** ** Interfaces *)

(** Unpadded URL-safe base64: sextets of the bytes, most significant first, the
    last one filled with zeros; anything else is refused. *)
Definition url_alphabet : bytes := str "ABCDEFGHIJKLMNOPQRSTUVWXYZabcdefghijklmnopqrstuvwxyz0123456789-_".
Definition url_digit (i : Z) : byte := nth (Z.to_nat i) url_alphabet Byte.x00.
Fixpoint sextets (v : bytes) : list Z :=
  match v with
  | [] => []
  | [a] => let a := byte.unsigned a in [a / 4; a mod 4 * 16]
  | [a; b] => let a := byte.unsigned a in let b := byte.unsigned b in [a / 4; a mod 4 * 16 + b / 16; b mod 16 * 4]
  | a :: b :: c :: v =>
      let a := byte.unsigned a in let b := byte.unsigned b in let c := byte.unsigned c in
      [a / 4; a mod 4 * 16 + b / 16; b mod 16 * 4 + c / 64; c mod 64] ++ sextets v
  end.
Class Base64Url := { url_encode : bytes -> bytes; url_decode : bytes -> option bytes }.
Class Base64UrlLaws `{Base64Url} := {
  url_encode_sextets v : url_encode v = url_digit <$> sextets v;
  url_decode_encode v : url_decode (url_encode v) = Some v;
  url_decode_canonical t v : url_decode t = Some v -> url_encode v = t
}.

(** [str::to_lowercase]. *)
Class Lowercase := { to_lowercase : bytes -> bytes }.
Class LowercaseLaws `{Lowercase} := { lowercase_ascii s : Utf8.ascii s -> to_lowercase s = to_ascii_lowercase s }.

Record CustomServer := mkCustomServer { key : bytes; host : bytes; api : bytes; relay : bytes }.
#[export] Instance CustomServer_eq_dec : EqDecision CustomServer.
Proof. solve_decision. Defined.

(** serde_json on the record: an object in braces, ASCII when its strings are;
    reading inverts writing, and a text that is read ends in a closing bracket
    (arrays are read as records too) and white space. *)
Definition json_space (b : byte) : bool := bool_decide (b ∈ [Byte.x20; Byte.x09; Byte.x0a; Byte.x0d]).
Definition plain (c : CustomServer) : Prop :=
  Utf8.ascii (key c) /\ Utf8.ascii (host c) /\ Utf8.ascii (api c) /\ Utf8.ascii (relay c).
Class ServerJsonLaws `{Json CustomServer} := {
  server_json c : plain c -> exists m, let s := [Byte.x7b] ++ m ++ [Byte.x7d] in
    to_json c = Some s /\ from_json s = Some c /\ Utf8.ascii s;
  server_json_closed s (c : CustomServer) : from_json s = Some c ->
    exists m b t, s = m ++ b :: t /\ (b = Byte.x7d \/ b = Byte.x5d) /\ Forall (fun x => json_space x = true) t
}.

(** ** The reader *)
Section Reader.
Context {SG : Sign} {B : Base64Url} {LC : Lowercase} {J : Json CustomServer}.

Definition PK : bytes := List.map byte.of_Z
  [88; 168; 68; 104; 60; 5; 163; 198; 165; 38; 12; 85; 114; 203; 96; 163; 70; 48; 0; 131; 57;
   12; 46; 129; 83; 17; 84; 193; 119; 197; 130; 103].
Definition get_custom_server_from_config_string (s : bytes) : option CustomServer :=
  let tmp := rev_chars s in
  data ← url_decode tmp;
  match from_json data with
  | Some lic => Some lic
  | None => data ← verify data PK; from_json data
  end.

Inductive Outcome := Parsed (c : CustomServer) | NotParsed | Panicked.
#[export] Instance Outcome_eq_dec : EqDecision Outcome.
Proof. solve_decision. Defined.

Definition strip_exe (s : bytes) : option bytes :=
  if ends_with (to_lowercase s) (str ".exe.exe") then
    if (length s <? 8)%nat then None else slice s 0 (length s - 8)
  else if ends_with (to_lowercase s) (str ".exe") then
    if (length s <? 4)%nat then None else slice s 0 (length s - 4)
  else Some s.

(** One element between the commas. *)
Definition read_field (c : CustomServer) (el : bytes) : CustomServer :=
  let el_lower := to_lowercase el in
  let c := if starts_with el_lower (str "host=") then mkCustomServer (key c) (skip_chars 5 el) (api c) (relay c) else c in
  let c := if starts_with el_lower (str "key=") then mkCustomServer (skip_chars 4 el) (host c) (api c) (relay c) else c in
  let c := if starts_with el_lower (str "api=") then mkCustomServer (key c) (host c) (skip_chars 4 el) (relay c) else c in
  if starts_with el_lower (str "relay=") then mkCustomServer (key c) (host c) (api c) (skip_chars 6 el) else c.
Definition read_fields (stripped : bytes) : CustomServer :=
  fold_left read_field (split_str (str ",") stripped) (mkCustomServer [] [] [] []).

Fixpoint first_config (l : list bytes) : option CustomServer :=
  match l with
  | [] => None
  | s :: l => match get_custom_server_from_config_string (trim s) with Some c => Some c | None => first_config l end
  end.
Fixpoint read_licence (l : list bytes) : option CustomServer :=
  match l with
  | [] => None
  | s :: l =>
      match get_custom_server_from_config_string (trim s) with
      | Some c => Some c
      | None =>
          match (if text_contains (str "(") s then first_config (split_str (str "(") s) else None) with
          | Some c => Some c
          | None => read_licence l
          end
      end
  end.

Definition get_custom_server_from_string (s : bytes) : Outcome :=
  match strip_exe s with
  | None => Panicked
  | Some s =>
      if text_contains (str "host=") (to_lowercase s) then
        match slice s (default O (find (str "host=") (to_lowercase s))) (length s) with
        | Some stripped => Parsed (read_fields stripped)
        | None => Panicked
        end
      else
        let s := replace (str "-licensed-") (str "--") (replace (str "-licensed--") (str "--") (replace (str "-licensed---") (str "--") s)) in
        match read_licence (split_str (str "--") s) with Some c => Parsed c | None => NotParsed end
  end.

(** *** The writer, [naming.rs] *)
Definition gen_name (lic : CustomServer) : option bytes := d ← to_json lic; Some (rev_chars (url_encode d)).
Definition naming_main (args : list bytes) : option bytes :=
  match args with
  | k :: h :: rest =>
      name ← gen_name (mkCustomServer k h (default [] (rest !! 0%nat)) (default [] (rest !! 1%nat)));
      Some (str "codedesk-custom_serverd-" ++ name ++ str ".exe")
  | _ => None
  end.

(** *** The [--config] command of [core_main.rs]: the options it sets
    ([privileged]: the program is installed and runs as root) *)
Definition config_command (privileged : bool) (args : list bytes) : option (list (bytes * bytes)) :=
  match args with
  | [a0; a1] =>
      if negb (text_contains (str "host=") a0) && privileged then
        let name := if ends_with a1 (str ".exe") then a1 else a1 ++ str ".exe" in
        match get_custom_server_from_string name with
        | Parsed lic =>
            Some (if is_empty (host lic) then []
                  else [(str "key", key lic); (str "custom-rendezvous-server", host lic); (str "api-server", api lic); (str "relay-server", relay lic)])
        | NotParsed => Some []
        | Panicked => None
        end
      else Some []
  | _ => Some []
  end.
End Reader.

(** ** Text operations *)
Lemma starts_with_iff s p : starts_with s p = true <-> exists r, s = p ++ r.
Proof.
  unfold starts_with, takeZ, len. rewrite Nat2Z.id, bool_decide_eq_true. split.
  - intros H. exists (drop (length p) s). rewrite <- H at 1. by rewrite take_drop.
  - intros [r ->]. apply take_app_length.
Qed.
Lemma starts_with_not s p : starts_with s p = false <-> forall r, s <> p ++ r.
Proof.
  rewrite <- not_true_iff_false, starts_with_iff. split; [intros H r E; apply H; by exists r|intros H [r E]; by apply (H r)].
Qed.
Lemma starts_with_nil p : p <> [] -> starts_with [] p = false.
Proof. intros H. apply starts_with_not. intros r E. destruct p; done. Qed.
Lemma starts_with_head x p b s : b <> x -> starts_with (b :: s) (x :: p) = false.
Proof. intros H. apply starts_with_not. intros r E. by injection E. Qed.

Lemma contains_cons p b s : text_contains p (b :: s) = starts_with (b :: s) p || text_contains p s.
Proof. done. Qed.
Lemma contains_iff p s : text_contains p s = true <-> exists a b, s = a ++ p ++ b.
Proof.
  induction s as [|x s IH].
  - unfold text_contains. rewrite orb_false_r, starts_with_iff. split; [intros [r E]; by exists [], r|].
    intros (a & b & E). destruct a; [by exists b|done].
  - rewrite contains_cons, orb_true_iff, IH, starts_with_iff. split.
    + intros [[r ->]|(a & b & ->)]; [by exists [], r|by exists (x :: a), b].
    + intros ([|y a] & b & E); [left; by exists b|right]. injection E as -> ->. by exists a, b.
Qed.
(** A text without some byte of the pattern does not contain it. *)
Lemma contains_missing p s x : x ∈ p -> x ∉ s -> text_contains p s = false.
Proof.
  intros Hp Hs. apply not_true_iff_false. rewrite contains_iff. intros (a & b & ->). set_solver.
Qed.

Lemma split_fuel_enough p : p <> [] -> forall n m s, (length s <= n)%nat -> (length s <= m)%nat -> split_fuel n p s = split_fuel m p s.
Proof.
  intros Hp. induction n as [|n IH]; intros [|m] s Hn Hm.
  - done.
  - destruct s; simpl in Hn; [|lia]. simpl. by rewrite starts_with_nil.
  - destruct s; simpl in Hm; [|lia]. simpl. by rewrite starts_with_nil.
  - simpl. destruct (starts_with s p) eqn:E.
    + apply starts_with_iff in E as [r ->]. rewrite drop_app_length. rewrite length_app in *. destruct p; [done|]. simpl in *.
      f_equal. apply IH; lia.
    + destruct s; [done|]. simpl in *. f_equal. apply IH; lia.
Qed.
Lemma split_nil p : p <> [] -> split_str p [] = [[]].
Proof. done. Qed.
Lemma split_here p s : p <> [] -> split_str p (p ++ s) = [] :: split_str p s.
Proof.
  intros Hp. unfold split_str. rewrite (split_fuel_enough p Hp _ (S (length (p ++ s)))) by lia. cbn [split_fuel].
  rewrite starts_with_app, drop_app_length. f_equal. apply split_fuel_enough; [done|rewrite length_app; lia|lia].
Qed.
Lemma split_skip p b s : starts_with (b :: s) p = false -> split_str p (b :: s) = cons_head b (split_str p s).
Proof. intros H. unfold split_str. cbn [length split_fuel]. by rewrite H. Qed.
Lemma split_str_nonempty p s : split_str p s <> [].
Proof.
  unfold split_str. destruct (length s) as [|n]; simpl; [done|]. destruct (starts_with s p); [done|].
  destruct s; [done|]. unfold cons_head. by destruct (split_fuel n p s).
Qed.
Lemma split_none p s : p <> [] -> text_contains p s = false -> split_str p s = [s].
Proof.
  intros Hp. induction s as [|b s IH]; [done|]. rewrite contains_cons, orb_false_iff. intros [H1 H2].
  rewrite split_skip, IH by done. done.
Qed.
Definition head_app (a : bytes) (l : list bytes) : list bytes := match l with h :: t => (a ++ h) :: t | [] => [a] end.
Lemma split_before x p a s : x ∉ a -> split_str (x :: p) (a ++ s) = head_app a (split_str (x :: p) s).
Proof.
  intros H. induction a as [|b a IH].
  - simpl. pose proof (split_str_nonempty (x :: p) s). by destruct (split_str (x :: p) s).
  - cbn [app]. rewrite split_skip by (apply starts_with_head; set_solver). rewrite IH by set_solver.
    by destruct (split_str (x :: p) s).
Qed.

Lemma replace_none p r s : p <> [] -> text_contains p s = false -> replace p r s = s.
Proof. intros Hp H. unfold replace. by rewrite split_none. Qed.
Lemma replace_here p r s : p <> [] -> replace p r (p ++ s) = r ++ replace p r s.
Proof.
  intros Hp. unfold replace. rewrite split_here by done. pose proof (split_str_nonempty p s). by destruct (split_str p s).
Qed.
Lemma replace_skip p r b s : starts_with (b :: s) p = false -> replace p r (b :: s) = b :: replace p r s.
Proof.
  intros H. unfold replace. rewrite split_skip by done. pose proof (split_str_nonempty p s).
  destruct (split_str p s) as [|h [|h' t]]; done.
Qed.
Lemma replace_before x p r a s : x ∉ a -> replace (x :: p) r (a ++ s) = a ++ replace (x :: p) r s.
Proof.
  intros H. induction a as [|b a IH]; [done|]. cbn [app]. rewrite replace_skip by (apply starts_with_head; set_solver).
  by rewrite IH by set_solver.
Qed.

Lemma first_split (x : byte) (a1 b1 a2 b2 : bytes) : x ∉ a1 -> x ∉ a2 -> a1 ++ [x] ++ b1 = a2 ++ [x] ++ b2 -> a1 = a2.
Proof.
  revert a2. induction a1 as [|y a1 IH]; intros [|z a2] H1 H2 E; [done|..]; injection E as -> E; [set_solver..|].
  f_equal. apply (IH a2); [set_solver..|done].
Qed.
Lemma find_here p s : starts_with s p = true -> find p s = Some O.
Proof. intros H. destruct s; cbn [find]; by rewrite H. Qed.
(** A pattern that ends in a byte it has nowhere else does not overlap itself. *)
Lemma find_first x q a s : x ∉ q -> text_contains (q ++ [x]) a = false -> find (q ++ [x]) (a ++ (q ++ [x]) ++ s) = Some (length a).
Proof.
  intros Hq. induction a as [|b a IH]; intros Ha.
  - apply find_here. exact (starts_with_app (q ++ [x]) s).
  - rewrite contains_cons, orb_false_iff in Ha. destruct Ha as [H1 H2]. cbn [app find length].
    destruct (starts_with (b :: a ++ (q ++ [x]) ++ s) (q ++ [x])) eqn:E; [exfalso|by rewrite IH].
    apply starts_with_iff in E as [r E]. change (b :: a ++ ?z) with ((b :: a) ++ z) in E.
    apply app_eq_inv in E as [(k & E1 & E2)|(k & E1 & E2)]; [rewrite E1 in H1; by rewrite starts_with_app in H1|].
    destruct k as [|y k _] using rev_ind; [rewrite app_nil_r in E1; rewrite <- E1 in H1; by rewrite <- (app_nil_r (q ++ [x])), starts_with_app in H1 at 1|].
    rewrite app_assoc in E1. apply app_inj_tail in E1 as [Eq <-]. rewrite <- !app_assoc in E2.
    apply first_split in E2; [|done|rewrite Eq in Hq; set_solver]. apply (f_equal length) in Eq. rewrite E2, length_app in Eq. simpl in Eq. lia.
Qed.
Lemma contains_apart x q a t : x ∉ t -> text_contains (q ++ [x]) a = false -> text_contains (q ++ [x]) (a ++ t) = false.
Proof.
  intros Ht Ha. apply not_true_iff_false. rewrite contains_iff. intros (c & d & E). apply not_true_iff_false in Ha. apply Ha, contains_iff.
  rewrite app_assoc in E. apply app_eq_inv in E as [(k & E1 & E2)|(k & E1 & E2)].
  - by exists c, k; rewrite E1, <- app_assoc.
  - destruct k as [|y k _] using rev_ind; [rewrite app_nil_r in E1; exists c, []; by rewrite app_nil_r|].
    rewrite !app_assoc in E1. apply app_inj_tail in E1 as [_ <-]. subst t. set_solver.
Qed.

(** *** ASCII *)
Lemma chars_ascii s : Utf8.ascii s -> snd <$> Utf8.chars s = (fun b => [b]) <$> s.
Proof.
  unfold Utf8.chars. intros H. induction H as [|b s Hb _ IH]; [done|]. cbn [length Utf8.chunks]. unfold Utf8.char_tail. rewrite Hb.
  cbn [take drop fmap list_fmap snd]. by f_equal.
Qed.
Lemma singletons (s : bytes) : concat ((fun b => [b]) <$> s) = s.
Proof. induction s as [|b s IH]; [done|]. simpl. by f_equal. Qed.
Lemma rev_chars_ascii s : Utf8.ascii s -> rev_chars s = rev s.
Proof.
  intros H. unfold rev_chars. rewrite chars_ascii by done.
  replace (rev ((fun b => [b]) <$> s)) with ((fun b => [b]) <$> rev s) by apply map_rev. apply singletons.
Qed.
Lemma skip_chars_ascii n s : Utf8.ascii s -> skip_chars n s = drop n s.
Proof. intros H. unfold skip_chars. rewrite chars_ascii by done. by rewrite <- fmap_drop, singletons. Qed.
Lemma ascii_boundary s i : Utf8.ascii s -> (i <= length s)%nat -> boundary s i = true.
Proof.
  intros H Hi. unfold boundary. destruct (decide (i = length s)) as [->|Hn]; [by rewrite (bool_decide_eq_true_2 (length s = length s)), orb_true_r by done|].
  destruct (lookup_lt_is_Some_2 s i) as [b Hb]; [lia|]. rewrite Hb.
  assert (Utf8.within 0 0x7F b = true) as Hw by (by eapply Forall_lookup_1 in H). unfold Utf8.cont, Utf8.within in *.
  apply andb_true_iff in Hw as [_ Hw]. rewrite (proj2 (Z.leb_gt 0x80 (byte.unsigned b))) by lia. by rewrite !orb_true_r.
Qed.
Lemma slice_ascii s i j : Utf8.ascii s -> (i <= j <= length s)%nat -> slice s i j = Some (drop i (take j s)).
Proof. intros H Hj. unfold slice. rewrite bool_decide_eq_true_2, !ascii_boundary by (done || lia). done. Qed.

(** *** The letters of a licence *)
Definition dash : byte := Byte.x2d.
Definition letter_ok (i : Z) : bool :=
  let b := url_digit i in
  Utf8.within 0x2D 0x7A b && negb (bool_decide (b = Byte.x2e)) && negb (bool_decide (b = Byte.x3d))
  && Bool.eqb (bool_decide (b = dash)) (i =? 62).
Lemma letters_ok : forallb letter_ok (List.map Z.of_nat (seq 0 64)) = true.
Proof. vm_compute. reflexivity. Qed.
(** A byte of the alphabet: printable, neither a dot nor an equals sign. *)
Definition letter (b : byte) : Prop := Utf8.within 0x2D 0x7A b = true /\ b <> Byte.x2e /\ b <> Byte.x3d.
Lemma digit_letter i : 0 <= i < 64 -> letter (url_digit i) /\ (url_digit i = dash <-> i = 62).
Proof.
  intros Hi. assert (letter_ok i = true) as H.
  { apply (proj1 (forallb_forall letter_ok _) letters_ok). apply in_map_iff. exists (Z.to_nat i). split; [lia|]. apply in_seq. lia. }
  unfold letter_ok in H. rewrite !andb_true_iff, !negb_true_iff, !bool_decide_eq_false, Bool.eqb_true_iff in H.
  destruct H as [[[H1 H2] H3] H4]. split; [done|]. rewrite <- (bool_decide_eq_true (url_digit i = dash)), H4. apply Z.eqb_eq.
Qed.

Lemma sextets_range v : Forall (fun i => 0 <= i < 64) (sextets v).
Proof.
  induction v as [|a|a b|a b c v IH] using Rfc4648.ind3; cbn [sextets app]; cbv zeta; [done|..]; pose proof (byte.unsigned_range a).
  - repeat constructor; Z.div_mod_to_equations; lia.
  - pose proof (byte.unsigned_range b). repeat constructor; Z.div_mod_to_equations; lia.
  - pose proof (byte.unsigned_range b). pose proof (byte.unsigned_range c).
    do 4 (constructor; [Z.div_mod_to_equations; lia|]). done.
Qed.
Lemma within_ascii b : Utf8.within 0 0x7F b = true -> 0 <= byte.unsigned b <= 127.
Proof. unfold Utf8.within. rewrite andb_true_iff, !Z.leb_le. done. Qed.

(** Of an ASCII text only every fourth sextet can be a dash. *)
Lemma ascii_dashes v : Utf8.ascii v -> forall i, sextets v !! i = Some 62 -> (i mod 4 = 3)%nat.
Proof.
  induction v as [|a|a b|a b c v IH] using Rfc4648.ind3; intros Hv i; cbn [sextets app]; cbv zeta.
  - done.
  - apply Forall_inv, within_ascii in Hv. destruct i as [|[|i]]; intros E; cbn in E; [injection E..|done]; intros; Z.div_mod_to_equations; lia.
  - pose proof (Forall_inv (Forall_inv_tail Hv)) as Hb. apply Forall_inv, within_ascii in Hv. apply within_ascii in Hb.
    destruct i as [|[|[|i]]]; intros E; cbn in E; [injection E..|done]; intros; Z.div_mod_to_equations; lia.
  - pose proof (Forall_inv_tail (Forall_inv_tail (Forall_inv_tail Hv))) as Ht.
    pose proof (Forall_inv (Forall_inv_tail (Forall_inv_tail Hv))) as Hc. pose proof (Forall_inv (Forall_inv_tail Hv)) as Hb.
    apply Forall_inv, within_ascii in Hv. apply within_ascii in Hb, Hc.
    destruct i as [|[|[|[|i]]]]; intros E; cbn in E; [injection E; intros; Z.div_mod_to_equations; lia..|done|].
    specialize (IH Ht i E). replace (S (S (S (S i)))) with (i + 1 * 4)%nat by lia. by rewrite Nat.Div0.mod_add.
Qed.
(** The last sextet of a text that ends in a brace. *)
Lemma brace_last v : exists l x, sextets (v ++ [Byte.x7d]) = l ++ [x] /\ (x = 16 \/ x = 52 \/ x = 61).
Proof.
  induction v as [|a|a b|a b c v (l & x & E & Hx)] using Rfc4648.ind3; cbn [app sextets]; cbv zeta.
  - exists [31], 16. auto.
  - eexists [_; _], _. split; [reflexivity|]. vm_compute. auto.
  - eexists [_; _; _], _. split; [reflexivity|]. vm_compute. auto.
  - rewrite E. by eexists (_ :: _ :: _ :: _ :: l), x.
Qed.

(** Dashes a multiple of four apart. *)
Definition spaced (s : bytes) : Prop := exists c, forall i, s !! i = Some dash -> (i mod 4 = c)%nat.
Lemma spaced_contains p k s : spaced s -> p !! 0%nat = Some dash -> p !! k = Some dash -> (k mod 4 <> 0)%nat -> text_contains p s = false.
Proof.
  intros [c H] H0 Hk Hm. apply not_true_iff_false. rewrite contains_iff. intros (a & b & ->).
  pose proof (H (length a)) as Ha. pose proof (H (length a + k)%nat) as Hb.
  rewrite lookup_app_r, Nat.sub_diag, lookup_app_l in Ha by (done || by apply lookup_lt_Some in H0). specialize (Ha H0).
  rewrite lookup_app_r, lookup_app_l in Hb by (lia || (apply lookup_lt_Some in Hk; lia)).
  replace (length a + k - length a)%nat with k in Hb by lia. specialize (Hb Hk).
  pose proof (Nat.div_mod_eq (length a + k) 4). pose proof (Nat.div_mod_eq (length a) 4). pose proof (Nat.div_mod_eq k 4).
  pose proof (Nat.mod_upper_bound k 4 ltac:(lia)). lia.
Qed.
Lemma spaced_app s t : spaced s -> dash ∉ t -> spaced (s ++ t).
Proof.
  intros [c H] Ht. exists c. intros i Hi. apply lookup_app_Some in Hi as [Hi|[_ Hi]]; [by apply H|].
  apply list_elem_of_lookup_2 in Hi. done.
Qed.

(** *** Lower case, ends and white space *)
Lemma lower_app a b : to_ascii_lowercase (a ++ b) = to_ascii_lowercase a ++ to_ascii_lowercase b.
Proof. apply map_app. Qed.
Lemma lower_length s : length (to_ascii_lowercase s) = length s.
Proof. apply length_map. Qed.
(** A byte before the letters is its own lower case and nobody else's. *)
Lemma lower_mem x s : byte.unsigned x < 65 -> x ∈ to_ascii_lowercase s <-> x ∈ s.
Proof.
  intros Hx. unfold to_ascii_lowercase. rewrite list_elem_of_In, in_map_iff. split.
  - intros (b & E & Hb). destruct ((65 <=? byte.unsigned b) && (byte.unsigned b <=? 90)) eqn:R; [|by subst; apply list_elem_of_In].
    apply andb_true_iff in R as [R1%Z.leb_le R2%Z.leb_le]. subst x. rewrite byte.unsigned_of_Z in Hx. unfold byte.wrap in Hx.
    rewrite Z.mod_small in Hx by lia. lia.
  - intros H%list_elem_of_In. exists x. split; [|done]. by rewrite (proj2 (Z.leb_gt 65 (byte.unsigned x))) by lia.
Qed.
Lemma ends_with_iff s p : ends_with s p = true <-> exists r, s = r ++ p.
Proof.
  unfold ends_with. rewrite starts_with_iff. split.
  - intros [r E]. exists (rev r). rewrite <- (rev_involutive s), E, rev_app_distr. by rewrite rev_involutive.
  - intros [r ->]. exists (rev r). apply rev_app_distr.
Qed.
Lemma ends_with_not s t p x : x ∈ p -> x ∉ t -> (length p <= length t)%nat -> ends_with (s ++ t) p = false.
Proof.
  intros Hx Ht Hl. apply not_true_iff_false. rewrite ends_with_iff. intros [r E].
  apply app_eq_inv in E as [(k & -> & ->)|(k & -> & ->)]; [|set_solver].
  rewrite length_app in Hl. destruct k as [|y k]; [done|simpl in Hl; lia].
Qed.

Definition blank_heads : list (option byte) := head <$> (white_space ++ List.map (@rev byte) white_space).
Lemma blanks_ok : forallb (fun o => match o with Some b => negb (Utf8.within 0x2D 0x7A b) | None => false end) blank_heads = true.
Proof. vm_compute. reflexivity. Qed.
Lemma letter_not_blank x s p : letter x -> p ∈ white_space ++ List.map (@rev byte) white_space -> starts_with (x :: s) p = false.
Proof.
  intros [Hx _] Hp. pose proof (proj1 (forallb_forall _ _) blanks_ok (head p)) as H.
  specialize (H ltac:(apply list_elem_of_In; unfold blank_heads; by apply list_elem_of_fmap_2)).
  destruct p as [|y p]; [done|]. cbn in H. apply starts_with_head. intros ->. by rewrite Hx in H.
Qed.
Lemma strip_solid n ps x s : (forall p, p ∈ ps -> starts_with (x :: s) p = false) -> strip_any n ps (x :: s) = x :: s.
Proof.
  intros H. destruct n as [|n]; [done|]. cbn [strip_any].
  destruct (List.find (fun p => starts_with (x :: s) p) ps) as [p|] eqn:E; [|done].
  apply find_some in E as [E1%list_elem_of_In E2]. by rewrite H in E2.
Qed.
Lemma letters_ends name : Forall letter name -> name <> [] -> exists x t, name = x :: t /\ letter x /\ exists y u, rev name = y :: u /\ letter y.
Proof.
  intros Hn He. destruct name as [|x t]; [done|]. exists x, t. split; [done|]. split; [by inversion Hn|].
  destruct (rev (x :: t)) as [|y u] eqn:E; [by apply (f_equal length) in E; rewrite length_rev in E|]. exists y, u. split; [done|].
  rewrite Forall_forall in Hn. apply Hn. apply list_elem_of_In, in_rev. rewrite E. by left.
Qed.
Lemma trim_letters name : Forall letter name -> name <> [] -> trim name = name.
Proof.
  intros Hn He. destruct (letters_ends name Hn He) as (x & t & E & Hx & y & u & E' & Hy). unfold trim.
  rewrite E, strip_solid, <- E, E', strip_solid, <- E' by (intros p Hp; apply letter_not_blank; [done|apply elem_of_app; auto]).
  apply rev_involutive.
Qed.
Lemma trim_letters_space name : Forall letter name -> name <> [] -> trim (name ++ [Byte.x20]) = name.
Proof.
  intros Hn He. destruct (letters_ends name Hn He) as (x & t & E & Hx & y & u & E' & Hy). unfold trim.
  rewrite E. cbn [app]. rewrite strip_solid by (intros p Hp; apply letter_not_blank; [done|apply elem_of_app; auto]).
  change (x :: t ++ [Byte.x20]) with ((x :: t) ++ [Byte.x20]). rewrite <- E, rev_app_distr, E', length_app, Nat.add_1_r.
  change (rev [Byte.x20] ++ y :: u) with (Byte.x20 :: y :: u). cbn [strip_any].
  change (List.find _ (List.map (@rev byte) white_space)) with (Some [Byte.x20]). cbv iota.
  change (dropZ (len [Byte.x20]) (Byte.x20 :: y :: u)) with (y :: u).
  rewrite strip_solid by (intros p Hp; apply letter_not_blank; [done|apply elem_of_app; auto]).
  rewrite <- E'. apply rev_involutive.
Qed.

(** What is no white space survives. *)
Lemma strip_mem n ps b s : (forall p, p ∈ ps -> b ∉ p) -> b ∈ s -> b ∈ strip_any n ps s.
Proof.
  intros H. revert s. induction n as [|n IH]; intros s Hb; [done|]. cbn [strip_any].
  destruct (List.find (fun p => starts_with s p) ps) as [p|] eqn:E; [|done].
  apply find_some in E as [E1%list_elem_of_In E2]. apply starts_with_iff in E2 as [r ->]. apply IH.
  unfold dropZ, len. rewrite Nat2Z.id, drop_app_length. apply elem_of_app in Hb as [Hb|Hb]; [by destruct (H p E1)|done].
Qed.
Definition paren : byte := Byte.x28.
Lemma paren_ok : forallb (fun p => negb (bool_decide (paren ∈ p))) (white_space ++ List.map (@rev byte) white_space) = true.
Proof. vm_compute. reflexivity. Qed.
Lemma trim_paren s : paren ∈ s -> paren ∈ trim s.
Proof.
  assert (forall p, p ∈ white_space ++ List.map (@rev byte) white_space -> paren ∉ p) as H.
  { intros p Hp%list_elem_of_In. pose proof (proj1 (forallb_forall _ _) paren_ok p Hp) as Hq. by apply negb_true_iff, bool_decide_eq_false in Hq. }
  intros Hs. unfold trim. apply list_elem_of_In, in_rev. rewrite rev_involutive. apply list_elem_of_In. apply strip_mem.
  - intros p Hp. apply H, elem_of_app. auto.
  - apply list_elem_of_In. rewrite <- in_rev. apply list_elem_of_In. apply strip_mem; [|done]. intros p Hp. apply H, elem_of_app. auto.
Qed.
Lemma rev_chars_mem b s : b ∈ s -> b ∈ rev_chars s.
Proof.
  intros Hb. unfold rev_chars. rewrite list_elem_of_In, in_concat.
  assert (s = concat (snd <$> Utf8.chars s)) as E by (symmetry; by apply Utf8.chunks_concat).
  rewrite E in Hb. apply list_elem_of_In, in_concat in Hb as (c & Hc & Hb). exists c. split; [by apply in_rev; rewrite rev_involutive|done].
Qed.

(** ** Names are read back *)
Section Names.
Context {SG : Sign} {B : Base64Url} {LC : Lowercase} {J : Json CustomServer}.
Context {BL : Base64UrlLaws} {LCL : LowercaseLaws} {JL : ServerJsonLaws}.

Lemma letters_ascii s : Forall letter s -> Utf8.ascii s.
Proof.
  intros H. eapply Forall_impl; [exact H|]. clear H. intros b [H _]. unfold Utf8.within in *. rewrite !andb_true_iff, !Z.leb_le in *. lia.
Qed.
Lemma not_letter s x : Forall letter s -> Utf8.within 0x2D 0x7A x = false \/ x = Byte.x2e \/ x = Byte.x3d -> x ∉ s.
Proof. intros H Hx Hs. rewrite Forall_forall in H. destruct (H x Hs) as (H1 & H2 & H3). destruct Hx as [Hx|[Hx|Hx]]; congruence. Qed.

Lemma encode_letters d : Forall letter (url_encode d).
Proof.
  rewrite url_encode_sextets. apply Forall_fmap, Forall_forall. intros i Hi. apply digit_letter.
  pose proof (sextets_range d) as H. rewrite Forall_forall in H. by apply H.
Qed.
Lemma decode_letters t d : url_decode t = Some d -> Forall letter t.
Proof. intros H. rewrite <- (url_decode_canonical _ _ H). apply encode_letters. Qed.
Lemma encode_spaced d : Utf8.ascii d -> spaced (rev (url_encode d)).
Proof.
  intros Hd. rewrite url_encode_sextets. set (l := sextets d). exists (length l mod 4)%nat. intros i Hi.
  change (rev (url_digit <$> l)) with (rev (List.map url_digit l)) in Hi. rewrite <- map_rev in Hi.
  apply list_lookup_fmap_Some in Hi as (z & Ez & Hz). pose proof (lookup_lt_Some _ _ _ Hz) as Hlt. rewrite length_rev in Hlt.
  rewrite rev_alt in Hz. change (rev_append l []) with (reverse l) in Hz. rewrite reverse_lookup in Hz by done.
  assert (z = 62) as ->.
  { apply digit_letter; [|done]. pose proof (sextets_range d) as H. rewrite Forall_forall in H. apply H. by eapply list_elem_of_lookup_2. }
  pose proof (ascii_dashes d Hd _ Hz) as Hm. fold l in Hm.
  pose proof (Nat.div_mod_eq (length l - S i) 4). pose proof (Nat.div_mod_eq (length l) 4). pose proof (Nat.div_mod_eq i 4).
  pose proof (Nat.mod_upper_bound (length l) 4 ltac:(lia)). pose proof (Nat.mod_upper_bound i 4 ltac:(lia)). lia.
Qed.

(** A licence as part of a name: letters with spaced dashes, the first of them
    no dash, and read back. *)
Lemma gen_name_spec lic : plain lic -> exists name, gen_name lic = Some name /\ Forall letter name /\ spaced name /\
  (3 <= length name)%nat /\ (exists x t, name = x :: t /\ x <> dash /\ x <> Byte.x6c) /\ get_custom_server_from_config_string name = Some lic.
Proof.
  intros Hl. destruct (server_json lic Hl) as (m & E1 & E2 & Ha). cbv zeta in *. remember ([Byte.x7b] ++ m ++ [Byte.x7d]) as d eqn:Ed.
  pose proof (encode_letters d) as He. pose proof (letters_ascii _ He) as Hea.
  assert (Forall letter (rev (url_encode d))) as Hr by (apply Forall_rev, He).
  exists (rev (url_encode d)). unfold gen_name. rewrite E1. cbn. rewrite rev_chars_ascii by done. split; [done|]. split; [done|].
  split; [by apply encode_spaced|]. split; [|split].
  - rewrite length_rev, url_encode_sextets, length_fmap, Ed. cbn [app]. destruct m as [|a [|b m]]; simpl; lia.
  - destruct (brace_last ([Byte.x7b] ++ m)) as (l & x & E & Hx). rewrite <- app_assoc, <- Ed in E.
    rewrite url_encode_sextets, E, fmap_app, rev_app_distr. simpl. do 2 eexists. split; [done|].
    by destruct Hx as [-> | [-> | ->]].
  - unfold get_custom_server_from_config_string. rewrite rev_chars_ascii by (by apply letters_ascii). rewrite rev_involutive, url_decode_encode.
    cbn. by rewrite E2.
Qed.

(** A text whose end has no dot loses just the extension. *)
Lemma strip_exe_body s : Utf8.ascii s -> ends_with (to_ascii_lowercase s) (str ".exe") = false -> strip_exe (s ++ str ".exe") = Some s.
Proof.
  intros Hs He. unfold strip_exe. assert (Utf8.ascii (s ++ str ".exe")) as Ha by (apply Forall_app; split; [done|by repeat constructor]).
  rewrite lowercase_ascii, lower_app by done. change (to_ascii_lowercase (str ".exe")) with (str ".exe").
  assert (ends_with (to_ascii_lowercase s ++ str ".exe") (str ".exe.exe") = false) as ->.
  { apply not_true_iff_false. rewrite ends_with_iff. intros [r E]. change (str ".exe.exe") with (str ".exe" ++ str ".exe") in E.
    rewrite app_assoc in E. apply app_inv_tail in E. apply not_true_iff_false in He. apply He, ends_with_iff. by exists r. }
  rewrite (proj2 (ends_with_iff (to_ascii_lowercase s ++ str ".exe") (str ".exe"))) by (by eexists).
  rewrite (proj2 (Nat.ltb_ge (length (s ++ str ".exe")) 4)) by (rewrite length_app; simpl; lia).
  rewrite slice_ascii by (done || lia). rewrite drop_0, length_app. change (length (str ".exe")) with 4%nat.
  by rewrite Nat.add_sub, take_app_length.
Qed.

(** The word between dashes that marks a licence, and the separators it makes. *)
Definition mark (j : nat) : bytes := dash :: str "licensed" ++ replicate j dash.
Definition separators : list bytes := [str "--"; mark 1; mark 2; mark 3].
Definition normalise (s : bytes) : bytes :=
  replace (str "-licensed-") (str "--") (replace (str "-licensed--") (str "--") (replace (str "-licensed---") (str "--") s)).

(** A text in front of a dash that, with that dash, holds no mark and no [--]. *)
Lemma mark_straddle j p s r : (1 <= j)%nat -> p <> [] -> p ++ dash :: s = mark j ++ r -> exists q, p ++ [dash] = mark 1 ++ q.
Proof.
  intros Hj Hp E. assert (mark j = mark 1 ++ replicate (j - 1) dash) as Em by (unfold mark; destruct j; [lia|]; simpl; by rewrite Nat.sub_0_r).
  rewrite Em, <- app_assoc in E. change (dash :: s) with ([dash] ++ s) in E. rewrite app_assoc in E.
  apply app_eq_inv in E as [(k & E & _)|(k & E & _)]; [eauto|]. symmetry in E. exists []. rewrite app_nil_r. clear Em.
  destruct k as [|y k]; [by rewrite app_nil_r in E|]. exfalso. destruct p as [|x0 p]; [done|].
  change (mark 1) with (dash :: str "licensed" ++ [dash]) in E. cbn in E. injection E as _ E.
  apply (f_equal (@length byte)) in E as El. rewrite !length_app in El. simpl in El. apply (f_equal (lookup (length p))) in E.
  rewrite <- app_assoc, lookup_app_r, Nat.sub_diag in E by done. cbn [app lookup list_lookup] in E.
  assert (length p < 8)%nat as Hl by lia. clear El. do 8 (destruct p as [|? p]; [discriminate E|simpl in Hl]). lia.
Qed.
Lemma mark_before j p s r : (1 <= j)%nat -> text_contains (mark 1) (p ++ [dash]) = false ->
  replace (mark j) r (p ++ dash :: s) = p ++ replace (mark j) r (dash :: s).
Proof.
  intros Hj. induction p as [|x p IH]; intros H; [done|]. cbn [app] in *. rewrite contains_cons, orb_false_iff in H. destruct H as [H1 H2].
  rewrite replace_skip; [by rewrite IH|]. apply starts_with_not. intros r' E.
  apply (mark_straddle j (x :: p)) in E as [q E]; [|done..]. by apply (proj1 (starts_with_not _ _) H1) in E.
Qed.
Lemma dashes_before p s : text_contains (str "--") (p ++ [dash]) = false -> split_str (str "--") (p ++ dash :: s) = head_app p (split_str (str "--") (dash :: s)).
Proof.
  induction p as [|x p IH]; intros H.
  - simpl. pose proof (split_str_nonempty (str "--") (dash :: s)). by destruct (split_str (str "--") (dash :: s)).
  - cbn [app] in *. rewrite contains_cons, orb_false_iff in H. destruct H as [H1 H2].
    rewrite split_skip.
    + rewrite IH by done. pose proof (split_str_nonempty (str "--") (dash :: s)). by destruct (split_str (str "--") (dash :: s)).
    + apply starts_with_not. intros r' E. apply (proj1 (starts_with_not _ _) H1 (tail (p ++ [dash]))).
      destruct p as [|y p]; cbn in *; congruence.
Qed.

Section Marks.
Variables (x : byte) (t : bytes).
Hypothesis Hx : x <> dash.
Hypothesis Hl : x <> Byte.x6c.
Hypothesis Ht : spaced (x :: t).

Lemma mark_body j r : (1 <= j)%nat -> replace (mark j) r (x :: t) = x :: t.
Proof.
  intros Hj. apply replace_none; [done|]. apply (spaced_contains _ 9); [done..| |done].
  unfold mark. destruct j; [lia|]. done.
Qed.
Lemma mark_dashes j k r : (1 <= j)%nat -> replace (mark j) r (replicate k dash ++ x :: t) = replicate k dash ++ x :: t.
Proof.
  intros Hj. induction k as [|k IH]; [by apply mark_body|]. cbn [replicate app]. rewrite replace_skip; [by rewrite IH|].
  apply starts_with_not. intros r' E. unfold mark in E. cbn [app] in E. injection E as E. by destruct k; cbn in E; simplify_eq.
Qed.
Lemma mark_miss j k r : (k < j)%nat -> replace (mark j) r (mark k ++ x :: t) = mark k ++ x :: t.
Proof.
  intros Hk. unfold mark at 2 3. rewrite <- app_comm_cons, replace_skip.
  - unfold mark. f_equal. rewrite <- !app_assoc, replace_before by (apply (bool_decide_unpack _); vm_compute; done). f_equal.
    apply mark_dashes. lia.
  - apply starts_with_not. intros r' E.
    change (((dash :: str "licensed") ++ replicate k dash) ++ x :: t = ((dash :: str "licensed") ++ replicate j dash) ++ r') in E.
    rewrite <- !app_assoc in E. apply app_inv_head in E. replace j with (k + S (j - S k))%nat in E by lia. rewrite replicate_add, <- app_assoc in E. apply app_inv_head in E. cbn in E. congruence.
Qed.
Lemma mark_hit k r : (1 <= k)%nat -> replace (mark k) r (mark k ++ x :: t) = r ++ x :: t.
Proof. intros Hk. rewrite replace_here by done. by rewrite mark_body. Qed.

Lemma normalise_spec p sep : text_contains (mark 1) (p ++ [dash]) = false -> sep ∈ separators -> normalise (p ++ sep ++ x :: t) = p ++ str "--" ++ x :: t.
Proof.
  intros Hp Hs. unfold normalise. change (str "-licensed-") with (mark 1). change (str "-licensed--") with (mark 2).
  change (str "-licensed---") with (mark 3). change (str "--") with (replicate 2 dash) in *.
  assert (forall j r s z, (1 <= j)%nat -> s = dash :: z -> replace (mark j) r (p ++ s) = p ++ replace (mark j) r s) as P by (intros; subst; by apply mark_before).
  assert (exists z, replicate 2 dash ++ x :: t = dash :: z) as [z Ez] by (by eexists).
  apply list_elem_of_In in Hs. destruct Hs as [<-|[<-|[<-|[<-|[]]]]].
  - change (str "--") with (replicate 2 dash). do 3 (rewrite (P _ _ _ z), mark_dashes by (done || lia)). done.
  - do 2 (rewrite (P _ _ _ (str "licensed-" ++ x :: t)), mark_miss by (done || lia)). rewrite (P _ _ _ (str "licensed-" ++ x :: t)), mark_hit by (done || lia). done.
  - rewrite (P _ _ _ (str "licensed--" ++ x :: t)), mark_miss by (done || lia). rewrite (P _ _ _ (str "licensed--" ++ x :: t)), mark_hit by (done || lia).
    rewrite (P _ _ _ z), mark_dashes by (done || lia). done.
  - rewrite (P _ _ _ (str "licensed---" ++ x :: t)), mark_hit by (done || lia). do 2 (rewrite (P _ _ _ z), mark_dashes by (done || lia)). done.
Qed.
End Marks.

(** What Windows adds to the name of a second download. *)
Definition download_mark (suf : bytes) : Prop :=
  suf = [] \/ exists sp u, suf = sp ++ paren :: u /\ (sp = [] \/ sp = [Byte.x20]) /\ Utf8.ascii u /\ dash ∉ u /\ Byte.x3d ∉ u /\ Byte.x2e ∉ u.

Lemma read_body name suf lic : Forall letter name -> name <> [] -> get_custom_server_from_config_string name = Some lic -> download_mark suf ->
  read_licence [name ++ suf] = Some lic.
Proof.
  intros Hn He Hc [->|(sp & u & -> & Hsp & _)]; cbn [read_licence].
  - by rewrite app_nil_r, trim_letters, Hc.
  - assert (get_custom_server_from_config_string (trim (name ++ sp ++ paren :: u)) = None) as ->.
    { unfold get_custom_server_from_config_string. destruct (url_decode (rev_chars (trim (name ++ sp ++ paren :: u)))) as [d|] eqn:E; [exfalso|done].
      apply decode_letters in E. eapply (not_letter _ paren); [exact E|by left|]. apply rev_chars_mem, trim_paren. set_solver. }
    rewrite (proj2 (contains_iff (str "(") _)) by (exists (name ++ sp), u; by rewrite <- app_assoc).
    rewrite app_assoc. change (str "(") with [paren]. rewrite split_before.
    + change (paren :: u) with ([paren] ++ u). rewrite split_here by done. cbn [head_app first_config]. rewrite app_nil_r.
      destruct Hsp as [-> | ->]; [rewrite app_nil_r, trim_letters by done|rewrite trim_letters_space by done]; by rewrite Hc.
    + intros [H|H]%elem_of_app; [by eapply not_letter in H; [|exact Hn|left]|destruct Hsp as [-> | ->]; set_solver].
Qed.

Lemma download_ascii suf : download_mark suf -> Utf8.ascii suf /\ dash ∉ suf /\ Byte.x3d ∉ suf /\ Byte.x2e ∉ suf.
Proof.
  intros [->|(sp & u & -> & Hsp & Ha & H1 & H2 & H3)]; [split; [constructor|set_solver]|].
  split; [apply Forall_app; split; [destruct Hsp as [-> | ->]; repeat constructor|by constructor]|]. unfold paren. destruct Hsp as [-> | ->]; set_solver.
Qed.
Lemma separator_spec sep : sep ∈ separators -> Utf8.ascii sep /\ (exists q, sep = q ++ [dash]) /\ Byte.x3d ∉ sep /\ Byte.x2e ∉ sep.
Proof.
  intros H%list_elem_of_In. destruct H as [<-|[<-|[<-|[<-|[]]]]]; (split; [apply (bool_decide_unpack _); vm_compute; done|]);
    (split; [|split; apply (bool_decide_unpack _); vm_compute; done]).
  - by exists [dash].
  - by exists (mark 0).
  - by exists (mark 1).
  - by exists (mark 2).
Qed.

(** A prefix: ASCII without [host=], which together with the first dash of the
    separator that follows holds none itself, and no licence. *)
Definition no_host (p : bytes) : Prop := Utf8.ascii p /\ text_contains (str "host=") (to_ascii_lowercase p) = false.
Definition no_licence (p : bytes) : Prop :=
  text_contains (str "--") (p ++ [dash]) = false /\ text_contains (str "-licensed-") (p ++ [dash]) = false /\ read_licence [p] = None.

Lemma read_licence_cons p l : read_licence [p] = None -> read_licence (p :: l) = read_licence l.
Proof. cbn [read_licence]. intros H. repeat case_match; congruence. Qed.
Lemma no_host_body p sep name suf : Forall letter name -> no_host p -> sep ∈ separators -> download_mark suf ->
  Utf8.ascii (p ++ sep ++ name ++ suf) /\ text_contains (str "host=") (to_ascii_lowercase (p ++ sep ++ name ++ suf)) = false /\
  ends_with (to_ascii_lowercase (p ++ sep ++ name ++ suf)) (str ".exe") = false \/ (length name < 3)%nat.
Proof.
  intros Hn [Hp Hh] Hsep Hsuf. destruct (decide (length name < 3)%nat) as [|Hlen]; [by right|left].
  destruct (download_ascii suf Hsuf) as (A1 & A2 & A3 & A4). destruct (separator_spec sep Hsep) as (B1 & (q & Eq) & B2 & B3).
  pose proof (letters_ascii _ Hn) as Hna. split; [by repeat (apply Forall_app; split)|]. rewrite lower_app. split.
  - change (str "host=") with (str "host" ++ [Byte.x3d]). apply contains_apart; [|done].
    rewrite lower_mem by (vm_compute; done). pose proof (not_letter name Byte.x3d Hn ltac:(auto)). set_solver.
  - rewrite <- lower_app, Eq, <- (app_assoc q), (app_assoc p), lower_app. apply (ends_with_not _ _ _ Byte.x2e).
    + apply list_elem_of_In. by left.
    + rewrite lower_mem by (vm_compute; done). pose proof (not_letter name Byte.x2e Hn ltac:(auto)). unfold dash. set_solver.
    + rewrite lower_length, !length_app. simpl. lia.
Qed.

Lemma licence_read lic name p sep suf : plain lic -> gen_name lic = Some name -> no_host p -> no_licence p ->
  sep ∈ separators -> download_mark suf ->
  get_custom_server_from_string ((p ++ sep ++ name ++ suf) ++ str ".exe") = Parsed lic.
Proof.
  intros Hl Hg Hp (H1 & H2 & H3) Hsep Hsuf. destruct (gen_name_spec lic Hl) as (n & E & Hn & Hs & H4 & (x & t & En & Hx1 & Hx2) & Hlic).
  rewrite Hg in E. injection E as <-. destruct (download_ascii suf Hsuf) as (_ & A2 & _).
  destruct (no_host_body p sep name suf Hn Hp Hsep Hsuf) as [(Hall & Hh & He)|]; [|lia].
  unfold get_custom_server_from_string. rewrite strip_exe_body, lowercase_ascii, Hh by done.
  fold (normalise (p ++ sep ++ name ++ suf)).
  assert (spaced (x :: t ++ suf)) as Hsp by (change (x :: t ++ suf) with ((x :: t) ++ suf); rewrite <- En; by apply spaced_app).
  rewrite En. cbn [app]. rewrite normalise_spec by done.
  change (str "--" ++ x :: t ++ suf) with (dash :: dash :: x :: t ++ suf). rewrite dashes_before by done.
  change (dash :: dash :: x :: t ++ suf) with (str "--" ++ x :: t ++ suf). rewrite split_here by done.
  rewrite split_none by (done || (apply (spaced_contains _ 1); done)). cbn [head_app]. rewrite app_nil_r.
  change (x :: t ++ suf) with ((x :: t) ++ suf). rewrite <- En.
  by rewrite read_licence_cons, (read_body name suf lic Hn ltac:(by rewrite En) Hlic Hsuf).
Qed.

(** *** Names in clear *)
Definition comma : byte := Byte.x2c.
Lemma split_commas a l : Forall (fun x => comma ∉ x) (a :: l) -> split_str (str ",") (join (str ",") (a :: l)) = a :: l.
Proof.
  change (str ",") with [comma]. revert a. induction l as [|b l IH]; intros a H; inversion H as [|?? Ha Hl]; subst.
  - apply split_none; [done|]. apply (contains_missing _ _ comma); [by apply list_elem_of_In; left|done].
  - change (join [comma] (a :: b :: l)) with (a ++ [comma] ++ join [comma] (b :: l)).
    rewrite split_before, split_here, IH by done. cbn [head_app]. by rewrite app_nil_r.
Qed.

(** What stands between the commas: a value behind its label in any case, or
    text that begins with no label. *)
Inductive Field := FHost | FKey | FApi | FRelay.
#[export] Instance Field_eq_dec : EqDecision Field.
Proof. solve_decision. Defined.
Inductive Piece := Labelled (f : Field) (l v : bytes) | Junk (u : bytes).
Definition label (f : Field) : bytes :=
  match f with FHost => str "host=" | FKey => str "key=" | FApi => str "api=" | FRelay => str "relay=" end.
Definition put (f : Field) (v : bytes) (c : CustomServer) : CustomServer :=
  match f with
  | FHost => mkCustomServer (key c) v (api c) (relay c)
  | FKey => mkCustomServer v (host c) (api c) (relay c)
  | FApi => mkCustomServer (key c) (host c) v (relay c)
  | FRelay => mkCustomServer (key c) (host c) (api c) v
  end.
Definition text (x : Piece) : bytes := match x with Labelled _ l v => l ++ v | Junk u => u end.
Definition piece_ok (x : Piece) : Prop :=
  Utf8.ascii (text x) /\ comma ∉ text x /\
  match x with
  | Labelled f l v => to_ascii_lowercase l = label f
  | Junk u => forall f, starts_with (to_ascii_lowercase u) (label f) = false
  end.
Definition assign (c : CustomServer) (x : Piece) : CustomServer := match x with Labelled f _ v => put f v c | Junk _ => c end.
Definition no_server : CustomServer := mkCustomServer [] [] [] [].

Lemma label_begins f g w : starts_with (label f ++ w) (label g) = bool_decide (f = g).
Proof. destruct (decide (f = g)) as [->|H]; [rewrite bool_decide_eq_true_2 by done; apply starts_with_app|rewrite bool_decide_eq_false_2 by done; destruct f, g; try done; by apply starts_with_head]. Qed.
(** [read_field], by its labels. *)
Definition read_label (low el : bytes) (c : CustomServer) (f : Field) : CustomServer :=
  if starts_with low (label f) then put f (skip_chars (length (label f)) el) c else c.
Lemma read_labels c el : read_field c el = fold_left (read_label (to_lowercase el) el) [FHost; FKey; FApi; FRelay] c.
Proof. unfold read_field, read_label. cbn [fold_left label put]. repeat case_match; reflexivity. Qed.
Lemma read_piece c x : piece_ok x -> read_field c (text x) = assign c x.
Proof.
  intros (Ha & _ & H). rewrite read_labels, lowercase_ascii by done. destruct x as [f l v|u]; cbn [text assign fold_left] in *; unfold read_label.
  - rewrite lower_app, H, !label_begins. assert (skip_chars (length (label f)) (l ++ v) = v) as E.
    { rewrite skip_chars_ascii, <- H, lower_length by done. apply drop_app_length. }
    destruct f; repeat rewrite (bool_decide_eq_false_2 (_ = _)) by done; by rewrite bool_decide_eq_true_2, E by done.
  - by rewrite !H.
Qed.
Lemma read_pieces xs c : Forall piece_ok xs -> fold_left read_field (text <$> xs) c = fold_left assign xs c.
Proof. intros H. revert c. induction H as [|x xs Hx _ IH]; intros c; [done|]. simpl. by rewrite read_piece, IH. Qed.

(** The name: pieces between commas, a host first. *)
Definition clear_name (xs : list Piece) : bytes := join (str ",") (text <$> xs).
Lemma clear_ascii xs : Forall piece_ok xs -> Utf8.ascii (clear_name xs).
Proof.
  unfold clear_name. intros H. induction H as [|x xs (Hx & _) _ IH]; [constructor|]. destruct xs as [|y xs]; [done|].
  change (join _ _) with (text x ++ str "," ++ join (str ",") (text <$> y :: xs)). repeat (apply Forall_app; split); try done. by repeat constructor.
Qed.
Lemma clear_host l v xs : to_ascii_lowercase l = label FHost -> exists z, to_ascii_lowercase (clear_name (Labelled FHost l v :: xs)) = str "host=" ++ z.
Proof.
  intros H. assert (exists z, clear_name (Labelled FHost l v :: xs) = l ++ z) as [z ->].
  { unfold clear_name. destruct xs as [|y xs]; cbn [fmap list_fmap join text]; [eauto|]. rewrite <- app_assoc. eauto. }
  rewrite lower_app, H. eauto.
Qed.

Lemma clear_read l v xs p : Forall piece_ok (Labelled FHost l v :: xs) -> no_host p ->
  ends_with (to_ascii_lowercase (p ++ clear_name (Labelled FHost l v :: xs))) (str ".exe") = false ->
  get_custom_server_from_string ((p ++ clear_name (Labelled FHost l v :: xs)) ++ str ".exe") =
    Parsed (fold_left assign (Labelled FHost l v :: xs) no_server).
Proof.
  intros Hx [Hp Hh] Hd. set (ys := Labelled FHost l v :: xs) in *. pose proof (clear_ascii ys Hx) as Ha.
  assert (Utf8.ascii (p ++ clear_name ys)) as Hall by (by apply Forall_app).
  unfold get_custom_server_from_string. rewrite strip_exe_body, lowercase_ascii by done.
  destruct (clear_host l v xs) as [z Ez]; [by apply Forall_inv in Hx as (_ & _ & ?)|]. fold ys in Ez.
  rewrite lower_app, Ez, (proj2 (contains_iff (str "host=") _)) by eauto.
  change (str "host=") with (str "host" ++ [Byte.x3d]). rewrite find_first; [|apply (bool_decide_unpack _); vm_compute; done|done].
  cbn [default from_option id]. rewrite lower_length, slice_ascii by (done || rewrite length_app; lia).
  rewrite firstn_all, drop_app_length. unfold read_fields, clear_name. subst ys. rewrite fmap_cons, split_commas; [|].
  - by rewrite <- fmap_cons, read_pieces.
  - rewrite <- fmap_cons. apply Forall_fmap. eapply Forall_impl; [exact Hx|]. by intros x (_ & ? & _).
Qed.

(** [C28] A program's file name says which servers to use, and it is read as it
    was written. A licence of ASCII values, as [gen_name] makes it, is read back
    after each of the four separators, behind every ASCII prefix that has neither
    [host=] nor a separator nor a licence of its own (counting the dash that
    follows it), also when a second download added a mark like [ (1)] to the name;
    no dash inside a licence can be mistaken for a separator. A name in clear,
    behind every ASCII prefix without [host=], gives each value under its label:
    a host first and then any of the labels in any order and any case, ASCII
    values without commas, the whole not ending in [.exe] before its extension;
    text that begins with no label is ignored, and a label's last value counts. *)
Theorem server_names_read :
  (forall lic name p sep suf, plain lic -> gen_name lic = Some name -> no_host p -> no_licence p ->
    sep ∈ separators -> download_mark suf ->
    get_custom_server_from_string ((p ++ sep ++ name ++ suf) ++ str ".exe") = Parsed lic) /\
  (forall l v xs p, Forall piece_ok (Labelled FHost l v :: xs) -> no_host p ->
    ends_with (to_ascii_lowercase (p ++ clear_name (Labelled FHost l v :: xs))) (str ".exe") = false ->
    get_custom_server_from_string ((p ++ clear_name (Labelled FHost l v :: xs)) ++ str ".exe") =
      Parsed (fold_left assign (Labelled FHost l v :: xs) no_server)).
Proof. split; [apply licence_read|apply clear_read]. Qed.

(** The [--config] command takes what the name says. *)
Lemma config_applies lic name suf : plain lic -> gen_name lic = Some name -> host lic <> [] -> download_mark suf ->
  read_licence [str "codedesk"] = None ->
  config_command true [str "--config"; (str "codedesk" ++ mark 1 ++ name ++ suf) ++ str ".exe"] =
    Some [(str "key", key lic); (str "custom-rendezvous-server", host lic); (str "api-server", api lic); (str "relay-server", relay lic)].
Proof.
  intros Hl Hg Hh Hs Hp. unfold config_command. change (negb (text_contains (str "host=") (str "--config")) && true) with true. cbv iota.
  rewrite (proj2 (ends_with_iff _ (str ".exe"))) by eauto.
  rewrite (licence_read lic name); [by destruct (host lic)|done..| | |by apply list_elem_of_In; right; left|done].
  - split; [apply (bool_decide_unpack _); vm_compute; done|done].
  - done.
Qed.

(** *** The name that is printed *)
Definition digit_o (i : Z) : bool := implb (bool_decide (url_digit i = Byte.x6f)) (i =? 40) && implb (bool_decide (url_digit i = Byte.x63)) (i =? 28).
Lemma digits_o : forallb digit_o (List.map Z.of_nat (seq 0 64)) = true.
Proof. vm_compute. reflexivity. Qed.
Lemma digit_o_c i : 0 <= i < 64 -> (url_digit i = Byte.x6f -> i = 40) /\ (url_digit i = Byte.x63 -> i = 28).
Proof.
  intros Hi. assert (digit_o i = true) as H.
  { apply (proj1 (forallb_forall digit_o _) digits_o). apply in_map_iff. exists (Z.to_nat i). split; [lia|]. apply in_seq. lia. }
  unfold digit_o in H. apply andb_true_iff in H as [H1 H2].
  split; intros E; [rewrite (bool_decide_eq_true_2 _ E) in H1; by apply Z.eqb_eq in H1|rewrite (bool_decide_eq_true_2 _ E) in H2; by apply Z.eqb_eq in H2].
Qed.
(** Sextets that end in [40; 28] come from a text that ends in 0x1C or 0x87. *)
Lemma last_byte v l : sextets v = l ++ [40; 28] -> exists u b, v = u ++ [b] /\ (b = Byte.x1c \/ b = Byte.x87).
Proof.
  revert l. induction v as [|a|a b|a b c v IH] using Rfc4648.ind3; intros l E; cbn [sextets app] in E; cbv zeta in E.
  - by destruct l.
  - pose proof (byte.unsigned_range a). pose proof (f_equal length E) as Hl. rewrite length_app in Hl.
    destruct l; simpl in Hl; [|lia]. injection E as E1 E2. Z.div_mod_to_equations; lia.
  - pose proof (byte.unsigned_range a). pose proof (byte.unsigned_range b). pose proof (f_equal length E) as Hl. rewrite length_app in Hl.
    destruct l as [|x [|y l]]; simpl in Hl; [lia| |lia]. injection E as _ E1 E2.
    exists [a], b. split; [done|]. right. apply byte.unsigned_inj. change (byte.unsigned Byte.x87) with 135. Z.div_mod_to_equations; lia.
  - pose proof (byte.unsigned_range b). pose proof (byte.unsigned_range c).
    destruct v as [|d v].
    + pose proof (f_equal length E) as Hl. rewrite length_app in Hl.
      destruct l as [|x [|y [|z l]]]; simpl in Hl; [lia|lia| |lia]. injection E as _ _ E1 E2.
      exists [a; b], c. split; [done|]. left. apply byte.unsigned_inj. change (byte.unsigned Byte.x1c) with 28. Z.div_mod_to_equations; lia.
    + assert (2 <= length (sextets (d :: v)))%nat as Hl by (destruct v as [|? [|? ?]]; simpl; lia).
      assert (exists l', sextets (d :: v) = l' ++ [40; 28]) as [l' El].
      { change (?w :: ?x :: ?y :: ?z :: sextets (d :: v)) with ([w; x; y; z] ++ sextets (d :: v)) in E.
        apply app_eq_inv in E as [(k & E1 & E2)|(k & E1 & E2)]; [|eauto].
        destruct k as [|? k]; [by exists []|]. apply (f_equal length) in E2. rewrite length_app in E2. cbn [length] in E2. lia. }
      destruct (IH _ El) as (u & b' & E' & Hb). rewrite E'. by exists (a :: b :: c :: u), b'.
Qed.
Lemma not_json d l : sextets d = l ++ [40; 28] -> from_json (A := CustomServer) d = None.
Proof.
  intros H. destruct (from_json d) as [c|] eqn:E; [exfalso|done]. apply server_json_closed in E as (m & b & t & -> & Hb & Ht).
  apply last_byte in H as (u & x & E & Hx). destruct (rev t) as [|y r] eqn:Er.
  - apply (f_equal (@rev byte)) in Er. rewrite rev_involutive in Er. subst t. apply app_inj_tail in E as [_ ->]. destruct Hb, Hx; congruence.
  - apply (f_equal (@rev byte)) in Er. rewrite rev_involutive in Er. simpl in Er. subst t.
    rewrite app_comm_cons, app_assoc in E. apply app_inj_tail in E as [_ ->]. apply Forall_app in Ht as [_ Ht%Forall_inv].
    destruct Hx as [-> | ->]; vm_compute in Ht; discriminate.
Qed.

Lemma printed_body x t : x <> dash -> x <> Byte.x6c -> spaced (x :: t) -> let s := str "codedesk-custom_serverd-" ++ x :: t in
  normalise s = s /\ split_str (str "--") s = [s].
Proof.
  intros Hx Hl Ht. cbv zeta.
  change (str "codedesk-custom_serverd-" ++ x :: t) with (str "codedesk" ++ dash :: str "custom_serverd" ++ replicate 1 dash ++ x :: t).
  assert (forall j r, (1 <= j)%nat -> replace (mark j) r (str "codedesk" ++ dash :: str "custom_serverd" ++ replicate 1 dash ++ x :: t) =
    str "codedesk" ++ dash :: str "custom_serverd" ++ replicate 1 dash ++ x :: t) as H.
  { intros j r Hj. unfold mark. rewrite replace_before by (apply (bool_decide_unpack _); vm_compute; done). f_equal.
    rewrite replace_skip by (apply starts_with_not; intros r' E; discriminate E). f_equal.
    rewrite replace_before by (apply (bool_decide_unpack _); vm_compute; done). f_equal. by apply mark_dashes. }
  split.
  - unfold normalise. change (str "-licensed-") with (mark 1). change (str "-licensed--") with (mark 2). change (str "-licensed---") with (mark 3).
    by rewrite !H by lia.
  - change (str "--") with [dash; dash]. rewrite split_before by (apply (bool_decide_unpack _); vm_compute; done).
    rewrite split_skip by (apply starts_with_not; intros r' E; discriminate E).
    rewrite split_before by (apply (bool_decide_unpack _); vm_compute; done). cbn [replicate app].
    rewrite split_skip by (apply starts_with_not; intros r' E; by simplify_eq/=).
    rewrite split_none by (done || (apply (spaced_contains _ 1); done)). done.
Qed.

(** The name [naming.rs] prints for a licence has no separator that is read, so
    that the program does not find the licence in it (unless it verifies by chance
    under the built-in key). *)
Theorem printed_name_not_read k h out : Utf8.ascii k -> Utf8.ascii h -> naming_main [k; h] = Some out -> (forall d, verify d PK = None) ->
  get_custom_server_from_string out = NotParsed.
Proof.
  intros Hk Hh Ho Hv. destruct (gen_name_spec (mkCustomServer k h [] [])) as (name & E & Hn & Hs & H4 & (x & t & En & Hx1 & Hx2) & _);
    [by repeat split; try constructor|].
  change (naming_main [k; h]) with (n ← gen_name (mkCustomServer k h [] []); Some (str "codedesk-custom_serverd-" ++ n ++ str ".exe")) in Ho.
  rewrite E in Ho. cbn [mbind option_bind] in Ho. assert (out = str "codedesk-custom_serverd-" ++ name ++ str ".exe") as -> by congruence. clear Ho.
  set (pre := str "codedesk-custom_serverd-"). assert (Forall letter pre) as Hpre by (by repeat constructor).
  assert (Forall letter (pre ++ name)) as Hall by (by apply Forall_app). pose proof (letters_ascii _ Hall) as Ha.
  rewrite app_assoc. unfold get_custom_server_from_string. rewrite strip_exe_body; [|done|].
  2:{ apply (ends_with_not [] (to_ascii_lowercase (pre ++ name)) _ Byte.x2e); [by apply list_elem_of_In; left| |rewrite lower_length, length_app; simpl; lia].
      rewrite lower_mem by (vm_compute; done). apply (not_letter _ _ Hall). auto. }
  rewrite lowercase_ascii by done.
  rewrite (contains_missing _ _ Byte.x3d); [|apply list_elem_of_In; simpl; auto 10|rewrite lower_mem by (vm_compute; done); apply (not_letter _ _ Hall); auto].
  fold (normalise (pre ++ name)). rewrite En in *. destruct (printed_body x t Hx1 Hx2 Hs) as [N1 N2]. fold pre in N1, N2.
  rewrite N1, N2. cbn [read_licence].
  rewrite (contains_missing _ _ paren); [|by apply list_elem_of_In; left|apply (not_letter _ _ Hall); by left].
  rewrite trim_letters by done.
  assert (get_custom_server_from_config_string (pre ++ x :: t) = None) as ->; [|done].
  unfold get_custom_server_from_config_string. rewrite rev_chars_ascii by done.
  destruct (url_decode (rev (pre ++ x :: t))) as [d|] eqn:Ed; [|done]. simpl. rewrite Hv.
  apply url_decode_canonical in Ed. rewrite url_encode_sextets, rev_app_distr in Ed.
  assert (exists l, sextets d = l ++ [40; 28]) as [l El]; [|by rewrite (not_json d l)].
  change (rev pre) with (rev (str "codedesk-custom_serverd-")) in Ed.
  change (rev (str "codedesk-custom_serverd-")) with (rev (str "dedesk-custom_serverd-") ++ [Byte.x6f; Byte.x63]) in Ed.
  rewrite app_assoc in Ed. change (url_digit <$> sextets d) with (List.map url_digit (sextets d)) in Ed. apply map_eq_app in Ed as (l1 & l2 & El & _ & E2). apply map_eq_cons in E2 as (i & l3 & -> & Ei & E3).
  apply map_eq_cons in E3 as (j & l4 & -> & Ej & E4). apply map_eq_nil in E4 as ->. exists l1. pose proof (sextets_range d) as R. rewrite El in R.
  apply Forall_app in R as [_ R]. inversion R as [|?? R1 R']. inversion R' as [|?? R2 _]. subst.
  by rewrite El, (proj1 (digit_o_c i R1) Ei), (proj2 (digit_o_c j R2) Ej).
Qed.
End Names.

(** ** The interfaces can be implemented *)
Module Demo.
(** Base64 by groups; a decoded text is checked by encoding it again. *)
Fixpoint unsext (l : list Z) : option bytes :=
  match l with
  | [] => Some []
  | [a; b] => Some [byte.of_Z (a * 4 + b / 16)]
  | [a; b; c] => Some [byte.of_Z (a * 4 + b / 16); byte.of_Z (b * 16 + c / 4)]
  | a :: b :: c :: d :: l =>
      v ← unsext l; Some ([byte.of_Z (a * 4 + b / 16); byte.of_Z (b * 16 + c / 4); byte.of_Z (c * 64 + d)] ++ v)
  | _ => None
  end.
Definition encode (v : bytes) : bytes := url_digit <$> sextets v.
Definition value (b : byte) : Z := default 0 (Rfc4648.index url_alphabet b).
Definition decode (t : bytes) : option bytes :=
  v ← unsext (value <$> t); if bool_decide (encode v = t) then Some v else None.
#[export] Instance base64_url : Base64Url := { url_encode := encode; url_decode := decode }.

Lemma values_ok : forallb (fun i => value (url_digit i) =? i) (List.map Z.of_nat (seq 0 64)) = true.
Proof. vm_compute. reflexivity. Qed.
Lemma value_digit i : 0 <= i < 64 -> value (url_digit i) = i.
Proof.
  intros Hi. apply Z.eqb_eq. apply (proj1 (forallb_forall _ _) values_ok). apply in_map_iff. exists (Z.to_nat i). split; [lia|]. apply in_seq. lia.
Qed.
Lemma unsext_sextets v : unsext (sextets v) = Some v.
Proof.
  induction v as [|a|a b|a b c v IH] using Rfc4648.ind3; [done|..]; cbn [sextets unsext app]; cbv zeta;
    pose proof (byte.unsigned_range a); try pose proof (byte.unsigned_range b); try pose proof (byte.unsigned_range c).
  - do 2 f_equal. apply Rfc4648.byte_eq. Z.div_mod_to_equations; lia.
  - f_equal. repeat f_equal; apply Rfc4648.byte_eq; Z.div_mod_to_equations; lia.
  - rewrite IH. cbn. f_equal. repeat f_equal; apply Rfc4648.byte_eq; Z.div_mod_to_equations; lia.
Qed.
Lemma values_sextets v : value <$> encode v = sextets v.
Proof.
  unfold encode. rewrite <- list_fmap_compose. rewrite <- (list_fmap_id (sextets v)) at 2. apply list_fmap_ext.
  intros i z Hz. apply value_digit. pose proof (sextets_range v) as R. rewrite Forall_forall in R. apply R. by eapply list_elem_of_lookup_2.
Qed.
#[export] Instance base64_url_laws : Base64UrlLaws.
Proof.
  split; [done| |].
  - intros v. cbn. unfold decode. rewrite values_sextets, unsext_sextets. cbn. by rewrite bool_decide_eq_true_2.
  - intros t v. cbn. unfold decode. intros H. apply bind_Some in H as (v' & _ & H). case_bool_decide; congruence.
Qed.

(** Lower case of ASCII and of the Kelvin sign, U+212A. *)
Definition kelvin : bytes := [Byte.xe2; Byte.x84; Byte.xaa].
#[export] Instance lowercase : Lowercase :=
  { to_lowercase s := concat ((fun c => if bool_decide (c = kelvin) then [Byte.x6b] else to_ascii_lowercase c) <$> (snd <$> Utf8.chars s)) }.
#[export] Instance lowercase_laws : LowercaseLaws.
Proof.
  split. intros s H. cbn. rewrite chars_ascii by done. clear H. induction s as [|b s IH]; [done|]. cbn.
  rewrite bool_decide_eq_false_2 by done. cbn. f_equal. apply IH.
Qed.

(** Records in braces, every byte as two letters, each field closed by a full
    stop; a text that is read is checked by writing it again. *)
Definition low (z : Z) : byte := byte.of_Z (97 + z).
Definition spell (s : bytes) : bytes := concat ((fun b => [low (byte.unsigned b / 16); low (byte.unsigned b mod 16)]) <$> s).
Fixpoint unspell (s : bytes) : bytes * bytes :=
  match s with
  | Byte.x2e :: s => ([], s)
  | a :: b :: s => let '(f, r) := unspell s in (byte.of_Z ((byte.unsigned a - 97) * 16 + (byte.unsigned b - 97)) :: f, r)
  | _ => ([], [])
  end.
Definition spelled (c : CustomServer) : bytes :=
  spell (key c) ++ [Byte.x2e] ++ spell (host c) ++ [Byte.x2e] ++ spell (api c) ++ [Byte.x2e] ++ spell (relay c) ++ [Byte.x2e].
Definition write (c : CustomServer) : bytes := [Byte.x7b] ++ spelled c ++ [Byte.x7d].
Definition parse (s : bytes) : CustomServer :=
  let '(k, s) := unspell (drop 1 s) in let '(h, s) := unspell s in let '(a, s) := unspell s in let '(r, s) := unspell s in mkCustomServer k h a r.
#[export] Instance json : Json CustomServer :=
  { to_json c := Some (write c); from_json s := if bool_decide (write (parse s) = s) then Some (parse s) else None }.

Lemma low_range z : 0 <= z < 16 -> byte.unsigned (low z) = 97 + z.
Proof. intros H. unfold low. rewrite byte.unsigned_of_Z. unfold byte.wrap. apply Z.mod_small. lia. Qed.
Lemma unspell_spell s r : unspell (spell s ++ [Byte.x2e] ++ r) = (s, r).
Proof.
  induction s as [|b s IH]; [done|]. pose proof (byte.unsigned_range b) as Hb.
  assert (0 <= byte.unsigned b / 16 < 16 /\ 0 <= byte.unsigned b mod 16 < 16) as [H1 H2] by (Z.div_mod_to_equations; lia).
  change (spell (b :: s) ++ [Byte.x2e] ++ r) with (low (byte.unsigned b / 16) :: low (byte.unsigned b mod 16) :: (spell s ++ [Byte.x2e] ++ r)).
  pose proof (low_range _ H1) as E1. pose proof (low_range _ H2) as E2. set (x := low (byte.unsigned b / 16)) in *. set (y := low (byte.unsigned b mod 16)) in *.
  assert (unspell (x :: y :: (spell s ++ [Byte.x2e] ++ r)) =
    let '(f, q) := unspell (spell s ++ [Byte.x2e] ++ r) in (byte.of_Z ((byte.unsigned x - 97) * 16 + (byte.unsigned y - 97)) :: f, q)) as ->.
  { assert (x <> Byte.x2e) by (intros Ex; rewrite Ex in E1; change (byte.unsigned Byte.x2e) with 46 in E1; lia). clearbody x. by destruct x. }
  rewrite IH. do 2 f_equal. apply Rfc4648.byte_eq. rewrite E1, E2. Z.div_mod_to_equations; lia.
Qed.
Lemma spell_ascii s : Utf8.ascii (spell s).
Proof.
  induction s as [|b s IH]; [constructor|]. pose proof (byte.unsigned_range b) as Hb. unfold spell. cbn.
  assert (0 <= byte.unsigned b / 16 < 16 /\ 0 <= byte.unsigned b mod 16 < 16) as [H1 H2] by (Z.div_mod_to_equations; lia).
  constructor; [|constructor; [|exact IH]]; unfold Utf8.within; rewrite low_range, andb_true_iff, !Z.leb_le by done; lia.
Qed.
Lemma parse_write c : parse (write c) = c.
Proof.
  unfold parse. change (drop 1 (write c)) with (spelled c ++ [Byte.x7d]). unfold spelled. rewrite <- !app_assoc.
  rewrite !unspell_spell. by destruct c.
Qed.
#[export] Instance json_laws : ServerJsonLaws.
Proof.
  split.
  - intros c _. exists (spelled c). split; [done|]. split.
    + cbn. fold (write c). change (Byte.x7b :: spelled c ++ [Byte.x7d]) with (write c). rewrite parse_write, bool_decide_eq_true_2 by done. done.
    + unfold spelled. repeat (apply Forall_app; split); try apply spell_ascii; by repeat constructor.
  - intros s c. cbn. case_bool_decide as E; [|done]. intros _. rewrite <- E. unfold write. exists ([Byte.x7b] ++ spelled (parse s)), Byte.x7d, [].
    split; [by rewrite <- app_assoc|auto].
Qed.
End Demo.

(** ** Examples *)
#[local] Existing Instances Toy.sign_ Toy.sign_laws Demo.base64_url Demo.base64_url_laws Demo.lowercase Demo.lowercase_laws Demo.json Demo.json_laws.
Definition demo_server : CustomServer := mkCustomServer (str "5Qbw=") (str "1.1.1.1") (str "abc") [].
Definition demo_name : bytes := default [] (gen_name demo_server).
Definition demo_pieces : list Piece :=
  [Labelled FRelay (str "RELAY=") (str "old"); Labelled FKey (str "key=") (str "5Qbw="); Labelled FApi (str "Api=") (str "abc");
   Labelled FRelay (str "relay=") []; Junk (str "(1)")].

Lemma server_names_witness :
  get_custom_server_from_string ((str "my-code=desk(x)" ++ mark 1 ++ demo_name ++ str " (1) (2)") ++ str ".exe") = Parsed demo_server /\
  get_custom_server_from_string ((str "codedesk--licensed-" ++ clear_name (Labelled FHost (str "Host=") (str "1.1.1.1") :: demo_pieces)) ++ str ".exe") =
    Parsed demo_server.
Proof.
  assert (plain demo_server) as Hp by (repeat split; apply (bool_decide_unpack _); vm_compute; exact I).
  destruct (server_names_read (SG := Toy.sign_)) as [H1 H2]. split.
  - apply H1; [exact Hp|reflexivity| | |right; left|right].
    + split; [apply (bool_decide_unpack _); vm_compute; exact I|vm_compute; reflexivity].
    + repeat split; vm_compute; reflexivity.
    + exists [Byte.x20], (str "1) (2)"). split; [reflexivity|]. split; [by right|]. repeat split; apply (bool_decide_unpack _); vm_compute; exact I.
  - etransitivity; [apply H2|reflexivity].
    + repeat (constructor; [split; [apply (bool_decide_unpack _); vm_compute; exact I|split; [apply (bool_decide_unpack _); vm_compute; exact I|]]|]);
        [reflexivity..|intros []; reflexivity|constructor].
    + split; [apply (bool_decide_unpack _); vm_compute; exact I|vm_compute; reflexivity].
    + vm_compute. reflexivity.
Defined.

(** The names of the source's own tests, in clear. *)
Example clear_tests :
  get_custom_server_from_string (str "rustdesk.exe") = NotParsed /\
  get_custom_server_from_string (str "rustdesk-host=server.example.net.exe") = Parsed (mkCustomServer [] (str "server.example.net") [] []) /\
  get_custom_server_from_string (str "rustdesk-host=server.example.net,.exe") = Parsed (mkCustomServer [] (str "server.example.net") [] []) /\
  get_custom_server_from_string (str "rustdesk-host=server.example.net,api=abc,key=Zm9vYmFyLiwyCg==.exe") =
    Parsed (mkCustomServer (str "Zm9vYmFyLiwyCg==") (str "server.example.net") (str "abc") []) /\
  get_custom_server_from_string (str "rustdesk-Host=server.example.net,Key=Zm9vYmFyLiwyCg==,RELAY=server.example.net.exe") =
    Parsed (mkCustomServer (str "Zm9vYmFyLiwyCg==") (str "server.example.net") [] (str "server.example.net")).
Proof. vm_compute. done. Qed.

(** A licence is read whether or not somebody signed it. *)
Lemma unsigned_licence_read {SG : Sign} {B : Base64Url} {J : Json CustomServer} {BL : Base64UrlLaws} {JL : ServerJsonLaws} lic name :
  plain lic -> gen_name lic = Some name -> get_custom_server_from_config_string name = Some lic.
Proof. intros Hl Hg. destruct (gen_name_spec lic Hl) as (n & E & _ & _ & _ & _ & H). congruence. Qed.

(** The name the tool prints is not found by the program. *)
Example printed_not_read : exists out, naming_main [str "5Qbw="; str "1.1.1.1"] = Some out /\ get_custom_server_from_string out = NotParsed.
Proof. eexists. split; [vm_compute; reflexivity|vm_compute; reflexivity]. Qed.

(** The place of [host=] in the lower-case text is used in the text itself: a
    character whose lower case is shorter makes the slice panic. *)
Example kelvin_panics : get_custom_server_from_string (Demo.kelvin ++ str "host=a.exe") = Panicked.
Proof. vm_compute. done. Qed.
(** [--config] looks for [host=] in the name of the command, not in its argument. *)
Example config_guard_misses : config_command true [str "--config"; str "codedesk-host=a"] =
  Some [(str "key", []); (str "custom-rendezvous-server", str "a"); (str "api-server", []); (str "relay-server", [])].
Proof. vm_compute. done. Qed.
